(* ===== verification/_CoqProject ===== *)
-Q . S2P
Prelude.v
Types.v
Transaction.v
Sample.v
Rollback.v
BitNameSeqId.v
BitNames.v
Authorization.v
State.v
Merkle.v
Block.v
BlockSamples.v
BlockSafety.v
BlockEquiv.v
BlockValue.v
BlockRollback.v
Ownership.v
BlockChain.v
WithdrawalBundle.v
TwoWayPeg.v
PegMoves.v
PegBooks.v
PegRollback.v
PegChain.v
Mempool.v
Solvency.v
Chain.v
SideTips.v
Lineage.v
Archive.v
ArchiveTree.v
ArchiveWf.v
ArchiveBodies.v
TipsWf.v
ArchiveQueries.v
ArchiveSamples.v
ArchiveIter.v
BetterTip.v
MainchainTask.v
Node.v
NodeTask.v
Reorg.v
NodePool.v
NodeRollback.v
NodeSamples.v
HeadersSync.v
Wallet.v
WalletCoins.v
WalletSpend.v
WalletNames.v
App.v
AppWallet.v
AppTemplate.v
WalletSamples.v
PeerMessage.v
PeerTask.v
NetAddress.v
Encodings.v
Derivation.v
OutPointKey.v
Proto.v
Net.v
NetTask.v
NodeQueries.v
PeerBodies.v
PeerSync.v
BodyTotal.v
MainchainRun.v
MainchainSync.v
PeerInvariant.v
NetBodies.v
TipTotal.v
NetExchange.v
NetFaults.v
PeerSamples.v
NetSamples.v
Paymail.v
Miner.v
Rpc.v
AppSamples.v
