(* ===== verification/Prelude.v ===== *)
(** * Verification of the BitNames sidechain

    The program under [src/] is a BIP300/301 sidechain of Bitcoin on which names
    ("BitNames") are reserved, registered, updated and transferred. A full node
    keeps an archive of the headers and bodies of two block trees (the sidechain,
    and the mainchain that commits to it), follows the better tip, keeps the
    sidechain state in a set of key-value databases, connects blocks to it and
    disconnects them on a reorganisation, follows the deposits and withdrawal
    bundles of the mainchain, keeps a pool of transactions, and exchanges headers,
    bodies and transactions with its peers. A wallet and an application sit on top.

    ** The parts of the program, and the files that model them

    Data and its operations
    - [Types]: the types of [types/transaction/mod.rs],
      [types/transaction/output_content.rs], [types/bitname_data.rs],
      [types/lib.rs], and the events of [lib/types/proto.rs]; the class
      [Externals] (below).
    - [Transaction]: values, fees, the filled outputs of a transaction.
    - [BitNameSeqId]: display form and parser of sequence numbers
      ([types/bitname_seq_id.rs]).
    - [Authorization]: signing and checking ([types/authorization.rs]).
    - [Merkle]: headers, coinbases, bodies and their Merkle roots, and
      [WithdrawalBundle]: bundle transactions and their weight ([types/lib.rs]).
    - [Encodings]: addresses and keys as strings ([types/address.rs],
      [types/keys.rs]); [OutPointKey]: the keys under which outpoints are stored
      ([types/transaction/mod.rs]).

    The state
    - [Rollback]: histories of values ([lib/state/rollback.rs]).
    - [BitNames]: the databases of names, reservations and sequence numbers
      ([lib/state/bitnames.rs]).
    - [State]: the record of all databases, its queries, and the validation of
      transactions ([lib/state/mod.rs], [lib/state/error.rs]).
    - [Block]: [validate], [prevalidate], [connect], [connect_prevalidated],
      [apply_block] and [disconnect_tip] ([lib/state/block.rs]).
    - [TwoWayPeg]: [connect] and [disconnect] of two-way peg data, here
      [peg_connect] and [peg_disconnect], with one definition per kind of event
      ([lib/state/two_way_peg_data.rs]); its first function,
      [collect_withdrawal_bundle], is in [WithdrawalBundle].
    - [Chain]: the sequences of steps that make a chain of states.

    The archive
    - [SideTips]: the mainchain tip and the candidate tips of the sidechain
      ([lib/archive/side_tips/mod.rs]).
    - [Lineage]: what a block index promises, a class with one instance per tree,
      and the searches that [lib/archive/mod.rs] writes once per tree.
    - [Archive], [ArchiveBodies], [ArchiveIter], [BetterTip]: the tables, the
      operations that change them, the walks over ancestors ([lib/archive/iter.rs])
      and the order of tips. [ArchiveTree], [ArchiveWf], [TipsWf] and
      [ArchiveQueries] hold the invariants and what the queries answer.

    The node
    - [Mempool]: the pool of transactions ([lib/mempool.rs]); [Node]: what blocks do
      to it.
    - [NodeTask]: the databases as one value, [connect_tip_], [disconnect_tip_],
      [reorg_to_tip], [submit_block] and the other handlers
      ([lib/node/net_task.rs], [lib/node/mod.rs]); [Reorg], [NodeRollback],
      [NodePool] and [HeadersSync] hold the theorems.
    - [Proto]: the messages of the mainchain node, their conversions, and the clients
      of its services ([lib/types/proto.rs]).
    - [MainchainTask]: following the mainchain on the archive, and [MainchainRun]: the
      task itself, with its client, its events, its requests and its progress
      ([lib/node/mainchain_task.rs]); [MainchainSync] holds the theorems.
    - [NodeQueries]: the queries that combine the archive, the state, the pool and the
      network ([lib/node/mod.rs]).

    The network
    - [PeerMessage]: messages, framing and limits ([lib/net/peer/message.rs],
      [lib/net/peer/mod.rs], [lib/net/peer/request_queue.rs]).
    - [PeerTask]: the task of one connection ([lib/net/peer/task.rs]); [PeerBodies],
      [PeerSync] and [PeerInvariant] hold the theorems.
    - [NetAddress]: addresses of peers, as strings, as keys and resolved
      ([types/net.rs]).
    - [Net]: the table of peers, dialling, accepting, and relaying transactions
      ([lib/net/mod.rs], [lib/net/error.rs], the classes of errors of
      [lib/net/peer/error.rs]).
    - [NetTask]: the task that owns the databases and the table of peers, with its
      tables of waiting tips and of requests to the mainchain task; a definition
      for each turn of its loop ([lib/node/net_task.rs]). [NetBodies], [BodyTotal],
      [TipTotal], [NetExchange] and [NetFaults] hold the theorems.

    The wallet and the application
    - [Wallet]: keys, coin selection, transactions and signatures
      ([lib/wallet/mod.rs]); [WalletCoins], [WalletSpend] and
      [WalletNames] hold the theorems. [Derivation]: derivation paths from bytes, and
      public keys along a path ([lib/wallet/util.rs]).
    - [App]: the wallet following the node, sending, block templates
      ([app/app.rs]); [AppWallet] and [AppTemplate] hold the theorems. [Paymail]: the
      outputs that are mail for the names of the wallet ([app/app.rs]).
    - [Miner]: requests to merge-mine a block and their confirmation ([lib/miner.rs]),
      mining, deposits and the check for the services of the mainchain node
      ([app/app.rs]), the end of [submit_block] ([lib/node/mod.rs]).
    - [Rpc]: the methods of the RPC server and which of its two servers serves them
      ([app/rpc_server.rs], [rpc-api/lib.rs]), and the commands of the command line
      ([cli/lib.rs]).

    How they interact: a peer announces a tip; [PeerTask] compares it with the node's
    and requests headers, mainchain verification and bodies; [NetTask] stores the
    answers in the archive and tells the connection; a tip whose branch is complete and
    verified goes to [reorg_to_tip], which disconnects and connects blocks. A block reaches the state through
    [connect_tip_]: [apply_block] (that is, [prevalidate] then [connect_prevalidated])
    for its body, which validates each transaction with
    [State.validate_filled_transaction] and writes names through [BitNames]; then
    [peg_connect] for the mainchain events since the previous block, which may propose
    a bundle collected from the unspent withdrawals; then the block's transactions
    leave the pool. [disconnect_tip_] undoes the peg data first, then the body, and
    returns the transactions to the pool. The wallet reads the state's outputs by
    address, and what it builds goes to the pool through the node. [MainchainRun] turns the
    messages of the mainchain node, through [Proto], into the mainchain blocks and peg data
    that all of this depends on. [Miner] takes a block template of [App], has the mainchain
    commit to it, and submits it to the node. [Rpc] calls the application, the node and the
    miner, and the command line calls its methods.

    ** How code is rendered

    - A [Result] with [?] is [result E A] of this file, a monad with a third
      outcome [Panic] for a failed [assert!], [expect], [unwrap] or a checked
      arithmetic operation that panics. A write transaction that ends in an error
      is dropped, so an error carries no state. An operation that commits several
      write transactions is an [op], which returns the state it leaves in
      every case, errors included.
    - A database is a [gmap]; iteration that depends on the order of keys goes
      through an explicit sort by the order of the encoded keys. A database with
      the unit key is an optional value. An iteration over a hash map or a hash set,
      whose order is not determined, goes through an order given as a parameter.
    - Integers are [N]. Where the code uses [checked_add] and the like the model
      has the same test; where it uses plain operators the model wraps at the
      width of the type, as in a release build.
    - Channels are unbounded queues; a task that awaits a message has a handler per
      message. Which message comes next is not determined, so a run is a list of
      messages, and the theorems hold for every list or name the one they are about.
    - Third-party crates are fields of the classes [Types.Externals] (hashes,
      encoders, signatures, [merkle_cbt], [bitcoin]), [WorkExternals] (total work of
      the mainchain), [WalletExternals] (key derivation, sorting, iteration),
      [NetExternals] (encoders of messages, iteration), [DialExternals] (the QUIC
      endpoint, the resolver, the order of known peers), [UrlExternals] (hosts as
      strings), [EncodingExternals] (Base58, Bech32, hexadecimal digits), [ProtoExternals]
      (the encodings in messages of the mainchain node), [BorshOutPoint] (the encoding of outpoints),
      [XPubExternals] (public derivation) and [CliExternals] (requests to the hosts of names). The
      services of the mainchain node are the classes [MainchainServices] and
      [HealthServices], which answer anything, and [EventRace] decides whether an event of
      the mainchain comes before the answer to a call. What a theorem relies on is a
      named hypothesis: [borsh_outpoint_spec] (the encoding of outpoints is
      injective), [batch_verify_spec] (a batch verifies if and only if each
      signature does), [sign_spec] (a signature made with a key verifies with it),
      [bincode_u32_spec] (fixed-width little-endian keys), [work_spec] (work is
      added and compared as a number), [bincode_tip_info_spec] (the order of encoded
      tips), [par_sort_spec] and [hashmap_iter_spec] (sorting and iterating
      permute), [bincode_message_spec] (a variant number and each field of
      a message can be read back from the front of the bytes, and an answer decoded), [iter_spec],
      [known_peers_keys_spec] (an iteration over a database visits each key once),
      [encoding_spec] (decoding a string inverts encoding it), [proto_spec] (decoding a field
      of a message inverts encoding it), [ascii_spec] (Base58 and hexadecimal digits are ASCII), [borsh_spec]
      (one encoding of 37 bytes for each outpoint), [xpub_spec] (public derivation follows
      secret derivation). [Sample], [WalletSamples], [PeerSamples], [NetSamples],
      [AppSamples] and [OutPointKey.Borsh] have concrete instances in which
      they hold; the examples and witnesses are evaluated with them.

    ** Loops and fuel

    Loops over collections are folds. The others have fuel, with a lemma that it is
    enough, or run out into an outcome that the theorems exclude:
    - [dec_digits] has ten: a [u32] has at most ten digits; [levelized_loop] has the
      number of nodes, halved at each level ([levelized_loop_total]); [chunks] the
      length of the list.
    - [MemPool::delete], [invalidate_block] and [delete_body] have work lists, and the
      fuel is one more than the number of entries that can enter the list
      ([delete_fuel], [invalidate_fuel], [disconnect_fuel]).
    - The searches of [Lineage] halve a distance ([nth_ancestor_loop]) or move one of
      two ends of an interval; the walks over ancestors end at the genesis block, so
      the fuel is the height plus one.
    - The loops of [reorg_to_tip] and [disconnect_tip_] have the heights of the tips;
      [blocks_until], [disconnect_until] and [headers_until] those of the block they
      start from.
    - The loops of the synchronisation with the mainchain have the heights of the two
      tips ([sync_fuel]); the number of requests to the mainchain client is up to the
      client, so [fetch_loop] takes it as an argument, and so do the loops of [MainchainRun] that
      fetch and subscribe, and the waits of [Miner]; [start_up_follows_mainchain] has the number
      of requests that a chain takes.
    - [connect_loop] has the number of the peer's addresses, of which each turn drops
      one; [relay_loop] one more than the number of connections, of which each turn
      excludes one.
    - The search of the mining tip has the height of the node's tip. The search of a
      master key tries hashes until one is of a form that one in two has; it gives up
      after [MASTER_ROUNDS], that is 256, tries.

    ** What the theorems show

    - The chain: [Chain.reachable_solvent] and [Chain.reachable_one_owner] hold in
      every state reachable from the empty one by fresh blocks (below). [BlockChain] (body) and [PegChain]
      (peg data) have the preservation of the invariants and the exact round trips
      of connecting and disconnecting; [NodeRollback] composes them for the node.
    - Validation: [BlockValue] and [State]: no double spends, every input authorized by
      a signature of the transaction that spends it, no inflation, names and reservations
      moved and not copied. [BlockSafety] has the
      equivalence of the two validators, [BlockEquiv] that of the two ways of
      connecting a block. [Ownership] ties names to outputs; [Solvency] counts
      deposits, outputs and payouts.
    - The archive: ancestors and common ancestors are those of the tree, a verified
      BMM result means a verified branch, side tips are complete and verified, and
      invalidating a block removes its descendants and nothing else.
    - The node: a reorganisation commits only tips that are better by the rule of its own archive ([Reorg]); the start of the
      mainchain task ends at the tip that the mainchain node reports, with its chain stored, when the old
      branch can be disconnected,
      and an error leaves the side tips as they were or moved completely ([MainchainSync]); a deposit is credited to
      the address that it names, and to another one than that of zeros only if it names it ([Proto]); heights and transaction ids are
      looked up on the current chain and in an exact index ([NodeQueries]).
    - The network: the choice between tips is [better_tip]; headers requested from
      an honest peer are answered, accepted and stored, and those of any peer are refused without effect
      or stored in full ([PeerSync]); a tip reported as ready
      has its bodies ([PeerBodies]); no request is sent twice, and a connection
      finds the state behind every identifier that it gave out ([PeerInvariant]). Storing a body and
      comparing tips succeed in every reachable archive ([BodyTotal], [TipTotal]), so
      that bodies that a peer sends arrive in any order ([NetExchange]), and the tips
      that wait for them are not lost, and are sent on when they are complete and better ([NetBodies]).
      Messages are read as they were written, each side with its own enumeration of variants ([PeerMessage]). A
      transaction reaches every peer that can take it, and peers that were lost are
      dialled again ([Net]). [NetFaults] has the runs that the checks on a peer's
      messages do not exclude.
    - The wallet: what it builds and signs the state accepts ([WalletSpend]); its
      books are the state's outputs under its addresses ([AppWallet]); a name that
      was reserved can be registered ([WalletNames]); the block template is accepted
      by the node ([AppTemplate]). Paymail is exact ([Paymail]). Mining submits only blocks
      that the mainchain commits to ([Miner]). A transaction that the server reports as sent
      is in the pool, and the selection of coins does not pick its inputs while it is there ([Rpc]). With two
      addresses, the methods of the wallet and those that change the node are served at the
      private one only ([run_server_serves]), and a document that the command line prints matches
      its commitment ([resolve_commit_authentic]).
    - Components: updates and registrations ([BitNames]), authorizations, bundles,
      sequence numbers, keys of outpoints ([OutPointKey]), derivation paths ([Derivation]), strings of addresses and keys ([Encodings]: each key has one
      string), the Merkle tree, the logs of peg blocks ([PegBooks]), the
      pool ([Mempool], [Node]).
    - Where the code does not do what it means to, a theorem states what it does
      instead: a name registered twice in one block, the log of peg blocks beyond 256
      entries, the mainchain blocks that disconnecting a tip looks for, a commitment
      to an unknown block, and, in the files of their components, batches of ICANN
      names, a bundle failing twice, repeated transactions under one Merkle root,
      sequence numbers beyond 32 bits, a pool that blocks a reorganisation, a memo to a name in
      a coinbase, a block that the server does not know, a deposit that names no address, a proposal of a bundle that fails
      after its block was connected, an answer of the mainchain node about another block.

    [PegMoves], [PegRollback] and [BlockRollback] hold the lemmas of the round
    trips; [BlockSamples], [ArchiveSamples], [NodeSamples], [WalletSamples],
    [PeerSamples], [NetSamples] and [AppSamples] the sample data; [Prelude] the [result] and [op] monads, folds, work lists, numbers as bytes, sums over
    maps and list lemmas.

    ** Hypotheses on blocks

    A block's new outpoints and txids are assumed fresh ([BlockChain.block_fresh], [event_fresh]): they
    are named by hashes, and the code overwrites an output under an equal name. The round trips of
    peg data assume at most 255 entries in each book and no proposal of a bundle at the height. The
    theorem on registrations shows that freshness of names within one block is an
    assumption the code does not check. Where headers are stored, no two of them are
    assumed to have one hash.

    ** Not modelled

    The endpoints and their certificates, the handshake, the channel pool and the
    limiters of the network ([lib/net/mod.rs], [lib/net/peer/channel_pool.rs]), which are
    calls of [quinn] and [governor]; the streams that feed the loops of the asynchronous
    tasks, whose handlers are modelled; the creation of databases, of the runtime and of its
    tasks ([app/app.rs], [app/main.rs]); the schemas and middleware of the RPC servers and
    the parsing of arguments, which macros derive or other crates do; wrappers of hashes and
    amounts that forward to the encodings of other crates ([types/hashes.rs],
    [types/util.rs]); the graphical interface ([app/gui]), which draws what the
    application returns. *)

From stdpp Require Export base gmap sets list sorting strings.
From stdpp Require Import relations.
From Stdlib Require Export Lia NArith.

#[global] Open Scope N_scope.
#[global] Arguments reverse {_} _ : simpl never.

(** ** Results of fallible code

    Rust's [Result<A, E>], with a third outcome for a panic: a failed
    [assert!], an [expect] or [unwrap] on [None], an index out of range, or an
    arithmetic operation documented to panic. *)
Inductive result (E A : Type) : Type :=
| Ok (a : A)
| Err (e : E)
| Panic.
Arguments Ok {E A} _.
Arguments Err {E A} _.
Arguments Panic {E A}.

#[export] Instance result_ret {E} : MRet (result E) := fun _ a => Ok a.
#[export] Instance result_bind {E} : MBind (result E) :=
  fun _ _ k c => match c with Ok a => k a | Err e => Err e | Panic => Panic end.
#[export] Instance result_fmap {E} : FMap (result E) :=
  fun _ _ f c => match c with Ok a => Ok (f a) | Err e => Err e | Panic => Panic end.

(** [o.ok_or(e)?] *)
Definition ok_or {E A} (o : option A) (e : E) : result E A :=
  match o with Some a => Ok a | None => Err e end.

(** [o.expect(..)] / [o.unwrap()] *)
Definition expect {E A} (o : option A) : result E A :=
  match o with Some a => Ok a | None => Panic end.

(** [assert!(b)] *)
Definition assert_ {E} (b : bool) : result E unit :=
  if b then Ok tt else Panic.

(** [if !b { return Err(e) }] *)
Definition ensure {E} (b : bool) (e : E) : result E unit :=
  if b then Ok tt else Err e.

(** [r.map_err(f)], also the [From] conversion of [?]. *)
Definition map_err {E F A} (f : E -> F) (r : result E A) : result F A :=
  match r with Ok a => Ok a | Err e => Err (f e) | Panic => Panic end.

(** A [for] loop whose body may return early with an error. *)
Fixpoint fold_res {E S A} (f : S -> A -> result E S) (l : list A) (s : S)
  : result E S :=
  match l with
  | [] => Ok s
  | a :: l => s' ← f s a; fold_res f l s'
  end.

(** [iter.map(f).collect::<Result<Vec<_>, _>>()] *)
Fixpoint map_res {E A B} (f : A -> result E B) (l : list A)
  : result E (list B) :=
  match l with
  | [] => Ok []
  | a :: l => b ← f a; bs ← map_res f l; Ok (b :: bs)
  end.

(** [iter.enumerate()] with the index as a [u32] ([as u32]). *)
Definition enumerate {A} (l : list A) : list (N * A) :=
  imap (fun i a => (N.of_nat i mod 2 ^ 32, a)) l.

Section result_lemmas.
Context {E A B : Type}.
Implicit Types (c : result E A) (k : A -> result E B).

Lemma bind_Ok c k (b : B) :
  c ≫= k = Ok b <-> exists a, c = Ok a /\ k a = Ok b.
Proof.
  destruct c; cbn; split; try done; [by eauto| | |];
    intros (? & Heq & ?); by simplify_eq.
Qed.

Lemma fmap_Ok (f : A -> B) c b :
  f <$> c = Ok b <-> exists a, c = Ok a /\ b = f a.
Proof.
  destruct c; cbn; split; try done; [by intros [= <-]; eauto| | |];
    intros (? & Heq & ->); by simplify_eq.
Qed.

Lemma ok_or_Ok (o : option A) (e : E) a : ok_or o e = Ok a <-> o = Some a.
Proof. destruct o; naive_solver. Qed.

Lemma expect_Ok (o : option A) a : expect (E := E) o = Ok a <-> o = Some a.
Proof. destruct o; naive_solver. Qed.

Lemma map_err_Ok {F} (f : E -> F) c a : map_err f c = Ok a <-> c = Ok a.
Proof. destruct c; naive_solver. Qed.
End result_lemmas.

Lemma assert_Ok {E} b u : assert_ (E := E) b = Ok u <-> b = true.
Proof. destruct b, u; naive_solver. Qed.
Lemma ensure_Ok {E} b (e : E) u : ensure b e = Ok u <-> b = true.
Proof. destruct b, u; naive_solver. Qed.

(** Turn every hypothesis that says a computation returned [Ok] into the
    equations of its parts. *)
Ltac res_step :=
  match goal with
  | H : _ ≫= _ = Ok _ |- _ =>
      let x := fresh "x" in let Hx := fresh "Hx" in
      apply bind_Ok in H as (x & Hx & H)
  | H : _ <$> _ = Ok _ |- _ => apply fmap_Ok in H as (? & H & ?)
  | H : ok_or _ _ = Ok _ |- _ => apply ok_or_Ok in H
  | H : expect _ = Ok _ |- _ => apply expect_Ok in H
  | H : map_err _ _ = Ok _ |- _ => apply map_err_Ok in H
  | H : assert_ _ = Ok _ |- _ => apply assert_Ok in H
  | H : ensure _ _ = Ok _ |- _ => apply ensure_Ok in H
  | H : Ok _ = Ok _ |- _ => injection H as H
  | H : Err _ = Ok _ |- _ => discriminate H
  | H : Panic = Ok _ |- _ => discriminate H
  | H : mret _ = Ok _ |- _ => injection H as H
  end.
Ltac res_inv := repeat (res_step; simplify_eq/=).

Section fold_lemmas.
Context {E S A : Type}.
Implicit Types (f g : S -> A -> result E S).

Lemma fold_res_app f l1 l2 s :
  fold_res f (l1 ++ l2) s = s' ← fold_res f l1 s; fold_res f l2 s'.
Proof.
  revert s. induction l1 as [|a l1 IH]; intros s; [done|].
  cbn. destruct (f s a); cbn; [apply IH|done|done].
Qed.

Lemma fold_res_snoc f l a s :
  fold_res f (l ++ [a]) s = s' ← fold_res f l s; f s' a.
Proof.
  rewrite fold_res_app. destruct (fold_res f l s) as [s'| |]; cbn; [|done|done].
  by destruct (f s' a).
Qed.

(** Loop invariants. *)
Lemma fold_res_inv f (P : S -> Prop) l s s' :
  (forall s a s', a ∈ l -> P s -> f s a = Ok s' -> P s') ->
  P s -> fold_res f l s = Ok s' -> P s'.
Proof.
  revert s. induction l as [|a l IH]; intros s Hstep Hs H; cbn in H; res_inv; [done|].
  eapply IH; [|by eapply Hstep; [apply list_elem_of_here| |]|done].
  intros ????. eapply Hstep. by apply list_elem_of_further.
Qed.

(** An undo loop, run over the reversed list, restores the state when the
    undo of each step does, under a loop invariant. *)
Lemma fold_res_undo f g (P : S -> Prop) l s s' :
  (forall s a s', a ∈ l -> P s -> f s a = Ok s' -> P s' /\ g s' a = Ok s) ->
  P s -> fold_res f l s = Ok s' -> fold_res g (reverse l) s' = Ok s.
Proof.
  revert s. induction l as [|a l IH]; intros s Hstep Hs H; cbn in H; res_inv; [done|].
  destruct (Hstep s a x) as [HP Hg]; [apply list_elem_of_here|done|done|].
  rewrite reverse_cons, fold_res_snoc, (IH x); [done| |done|done].
  intros ????. apply Hstep. by apply list_elem_of_further.
Qed.

(** Two loops agree when their bodies do on every state the loop reaches. *)
Lemma fold_res_ext f g (P : S -> Prop) l s :
  (forall s a, a ∈ l -> P s -> f s a = g s a) ->
  (forall s a s', a ∈ l -> P s -> f s a = Ok s' -> P s') ->
  P s -> fold_res f l s = fold_res g l s.
Proof.
  revert s. induction l as [|a l IH]; intros s Heq Hstep Hs; [done|]. cbn.
  rewrite <-Heq by (done || apply list_elem_of_here).
  destruct (f s a) as [s'| |] eqn:Hf; cbn; [|done|done].
  apply IH; [|by intros; eapply Hstep; [apply list_elem_of_further| |]|].
  - intros. apply Heq; [by apply list_elem_of_further|done].
  - eapply Hstep; [apply list_elem_of_here| |]; done.
Qed.
End fold_lemmas.

Section map_res_lemmas.
Context {E A B : Type} (f : A -> result E B).

Lemma map_res_Forall2 l k :
  map_res f l = Ok k <-> Forall2 (fun a b => f a = Ok b) l k.
Proof.
  revert k. induction l as [|a l IH]; intros k; cbn.
  - split; [intros; res_inv; constructor|by inversion 1].
  - split.
    + intros H. res_inv. constructor; [done|by apply IH].
    + inversion 1 as [|?? ?? Ha Hl]; subst. rewrite Ha. cbn.
      apply IH in Hl. by rewrite Hl.
Qed.

Lemma map_res_length l k : map_res f l = Ok k -> length k = length l.
Proof. intros H%map_res_Forall2. symmetry. by eapply Forall2_length. Qed.
End map_res_lemmas.

Lemma map_res_ext {E A B} (f g : A -> result E B) l :
  (forall a, a ∈ l -> f a = g a) -> map_res f l = map_res g l.
Proof.
  induction l as [|a l IH]; intros H; [done|]. cbn.
  rewrite H by apply list_elem_of_here. destruct (g a); cbn; [|done|done].
  rewrite IH; [done|]. intros. apply H. by apply list_elem_of_further.
Qed.

(** Whether a computation returned a value, for evaluating examples *)
Definition is_ok {E A} (r : result E A) : bool := match r with Ok _ => true | _ => false end.
Lemma is_ok_Ok {E A} (r : result E A) : is_ok r = true -> exists a, r = Ok a.
Proof. destruct r; [eauto|done|done]. Qed.

(** ** Machine integers

    A [u32] or [u64] is an [N]; the release profile keeps the default of
    wrapping arithmetic, written out here. *)
Definition u32_MAX : N := 2 ^ 32 - 1.
Definition u64_MAX : N := 2 ^ 64 - 1.
Definition u32_add (a b : N) : N := (a + b) mod 2 ^ 32.
Definition u32_sub (a b : N) : N := (a + 2 ^ 32 - b) mod 2 ^ 32.
Definition u32_checked_add (a b : N) : option N :=
  if a + b <=? u32_MAX then Some (a + b) else None.
Definition u64_checked_mul (a b : N) : option N :=
  if a * b <=? u64_MAX then Some (a * b) else None.
Definition u32_checked_mul (a b : N) : option N :=
  if a * b <=? u32_MAX then Some (a * b) else None.

Lemma u32_add_small a b : a + b <= u32_MAX -> u32_add a b = a + b.
Proof. unfold u32_add, u32_MAX. intros. apply N.mod_small. lia. Qed.
Lemma u32_sub_small a b : b <= a -> a <= u32_MAX -> u32_sub a b = a - b.
Proof.
  unfold u32_sub, u32_MAX. intros.
  replace (a + 2 ^ 32 - b) with ((a - b) + 1 * 2 ^ 32) by lia.
  rewrite N.Div0.mod_add. apply N.mod_small. lia.
Qed.

(** ** Sums *)
Definition sum_N (l : list N) : N := foldr N.add 0 l.
#[global] Arguments sum_N : simpl never.
Lemma sum_N_cons x l : sum_N (x :: l) = x + sum_N l.
Proof. done. Qed.

Lemma sum_N_app l k : sum_N (l ++ k) = sum_N l + sum_N k.
Proof. induction l as [|x l IH]; [done|]. cbn. rewrite !sum_N_cons, IH. lia. Qed.
Lemma sum_N_Permutation l k : l ≡ₚ k -> sum_N l = sum_N k.
Proof. induction 1; rewrite ?sum_N_cons; lia. Qed.
#[export] Instance sum_N_proper : Proper ((≡ₚ) ==> (=)) sum_N.
Proof. intros l k. apply sum_N_Permutation. Qed.

(** Sum of a measure over the values of a map. *)
Definition map_sum `{Countable K} {V} (f : V -> N) (m : gmap K V) : N :=
  sum_N (f ∘ snd <$> map_to_list m).

Section map_sum.
Context `{Countable K} {V : Type} (f : V -> N).
Implicit Types m : gmap K V.

Lemma map_sum_empty : map_sum f (∅ : gmap K V) = 0.
Proof. unfold map_sum. by rewrite map_to_list_empty. Qed.
Lemma map_sum_insert m k v :
  m !! k = None -> map_sum f (<[k:=v]> m) = f v + map_sum f m.
Proof. intros. unfold map_sum. by rewrite map_to_list_insert. Qed.
Lemma map_sum_delete m k v :
  m !! k = Some v -> map_sum f m = f v + map_sum f (delete k m).
Proof.
  intros. rewrite <-(insert_delete_id m k v) at 1 by done.
  apply map_sum_insert, lookup_delete_eq.
Qed.
Lemma map_sum_le m1 m2 : m1 ⊆ m2 -> map_sum f m1 <= map_sum f m2.
Proof.
  intros Hsub. revert m2 Hsub.
  induction m1 as [|k v m1 Hk IH] using map_ind; intros m2 Hsub.
  { rewrite map_sum_empty. lia. }
  rewrite map_sum_insert by done.
  assert (m2 !! k = Some v) as Hm2.
  { eapply lookup_weaken; [|done]. apply lookup_insert_eq. }
  rewrite (map_sum_delete m2 k v) by done.
  enough (map_sum f m1 <= map_sum f (delete k m2)) by lia.
  apply IH. apply map_subseteq_spec. intros j w Hj.
  destruct (decide (k = j)) as [->|]; [congruence|].
  rewrite lookup_delete_ne by done. eapply lookup_weaken; [|done].
  by rewrite lookup_insert_ne.
Qed.
End map_sum.

(** ** Ordered databases

    [Database::last]: the entry whose key is last in the order [ltb] in which
    the database keeps its keys. *)
Definition last_entry {K V} (ltb : K -> K -> bool) (e : K * V) (o : option (K * V))
  : option (K * V) :=
  match o with
  | None => Some e
  | Some e' => if ltb e'.1 e.1 then Some e else Some e'
  end.
Definition db_last `{Countable K} {V} (ltb : K -> K -> bool) (m : gmap K V)
  : option (K * V) :=
  foldr (last_entry ltb) None (map_to_list m).

Lemma db_last_in `{Countable K} {V} (ltb : K -> K -> bool) (m : gmap K V) k v :
  db_last ltb m = Some (k, v) -> m !! k = Some v.
Proof.
  intros Hl. apply elem_of_map_to_list. revert Hl. unfold db_last.
  generalize (map_to_list m) as l. induction l as [|e l IH]; [done|]. cbn.
  destruct (foldr _ None l) as [e'|]; cbn; [destruct (ltb e'.1 e.1)|]; intros [= Heq];
    rewrite ?Heq; [apply list_elem_of_here| |apply list_elem_of_here].
  apply list_elem_of_further, IH. by rewrite Heq.
Qed.
Lemma db_last_ext `{Countable K} {V} (f g : K -> K -> bool) (m : gmap K V) :
  (forall i j, f i j = g i j) -> db_last f m = db_last g m.
Proof.
  intros Heq. unfold db_last. induction (map_to_list m) as [|e l IH]; [done|]. cbn.
  rewrite IH. destruct (foldr (last_entry g) None l); cbn; [by rewrite Heq|done].
Qed.

Section db_last.
Context `{Countable K} {V : Type} (ltb : K -> K -> bool).
Context (ltb_irrefl : forall k, ltb k k = false).
Context (ltb_trans : forall i j k, ltb i j = true -> ltb j k = true -> ltb i k = true).
Context (ltb_total : forall i j, ltb i j = false -> ltb j i = false -> i = j).
Implicit Types m : gmap K V.

Lemma foldr_last_spec (l : list (K * V)) :
  match foldr (last_entry ltb) None l with
  | None => l = []
  | Some e => e ∈ l /\ forall e', e' ∈ l -> ltb e.1 e'.1 = false
  end.
Proof.
  induction l as [|x l IH]; [done|]. cbn.
  destruct (foldr _ None l) as [e|] eqn:He; cbn.
  - destruct IH as [Hin Hmax]. destruct (ltb e.1 x.1) eqn:Hlt.
    + split; [apply list_elem_of_here|].
      intros e' [->|Hl]%elem_of_cons; [done|].
      destruct (ltb x.1 e'.1) eqn:Hlt'; [|done].
      specialize (Hmax e' Hl). by rewrite (ltb_trans _ _ _ Hlt Hlt') in Hmax.
    + split; [by apply list_elem_of_further|].
      intros e' [->|Hl]%elem_of_cons; [done|]. by apply Hmax.
  - rewrite IH. split; [apply list_elem_of_here|].
    intros e' [->|Hl]%elem_of_cons; [done|]. by apply not_elem_of_nil in Hl.
Qed.

Lemma db_last_None m : db_last ltb m = None <-> m = ∅.
Proof.
  unfold db_last. pose proof (foldr_last_spec (map_to_list m)) as Hs.
  destruct (foldr _ None _) as [e|].
  - split; [done|]. intros ->. rewrite map_to_list_empty in Hs.
    destruct Hs as [Hs _]. by apply not_elem_of_nil in Hs.
  - by rewrite map_to_list_empty_iff in Hs.
Qed.

Lemma db_last_Some m k v :
  db_last ltb m = Some (k, v) <->
  m !! k = Some v /\ forall k', is_Some (m !! k') -> ltb k k' = false.
Proof.
  unfold db_last. pose proof (foldr_last_spec (map_to_list m)) as Hs.
  destruct (foldr _ None _) as [[k0 v0]|].
  - destruct Hs as [Hin Hmax]. apply elem_of_map_to_list in Hin as Hk0.
    assert (forall k', is_Some (m !! k') -> ltb k0 k' = false) as Hmax'.
    { intros k' [v' ?]. apply (Hmax (k', v')). by apply elem_of_map_to_list. }
    split; [intros [= -> ->]; done|].
    intros [Hk Hkmax]. enough (k0 = k) as -> by congruence.
    apply ltb_total; [by apply Hmax'|by apply Hkmax].
  - apply map_to_list_empty_iff in Hs as ->. rewrite lookup_empty.
    split; [done|]. by intros [? _].
Qed.

(** A key above every other one is the last, in an order that may confuse keys
    the map does not hold. *)
Lemma db_last_max m k v :
  m !! k = Some v -> (forall k', is_Some (m !! k') -> k' <> k -> ltb k' k = true) ->
  db_last ltb m = Some (k, v).
Proof.
  intros Hk Hmax. unfold db_last. pose proof (foldr_last_spec (map_to_list m)) as Hs.
  apply elem_of_map_to_list in Hk as Hin. destruct (foldr _ None _) as [[k' v']|].
  - destruct Hs as [Hin' Hs]. apply elem_of_map_to_list in Hin'.
    destruct (decide (k' = k)) as [->|Hne]; [by simplify_eq|].
    specialize (Hs _ Hin). cbn in Hs. rewrite Hmax in Hs by eauto. done.
  - rewrite Hs in Hin. by apply not_elem_of_nil in Hin.
Qed.
End db_last.

(** Keys kept in numeric order. *)
Definition db_last_N {V} (m : gmap N V) : option (N * V) := db_last N.ltb m.

Lemma db_last_N_None {V} (m : gmap N V) : db_last_N m = None <-> m = ∅.
Proof.
  unfold db_last_N. rewrite db_last_None; [done|apply N.ltb_irrefl|].
  intros ???. rewrite !N.ltb_lt. lia.
Qed.
Lemma db_last_N_Some {V} (m : gmap N V) k v :
  db_last_N m = Some (k, v) <->
  m !! k = Some v /\ forall k', is_Some (m !! k') -> k' <= k.
Proof.
  unfold db_last_N. rewrite db_last_Some.
  - setoid_rewrite N.ltb_ge. done.
  - apply N.ltb_irrefl.
  - intros ???. rewrite !N.ltb_lt. lia.
  - intros ??. rewrite !N.ltb_ge. lia.
Qed.

(** Byte strings in lexicographic order, the order of keys in LMDB. *)
Fixpoint bytes_ltb (a b : list N) : bool :=
  match a, b with
  | _, [] => false
  | [], _ :: _ => true
  | x :: a, y :: b => (x <? y) || ((x =? y) && bytes_ltb a b)
  end.

Lemma bytes_ltb_irrefl a : bytes_ltb a a = false.
Proof. induction a as [|x a IH]; [done|]. cbn -[N.ltb]. by rewrite N.ltb_irrefl, N.eqb_refl. Qed.
Lemma bytes_ltb_trans a b c : bytes_ltb a b = true -> bytes_ltb b c = true -> bytes_ltb a c = true.
Proof.
  revert b c. induction a as [|x a IH]; intros [|y b] [|z c]; cbn -[N.ltb N.eqb]; try done.
  rewrite !orb_true_iff, !andb_true_iff, !N.ltb_lt, !N.eqb_eq.
  intros [?|[-> ?]] [?|[-> ?]]; [left; lia|by left|by left|right; split; [done|by eapply IH]].
Qed.
Lemma bytes_ltb_total a b : bytes_ltb a b = false -> bytes_ltb b a = false -> a = b.
Proof.
  revert b. induction a as [|x a IH]; intros [|y b]; cbn -[N.ltb N.eqb]; try done.
  rewrite !orb_false_iff, !andb_false_iff, !N.ltb_ge, !N.eqb_neq.
  intros [? Ha] [? Hb]. assert (x = y) as -> by lia.
  destruct Ha as [|Ha], Hb as [|Hb]; try done. by rewrite (IH b Ha Hb).
Qed.

(** ** Lists *)
Lemma length_omap_le {A B} (f : A -> option B) (l : list A) :
  (length (omap f l) <= length l)%nat.
Proof. induction l as [|x l IH]; cbn; [done|]. destruct (f x); cbn; lia. Qed.
Lemma sublist_same_length {A} (l k : list A) :
  l `sublist_of` k -> (length k <= length l)%nat -> l = k.
Proof.
  induction 1 as [|x l k _ IH|x l k Hs IH]; cbn; intros Hlen; [done|f_equal; apply IH; lia|].
  apply sublist_length in Hs. lia.
Qed.

(** ** Maps *)

(** The entries whose key is not in a set *)
Definition without `{Countable K} {V} (X : gset K) (m : gmap K V) : gmap K V :=
  filter (fun kv => kv.1 ∉ X) m.

Section map_lemmas.
Context `{Countable K} {V : Type}.
Implicit Types (m puts : gmap K V) (X : gset K) (k : K) (v : V).

Lemma lookup_without X m k : without X m !! k = if decide (k ∈ X) then None else m !! k.
Proof.
  unfold without. rewrite map_lookup_filter. case_decide.
  - destruct (m !! k); cbn; [|done]. by rewrite option_guard_False by (cbn; tauto).
  - destruct (m !! k); cbn; [|done]. by rewrite option_guard_True.
Qed.
Lemma without_empty m : without ∅ m = m.
Proof. apply map_eq. intros k. rewrite lookup_without. case_decide; [set_solver|done]. Qed.
Lemma without_insert_set X m k : without ({[k]} ∪ X) m = delete k (without X m).
Proof.
  apply map_eq. intros j. rewrite lookup_delete, !lookup_without.
  repeat case_decide; subst; set_solver.
Qed.

Lemma set_fold_delete X m : set_fold (fun k m => delete k m) m X = without X m.
Proof.
  apply (set_fold_ind_L (fun r X => r = without X m)); [by rewrite without_empty|].
  intros k Y r _ ->. by rewrite without_insert_set.
Qed.
Lemma map_fold_insert_union puts m : map_fold (fun k v m => <[k := v]> m) m puts = puts ∪ m.
Proof.
  apply (map_fold_weak_ind (fun r puts => r = puts ∪ m)); [by rewrite map_empty_union|].
  intros k v p r _ ->. by rewrite insert_union_l.
Qed.

Lemma delete_union_without X puts m k :
  puts !! k = None -> delete k (puts ∪ without X m) = puts ∪ without ({[k]} ∪ X) m.
Proof. intros Hk. rewrite without_insert_set, delete_union. by rewrite (delete_id puts). Qed.
Lemma lookup_union_without X puts m k :
  puts !! k = None -> k ∉ X -> (puts ∪ without X m) !! k = m !! k.
Proof. intros Hk HX. rewrite lookup_union_r by done. rewrite lookup_without. by case_decide. Qed.

Context (f : V -> N).
Lemma map_sum_insert_le m k v : map_sum f (<[k := v]> m) <= f v + map_sum f m.
Proof.
  rewrite <-insert_delete_eq, map_sum_insert by apply lookup_delete_eq.
  pose proof (map_sum_le f (delete k m) m (delete_subseteq _ _)). lia.
Qed.
Lemma map_sum_union_le m1 m2 : map_sum f (m1 ∪ m2) <= map_sum f m1 + map_sum f m2.
Proof.
  induction m1 as [|k v m1 Hk IH] using map_ind.
  - rewrite map_empty_union, map_sum_empty. lia.
  - rewrite <-insert_union_l, (map_sum_insert f m1) by done.
    pose proof (map_sum_insert_le (m1 ∪ m2) k v). lia.
Qed.
Lemma map_sum_union m1 m2 : m1 ##ₘ m2 -> map_sum f (m1 ∪ m2) = map_sum f m1 + map_sum f m2.
Proof.
  induction m1 as [|k v m1 Hk IH] using map_ind; intros Hd.
  - by rewrite map_empty_union, map_sum_empty.
  - apply map_disjoint_insert_l in Hd as [Hk2 Hd].
    rewrite <-insert_union_l, !map_sum_insert, IH by (try apply lookup_union_None; done). lia.
Qed.
(** Distinct entries taken out of a map *)
Lemma map_sum_without m ks vs :
  NoDup ks -> Forall2 (fun k v => m !! k = Some v) ks vs ->
  map_sum f m = sum_N (f <$> vs) + map_sum f (without (list_to_set ks) m).
Proof.
  intros Hnd Hf. revert Hnd. induction Hf as [|k v ks vs Hk Hf IH]; intros Hnd.
  - cbn. by rewrite without_empty.
  - apply NoDup_cons in Hnd as [Hnin Hnd]. rewrite IH by done. cbn [list_to_set fmap list_fmap].
    rewrite without_insert_set.
    rewrite (map_sum_delete f (without (list_to_set ks) m) k v).
    + unfold sum_N. cbn. lia.
    + rewrite lookup_without. case_decide; [set_solver|done].
Qed.
End map_lemmas.

Lemma fold_res_fmap {E S A B} (f : S -> B -> result E S) (g : A -> B) l s :
  fold_res f (g <$> l) s = fold_res (fun s a => f s (g a)) l s.
Proof.
  revert s. induction l as [|a l IH]; intros s; [done|]. cbn.
  destruct (f s (g a)); cbn; [apply IH|done|done].
Qed.

(** A loop over a part of the state, seen from the whole state *)
Lemma fold_res_frame {E S T A} (f : S -> A -> result E S) (f' : T -> A -> result E T)
    (g : S -> T) l s :
  (forall s a, f' (g s) a = g <$> f s a) -> fold_res f' l (g s) = g <$> fold_res f l s.
Proof.
  intros Hf. revert s. induction l as [|a l IH]; intros s; [done|]. cbn. rewrite Hf.
  destruct (f s a); cbn; [apply IH|done|done].
Qed.

Lemma Forall_impl_in {A} (P Q : A -> Prop) (l : list A) :
  Forall P l -> (forall x, x ∈ l -> P x -> Q x) -> Forall Q l.
Proof. rewrite !Forall_forall. eauto. Qed.

(** ** Operations that commit as they go

    An operation of a component with databases of its own may commit several
    write transactions before it returns. What was committed stays when a later
    step fails, so an operation maps a state to a result and to the state that it
    leaves, whatever the result. *)

Definition op (S E A : Type) : Type := S -> result E A * S.

#[export] Instance op_ret {S E} : MRet (op S E) := fun _ a w => (Ok a, w).
#[export] Instance op_bind {S E} : MBind (op S E) := fun _ _ k c w =>
  match c w with
  | (Ok a, w) => k a w
  | (Err e, w) => (Err e, w)
  | (Panic, w) => (Panic, w)
  end.

(** A step that only reads, one that neither reads nor writes, one that writes *)
Definition reading {S E A} (f : S -> result E A) : op S E A := fun w => (f w, w).
Definition lifted {S E A} (r : result E A) : op S E A := fun w => (r, w).
Definition writing {S E} (f : S -> S) : op S E unit := fun w => (Ok tt, f w).

(** An operation of a part of the state *)
Definition zoom {S T E F A} (get : S -> T) (put : T -> S -> S) (err : E -> F) (c : op T E A)
  : op S F A :=
  fun w => let '(r, t) := c (get w) in (map_err err r, put t w).

(** ** Reasoning about operations *)

Section ops.
Context {S E A B : Type}.
Implicit Types (w : S).

Lemma op_bind_Ok (c : op S E A) (k : A -> op S E B) w b w' :
  (c ≫= k) w = (Ok b, w') <-> exists a w1, c w = (Ok a, w1) /\ k a w1 = (Ok b, w').
Proof.
  unfold mbind, op_bind. destruct (c w) as [[a|e|] w1]; split.
  - intros Hk. eauto.
  - by intros (? & ? & [= <- <-] & ?).
  - done.
  - by intros (? & ? & ? & ?).
  - done.
  - by intros (? & ? & ? & ?).
Qed.
Lemma op_ret_Ok (a a' : A) w w' : (mret a : op S E A) w = (Ok a', w') <-> a' = a /\ w' = w.
Proof. unfold mret, op_ret. split; [by intros [= <- <-]|by intros [-> ->]]. Qed.
Lemma reading_Ok (f : S -> result E A) w a w' :
  reading f w = (Ok a, w') <-> f w = Ok a /\ w' = w.
Proof. unfold reading. split; [by intros [= -> <-]|by intros [-> ->]]. Qed.
Lemma lifted_Ok (r : result E A) w a w' :
  lifted r w = (Ok a, w') <-> r = Ok a /\ w' = w.
Proof. unfold lifted. split; [by intros [= -> <-]|by intros [-> ->]]. Qed.
Lemma writing_Ok (f : S -> S) w a w' :
  (writing f : op S E unit) w = (Ok a, w') <-> w' = f w.
Proof. unfold writing. destruct a. split; [by intros [= <-]|by intros ->]. Qed.

(** A property that an operation keeps, whatever its result *)
Definition preserves {C} (P : S -> Prop) (c : op S E C) : Prop :=
  forall w, P w -> P (c w).2.

Lemma preserves_bind P (c : op S E A) (k : A -> op S E B) :
  preserves P c -> (forall a, preserves P (k a)) -> preserves P (c ≫= k).
Proof.
  intros Hc Hk w Hw. specialize (Hc w Hw). unfold mbind, op_bind.
  destruct (c w) as [[a|e|] w1]; cbn in *; [by apply Hk|done|done].
Qed.
Lemma preserves_ret P (a : A) : preserves P (mret a : op S E A).
Proof. by intros w Hw. Qed.
Lemma preserves_reading P (f : S -> result E A) : preserves P (reading f).
Proof. by intros w Hw. Qed.
Lemma preserves_lifted P (r : result E A) : preserves P (lifted r).
Proof. by intros w Hw. Qed.
End ops.

Lemma preserves_writing {S E} (P : S -> Prop) (f : S -> S) :
  (forall w, P w -> P (f w)) -> preserves P (writing f : op S E unit).
Proof. intros Hf w Hw. by apply Hf. Qed.

(** Here the second step may rely on what the first one returned. *)
Lemma preserves_bind_value {S E A B} (P : S -> Prop) (c : op S E A) (k : A -> op S E B) :
  preserves P c -> (forall w a w', P w -> c w = (Ok a, w') -> P w' -> P (k a w').2) -> preserves P (c ≫= k).
Proof.
  intros Hc Hk w Hw. specialize (Hc w Hw). unfold mbind, op_bind.
  destruct (c w) as [[a|e|] w'] eqn:Hcw; cbn in *; [by eapply Hk|done|done].
Qed.

(** An operation of two steps went through both, or ended in the first one. *)
Lemma op_bind_cases {S E A B} (c : op S E A) (k : A -> op S E B) w r w' :
  (c ≫= k) w = (r, w') ->
  (exists a w1, c w = (Ok a, w1) /\ k a w1 = (r, w')) \/ ((c w).2 = w' /\ forall b, r <> Ok b).
Proof.
  unfold mbind, op_bind. destruct (c w) as [[a|e|] w1]; intros Hr.
  - left. by exists a, w1.
  - right. injection Hr as <- <-. by split; [|intros ? ?].
  - right. injection Hr as <- <-. by split; [|intros ? ?].
Qed.

(** Inversion of a successful operation *)
Ltac op_step :=
  match goal with
  | H : (_ ≫= _) _ = (Ok _, _) |- _ =>
      let a := fresh "x" in let w := fresh "w" in let Ho := fresh "Ho" in
      apply op_bind_Ok in H as (a & w & Ho & H)
  | H : reading _ _ = (Ok _, _) |- _ => apply reading_Ok in H as [H ->]
  | H : lifted _ _ = (Ok _, _) |- _ => apply lifted_Ok in H as [H ->]
  | H : writing _ _ = (Ok _, _) |- _ => apply writing_Ok in H as ->
  | H : mret _ _ = (Ok _, _) |- _ => apply op_ret_Ok in H as [-> ->]
  | H : mret _ _ = (Ok _, _) |- _ => apply op_ret_Ok in H as [H ->]; try discriminate H
  | H : context [let '(_, _) := ?p in _] |- _ => destruct p
  end.
Ltac op_inv := repeat (op_step; cbv beta in *).

Create HintDb ops discriminated.
#[export] Hint Resolve preserves_ret preserves_reading preserves_lifted : ops.
Ltac preserve :=
  repeat match goal with
    | |- forall _, _ => intros ?; cbv beta
    | |- preserves _ (_ ≫= _) => apply preserves_bind
    | |- preserves _ (match ?x with _ => _ end) => destruct x
    | |- preserves _ _ => solve [auto with ops]
    end.

(** ** Work lists over a graph

    A loop that takes a node from a work list, removes it from a graph and adds its
    successors to the list visits what the list reaches. *)

(** [d] is reachable from the list. *)
Definition reaches {A} (R : A -> A -> Prop) (q : list A) (d : A) : Prop :=
  exists a, a ∈ q /\ rtc R a d.

Section removal.
Context {A : Type} `{EqDecision A} (R R' : A -> A -> Prop) (x : A).
Context (Hsub : forall p c, R' p c -> R p c).
Context (Hkeep : forall p c, R p c -> p <> x -> c <> x -> R' p c).

Lemma removal_rtc a d : d <> x -> rtc R a d ->
  (a <> x /\ rtc R' a d) \/ exists c, R x c /\ c <> x /\ rtc R' c d.
Proof.
  intros Hd Hr. induction Hr as [a|a b d Hab _ IH]; [by left|].
  destruct (IH Hd) as [[Hb Hr']|Hc]; [|by right].
  destruct (decide (a = x)) as [->|Ha]; [right; by exists b|left].
  split; [done|]. eapply rtc_l; [|exact Hr']. by apply Hkeep.
Qed.

(** What the list is replaced by reaches the same nodes, the removed one apart. *)
Lemma removal_reaches q succ d :
  (forall c, c ∈ succ -> R x c) -> (forall c, R x c -> c <> x -> c ∈ succ) -> d <> x ->
  reaches R (x :: q) d <-> reaches R' (q ++ succ) d.
Proof.
  intros Hs1 Hs2 Hd. unfold reaches. setoid_rewrite elem_of_app. setoid_rewrite elem_of_cons. split.
  - intros (a & Ha & Hr). destruct (removal_rtc a d Hd Hr) as [[Hax Hr']|(c & Hc & Hcx & Hr')].
    + destruct Ha as [->|Ha]; [done|]. exists a. auto.
    + exists c. auto.
  - intros (a & Ha & Hr). assert (rtc R a d) as Hr' by (eapply rtc_subrel; [|exact Hr]; auto).
    destruct Ha as [Ha|Ha]; [exists a; auto|]. exists x. split; [by left|]. eapply rtc_l; eauto.
Qed.
End removal.

Lemma reaches_Permutation {A} (R : A -> A -> Prop) q q' d : q ≡ₚ q' -> reaches R q d <-> reaches R q' d.
Proof. intros Hp. unfold reaches. by setoid_rewrite Hp. Qed.
Lemma reaches_nil {A} (R : A -> A -> Prop) d : ~ reaches R [] d.
Proof. by intros (a & ?%not_elem_of_nil & _). Qed.
Lemma reaches_here {A} (R : A -> A -> Prop) x q : reaches R (x :: q) x.
Proof. exists x. split; [apply list_elem_of_here|apply rtc_refl]. Qed.

(** ** Bytes

    Byte strings as numbers, and the bits of such numbers. *)

Notation is_byte b := (b < 256) (only parsing).

(** *** Little-endian numbers *)

(** The number that bytes spell, the least significant byte first: [uN::from_le_bytes] *)
Fixpoint le_value (bs : list N) : N :=
  match bs with [] => 0 | b :: bs => b + 256 * le_value bs end.
(** The [k] least significant bytes of a number: [uN::to_le_bytes] *)
Fixpoint le_bytes (k : nat) (n : N) : list N :=
  match k with O => [] | S k => n mod 256 :: le_bytes k (n / 256) end.

Lemma length_le_bytes k n : length (le_bytes k n) = k.
Proof. revert n. induction k as [|k IH]; intros n; cbn; [done|]. by rewrite IH. Qed.

Lemma le_bytes_are_bytes k n : Forall (fun b => is_byte b) (le_bytes k n).
Proof.
  revert n. induction k as [|k IH]; intros n; cbn -[N.modulo]; constructor; [|apply IH].
  by apply N.mod_lt.
Qed.

Lemma le_value_bytes k n : le_value (le_bytes k n) = n mod 256 ^ N.of_nat k.
Proof.
  revert n. induction k as [|k IH]; intros n; cbn -[N.modulo N.div N.pow N.mul N.of_nat].
  - by rewrite N.mod_1_r.
  - rewrite IH, Nat2N.inj_succ, N.pow_succ_r'.
    rewrite N.Div0.mod_mul_r. lia.
Qed.

Lemma le_value_bound bs : Forall (fun b => is_byte b) bs -> le_value bs < 256 ^ N.of_nat (length bs).
Proof.
  induction 1 as [|b bs Hb _ IH]; cbn -[N.pow N.mul N.of_nat]; [done|].
  rewrite Nat2N.inj_succ, N.pow_succ_r'. lia.
Qed.

Lemma le_bytes_value bs : Forall (fun b => is_byte b) bs -> le_bytes (length bs) (le_value bs) = bs.
Proof.
  induction 1 as [|b bs Hb _ IH]; cbn -[N.modulo N.div N.mul]; [done|].
  rewrite (N.mul_comm 256), N.Div0.mod_add, N.div_add, N.mod_small, N.div_small by lia. by rewrite N.add_0_l, IH.
Qed.

Lemma le_value_snoc bs b : le_value (bs ++ [b]) = le_value bs + b * 256 ^ N.of_nat (length bs).
Proof.
  induction bs as [|x bs IH]; cbn -[N.mul N.pow N.of_nat]; [lia|].
  rewrite IH, Nat2N.inj_succ, N.pow_succ_r'. lia.
Qed.

(** *** Big-endian numbers *)

Definition be_bytes (k : nat) (n : N) : list N := reverse (le_bytes k n).
Definition be_value (bs : list N) : N := le_value (reverse bs).

Lemma length_be_bytes k n : length (be_bytes k n) = k.
Proof. unfold be_bytes. by rewrite length_reverse, length_le_bytes. Qed.
Lemma be_bytes_are_bytes k n : Forall (fun b => is_byte b) (be_bytes k n).
Proof. apply Forall_reverse, le_bytes_are_bytes. Qed.
Lemma be_value_bytes k n : be_value (be_bytes k n) = n mod 256 ^ N.of_nat k.
Proof. unfold be_value, be_bytes. by rewrite reverse_involutive, le_value_bytes. Qed.
Lemma be_bytes_value bs : Forall (fun b => is_byte b) bs -> be_bytes (length bs) (be_value bs) = bs.
Proof.
  intros Hb. unfold be_value, be_bytes. rewrite <-(length_reverse bs), le_bytes_value by (by apply Forall_reverse).
  apply reverse_involutive.
Qed.
Lemma be_value_bound bs : Forall (fun b => is_byte b) bs -> be_value bs < 256 ^ N.of_nat (length bs).
Proof. intros Hb. unfold be_value. rewrite <-(length_reverse bs). by apply le_value_bound, Forall_reverse. Qed.
Lemma be_bytes_S k n : be_bytes (S k) n = be_bytes k (n / 256) ++ [n mod 256].
Proof. unfold be_bytes. cbn -[N.modulo N.div]. by rewrite reverse_cons. Qed.

Lemma bytes_ltb_app a b x y : length a = length b ->
  bytes_ltb (a ++ x) (b ++ y) = bytes_ltb a b || (bool_decide (a = b) && bytes_ltb x y).
Proof.
  revert b. induction a as [|c a IH]; intros [|d b] Hl; try discriminate Hl.
  - by rewrite bool_decide_true.
  - cbn -[N.ltb N.eqb]. rewrite IH by (cbn in Hl; lia).
    destruct (N.ltb_spec c d); [done|]. destruct (N.eqb_spec c d) as [->|Hne]; cbn.
    + f_equal. f_equal. apply bool_decide_ext. split; [congruence|by intros [= ->]].
    + rewrite bool_decide_false by congruence. done.
Qed.
(** The order of big-endian numbers of one width is that of the numbers. *)
Lemma bytes_ltb_be k a b : a < 256 ^ N.of_nat k -> b < 256 ^ N.of_nat k ->
  bytes_ltb (be_bytes k a) (be_bytes k b) = (a <? b).
Proof.
  revert a b. induction k as [|k IH]; intros a b.
  - cbn. intros Ha Hb. replace a with 0 by lia. by replace b with 0 by lia.
  - rewrite Nat2N.inj_succ, N.pow_succ_r'. intros Ha Hb.
    assert (a / 256 < 256 ^ N.of_nat k) as Ha' by (by apply N.Div0.div_lt_upper_bound).
    assert (b / 256 < 256 ^ N.of_nat k) as Hb' by (by apply N.Div0.div_lt_upper_bound).
    rewrite !be_bytes_S, bytes_ltb_app, IH by (done || by rewrite !length_be_bytes).
    assert (be_bytes k (a / 256) = be_bytes k (b / 256) <-> a / 256 = b / 256) as Heq.
    { split; [|by intros ->]. intros He. apply (f_equal be_value) in He.
      by rewrite !be_value_bytes, !N.mod_small in He. }
    rewrite (bool_decide_ext _ _ Heq).
    pose proof (N.div_mod a 256 ltac:(done)). pose proof (N.div_mod b 256 ltac:(done)).
    pose proof (N.mod_lt a 256 ltac:(done)). pose proof (N.mod_lt b 256 ltac:(done)).
    apply Bool.eq_iff_eq_true. cbn -[N.ltb N.div N.modulo].
    rewrite !andb_false_r, orb_false_r, orb_true_iff, andb_true_iff, bool_decide_eq_true, !N.ltb_lt.
    clear -H H0 H1 H2. revert H H0 H1 H2.
    generalize (a / 256) (a mod 256) (b / 256) (b mod 256). intros qa ra qb rb ????. lia.
Qed.

(** *** Bits *)

(** A number below [2 ^ k] has no bit from [k] on. *)
Lemma testbit_above (n k i : N) : n < 2 ^ k -> k <= i -> N.testbit n i = false.
Proof. intros Hn Hi. rewrite <-(N.mod_small n (2 ^ k)) by done. by apply N.mod_pow2_bits_high. Qed.

(** The sum of a number below [2 ^ k] and a multiple of [2 ^ k] has the bits of both. *)
Lemma testbit_add_high (n b k i : N) :
  n < 2 ^ k -> N.testbit (n + b * 2 ^ k) i = if i <? k then N.testbit n i else N.testbit b (i - k).
Proof.
  intros Hn. destruct (N.ltb_spec i k) as [Hi|Hi].
  - rewrite <-(N.mod_pow2_bits_low (n + b * 2 ^ k) k i) by done.
    rewrite N.Div0.mod_add. by rewrite N.mod_small.
  - replace i with ((i - k) + k) at 1 by lia. rewrite <-N.div_pow2_bits.
    rewrite N.div_add, N.div_small by (try apply N.pow_nonzero; done). done.
Qed.

Lemma lor_pow2 (n k : N) : n < 2 ^ k -> N.lor n (2 ^ k) = n + 2 ^ k.
Proof.
  intros Hn. rewrite <-(N.mul_1_l (2 ^ k)) at 2. apply N.bits_inj. intros i.
  rewrite N.lor_spec, testbit_add_high, N.pow2_bits_eqb by done.
  destruct (N.ltb_spec i k), (N.eqb_spec k i); subst; try lia.
  - apply orb_false_r.
  - rewrite N.sub_diag. apply orb_true_r.
  - rewrite (testbit_above n k), (testbit_above 1 1) by (done || lia). done.
Qed.

Lemma pow256 (k : N) : 256 ^ k = 2 ^ (8 * k).
Proof. by rewrite N.pow_mul_r. Qed.

(** A test that holds of the 256 bytes holds of every byte. *)
Lemma byte_cases (P : N -> bool) :
  forallb P (N.of_nat <$> seq 0 256) = true -> forall b, is_byte b -> P b = true.
Proof.
  rewrite forallb_forall. intros HP b Hb. apply HP, list_elem_of_In, list_elem_of_fmap.
  exists (N.to_nat b). split; [lia|]. apply elem_of_seq. lia.
Qed.
