(* ===== verification/Types.v ===== *)
(** * Types of the sidechain

    The data of [src/types]: outpoints, output contents, transactions, BitName
    data, headers and bodies, withdrawal bundles, and the two-way peg events of
    [src/lib/types/proto.rs]; and [Externals], the interface of the third-party
    crates the code calls.

    A fixed-width byte array ([Hash], [Txid], [Address], a key, a signature, a
    socket address) is the number its bytes spell, an [N]; unsigned integers
    and satoshi amounts are [N] as well, with their bounds written out where
    the code checks them. *)

From S2P Require Import Prelude.

Notation Hash := N (only parsing).
Notation Txid := N (only parsing).
Notation CoinbaseTxid := N (only parsing).
Notation BitName := N (only parsing).
Notation BlockHash := N (only parsing).
Notation MainBlockHash := N (only parsing).
Notation MerkleRoot := N (only parsing).
Notation M6id := N (only parsing).
Notation Address := N (only parsing).
Notation MainAddress := N (only parsing).
Notation Amount := N (only parsing).
Notation VerifyingKey := N (only parsing).
Notation SigningKey := N (only parsing).
Notation EncryptionPubKey := N (only parsing).
Notation SocketAddrV4 := N (only parsing).
Notation SocketAddrV6 := N (only parsing).
Notation Signature := N (only parsing).
Notation u32 := N (only parsing).
Notation u64 := N (only parsing).
Notation bytes := (list N) (only parsing).

(** ** Outpoints and inpoints ([types/transaction/mod.rs]) *)

Inductive OutPoint : Type :=
| OutPoint_Regular (txid : Txid) (vout : u32)
| OutPoint_Coinbase (txid : CoinbaseTxid) (vout : u32)
| OutPoint_Deposit (txid : N) (vout : u32).

#[export] Instance OutPoint_eq_dec : EqDecision OutPoint.
Proof. solve_decision. Defined.
#[export] Instance OutPoint_countable : Countable OutPoint.
Proof.
  refine (inj_countable'
    (fun o => match o with
              | OutPoint_Regular t v => inl (t, v)
              | OutPoint_Coinbase t v => inr (inl (t, v))
              | OutPoint_Deposit t v => inr (inr (t, v))
              end)
    (fun s => match s with
              | inl (t, v) => OutPoint_Regular t v
              | inr (inl (t, v)) => OutPoint_Coinbase t v
              | inr (inr (t, v)) => OutPoint_Deposit t v
              end) _).
  by intros [].
Defined.

(** The derived [Ord]: by variant, then txid, then vout. *)
Definition outpoint_rank (o : OutPoint) : N * N * N :=
  match o with
  | OutPoint_Regular t v => (0, t, v)
  | OutPoint_Coinbase t v => (1, t, v)
  | OutPoint_Deposit t v => (2, t, v)
  end.
Definition triple_leb (x y : N * N * N) : bool :=
  let '(x1, x2, x3) := x in
  let '(y1, y2, y3) := y in
  (x1 <? y1) || ((x1 =? y1) && ((x2 <? y2) || ((x2 =? y2) && (x3 <=? y3)))).
Definition outpoint_leb (a b : OutPoint) : bool :=
  triple_leb (outpoint_rank a) (outpoint_rank b).

Inductive InPoint : Type :=
| InPoint_Regular (txid : Txid) (vin : u32)
| InPoint_Withdrawal (m6id : M6id).
#[export] Instance InPoint_eq_dec : EqDecision InPoint.
Proof. solve_decision. Defined.

(** ** Output contents ([types/transaction/output_content.rs]) *)

Record WithdrawalContent : Type := mkWithdrawalContent {
  wc_value : Amount;
  wc_main_fee : Amount;
  wc_main_address : MainAddress;
}.
#[export] Instance WithdrawalContent_eq_dec : EqDecision WithdrawalContent.
Proof. solve_decision. Defined.

Inductive Content : Type :=
| Content_Bitcoin (value : Amount)
| Content_BitName
| Content_BitNameReservation
| Content_Withdrawal (withdrawal : WithdrawalContent).
#[export] Instance Content_eq_dec : EqDecision Content.
Proof. solve_decision. Defined.

Inductive Filled : Type :=
| Filled_Bitcoin (value : Amount)
| Filled_BitcoinWithdrawal (withdrawal : WithdrawalContent)
| Filled_BitName (bitname : BitName)
| Filled_BitNameReservation (txid : Txid) (commitment : Hash).
#[export] Instance Filled_eq_dec : EqDecision Filled.
Proof. solve_decision. Defined.

Record Output : Type := mkOutput {
  out_address : Address;
  out_content : Content;
  out_memo : bytes;
}.
#[export] Instance Output_eq_dec : EqDecision Output.
Proof. solve_decision. Defined.

Record FilledOutput : Type := mkFilledOutput {
  fo_address : Address;
  fo_content : Filled;
  fo_memo : bytes;
}.
#[export] Instance FilledOutput_eq_dec : EqDecision FilledOutput.
Proof. solve_decision. Defined.

Record SpentOutput : Type := mkSpentOutput {
  so_output : FilledOutput;
  so_inpoint : InPoint;
}.
#[export] Instance SpentOutput_eq_dec : EqDecision SpentOutput.
Proof. solve_decision. Defined.

(** ** BitName data ([types/bitname_data.rs]) *)

Record MutableBitNameData : Type := mkMutableBitNameData {
  mbd_commitment : option Hash;
  mbd_socket_addr_v4 : option SocketAddrV4;
  mbd_socket_addr_v6 : option SocketAddrV6;
  mbd_encryption_pubkey : option EncryptionPubKey;
  mbd_signing_pubkey : option VerifyingKey;
  mbd_paymail_fee_sats : option u64;
}.

(** [types::BitNameData], the view of a BitName at one height. *)
Record BitNameView : Type := mkBitNameView {
  bv_seq_id : u32;
  bv_mutable_data : MutableBitNameData;
}.

Inductive Update (T : Type) : Type :=
| Delete
| Retain
| Set_ (value : T).
Arguments Delete {T}.
Arguments Retain {T}.
Arguments Set_ {T} _.

Record BitNameDataUpdates : Type := mkBitNameDataUpdates {
  upd_commitment : Update Hash;
  upd_socket_addr_v4 : Update SocketAddrV4;
  upd_socket_addr_v6 : Update SocketAddrV6;
  upd_encryption_pubkey : Update EncryptionPubKey;
  upd_signing_pubkey : Update VerifyingKey;
  upd_paymail_fee_sats : Update u64;
}.

(** ** Transactions ([types/transaction/mod.rs]) *)

Record BatchIcannRegistrationData : Type := mkBatchIcann {
  bi_plain_names : list string;
  bi_signature : Signature;
}.

Inductive TxData : Type :=
| TxData_BitNameReservation (commitment : Hash)
| TxData_BitNameRegistration (name_hash : BitName) (revealed_nonce : Hash)
    (bitname_data : MutableBitNameData)
| TxData_BitNameUpdate (updates : BitNameDataUpdates)
| TxData_BatchIcann (data : BatchIcannRegistrationData).

Record Transaction : Type := mkTransaction {
  tx_inputs : list OutPoint;
  tx_outputs : list Output;
  tx_memo : bytes;
  tx_data : option TxData;
}.

Record FilledTransaction : Type := mkFilledTransaction {
  ft_transaction : Transaction;
  ft_spent_utxos : list FilledOutput;
}.

(** [types/authorization.rs] *)
Record Authorization : Type := mkAuthorization {
  auth_verifying_key : VerifyingKey;
  auth_signature : Signature;
}.

Record AuthorizedTransaction : Type := mkAuthorizedTransaction {
  at_transaction : Transaction;
  at_authorizations : list Authorization;
}.

(** [enum Dst], a [u8] tag that separates signing domains. *)
Inductive Dst : Type := Dst_Transaction | Dst_Arbitrary.
Definition dst_byte (d : Dst) : N :=
  match d with Dst_Transaction => 0 | Dst_Arbitrary => 255 end.

(** ** Blocks ([types/lib.rs]) *)

Record Header : Type := mkHeader {
  hd_merkle_root : MerkleRoot;
  hd_prev_side_hash : option BlockHash;
  hd_prev_main_hash : MainBlockHash;
}.

Record Coinbase : Type := mkCoinbase {
  cb_memo : bytes;
  cb_outputs : list Output;
}.

Record Body : Type := mkBody {
  bd_coinbase : Coinbase;
  bd_transactions : list Transaction;
  bd_authorizations : list Authorization;
}.

(** What the transaction tree hashes at a leaf and at a branch. *)
Record CbmtLeafPreCommitment : Type := mkCbmtLeafPreCommitment {
  clp_fee : Amount;
  clp_canonical_size : u64;
  clp_tx : Transaction;
}.
Record CbmtNodePreCommitment : Type := mkCbmtNodePreCommitment {
  cnp_left_commitment : Hash;
  cnp_fees : Amount;
  cnp_canonical_size : u64;
  cnp_right_commitment : Hash;
}.
Record CbmtNode : Type := mkCbmtNode {
  cn_commitment : Hash;
  cn_fees : Amount;
  cn_canonical_size : u64;
  cn_index : N;
}.

(** The same for the tree over the coinbase outputs. *)
Record CoinbaseCbmtLeafPreCommitment : Type := mkCoinbaseCbmtLeafPreCommitment {
  ccl_value : Amount;
  ccl_canonical_size : u64;
  ccl_output : Output;
}.
Record CoinbaseCbmtNodePreCommitment : Type := mkCoinbaseCbmtNodePreCommitment {
  ccn_left_commitment : Hash;
  ccn_value : Amount;
  ccn_canonical_size : u64;
  ccn_right_commitment : Hash;
}.
Record CoinbaseCbmtNode : Type := mkCoinbaseCbmtNode {
  ccb_commitment : Hash;
  ccb_value : Amount;
  ccb_canonical_size : u64;
  ccb_index : N;
}.

(** ** Withdrawal bundles ([types/lib.rs]) *)

Inductive WithdrawalBundleStatus : Type :=
| Confirmed | Dropped | Failed | Pending | Submitted | SubmittedUnexpected.
#[export] Instance WithdrawalBundleStatus_eq_dec : EqDecision WithdrawalBundleStatus.
Proof. solve_decision. Defined.

Inductive WithdrawalBundleEventStatus : Type :=
| Event_Confirmed | Event_Failed | Event_Submitted.

Record WithdrawalBundleEvent : Type := mkWithdrawalBundleEvent {
  wbe_m6id : M6id;
  wbe_status : WithdrawalBundleEventStatus;
}.

Record BlockIndexEvents : Type := mkBlockIndexEvents {
  bie_deposits : list (OutPoint * FilledOutput);
  bie_bundle_spends : list (OutPoint * M6id);
}.

(** [bitcoin::TxOut] and the fields the code sets of [bitcoin::Transaction]. *)
Record TxOut : Type := mkTxOut {
  txout_value : Amount;
  txout_script_pubkey : bytes;
}.
Record MainTx : Type := mkMainTx {
  mtx_version : N;
  mtx_lock_time : N;
  mtx_input : list OutPoint;
  mtx_output : list TxOut;
}.

(** [spend_utxos] is a [BTreeMap]; the list holds its entries in key order. *)
Record WithdrawalBundle : Type := mkWithdrawalBundle {
  wb_spend_utxos : list (OutPoint * FilledOutput);
  wb_tx : MainTx;
}.

Record AggregatedWithdrawal : Type := mkAggregatedWithdrawal {
  aw_spend_utxos : gmap OutPoint FilledOutput;
  aw_main_address : MainAddress;
  aw_value : Amount;
  aw_main_fee : Amount;
}.

(** ** Two-way peg events ([lib/types/proto.rs]) *)

Record Deposit : Type := mkDeposit {
  dep_tx_index : u64;
  dep_outpoint : N * u32;
  dep_output : FilledOutput;
}.

Inductive BlockEvent : Type :=
| BlockEvent_Deposit (deposit : Deposit)
| BlockEvent_WithdrawalBundle (event : WithdrawalBundleEvent).

Record BlockInfo : Type := mkBlockInfo {
  bi_bmm_commitment : option BlockHash;
  bi_events : list BlockEvent;
}.

(** [block_info] is a [LinkedHashMap]: the entries in insertion order. *)
Record TwoWayPegData : Type := mkTwoWayPegData {
  twp_block_info : list (MainBlockHash * BlockInfo);
}.

(** ** Third-party code

    What the sources take from other crates. Nothing is assumed of these
    functions here: the laws a theorem needs of them, their documented
    behaviour, are the named properties that follow, as hypotheses of that
    theorem. *)
Class Externals : Type := {
  (** [bitcoin::Amount::MAX] in satoshi *)
  AMOUNT_MAX : Amount;
  (** [blake3::hash], [blake3::keyed_hash] *)
  blake3_hash : bytes -> Hash;
  blake3_keyed_hash : Hash -> Hash -> Hash;
  (** borsh encodings *)
  borsh_outpoint : OutPoint -> bytes;
  borsh_transaction : Transaction -> bytes;
  borsh_header : Header -> bytes;
  borsh_body_length : Body -> N;
  borsh_leaf : CbmtLeafPreCommitment -> bytes;
  borsh_node : CbmtNodePreCommitment -> bytes;
  borsh_icann_msg : list OutPoint -> list Output -> list string -> bytes;
  borsh_coinbase_txid : MerkleRoot -> MainBlockHash -> option BlockHash -> bytes;
  borsh_roots : Hash -> Hash -> bytes;
  borsh_outpoints : list OutPoint -> bytes;
  borsh_output : Output -> bytes;
  borsh_coinbase_leaf : CoinbaseCbmtLeafPreCommitment -> bytes;
  borsh_coinbase_node : CoinbaseCbmtNodePreCommitment -> bytes;
  borsh_memo_root : bytes -> Hash -> bytes;
  (** [merkle_cbt::CBMT::<T, M>::build_merkle_root], given [T::default()] and
      [M::merge]; [None] when the merge panics *)
  cbmt_build_merkle_root : forall {T : Type},
    T -> (T -> T -> option T) -> list T -> option T;
  (** 20 bytes of the blake3 output stream over a key's bytes *)
  address_of_key : VerifyingKey -> Address;
  (** [frost_ristretto255] signature check of a message *)
  frost_verify : VerifyingKey -> bytes -> Signature -> bool;
  (** signing, given the generator's state, and the key of a signing key *)
  frost_sign : N -> SigningKey -> bytes -> Signature;
  verifying_key_of : SigningKey -> VerifyingKey;
  (** [frost_core::batch::Verifier]: queueing the items and verifying, with the
      random seed the code derives from the context and the items *)
  frost_batch_verify : list (VerifyingKey * Signature * bytes) -> bool;
  (** the batch ICANN key, [None] while its bytes are not a valid key *)
  BATCH_ICANN_VERIFYING_KEY : option VerifyingKey;
  (** [addr::parse_domain_name(..).is_ok()] *)
  parse_domain_name : string -> bool;
  (** [bitcoin]: script of an address, the order of addresses, OP_RETURN
      scripts, weight and txid of a transaction, varint size, the limits *)
  script_pubkey : MainAddress -> bytes;
  main_address_leb : MainAddress -> MainAddress -> bool;
  op_return_script : bytes -> bytes;
  main_tx_weight : MainTx -> N;
  main_tx_txid : MainTx -> M6id;
  varint_size : u64 -> N;
  MAX_STANDARD_TX_WEIGHT : N;
  (** [heed::types::SerdeBincode<u32>]: the key bytes LMDB orders *)
  bincode_u32 : u32 -> bytes;
}.

(** [Amount::checked_add], [Amount::checked_sub] *)
Definition amount_checked_add `{Externals} (a b : Amount) : option Amount :=
  if a + b <=? AMOUNT_MAX then Some (a + b) else None.
Definition amount_checked_sub (a b : Amount) : option Amount :=
  if b <=? a then Some (a - b) else None.
(** [Amount + Amount], which panics on overflow *)
Definition amount_add `{Externals} {E} (a b : Amount) : result E Amount :=
  expect (amount_checked_add a b).

(** The bytes of a 32-byte hash. *)
Definition hash_bytes (h : Hash) : bytes :=
  (fun i => h / 256 ^ N.of_nat (31 - i) mod 256) <$> seq 0 32.

(** Documented behaviour of the crates. A frost batch accepts exactly the
    non-empty lists of valid items (up to the negligible soundness error of the
    random combination); a fresh signature verifies; the borsh encoding of an
    outpoint can be decoded; [SerdeBincode] writes a [u32] in little-endian
    order. *)
Definition batch_verify_spec `{Externals} : Prop :=
  forall l, frost_batch_verify l = true <->
    l <> [] /\ Forall (fun '(key, signature, msg) => frost_verify key msg signature = true) l.
Definition sign_spec `{Externals} : Prop :=
  forall rng key msg, frost_verify (verifying_key_of key) msg (frost_sign rng key msg) = true.
Definition borsh_outpoint_spec `{Externals} : Prop := Inj (=) (=) borsh_outpoint.
Definition bincode_u32_spec `{Externals} : Prop :=
  forall n, bincode_u32 n =
    [n mod 256; n / 256 mod 256; n / 65536 mod 256; n / 16777216 mod 256].
