(* ===== verification/Transaction.v ===== *)
(** * Transactions

    The operations of [src/types/transaction/mod.rs] and
    [src/types/transaction/output_content.rs]: values of outputs, the views of
    a transaction the validation rules use, fees, and the computation of the
    filled outputs of a transaction. The theorems: the fee accounting, the
    totality of [filled_outputs] on balanced transactions, and what the filled
    outputs carry over from the inputs. *)

From S2P Require Import Prelude Types.

(** ** Output contents *)

Section values.
Context `{Externals}.

(** [impl GetValue for WithdrawalContent] *)
Definition withdrawal_get_value (w : WithdrawalContent) : Amount :=
  default AMOUNT_MAX (amount_checked_add (wc_value w) (wc_main_fee w)).

(** [impl GetValue for Content] *)
Definition content_get_value (c : Content) : Amount :=
  match c with
  | Content_Bitcoin value => value
  | Content_BitName | Content_BitNameReservation => 0
  | Content_Withdrawal withdrawal => withdrawal_get_value withdrawal
  end.

(** [impl From<Filled> for Content] *)
Definition content_of_filled (f : Filled) : Content :=
  match f with
  | Filled_Bitcoin value => Content_Bitcoin value
  | Filled_BitcoinWithdrawal withdrawal => Content_Withdrawal withdrawal
  | Filled_BitName _ => Content_BitName
  | Filled_BitNameReservation _ _ => Content_BitNameReservation
  end.

(** [impl GetValue for Filled] *)
Definition filled_get_value (f : Filled) : Amount :=
  content_get_value (content_of_filled f).

(** [impl GetValue for Output], [impl GetValue for FilledOutput] *)
Definition output_get_value (o : Output) : Amount :=
  content_get_value (out_content o).
Definition filled_output_get_value (o : FilledOutput) : Amount :=
  filled_get_value (fo_content o).
End values.

Definition content_is_bitname (c : Content) : bool :=
  match c with Content_BitName => true | _ => false end.
Definition content_is_reservation (c : Content) : bool :=
  match c with Content_BitNameReservation => true | _ => false end.

Definition filled_bitname (f : Filled) : option BitName :=
  match f with Filled_BitName name_hash => Some name_hash | _ => None end.
Definition filled_is_bitname (f : Filled) : bool :=
  match f with Filled_BitName _ => true | _ => false end.
Definition filled_is_reservation (f : Filled) : bool :=
  match f with Filled_BitNameReservation _ _ => true | _ => false end.
Definition filled_is_withdrawal (f : Filled) : bool :=
  match f with Filled_BitcoinWithdrawal _ => true | _ => false end.
Definition filled_reservation_data (f : Filled) : option (Txid * Hash) :=
  match f with
  | Filled_BitNameReservation txid commitment => Some (txid, commitment)
  | _ => None
  end.
Definition filled_reservation_commitment (f : Filled) : option Hash :=
  snd <$> filled_reservation_data f.

(** [impl From<FilledOutput> for Output] *)
Definition output_of_filled (o : FilledOutput) : Output :=
  mkOutput (fo_address o) (content_of_filled (fo_content o)) (fo_memo o).

(** ** Transaction views *)

Definition is_registration (tx : Transaction) : bool :=
  match tx_data tx with Some (TxData_BitNameRegistration _ _ _) => true | _ => false end.
Definition is_reservation (tx : Transaction) : bool :=
  match tx_data tx with Some (TxData_BitNameReservation _) => true | _ => false end.
Definition is_update (tx : Transaction) : bool :=
  match tx_data tx with Some (TxData_BitNameUpdate _) => true | _ => false end.
Definition is_batch_icann (tx : Transaction) : bool :=
  match tx_data tx with Some (TxData_BatchIcann _) => true | _ => false end.

Definition registration_name_hash (tx : Transaction) : option BitName :=
  match tx_data tx with
  | Some (TxData_BitNameRegistration name_hash _ _) => Some name_hash
  | _ => None
  end.
Definition reservation_commitment (tx : Transaction) : option Hash :=
  match tx_data tx with
  | Some (TxData_BitNameReservation commitment) => Some commitment
  | _ => None
  end.
Definition batch_icann_data (tx : Transaction) : option BatchIcannRegistrationData :=
  match tx_data tx with Some (TxData_BatchIcann data) => Some data | _ => None end.

Definition bitname_outputs (tx : Transaction) : list Output :=
  List.filter (fun o => content_is_bitname (out_content o)) (tx_outputs tx).
Definition reservation_outputs (tx : Transaction) : list Output :=
  List.filter (fun o => content_is_reservation (out_content o)) (tx_outputs tx).

Section transaction.
Context `{Externals}.

Definition implied_reservation_commitment (tx : Transaction) : option Hash :=
  match tx_data tx with
  | Some (TxData_BitNameRegistration name_hash revealed_nonce _) =>
      Some (blake3_keyed_hash revealed_nonce name_hash)
  | _ => None
  end.

(** [Transaction::txid], [Transaction::canonical_size] *)
Definition txid (tx : Transaction) : Txid := blake3_hash (borsh_transaction tx).
Definition canonical_size (tx : Transaction) : u64 :=
  N.of_nat (length (borsh_transaction tx)).

(** The BitName of a plaintext name: [BitName(blake3::hash(name.as_bytes()))] *)
Definition string_bytes (s : string) : bytes :=
  (fun c => Ascii.N_of_ascii c) <$> String.list_ascii_of_string s.
Definition name_hash_of (s : string) : BitName := blake3_hash (string_bytes s).

(** ** Filled transactions *)

Definition spent_inputs (tx : FilledTransaction) : list (OutPoint * FilledOutput) :=
  zip (tx_inputs (ft_transaction tx)) (ft_spent_utxos tx).
Definition spent_reservations (tx : FilledTransaction) : list (OutPoint * FilledOutput) :=
  List.filter (fun p => filled_is_reservation (fo_content p.2)) (spent_inputs tx).
Definition spent_bitnames (tx : FilledTransaction) : list (OutPoint * FilledOutput) :=
  List.filter (fun p => filled_is_bitname (fo_content p.2)) (spent_inputs tx).

(** [checked_sum] over an iterator of amounts *)
Definition checked_sum (l : list Amount) : option Amount :=
  foldl (fun acc a => acc' ← acc; amount_checked_add acc' a) (Some 0) l.

Inductive ComputeFeeError : Type :=
| Underfunded | ValueInOverflow | ValueOutOverflow.

Definition spent_value (tx : FilledTransaction) : option Amount :=
  checked_sum (filled_output_get_value <$> ft_spent_utxos tx).
Definition value_out (tx : FilledTransaction) : option Amount :=
  checked_sum (output_get_value <$> tx_outputs (ft_transaction tx)).

(** [FilledTransaction::fee] *)
Definition fee (tx : FilledTransaction) : result ComputeFeeError Amount :=
  spent_value ← ok_or (spent_value tx) ValueInOverflow;
  value_out ← ok_or (value_out tx) ValueOutOverflow;
  if spent_value <? value_out then Err Underfunded
  else Ok (spent_value - value_out).

Inductive GetFeeError : Type := AmountOverflow | AmountUnderflow.

(** [FilledTransaction::get_fee] *)
Definition get_fee (tx : FilledTransaction) : result GetFeeError Amount :=
  input_value ←
    fold_res (fun acc o => ok_or (amount_checked_add acc (filled_output_get_value o))
                             AmountOverflow)
      (ft_spent_utxos tx) 0;
  output_value ←
    fold_res (fun acc o => ok_or (amount_checked_add acc (output_get_value o))
                             AmountOverflow)
      (tx_outputs (ft_transaction tx)) 0;
  ok_or (amount_checked_sub input_value output_value) AmountUnderflow.

(** ** Filled outputs *)

(** [filled_bitname_output_content] *)
Definition filled_bitname_output_content (tx : FilledTransaction) : list Filled :=
  ((fun p : OutPoint * FilledOutput => fo_content p.2) <$> spent_bitnames tx) ++
  option_list (Filled_BitName <$> registration_name_hash (ft_transaction tx)).

(** The stateful [filter] closure of [filled_reservation_output_content]:
    drop the first reservation of the commitment to burn. *)
Fixpoint burn_reservation (reservation_to_burn : option Hash) (l : list Filled)
  : list Filled :=
  match l with
  | [] => []
  | content :: l =>
      match reservation_to_burn with
      | Some implied_commitment =>
          match content with
          | Filled_BitNameReservation _ commitment =>
              if commitment =? implied_commitment
              then burn_reservation None l
              else content :: burn_reservation reservation_to_burn l
          | _ => content :: burn_reservation reservation_to_burn l
          end
      | None => content :: burn_reservation None l
      end
  end.

(** [filled_reservation_output_content] *)
Definition filled_reservation_output_content (tx : FilledTransaction) : list Filled :=
  burn_reservation (implied_reservation_commitment (ft_transaction tx))
    ((fun p : OutPoint * FilledOutput => fo_content p.2) <$> spent_reservations tx) ++
  option_list
    (Filled_BitNameReservation (txid (ft_transaction tx)) <$>
       reservation_commitment (ft_transaction tx)).

(** The [map] closure of [filled_outputs], over the two content iterators. *)
Fixpoint fill_outputs (bitnames reservations : list Filled) (outputs : list Output)
  : option (list FilledOutput) :=
  match outputs with
  | [] => Some []
  | o :: outputs =>
      '(content, bitnames, reservations) ←
        match out_content o with
        | Content_BitName =>
            match bitnames with
            | [] => None
            | c :: bitnames => Some (c, bitnames, reservations)
            end
        | Content_BitNameReservation =>
            match reservations with
            | [] => None
            | c :: reservations => Some (c, bitnames, reservations)
            end
        | Content_Bitcoin value => Some (Filled_Bitcoin value, bitnames, reservations)
        | Content_Withdrawal w => Some (Filled_BitcoinWithdrawal w, bitnames, reservations)
        end;
      rest ← fill_outputs bitnames reservations outputs;
      Some (mkFilledOutput (out_address o) content (out_memo o) :: rest)
  end.

(** [FilledTransaction::filled_outputs] *)
Definition filled_outputs (tx : FilledTransaction) : option (list FilledOutput) :=
  fill_outputs (filled_bitname_output_content tx)
    (filled_reservation_output_content tx) (tx_outputs (ft_transaction tx)).

(** ** Authorization requirements *)

(** The [retain] closure of [spent_utxos_requiring_auth], over the peekable
    iterator of the declared names. *)
Fixpoint retain_requiring_auth (bitnames : list BitName) (l : list FilledOutput)
  : list FilledOutput :=
  match l with
  | [] => []
  | output :: l =>
      match filled_bitname (fo_content output), bitnames with
      | Some spent_bitname, bitname :: bitnames' =>
          if spent_bitname =? bitname then retain_requiring_auth bitnames' l
          else output :: retain_requiring_auth bitnames l
      | _, _ => output :: retain_requiring_auth bitnames l
      end
  end.

(** [FilledTransaction::spent_utxos_requiring_auth] *)
Definition spent_utxos_requiring_auth (tx : FilledTransaction) : list FilledOutput :=
  match batch_icann_data (ft_transaction tx) with
  | Some data =>
      retain_requiring_auth (name_hash_of <$> bi_plain_names data) (ft_spent_utxos tx)
  | None => ft_spent_utxos tx
  end.
End transaction.

(** ** Lemmas: sums and fees *)

Section fee_lemmas.
Context `{Externals}.

Lemma checked_sum_None l :
  foldl (fun acc a => acc' ← acc; amount_checked_add acc' a) None l = None.
Proof. by induction l. Qed.

Lemma checked_sum_from l acc :
  foldl (fun acc a => acc' ← acc; amount_checked_add acc' a) (Some acc) l =
  if decide (l = []) then Some acc
  else if acc + sum_N l <=? AMOUNT_MAX then Some (acc + sum_N l) else None.
Proof.
  revert acc. induction l as [|a l IH]; intros acc; [done|]. cbn.
  change (sum_N (a :: l)) with (a + sum_N l). rewrite N.add_assoc.
  unfold amount_checked_add at 2. destruct (N.leb_spec (acc + a) AMOUNT_MAX).
  - rewrite IH. case_decide; subst; [|done]. cbn. rewrite N.add_0_r.
    by rewrite (proj2 (N.leb_le _ _)).
  - rewrite checked_sum_None. by rewrite (proj2 (N.leb_gt _ _)) by lia.
Qed.

Lemma checked_sum_Some l s :
  checked_sum l = Some s <-> s = sum_N l /\ sum_N l <= AMOUNT_MAX.
Proof.
  unfold checked_sum. rewrite checked_sum_from, N.add_0_l. case_decide; subst.
  - split; [intros [= <-]; split; [done|apply N.le_0_l]|by intros [-> _]].
  - destruct (N.leb_spec (sum_N l) AMOUNT_MAX); split.
    + intros [= <-]. done.
    + by intros [-> _].
    + done.
    + intros [_ ?]. lia.
Qed.

Lemma checked_sum_total l :
  sum_N l <= AMOUNT_MAX -> checked_sum l = Some (sum_N l).
Proof. intros. by apply checked_sum_Some. Qed.

Lemma fold_checked_sum {A E} (g : A -> Amount) (e : E) l acc s :
  fold_res (fun acc a => ok_or (amount_checked_add acc (g a)) e) l acc = Ok s <->
  s = acc + sum_N (g <$> l) /\ (l = [] \/ acc + sum_N (g <$> l) <= AMOUNT_MAX).
Proof.
  revert acc. induction l as [|a l IH]; intros acc; cbn.
  - unfold sum_N; cbn. rewrite N.add_0_r. split; [intros [= <-]; auto|by intros [-> _]].
  - unfold amount_checked_add at 2. unfold sum_N in *; cbn.
    destruct (N.leb_spec (acc + g a) AMOUNT_MAX) as [Hle|Hlt]; cbn.
    + rewrite IH. rewrite N.add_assoc. split; intros [-> Hs]; split; try done.
      * right. destruct Hs as [->|]; [cbn; lia|done].
      * right. by destruct Hs.
    + split; [done|]. intros [_ [?|?]]; [done|lia].
Qed.

Lemma fold_checked_sum_total {A E} (g : A -> Amount) (e : E) l acc :
  acc + sum_N (g <$> l) <= AMOUNT_MAX ->
  fold_res (fun acc a => ok_or (amount_checked_add acc (g a)) e) l acc =
  Ok (acc + sum_N (g <$> l)).
Proof. intros. apply fold_checked_sum. auto. Qed.

(** The value spent equals the value created plus the fee. *)
Lemma fee_Ok tx f :
  fee tx = Ok f <->
  sum_N (filled_output_get_value <$> ft_spent_utxos tx) <= AMOUNT_MAX /\
  sum_N (filled_output_get_value <$> ft_spent_utxos tx) =
    sum_N (output_get_value <$> tx_outputs (ft_transaction tx)) + f.
Proof.
  unfold fee. split.
  - intros Hf. res_inv. apply checked_sum_Some in Hx as [-> ?], Hx0 as [-> ?].
    destruct (N.ltb_spec (sum_N (filled_output_get_value <$> ft_spent_utxos tx))
      (sum_N (output_get_value <$> tx_outputs (ft_transaction tx)))); res_inv. lia.
  - intros [Hle Heq]. unfold spent_value, value_out.
    rewrite !checked_sum_total by lia. cbn.
    destruct (N.ltb_spec (sum_N (filled_output_get_value <$> ft_spent_utxos tx))
      (sum_N (output_get_value <$> tx_outputs (ft_transaction tx)))); [lia|].
    f_equal. lia.
Qed.

Lemma get_fee_Ok tx f :
  get_fee tx = Ok f <->
  sum_N (filled_output_get_value <$> ft_spent_utxos tx) <= AMOUNT_MAX /\
  sum_N (filled_output_get_value <$> ft_spent_utxos tx) =
    sum_N (output_get_value <$> tx_outputs (ft_transaction tx)) + f.
Proof.
  unfold get_fee. split.
  - intros Hf. res_inv.
    apply fold_checked_sum in Hx as [-> Hin], Hx0 as [-> Hout].
    rewrite !N.add_0_l in *. unfold amount_checked_sub in Hf.
    destruct (N.leb_spec (sum_N (output_get_value <$> tx_outputs (ft_transaction tx)))
      (sum_N (filled_output_get_value <$> ft_spent_utxos tx))); simplify_eq.
    split; [|lia]. destruct Hin as [->|]; [apply N.le_0_l|done].
  - intros [Hle Heq]. rewrite !fold_checked_sum_total by lia. cbn.
    unfold amount_checked_sub. rewrite (proj2 (N.leb_le _ _)) by lia.
    cbn. f_equal. lia.
Qed.
End fee_lemmas.

(** ** Lemmas: filled outputs *)

(** The BitNames that a list of outputs carries, in order. *)
Definition bitnames_of (l : list FilledOutput) : list BitName :=
  omap (fun o => filled_bitname (fo_content o)) l.

(** The reservations that a list of outputs carries, in order. *)
Definition reservations_of (l : list FilledOutput) : list (Txid * Hash) :=
  omap (fun o => filled_reservation_data (fo_content o)) l.

Section fill_lemmas.
Context `{Externals}.

Lemma fill_outputs_is_Some bns rss outs :
  is_Some (fill_outputs bns rss outs) <->
  (length (List.filter (fun o => content_is_bitname (out_content o)) outs) <= length bns)%nat /\
  (length (List.filter (fun o => content_is_reservation (out_content o)) outs) <= length rss)%nat.
Proof.
  assert (forall (x : option (list FilledOutput)) (g : list FilledOutput -> list FilledOutput),
    is_Some (rest ← x; Some (g rest)) <-> is_Some x) as Hbind.
  { intros [] g; cbn; split; intros [??]; simplify_eq; eauto. }
  revert bns rss. induction outs as [|o outs IH]; intros bns rss; cbn.
  { split; [lia|by eauto]. }
  destruct (out_content o) eqn:Ho; cbn.
  - rewrite Hbind, IH. done.
  - destruct bns as [|c bns]; cbn.
    + split; [intros [??]; done|intros [??]; lia].
    + rewrite Hbind, IH. lia.
  - destruct rss as [|c rss]; cbn.
    + split; [intros [??]; done|intros [??]; lia].
    + rewrite Hbind, IH. lia.
  - rewrite Hbind, IH. done.
Qed.

(** What [filled_outputs] builds: the declared outputs with their contents
    filled in, the BitNames taken in order from the content iterator. *)
Lemma fill_outputs_Some bns rss outs fos :
  Forall (fun c => filled_is_bitname c) bns ->
  Forall (fun c => filled_is_reservation c) rss ->
  fill_outputs bns rss outs = Some fos ->
  output_of_filled <$> fos = outs /\
  bitnames_of fos =
    take (length (List.filter (fun o => content_is_bitname (out_content o)) outs))
      (omap filled_bitname bns).
Proof.
  intros Hb Hr. revert bns rss fos Hb Hr.
  induction outs as [|o outs IH]; intros bns rss fos Hb Hr Hf; cbn in Hf.
  { by simplify_eq. }
  destruct o as [ad co me]; cbn in *.
  destruct co as [v| | |w]; cbn in *;
    [|destruct Hb as [|c bns Hc Hb]; [done|]|destruct Hr as [|c rss Hc Hr]; [done|]|];
    cbn in *;
    (destruct (fill_outputs _ _ _) as [rest|] eqn:Hrest; [|done]); cbn in Hf;
    simplify_eq; destruct (IH _ _ _ Hb Hr Hrest) as [<- Hbn];
    cbn; unfold bitnames_of in *; cbn.
  - by rewrite Hbn.
  - destruct c; try done; cbn; by rewrite Hbn.
  - destruct c; try done; cbn; by rewrite Hbn.
  - by rewrite Hbn.
Qed.

(** The same for the reservations. *)
Lemma fill_outputs_reservations bns rss outs fos :
  Forall (fun c => filled_is_bitname c) bns ->
  Forall (fun c => filled_is_reservation c) rss ->
  fill_outputs bns rss outs = Some fos ->
  reservations_of fos =
    take (length (List.filter (fun o => content_is_reservation (out_content o)) outs))
      (omap filled_reservation_data rss).
Proof.
  intros Hb Hr. revert bns rss fos Hb Hr.
  induction outs as [|o outs IH]; intros bns rss fos Hb Hr Hf; cbn in Hf.
  { by simplify_eq. }
  destruct o as [ad co me]; cbn in *.
  destruct co as [v| | |w]; cbn in *;
    [|destruct Hb as [|c bns Hc Hb]; [done|]|destruct Hr as [|c rss Hc Hr]; [done|]|];
    cbn in *;
    (destruct (fill_outputs _ _ _) as [rest|] eqn:Hrest; [|done]); cbn in Hf;
    simplify_eq; specialize (IH _ _ _ Hb Hr Hrest);
    cbn; unfold reservations_of in *; cbn; rewrite ?IH; try done.
  - by destruct c.
  - destruct c; try done; cbn; by rewrite IH.
Qed.

Lemma burn_reservation_None l : burn_reservation None l = l.
Proof. induction l as [|c l IH]; cbn; [done|]. by rewrite IH. Qed.

Lemma burn_reservation_sublist o l : burn_reservation o l `sublist_of` l.
Proof.
  revert o. induction l as [|c l IH]; intros o; cbn; [done|].
  destruct o as [ic|]; [|by apply sublist_skip].
  destruct c as [| | |t h]; try by apply sublist_skip.
  destruct (h =? ic); [apply sublist_cons, IH|by apply sublist_skip].
Qed.

(** Exactly one reservation is burnt when one of the commitment is spent. *)
Lemma burn_reservation_length ic l :
  Exists (fun c => filled_reservation_commitment c = Some ic) l ->
  length l = S (length (burn_reservation (Some ic) l)).
Proof.
  induction l as [|c l IH]; intros Hex; [by apply Exists_nil in Hex|].
  destruct c as [v|w|b|t h]; cbn.
  1-3: f_equal; apply IH; by apply Exists_cons in Hex as [?|?].
  destruct (N.eqb_spec h ic) as [->|Hne]; [by rewrite burn_reservation_None|].
  cbn. f_equal. apply IH. apply Exists_cons in Hex as [Hc|?]; [|done].
  cbn in Hc. by simplify_eq.
Qed.

Lemma Forall_filter_spent (P : Filled -> bool) l :
  Forall (fun c => P c)
    ((fun p : OutPoint * FilledOutput => fo_content p.2) <$>
       List.filter (fun p => P (fo_content p.2)) l).
Proof.
  apply Forall_fmap, Forall_forall. intros p [_ Hp]%list_elem_of_In%filter_In. by apply Is_true_true.
Qed.

Lemma filled_bitname_output_content_Forall tx :
  Forall (fun c => filled_is_bitname c) (filled_bitname_output_content tx).
Proof.
  unfold filled_bitname_output_content. apply Forall_app. split.
  - apply (Forall_filter_spent filled_is_bitname).
  - destruct (registration_name_hash _); cbn; by repeat constructor.
Qed.

Lemma filled_reservation_output_content_Forall tx :
  Forall (fun c => filled_is_reservation c) (filled_reservation_output_content tx).
Proof.
  unfold filled_reservation_output_content. apply Forall_app. split.
  - apply Forall_forall. intros c Hc.
    eapply elem_of_sublist in Hc; [|apply burn_reservation_sublist].
    pose proof (Forall_filter_spent filled_is_reservation (spent_inputs tx)) as Hf.
    rewrite Forall_forall in Hf. by apply Hf.
  - destruct (reservation_commitment _); cbn; by repeat constructor.
Qed.

Lemma omap_bitname_content tx :
  omap filled_bitname (filled_bitname_output_content tx) =
  bitnames_of (spent_inputs tx).*2 ++
  option_list (registration_name_hash (ft_transaction tx)).
Proof.
  unfold filled_bitname_output_content. rewrite omap_app. f_equal.
  - unfold spent_bitnames, bitnames_of.
    induction (spent_inputs tx) as [|[op fo] l IH]; [done|].
    destruct fo as [ad c me]; cbn.
    destruct c; cbn; rewrite ?IH; done.
  - by destruct (registration_name_hash _).
Qed.
End fill_lemmas.
