(* ===== verification/Sample.v ===== *)
(** * A sample of the third-party code

    A concrete instance of [Externals], so that the definitions of the
    development can be evaluated: encoders that list the fields of a value, a
    polynomial hash, a signature scheme in which a signature is the keyed hash
    of the message, and the queue algorithm of a complete binary Merkle tree.
    Only the witnesses of the theorems use it. *)

From S2P Require Import Prelude Types Transaction.

Module Sample.

Definition hash (b : bytes) : Hash :=
  foldl (fun acc x => (acc * 1000003 + x + 1) mod (2 ^ 61 - 1)) 7 b.

Definition enc_list {A} (f : A -> bytes) (l : list A) : bytes :=
  N.of_nat (length l) :: concat (f <$> l).
Definition enc_option {A} (f : A -> bytes) (o : option A) : bytes :=
  match o with Some a => 1 :: f a | None => [0] end.
Definition enc_N (n : N) : bytes := [n].

Definition enc_outpoint (o : OutPoint) : bytes :=
  let '(tag, t, v) := outpoint_rank o in [tag; t; v].
Definition enc_content (c : Content) : bytes :=
  match c with
  | Content_Bitcoin v => [0; v]
  | Content_BitName => [1]
  | Content_BitNameReservation => [2]
  | Content_Withdrawal w => [3; wc_value w; wc_main_fee w; wc_main_address w]
  end.
Definition enc_output (o : Output) : bytes :=
  out_address o :: enc_content (out_content o) ++ enc_list enc_N (out_memo o).
Definition enc_update (u : Update N) : bytes :=
  match u with Delete => [0] | Retain => [1] | Set_ v => [2; v] end.
Definition enc_txdata (d : TxData) : bytes :=
  match d with
  | TxData_BitNameReservation c => [0; c]
  | TxData_BitNameRegistration n r m =>
      [1; n; r] ++ concat (enc_option enc_N <$>
        [mbd_commitment m; mbd_socket_addr_v4 m; mbd_socket_addr_v6 m;
         mbd_encryption_pubkey m; mbd_signing_pubkey m; mbd_paymail_fee_sats m])
  | TxData_BitNameUpdate u =>
      2 :: concat (enc_update <$>
        [upd_commitment u; upd_socket_addr_v4 u; upd_socket_addr_v6 u;
         upd_encryption_pubkey u; upd_signing_pubkey u; upd_paymail_fee_sats u])
  | TxData_BatchIcann b => 3 :: bi_signature b :: enc_list string_bytes (bi_plain_names b)
  end.
Definition enc_tx (t : Transaction) : bytes :=
  enc_list enc_outpoint (tx_inputs t) ++ enc_list enc_output (tx_outputs t) ++
  enc_list enc_N (tx_memo t) ++ enc_option enc_txdata (tx_data t).
Definition enc_auth (a : Authorization) : bytes := [auth_verifying_key a; auth_signature a].
Definition enc_body (b : Body) : bytes :=
  enc_list enc_N (cb_memo (bd_coinbase b)) ++
  enc_list enc_output (cb_outputs (bd_coinbase b)) ++
  enc_list enc_tx (bd_transactions b) ++ enc_list enc_auth (bd_authorizations b).

Definition sign (key : N) (msg : bytes) : Signature := hash (key :: msg).
Definition verify (key : VerifyingKey) (msg : bytes) (s : Signature) : bool := s =? sign key msg.

(** Complete binary Merkle trees: the leaves are taken in pairs from the end. *)
Section cbmt.
Context {T : Type} (default : T) (merge : T -> T -> option T).

(** [l] is reversed: the right leaf of a pair comes first. *)
Fixpoint pair_leaves (l : list T) : option (list T) :=
  match l with
  | [] => Some []
  | [leaf] => Some [leaf]
  | r :: l0 :: l =>
      node ← merge l0 r; nodes ← pair_leaves l; Some (node :: nodes)
  end.
(** A leaf without a partner goes to the front of the queue. *)
Definition initial_queue (leaves : list T) : option (list T) :=
  match leaves with
  | leaf :: rest =>
      if Nat.odd (length leaves) then q ← pair_leaves (reverse rest); Some (leaf :: q)
      else pair_leaves (reverse leaves)
  | [] => Some []
  end.
Fixpoint run_queue (fuel : nat) (q : list T) : option T :=
  match fuel, q with
  | _, [] => Some default
  | _, [root] => Some root
  | S fuel, r :: l :: q => node ← merge l r; run_queue fuel (q ++ [node])
  | O, _ => None
  end.
Definition build_merkle_root (leaves : list T) : option T :=
  q ← initial_queue leaves; run_queue (length q) q.
End cbmt.

(** The four bytes of a [u32], least significant first. *)
Definition le_bytes (n : u32) : bytes :=
  [n mod 256; n / 256 mod 256; n / 65536 mod 256; n / 16777216 mod 256].

Definition externals : Externals := {|
  AMOUNT_MAX := 2100000000000000;
  blake3_hash := hash;
  blake3_keyed_hash k h := hash [k; h];
  borsh_outpoint := enc_outpoint;
  borsh_transaction := enc_tx;
  borsh_header h := hd_merkle_root h :: hd_prev_main_hash h ::
    enc_option enc_N (hd_prev_side_hash h);
  borsh_body_length b := N.of_nat (length (enc_body b));
  borsh_leaf l := clp_fee l :: clp_canonical_size l :: enc_tx (clp_tx l);
  borsh_node n := [cnp_left_commitment n; cnp_fees n; cnp_canonical_size n;
                   cnp_right_commitment n];
  borsh_icann_msg i o n :=
    enc_list enc_outpoint i ++ enc_list enc_output o ++ enc_list string_bytes n;
  borsh_coinbase_txid m h p := m :: h :: enc_option enc_N p;
  borsh_roots a b := [a; b];
  borsh_outpoints := enc_list enc_outpoint;
  borsh_output := enc_output;
  borsh_coinbase_leaf l := ccl_value l :: ccl_canonical_size l :: enc_output (ccl_output l);
  borsh_coinbase_node n := [ccn_left_commitment n; ccn_value n; ccn_canonical_size n;
                            ccn_right_commitment n];
  borsh_memo_root m r := r :: enc_list enc_N m;
  cbmt_build_merkle_root T := @build_merkle_root T;
  address_of_key k := k;
  frost_verify := verify;
  frost_sign rng := sign;
  verifying_key_of k := k;
  frost_batch_verify l :=
    match l with [] => false | _ => forallb (fun '(k, s, m) => verify k m s) l end;
  BATCH_ICANN_VERIFYING_KEY := Some 42;
  parse_domain_name s := true;
  script_pubkey a := [a];
  main_address_leb := N.leb;
  op_return_script b := 106 :: b;
  main_tx_weight t := 40 * N.of_nat (length (mtx_output t)) + 100;
  main_tx_txid t := hash (concat (enc_outpoint <$> mtx_input t) ++
    concat ((fun o => txout_value o :: txout_script_pubkey o) <$> mtx_output t));
  varint_size n := if n <? 253 then 1 else if n <? 65536 then 3 else 5;
  MAX_STANDARD_TX_WEIGHT := 400000;
  bincode_u32 := le_bytes;
|}.

Lemma batch_verify : @batch_verify_spec externals.
Proof.
  intros l. cbn. rewrite Forall_forall. destruct l as [|x l].
  { split; [done|]. by intros [? _]. }
  rewrite forallb_forall. split.
  - intros Hf. split; [done|]. intros [[k s] m] Hin%list_elem_of_In. by apply (Hf _ Hin).
  - intros [_ Hf] [[k s] m] Hin%list_elem_of_In. apply (Hf _ Hin).
Qed.
Lemma sign_verifies : @sign_spec externals.
Proof. intros rng key msg. cbn. unfold verify. by rewrite N.eqb_refl. Qed.
Lemma borsh_outpoint_inj : @borsh_outpoint_spec externals.
Proof. by intros [] [] [=]; subst. Qed.
Lemma bincode_le : @bincode_u32_spec externals.
Proof. done. Qed.

End Sample.
