(* ===== verification/Rollback.v ===== *)
(** * Roll-back histories

    [src/lib/state/rollback.rs]: non-empty histories of values stamped with the
    height (and the transaction) that wrote them, kept so that a block can be
    disconnected. *)

From S2P Require Import Prelude Types.

(** [nonempty::NonEmpty]: a head and a [Vec] tail. *)
Record NonEmpty (T : Type) : Type := mkNonEmpty { ne_head : T; ne_tail : list T }.
Arguments mkNonEmpty {T} _ _.
Arguments ne_head {T} _.
Arguments ne_tail {T} _.

Definition ne_new {T} (x : T) : NonEmpty T := mkNonEmpty x [].
Definition ne_list {T} (n : NonEmpty T) : list T := ne_head n :: ne_tail n.
#[global] Arguments ne_list {_} _ : simpl never.
Definition ne_last {T} (n : NonEmpty T) : T := List.last (ne_tail n) (ne_head n).
Definition ne_push {T} (n : NonEmpty T) (x : T) : NonEmpty T :=
  mkNonEmpty (ne_head n) (ne_tail n ++ [x]).
(** [pop] takes from the tail, and leaves a single element in place. *)
Definition ne_pop {T} (n : NonEmpty T) : option (T * NonEmpty T) :=
  match reverse (ne_tail n) with
  | [] => None
  | x :: r => Some (x, mkNonEmpty (ne_head n) (reverse r))
  end.

(** [HeightStamped<T>], [TxidStamped<T>] *)
Record HeightStamped (T : Type) : Type := mkHeightStamped {
  hs_value : T;
  hs_height : u32;
}.
Arguments mkHeightStamped {T} _ _.
Arguments hs_value {T} _.
Arguments hs_height {T} _.

Record TxidStamped (T : Type) : Type := mkTxidStamped {
  ts_data : T;
  ts_txid : Txid;
  ts_height : u32;
}.
Arguments mkTxidStamped {T} _ _ _.
Arguments ts_data {T} _.
Arguments ts_txid {T} _.
Arguments ts_height {T} _.

(** ** [impl RollBack<HeightStamped<T>>] *)

Section height_stamped.
Context {T : Type}.

Definition hs_new (value : T) (height : u32) : NonEmpty (HeightStamped T) :=
  ne_new (mkHeightStamped value height).

Definition hs_pop (r : NonEmpty (HeightStamped T))
  : option (NonEmpty (HeightStamped T)) * HeightStamped T :=
  match ne_pop r with
  | Some (value, r') => (Some r', value)
  | None => (None, ne_head r)
  end.

(** Refused, with the value handed back, when the latest height is greater. *)
Definition hs_push (r : NonEmpty (HeightStamped T)) (value : T) (height : u32)
  : result T (NonEmpty (HeightStamped T)) :=
  if height <? hs_height (ne_last r) then Err value
  else Ok (ne_push r (mkHeightStamped value height)).

Definition hs_latest (r : NonEmpty (HeightStamped T)) : HeightStamped T := ne_last r.
End height_stamped.

(** ** [impl RollBack<TxidStamped<T>>] *)

Section txid_stamped.
Context {T : Type}.

Definition ts_new (value : T) (txid : Txid) (height : u32) : NonEmpty (TxidStamped T) :=
  ne_new (mkTxidStamped value txid height).

Definition ts_push (r : NonEmpty (TxidStamped T)) (value : T) (txid : Txid) (height : u32)
  : NonEmpty (TxidStamped T) :=
  ne_push r (mkTxidStamped value txid height).

Definition ts_pop (r : NonEmpty (TxidStamped T))
  : option (TxidStamped T) * NonEmpty (TxidStamped T) :=
  match ne_pop r with
  | Some (value, r') => (Some value, r')
  | None => (None, r)
  end.

Definition ts_at_block_height (r : NonEmpty (TxidStamped T)) (height : u32)
  : option (TxidStamped T) :=
  List.find (fun s => ts_height s <=? height) (reverse (ne_list r)).

Definition ts_latest (r : NonEmpty (TxidStamped T)) : TxidStamped T := ne_last r.
End txid_stamped.

(** ** Lemmas *)

Section nonempty_lemmas.
Context {T : Type}.
Implicit Types (n : NonEmpty T) (x : T).

Lemma ne_pop_push n x : ne_pop (ne_push n x) = Some (x, n).
Proof.
  unfold ne_pop, ne_push; cbn. rewrite reverse_snoc, reverse_involutive. by destruct n.
Qed.
Lemma ne_last_push n x : ne_last (ne_push n x) = x.
Proof. unfold ne_last, ne_push; cbn. apply last_last. Qed.
Lemma ne_list_push n x : ne_list (ne_push n x) = ne_list n ++ [x].
Proof. done. Qed.
Lemma ne_last_elem n : ne_last n ∈ ne_list n.
Proof.
  destruct n as [h t]. unfold ne_last, ne_list; cbn.
  induction t as [|y t _] using rev_ind; [apply list_elem_of_here|].
  rewrite last_last. apply list_elem_of_further, elem_of_app. right.
  apply list_elem_of_here.
Qed.
Lemma ne_list_last n : exists l, ne_list n = l ++ [ne_last n].
Proof.
  destruct n as [h t]. unfold ne_last, ne_list; cbn.
  induction t as [|y t _] using rev_ind; [by exists []|].
  rewrite last_last. by exists (h :: t).
Qed.
Lemma ne_pop_Some n x n' : ne_pop n = Some (x, n') <-> n = ne_push n' x.
Proof.
  split; [|by intros ->; apply ne_pop_push].
  unfold ne_pop, ne_push. destruct n as [h t]; cbn.
  destruct (reverse t) as [|y r] eqn:Hr; [done|]. intros [= -> <-]; cbn.
  by rewrite <-reverse_cons, <-Hr, reverse_involutive.
Qed.
End nonempty_lemmas.

Lemma hs_pop_push {T} (r r' : NonEmpty (HeightStamped T)) v h :
  hs_push r v h = Ok r' -> hs_pop r' = (Some r, mkHeightStamped v h).
Proof.
  unfold hs_push. destruct (h <? _); [done|]. intros [= <-].
  unfold hs_pop. by rewrite ne_pop_push.
Qed.
Lemma hs_pop_new {T} (v : T) h : hs_pop (hs_new v h) = (None, mkHeightStamped v h).
Proof. done. Qed.
Lemma hs_latest_push {T} (r r' : NonEmpty (HeightStamped T)) v h :
  hs_push r v h = Ok r' -> hs_latest r' = mkHeightStamped v h.
Proof.
  unfold hs_push. destruct (h <? _); [done|]. intros [= <-]. apply ne_last_push.
Qed.
Lemma ts_pop_push {T} (r : NonEmpty (TxidStamped T)) v t h :
  ts_pop (ts_push r v t h) = (Some (mkTxidStamped v t h), r).
Proof. unfold ts_pop, ts_push. by rewrite ne_pop_push. Qed.

(** A history whose heights never decrease. *)
Definition heights_sorted (l : list u32) : Prop := StronglySorted N.le l.
Definition hs_sorted {T} (r : NonEmpty (HeightStamped T)) : Prop :=
  heights_sorted (hs_height <$> ne_list r).
Definition ts_sorted {T} (r : NonEmpty (TxidStamped T)) : Prop :=
  heights_sorted (ts_height <$> ne_list r).

Lemma heights_sorted_snoc l h :
  heights_sorted (l ++ [h]) <-> heights_sorted l /\ Forall (fun h' => h' <= h) l.
Proof.
  unfold heights_sorted. induction l as [|x l IH]; cbn.
  - split; repeat constructor.
  - split.
    + inversion 1 as [|?? Hs Hf]; subst. apply IH in Hs as [? ?].
      apply Forall_app in Hf as [? Hx]. rewrite Forall_singleton in Hx.
      by repeat constructor.
    + intros [Hs Hf]. inversion Hs; inversion Hf; subst.
      constructor; [by apply IH|]. apply Forall_app. by rewrite Forall_singleton.
Qed.

Lemma heights_sorted_last l h h' :
  heights_sorted (l ++ [h]) -> h <= h' -> heights_sorted (l ++ [h] ++ [h']).
Proof.
  rewrite app_assoc, !heights_sorted_snoc. intros [? Hf] ?. split; [done|].
  rewrite Forall_app, Forall_singleton. split; [|done].
  eapply Forall_impl; [exact Hf|]. cbn. intros. lia.
Qed.

(** [push] keeps a history sorted, by its own check. *)
Lemma hs_push_sorted {T} (r r' : NonEmpty (HeightStamped T)) v h :
  hs_sorted r -> hs_push r v h = Ok r' -> hs_sorted r'.
Proof.
  unfold hs_push. destruct (N.ltb_spec h (hs_height (ne_last r))) as [|Hle]; [done|].
  intros Hs [= <-]. unfold hs_sorted in *. rewrite ne_list_push, fmap_app; cbn.
  destruct (ne_list_last r) as [l Hl]. rewrite Hl, fmap_app in Hs |- *; cbn in *.
  rewrite <-app_assoc. by apply heights_sorted_last.
Qed.
Lemma hs_pop_sorted {T} (r r' : NonEmpty (HeightStamped T)) x :
  hs_sorted r -> hs_pop r = (Some r', x) -> hs_sorted r'.
Proof.
  unfold hs_pop, hs_sorted. destruct (ne_pop r) as [[y n]|] eqn:Hp; intros Hs [=]; subst.
  apply ne_pop_Some in Hp as ->. rewrite ne_list_push, fmap_app in Hs.
  by apply heights_sorted_snoc in Hs as [? _].
Qed.

(** Queries at a height ignore what was pushed above it, and see the latest
    value at or above its height. *)
Lemma ts_at_block_height_push_above {T} (r : NonEmpty (TxidStamped T)) v t h h' :
  h' < h -> ts_at_block_height (ts_push r v t h) h' = ts_at_block_height r h'.
Proof.
  intros. unfold ts_at_block_height, ts_push. rewrite ne_list_push, reverse_snoc. cbn.
  by rewrite (proj2 (N.leb_gt _ _)).
Qed.
Lemma ts_at_block_height_latest {T} (r : NonEmpty (TxidStamped T)) h :
  ts_height (ts_latest r) <= h -> ts_at_block_height r h = Some (ts_latest r).
Proof.
  intros. unfold ts_at_block_height, ts_latest in *. destruct (ne_list_last r) as [l ->].
  rewrite reverse_snoc. cbn. by rewrite (proj2 (N.leb_le _ _)).
Qed.
Lemma ts_at_block_height_new_below {T} (v : T) t h h' :
  h' < h -> ts_at_block_height (ts_new v t h) h' = None.
Proof.
  intros. unfold ts_at_block_height, ts_new, ne_new, ne_list; cbn. rewrite reverse_singleton.
  cbn. by rewrite (proj2 (N.leb_gt _ _)).
Qed.
