(* ===== verification/BitNameSeqId.v ===== *)
(** * BitName sequence IDs

    [src/types/bitname_seq_id.rs]: the human-readable form of a sequence number
    ([Display]), its parser ([FromStr]), and [next]. A string is the list of its
    characters' code points. *)

From S2P Require Import Prelude Types.

Definition DISPLAY_OFFSET : u32 := 23071990.
Definition chr_dash : N := 45.
Definition chr_0 : N := 48.

(** [BitNameSeqId::next] *)
Definition seq_next (seq : u32) : u32 := u32_add seq 1.

(** ** Decimal formatting of the standard library *)

(** Digits of [n], most significant first; [fuel] bounds their number. *)
Fixpoint dec_digits (fuel : nat) (n : N) : list N :=
  match fuel with
  | O => []
  | S fuel =>
      if n <? 10 then [chr_0 + n]
      else dec_digits fuel (n / 10) ++ [chr_0 + n mod 10]
  end.
(** [format!("{n:0w$}")]; a [u32] has at most ten digits. *)
Definition fmt_padded (w : nat) (n : u32) : list N :=
  let d := dec_digits 10 n in replicate (w - length d) chr_0 ++ d.
(** [str::parse::<u32>] on a non-empty string of ASCII digits *)
Definition parse_digits (l : list N) : N :=
  foldl (fun acc c => 10 * acc + (c - chr_0)) 0 l.

(** ** [impl Display] *)

(** Digit [i] of [last_8_digits] goes to the position the code gives it. *)
Definition reordered_ascii (d : list N) : list N * list N :=
  let g i := nth i d chr_0 in
  ([g 4%nat; g 3%nat; g 1%nat; g 6%nat], [g 2%nat; g 7%nat; g 0%nat; g 5%nat]).

Definition seq_fmt (seq : u32) : list N :=
  let first_4_digit_component := seq / 100000000 in
  let last_8_digit_component := (seq mod 100000000 + DISPLAY_OFFSET) mod 100000000 in
  let '(r0, r1) := reordered_ascii (fmt_padded 8 last_8_digit_component) in
  if 0 <? first_4_digit_component
  then fmt_padded 4 first_4_digit_component ++ [chr_dash] ++ r0 ++ [chr_dash] ++ r1
  else r0 ++ [chr_dash] ++ r1.

(** ** [impl FromStr] *)

Inductive ParseBitNameSeqIdError : Type :=
| EmptySegmentStart | EmptySegmentEnd | EmptySegment
| InvalidChar (char : N)
| InvalidSegment (invalid_segment : list N)
| Overflow | TooFewSegments | TooManySegments.

Definition is_ascii_digit (c : N) : bool := (48 <=? c) && (c <=? 57).

(** [parse_segment] *)
Definition parse_segment (s : list N) : result ParseBitNameSeqIdError (list N) :=
  if match s with c :: _ => c =? chr_dash | [] => false end then Err EmptySegment
  else if negb (forallb is_ascii_digit s) then Err (InvalidSegment s)
  else if (length s =? 4)%nat then Ok s else Err (InvalidSegment s).

(** [last_8_digit_component] *)
Definition last_8_digit_component (s0 s1 : list N) : u32 :=
  let a i := nth i s0 chr_0 in
  let b i := nth i s1 chr_0 in
  let last_8_digits_ascii :=
    [b 2%nat; a 2%nat; b 0%nat; a 1%nat; a 0%nat; b 3%nat; a 3%nat; b 1%nat] in
  let last_8_digits_offset := parse_digits last_8_digits_ascii in
  if DISPLAY_OFFSET <=? last_8_digits_offset then last_8_digits_offset - DISPLAY_OFFSET
  else 100000000 - (DISPLAY_OFFSET - last_8_digits_offset).

(** The pieces that repeated [split_once('-')] cuts a string into. *)
Fixpoint split_dash (s : list N) : list N * list (list N) :=
  match s with
  | [] => ([], [])
  | c :: s =>
      let '(seg, rest) := split_dash s in
      if c =? chr_dash then ([], seg :: rest) else (c :: seg, rest)
  end.

(** The [while let] loop over all pieces but the last, then the final push. *)
Fixpoint parse_segments (segments : list (list N)) (seg : list N) (rest : list (list N))
  : result ParseBitNameSeqIdError (list (list N)) :=
  match rest with
  | [] => x ← parse_segment seg; Ok (segments ++ [x])
  | seg' :: rest' =>
      x ← parse_segment seg;
      let segments := segments ++ [x] in
      if (2 <? length segments)%nat then Err TooManySegments
      else parse_segments segments seg' rest'
  end.

Definition seq_from_str (s : list N) : result ParseBitNameSeqIdError u32 :=
  match List.find (fun c => negb (is_ascii_digit c || (c =? chr_dash))) s with
  | Some invalid_char => Err (InvalidChar invalid_char)
  | None =>
  if match s with c :: _ => c =? chr_dash | [] => false end then Err EmptySegmentStart
  else if match reverse s with c :: _ => c =? chr_dash | [] => false end
  then Err EmptySegmentEnd
  else
    let '(seg, rest) := split_dash s in
    segments ← parse_segments [] seg rest;
    match segments with
    | [] | [_] => Err TooFewSegments
    | [s0; s1] => Ok (last_8_digit_component s0 s1)
    | [s0; s1; s2] =>
        let first_4_digits := parse_digits s0 in
        hi ← ok_or (u32_checked_mul first_4_digits 100000000) Overflow;
        Ok (u32_add hi (last_8_digit_component s1 s2))
    | _ => Err TooManySegments
    end
  end.

(** ** Lemmas *)

(** Exactly [w] digits. *)
Fixpoint fixed_digits (w : nat) (n : N) : list N :=
  match w with
  | O => []
  | S w => fixed_digits w (n / 10) ++ [chr_0 + n mod 10]
  end.

Lemma fixed_digits_0 w : fixed_digits w 0 = replicate w chr_0.
Proof.
  induction w as [|w IH]; [done|]. cbn [fixed_digits].
  change (0 / 10) with 0. rewrite IH. change (chr_0 + 0 mod 10) with chr_0.
  by rewrite <-replicate_cons_app.
Qed.

Lemma dec_digits_fixed w n fuel :
  (w < fuel)%nat -> n < 10 ^ N.of_nat (S w) ->
  (length (dec_digits fuel n) <= S w)%nat /\
  replicate (S w - length (dec_digits fuel n)) chr_0 ++ dec_digits fuel n =
    fixed_digits (S w) n.
Proof.
  revert n fuel. induction w as [|w IH]; intros n [|fuel] Hf Hn; try lia.
  - cbn [dec_digits]. change (10 ^ N.of_nat 1) with 10 in Hn.
    rewrite (proj2 (N.ltb_lt _ _)) by done. cbn.
    rewrite N.mod_small by done. split; [lia|done].
  - cbn [dec_digits]. destruct (N.ltb_spec n 10) as [Hlt|Hge].
    + cbn [length]. split; [lia|].
      change (fixed_digits (S (S w)) n)
        with (fixed_digits (S w) (n / 10) ++ [chr_0 + n mod 10]).
      rewrite N.div_small, N.mod_small, fixed_digits_0 by done.
      by replace (S (S w) - 1)%nat with (S w) by lia.
    + assert (n / 10 < 10 ^ N.of_nat (S w)) as Hdiv.
      { apply N.Div0.div_lt_upper_bound.
        by rewrite <-N.pow_succ_r', <-Nat2N.inj_succ. }
      destruct (IH (n / 10) fuel) as [Hlen Heq]; [lia|done|].
      rewrite length_app. cbn [length]. split; [lia|].
      change (fixed_digits (S (S w)) n)
        with (fixed_digits (S w) (n / 10) ++ [chr_0 + n mod 10]).
      rewrite <-Heq, app_assoc. do 3 f_equal. lia.
Qed.

Lemma fmt_padded_fixed w n :
  (w < 10)%nat -> n < 10 ^ N.of_nat (S w) -> fmt_padded (S w) n = fixed_digits (S w) n.
Proof. intros. unfold fmt_padded. by apply dec_digits_fixed. Qed.

Lemma parse_digits_snoc l c : parse_digits (l ++ [c]) = 10 * parse_digits l + (c - chr_0).
Proof. unfold parse_digits. by rewrite foldl_snoc. Qed.

Lemma parse_fixed_digits w n : n < 10 ^ N.of_nat w -> parse_digits (fixed_digits w n) = n.
Proof.
  revert n. induction w as [|w IH]; intros n Hn.
  - cbn in *. lia.
  - cbn [fixed_digits]. rewrite parse_digits_snoc, IH.
    + rewrite (N.add_comm chr_0), N.add_sub. symmetry. apply N.Div0.div_mod.
    + apply N.Div0.div_lt_upper_bound. by rewrite <-N.pow_succ_r', <-Nat2N.inj_succ.
Qed.

Lemma fixed_digits_length w n : length (fixed_digits w n) = w.
Proof.
  revert n. induction w as [|w IH]; intros n; [done|]. cbn.
  rewrite length_app, IH. cbn. lia.
Qed.
Lemma fixed_digits_ascii w n : Forall (fun c => is_ascii_digit c = true) (fixed_digits w n).
Proof.
  revert n. induction w as [|w IH]; intros n; cbn [fixed_digits]; [constructor|].
  apply Forall_app. split; [done|]. repeat constructor. unfold is_ascii_digit, chr_0.
  pose proof (N.mod_upper_bound n 10 ltac:(done)). apply andb_true_intro.
  rewrite !N.leb_le. generalize dependent (n mod 10). lia.
Qed.

(** The digits of a display string are read back at the positions they were
    written to. *)
Lemma last_8_reordered d :
  length d = 8%nat ->
  last_8_digit_component (reordered_ascii d).1 (reordered_ascii d).2 =
  (if DISPLAY_OFFSET <=? parse_digits d then parse_digits d - DISPLAY_OFFSET
   else 100000000 - (DISPLAY_OFFSET - parse_digits d)).
Proof.
  intros Hd. by do 9 (destruct d as [|? d]; [done|try done]).
Qed.

Lemma offset_inverse x :
  x < 100000000 ->
  let y := (x + DISPLAY_OFFSET) mod 100000000 in
  (if DISPLAY_OFFSET <=? y then y - DISPLAY_OFFSET
   else 100000000 - (DISPLAY_OFFSET - y)) = x.
Proof.
  intros Hx y. subst y. unfold DISPLAY_OFFSET.
  destruct (N.ltb_spec (x + 23071990) 100000000) as [Hlt|Hge].
  - rewrite N.mod_small by done. rewrite (proj2 (N.leb_le _ _)) by lia. lia.
  - replace (x + 23071990) with (x + 23071990 - 100000000 + 1 * 100000000) by lia.
    rewrite N.Div0.mod_add, N.mod_small by lia.
    rewrite (proj2 (N.leb_gt _ _)) by lia. lia.
Qed.

Lemma split_dash_digits l s :
  Forall (fun c => is_ascii_digit c = true) l ->
  split_dash (l ++ s) = ((l ++ (split_dash s).1), (split_dash s).2).
Proof.
  induction 1 as [|c l Hc _ IH]; cbn; [by destruct (split_dash s)|].
  rewrite IH. destruct (N.eqb_spec c chr_dash) as [->|]; [done|].
  done.
Qed.
Lemma parse_segment_digits l :
  Forall (fun c => is_ascii_digit c = true) l -> length l = 4%nat ->
  parse_segment l = Ok l.
Proof.
  intros Hl Hlen. unfold parse_segment.
  replace (match l with c :: _ => c =? chr_dash | [] => false end) with false.
  2:{ destruct Hl as [|c l Hc _]; [done|]. by destruct (N.eqb_spec c chr_dash) as [->|]. }
  replace (forallb is_ascii_digit l) with true.
  2:{ symmetry. apply forallb_forall. intros x Hx%list_elem_of_In.
      rewrite Forall_forall in Hl. by apply Hl. }
  cbn. by rewrite Hlen.
Qed.
Lemma reordered_ascii_digits d :
  Forall (fun c => is_ascii_digit c = true) d -> length d = 8%nat ->
  Forall (fun c => is_ascii_digit c = true) (reordered_ascii d).1 /\
  Forall (fun c => is_ascii_digit c = true) (reordered_ascii d).2 /\
  length (reordered_ascii d).1 = 4%nat /\ length (reordered_ascii d).2 = 4%nat.
Proof.
  intros Hd Hlen. do 8 (destruct d as [|? d]; [done|]). destruct d; [|done].
  rewrite !Forall_cons in Hd. cbn. rewrite !Forall_cons, !Forall_nil. tauto.
Qed.

Lemma find_none_digits s :
  Forall (fun c => is_ascii_digit c || (c =? chr_dash) = true) s ->
  List.find (fun c => negb (is_ascii_digit c || (c =? chr_dash))) s = None.
Proof. induction 1 as [|c s Hc _ IH]; cbn; [done|]. by rewrite Hc. Qed.

Lemma Forall_digit_dash l :
  Forall (fun c => is_ascii_digit c = true) l ->
  Forall (fun c => is_ascii_digit c || (c =? chr_dash) = true) l.
Proof. intros H. eapply Forall_impl; [exact H|]. cbn. by intros c ->. Qed.

(** The parser on well-formed strings of two and three segments. *)
Section well_formed.
Context (f r0 r1 : list N).
Context (Hf : Forall (fun c => is_ascii_digit c = true) f) (Hf4 : length f = 4%nat).
Context (H0 : Forall (fun c => is_ascii_digit c = true) r0) (H04 : length r0 = 4%nat).
Context (H1 : Forall (fun c => is_ascii_digit c = true) r1) (H14 : length r1 = 4%nat).

Lemma starts_digit (l s : list N) :
  Forall (fun c => is_ascii_digit c = true) l -> length l = 4%nat ->
  match l ++ s with c :: _ => c =? chr_dash | [] => false end = false.
Proof.
  intros [|c l' Hc _] ?; [done|]. cbn. by destruct (N.eqb_spec c chr_dash) as [->|].
Qed.
Lemma ends_digit (s l : list N) :
  Forall (fun c => is_ascii_digit c = true) l -> length l = 4%nat ->
  match reverse (s ++ l) with c :: _ => c =? chr_dash | [] => false end = false.
Proof.
  intros Hl Hlen. rewrite reverse_app. apply starts_digit.
  - by apply Forall_reverse.
  - by rewrite length_reverse.
Qed.
Lemma split_dash_digits_nil l :
  Forall (fun c => is_ascii_digit c = true) l -> split_dash l = (l, []).
Proof.
  intros Hl. rewrite <-(app_nil_r l) at 1. rewrite split_dash_digits by done.
  cbn. by rewrite app_nil_r.
Qed.

Lemma seq_from_str_two :
  seq_from_str (r0 ++ [chr_dash] ++ r1) = Ok (last_8_digit_component r0 r1).
Proof.
  unfold seq_from_str. rewrite find_none_digits.
  2:{ rewrite !Forall_app. repeat split; try by apply Forall_digit_dash. by repeat constructor. }
  rewrite starts_digit, app_assoc, ends_digit, <-app_assoc by done.
  rewrite split_dash_digits by done. cbn [app split_dash].
  rewrite split_dash_digits_nil by done. cbn [N.eqb chr_dash Pos.eqb fst snd].
  rewrite app_nil_r. cbn [parse_segments]. rewrite parse_segment_digits by done. cbn.
  by rewrite parse_segment_digits.
Qed.

Lemma seq_from_str_three :
  seq_from_str (f ++ [chr_dash] ++ r0 ++ [chr_dash] ++ r1) =
  hi ← ok_or (u32_checked_mul (parse_digits f) 100000000) Overflow;
  Ok (u32_add hi (last_8_digit_component r0 r1)).
Proof.
  unfold seq_from_str. rewrite find_none_digits.
  2:{ rewrite !Forall_app. repeat split; try by apply Forall_digit_dash.
      all: by repeat constructor. }
  rewrite starts_digit by done.
  rewrite !app_assoc, ends_digit, <-!app_assoc by done.
  rewrite split_dash_digits by done. cbn [app split_dash].
  rewrite split_dash_digits by done. cbn [app split_dash].
  rewrite split_dash_digits_nil by done. cbn [N.eqb chr_dash Pos.eqb fst snd].
  rewrite !app_nil_r. cbn [parse_segments]. rewrite parse_segment_digits by done. cbn.
  rewrite parse_segment_digits by done. cbn. by rewrite parse_segment_digits.
Qed.
End well_formed.

(** What the parser reads back from the display form, for every number the
    display code can be given (its high component has at most four digits). *)
Lemma seq_from_str_fmt n :
  n < 10000 * 100000000 ->
  seq_from_str (seq_fmt n) =
  if 42 <? n / 100000000 then Err Overflow else Ok (n mod 2 ^ 32).
Proof.
  intros Hn. unfold seq_fmt.
  set (lo := (n mod 100000000 + DISPLAY_OFFSET) mod 100000000).
  assert (lo < 10 ^ N.of_nat 8) as Hlo by by apply N.mod_upper_bound.
  rewrite (fmt_padded_fixed 7) by (done || lia).
  destruct (reordered_ascii (fixed_digits 8 lo)) as [r0 r1] eqn:Hr.
  destruct (reordered_ascii_digits (fixed_digits 8 lo)) as (Hr0 & Hr1 & Hl0 & Hl1);
    [apply fixed_digits_ascii|apply fixed_digits_length|].
  pose proof (last_8_reordered (fixed_digits 8 lo) (fixed_digits_length _ _)) as Hlast.
  rewrite Hr in *; cbn [fst snd] in *. rewrite parse_fixed_digits in Hlast by done.
  pose proof (offset_inverse (n mod 100000000) ltac:(by apply N.mod_upper_bound)) as Hoff.
  cbn zeta in Hoff. fold lo in Hoff. rewrite Hoff in Hlast. clear Hoff. clearbody lo.
  pose proof (N.Div0.div_mod n 100000000) as Hdm.
  pose proof (N.mod_upper_bound n 100000000 ltac:(done)) as Hm.
  generalize dependent (n mod 100000000). intros m. intros.
  assert (n / 100000000 < 10000) as Hq by (generalize dependent (n / 100000000); intros; lia).
  destruct (N.ltb_spec 0 (n / 100000000)) as [Hpos|Hz].
  - rewrite (fmt_padded_fixed 3) by (done || lia).
    rewrite seq_from_str_three by
      (done || apply fixed_digits_ascii || apply fixed_digits_length).
    rewrite parse_fixed_digits by done. rewrite Hlast.
    generalize dependent (n / 100000000). intros q. intros.
    unfold u32_checked_mul, u32_MAX.
    destruct (N.ltb_spec 42 q).
    + by rewrite (proj2 (N.leb_gt _ _)) by lia.
    + rewrite (proj2 (N.leb_le _ _)) by lia. cbn [ok_or mbind result_bind].
      unfold u32_add. do 2 f_equal. lia.
  - assert (n / 100000000 = 0) as Hq0 by (generalize dependent (n / 100000000); intros; lia).
    rewrite Hq0 in *. rewrite seq_from_str_two by done. cbn [N.ltb N.compare].
    rewrite Hlast, N.mod_small by lia. f_equal. lia.
Qed.

(** ** Properties *)

(** Round trip: every sequence number is read back from its display form. *)
Theorem seq_id_display_parse (n : u32) :
  n <= u32_MAX -> seq_from_str (seq_fmt n) = Ok n.
Proof.
  intros Hn. unfold u32_MAX in Hn. rewrite seq_from_str_fmt by lia.
  rewrite (proj2 (N.ltb_ge _ _)).
  - rewrite N.mod_small by lia. done.
  - apply (N.Div0.div_le_mono n (2 ^ 32 - 1) 100000000). done.
Qed.
Lemma seq_id_display_parse_witness :
  4294967295 <= u32_MAX /\ seq_from_str (seq_fmt 4294967295) = Ok 4294967295.
Proof. split; [done|]. apply (seq_id_display_parse 4294967295). done. Defined.

(** The parser's range check covers the high component only: the display
    form of a number above [u32::MAX] with high component 42 is accepted, and
    read as that number reduced modulo 2^32 instead of [Err Overflow]. *)
Theorem seq_id_parse_wraps (n : N) :
  u32_MAX < n -> n < 4300000000 -> seq_from_str (seq_fmt n) = Ok (n - 2 ^ 32).
Proof.
  intros Hlo Hhi. unfold u32_MAX in Hlo. rewrite seq_from_str_fmt by lia.
  rewrite (proj2 (N.ltb_ge _ _)).
  - replace n with (n - 2 ^ 32 + 1 * 2 ^ 32) at 1 by lia.
    rewrite N.Div0.mod_add, N.mod_small by lia. done.
  - apply (N.Div0.div_le_mono n 4299999999 100000000). lia.
Qed.
Lemma seq_id_parse_wraps_witness :
  u32_MAX < 4294967296 /\ 4294967296 < 4300000000 /\
  seq_from_str (seq_fmt 4294967296) = Ok 0.
Proof. split; [done|split; [done|]]. by apply (seq_id_parse_wraps 4294967296). Defined.
