(* ===== verification/BitNames.v ===== *)
(** * BitName databases

    [src/lib/state/bitnames.rs]: the data of a BitName with its history, and the
    three databases of BitNames, reservations and sequence numbers, with the
    operations that connecting and disconnecting a transaction use. *)

From S2P Require Import Prelude Types Transaction Sample Rollback BitNameSeqId.

(** [state::error::BitName] *)
Inductive BitNameError : Type :=
| AlreadyIcann (bitname : BitName)
| Missing (bitname : BitName)
| MissingBitNameInput (bitname : BitName)
| MissingData (bitname : BitName) (block_height : u32)
| MissingReservation (txid : Txid)
| NoBitNamesToUpdate
| NoReservationForRegistration (bitname : BitName).

(** ** The data of one BitName *)

Notation history T := (NonEmpty (TxidStamped (option T))) (only parsing).

Record BitNameData : Type := mkBitNameData {
  bd_seq_id : u32;
  bd_commitment : history Hash;
  bd_is_icann : bool;
  bd_socket_addr_v4 : history SocketAddrV4;
  bd_socket_addr_v6 : history SocketAddrV6;
  bd_encryption_pubkey : history EncryptionPubKey;
  bd_signing_pubkey : history VerifyingKey;
  bd_paymail_fee_sats : history u64;
}.

Definition bitname_data_init (data : MutableBitNameData) (txid : Txid) (height : u32)
    (seq_id : u32) : BitNameData :=
  mkBitNameData seq_id
    (ts_new (mbd_commitment data) txid height)
    false
    (ts_new (mbd_socket_addr_v4 data) txid height)
    (ts_new (mbd_socket_addr_v6 data) txid height)
    (ts_new (mbd_encryption_pubkey data) txid height)
    (ts_new (mbd_signing_pubkey data) txid height)
    (ts_new (mbd_paymail_fee_sats data) txid height).

Definition apply_field_update {T} (data_field : history T) (update : Update T)
    (txid : Txid) (height : u32) : history T :=
  match update with
  | Delete => ts_push data_field None txid height
  | Retain => data_field
  | Set_ value => ts_push data_field (Some value) txid height
  end.

Definition bitname_data_apply_updates (d : BitNameData) (updates : BitNameDataUpdates)
    (txid : Txid) (height : u32) : BitNameData :=
  mkBitNameData (bd_seq_id d)
    (apply_field_update (bd_commitment d) (upd_commitment updates) txid height)
    (bd_is_icann d)
    (apply_field_update (bd_socket_addr_v4 d) (upd_socket_addr_v4 updates) txid height)
    (apply_field_update (bd_socket_addr_v6 d) (upd_socket_addr_v6 updates) txid height)
    (apply_field_update (bd_encryption_pubkey d) (upd_encryption_pubkey updates) txid height)
    (apply_field_update (bd_signing_pubkey d) (upd_signing_pubkey updates) txid height)
    (apply_field_update (bd_paymail_fee_sats d) (upd_paymail_fee_sats updates) txid height).

(** Each check of the code is an [assert!]: a mismatch panics. *)
Definition revert_field_update {T} `{EqDecision T} {E} (data_field : history T)
    (update : Update T) (txid : Txid) (height : u32) : result E (history T) :=
  match update with
  | Delete =>
      let '(popped, data_field) := ts_pop data_field in
      popped ← expect popped;
      _ ← assert_ (match ts_data popped with None => true | Some _ => false end);
      _ ← assert_ (ts_txid popped =? txid);
      _ ← assert_ (ts_height popped =? height);
      Ok data_field
  | Retain => Ok data_field
  | Set_ value =>
      let '(popped, data_field) := ts_pop data_field in
      popped ← expect popped;
      _ ← assert_ (bool_decide (ts_data popped = Some value));
      _ ← assert_ (ts_txid popped =? txid);
      _ ← assert_ (ts_height popped =? height);
      Ok data_field
  end.

Definition bitname_data_revert_updates {E} (d : BitNameData) (updates : BitNameDataUpdates)
    (txid : Txid) (height : u32) : result E BitNameData :=
  paymail_fee_sats ←
    revert_field_update (bd_paymail_fee_sats d) (upd_paymail_fee_sats updates) txid height;
  signing_pubkey ←
    revert_field_update (bd_signing_pubkey d) (upd_signing_pubkey updates) txid height;
  encryption_pubkey ←
    revert_field_update (bd_encryption_pubkey d) (upd_encryption_pubkey updates) txid height;
  socket_addr_v4 ←
    revert_field_update (bd_socket_addr_v4 d) (upd_socket_addr_v4 updates) txid height;
  socket_addr_v6 ←
    revert_field_update (bd_socket_addr_v6 d) (upd_socket_addr_v6 updates) txid height;
  commitment ← revert_field_update (bd_commitment d) (upd_commitment updates) txid height;
  Ok (mkBitNameData (bd_seq_id d) commitment (bd_is_icann d) socket_addr_v4 socket_addr_v6
        encryption_pubkey signing_pubkey paymail_fee_sats).

Definition bitname_data_at_block_height (d : BitNameData) (height : u32)
  : option BitNameView :=
  commitment ← ts_at_block_height (bd_commitment d) height;
  socket_addr_v4 ← ts_at_block_height (bd_socket_addr_v4 d) height;
  socket_addr_v6 ← ts_at_block_height (bd_socket_addr_v6 d) height;
  encryption_pubkey ← ts_at_block_height (bd_encryption_pubkey d) height;
  signing_pubkey ← ts_at_block_height (bd_signing_pubkey d) height;
  paymail_fee_sats ← ts_at_block_height (bd_paymail_fee_sats d) height;
  Some (mkBitNameView (bd_seq_id d)
    (mkMutableBitNameData (ts_data commitment) (ts_data socket_addr_v4)
       (ts_data socket_addr_v6) (ts_data encryption_pubkey) (ts_data signing_pubkey)
       (ts_data paymail_fee_sats))).

Definition bitname_data_current (d : BitNameData) : BitNameView :=
  mkBitNameView (bd_seq_id d)
    (mkMutableBitNameData
       (ts_data (ts_latest (bd_commitment d)))
       (ts_data (ts_latest (bd_socket_addr_v4 d)))
       (ts_data (ts_latest (bd_socket_addr_v6 d)))
       (ts_data (ts_latest (bd_encryption_pubkey d)))
       (ts_data (ts_latest (bd_signing_pubkey d)))
       (ts_data (ts_latest (bd_paymail_fee_sats d)))).

(** ** The databases *)

Record Dbs : Type := mkDbs {
  db_bitnames : gmap BitName BitNameData;
  db_reservations : gmap Txid Hash;
  (** keys are encoded big-endian, so the database order is numeric *)
  db_seq_to_bitname : gmap u32 BitName;
}.

Definition set_bitnames (m : gmap BitName BitNameData) (d : Dbs) : Dbs :=
  mkDbs m (db_reservations d) (db_seq_to_bitname d).
Definition set_reservations (m : gmap Txid Hash) (d : Dbs) : Dbs :=
  mkDbs (db_bitnames d) m (db_seq_to_bitname d).
Definition set_seq_to_bitname (m : gmap u32 BitName) (d : Dbs) : Dbs :=
  mkDbs (db_bitnames d) (db_reservations d) m.

Definition last_seq (d : Dbs) : option u32 := fst <$> db_last_N (db_seq_to_bitname d).
Definition next_seq (d : Dbs) : u32 :=
  match last_seq d with Some seq => seq_next seq | None => 0 end.

Definition try_get_bitname (d : Dbs) (bitname : BitName) : option BitNameData :=
  db_bitnames d !! bitname.
Definition get_bitname (d : Dbs) (bitname : BitName) : result BitNameError BitNameData :=
  ok_or (try_get_bitname d bitname) (Missing bitname).
Definition try_get_bitname_data_at_block_height (d : Dbs) (bitname : BitName) (height : u32)
  : option BitNameView :=
  bitname_data ← db_bitnames d !! bitname; bitname_data_at_block_height bitname_data height.
Definition get_bitname_data_at_block_height (d : Dbs) (bitname : BitName) (height : u32)
  : result BitNameError BitNameView :=
  bitname_data ← get_bitname d bitname;
  ok_or (bitname_data_at_block_height bitname_data height) (MissingData bitname height).
Definition try_get_current_bitname_data (d : Dbs) (bitname : BitName) : option BitNameView :=
  bitname_data_current <$> db_bitnames d !! bitname.
Definition get_current_bitname_data (d : Dbs) (bitname : BitName)
  : result BitNameError BitNameView :=
  ok_or (try_get_current_bitname_data d bitname) (Missing bitname).

(** Whether a reservation was deleted, as [Database::delete] reports. *)
Definition delete_reservation (d : Dbs) (txid : Txid) : bool * Dbs :=
  (bool_decide (is_Some (db_reservations d !! txid)),
   set_reservations (delete txid (db_reservations d)) d).
Definition put_reservation (d : Dbs) (txid : Txid) (commitment : Hash) : Dbs :=
  set_reservations (<[txid := commitment]> (db_reservations d)) d.

Section dbs.
Context `{Externals}.

(** The BitName an update acts on: the last spent BitName. *)
Definition updated_bitname (tx : FilledTransaction) : result BitNameError BitName :=
  p ← ok_or (last (spent_bitnames tx)) NoBitNamesToUpdate;
  expect (filled_bitname (fo_content p.2)).

Definition apply_updates (d : Dbs) (tx : FilledTransaction) (updates : BitNameDataUpdates)
    (height : u32) : result BitNameError Dbs :=
  updated_bitname ← updated_bitname tx;
  bitname_data ← ok_or (db_bitnames d !! updated_bitname) (Missing updated_bitname);
  let bitname_data :=
    bitname_data_apply_updates bitname_data updates (txid (ft_transaction tx)) height in
  Ok (set_bitnames (<[updated_bitname := bitname_data]> (db_bitnames d)) d).

Definition revert_updates (d : Dbs) (tx : FilledTransaction) (updates : BitNameDataUpdates)
    (height : u32) : result BitNameError Dbs :=
  updated_bitname ← updated_bitname tx;
  bitname_data ← ok_or (db_bitnames d !! updated_bitname) (Missing updated_bitname);
  bitname_data ←
    bitname_data_revert_updates bitname_data updates (txid (ft_transaction tx)) height;
  Ok (set_bitnames (<[updated_bitname := bitname_data]> (db_bitnames d)) d).

(** [spent_reservations().find_map(..)]: the txid of the first spent
    reservation of a commitment. *)
Definition burned_reservation_txid (tx : FilledTransaction) (implied_commitment : Hash)
  : option Txid :=
  head (omap (fun p : OutPoint * FilledOutput =>
    '(txid, commitment) ← filled_reservation_data (fo_content p.2);
    if commitment =? implied_commitment then Some txid else None)
    (spent_reservations tx)).

Definition apply_registration (d : Dbs) (tx : FilledTransaction) (bitname : BitName)
    (bitname_data : MutableBitNameData) (height : u32) : result BitNameError Dbs :=
  implied_commitment ←
    ok_or (implied_reservation_commitment (ft_transaction tx))
      (NoReservationForRegistration bitname);
  burned_txid ←
    ok_or (burned_reservation_txid tx implied_commitment)
      (NoReservationForRegistration bitname);
  let '(deleted, d) := delete_reservation d burned_txid in
  _ ← ensure deleted (MissingReservation burned_txid);
  let seq := next_seq d in
  let d := set_seq_to_bitname (<[seq := bitname]> (db_seq_to_bitname d)) d in
  let data := bitname_data_init bitname_data (txid (ft_transaction tx)) height seq in
  Ok (set_bitnames (<[bitname := data]> (db_bitnames d)) d).

Definition revert_registration (d : Dbs) (tx : FilledTransaction) (bitname : BitName)
  : result BitNameError Dbs :=
  bitname_data ← ok_or (db_bitnames d !! bitname) (Missing bitname);
  let seq_id := bd_seq_id bitname_data in
  let d := set_bitnames (delete bitname (db_bitnames d)) d in
  '(_, latest_registered_bitname) ← expect (db_last_N (db_seq_to_bitname d));
  _ ← assert_ (latest_registered_bitname =? bitname);
  _ ← ensure (bool_decide (is_Some (db_seq_to_bitname d !! seq_id))) (Missing bitname);
  let d := set_seq_to_bitname (delete seq_id (db_seq_to_bitname d)) d in
  implied_commitment ← expect (implied_reservation_commitment (ft_transaction tx));
  burned_txid ← expect (burned_reservation_txid tx implied_commitment);
  Ok (set_reservations (<[burned_txid := implied_commitment]> (db_reservations d)) d).

(** [spent_bitnames.any(..)] on the iterator shared by the loop: whether the
    name occurs in what is left of it, and what is left afterwards. *)
Fixpoint any_bitname (name_hash : BitName) (l : list BitName) : bool * list BitName :=
  match l with
  | [] => (false, [])
  | b :: l => if b =? name_hash then (true, l) else any_bitname name_hash l
  end.

Definition spent_bitname_ids (tx : FilledTransaction) : list BitName :=
  omap (fun p : OutPoint * FilledOutput => filled_bitname (fo_content p.2))
    (spent_bitnames tx).

Definition set_icann (b : bool) (d : BitNameData) : BitNameData :=
  mkBitNameData (bd_seq_id d) (bd_commitment d) b (bd_socket_addr_v4 d)
    (bd_socket_addr_v6 d) (bd_encryption_pubkey d) (bd_signing_pubkey d)
    (bd_paymail_fee_sats d).

Definition apply_icann_step (s : Dbs * list BitName) (name_hash : BitName)
  : result BitNameError (Dbs * list BitName) :=
  let '(d, spent) := s in
  let '(found_bitname, spent) := any_bitname name_hash spent in
  if found_bitname then
    bitname_data ← ok_or (db_bitnames d !! name_hash) (Missing name_hash);
    if bd_is_icann bitname_data then Err (AlreadyIcann name_hash)
    else Ok (set_bitnames (<[name_hash := set_icann true bitname_data]> (db_bitnames d)) d,
             spent)
  else Err (MissingBitNameInput name_hash).

Definition apply_batch_icann (d : Dbs) (tx : FilledTransaction)
    (data : BatchIcannRegistrationData) : result BitNameError Dbs :=
  fst <$> fold_res apply_icann_step (name_hash_of <$> bi_plain_names data)
            (d, spent_bitname_ids tx).

Definition revert_icann_step (s : Dbs * list BitName) (name_hash : BitName)
  : result BitNameError (Dbs * list BitName) :=
  let '(d, spent) := s in
  let '(found_bitname, spent) := any_bitname name_hash spent in
  if found_bitname then
    bitname_data ← ok_or (db_bitnames d !! name_hash) (Missing name_hash);
    _ ← assert_ (negb (bd_is_icann bitname_data));
    Ok (set_bitnames (<[name_hash := set_icann false bitname_data]> (db_bitnames d)) d,
        spent)
  else Err (MissingBitNameInput name_hash).

Definition revert_batch_icann (d : Dbs) (tx : FilledTransaction)
    (data : BatchIcannRegistrationData) : result BitNameError Dbs :=
  fst <$> fold_res revert_icann_step (reverse (name_hash_of <$> bi_plain_names data))
            (d, spent_bitname_ids tx).
End dbs.

(** ** Lemmas: histories of one BitName *)

Lemma revert_apply_field {T} `{EqDecision T} {E} (f : history T) u t h :
  revert_field_update (E := E) (apply_field_update f u t h) u t h = Ok f.
Proof.
  unfold revert_field_update, apply_field_update. destruct u as [| |v]; [|done|];
    rewrite ts_pop_push; cbn; rewrite ?bool_decide_true by done;
    by rewrite !N.eqb_refl.
Qed.

Lemma bitname_data_revert_apply {E} d u t h :
  bitname_data_revert_updates (E := E) (bitname_data_apply_updates d u t h) u t h = Ok d.
Proof.
  unfold bitname_data_revert_updates, bitname_data_apply_updates; cbn.
  repeat (rewrite revert_apply_field; cbn). by destruct d.
Qed.

Lemma apply_field_at_block_height {T} (f : history T) u t h h' :
  h' < h -> ts_at_block_height (apply_field_update f u t h) h' = ts_at_block_height f h'.
Proof. intros. destruct u; cbn; [|done|]; by apply ts_at_block_height_push_above. Qed.

(** No field was written above the height. *)
Definition written_by {T} (f : NonEmpty (TxidStamped T)) (h : u32) : Prop :=
  ts_height (ts_latest f) <= h.
Definition data_written_by (d : BitNameData) (h : u32) : Prop :=
  written_by (bd_commitment d) h /\ written_by (bd_socket_addr_v4 d) h /\
  written_by (bd_socket_addr_v6 d) h /\ written_by (bd_encryption_pubkey d) h /\
  written_by (bd_signing_pubkey d) h /\ written_by (bd_paymail_fee_sats d) h.

Lemma current_at_block_height d h :
  data_written_by d h -> bitname_data_at_block_height d h = Some (bitname_data_current d).
Proof.
  intros (?&?&?&?&?&?). unfold bitname_data_at_block_height, bitname_data_current.
  by repeat (rewrite ts_at_block_height_latest by done; cbn).
Qed.

Lemma apply_field_written_by {T} (f : history T) u t h :
  written_by f h -> written_by (apply_field_update f u t h) h.
Proof.
  intros. destruct u; [|done|]; unfold written_by, ts_latest, apply_field_update, ts_push;
    rewrite ne_last_push; cbn; lia.
Qed.
Lemma apply_updates_written_by d u t h :
  data_written_by d h -> data_written_by (bitname_data_apply_updates d u t h) h.
Proof.
  intros (?&?&?&?&?&?). unfold data_written_by; cbn.
  by repeat split; apply apply_field_written_by.
Qed.

(** What an update means for the current value of a field. *)
Definition update_value {T} (u : Update T) (old : option T) : option T :=
  match u with Delete => None | Retain => old | Set_ v => Some v end.
Definition view_update (m : MutableBitNameData) (u : BitNameDataUpdates) : MutableBitNameData :=
  mkMutableBitNameData
    (update_value (upd_commitment u) (mbd_commitment m))
    (update_value (upd_socket_addr_v4 u) (mbd_socket_addr_v4 m))
    (update_value (upd_socket_addr_v6 u) (mbd_socket_addr_v6 m))
    (update_value (upd_encryption_pubkey u) (mbd_encryption_pubkey m))
    (update_value (upd_signing_pubkey u) (mbd_signing_pubkey m))
    (update_value (upd_paymail_fee_sats u) (mbd_paymail_fee_sats m)).

Lemma apply_field_latest {T} (f : history T) u t h :
  ts_data (ts_latest (apply_field_update f u t h)) = update_value u (ts_data (ts_latest f)).
Proof.
  destruct u; [|done|]; unfold ts_latest, apply_field_update, ts_push; by rewrite ne_last_push.
Qed.

(** ** Lemmas: the sequence numbers *)

(** [n] BitNames are registered, with the sequence numbers [0 .. n-1]; the
    sequence database and the sequence numbers in the BitName data agree. *)
Record dbs_wf (d : Dbs) (n : N) : Prop := {
  wf_seq_dense : forall s, is_Some (db_seq_to_bitname d !! s) <-> s < n;
  wf_seq_data : forall s b, db_seq_to_bitname d !! s = Some b <->
    exists data, db_bitnames d !! b = Some data /\ bd_seq_id data = s;
}.

Lemma dbs_wf_empty_names d : db_bitnames d = ∅ -> db_seq_to_bitname d = ∅ -> dbs_wf d 0.
Proof.
  intros Hb Hs. split; rewrite ?Hb, ?Hs.
  - intros s. rewrite lookup_empty. split; [by intros [? ?]|lia].
  - intros s b. rewrite !lookup_empty. split; [done|]. by intros (? & ? & _).
Qed.

Lemma dbs_wf_singleton b data r :
  bd_seq_id data = 0 -> dbs_wf (mkDbs {[ b := data ]} r {[ 0 := b ]}) 1.
Proof.
  intros Hseq. split; cbn.
  - intros k. rewrite lookup_singleton_is_Some. split; [by intros <-; lia|lia].
  - intros k b'. rewrite lookup_singleton_Some. split.
    + intros [<- <-]. exists data. by rewrite lookup_singleton_Some.
    + intros (data' & [<- <-]%lookup_singleton_Some & <-). done.
Qed.

Lemma last_seq_wf d n : dbs_wf d n -> 0 < n -> exists b,
  db_last_N (db_seq_to_bitname d) = Some (n - 1, b) /\ db_seq_to_bitname d !! (n - 1) = Some b.
Proof.
  intros Hwf Hn. destruct (proj2 (wf_seq_dense _ _ Hwf (n - 1))) as [b Hb]; [lia|].
  exists b. split; [|done]. apply db_last_N_Some. split; [done|].
  intros k Hk%(wf_seq_dense _ _ Hwf). lia.
Qed.

Lemma next_seq_wf d n : dbs_wf d n -> n <= u32_MAX -> next_seq d = n.
Proof.
  intros Hwf Hn. unfold next_seq, last_seq. destruct (N.eq_dec n 0) as [->|Hpos].
  - replace (db_last_N (db_seq_to_bitname d)) with (@None (N * BitName)); [done|].
    symmetry. apply db_last_N_None, map_empty. intros s.
    destruct (db_seq_to_bitname d !! s) eqn:Hs; [|done].
    assert (s < 0) by (apply (wf_seq_dense _ _ Hwf); eauto). lia.
  - destruct (last_seq_wf d n Hwf) as (b & -> & _); [lia|]. cbn. unfold seq_next.
    unfold u32_MAX in *. rewrite u32_add_small by (unfold u32_MAX; lia). lia.
Qed.

(** Only the BitName's data changed, with its sequence number kept. *)
Lemma dbs_wf_update d n b data data' :
  dbs_wf d n -> db_bitnames d !! b = Some data -> bd_seq_id data' = bd_seq_id data ->
  dbs_wf (set_bitnames (<[b := data']> (db_bitnames d)) d) n.
Proof.
  intros Hwf Hb Hseq. split; cbn; [apply (wf_seq_dense _ _ Hwf)|].
  intros s b'. rewrite (wf_seq_data _ _ Hwf). destruct (decide (b = b')) as [<-|Hne].
  - rewrite lookup_insert_eq, Hb. split; intros (x & [= <-] & <-); eauto.
  - by rewrite lookup_insert_ne.
Qed.

Section registration_lemmas.
Context `{Externals}.
Implicit Types (d : Dbs) (tx : FilledTransaction).

(** What a successful registration does. *)
Lemma apply_registration_Ok d tx b mdata h d' :
  apply_registration d tx b mdata h = Ok d' <->
  exists ic t,
    implied_reservation_commitment (ft_transaction tx) = Some ic /\
    burned_reservation_txid tx ic = Some t /\
    is_Some (db_reservations d !! t) /\
    d' = mkDbs
      (<[b := bitname_data_init mdata (txid (ft_transaction tx)) h (next_seq d)]> (db_bitnames d))
      (delete t (db_reservations d))
      (<[next_seq d := b]> (db_seq_to_bitname d)).
Proof.
  unfold apply_registration. split.
  - intros Ha. res_inv. apply bool_decide_eq_true in Hx1. eauto 10.
  - intros (ic & t & -> & Ht & Hin & ->); cbn. rewrite Ht; cbn -[bool_decide].
    by rewrite bool_decide_true.
Qed.

Lemma apply_registration_wf d n tx b mdata h d' :
  dbs_wf d n -> n <= u32_MAX -> db_bitnames d !! b = None ->
  apply_registration d tx b mdata h = Ok d' -> dbs_wf d' (n + 1).
Proof.
  intros Hwf Hn Hb (ic & t & _ & _ & _ & ->)%apply_registration_Ok.
  rewrite (next_seq_wf d n Hwf Hn). split; cbn; intros s.
  - destruct (decide (s = n)) as [->|].
    + rewrite lookup_insert_eq. split; [lia|eauto].
    + rewrite lookup_insert_ne, (wf_seq_dense _ _ Hwf) by done. lia.
  - intros b'. destruct (decide (s = n)) as [->|Hs], (decide (b = b')) as [<-|Hne];
      rewrite ?lookup_insert_eq, ?(lookup_insert_ne _ _ _ _ Hne),
        ?lookup_insert_ne, ?(wf_seq_data _ _ Hwf) by done.
    + split; eauto.
    + split; [by intros [= ->]|]. intros Hex.
      apply (wf_seq_data _ _ Hwf), mk_is_Some, (wf_seq_dense _ _ Hwf) in Hex. lia.
    + rewrite Hb. split; [by intros (? & ? & _)|]. by intros (? & [= <-] & <-).
    + done.
Qed.

Lemma revert_apply_registration d n tx b mdata h ic t d' :
  dbs_wf d n -> n <= u32_MAX -> db_bitnames d !! b = None ->
  implied_reservation_commitment (ft_transaction tx) = Some ic ->
  burned_reservation_txid tx ic = Some t -> db_reservations d !! t = Some ic ->
  apply_registration d tx b mdata h = Ok d' -> revert_registration d' tx b = Ok d.
Proof.
  intros Hwf Hn Hb Hic Ht Hres Happly.
  pose proof (apply_registration_wf _ _ _ _ _ _ _ Hwf Hn Hb Happly) as Hwf'.
  apply apply_registration_Ok in Happly as (ic' & t' & Hic' & Ht' & _ & ->). simplify_eq.
  rewrite (next_seq_wf d n Hwf Hn) in *.
  destruct (last_seq_wf _ _ Hwf') as (b' & Hlast & Hb'); [lia|].
  rewrite N.add_sub in Hlast, Hb'. cbn in Hlast, Hb'. rewrite lookup_insert_eq in Hb'.
  simplify_eq. unfold revert_registration; cbn. rewrite lookup_insert_eq. cbn.
  rewrite Hlast; cbn. rewrite N.eqb_refl; cbn. rewrite lookup_insert_eq; cbn.
  rewrite Hic; cbn. rewrite Ht; cbn. unfold set_reservations; cbn.
  rewrite (delete_insert_id (db_bitnames d)), (insert_delete_id (db_reservations d)) by done.
  rewrite (delete_insert_id (db_seq_to_bitname d)); [by destruct d|].
  apply eq_None_not_Some. intros Hs%(wf_seq_dense _ _ Hwf). lia.
Qed.

Lemma apply_updates_Ok d tx u h d' :
  apply_updates d tx u h = Ok d' <->
  exists b data,
    updated_bitname tx = Ok b /\ db_bitnames d !! b = Some data /\
    d' = set_bitnames
      (<[b := bitname_data_apply_updates data u (txid (ft_transaction tx)) h]>
         (db_bitnames d)) d.
Proof.
  unfold apply_updates. split; [intros; res_inv; eauto 10|].
  intros (b & data & -> & Hd & ->). cbn. by rewrite Hd.
Qed.

Lemma apply_updates_wf d n tx u h d' :
  dbs_wf d n -> apply_updates d tx u h = Ok d' -> dbs_wf d' n.
Proof.
  intros Hwf (b & data & _ & Hd & ->)%apply_updates_Ok. by eapply dbs_wf_update.
Qed.

Lemma revert_apply_updates d tx u h d' :
  apply_updates d tx u h = Ok d' -> revert_updates d' tx u h = Ok d.
Proof.
  intros (b & data & Hb & Hd & ->)%apply_updates_Ok.
  unfold revert_updates. rewrite Hb; cbn. rewrite lookup_insert_eq; cbn.
  rewrite bitname_data_revert_apply; cbn. unfold set_bitnames; cbn.
  rewrite insert_insert_eq, insert_id by done. by destruct d.
Qed.
End registration_lemmas.

Section icann_lemmas.
Context `{Externals}.
Implicit Types (d : Dbs) (tx : FilledTransaction) (spent : list BitName).

Lemma any_bitname_true b l l' : any_bitname b l = (true, l') -> b ∈ l /\ l' `suffix_of` l.
Proof.
  induction l as [|x l IH]; cbn; [done|]. destruct (N.eqb_spec x b) as [->|].
  - intros [= <-]. split; [apply list_elem_of_here|]. by exists [b].
  - intros [? ?]%IH. split; [by apply list_elem_of_further|]. by apply suffix_cons_r.
Qed.
Lemma any_bitname_elem b l : b ∈ l -> exists l', any_bitname b l = (true, l').
Proof.
  induction l as [|x l IH]; [by intros ?%not_elem_of_nil|]. cbn.
  intros Hin. destruct (N.eqb_spec x b) as [->|Hne]; [by eauto|].
  apply IH. apply elem_of_cons in Hin as [->|?]; done.
Qed.

Lemma apply_icann_step_Ok d spent b d' spent' :
  apply_icann_step (d, spent) b = Ok (d', spent') -> exists data,
    b ∈ spent /\ spent' `suffix_of` spent /\
    db_bitnames d !! b = Some data /\ bd_is_icann data = false /\
    d' = set_bitnames (<[b := set_icann true data]> (db_bitnames d)) d.
Proof.
  cbn. destruct (any_bitname b spent) as [[] l] eqn:Ha; [|done]. intros Hs. res_inv.
  apply any_bitname_true in Ha as [? ?].
  destruct (bd_is_icann x) eqn:Hic; res_inv. eauto 10.
Qed.

Lemma apply_icann_wf d n tx data d' :
  dbs_wf d n -> apply_batch_icann d tx data = Ok d' -> dbs_wf d' n.
Proof.
  unfold apply_batch_icann. intros Hwf Ha. res_inv. destruct x as [d' l]; cbn.
  change (dbs_wf (d', l).1 n).
  revert Ha. apply (fold_res_inv apply_icann_step (fun s => dbs_wf s.1 n)); [|exact Hwf].
  intros [d0 l0] b [d1 l1] _ Hwf0 (x & _ & _ & Hx & _ & ->)%apply_icann_step_Ok.
  by eapply dbs_wf_update.
Qed.

(** The databases a batch of ICANN registrations leaves unchanged. *)
Lemma apply_icann_reservations d tx data d' :
  apply_batch_icann d tx data = Ok d' ->
  db_reservations d' = db_reservations d /\ db_seq_to_bitname d' = db_seq_to_bitname d /\
  dom (db_bitnames d') = dom (db_bitnames d).
Proof.
  unfold apply_batch_icann. intros Ha. res_inv. destruct x as [d' l]; cbn.
  change (let s := (d', l) in
    db_reservations s.1 = db_reservations d /\ db_seq_to_bitname s.1 = db_seq_to_bitname d /\
    dom (db_bitnames s.1) = dom (db_bitnames d)).
  revert Ha. apply (fold_res_inv apply_icann_step (fun s => db_reservations s.1 = db_reservations d /\
    db_seq_to_bitname s.1 = db_seq_to_bitname d /\ dom (db_bitnames s.1) = dom (db_bitnames d)));
    [|done].
  intros [d0 l0] b [d1 l1] _ (? & ? & Hdom) (x & _ & _ & Hx & _ & ->)%apply_icann_step_Ok.
  cbn in *. rewrite dom_insert_lookup_L by done. done.
Qed.

(** The last name of the batch is still in the spent list of the transaction
    and is an ICANN name afterwards. *)
Lemma apply_icann_last l b d spent d' spent' :
  fold_res apply_icann_step (l ++ [b]) (d, spent) = Ok (d', spent') ->
  b ∈ spent /\ exists data, db_bitnames d' !! b = Some data /\ bd_is_icann data = true.
Proof.
  rewrite fold_res_snoc. intros Hf. res_inv. destruct x as [d0 l0].
  apply apply_icann_step_Ok in Hf as (data & Hin & _ & _ & _ & ->). split.
  - assert (l0 `suffix_of` spent) as [k ->].
    { change l0 with (d0, l0).2.
      revert Hx. apply (fold_res_inv apply_icann_step (fun s => suffix s.2 spent)); [|done].
      intros [d1 l1] c [d2 l2] _ Hs (x & _ & Hs' & _)%apply_icann_step_Ok. by etrans. }
    apply elem_of_app. by right.
  - cbn. rewrite lookup_insert_eq. eauto.
Qed.
End icann_lemmas.

(** ** Properties *)

(** C33 An update changes the current data of the BitName field by field as
    declared, keeps its sequence number, leaves the answers to queries at every
    earlier height and the data of every other BitName as they were, and is
    undone exactly by its revert. *)
Theorem apply_updates_correct `{Externals} (d d' : Dbs) (tx : FilledTransaction)
    (u : BitNameDataUpdates) (h : u32) :
  apply_updates d tx u h = Ok d' ->
  exists b view,
    updated_bitname tx = Ok b /\ try_get_current_bitname_data d b = Some view /\
    try_get_current_bitname_data d' b =
      Some (mkBitNameView (bv_seq_id view) (view_update (bv_mutable_data view) u)) /\
    (forall h', h' < h -> try_get_bitname_data_at_block_height d' b h' =
      try_get_bitname_data_at_block_height d b h') /\
    (forall b', b' <> b -> try_get_bitname d' b' = try_get_bitname d b') /\
    revert_updates d' tx u h = Ok d.
Proof.
  intros Ha. pose proof Ha as (b & data & Hb & Hd & ->)%apply_updates_Ok.
  exists b, (bitname_data_current data). split_and!.
  - done.
  - unfold try_get_current_bitname_data. by rewrite Hd.
  - unfold try_get_current_bitname_data; cbn. rewrite lookup_insert_eq. cbn.
    unfold bitname_data_current, view_update; cbn. by rewrite !apply_field_latest.
  - intros h' Hh. unfold try_get_bitname_data_at_block_height; cbn.
    rewrite lookup_insert_eq, Hd. cbn. unfold bitname_data_at_block_height; cbn.
    by rewrite !apply_field_at_block_height.
  - intros b' Hne. unfold try_get_bitname; cbn. by rewrite lookup_insert_ne.
  - by apply revert_apply_updates.
Qed.

(** C34 A registration of a BitName that is not registered, which burns a stored reservation with its
    commitment, on well-formed databases with a sequence number left: it gives the BitName the next sequence
    number and the declared data, visible from its height on and not below; it keeps the sequence numbers dense;
    the reservation is gone; and its revert restores the databases exactly. Names that are registered already
    are left out; [apply_block_registers_twice] shows that one block can register a name twice. *)
Theorem apply_registration_correct `{Externals} (d d' : Dbs) (n : N) (tx : FilledTransaction)
    (b : BitName) (mdata : MutableBitNameData) (h : u32) (ic t : N) :
  dbs_wf d n -> n <= u32_MAX -> db_bitnames d !! b = None ->
  implied_reservation_commitment (ft_transaction tx) = Some ic ->
  burned_reservation_txid tx ic = Some t -> db_reservations d !! t = Some ic ->
  apply_registration d tx b mdata h = Ok d' ->
  dbs_wf d' (n + 1) /\ db_seq_to_bitname d' !! n = Some b /\
  try_get_bitname_data_at_block_height d' b h = Some (mkBitNameView n mdata) /\
  (forall h', h' < h -> try_get_bitname_data_at_block_height d' b h' = None) /\
  db_reservations d' !! t = None /\ revert_registration d' tx b = Ok d.
Proof.
  intros Hwf Hn Hb Hic Ht Hres Ha.
  split; [by eapply apply_registration_wf|]. split_and!; cycle 4.
  { by eapply revert_apply_registration. }
  all: apply apply_registration_Ok in Ha as (ic' & t' & Hic' & Ht' & _ & ->); simplify_eq; cbn;
    rewrite ?(next_seq_wf d n Hwf Hn).
  - by rewrite lookup_insert_eq.
  - unfold try_get_bitname_data_at_block_height; cbn. rewrite lookup_insert_eq. cbn.
    rewrite current_at_block_height; [by destruct mdata|].
    unfold data_written_by, written_by; cbn. lia.
  - intros h' Hh. unfold try_get_bitname_data_at_block_height; cbn. rewrite lookup_insert_eq. cbn.
    unfold bitname_data_at_block_height; cbn. by rewrite (ts_at_block_height_new_below (mbd_commitment mdata)).
  - by rewrite lookup_delete_eq.
Qed.

(** [revert_batch_icann] panics on every batch that [apply_batch_icann] applied
    and that declares a name: it asserts that the name is not an ICANN name
    before it resets the flag that applying has set. *)
Theorem revert_batch_icann_panics `{Externals} (d d' : Dbs) (tx : FilledTransaction)
    (data : BatchIcannRegistrationData) :
  bi_plain_names data <> [] -> apply_batch_icann d tx data = Ok d' ->
  revert_batch_icann d' tx data = Panic.
Proof.
  intros Hne Ha. unfold apply_batch_icann in Ha. apply fmap_Ok in Ha as ([d0 l] & Ha & ->).
  unfold revert_batch_icann.
  destruct (bi_plain_names data) as [|n names _] using rev_ind; [done|]. clear Hne.
  rewrite fmap_app in Ha |- *. cbn [fmap list_fmap] in Ha |- *.
  apply apply_icann_last in Ha as (Hin & x & Hx & Hicann). cbn [fst].
  rewrite reverse_snoc. cbn [fold_res]. 
  assert (revert_icann_step (d0, spent_bitname_ids tx) (name_hash_of n) = Panic) as ->; [|done].
  apply any_bitname_elem in Hin as [l' Hl']. unfold revert_icann_step. rewrite Hl', Hx. cbn.
  by rewrite Hicann.
Qed.

Module BitNameSamples.
#[local] Existing Instance Sample.externals.
Definition mdata : MutableBitNameData := mkMutableBitNameData (Some 1) None None None None (Some 2).
Definition commitment : Hash := blake3_keyed_hash 3 6.
Definition name : BitName := name_hash_of "a".
Definition dbs : Dbs :=
  mkDbs {[ name := bitname_data_init mdata 90 4 0 ]} {[ 91 := commitment ]} {[ 0 := name ]}.
Definition updates : BitNameDataUpdates :=
  mkBitNameDataUpdates Delete (Set_ 9) Retain Retain Retain Retain.
Definition spends_name : FilledTransaction :=
  mkFilledTransaction (mkTransaction [OutPoint_Regular 1 0] [mkOutput 7 Content_BitName []] [] None)
    [mkFilledOutput 7 (Filled_BitName name) []].
Definition registers : FilledTransaction :=
  mkFilledTransaction
    (mkTransaction [OutPoint_Regular 2 0] [mkOutput 7 Content_BitName []] []
       (Some (TxData_BitNameRegistration 6 3 mdata)))
    [mkFilledOutput 7 (Filled_BitNameReservation 91 commitment) []].
Lemma dbs_ok : dbs_wf dbs 1.
Proof. by apply dbs_wf_singleton. Qed.
End BitNameSamples.

Lemma apply_updates_correct_witness :
  exists d', @apply_updates Sample.externals BitNameSamples.dbs BitNameSamples.spends_name
      BitNameSamples.updates 8 = Ok d' /\
    @revert_updates Sample.externals d' BitNameSamples.spends_name BitNameSamples.updates 8 =
      Ok BitNameSamples.dbs.
Proof.
  destruct (is_ok_Ok (@apply_updates Sample.externals BitNameSamples.dbs
    BitNameSamples.spends_name BitNameSamples.updates 8)) as [d' Hd']; [vm_compute; reflexivity|].
  exists d'. split; [exact Hd'|].
  destruct (@apply_updates_correct Sample.externals _ _ _ _ _ Hd')
    as (b & v & _ & _ & _ & _ & _ & Hr). exact Hr.
Defined.

Lemma apply_registration_correct_witness :
  exists d', @apply_registration Sample.externals BitNameSamples.dbs BitNameSamples.registers 6
      BitNameSamples.mdata 8 = Ok d' /\ dbs_wf d' 2.
Proof.
  destruct (is_ok_Ok (@apply_registration Sample.externals BitNameSamples.dbs
    BitNameSamples.registers 6 BitNameSamples.mdata 8)) as [d' Hd']; [vm_compute; reflexivity|].
  exists d'. split; [exact Hd'|].
  refine (proj1 (@apply_registration_correct Sample.externals BitNameSamples.dbs d' 1
    BitNameSamples.registers 6 BitNameSamples.mdata 8 BitNameSamples.commitment 91
    BitNameSamples.dbs_ok _ _ _ _ _ Hd')); vm_compute; first [reflexivity|discriminate].
Defined.

Lemma revert_batch_icann_panics_witness :
  exists d', @apply_batch_icann Sample.externals BitNameSamples.dbs BitNameSamples.spends_name
      (mkBatchIcann ["a"%string] 0) = Ok d' /\
    @revert_batch_icann Sample.externals d' BitNameSamples.spends_name
      (mkBatchIcann ["a"%string] 0) = Panic.
Proof.
  destruct (is_ok_Ok (@apply_batch_icann Sample.externals BitNameSamples.dbs
    BitNameSamples.spends_name (mkBatchIcann ["a"%string] 0))) as [d' Hd'];
    [vm_compute; reflexivity|].
  exists d'. split; [exact Hd'|].
  apply (@revert_batch_icann_panics Sample.externals BitNameSamples.dbs); [discriminate|exact Hd'].
Defined.
