(* ===== verification/Authorization.v ===== *)
(** * Authorizations

    [src/types/authorization.rs]: the address of a key, signatures with a
    domain tag, the authorization of a transaction, and the batched checks of
    the authorizations of a transaction and of a block body. *)

From S2P Require Import Prelude Types Transaction Sample.

(** [authorization::Error], less the errors of serialization *)
Inductive AuthError : Type :=
| NotEnoughAuthorizations
| TooManyAuthorizations
| WrongKeyForAddress (address hash_verifying_key : Address)
| SignatureError.

Section authorization.
Context `{Externals}.

Definition auth_get_address (a : Authorization) : Address :=
  address_of_key (auth_verifying_key a).

Definition tx_msg_canonical (tx : Transaction) : bytes :=
  dst_byte Dst_Transaction :: borsh_transaction tx.

(** [match a.cmp(&b)] on the two lengths *)
Definition check_count (n_authorizations verifications_required : nat) : result AuthError unit :=
  match Nat.compare n_authorizations verifications_required with
  | Datatypes.Lt => Err NotEnoughAuthorizations
  | Datatypes.Eq => Ok tt
  | Datatypes.Gt => Err TooManyAuthorizations
  end.

(** One batch: queue every pair, then verify. *)
Definition verify_batch (pairs : list (Authorization * bytes)) : result AuthError unit :=
  ensure (frost_batch_verify
            ((fun p => (auth_verifying_key p.1, auth_signature p.1, p.2)) <$> pairs))
    SignatureError.

Definition verify_authorized_transaction (transaction : AuthorizedTransaction)
  : result AuthError unit :=
  _ ← check_count (length (at_authorizations transaction))
        (length (tx_inputs (at_transaction transaction)));
  match at_authorizations transaction with
  | [] => Ok tt
  | authorizations =>
      verify_batch
        ((fun auth => (auth, tx_msg_canonical (at_transaction transaction))) <$> authorizations)
  end.

(** [par_chunks(n)]: consecutive chunks of [n], the last one possibly shorter. *)
Fixpoint chunks_aux {A} (fuel n : nat) (l : list A) : list (list A) :=
  match fuel, l with
  | _, [] => []
  | O, _ => []
  | S fuel, l => take n l :: chunks_aux fuel n (drop n l)
  end.
Definition chunks {A} (n : nat) (l : list A) : list (list A) := chunks_aux (length l) n l.

Definition CHUNK_SIZE : nat := Nat.shiftl 1 14.

Definition body_messages (body : Body) : list bytes :=
  concat ((fun tx => replicate (length (tx_inputs tx)) (tx_msg_canonical tx)) <$>
            bd_transactions body).

Definition verify_authorizations (body : Body) : result AuthError unit :=
  let verifications_required :=
    sum_list ((fun tx => length (tx_inputs tx)) <$> bd_transactions body) in
  _ ← check_count (length (bd_authorizations body)) verifications_required;
  let pairs := zip (bd_authorizations body) (body_messages body) in
  _ ← assert_ (Nat.eqb (length pairs) (length (bd_authorizations body)));
  fold_res (fun _ chunk => verify_batch chunk) (chunks CHUNK_SIZE pairs) tt.

(** Signing and verifying a message behind its domain tag *)
Definition sign (rng : N) (signing_key : SigningKey) (dst : Dst) (msg : bytes) : Signature :=
  frost_sign rng signing_key (dst_byte dst :: msg).
Definition verify (signature : Signature) (verifying_key : VerifyingKey) (dst : Dst)
    (msg : bytes) : bool :=
  frost_verify verifying_key (dst_byte dst :: msg) signature.
Definition sign_tx (rng : N) (signing_key : SigningKey) (transaction : Transaction) : Signature :=
  sign rng signing_key Dst_Transaction (borsh_transaction transaction).

(** [authorize]: [rngs] are the states the generator goes through, one per
    signature. *)
Definition authorize (rngs : nat -> N) (addresses_signing_keys : list (Address * SigningKey))
    (transaction : Transaction) : result AuthError AuthorizedTransaction :=
  authorizations ← map_res (fun '(i, (address, signing_key)) =>
    let verifying_key := verifying_key_of signing_key in
    let hash_verifying_key := address_of_key verifying_key in
    if address =? hash_verifying_key then
      Ok (mkAuthorization verifying_key
            (sign (rngs i) signing_key Dst_Transaction (borsh_transaction transaction)))
    else Err (WrongKeyForAddress address hash_verifying_key))
    (imap pair addresses_signing_keys);
  Ok (mkAuthorizedTransaction transaction authorizations).
End authorization.

(** ** Lemmas *)

Section chunks_lemmas.
Context {A : Type}.

Lemma chunks_aux_concat fuel n (l : list A) :
  (0 < n)%nat -> (length l <= fuel)%nat -> concat (chunks_aux fuel n l) = l.
Proof.
  intros Hn. revert l. induction fuel as [|fuel IH]; intros l Hl.
  - by destruct l; cbn in Hl; [|lia].
  - destruct l as [|x l]; [done|]. cbn [chunks_aux concat].
    rewrite IH, take_drop; [done|]. rewrite length_drop. cbn in *. lia.
Qed.
Lemma chunks_concat n (l : list A) : (0 < n)%nat -> concat (chunks n l) = l.
Proof. intros. by apply chunks_aux_concat. Qed.
Lemma chunks_aux_nonempty fuel n (l : list A) :
  (0 < n)%nat -> Forall (fun c => c <> []) (chunks_aux fuel n l).
Proof.
  intros Hn. revert l. induction fuel as [|fuel IH]; intros [|x l]; cbn; try by constructor.
  destruct n as [|n]; [lia|]. by constructor.
Qed.
End chunks_lemmas.

Section authorization_lemmas.
Context `{Externals}.

Lemma check_count_Ok n m u : check_count n m = Ok u <-> n = m.
Proof.
  unfold check_count. destruct (Nat.compare_spec n m), u; split; intros; try done; lia.
Qed.

(** A pair is good when the signature covers the message. *)
Definition pair_valid (p : Authorization * bytes) : Prop :=
  frost_verify (auth_verifying_key p.1) p.2 (auth_signature p.1) = true.

Lemma verify_batch_Ok pairs u : batch_verify_spec ->
  verify_batch pairs = Ok u <-> pairs <> [] /\ Forall pair_valid pairs.
Proof.
  intros Hspec. unfold verify_batch. rewrite ensure_Ok, (Hspec _), Forall_fmap.
  split; intros [? Hf]; (split; [by destruct pairs|exact Hf]).
Qed.

Lemma fold_verify_Ok (l : list (list (Authorization * bytes))) :
  batch_verify_spec -> Forall (fun c => c <> []) l ->
  fold_res (fun _ chunk => verify_batch chunk) l tt = Ok tt <-> Forall pair_valid (concat l).
Proof.
  intros Hspec. induction 1 as [|c l Hc _ IH]; cbn; [by split|].
  rewrite Forall_app, <-IH. split.
  - intros Hf. res_inv. destruct x. by apply verify_batch_Ok in Hx as [_ ?].
  - intros [Hv Hl]. assert (verify_batch c = Ok tt) as -> by (by apply verify_batch_Ok). done.
Qed.

Lemma body_messages_length body :
  length (body_messages body) =
  sum_list ((fun tx => length (tx_inputs tx)) <$> bd_transactions body).
Proof.
  unfold body_messages. induction (bd_transactions body) as [|tx l IH]; cbn; [done|].
  by rewrite length_app, length_replicate, IH.
Qed.

(** The chunked check of a body, as one statement: as many authorizations as
    inputs, each signing the transaction of its input. *)
Lemma verify_authorizations_Ok body : batch_verify_spec ->
  verify_authorizations body = Ok tt <->
  Forall2 (fun auth msg => pair_valid (auth, msg)) (bd_authorizations body) (body_messages body).
Proof.
  intros Hspec. unfold verify_authorizations. rewrite <-body_messages_length.
  set (pairs := zip _ _). assert (fold_res (fun _ chunk => verify_batch chunk)
    (chunks CHUNK_SIZE pairs) tt = Ok tt <-> Forall pair_valid pairs) as Hfold.
  { rewrite fold_verify_Ok; [|done|apply chunks_aux_nonempty; unfold CHUNK_SIZE; cbn; lia].
    rewrite chunks_concat; [done|unfold CHUNK_SIZE; cbn; lia]. }
  assert (length (bd_authorizations body) = length (body_messages body) ->
    length pairs = length (bd_authorizations body)) as Hlen.
  { intros Hl. unfold pairs. rewrite length_zip. lia. }
  split.
  - intros Hv. res_inv. apply check_count_Ok in Hx as Hl. apply Hfold in Hv.
    apply Forall2_same_length_lookup_2; [done|]. intros i a m Ha Hm.
    rewrite Forall_lookup in Hv. apply (Hv i (a, m)). apply lookup_zip_with_Some. eauto.
  - intros Hf2. apply Forall2_length in Hf2 as Hl.
    rewrite (proj2 (check_count_Ok _ _ tt) Hl). cbn -[chunks]. rewrite Hlen by done.
    rewrite Nat.eqb_refl. cbn -[chunks]. apply Hfold, Forall_lookup. intros i [a m].
    unfold pairs. rewrite lookup_zip_with_Some. intros (? & ? & [= <- <-] & Ha & Hm).
    eapply Forall2_lookup_lr in Hf2; done.
Qed.
End authorization_lemmas.

(** ** Properties *)

(** A transaction that [authorize] signed with the keys of its inputs passes
    [verify_authorized_transaction]; so do several such transactions in one
    body, whatever the number of inputs and however the signatures fall into
    chunks. *)
Theorem authorize_then_verify `{Externals} (rngs : nat -> nat -> N)
    (txs : list (list (Address * SigningKey) * Transaction))
    (atxs : list AuthorizedTransaction) (coinbase : Coinbase) :
  batch_verify_spec -> sign_spec ->
  Forall (fun p => length p.1 = length (tx_inputs p.2)) txs ->
  map_res (fun '(i, (keys, tx)) => authorize (rngs i) keys tx) (imap pair txs) = Ok atxs ->
  Forall (fun atx => verify_authorized_transaction atx = Ok tt) atxs /\
  verify_authorizations (mkBody coinbase (at_transaction <$> atxs)
                           (concat (at_authorizations <$> atxs))) = Ok tt.
Proof.
  intros Hbatch Hsign Hlen Hauth.
  assert (Forall (fun atx => Forall2 (fun auth msg => pair_valid (auth, msg))
    (at_authorizations atx)
    (replicate (length (tx_inputs (at_transaction atx)))
       (tx_msg_canonical (at_transaction atx)))) atxs) as Hgood.
  { apply map_res_Forall2 in Hauth. apply Forall_lookup. intros i atx Hi.
    eapply Forall2_lookup_r in Hauth as ([j [keys tx]] & Hj & Ha); [|exact Hi].
    apply list_lookup_imap_Some in Hj as ([? ?] & Hj & [= -> <- <-]).
    eapply Forall_lookup_1 in Hlen; [|exact Hj]. cbn in Hlen.
    unfold authorize in Ha. res_inv. rewrite <-Hlen.
    apply map_res_Forall2 in Hx. replace (length keys) with (length x).
    2:{ apply Forall2_length in Hx. by rewrite length_imap in Hx. }
    apply Forall2_replicate_r; [done|]. apply Forall_lookup. intros k a Hk.
    eapply Forall2_lookup_r in Hx as ([? [ad sk]] & _ & Ha); [|exact Hk].
    cbn in Ha. destruct (ad =? _); res_inv. unfold pair_valid; cbn. apply Hsign. }
  split.
  - eapply Forall_impl; [exact Hgood|]. intros atx Hf2. cbn in Hf2.
    apply Forall2_length in Hf2 as Hl. rewrite length_replicate in Hl.
    unfold verify_authorized_transaction. rewrite (proj2 (check_count_Ok _ _ tt) Hl). cbn.
    destruct (at_authorizations atx) as [|a l] eqn:Hal; [done|].
    change (verify_batch ((fun auth => (auth, tx_msg_canonical (at_transaction atx))) <$>
      (a :: l)) = Ok tt). apply verify_batch_Ok; [done|]. split; [done|].
    apply Forall_fmap, Forall_lookup. intros k b Hk.
    eapply Forall2_lookup_l in Hf2 as (m & Hm & ?); [|exact Hk].
    by apply lookup_replicate in Hm as [-> _].
  - apply verify_authorizations_Ok; [done|]. unfold body_messages; cbn.
    clear Hauth. induction Hgood as [|atx l Ha _ IH]; cbn; [constructor|].
    by apply Forall2_app.
Qed.

#[local] Existing Instance Sample.externals.
Definition sample_tx (n : N) : Transaction :=
  mkTransaction [OutPoint_Regular n 0; OutPoint_Deposit n 1] [] [] None.
Lemma authorize_then_verify_witness :
  exists atxs,
    map_res (fun '(i, (keys, tx)) => authorize (fun _ => i) keys tx)
      (imap (fun i p => (N.of_nat i, p))
        [([(7, 7); (8, 8)], sample_tx 1); ([(8, 8); (8, 8)], sample_tx 2)]) = Ok atxs /\
    verify_authorizations (mkBody (mkCoinbase [] []) (at_transaction <$> atxs)
                             (concat (at_authorizations <$> atxs))) = Ok tt.
Proof.
  eexists. split; [vm_compute; reflexivity|].
  eapply (authorize_then_verify (fun i _ => N.of_nat i)
    [([(7, 7); (8, 8)], sample_tx 1); ([(8, 8); (8, 8)], sample_tx 2)]).
  - exact Sample.batch_verify.
  - exact Sample.sign_verifies.
  - by repeat constructor.
  - vm_compute. reflexivity.
Defined.
