(* ===== verification/State.v ===== *)
(** * Sidechain state

    [src/lib/state/mod.rs] and [src/lib/state/error.rs]: the databases of the
    state at the sidechain tip, its queries, and the validation of a
    transaction. A database is a map; a [UnitKey] database holds one optional
    value. Keys of the UTXO databases are outpoints: [OutPointKey] is a
    fixed-width injective encoding of an outpoint.

    A write transaction that returns an error or panics is dropped without
    being committed, so an operation returns a state only when it succeeds. *)

From S2P Require Import Prelude Types Transaction Sample Rollback BitNames Authorization.

(** ** Errors ([state/error.rs]), less the errors of the database *)

Inductive ConnectWithdrawalBundleSubmittedError : Type :=
| ConfirmedResubmitted (event_block_hash : MainBlockHash) (m6id : M6id)
| DroppedPending (m6id : M6id)
| Submitted_NoUtxo (outpoint : OutPoint)
| Submitted_PendingWithdrawalBundleUnknown (m6id : M6id)
| Resubmitted (event_block_hash : MainBlockHash) (m6id : M6id) (submitted_block_height : u32)
| UnknownConfirmedFailed (m6id : M6id) (failed_block_height : u32)
| UnknownDropped (m6id : M6id) (dropped_block_height : u32)
| UnknownPending (m6id : M6id) (pending_block_height : u32).

Inductive InvalidHeaderError : Type :=
| InvalidHeader_BlockHash (expected computed : BlockHash)
| InvalidHeader_PrevSideHash (expected received : option BlockHash).

(** [types::ComputeMerkleRootError], [types::WithdrawalBundleError] *)
Inductive ComputeMerkleRootError : Type :=
| ComputeMerkleRoot_FeeComputation (txid : Txid) (source : GetFeeError).
Inductive WithdrawalBundleError : Type :=
| WithdrawalBundle_BundleTooHeavy (weight max_weight : N).

Inductive Error : Type :=
| Error_AmountOverflow
| Error_AuthorizationError
| Error_BadCoinbaseOutputContent
| Error_BitName (e : BitNameError)
| Error_BitNameAlreadyRegistered (name_hash : BitName)
| Error_BodyTooLarge
| Error_BundleTooHeavy (weight max_weight : u64)
| Error_ComputeFee (e : ComputeFeeError)
| Error_ComputeMerkleRoot (e : ComputeMerkleRootError)
| Error_ConnectWithdrawalBundleSubmitted (e : ConnectWithdrawalBundleSubmittedError)
| Error_FillTxOutputContentsFailed
| Error_IcannNameInvalid (plain_name : string)
| Error_InvalidBatchIcannRegistrationSignature
| Error_InvalidBody (expected computed : MerkleRoot)
| Error_InvalidHeader (e : InvalidHeaderError)
| Error_NoDepositBlock
| Error_NotEnoughFees
| Error_NoStxo (outpoint : OutPoint)
| Error_NoTip
| Error_NoUtxo (outpoint : OutPoint)
| Error_SpendWithdrawalOutput (outpoint : OutPoint)
| Error_NoWithdrawalBundleEventBlock
| Error_PendingWithdrawalBundleUnknown (m6id : M6id)
| Error_TooFewBitNameOutputs
| Error_UnbalancedBitNames (n_bitname_inputs n_bitname_outputs : nat)
| Error_UnbalancedReservations (n_reservation_inputs n_reservation_outputs : nat)
| Error_UnexpectedWithdrawalBundleInsolvency (event_block_hash : MainBlockHash) (m6id : M6id)
    (outpoint : OutPoint)
| Error_UnknownWithdrawalBundle (m6id : M6id)
| Error_UnknownWithdrawalBundleConfirmed (event_block_hash : MainBlockHash) (m6id : M6id)
| Error_UnknownWithdrawalBundleReconfirmed (event_block_hash : MainBlockHash) (m6id : M6id)
| Error_UtxoDoubleSpent
| Error_WithdrawalBundle (e : WithdrawalBundleError)
| Error_WrongNumberOfAuthorizations (expected received : nat)
| Error_WrongPubKeyForAddress
(** the [db::error::Get] of a key that must be present *)
| Error_Db.

(** ** The state *)

Definition WITHDRAWAL_BUNDLE_FAILURE_GAP : u32 := 4.

(** The entries of a [BTreeMap] in key order *)
Inductive WithdrawalBundleInfo : Type :=
| Info_Known (bundle : WithdrawalBundle)
| Info_Unknown
| Info_UnknownConfirmed (spend_utxos : list (OutPoint * FilledOutput)).

Notation status_history := (NonEmpty (HeightStamped WithdrawalBundleStatus)) (only parsing).

Record State : Type := mkState {
  st_tip : option BlockHash;
  st_height : option u32;
  st_bitnames : Dbs;
  st_utxos : gmap OutPoint FilledOutput;
  st_stxos : gmap OutPoint SpentOutput;
  st_pending_withdrawal_bundle : option M6id;
  st_latest_failed_withdrawal_bundle : option (NonEmpty (HeightStamped M6id));
  st_withdrawal_bundles : gmap M6id (WithdrawalBundleInfo * status_history);
  st_block_index_events : gmap u32 BlockIndexEvents;
  st_deposit_blocks : gmap u32 (MainBlockHash * u32);
  st_withdrawal_bundle_event_blocks : gmap u32 (MainBlockHash * u32);
}.

Definition empty_state : State := mkState None None (mkDbs ∅ ∅ ∅) ∅ ∅ None None ∅ ∅ ∅ ∅.

(** Writes to one database of the state *)
Definition set_tip (t : option BlockHash) (h : option u32) (s : State) : State :=
  mkState t h (st_bitnames s) (st_utxos s) (st_stxos s) (st_pending_withdrawal_bundle s)
    (st_latest_failed_withdrawal_bundle s) (st_withdrawal_bundles s)
    (st_block_index_events s) (st_deposit_blocks s) (st_withdrawal_bundle_event_blocks s).
Definition set_bitname_dbs (d : Dbs) (s : State) : State :=
  mkState (st_tip s) (st_height s) d (st_utxos s) (st_stxos s)
    (st_pending_withdrawal_bundle s)
    (st_latest_failed_withdrawal_bundle s) (st_withdrawal_bundles s)
    (st_block_index_events s) (st_deposit_blocks s) (st_withdrawal_bundle_event_blocks s).
Definition set_utxos (u : gmap OutPoint FilledOutput) (s : State) : State :=
  mkState (st_tip s) (st_height s) (st_bitnames s) u (st_stxos s)
    (st_pending_withdrawal_bundle s)
    (st_latest_failed_withdrawal_bundle s) (st_withdrawal_bundles s)
    (st_block_index_events s) (st_deposit_blocks s) (st_withdrawal_bundle_event_blocks s).
Definition set_stxos (x : gmap OutPoint SpentOutput) (s : State) : State :=
  mkState (st_tip s) (st_height s) (st_bitnames s) (st_utxos s) x
    (st_pending_withdrawal_bundle s)
    (st_latest_failed_withdrawal_bundle s) (st_withdrawal_bundles s)
    (st_block_index_events s) (st_deposit_blocks s) (st_withdrawal_bundle_event_blocks s).
Definition set_pending (p : option M6id) (s : State) : State :=
  mkState (st_tip s) (st_height s) (st_bitnames s) (st_utxos s) (st_stxos s) p
    (st_latest_failed_withdrawal_bundle s) (st_withdrawal_bundles s)
    (st_block_index_events s) (st_deposit_blocks s) (st_withdrawal_bundle_event_blocks s).
Definition set_latest_failed (l : option (NonEmpty (HeightStamped M6id))) (s : State) : State :=
  mkState (st_tip s) (st_height s) (st_bitnames s) (st_utxos s) (st_stxos s)
    (st_pending_withdrawal_bundle s) l (st_withdrawal_bundles s)
    (st_block_index_events s) (st_deposit_blocks s) (st_withdrawal_bundle_event_blocks s).
Definition set_bundles (w : gmap M6id (WithdrawalBundleInfo * status_history)) (s : State)
  : State :=
  mkState (st_tip s) (st_height s) (st_bitnames s) (st_utxos s) (st_stxos s)
    (st_pending_withdrawal_bundle s) (st_latest_failed_withdrawal_bundle s) w
    (st_block_index_events s) (st_deposit_blocks s) (st_withdrawal_bundle_event_blocks s).
Definition set_index_events (e : gmap u32 BlockIndexEvents) (s : State) : State :=
  mkState (st_tip s) (st_height s) (st_bitnames s) (st_utxos s) (st_stxos s)
    (st_pending_withdrawal_bundle s) (st_latest_failed_withdrawal_bundle s)
    (st_withdrawal_bundles s) e (st_deposit_blocks s) (st_withdrawal_bundle_event_blocks s).
Definition set_deposit_blocks (d : gmap u32 (MainBlockHash * u32)) (s : State) : State :=
  mkState (st_tip s) (st_height s) (st_bitnames s) (st_utxos s) (st_stxos s)
    (st_pending_withdrawal_bundle s) (st_latest_failed_withdrawal_bundle s)
    (st_withdrawal_bundles s) (st_block_index_events s) d
    (st_withdrawal_bundle_event_blocks s).
Definition set_event_blocks (e : gmap u32 (MainBlockHash * u32)) (s : State) : State :=
  mkState (st_tip s) (st_height s) (st_bitnames s) (st_utxos s) (st_stxos s)
    (st_pending_withdrawal_bundle s) (st_latest_failed_withdrawal_bundle s)
    (st_withdrawal_bundles s) (st_block_index_events s) (st_deposit_blocks s) e.

(** ** Queries *)

(** [unwrap_or_default] *)
Definition get_block_index_events (s : State) (height : u32) : BlockIndexEvents :=
  default (mkBlockIndexEvents [] []) (st_block_index_events s !! height).
Definition try_get_tip (s : State) : option BlockHash := st_tip s.
Definition try_get_height (s : State) : option u32 := st_height s.

Definition get_stxos_by_addresses (s : State) (addresses : gset Address)
  : gmap OutPoint SpentOutput :=
  filter (fun kv => fo_address (so_output kv.2) ∈ addresses) (st_stxos s).
Definition get_utxos_by_addresses (s : State) (addresses : gset Address)
  : gmap OutPoint FilledOutput :=
  filter (fun kv => fo_address kv.2 ∈ addresses) (st_utxos s).

(** The height of the last failure in a status history *)
Definition failed_height (statuses : status_history) : option u32 :=
  head (omap (fun st : HeightStamped WithdrawalBundleStatus =>
    match hs_value st with Failed => Some (hs_height st) | _ => None end)
    (reverse (ne_list statuses))).

Definition get_latest_failed_withdrawal_bundle (s : State) : result Error (option (u32 * M6id)) :=
  match st_latest_failed_withdrawal_bundle s with
  | None => Ok None
  | Some latest_failed_m6id =>
      let latest_failed_m6id := hs_value (hs_latest latest_failed_m6id) in
      '(_, bundle_status) ← expect (st_withdrawal_bundles s !! latest_failed_m6id);
      failed_height ← expect (failed_height bundle_status);
      Ok (Some (failed_height, latest_failed_m6id))
  end.

Definition try_get_pending_withdrawal_bundle (s : State)
  : result Error (option (WithdrawalBundle * u32)) :=
  match st_pending_withdrawal_bundle s with
  | None => Ok None
  | Some m6id =>
      '(bundle_info, bundle_status) ← ok_or (st_withdrawal_bundles s !! m6id) Error_Db;
      bundle ← match bundle_info with
               | Info_Known bundle => Ok bundle
               | Info_Unknown | Info_UnknownConfirmed _ =>
                   Err (Error_PendingWithdrawalBundleUnknown m6id)
               end;
      Ok (Some (bundle, hs_height (hs_latest bundle_status)))
  end.

Definition fill_transaction (s : State) (transaction : Transaction)
  : result Error FilledTransaction :=
  spent_utxos ← map_res (fun input => ok_or (st_utxos s !! input) (Error_NoUtxo input))
                  (tx_inputs transaction);
  Ok (mkFilledTransaction transaction spent_utxos).

Definition fill_authorized_transaction (s : State) (transaction : AuthorizedTransaction)
  : result Error (FilledTransaction * list Authorization) :=
  filled_tx ← fill_transaction s (at_transaction transaction);
  Ok (filled_tx, at_authorizations transaction).

Section validation.
Context `{Externals}.

(** Inputs are looked up last-to-first. *)
Definition fill_transaction_from_stxos (s : State) (tx : Transaction)
  : result Error FilledTransaction :=
  let txid := txid tx in
  spent_utxos ← map_res (fun '(vin, input) =>
    stxo ← ok_or (st_stxos s !! input) (Error_NoStxo input);
    _ ← assert_ (bool_decide (so_inpoint stxo = InPoint_Regular txid vin));
    Ok (so_output stxo)) (reverse (enumerate (tx_inputs tx)));
  Ok (mkFilledTransaction tx (reverse spent_utxos)).

Definition validate_reservations (tx : FilledTransaction) : result Error unit :=
  let n_reservation_inputs := length (spent_reservations tx) in
  let n_reservation_outputs := length (reservation_outputs (ft_transaction tx)) in
  let unbalanced := Error_UnbalancedReservations n_reservation_inputs n_reservation_outputs in
  if is_reservation (ft_transaction tx) then
    ensure (Nat.eqb n_reservation_outputs (n_reservation_inputs + 1)) unbalanced
  else if is_registration (ft_transaction tx) then
    ensure (Nat.eqb n_reservation_inputs (n_reservation_outputs + 1)) unbalanced
  else ensure (Nat.eqb n_reservation_inputs n_reservation_outputs) unbalanced.

Definition burns_matching_reservation (tx : FilledTransaction) (implied_commitment : Hash)
  : bool :=
  existsb (fun p : OutPoint * FilledOutput =>
    bool_decide (filled_reservation_commitment (fo_content p.2) = Some implied_commitment))
    (spent_reservations tx).

Definition validate_bitnames (s : State) (tx : FilledTransaction) : result Error unit :=
  let n_bitname_inputs := length (spent_bitnames tx) in
  let n_bitname_outputs := length (bitname_outputs (ft_transaction tx)) in
  let unbalanced := Error_UnbalancedBitNames n_bitname_inputs n_bitname_outputs in
  _ ← ensure (negb (is_update (ft_transaction tx) &&
                    (Nat.ltb n_bitname_inputs 1 || Nat.ltb n_bitname_outputs 1)))
        (Error_BitName NoBitNamesToUpdate);
  _ ← match batch_icann_data (ft_transaction tx) with
      | Some batch_icann_data =>
          ensure (negb (Nat.ltb n_bitname_outputs (length (bi_plain_names batch_icann_data))))
            Error_TooFewBitNameOutputs
      | None => Ok tt
      end;
  match registration_name_hash (ft_transaction tx) with
  | Some name_hash =>
      _ ← match try_get_bitname (st_bitnames s) name_hash with
          | Some _ => Err (Error_BitNameAlreadyRegistered name_hash)
          | None => Ok tt
          end;
      _ ← match implied_reservation_commitment (ft_transaction tx) with
          | Some implied_commitment =>
              ensure (burns_matching_reservation tx implied_commitment)
                (Error_BitName (NoReservationForRegistration name_hash))
          | None => Ok tt
          end;
      ensure (Nat.eqb n_bitname_outputs (n_bitname_inputs + 1)) unbalanced
  | None => ensure (Nat.eqb n_bitname_outputs n_bitname_inputs) unbalanced
  end.

(** [is_ascii], and the number of ['.'] of an ASCII string *)
Definition is_ascii (plain_name : string) : bool :=
  forallb (fun b => b <? 128) (string_bytes plain_name).
Definition separators (plain_name : string) : nat :=
  length (List.filter (fun b => b =? 46) (string_bytes plain_name)).

Definition validate_batch_icann (tx : FilledTransaction) : result Error unit :=
  match batch_icann_data (ft_transaction tx) with
  | None => Ok tt
  | Some batch_icann_data =>
      _ ← fold_res (fun _ plain_name =>
            let invalid := Error_IcannNameInvalid plain_name in
            _ ← ensure (is_ascii plain_name) invalid;
            _ ← ensure (negb (Nat.ltb 1 (separators plain_name))) invalid;
            ensure (parse_domain_name plain_name) invalid)
            (bi_plain_names batch_icann_data) tt;
      let msg_hash := blake3_hash
        (borsh_icann_msg (tx_inputs (ft_transaction tx)) (tx_outputs (ft_transaction tx))
           (bi_plain_names batch_icann_data)) in
      verifying_key ← ok_or BATCH_ICANN_VERIFYING_KEY Error_InvalidBatchIcannRegistrationSignature;
      ensure (verify (bi_signature batch_icann_data) verifying_key Dst_Arbitrary
                (hash_bytes msg_hash)) Error_InvalidBatchIcannRegistrationSignature
  end.

Definition validate_filled_transaction (s : State) (tx : FilledTransaction)
  : result Error Amount :=
  _ ← validate_reservations tx;
  _ ← validate_bitnames s tx;
  _ ← validate_batch_icann tx;
  _ ← fold_res (fun _ p =>
        ensure (negb (filled_is_withdrawal (fo_content p.2))) (Error_SpendWithdrawalOutput p.1))
        (spent_inputs tx) tt;
  map_err Error_ComputeFee (fee tx).

(** The authorizations are paired with all spent outputs, in order. *)
Definition check_addresses (authorizations : list Authorization) (spent : list FilledOutput)
  : result Error unit :=
  fold_res (fun _ p =>
    ensure (auth_get_address p.1 =? fo_address p.2) Error_WrongPubKeyForAddress)
    (zip authorizations spent) tt.

Definition validate_transaction (s : State) (transaction : AuthorizedTransaction)
  : result Error Amount :=
  filled_transaction ← fill_transaction s (at_transaction transaction);
  let n_authorizations_required := length (spent_utxos_requiring_auth filled_transaction) in
  let n_authorizations := length (at_authorizations transaction) in
  _ ← ensure (Nat.eqb n_authorizations n_authorizations_required)
        (Error_WrongNumberOfAuthorizations n_authorizations_required n_authorizations);
  _ ← check_addresses (at_authorizations transaction) (ft_spent_utxos filled_transaction);
  _ ← match verify_authorized_transaction transaction with
      | Ok _ => Ok tt
      | Err _ => Err Error_AuthorizationError
      | Panic => Panic
      end;
  validate_filled_transaction s filled_transaction.

(** [Database::last] of a database keyed by [SerdeBincode<u32>]: the keys are
    ordered by their encoding. *)
Definition db_last_u32 {V} (m : gmap u32 V) : option (u32 * V) :=
  db_last (fun i j => bytes_ltb (bincode_u32 i) (bincode_u32 j)) m.

Definition get_last_deposit_block_hash (s : State) : option MainBlockHash :=
  (fun e : u32 * (MainBlockHash * u32) => e.2.1) <$> db_last_u32 (st_deposit_blocks s).
Definition get_last_withdrawal_bundle_event_block_hash (s : State) : option MainBlockHash :=
  (fun e : u32 * (MainBlockHash * u32) => e.2.1) <$>
    db_last_u32 (st_withdrawal_bundle_event_blocks s).

Definition is_deposit (o : OutPoint) : bool :=
  match o with OutPoint_Deposit _ _ => true | _ => false end.
Definition is_withdrawal_inpoint (i : InPoint) : bool :=
  match i with InPoint_Withdrawal _ => true | _ => false end.

(** The three running totals of [sidechain_wealth] *)
Definition sidechain_wealth (s : State) : result Error Amount :=
  let add acc v := ok_or (amount_checked_add acc v) Error_AmountOverflow in
  total_deposit_utxo_value ←
    fold_res (fun acc (e : OutPoint * FilledOutput) =>
      if is_deposit e.1 then add acc (filled_output_get_value e.2) else Ok acc)
      (map_to_list (st_utxos s)) 0;
  '(total_deposit_stxo_value, total_withdrawal_stxo_value) ←
    fold_res (fun (acc : Amount * Amount) (e : OutPoint * SpentOutput) =>
      dep ← (if is_deposit e.1 then add acc.1 (filled_output_get_value (so_output e.2))
             else Ok acc.1);
      wd ← (if is_withdrawal_inpoint (so_inpoint e.2)
            then add acc.2 (filled_output_get_value (so_output e.2)) else Ok acc.2);
      Ok (dep, wd)) (map_to_list (st_stxos s)) (0, 0);
  total ← add total_deposit_utxo_value total_deposit_stxo_value;
  ok_or (amount_checked_sub total total_withdrawal_stxo_value) Error_AmountOverflow.
End validation.

(** ** Lemmas: filling a transaction *)

Section fill.
Implicit Types (s : State) (tx : Transaction) (ftx : FilledTransaction).

Lemma fill_transaction_Ok s tx ftx :
  fill_transaction s tx = Ok ftx <->
  ft_transaction ftx = tx /\
  Forall2 (fun i o => st_utxos s !! i = Some o) (tx_inputs tx) (ft_spent_utxos ftx).
Proof.
  unfold fill_transaction. split.
  - intros Hf. res_inv. split; [done|]. apply map_res_Forall2 in Hx.
    eapply Forall2_impl; [exact Hx|]. cbn. intros i o Ho. by res_inv.
  - intros [<- Hf]. erewrite (proj2 (map_res_Forall2 _ _ (ft_spent_utxos ftx))).
    + cbn. by destruct ftx.
    + eapply Forall2_impl; [exact Hf|]. intros i o Ho. cbn. by rewrite Ho.
Qed.

Lemma fill_transaction_utxos s s' tx :
  st_utxos s = st_utxos s' -> fill_transaction s tx = fill_transaction s' tx.
Proof. unfold fill_transaction. by intros ->. Qed.
End fill.

(** As many spent outputs as inputs: what [fill_transaction] produces. *)
Definition filled (ftx : FilledTransaction) : Prop :=
  length (tx_inputs (ft_transaction ftx)) = length (ft_spent_utxos ftx).

Lemma fill_transaction_filled s tx ftx :
  fill_transaction s tx = Ok ftx -> filled ftx /\ ft_transaction ftx = tx.
Proof. intros [<- Hf]%fill_transaction_Ok. split; [by eapply Forall2_length|done]. Qed.

Lemma spent_inputs_snd ftx : filled ftx -> (spent_inputs ftx).*2 = ft_spent_utxos ftx.
Proof. unfold filled, spent_inputs. intros ?. apply snd_zip. lia. Qed.

(** ** Lemmas: validation *)

Section validation_lemmas.
Context `{Externals}.
Implicit Types (s : State) (tx : FilledTransaction).

Lemma length_bitname_content tx :
  length (filled_bitname_output_content tx) =
  (length (spent_bitnames tx) +
   length (option_list (registration_name_hash (ft_transaction tx))))%nat.
Proof.
  unfold filled_bitname_output_content. rewrite length_app, length_fmap. f_equal.
  by destruct (registration_name_hash _).
Qed.

(** A registration burns exactly one of its reservations. *)
Lemma length_reservation_content tx :
  (match implied_reservation_commitment (ft_transaction tx) with
   | Some ic => burns_matching_reservation tx ic = true
   | None => True
   end) ->
  (length (filled_reservation_output_content tx) +
   (if is_registration (ft_transaction tx) then 1 else 0) =
   length (spent_reservations tx) +
   (if is_reservation (ft_transaction tx) then 1 else 0))%nat.
Proof.
  unfold filled_reservation_output_content, implied_reservation_commitment, is_registration,
    is_reservation, reservation_commitment. rewrite length_app.
  destruct (tx_data (ft_transaction tx)) as [[c|nh rn md|u|b]|]; cbn;
    intros Hb; rewrite ?burn_reservation_None, ?length_fmap; try lia.
  assert (Exists (fun c => filled_reservation_commitment c = Some (blake3_keyed_hash rn nh))
    ((fun p : OutPoint * FilledOutput => fo_content p.2) <$> spent_reservations tx)) as Hex.
  { apply Exists_fmap, Exists_exists. apply existsb_exists in Hb as (p & Hin & Hp).
    exists p. split; [by apply list_elem_of_In|]. by apply bool_decide_eq_true in Hp. }
  apply burn_reservation_length in Hex. rewrite length_fmap in Hex. lia.
Qed.

(** What [validate_filled_transaction] has checked. *)
Record validated s tx (f : Amount) : Prop := {
  val_reservations : validate_reservations tx = Ok tt;
  val_bitnames : validate_bitnames s tx = Ok tt;
  val_icann : validate_batch_icann tx = Ok tt;
  val_no_withdrawal :
    Forall (fun p => filled_is_withdrawal (fo_content p.2) = false) (spent_inputs tx);
  val_fee : fee tx = Ok f;
}.

Lemma fold_ensure {A} (P : A -> bool) (e : A -> Error) l u :
  fold_res (fun _ a => ensure (P a) (e a)) l tt = Ok u <-> Forall (fun a => P a = true) l.
Proof.
  destruct u. induction l as [|a l IH]; cbn; [by split|]. rewrite Forall_cons, <-IH.
  destruct (P a); cbn; split; try done; by intros [? ?].
Qed.

Lemma validate_filled_transaction_Ok s tx f :
  validate_filled_transaction s tx = Ok f <-> validated s tx f.
Proof.
  unfold validate_filled_transaction. split.
  - intros Hv. res_inv. destruct x, x0, x1. apply fold_ensure in Hx2. split; try done.
    eapply Forall_impl; [exact Hx2|]. intros p Hp. cbn in Hp. by apply negb_true_iff in Hp.
  - intros [-> Hb Hi Hw Hf]; cbn. rewrite Hb; cbn. rewrite Hi; cbn.
    rewrite (proj2 (fold_ensure _ _ _ tt)).
    + cbn. by rewrite Hf.
    + eapply Forall_impl; [exact Hw|]. intros p Hp. cbn in *. by rewrite Hp.
Qed.

Lemma validate_bitnames_balance s tx :
  validate_bitnames s tx = Ok tt ->
  length (bitname_outputs (ft_transaction tx)) = length (filled_bitname_output_content tx) /\
  (forall b, registration_name_hash (ft_transaction tx) = Some b ->
    db_bitnames (st_bitnames s) !! b = None) /\
  match implied_reservation_commitment (ft_transaction tx) with
  | Some ic => burns_matching_reservation tx ic = true
  | None => True
  end.
Proof.
  rewrite length_bitname_content. unfold validate_bitnames, implied_reservation_commitment,
    registration_name_hash. intros Hv. res_inv.
  destruct (tx_data (ft_transaction tx)) as [[c|nh rn md|u|b]|]; res_inv;
    try (apply Nat.eqb_eq in Hv; cbn; split; [lia|done]).
  unfold try_get_bitname in *. destruct (db_bitnames (st_bitnames s) !! nh) eqn:Hnh; [done|].
  apply Nat.eqb_eq in Hv. cbn. split; [lia|]. split; [by intros b [= <-]|done].
Qed.

Lemma validate_reservations_balance tx :
  (match implied_reservation_commitment (ft_transaction tx) with
   | Some ic => burns_matching_reservation tx ic = true
   | None => True
   end) ->
  validate_reservations tx = Ok tt ->
  length (reservation_outputs (ft_transaction tx)) =
  length (filled_reservation_output_content tx).
Proof.
  intros Hb%length_reservation_content. unfold validate_reservations.
  unfold is_registration, is_reservation in *.
  destruct (tx_data (ft_transaction tx)) as [[c|nh rn md|u|b]|]; cbn in *;
    intros Hv; res_inv; apply Nat.eqb_eq in Hv; lia.
Qed.

(** The outputs of a validated transaction can be filled, and they carry over
    exactly the BitNames that were spent and the one it registers. *)
Lemma validated_filled_outputs s tx f :
  filled tx -> validated s tx f -> exists fos,
    filled_outputs tx = Some fos /\
    output_of_filled <$> fos = tx_outputs (ft_transaction tx) /\
    bitnames_of fos = bitnames_of (ft_spent_utxos tx) ++
      option_list (registration_name_hash (ft_transaction tx)).
Proof.
  intros Hfill [Hr Hb _ _ _]. apply validate_bitnames_balance in Hb as (Hbal & _ & Hic).
  apply validate_reservations_balance in Hr as Hrbal; [|done].
  assert (is_Some (filled_outputs tx)) as [fos Hfos].
  { apply fill_outputs_is_Some. unfold bitname_outputs, reservation_outputs in *. lia. }
  exists fos. split; [done|].
  apply fill_outputs_Some in Hfos as [Hout Hbn];
    [|apply filled_bitname_output_content_Forall|apply filled_reservation_output_content_Forall].
  split; [done|]. rewrite Hbn. fold (bitname_outputs (ft_transaction tx)).
  rewrite omap_bitname_content, spent_inputs_snd by done. apply take_ge.
  rewrite <-(spent_inputs_snd tx), <-omap_bitname_content by done.
  rewrite Hbal. apply length_omap_le.
Qed.

(** ** Lemmas: reservations carried over *)

Lemma spent_reservations_data tx :
  omap filled_reservation_data
    ((fun p : OutPoint * FilledOutput => fo_content p.2) <$> spent_reservations tx) =
  reservations_of (spent_inputs tx).*2.
Proof.
  unfold spent_reservations, reservations_of.
  induction (spent_inputs tx) as [|[op [ad c me]] l IH]; [done|].
  destruct c; cbn; rewrite ?IH; done.
Qed.

(** The reservation that [burn_reservation] drops is the one whose txid
    [burned_reservation_txid] returns. *)
Lemma burn_reservation_burned ic t (l : list (OutPoint * FilledOutput)) :
  head (omap (fun p : OutPoint * FilledOutput =>
    '(txid, commitment) ← filled_reservation_data (fo_content p.2);
    if commitment =? ic then Some txid else None) l) = Some t ->
  omap filled_reservation_data ((fun p : OutPoint * FilledOutput => fo_content p.2) <$> l) ≡ₚ
  (t, ic) :: omap filled_reservation_data
    (burn_reservation (Some ic) ((fun p : OutPoint * FilledOutput => fo_content p.2) <$> l)).
Proof.
  induction l as [|[op [ad c me]] l IH]; [done|]. cbn.
  destruct c as [v|w|b|t' h]; cbn; try exact IH.
  destruct (N.eqb_spec h ic) as [->|Hne]; cbn.
  - intros [= ->]. by rewrite burn_reservation_None.
  - intros Hh. rewrite (IH Hh). apply Permutation_swap.
Qed.

Lemma burned_reservation_is_Some tx ic :
  burns_matching_reservation tx ic = true -> is_Some (burned_reservation_txid tx ic).
Proof.
  unfold burns_matching_reservation, burned_reservation_txid.
  induction (spent_reservations tx) as [|[op [ad c me]] l IH]; [done|]. cbn.
  rewrite orb_true_iff. intros [Hb|Hb].
  - apply bool_decide_eq_true in Hb. destruct c as [v|w|b|t h]; cbn in Hb; try done.
    simplify_eq. cbn. rewrite N.eqb_refl. cbn. eauto.
  - destruct c as [v|w|b|t h]; cbn; try by apply IH. destruct (h =? ic); cbn; eauto.
Qed.

(** Reservations after a validated transaction: those of its inputs, less the one
    a registration burns, plus the one a reservation makes. *)
Lemma validated_reservations s tx f fos :
  filled tx -> validated s tx f -> filled_outputs tx = Some fos ->
  match implied_reservation_commitment (ft_transaction tx) with
  | Some ic => exists t, burned_reservation_txid tx ic = Some t /\
      reservations_of (ft_spent_utxos tx) ≡ₚ (t, ic) :: reservations_of fos
  | None => reservations_of fos = reservations_of (ft_spent_utxos tx) ++
      option_list ((fun c => (txid (ft_transaction tx), c)) <$>
        reservation_commitment (ft_transaction tx))
  end.
Proof.
  intros Hfill [Hr Hb _ _ _] Hfos. apply validate_bitnames_balance in Hb as (_ & _ & Hic).
  apply validate_reservations_balance in Hr as Hbal; [|done].
  apply fill_outputs_reservations in Hfos;
    [|apply filled_bitname_output_content_Forall|apply filled_reservation_output_content_Forall].
  fold (reservation_outputs (ft_transaction tx)) in Hfos.
  rewrite take_ge in Hfos by (rewrite Hbal; apply length_omap_le).
  unfold filled_reservation_output_content in Hfos. rewrite omap_app in Hfos.
  rewrite <-(spent_inputs_snd tx Hfill), <-spent_reservations_data.
  destruct (implied_reservation_commitment (ft_transaction tx)) as [ic|] eqn:Hi.
  - apply burned_reservation_is_Some in Hic as [t Ht]. exists t. split; [done|].
    rewrite Hfos. assert (reservation_commitment (ft_transaction tx) = None) as ->.
    { unfold implied_reservation_commitment, reservation_commitment in *.
      by destruct (tx_data (ft_transaction tx)) as [[]|]. }
    cbn. rewrite app_nil_r. by apply burn_reservation_burned.
  - rewrite burn_reservation_None in Hfos. rewrite Hfos. f_equal.
    by destruct (reservation_commitment (ft_transaction tx)).
Qed.
End validation_lemmas.

(** ** Lemmas: authorization *)

Section authorization_lemmas.
Context `{Externals}.
Implicit Types (s : State) (tx : FilledTransaction).

Lemma check_addresses_Ok auths spent u :
  check_addresses auths spent = Ok u <->
  Forall (fun p => auth_get_address p.1 = fo_address p.2) (zip auths spent).
Proof.
  unfold check_addresses. rewrite fold_ensure.
  split; intros Hf; (eapply Forall_impl; [exact Hf|]); intros p; cbn; apply N.eqb_eq.
Qed.

Lemma verify_authorized_transaction_Ok atx : batch_verify_spec ->
  verify_authorized_transaction atx = Ok tt ->
  length (at_authorizations atx) = length (tx_inputs (at_transaction atx)) /\
  Forall (fun a => pair_valid (a, tx_msg_canonical (at_transaction atx)))
    (at_authorizations atx).
Proof.
  intros Hspec Hv. unfold verify_authorized_transaction in Hv. res_inv.
  apply check_count_Ok in Hx. split; [done|]. clear Hx.
  destruct (at_authorizations atx) as [|a l]; [constructor|].
  eapply verify_batch_Ok in Hv as [_ Hv]; [|done].
  by apply (Forall_fmap (fun auth => (auth, tx_msg_canonical (at_transaction atx)))
    pair_valid (a :: l)).
Qed.

(** [retain_requiring_auth] only ever drops outputs, and drops one as soon as
    the first name is among the spent BitNames. *)
Lemma retain_requiring_auth_length names l :
  (length (retain_requiring_auth names l) <= length l)%nat.
Proof.
  revert names. induction l as [|o l IH]; intros names; cbn; [done|].
  destruct (filled_bitname (fo_content o)) as [b|]; [|cbn; specialize (IH names); lia].
  destruct names as [|n names]; [cbn; specialize (IH []); lia|].
  destruct (b =? n); cbn; [specialize (IH names)|specialize (IH (n :: names))]; lia.
Qed.
Lemma retain_requiring_auth_drops n names l :
  n ∈ bitnames_of l -> (length (retain_requiring_auth (n :: names) l) < length l)%nat.
Proof.
  unfold bitnames_of. induction l as [|o l IH]; cbn; [by intros ?%not_elem_of_nil|].
  destruct (filled_bitname (fo_content o)) as [b|] eqn:Ho; cbn.
  - intros Hin. destruct (N.eqb_spec b n) as [->|Hne].
    + pose proof (retain_requiring_auth_length names l). lia.
    + apply elem_of_cons in Hin as [->|Hin]; [done|]. specialize (IH Hin). cbn. lia.
  - intros Hin. specialize (IH Hin). lia.
Qed.

Lemma requiring_auth_length tx :
  (length (spent_utxos_requiring_auth tx) <= length (ft_spent_utxos tx))%nat.
Proof.
  unfold spent_utxos_requiring_auth. destruct (batch_icann_data _); [|done].
  apply retain_requiring_auth_length.
Qed.

Lemma spent_bitname_ids_spent tx :
  filled tx -> spent_bitname_ids tx = bitnames_of (ft_spent_utxos tx).
Proof.
  intros Hf. rewrite <-(spent_inputs_snd tx Hf).
  unfold spent_bitname_ids, spent_bitnames, bitnames_of.
  induction (spent_inputs tx) as [|[op [ad c me]] l IH]; [done|].
  destruct c; cbn; rewrite ?IH; done.
Qed.

(** A batch that names at least one spent BitName exempts an input. *)
Lemma icann_applies_exempts d tx data d' :
  filled tx -> batch_icann_data (ft_transaction tx) = Some data -> bi_plain_names data <> [] ->
  apply_batch_icann d tx data = Ok d' ->
  (length (spent_utxos_requiring_auth tx) < length (ft_spent_utxos tx))%nat.
Proof.
  intros Hf Hdata Hne Ha. unfold spent_utxos_requiring_auth. rewrite Hdata.
  unfold apply_batch_icann in Ha. res_inv.
  destruct (bi_plain_names data) as [|n names]; [done|]. cbn in *. res_inv.
  apply retain_requiring_auth_drops. rewrite <-spent_bitname_ids_spent by done.
  destruct (any_bitname (name_hash_of n) (spent_bitname_ids tx)) as [[] l] eqn:Hany; [|done].
  by apply any_bitname_true in Hany as [? _].
Qed.

(** Without names to exempt, every spent output needs an authorization. *)
Lemma icann_empty_exempts tx data :
  batch_icann_data (ft_transaction tx) = Some data -> bi_plain_names data = [] ->
  spent_utxos_requiring_auth tx = ft_spent_utxos tx.
Proof.
  intros Hd Hn. unfold spent_utxos_requiring_auth. rewrite Hd, Hn. cbn.
  induction (ft_spent_utxos tx) as [|o l IH]; cbn; [done|].
  destruct (filled_bitname _); by rewrite IH.
Qed.
End authorization_lemmas.

(** ** Properties *)

(** Authorization safety of [validate_transaction]: when it accepts, every
    input names an unspent output, and the authorization at the position of the
    input carries a key that hashes to the address of that output and a valid
    signature of this transaction. *)
Theorem validate_transaction_authorized `{Externals} (s : State)
    (atx : AuthorizedTransaction) (f : Amount) :
  batch_verify_spec -> validate_transaction s atx = Ok f ->
  length (at_authorizations atx) = length (tx_inputs (at_transaction atx)) /\
  forall vin input, tx_inputs (at_transaction atx) !! vin = Some input ->
    exists utxo auth,
      st_utxos s !! input = Some utxo /\ at_authorizations atx !! vin = Some auth /\
      address_of_key (auth_verifying_key auth) = fo_address utxo /\
      frost_verify (auth_verifying_key auth)
        (dst_byte Dst_Transaction :: borsh_transaction (at_transaction atx))
        (auth_signature auth) = true.
Proof.
  intros Hspec Hv. unfold validate_transaction in Hv. res_inv.
  destruct (verify_authorized_transaction atx) as [[]| |] eqn:Hver; [|done|done].
  apply verify_authorized_transaction_Ok in Hver as [Hlen Hsigs]; [|done].
  split; [done|]. intros vin input Hvin.
  apply fill_transaction_Ok in Hx as [_ Hf2].
  eapply Forall2_lookup_l in Hf2 as (utxo & Hutxo & Hin); [|exact Hvin].
  destruct (lookup_lt_is_Some_2 (at_authorizations atx) vin) as [auth Hauth].
  { rewrite Hlen. by eapply lookup_lt_Some. }
  exists utxo, auth. split_and!; [done|done| |].
  - apply check_addresses_Ok in Hx1. rewrite Forall_lookup in Hx1.
    apply (Hx1 vin (auth, utxo)), lookup_zip_with_Some. eauto.
  - rewrite Forall_lookup in Hsigs. by apply (Hsigs vin auth).
Qed.

(** C31 What a transaction accepted by [validate_transaction] does to value and names: its outputs can be filled
    in as they were declared, they carry exactly the BitNames of the inputs plus the one it registers, which was
    not registered before, and the reservations of the inputs, plus the one that a reservation makes, less the
    one with its commitment that a registration burns; no withdrawal output is spent, and the value of the
    inputs is the value of the outputs plus the fee. *)
Theorem validate_transaction_balanced `{Externals} (s : State)
    (atx : AuthorizedTransaction) (f : Amount) :
  validate_transaction s atx = Ok f ->
  exists ftx fos,
    fill_transaction s (at_transaction atx) = Ok ftx /\ filled_outputs ftx = Some fos /\
    output_of_filled <$> fos = tx_outputs (at_transaction atx) /\
    bitnames_of fos = bitnames_of (ft_spent_utxos ftx) ++
      option_list (registration_name_hash (at_transaction atx)) /\
    (forall b, registration_name_hash (at_transaction atx) = Some b ->
      db_bitnames (st_bitnames s) !! b = None) /\
    match implied_reservation_commitment (at_transaction atx) with
    | Some ic => exists t, burned_reservation_txid ftx ic = Some t /\
        reservations_of (ft_spent_utxos ftx) ≡ₚ (t, ic) :: reservations_of fos
    | None => reservations_of fos = reservations_of (ft_spent_utxos ftx) ++
        option_list ((fun c => (txid (at_transaction atx), c)) <$> reservation_commitment (at_transaction atx))
    end /\
    Forall (fun o => filled_is_withdrawal (fo_content o) = false) (ft_spent_utxos ftx) /\
    sum_N (filled_output_get_value <$> ft_spent_utxos ftx) =
      sum_N (output_get_value <$> tx_outputs (at_transaction atx)) + f.
Proof.
  intros Hv. unfold validate_transaction in Hv. res_inv.
  apply fill_transaction_filled in Hx as Hfill. destruct Hfill as [Hfill Htx].
  apply validate_filled_transaction_Ok in Hv.
  destruct (validated_filled_outputs s x f Hfill Hv) as (fos & Hfos & Hout & Hbn).
  pose proof (validated_reservations s x f fos Hfill Hv Hfos) as Hres.
  destruct Hv as [_ Hb _ Hw Hfee%fee_Ok]. apply validate_bitnames_balance in Hb as (_ & Hreg & _).
  rewrite Htx in *. exists x, fos. split_and!; try done; [|by destruct Hfee].
  rewrite <-(spent_inputs_snd x Hfill). by apply Forall_fmap.
Qed.

(** A batch ICANN registration that declares a name is never both validated
    and applied: [validate_transaction] accepts it only when no input is exempt
    from authorization, and then [apply_batch_icann] finds no declared name
    among the spent BitNames. *)
Theorem batch_icann_validated_not_applied `{Externals} (s : State)
    (atx : AuthorizedTransaction) (ftx : FilledTransaction)
    (data : BatchIcannRegistrationData) (f : Amount) :
  batch_verify_spec ->
  validate_transaction s atx = Ok f ->
  fill_transaction s (at_transaction atx) = Ok ftx ->
  batch_icann_data (at_transaction atx) = Some data -> bi_plain_names data <> [] ->
  forall d d', apply_batch_icann d ftx data <> Ok d'.
Proof.
  intros Hspec Hv Hfill Hdata Hne d d' Happly. unfold validate_transaction in Hv.
  rewrite Hfill in Hv. res_inv.
  destruct (verify_authorized_transaction atx) as [[]| |] eqn:Hver; [|done|done].
  apply verify_authorized_transaction_Ok in Hver as [Hlen _]; [|done].
  apply fill_transaction_filled in Hfill as [Hfilled Htx]. apply Nat.eqb_eq in Hx.
  rewrite <-Htx in *. apply icann_applies_exempts in Happly; [|done|done|done].
  unfold filled in Hfilled. lia.
Qed.

Module StateSamples.
#[local] Existing Instance Sample.externals.

(** A state with one coin of 1000, a BitName 5 and a withdrawal, owned by key 7. *)
Definition state : State :=
  set_bitname_dbs
    (mkDbs {[ 5 := bitname_data_init (mkMutableBitNameData None None None None None None) 90 0 0 ]}
       ∅ {[ 0 := 5 ]})
    (set_utxos (list_to_map
      [(OutPoint_Regular 1 0, mkFilledOutput 7 (Filled_Bitcoin 1000) []);
       (OutPoint_Regular 2 0, mkFilledOutput 7 (Filled_BitName 5) []);
       (OutPoint_Deposit 3 0, mkFilledOutput 8
          (Filled_BitcoinWithdrawal (mkWithdrawalContent 10 1 4)) [])]) empty_state).

Definition signed (tx : Transaction) : AuthorizedTransaction :=
  mkAuthorizedTransaction tx
    (replicate (length (tx_inputs tx)) (mkAuthorization 7 (sign_tx 0 7 tx))).

(** Pays 900 on, with the BitName, and leaves 100 as a fee. *)
Definition transfer : Transaction :=
  mkTransaction [OutPoint_Regular 1 0; OutPoint_Regular 2 0]
    [mkOutput 8 Content_BitName []; mkOutput 8 (Content_Bitcoin 900) []] [] None.

(** Declares a name whose BitName is not spent. *)
Definition icann_inputs : list OutPoint := [OutPoint_Regular 2 0].
Definition icann_outputs : list Output := [mkOutput 7 Content_BitName []].
Definition icann_data : BatchIcannRegistrationData :=
  mkBatchIcann ["a"%string]
    (sign 0 42 Dst_Arbitrary
       (hash_bytes (blake3_hash (borsh_icann_msg icann_inputs icann_outputs ["a"%string])))).
Definition icann : Transaction :=
  mkTransaction icann_inputs icann_outputs [] (Some (TxData_BatchIcann icann_data)).
End StateSamples.

Lemma validate_transaction_authorized_witness :
  @validate_transaction Sample.externals StateSamples.state
    (StateSamples.signed StateSamples.transfer) = Ok 100 /\
  length (at_authorizations (StateSamples.signed StateSamples.transfer)) = 2%nat.
Proof.
  assert (@validate_transaction Sample.externals StateSamples.state
    (StateSamples.signed StateSamples.transfer) = Ok 100) as Hv by (vm_compute; reflexivity).
  split; [exact Hv|].
  exact (proj1 (@validate_transaction_authorized Sample.externals _ _ _ Sample.batch_verify Hv)).
Defined.

Lemma validate_transaction_balanced_witness :
  exists ftx fos,
    fill_transaction StateSamples.state StateSamples.transfer = Ok ftx /\
    @filled_outputs Sample.externals ftx = Some fos /\ bitnames_of fos = [5].
Proof.
  assert (@validate_transaction Sample.externals StateSamples.state
    (StateSamples.signed StateSamples.transfer) = Ok 100) as Hv by (vm_compute; reflexivity).
  destruct (@validate_transaction_balanced Sample.externals _ _ _ Hv)
    as (ftx & fos & Hfill & Hfos & _ & Hbn & _).
  exists ftx, fos. split; [exact Hfill|]. split; [exact Hfos|]. rewrite Hbn.
  vm_compute in Hfill. injection Hfill as <-. vm_compute. reflexivity.
Defined.

Lemma batch_icann_validated_not_applied_witness :
  @validate_transaction Sample.externals StateSamples.state
    (StateSamples.signed StateSamples.icann) = Ok 0 /\
  forall d', @apply_batch_icann Sample.externals (st_bitnames StateSamples.state)
    (mkFilledTransaction StateSamples.icann [mkFilledOutput 7 (Filled_BitName 5) []])
    StateSamples.icann_data <> Ok d'.
Proof.
  assert (@validate_transaction Sample.externals StateSamples.state
    (StateSamples.signed StateSamples.icann) = Ok 0) as Hv by (vm_compute; reflexivity).
  split; [exact Hv|]. intros d'.
  refine (@batch_icann_validated_not_applied Sample.externals StateSamples.state _
    (mkFilledTransaction StateSamples.icann [mkFilledOutput 7 (Filled_BitName 5) []])
    _ 0 Sample.batch_verify Hv _ _ _ _ d').
  - vm_compute. reflexivity.
  - reflexivity.
  - discriminate.
Defined.
