(* ===== verification/Merkle.v ===== *)
(** * Headers, bodies and their Merkle roots

    [Header], [Coinbase] and [Body] of [src/types/lib.rs]: the hash of a header,
    the coinbase txid, the commitment to the coinbase outputs and to the
    transactions with their fees and sizes, and the operations of a body. *)

From S2P Require Import Prelude Types Transaction Sample Authorization State.

Section merkle.
Context `{Externals}.

(** ** Headers *)

Definition compute_txid (merkle_root : MerkleRoot) (prev_main_hash : MainBlockHash)
    (prev_side_hash : option BlockHash) : CoinbaseTxid :=
  blake3_hash (borsh_coinbase_txid merkle_root prev_main_hash prev_side_hash).
Definition compute_coinbase_txid (h : Header) : CoinbaseTxid :=
  compute_txid (hd_merkle_root h) (hd_prev_main_hash h) (hd_prev_side_hash h).
Definition header_hash (h : Header) : BlockHash := blake3_hash (borsh_header h).

(** ** The coinbase *)

Definition u64_add (a b : u64) : u64 := (a + b) mod 2 ^ 64.

(** [MergeValueSizeTotal::merge]; [None] is a panic *)
Definition merge_value_size_total (lnode rnode : CoinbaseCbmtNode) : option CoinbaseCbmtNode :=
  if ccb_index lnode + 1 =? ccb_index rnode then
    let index := (ccb_index lnode - 1) / 2 in
    value ← amount_checked_add (ccb_value lnode) (ccb_value rnode);
    let canonical_size := u64_add (ccb_canonical_size lnode) (ccb_canonical_size rnode) in
    let commitment := blake3_hash (borsh_coinbase_node
      (mkCoinbaseCbmtNodePreCommitment (ccb_commitment lnode) value canonical_size
         (ccb_commitment rnode))) in
    Some (mkCoinbaseCbmtNode commitment value canonical_size index)
  else None.

Definition output_canonical_size (o : Output) : u64 := N.of_nat (length (borsh_output o)).

Definition coinbase_leaf (n_outputs : N) (index : N) (output : Output) : CoinbaseCbmtNode :=
  let value := output_get_value output in
  let canonical_size := output_canonical_size output in
  mkCoinbaseCbmtNode
    (blake3_hash (borsh_coinbase_leaf
       (mkCoinbaseCbmtLeafPreCommitment value canonical_size output)))
    value canonical_size (index + n_outputs - 1).

Definition compute_outputs_merkle_root (c : Coinbase) : result Error Hash :=
  let n_outputs := N.of_nat (length (cb_outputs c)) in
  let leaves := imap (fun i => coinbase_leaf n_outputs (N.of_nat i)) (cb_outputs c) in
  ccb_commitment <$> expect
    (cbmt_build_merkle_root (mkCoinbaseCbmtNode 0 0 0 0) merge_value_size_total leaves).

Definition coinbase_compute_merkle_root (c : Coinbase) : result Error Hash :=
  outputs_commitment ← compute_outputs_merkle_root c;
  Ok (blake3_hash (borsh_memo_root (cb_memo c) outputs_commitment)).

(** ** The transactions *)

(** The parent of two nodes: what [MergeFeeSizeTotal::merge] and the levelized
    loop both compute, with the index each gives it. *)
Definition merge_nodes (lnode rnode : CbmtNode) (index : N) : option CbmtNode :=
  fees ← amount_checked_add (cn_fees lnode) (cn_fees rnode);
  let canonical_size := u64_add (cn_canonical_size lnode) (cn_canonical_size rnode) in
  let commitment := blake3_hash (borsh_node
    (mkCbmtNodePreCommitment (cn_commitment lnode) fees canonical_size (cn_commitment rnode))) in
  Some (mkCbmtNode commitment fees canonical_size index).

(** [MergeFeeSizeTotal::merge] *)
Definition merge_fee_size_total (lnode rnode : CbmtNode) : option CbmtNode :=
  if cn_index lnode + 1 =? cn_index rnode
  then merge_nodes lnode rnode ((cn_index lnode - 1) / 2) else None.

Definition compute_leaf (n_txs : N) (idx : N) (tx : FilledTransaction) : result Error CbmtNode :=
  fees ← map_err (fun err => Error_ComputeMerkleRoot
           (ComputeMerkleRoot_FeeComputation (txid (ft_transaction tx)) err)) (get_fee tx);
  let canonical_size := canonical_size (ft_transaction tx) in
  Ok (mkCbmtNode
    (blake3_hash (borsh_leaf (mkCbmtLeafPreCommitment fees canonical_size (ft_transaction tx))))
    fees canonical_size (idx + n_txs - 1)).

(** One level: an odd level first gets its last node again, then the nodes are
    merged in pairs. *)
Definition pad_level (l : list CbmtNode) : list CbmtNode :=
  if Nat.odd (length l) then l ++ option_list (last l) else l.
Fixpoint merge_pairs (parent_idx : N) (l : list CbmtNode) : option (list CbmtNode) :=
  match l with
  | node_l :: node_r :: l =>
      node ← merge_nodes node_l node_r parent_idx;
      nodes ← merge_pairs (parent_idx + 1) l;
      Some (node :: nodes)
  | _ => Some []
  end.

(** The [while] loop with fuel; the inner [None] is a panic. *)
Fixpoint levelized_loop (fuel : nat) (current_level : list CbmtNode)
  : option (option CbmtNode) :=
  match current_level with
  | [] => Some None
  | [root] => Some (Some root)
  | _ =>
      match fuel with
      | O => None
      | S fuel =>
          match merge_pairs 0 (pad_level current_level) with
          | Some next_level => levelized_loop fuel next_level
          | None => Some None
          end
      end
  end.
Definition compute_merkle_root_levelized_parallel (leaves : list CbmtNode) : option CbmtNode :=
  default None (levelized_loop (length leaves) leaves).

(** [Body::compute_merkle_root]. The parallel collect returns the error of one
    of the transactions whose fee cannot be computed; here, of the first. *)
Definition compute_merkle_root (coinbase : Coinbase) (txs : list FilledTransaction)
  : result Error MerkleRoot :=
  let n_txs := N.of_nat (length txs) in
  leaves ← map_res (fun '(idx, tx) => compute_leaf n_txs idx tx)
             (imap (fun i tx => (N.of_nat i, tx)) txs);
  txs_root ← expect
    (if 1000 <=? n_txs then compute_merkle_root_levelized_parallel leaves
     else cbmt_build_merkle_root (mkCbmtNode 0 0 0 0) merge_fee_size_total leaves);
  coinbase_root ← coinbase_compute_merkle_root coinbase;
  Ok (blake3_hash (borsh_roots coinbase_root (cn_commitment txs_root))).

(** ** Bodies *)

Definition MAX_SIZE : N := 8 * 1024 * 1024.

Definition body_new (authorized_transactions : list AuthorizedTransaction)
    (coinbase : Coinbase) : Body :=
  mkBody coinbase (at_transaction <$> authorized_transactions)
    (concat (at_authorizations <$> authorized_transactions)).

(** [None]: the [unwrap] of a missing authorization *)
Fixpoint split_authorizations (authorizations : list Authorization) (txs : list Transaction)
  : option (list AuthorizedTransaction) :=
  match txs with
  | [] => Some []
  | tx :: txs =>
      let n := length (tx_inputs tx) in
      if Nat.leb n (length authorizations) then
        rest ← split_authorizations (drop n authorizations) txs;
        Some (mkAuthorizedTransaction tx (take n authorizations) :: rest)
      else None
  end.
Definition authorized_transactions (body : Body) : option (list AuthorizedTransaction) :=
  split_authorizations (bd_authorizations body) (bd_transactions body).

Definition get_inputs (body : Body) : list OutPoint :=
  concat (tx_inputs <$> bd_transactions body).

(** Every error of the Merkle root becomes an overflow error. *)
Definition get_outputs (coinbase : Coinbase) (txs : list FilledTransaction)
    (prev_main_hash : MainBlockHash) (prev_side_hash : option BlockHash)
  : result unit (gmap OutPoint Output) :=
  merkle_root ← map_err (fun _ => tt) (compute_merkle_root coinbase txs);
  let coinbase_txid := compute_txid merkle_root prev_main_hash prev_side_hash in
  let put (txid_of : N -> OutPoint) (outputs : list Output) (m : gmap OutPoint Output) :=
    foldl (fun m p => <[txid_of p.1 := p.2]> m) m (enumerate outputs) in
  let m := put (OutPoint_Coinbase coinbase_txid) (cb_outputs coinbase) ∅ in
  Ok (foldl (fun m tx => put (OutPoint_Regular (txid (ft_transaction tx)))
                           (tx_outputs (ft_transaction tx)) m) m txs).

Definition get_coinbase_value (body : Body) : option Amount :=
  checked_sum (output_get_value <$> cb_outputs (bd_coinbase body)).
End merkle.

(** ** Lemmas *)

Section merkle_lemmas.
Context `{Externals}.

Lemma merge_pairs_length i l nodes :
  merge_pairs i l = Some nodes -> length nodes = Nat.div2 (length l).
Proof.
  revert i nodes. induction l as [l IH] using (induction_ltof1 _ (@length _)).
  unfold ltof in IH. intros i nodes. destruct l as [|x [|y l]]; [by intros [= <-]..|].
  cbn [merge_pairs]. intros Hm. destruct (merge_nodes x y i) as [n|]; [|done]. cbn in Hm.
  destruct (merge_pairs (i + 1) l) as [ns|] eqn:Hns; [|done]. cbn in Hm. injection Hm as <-.
  cbn. f_equal. refine (IH l _ _ _ Hns). cbn. lia.
Qed.

Lemma pad_level_length l : Nat.div2 (length (pad_level l)) = Nat.div2 (S (length l)).
Proof.
  unfold pad_level. destruct (Nat.odd (length l)) eqn:Hodd.
  - destruct (last l) as [x|] eqn:Hl.
    + rewrite length_app. cbn. by rewrite Nat.add_1_r.
    + by apply last_None in Hl as ->.
  - rewrite <-Nat.negb_even in Hodd. apply negb_false_iff, Nat.even_spec in Hodd as [k ->].
    by rewrite Nat.div2_double, Nat.div2_succ_double.
Qed.

(** The loop halves the level, so it needs no more rounds than there are nodes. *)
Lemma levelized_loop_total fuel l :
  (length l <= fuel)%nat -> is_Some (levelized_loop fuel l).
Proof.
  revert l. induction fuel as [|fuel IH]; intros [|x [|y l]] Hl; cbn in Hl; try lia;
    try by eexists.
  cbn [levelized_loop]. destruct (merge_pairs _ _) as [nodes|] eqn:Hm; [|by eexists].
  apply IH. apply merge_pairs_length in Hm. rewrite pad_level_length in Hm.
  pose proof (Nat.lt_div2 (S (length (x :: y :: l)))). cbn [length] in *.
  assert (Nat.div2 (S (S (S (length l)))) = S (Nat.div2 (S (length l)))) as Hd by done.
  pose proof (Nat.lt_div2 (S (length l))). lia.
Qed.

(** Running longer than needed changes nothing. *)
Lemma levelized_loop_fuel fuel fuel' l r :
  (fuel <= fuel')%nat -> levelized_loop fuel l = Some r -> levelized_loop fuel' l = Some r.
Proof.
  revert fuel' l. induction fuel as [|fuel IH]; intros [|fuel'] [|x [|y l]] Hle; cbn in Hle |- *;
    try done; try lia.
  destruct (merge_pairs 0 (pad_level (x :: y :: l))); [|done]. apply IH. lia.
Qed.

(** One round on an odd level is one round on the level with its last node
    twice. *)
Lemma levelized_duplicate l x :
  Nat.odd (length (l ++ [x])) = true -> (1 < length (l ++ [x]))%nat ->
  compute_merkle_root_levelized_parallel ((l ++ [x]) ++ [x]) =
  compute_merkle_root_levelized_parallel (l ++ [x]).
Proof.
  intros Hodd Hlen. unfold compute_merkle_root_levelized_parallel.
  destruct (levelized_loop_total (length (l ++ [x])) (l ++ [x])) as [r Hr]; [done|].
  rewrite Hr. enough (levelized_loop (length ((l ++ [x]) ++ [x])) ((l ++ [x]) ++ [x]) = Some r)
    as -> by done.
  eapply (levelized_loop_fuel (length (l ++ [x]))); [rewrite !length_app; lia|].
  rewrite <-Hr. set (k := l ++ [x]) in *.
  assert (pad_level (k ++ [x]) = pad_level k) as Hpad.
  { unfold pad_level. rewrite Hodd, length_app. cbn. rewrite Nat.add_1_r, Nat.odd_succ.
    rewrite <-Nat.negb_odd, Hodd. cbn. unfold k. by rewrite last_snoc. }
  destruct k as [|a [|b k']] eqn:Hk; cbn in Hlen; try lia.
  cbn [app levelized_loop length] in *. by rewrite Hpad.
Qed.

(** Nodes that differ in their index only: merging does not look at it. *)
Definition node_equiv (a b : CbmtNode) : Prop :=
  cn_commitment a = cn_commitment b /\ cn_fees a = cn_fees b /\
  cn_canonical_size a = cn_canonical_size b.

#[export] Instance node_equiv_equivalence : Equivalence node_equiv.
Proof.
  split; [by intros ?|by intros ?? (? & ? & ?)|].
  intros ??? (? & ? & ?) (? & ? & ?). split_and!; by etrans.
Qed.

Lemma merge_pairs_equiv i l l' :
  Forall2 node_equiv l l' -> merge_pairs i l = merge_pairs i l'.
Proof.
  revert i l'. induction l as [l IH] using (induction_ltof1 _ (@length _)).
  unfold ltof in IH. intros i l' Hl. destruct l as [|x [|y l]].
  - by inversion Hl.
  - inversion Hl as [|? x' ? l0 Hx Hl0]; subst. by inversion Hl0.
  - inversion Hl as [|? x' ? l0 Hx Hl0]; subst. inversion Hl0 as [|? y' ? l1 Hy Hl1]; subst.
    cbn [merge_pairs]. destruct Hx as (Hx1 & Hx2 & Hx3), Hy as (Hy1 & Hy2 & Hy3).
    unfold merge_nodes. rewrite Hx1, Hx2, Hx3, Hy1, Hy2, Hy3.
    rewrite (IH l) with (l' := l1); [done|cbn; lia|done].
Qed.

Lemma pad_level_equiv l l' :
  Forall2 node_equiv l l' -> Forall2 node_equiv (pad_level l) (pad_level l').
Proof.
  intros Hl. unfold pad_level. rewrite (Forall2_length _ _ _ Hl).
  destruct (Nat.odd _); [|done]. apply Forall2_app; [done|].
  destruct l as [|x l _] using rev_ind; [by inversion Hl|].
  apply Forall2_app_inv_l in Hl as (k & k' & _ & Hk & ->).
  inversion Hk as [|? y ? ? Hy Hnil]; subst. inversion Hnil; subst.
  rewrite !last_snoc. exact Hk.
Qed.

Lemma levelized_equiv l l' :
  Forall2 node_equiv l l' -> (1 < length l)%nat ->
  compute_merkle_root_levelized_parallel l = compute_merkle_root_levelized_parallel l'.
Proof.
  intros Hl Hlen. unfold compute_merkle_root_levelized_parallel.
  rewrite <-(Forall2_length _ _ _ Hl).
  pose proof (merge_pairs_equiv 0 _ _ (pad_level_equiv _ _ Hl)) as Hm.
  destruct Hl as [|x x' k k' Hx [|y y' m m' Hy Hl]]; cbn in Hlen; [lia|lia|].
  cbn [levelized_loop length]. by rewrite Hm.
Qed.

Lemma compute_leaf_equiv n n' i i' tx c c' :
  compute_leaf n i tx = Ok c -> compute_leaf n' i' tx = Ok c' -> node_equiv c c'.
Proof.
  unfold compute_leaf. destruct (get_fee tx); cbn; [|done|done]. by intros [= <-] [= <-].
Qed.
Lemma compute_leaf_Ok n n' i i' tx c :
  compute_leaf n i tx = Ok c -> exists c', compute_leaf n' i' tx = Ok c'.
Proof. unfold compute_leaf. destruct (get_fee tx); cbn; [eauto|done|done]. Qed.

Lemma map_leaves_equiv n n' i i' txs leaves :
  map_res (fun '(idx, tx) => compute_leaf n idx tx)
    (imap (fun k tx => (N.of_nat (i + k), tx)) txs) = Ok leaves ->
  exists leaves', map_res (fun '(idx, tx) => compute_leaf n' idx tx)
    (imap (fun k tx => (N.of_nat (i' + k), tx)) txs) = Ok leaves' /\
    Forall2 node_equiv leaves leaves'.
Proof.
  revert i i' leaves. induction txs as [|tx txs IH]; intros i i' leaves Hl; cbn in *; res_inv.
  { by exists []. }
  apply (compute_leaf_Ok _ n' _ (N.of_nat (i' + 0))) in Hx as Hc. destruct Hc as [c' Hc'].
  destruct (IH (S i) (S i') x0) as (ls & Hls & Hf).
  { rewrite <-Hx0. f_equal. apply imap_ext. intros k ? _. cbn. do 2 f_equal. lia. }
  exists (c' :: ls). rewrite Hc'. cbn. split.
  - erewrite (imap_ext _ (fun k tx => (N.of_nat (S i' + k), tx))); [by rewrite Hls|].
    intros k ? _. cbn. do 2 f_equal. lia.
  - constructor; [|done]. by eapply compute_leaf_equiv.
Qed.

Lemma split_authorizations_new atxs :
  Forall (fun a => length (at_authorizations a) = length (tx_inputs (at_transaction a))) atxs ->
  split_authorizations (concat (at_authorizations <$> atxs)) (at_transaction <$> atxs) = Some atxs.
Proof.
  induction 1 as [|a l Ha _ IH]; [done|]. cbn. rewrite <-Ha.
  rewrite (proj2 (Nat.leb_le _ _)) by (rewrite length_app; lia).
  rewrite drop_app_length, take_app_length, IH. cbn. by destruct a.
Qed.
End merkle_lemmas.

(** ** Properties *)

(** The body built from authorized transactions gives them back, when each
    carries one authorization per input. *)
Theorem authorized_transactions_body_new `{Externals} (atxs : list AuthorizedTransaction)
    (coinbase : Coinbase) :
  Forall (fun a => length (at_authorizations a) = length (tx_inputs (at_transaction a))) atxs ->
  authorized_transactions (body_new atxs coinbase) = Some atxs.
Proof. apply split_authorizations_new. Qed.

(** The levelized Merkle root, used from 1000 transactions on, does not
    determine the transactions: a block with an odd number of them has the root
    of the block in which the last transaction appears twice. *)
Theorem merkle_root_last_twice `{Externals} (coinbase : Coinbase)
    (txs : list FilledTransaction) (tx : FilledTransaction) (root : MerkleRoot) :
  Nat.odd (length (txs ++ [tx])) = true -> (1000 <= length (txs ++ [tx]))%nat ->
  compute_merkle_root coinbase (txs ++ [tx]) = Ok root ->
  compute_merkle_root coinbase (txs ++ [tx; tx]) = Ok root.
Proof.
  intros Hodd Hlen. unfold compute_merkle_root. intros Hr. res_inv.
  rewrite (proj2 (N.leb_le _ _)) in Hx0 by lia.
  destruct (map_leaves_equiv (N.of_nat (length (txs ++ [tx])))
    (N.of_nat (length (txs ++ [tx; tx]))) 0 0 _ _ Hx) as (leaves & Hl & Heq).
  rewrite imap_app in Hl. apply map_res_Forall2 in Hl as Hf2.
  apply Forall2_app_inv_l in Hf2 as (l1 & l2 & Hl1 & Hl2 & ->).
  cbn in Hl2. inversion Hl2 as [|? c ? ? Hc Hnil]; subst. inversion Hnil; subst.
  destruct (compute_leaf_Ok _ (N.of_nat (length (txs ++ [tx; tx]))) _
    (N.of_nat (S (length txs))) _ _ Hc) as [c' Hc'].
  match goal with |- context [map_res ?f ?l] =>
    assert (map_res f l = Ok (l1 ++ [c; c'])) as -> end.
  { apply map_res_Forall2. rewrite imap_app. apply Forall2_app; [exact Hl1|].
    cbn -[N.of_nat length]. constructor; [exact Hc|]. constructor; [|constructor].
    by rewrite Nat.add_1_r. }
  cbn -[N.of_nat length compute_merkle_root_levelized_parallel].
  rewrite (proj2 (N.leb_le _ _)) by (rewrite length_app in Hlen |- *; cbn [length] in *; lia).
  assert (length (l1 ++ [c]) = length (txs ++ [tx])) as Hll.
  { rewrite !length_app. apply Forall2_length in Hl1. rewrite length_imap in Hl1. cbn. lia. }
  assert (compute_merkle_root_levelized_parallel (l1 ++ [c; c']) = Some x0) as ->.
  { rewrite <-Hx0. rewrite (levelized_equiv x (l1 ++ [c])), <-levelized_duplicate;
      rewrite ?(Forall2_length _ _ _ Heq), ?Hll; try done; try lia.
    rewrite <-app_assoc. apply levelized_equiv; [|rewrite length_app in Hll |- *; cbn [length] in *; lia].
    apply Forall2_app; [reflexivity|].
    constructor; [done|]. constructor; [|constructor]. by eapply compute_leaf_equiv. }
  cbn. rewrite Hx1. done.
Qed.

Lemma authorized_transactions_body_new_witness :
  let atx n := mkAuthorizedTransaction (sample_tx n)
                 [mkAuthorization 1 n; mkAuthorization 2 n] in
  authorized_transactions (body_new [atx 1; atx 2] (mkCoinbase [] [])) = Some [atx 1; atx 2].
Proof.
  apply (@authorized_transactions_body_new Sample.externals). by repeat constructor.
Defined.

(** 1001 reservations without inputs. *)
Definition sample_reservation : FilledTransaction :=
  mkFilledTransaction
    (mkTransaction [] [mkOutput 1 Content_BitNameReservation []] []
       (Some (TxData_BitNameReservation 9))) [].
Lemma merkle_root_last_twice_witness :
  exists root,
    @compute_merkle_root Sample.externals (mkCoinbase [] [])
      (replicate 1000 sample_reservation ++ [sample_reservation]) = Ok root /\
    @compute_merkle_root Sample.externals (mkCoinbase [] [])
      (replicate 1000 sample_reservation ++ [sample_reservation; sample_reservation]) = Ok root.
Proof.
  eexists. split; [vm_compute; reflexivity|].
  apply (@merkle_root_last_twice Sample.externals).
  - vm_compute. reflexivity.
  - rewrite length_app, length_replicate. cbn. lia.
  - vm_compute. reflexivity.
Defined.
