(* ===== verification/Block.v ===== *)
(** * Blocks

    [src/lib/state/block.rs]: validation of a block against the state at its
    tip, the two ways of connecting it (directly, and from the values the
    prevalidation computed, with the writes to the UTXO databases accumulated
    and applied in key order), and the disconnection of the tip. *)

From S2P Require Import Prelude Types Transaction Rollback BitNames Authorization State Merkle.

(** ** Double spends: sort the fixed-width keys and compare neighbours *)

Definition bytes_le (a b : bytes) : Prop := bytes_ltb b a = false.
#[export] Instance bytes_le_dec : RelDecision bytes_le.
Proof. intros a b. unfold bytes_le. apply _. Defined.

(** [windows(2).any(|w| w[0] == w[1])] *)
Fixpoint any_adjacent_equal (l : list bytes) : bool :=
  match l with
  | a :: l' =>
      match l' with
      | b :: _ => bool_decide (a = b) || any_adjacent_equal l'
      | [] => false
      end
  | [] => false
  end.

Record PrevalidatedBlock : Type := mkPrevalidatedBlock {
  pv_filled_transactions : list FilledTransaction;
  pv_computed_merkle_root : MerkleRoot;
  pv_total_fees : Amount;
  pv_coinbase_value : Amount;
  pv_next_height : u32;
}.

Section block.
Context `{Externals}.

Definition utxo_double_spent (txs : list FilledTransaction) : bool :=
  any_adjacent_equal
    (merge_sort bytes_le
       (borsh_outpoint <$> concat ((fun tx => tx_inputs (ft_transaction tx)) <$> txs))).

(** The sum of the coinbase outputs, and of the fees of the validated
    transactions *)
Definition sum_coinbase (body : Body) : result Error Amount :=
  fold_res (fun acc output => ok_or (amount_checked_add acc (output_get_value output))
                                Error_AmountOverflow) (cb_outputs (bd_coinbase body)) 0.
Definition sum_fees (s : State) (filled_txs : list FilledTransaction) : result Error Amount :=
  fold_res (fun acc tx =>
    fee ← validate_filled_transaction s tx;
    ok_or (amount_checked_add acc fee) Error_AmountOverflow) filled_txs 0.

(** [state.try_get_height()?.map_or(0, |height| height + 1)] *)
Definition next_height (s : State) : u32 :=
  match try_get_height s with Some height => u32_add height 1 | None => 0 end.

Definition validate (s : State) (header : Header) (body : Body)
  : result Error (Amount * MerkleRoot) :=
  _ ← ensure (borsh_body_length body <=? MAX_SIZE) Error_BodyTooLarge;
  let tip_hash := try_get_tip s in
  _ ← ensure (bool_decide (hd_prev_side_hash header = tip_hash))
        (Error_InvalidHeader (InvalidHeader_PrevSideHash tip_hash (hd_prev_side_hash header)));
  coinbase_value ← sum_coinbase body;
  filled_txs ← map_res (fill_transaction s) (bd_transactions body);
  _ ← ensure (negb (utxo_double_spent filled_txs)) Error_UtxoDoubleSpent;
  total_fees ← sum_fees s filled_txs;
  _ ← ensure (coinbase_value <=? total_fees) Error_NotEnoughFees;
  merkle_root ← compute_merkle_root (bd_coinbase body) filled_txs;
  _ ← ensure (merkle_root =? hd_merkle_root header)
        (Error_InvalidBody (hd_merkle_root header) merkle_root);
  let n_authorizations_required :=
    sum_list ((fun t => length (spent_utxos_requiring_auth t)) <$> filled_txs) in
  let n_authorizations := length (bd_authorizations body) in
  _ ← ensure (Nat.eqb n_authorizations n_authorizations_required)
        (Error_WrongNumberOfAuthorizations n_authorizations_required n_authorizations);
  _ ← check_addresses (bd_authorizations body) (concat (spent_utxos_requiring_auth <$> filled_txs));
  _ ← match verify_authorizations body with
      | Ok _ => Ok tt
      | Err _ => Err Error_AuthorizationError
      | Panic => Panic
      end;
  Ok (total_fees, merkle_root).

Definition prevalidate (s : State) (header : Header) (body : Body)
  : result Error PrevalidatedBlock :=
  _ ← ensure (borsh_body_length body <=? MAX_SIZE) Error_BodyTooLarge;
  let tip_hash := try_get_tip s in
  _ ← ensure (bool_decide (hd_prev_side_hash header = tip_hash))
        (Error_InvalidHeader (InvalidHeader_PrevSideHash tip_hash (hd_prev_side_hash header)));
  coinbase_value ← sum_coinbase body;
  filled_transactions ← map_res (fill_transaction s) (bd_transactions body);
  _ ← ensure (negb (utxo_double_spent filled_transactions)) Error_UtxoDoubleSpent;
  total_fees ← sum_fees s filled_transactions;
  _ ← ensure (coinbase_value <=? total_fees) Error_NotEnoughFees;
  computed_merkle_root ← compute_merkle_root (bd_coinbase body) filled_transactions;
  _ ← ensure (computed_merkle_root =? hd_merkle_root header)
        (Error_InvalidBody (hd_merkle_root header) computed_merkle_root);
  let n_authorizations_required :=
    sum_list ((fun t => length (spent_utxos_requiring_auth t)) <$> filled_transactions) in
  let n_authorizations := length (bd_authorizations body) in
  _ ← ensure (Nat.eqb n_authorizations n_authorizations_required)
        (Error_WrongNumberOfAuthorizations n_authorizations_required n_authorizations);
  _ ← check_addresses (bd_authorizations body)
        (concat (spent_utxos_requiring_auth <$> filled_transactions));
  _ ← match verify_authorizations body with
      | Ok _ => Ok tt
      | Err _ => Err Error_AuthorizationError
      | Panic => Panic
      end;
  Ok (mkPrevalidatedBlock filled_transactions computed_merkle_root total_fees coinbase_value
        (next_height s)).

(** ** Effects of a transaction that both ways of connecting share *)

(** The content of a coinbase output *)
Definition fill_coinbase_output (output : Output) : result Error FilledOutput :=
  content ← match out_content output with
            | Content_Bitcoin value => Ok (Filled_Bitcoin value)
            | Content_Withdrawal withdrawal => Ok (Filled_BitcoinWithdrawal withdrawal)
            | Content_BitName | Content_BitNameReservation =>
                Err Error_BadCoinbaseOutputContent
            end;
  Ok (mkFilledOutput (out_address output) content (out_memo output)).

(** [match &transaction.data] *)
Definition apply_tx_data (d : Dbs) (transaction : Transaction) (filled_tx : FilledTransaction)
    (height : u32) : result Error Dbs :=
  match tx_data transaction with
  | None => Ok d
  | Some (TxData_BitNameReservation commitment) =>
      Ok (put_reservation d (txid (ft_transaction filled_tx)) commitment)
  | Some (TxData_BitNameRegistration name_hash _ bitname_data) =>
      map_err Error_BitName (apply_registration d filled_tx name_hash bitname_data height)
  | Some (TxData_BitNameUpdate bitname_updates) =>
      map_err Error_BitName (apply_updates d filled_tx bitname_updates height)
  | Some (TxData_BatchIcann batch_icann_data) =>
      map_err Error_BitName (apply_batch_icann d filled_tx batch_icann_data)
  end.

(** The spent outputs of the transaction, with the inpoint that spends each *)
Definition spent_output (txid : Txid) (vin : u32) (output : FilledOutput) : SpentOutput :=
  mkSpentOutput output (InPoint_Regular txid vin).

(** ** [connect_prevalidated] *)

(** The accumulated writes, and the BitName databases, written at once *)
Record Mutations : Type := mkMutations {
  mu_utxo_deletes : gset OutPoint;
  mu_stxo_puts : gmap OutPoint SpentOutput;
  mu_utxo_puts : gmap OutPoint FilledOutput;
  mu_bitnames : Dbs;
}.

Definition accumulate_coinbase (header : Header) (puts : gmap OutPoint FilledOutput)
    (p : u32 * Output) : result Error (gmap OutPoint FilledOutput) :=
  let '(vout, output) := p in
  filled_output ← fill_coinbase_output output;
  Ok (<[OutPoint_Coinbase (compute_coinbase_txid header) vout := filled_output]> puts).

Definition accumulate_input (s : State) (txid : Txid) (m : Mutations) (p : u32 * OutPoint)
  : result Error Mutations :=
  let '(vin, input) := p in
  output ← ok_or (st_utxos s !! input) (Error_NoUtxo input);
  Ok (mkMutations ({[input]} ∪ mu_utxo_deletes m)
        (<[input := spent_output txid vin output]> (mu_stxo_puts m))
        (mu_utxo_puts m) (mu_bitnames m)).

Definition put_outputs (txid : Txid) (outputs : list FilledOutput)
    (utxos : gmap OutPoint FilledOutput) : gmap OutPoint FilledOutput :=
  foldl (fun m p => <[OutPoint_Regular txid p.1 := p.2]> m) utxos (enumerate outputs).
#[global] Arguments put_outputs : simpl never.

Definition accumulate_transaction (s : State) (height : u32) (m : Mutations)
    (p : Transaction * FilledTransaction) : result Error Mutations :=
  let '(transaction, filled_tx) := p in
  let txid := txid (ft_transaction filled_tx) in
  m ← fold_res (accumulate_input s txid)
        (enumerate (tx_inputs (ft_transaction filled_tx))) m;
  filled_outputs ← ok_or (filled_outputs filled_tx) Error_FillTxOutputContentsFailed;
  let utxo_puts := put_outputs txid filled_outputs (mu_utxo_puts m) in
  bitnames ← apply_tx_data (mu_bitnames m) transaction filled_tx height;
  Ok (mkMutations (mu_utxo_deletes m) (mu_stxo_puts m) utxo_puts bitnames).

(** The [for] loops over the accumulated keys: each key occurs once, so their
    order does not matter. *)
Definition apply_mutations (s : State) (m : Mutations) : State :=
  let utxos := set_fold (fun key utxos => delete key utxos) (st_utxos s) (mu_utxo_deletes m) in
  let stxos := map_fold (fun key spent stxos => <[key := spent]> stxos) (st_stxos s)
                 (mu_stxo_puts m) in
  let utxos := map_fold (fun key output utxos => <[key := output]> utxos) utxos
                 (mu_utxo_puts m) in
  set_bitname_dbs (mu_bitnames m) (set_stxos stxos (set_utxos utxos s)).
#[global] Arguments apply_mutations : simpl never.

Definition connect_prevalidated (s : State) (header : Header) (body : Body)
    (prevalidated : PrevalidatedBlock) : result Error (MerkleRoot * State) :=
  let height := pv_next_height prevalidated in
  utxo_puts ← fold_res (accumulate_coinbase header) (enumerate (cb_outputs (bd_coinbase body))) ∅;
  m ← fold_res (accumulate_transaction s height)
        (zip (bd_transactions body) (pv_filled_transactions prevalidated))
        (mkMutations ∅ ∅ utxo_puts (st_bitnames s));
  let s := apply_mutations s m in
  Ok (pv_computed_merkle_root prevalidated,
      set_tip (Some (header_hash header)) (Some height) s).

Definition apply_block (s : State) (header : Header) (body : Body) : result Error State :=
  prevalidated ← prevalidate s header body;
  '(_, s) ← connect_prevalidated s header body prevalidated;
  Ok s.

(** ** [connect] *)

Definition connect_coinbase_output (header : Header) (s : State) (p : u32 * Output)
  : result Error State :=
  let '(vout, output) := p in
  filled_output ← fill_coinbase_output output;
  Ok (set_utxos (<[OutPoint_Coinbase (compute_coinbase_txid header) vout := filled_output]>
                   (st_utxos s)) s).

Definition connect_input (txid : Txid) (s : State) (p : u32 * OutPoint) : result Error State :=
  let '(vin, input) := p in
  output ← ok_or (st_utxos s !! input) (Error_NoUtxo input);
  Ok (set_stxos (<[input := spent_output txid vin output]> (st_stxos s))
        (set_utxos (delete input (st_utxos s)) s)).

Definition connect_transaction (height : u32) (acc : State * list FilledTransaction)
    (transaction : Transaction) : result Error (State * list FilledTransaction) :=
  let '(s, filled_txs) := acc in
  filled_tx ← fill_transaction s transaction;
  let txid := txid (ft_transaction filled_tx) in
  s ← fold_res (connect_input txid) (enumerate (tx_inputs (ft_transaction filled_tx))) s;
  filled_outputs ← ok_or (filled_outputs filled_tx) Error_FillTxOutputContentsFailed;
  let s := set_utxos (put_outputs txid filled_outputs (st_utxos s)) s in
  bitnames ← apply_tx_data (st_bitnames s) transaction filled_tx height;
  Ok (set_bitname_dbs bitnames s, filled_txs ++ [filled_tx]).

Definition connect (s : State) (header : Header) (body : Body)
  : result Error (MerkleRoot * State) :=
  let height := next_height s in
  let tip_hash := try_get_tip s in
  _ ← ensure (bool_decide (tip_hash = hd_prev_side_hash header))
        (Error_InvalidHeader (InvalidHeader_PrevSideHash tip_hash (hd_prev_side_hash header)));
  s ← fold_res (connect_coinbase_output header) (enumerate (cb_outputs (bd_coinbase body))) s;
  '(s, filled_txs) ← fold_res (connect_transaction height) (bd_transactions body) (s, []);
  merkle_root ← compute_merkle_root (bd_coinbase body) filled_txs;
  _ ← ensure (merkle_root =? hd_merkle_root header)
        (Error_InvalidBody (hd_merkle_root header) merkle_root);
  Ok (merkle_root, set_tip (Some (header_hash header)) (Some height) s).

(** ** [disconnect_tip] *)

Definition revert_tx_data (d : Dbs) (tx : Transaction) (filled_tx : FilledTransaction)
    (height : u32) : result Error Dbs :=
  match tx_data tx with
  | None => Ok d
  | Some (TxData_BitNameReservation _) =>
      let txid := txid tx in
      let '(deleted, d) := delete_reservation d txid in
      _ ← ensure deleted (Error_BitName (MissingReservation txid));
      Ok d
  | Some (TxData_BitNameRegistration name_hash _ _) =>
      map_err Error_BitName (revert_registration d filled_tx name_hash)
  | Some (TxData_BitNameUpdate bitname_updates) =>
      map_err Error_BitName (revert_updates d filled_tx bitname_updates height)
  | Some (TxData_BatchIcann batch_icann_data) =>
      map_err Error_BitName (revert_batch_icann d filled_tx batch_icann_data)
  end.

(** [utxos.delete] of an output that must exist *)
Definition delete_utxo (s : State) (outpoint : OutPoint) : result Error State :=
  _ ← ensure (bool_decide (is_Some (st_utxos s !! outpoint))) (Error_NoUtxo outpoint);
  Ok (set_utxos (delete outpoint (st_utxos s)) s).

Definition unspend_input (s : State) (outpoint : OutPoint) : result Error State :=
  spent_output ← ok_or (st_stxos s !! outpoint) (Error_NoStxo outpoint);
  Ok (set_utxos (<[outpoint := so_output spent_output]> (st_utxos s))
        (set_stxos (delete outpoint (st_stxos s)) s)).

Definition disconnect_transaction (height : u32) (acc : State * list FilledTransaction)
    (tx : Transaction) : result Error (State * list FilledTransaction) :=
  let '(s, filled_txs) := acc in
  let txid := txid tx in
  filled_tx ← fill_transaction_from_stxos s tx;
  bitnames ← revert_tx_data (st_bitnames s) tx filled_tx height;
  let s := set_bitname_dbs bitnames s in
  let filled_txs := filled_txs ++ [filled_tx] in
  s ← fold_res (fun s p => delete_utxo s (OutPoint_Regular txid p.1))
        (reverse (enumerate (tx_outputs tx))) s;
  s ← fold_res unspend_input (reverse (tx_inputs tx)) s;
  Ok (s, filled_txs).

Definition disconnect_tip (s : State) (header : Header) (body : Body) : result Error State :=
  tip_hash ← ok_or (st_tip s) Error_NoTip;
  _ ← ensure (tip_hash =? header_hash header)
        (Error_InvalidHeader (InvalidHeader_BlockHash tip_hash (header_hash header)));
  height ← expect (try_get_height s);
  '(s, filled_txs) ← fold_res (disconnect_transaction height)
                       (reverse (bd_transactions body)) (s, []);
  let filled_txs := reverse filled_txs in
  s ← fold_res (fun s p =>
        delete_utxo s (OutPoint_Coinbase (compute_coinbase_txid header) p.1))
        (reverse (enumerate (cb_outputs (bd_coinbase body)))) s;
  merkle_root ← compute_merkle_root (bd_coinbase body) filled_txs;
  _ ← ensure (merkle_root =? hd_merkle_root header)
        (Error_InvalidBody (hd_merkle_root header) merkle_root);
  match hd_prev_side_hash header, height with
  | None, 0 => Ok (set_tip None None s)
  | None, _ | _, 0 => Err Error_NoTip
  | Some prev_side_hash, height =>
      Ok (set_tip (Some prev_side_hash) (Some (u32_sub height 1)) s)
  end.
End block.
