(* ===== verification/BlockSamples.v ===== *)
(** * A sample block

    A state, a header and a body with the sample externals, on which the
    definitions of [Block] are evaluated: a transfer with an update of the
    BitName it moves, a reservation without inputs, and a registration that
    burns an earlier reservation. *)

From S2P Require Import Prelude Types Transaction Sample Rollback BitNames Authorization State.
From S2P Require Import Merkle Block.

Module BlockSamples.
#[local] Existing Instance Sample.externals.

Definition no_data : MutableBitNameData := mkMutableBitNameData None None None None None None.
Definition commitment : Hash := blake3_keyed_hash 3 6.

(** BitName 5 is registered; a reservation of BitName 6 with nonce 3 is open. *)
Definition dbs : Dbs :=
  mkDbs {[ 5 := bitname_data_init no_data 90 0 0 ]} {[ 91 := commitment ]} {[ 0 := 5 ]}.
Definition state : State :=
  set_bitname_dbs dbs
    (set_utxos (list_to_map
      [(OutPoint_Deposit 1 0, mkFilledOutput 7 (Filled_Bitcoin 1000) []);
       (OutPoint_Regular 2 0, mkFilledOutput 7 (Filled_BitName 5) []);
       (OutPoint_Regular 3 0, mkFilledOutput 8 (Filled_BitNameReservation 91 commitment) [])])
      empty_state).

Definition update : BitNameDataUpdates :=
  mkBitNameDataUpdates (Set_ 77) Retain Retain Delete Retain (Set_ 10).
Definition transfer : Transaction :=
  mkTransaction [OutPoint_Deposit 1 0; OutPoint_Regular 2 0]
    [mkOutput 8 Content_BitName []; mkOutput 8 (Content_Bitcoin 900) []] []
    (Some (TxData_BitNameUpdate update)).
Definition reservation : Transaction :=
  mkTransaction [] [mkOutput 9 Content_BitNameReservation []] []
    (Some (TxData_BitNameReservation 1234)).
Definition registration : Transaction :=
  mkTransaction [OutPoint_Regular 3 0] [mkOutput 8 Content_BitName []] []
    (Some (TxData_BitNameRegistration 6 3 no_data)).

Definition body_of (txs : list (Transaction * SigningKey)) : Body :=
  mkBody (mkCoinbase [] [mkOutput 9 (Content_Bitcoin 100) []]) txs.*1
    (concat ((fun p : Transaction * SigningKey =>
       replicate (length (tx_inputs p.1)) (mkAuthorization p.2 (sign_tx 0 p.2 p.1))) <$> txs)).
Definition body : Body := body_of [(transfer, 7); (reservation, 9); (registration, 8)].

(** The header that commits to a body on top of a state *)
Definition header_of (s : State) (b : Body) : Header :=
  let ftxs := match map_res (fill_transaction s) (bd_transactions b) with
              | Ok ftxs => ftxs | _ => [] end in
  let root := match compute_merkle_root (bd_coinbase b) ftxs with Ok r => r | _ => 0 end in
  mkHeader root (st_tip s) 500.
Definition header : Header := header_of state body.

Lemma applied : exists s', apply_block state header body = Ok s'.
Proof. apply is_ok_Ok. vm_compute. reflexivity. Qed.
Lemma prevalidated : exists pv, prevalidate state header body = Ok pv.
Proof. apply is_ok_Ok. vm_compute. reflexivity. Qed.

(** A batch of no ICANN names *)
Definition icann_inputs : list OutPoint := [OutPoint_Deposit 1 0].
Definition icann_outputs : list Output := [mkOutput 8 (Content_Bitcoin 900) []].
Definition icann_data : BatchIcannRegistrationData :=
  mkBatchIcann []
    (sign 0 42 Dst_Arbitrary
       (hash_bytes (blake3_hash (borsh_icann_msg icann_inputs icann_outputs [])))).
Definition icann : Transaction :=
  mkTransaction icann_inputs icann_outputs [] (Some (TxData_BatchIcann icann_data)).
Definition icann_body : Body := body_of [(icann, 7)].
Lemma icann_applied : exists s', apply_block state (header_of state icann_body) icann_body = Ok s'.
Proof. apply is_ok_Ok. vm_compute. reflexivity. Qed.

(** Two registrations of BitName 6, from reservations with the nonces 1 and 2 *)
Definition twice_state : State :=
  set_bitname_dbs
    (mkDbs ∅ (list_to_map [(91, blake3_keyed_hash 1 6); (92, blake3_keyed_hash 2 6)]) ∅)
    (set_utxos (list_to_map
      [(OutPoint_Deposit 1 0, mkFilledOutput 7 (Filled_Bitcoin 1000) []);
       (OutPoint_Regular 3 0,
          mkFilledOutput 8 (Filled_BitNameReservation 91 (blake3_keyed_hash 1 6)) []);
       (OutPoint_Regular 4 0,
          mkFilledOutput 9 (Filled_BitNameReservation 92 (blake3_keyed_hash 2 6)) [])])
      empty_state).
Definition twice (outpoint nonce : N) : Transaction :=
  mkTransaction [OutPoint_Regular outpoint 0] [mkOutput 8 Content_BitName []] []
    (Some (TxData_BitNameRegistration 6 nonce no_data)).
Definition twice_body : Body :=
  body_of [(twice 3 1, 8); (twice 4 2, 9);
           (mkTransaction [OutPoint_Deposit 1 0] [mkOutput 8 (Content_Bitcoin 900) []] [] None, 7)].
Lemma twice_applied :
  exists s', apply_block twice_state (header_of twice_state twice_body) twice_body = Ok s'.
Proof. apply is_ok_Ok. vm_compute. reflexivity. Qed.
Lemma twice_outputs :
  match apply_block twice_state (header_of twice_state twice_body) twice_body with
  | Ok s' =>
      fo_content <$> (st_utxos s' !! OutPoint_Regular (txid (twice 3 1)) 0) =
        Some (Filled_BitName 6) /\
      fo_content <$> (st_utxos s' !! OutPoint_Regular (txid (twice 4 2)) 0) =
        Some (Filled_BitName 6) /\
      disconnect_tip s' (header_of twice_state twice_body) twice_body =
        Err (Error_BitName (Missing 6))
  | _ => False
  end.
Proof. vm_compute. repeat split. Qed.
End BlockSamples.
