(* ===== verification/BlockEquiv.v ===== *)
(** * The two ways of connecting a block agree

    [connect_prevalidated] accumulates the writes to the UTXO databases and
    applies them at the end; [connect] writes as it goes. The state of [connect]
    after some transactions is the starting state with the writes accumulated so
    far applied to it, provided no outpoint the block creates is already
    unspent. *)

From S2P Require Import Prelude Types Transaction Sample Rollback BitNames Authorization State.
From S2P Require Import Merkle Block BlockSamples BlockSafety.

Section equiv.
Context `{Externals}.
Implicit Types (s : State) (m : Mutations) (header : Header) (body : Body).

Lemma apply_mutations_eq s m :
  apply_mutations s m =
  set_bitname_dbs (mu_bitnames m)
    (set_stxos (mu_stxo_puts m ∪ st_stxos s)
      (set_utxos (mu_utxo_puts m ∪ without (mu_utxo_deletes m) (st_utxos s)) s)).
Proof. unfold apply_mutations. by rewrite set_fold_delete, !map_fold_insert_union. Qed.

(** Outpoints created by a block *)
Definition tx_outpoints (tx : Transaction) : list OutPoint :=
  (fun p => OutPoint_Regular (txid tx) p.1) <$> enumerate (tx_outputs tx).
Definition coinbase_outpoints header body : list OutPoint :=
  (fun p => OutPoint_Coinbase (compute_coinbase_txid header) p.1) <$>
    enumerate (cb_outputs (bd_coinbase body)).
Definition created header body : list OutPoint :=
  coinbase_outpoints header body ++ concat (tx_outpoints <$> bd_transactions body).

(** The accumulated outputs are not among the unspent outputs of the state. *)
Definition fresh_puts s m : Prop := forall o, is_Some (mu_utxo_puts m !! o) -> st_utxos s !! o = None.

Lemma fresh_puts_lookup s m o v :
  fresh_puts s m -> st_utxos s !! o = Some v -> mu_utxo_puts m !! o = None.
Proof.
  intros Hf Ho. destruct (mu_utxo_puts m !! o) eqn:Hp; [|done].
  rewrite (Hf o) in Ho; [done|by eauto].
Qed.

(** One input *)
Lemma connect_input_sim s m t p v :
  fresh_puts s m -> st_utxos s !! p.2 = Some v -> p.2 ∉ mu_utxo_deletes m ->
  connect_input t (apply_mutations s m) p =
  apply_mutations s <$> accumulate_input s t m p.
Proof.
  destruct p as [vin i]; cbn [snd]. intros Hf Hi Hd. pose proof (fresh_puts_lookup _ _ _ _ Hf Hi) as Hp.
  unfold connect_input, accumulate_input. rewrite !apply_mutations_eq. cbn.
  rewrite lookup_union_without by done. rewrite Hi. cbn. rewrite apply_mutations_eq. cbn.
  f_equal. unfold set_stxos, set_utxos, set_bitname_dbs. cbn.
  rewrite delete_union_without by done. by rewrite insert_union_l.
Qed.

Lemma accumulate_input_mu s t m p m' :
  accumulate_input s t m p = Ok m' ->
  mu_utxo_puts m' = mu_utxo_puts m /\ mu_utxo_deletes m' = {[p.2]} ∪ mu_utxo_deletes m /\
  mu_bitnames m' = mu_bitnames m /\ is_Some (st_utxos s !! p.2).
Proof. unfold accumulate_input. destruct p. intros Ha. res_inv. eauto. Qed.

(** All inputs of a transaction *)
Lemma connect_inputs_sim s t l m :
  fresh_puts s m -> NoDup l.*2 ->
  (forall p, p ∈ l -> is_Some (st_utxos s !! p.2) /\ p.2 ∉ mu_utxo_deletes m) ->
  fold_res (connect_input t) l (apply_mutations s m) =
  apply_mutations s <$> fold_res (accumulate_input s t) l m.
Proof.
  revert m. induction l as [|p l IH]; intros m Hf Hnd Hall; [done|]. cbn in Hnd |- *.
  apply NoDup_cons in Hnd as [Hnin Hnd].
  destruct (Hall p) as [[v Hv] Hd]; [apply list_elem_of_here|].
  rewrite (connect_input_sim _ _ _ _ _ Hf Hv Hd).
  destruct (accumulate_input s t m p) as [m'| |] eqn:Ha; [|done|done]. cbn.
  apply accumulate_input_mu in Ha as (Hputs & Hdel & _).
  apply IH; [by intros o; rewrite Hputs; apply Hf|done|].
  intros q Hq. destruct (Hall q) as [? ?]; [by apply list_elem_of_further|].
  split; [done|]. rewrite Hdel. intros [Heq%elem_of_singleton|?]%elem_of_union; [|done].
  apply Hnin. rewrite <-Heq. by apply list_elem_of_fmap_2.
Qed.

Lemma accumulate_inputs_mu s t l m m' :
  fold_res (accumulate_input s t) l m = Ok m' ->
  mu_utxo_puts m' = mu_utxo_puts m /\
  mu_utxo_deletes m' = list_to_set l.*2 ∪ mu_utxo_deletes m /\
  mu_bitnames m' = mu_bitnames m.
Proof.
  revert m. induction l as [|p l IH]; intros m Ha; cbn in Ha; res_inv.
  { cbn. split_and!; [done|set_solver|done]. }
  apply accumulate_input_mu in Hx as (Hp & Hd & Hb & _). apply IH in Ha as (Hp' & Hd' & Hb').
  rewrite Hp', Hd', Hb', Hp, Hd, Hb. cbn. split_and!; [done|set_solver|done].
Qed.

Lemma put_outputs_union t fos u v : put_outputs t fos (u ∪ v) = put_outputs t fos u ∪ v.
Proof.
  unfold put_outputs. revert u. induction (enumerate fos) as [|p l IH]; intros u; [done|].
  cbn. by rewrite insert_union_l, IH.
Qed.

Lemma put_outputs_dom t fos u o :
  is_Some (put_outputs t fos u !! o) ->
  is_Some (u !! o) \/ o ∈ (fun p => OutPoint_Regular t p.1) <$> enumerate fos.
Proof.
  unfold put_outputs. revert u. induction (enumerate fos) as [|p l IH]; intros u; [by left|].
  cbn. intros [Hi|?]%IH; [|right; by apply list_elem_of_further].
  rewrite lookup_insert_is_Some in Hi. destruct Hi as [->|[_ ?]]; [|by left].
  right. apply list_elem_of_here.
Qed.

Lemma enumerate_fst {A B C} (g : N -> C) (l : list A) (k : list B) :
  length l = length k ->
  (fun p => g p.1) <$> enumerate l = (fun p => g p.1) <$> enumerate k.
Proof.
  unfold enumerate. intros Hl. apply list_eq. intros i.
  rewrite !list_lookup_fmap, !list_lookup_imap.
  destruct (l !! i) eqn:Hli, (k !! i) eqn:Hki; cbn; try done.
  - apply lookup_lt_Some in Hli. apply lookup_ge_None in Hki. lia.
  - apply lookup_lt_Some in Hki. apply lookup_ge_None in Hli. lia.
Qed.
Lemma enumerate_snd {A} (l : list A) : (enumerate l).*2 = l.
Proof.
  unfold enumerate. apply list_eq. intros i. rewrite list_lookup_fmap, list_lookup_imap.
  by destruct (l !! i).
Qed.

Lemma filled_outputs_length ftx fos :
  filled_outputs ftx = Some fos -> length fos = length (tx_outputs (ft_transaction ftx)).
Proof.
  intros Hf. apply fill_outputs_Some in Hf as [<- _];
    [by rewrite length_fmap|apply filled_bitname_output_content_Forall|
     apply filled_reservation_output_content_Forall].
Qed.

Lemma tx_outpoints_filled ftx fos :
  filled_outputs ftx = Some fos ->
  (fun p => OutPoint_Regular (txid (ft_transaction ftx)) p.1) <$> enumerate fos =
  tx_outpoints (ft_transaction ftx).
Proof.
  intros Hf%filled_outputs_length. by apply enumerate_fst.
Qed.

(** What one transaction adds to the accumulated writes *)
Lemma accumulate_transaction_Ok s h m ftx m' :
  accumulate_transaction s h m (ft_transaction ftx, ftx) = Ok m' ->
  exists m1 fos,
    fold_res (accumulate_input s (txid (ft_transaction ftx)))
      (enumerate (tx_inputs (ft_transaction ftx))) m = Ok m1 /\
    filled_outputs ftx = Some fos /\
    apply_tx_data (mu_bitnames m) (ft_transaction ftx) ftx h = Ok (mu_bitnames m') /\
    mu_utxo_deletes m' = list_to_set (tx_inputs (ft_transaction ftx)) ∪ mu_utxo_deletes m /\
    mu_utxo_puts m' = put_outputs (txid (ft_transaction ftx)) fos (mu_utxo_puts m) /\
    mu_stxo_puts m' = mu_stxo_puts m1.
Proof.
  unfold accumulate_transaction. intros Ha. res_inv.
  pose proof (accumulate_inputs_mu _ _ _ _ _ Hx) as (Hp & Hd & Hb).
  exists x, x0. cbn. rewrite <-Hb, Hp, Hd, enumerate_snd. done.
Qed.

(** One transaction: filled as in the starting state, and the same writes. *)
Lemma connect_transaction_sim s h m ftx ftxs :
  fresh_puts s m -> NoDup (tx_inputs (ft_transaction ftx)) ->
  Forall2 (fun i o => st_utxos s !! i = Some o)
    (tx_inputs (ft_transaction ftx)) (ft_spent_utxos ftx) ->
  (forall i, i ∈ tx_inputs (ft_transaction ftx) -> i ∉ mu_utxo_deletes m) ->
  connect_transaction h (apply_mutations s m, ftxs) (ft_transaction ftx) =
  (fun m' => (apply_mutations s m', ftxs ++ [ftx])) <$>
    accumulate_transaction s h m (ft_transaction ftx, ftx).
Proof.
  intros Hfresh Hnd Hlook Hdel. unfold connect_transaction.
  assert (fill_transaction (apply_mutations s m) (ft_transaction ftx) = Ok ftx) as ->.
  { apply fill_transaction_Ok. split; [done|]. rewrite apply_mutations_eq. cbn.
    apply Forall2_same_length_lookup_2; [by eapply Forall2_length|]. intros k i o Hi Ho.
    eapply Forall2_lookup_lr in Hlook; [|exact Hi|exact Ho].
    rewrite lookup_union_without; [done|by eapply fresh_puts_lookup|].
    by eapply Hdel, list_elem_of_lookup_2. }
  unfold mbind at 1, result_bind at 1.
  rewrite connect_inputs_sim; [|done|by rewrite enumerate_snd|].
  2:{ intros [vin i] Hp. apply (list_elem_of_fmap_2 snd) in Hp. rewrite enumerate_snd in Hp.
      cbn in *. split; [|by apply Hdel]. apply list_elem_of_lookup in Hp as [k Hk].
      eapply Forall2_lookup_l in Hlook as (o & _ & Ho); [|exact Hk]. eauto. }
  unfold accumulate_transaction.
  destruct (fold_res (accumulate_input s _) _ m) as [m1| |] eqn:Hacc; [|done|done]. cbn.
  destruct (filled_outputs ftx) as [fos|]; [|done]. cbn. rewrite apply_mutations_eq. cbn.
  destruct (apply_tx_data _ _ _ _) as [d| |]; [|done|done].
  cbn [fmap result_fmap mbind result_bind]. rewrite apply_mutations_eq.
  unfold set_bitname_dbs, set_stxos, set_utxos. cbn. by rewrite put_outputs_union.
Qed.

(** All transactions *)
Lemma connect_transactions_sim s h ftxs : forall m done,
  fresh_puts s m ->
  Forall (fun o => st_utxos s !! o = None) (concat (tx_outpoints <$> (ft_transaction <$> ftxs))) ->
  NoDup (concat ((fun tx => tx_inputs (ft_transaction tx)) <$> ftxs)) ->
  Forall (fun ftx => Forall2 (fun i o => st_utxos s !! i = Some o)
    (tx_inputs (ft_transaction ftx)) (ft_spent_utxos ftx)) ftxs ->
  (forall i, i ∈ concat ((fun tx => tx_inputs (ft_transaction tx)) <$> ftxs) ->
    i ∉ mu_utxo_deletes m) ->
  fold_res (connect_transaction h) (ft_transaction <$> ftxs) (apply_mutations s m, done) =
  (fun m' => (apply_mutations s m', done ++ ftxs)) <$>
    fold_res (accumulate_transaction s h) (zip (ft_transaction <$> ftxs) ftxs) m.
Proof.
  induction ftxs as [|ftx ftxs IH]; intros m dn Hfresh Hout Hnd Hlook Hdel.
  { cbn. by rewrite app_nil_r. }
  cbn in Hout, Hnd, Hdel. cbn [fmap list_fmap zip_with fold_res].
  apply Forall_app in Hout as [Hout1 Hout].
  apply NoDup_app in Hnd as (Hnd1 & Hdisj & Hnd).
  apply Forall_cons in Hlook as [Hlook1 Hlook].
  rewrite connect_transaction_sim; [|done|done|done|].
  2:{ intros i Hi. apply Hdel, elem_of_app. by left. }
  destruct (accumulate_transaction s h m _) as [m'| |] eqn:Ha; [|done|done]. cbn.
  apply accumulate_transaction_Ok in Ha as (m1 & fos & _ & Hfos & _ & Hd & Hp & _).
  rewrite IH; [by rewrite <-app_assoc| |done|done|done|].
  - intros o Ho. rewrite Hp in Ho. apply put_outputs_dom in Ho as [?|Ho]; [by apply Hfresh|].
    rewrite tx_outpoints_filled in Ho by done. rewrite Forall_forall in Hout1. by apply Hout1.
  - intros i Hi. rewrite Hd. intros [Hin%elem_of_list_to_set|Hin]%elem_of_union.
    + by apply (Hdisj i).
    + revert Hin. apply Hdel, elem_of_app. by right.
Qed.

(** The coinbase outputs *)
Lemma connect_coinbase_sim header s l puts :
  fold_res (connect_coinbase_output header) l
    (apply_mutations s (mkMutations ∅ ∅ puts (st_bitnames s))) =
  (fun puts' => apply_mutations s (mkMutations ∅ ∅ puts' (st_bitnames s))) <$>
    fold_res (accumulate_coinbase header) l puts.
Proof.
  revert puts. induction l as [|[vout o] l IH]; intros puts; [done|]. cbn.
  destruct (fill_coinbase_output o) as [fo| |]; [|done|done]. cbn.
  rewrite <-IH. f_equal. rewrite !apply_mutations_eq. cbn. unfold set_utxos. cbn.
  by rewrite insert_union_l.
Qed.

Lemma accumulate_coinbase_dom header l puts puts' o :
  fold_res (accumulate_coinbase header) l puts = Ok puts' -> is_Some (puts' !! o) ->
  is_Some (puts !! o) \/
  o ∈ (fun p => OutPoint_Coinbase (compute_coinbase_txid header) p.1) <$> l.
Proof.
  revert puts. induction l as [|[vout x] l IH]; intros puts Hf Ho; cbn in Hf; res_inv; [by left|].
  destruct (IH _ Hf Ho) as [Hi|?]; [|right; by apply list_elem_of_further].
  rewrite lookup_insert_is_Some in Hi. destruct Hi as [<-|[_ ?]]; [|by left].
  right. apply list_elem_of_here.
Qed.

Lemma apply_no_mutations s : apply_mutations s (mkMutations ∅ ∅ ∅ (st_bitnames s)) = s.
Proof.
  rewrite apply_mutations_eq. cbn. rewrite !map_empty_union, without_empty. by destruct s.
Qed.

Lemma zip_transactions ftxs : zip (ft_transaction <$> ftxs) ftxs =
  (fun ftx => (ft_transaction ftx, ftx)) <$> ftxs.
Proof. induction ftxs as [|f l IH]; cbn; [done|]. by rewrite IH. Qed.

Lemma connect_prevalidated_Ok s header body pv root s' :
  connect_prevalidated s header body pv = Ok (root, s') <->
  exists puts m,
    fold_res (accumulate_coinbase header) (enumerate (cb_outputs (bd_coinbase body))) ∅ = Ok puts /\
    fold_res (accumulate_transaction s (pv_next_height pv))
      (zip (bd_transactions body) (pv_filled_transactions pv))
      (mkMutations ∅ ∅ puts (st_bitnames s)) = Ok m /\
    root = pv_computed_merkle_root pv /\
    s' = set_tip (Some (header_hash header)) (Some (pv_next_height pv)) (apply_mutations s m).
Proof.
  unfold connect_prevalidated. split.
  - intros (puts & Hp & Hc)%bind_Ok. apply bind_Ok in Hc as (m & Hm & Hc).
    injection Hc as <- <-. eauto 10.
  - intros (puts & m & Hp & Hm & -> & ->). rewrite Hp. cbn [mbind result_bind]. by rewrite Hm.
Qed.

Lemma apply_block_Ok s header body s' :
  apply_block s header body = Ok s' <->
  exists pv root, prevalidate s header body = Ok pv /\
    connect_prevalidated s header body pv = Ok (root, s').
Proof.
  unfold apply_block. split.
  - intros (pv & Hp & Hc)%bind_Ok. apply bind_Ok in Hc as ([root s0] & Hc & [= <-]). eauto.
  - intros (pv & root & -> & Hc). cbn [mbind result_bind]. by rewrite Hc.
Qed.

Lemma connect_prevalidated_connect s header body pv :
  borsh_outpoint_spec -> accepted s header body pv ->
  Forall (fun o => st_utxos s !! o = None) (created header body) ->
  connect_prevalidated s header body pv = connect s header body.
Proof.
  intros Hinj Ha Hfresh. destruct (accepted_transactions _ _ _ _ Ha) as [Htx Hfill].
  pose proof (acc_scan _ _ _ _ Ha) as Hscan. apply utxo_double_spent_false in Hscan; [|done].
  unfold connect_prevalidated, connect.
  rewrite bool_decide_true by (symmetry; apply (acc_tip _ _ _ _ Ha)). cbn [ensure mbind result_bind].
  replace (fold_res (connect_coinbase_output header) (enumerate (cb_outputs (bd_coinbase body))) s)
    with (fold_res (connect_coinbase_output header) (enumerate (cb_outputs (bd_coinbase body)))
      (apply_mutations s (mkMutations ∅ ∅ ∅ (st_bitnames s)))) by by rewrite apply_no_mutations.
  rewrite connect_coinbase_sim.
  destruct (fold_res (accumulate_coinbase header) _ ∅) as [puts| |] eqn:Hcb; [|done|done].
  cbn [fmap result_fmap mbind result_bind]. unfold created in Hfresh.
  rewrite <-Htx in Hfresh |- *. apply Forall_app in Hfresh as [Hf1 Hf2].
  rewrite (acc_height _ _ _ _ Ha), connect_transactions_sim; [|cbn; intros o Ho|done|done| |].
  - destruct (fold_res (accumulate_transaction _ _) _ _) as [m| |]; [|done|done].
    cbn -[compute_merkle_root]. rewrite (acc_root _ _ _ _ Ha). cbn.
    rewrite (acc_header _ _ _ _ Ha), N.eqb_refl. done.
  - eapply accumulate_coinbase_dom in Hcb as [[? ?]|Hin]; [done| |exact Ho].
    rewrite Forall_forall in Hf1. by apply Hf1.
  - eapply Forall_impl; [exact Hfill|]. by intros ? [_ ?].
  - intros i _. apply not_elem_of_empty.
Qed.

(** The steps of [connect] behind an accepted block *)
Lemma connect_accepted s header body pv root s' :
  borsh_outpoint_spec -> accepted s header body pv ->
  Forall (fun o => st_utxos s !! o = None) (created header body) ->
  connect_prevalidated s header body pv = Ok (root, s') ->
  exists s1 s2,
    fold_res (connect_coinbase_output header) (enumerate (cb_outputs (bd_coinbase body))) s = Ok s1 /\
    fold_res (connect_transaction (next_height s)) (bd_transactions body) (s1, []) =
      Ok (s2, pv_filled_transactions pv) /\
    s' = set_tip (Some (header_hash header)) (Some (next_height s)) s2.
Proof.
  intros Hinj Ha Hfresh (puts & m & Hcb & Hm & _ & ->)%connect_prevalidated_Ok.
  destruct (accepted_transactions _ _ _ _ Ha) as [Htx Hfill].
  pose proof (acc_scan _ _ _ _ Ha) as Hscan. apply utxo_double_spent_false in Hscan; [|done].
  exists (apply_mutations s (mkMutations ∅ ∅ puts (st_bitnames s))), (apply_mutations s m).
  rewrite (acc_height _ _ _ _ Ha) in *. split_and!; [| |done].
  - pose proof (connect_coinbase_sim header s (enumerate (cb_outputs (bd_coinbase body))) ∅) as Hs.
    rewrite apply_no_mutations in Hs. by rewrite Hs, Hcb.
  - unfold created in Hfresh. rewrite <-Htx in Hfresh, Hm |- *.
    apply Forall_app in Hfresh as [Hf1 Hf2].
    rewrite connect_transactions_sim; [|cbn; intros o Ho|done|done| |].
    + by rewrite Hm.
    + eapply accumulate_coinbase_dom in Hcb as [[? ?]|Hin]; [done| |exact Ho].
      rewrite Forall_forall in Hf1. by apply Hf1.
    + eapply Forall_impl; [exact Hfill|]. by intros ? [_ ?].
    + intros i _. apply not_elem_of_empty.
Qed.
End equiv.

(** ** Properties *)

(** C8 On a block that passed [prevalidate] and creates no outpoint that is already unspent,
    [connect_prevalidated], with its accumulated and reordered writes, returns exactly what [connect] returns,
    errors included. *)
Theorem connect_prevalidated_equiv_connect `{Externals} (s : State) (header : Header)
    (body : Body) (pv : PrevalidatedBlock) :
  borsh_outpoint_spec -> prevalidate s header body = Ok pv ->
  Forall (fun o => st_utxos s !! o = None) (created header body) ->
  connect_prevalidated s header body pv = connect s header body.
Proof.
  intros Hinj Hp%prevalidate_accepted Hfresh. by apply connect_prevalidated_connect.
Qed.

Lemma connect_prevalidated_equiv_connect_witness :
  exists pv, @prevalidate Sample.externals BlockSamples.state BlockSamples.header
      BlockSamples.body = Ok pv /\
    @connect_prevalidated Sample.externals BlockSamples.state BlockSamples.header
      BlockSamples.body pv =
    @connect Sample.externals BlockSamples.state BlockSamples.header BlockSamples.body.
Proof.
  destruct BlockSamples.prevalidated as [pv Hpv]. exists pv. split; [exact Hpv|].
  apply (@connect_prevalidated_equiv_connect Sample.externals _ _ _ _
    Sample.borsh_outpoint_inj Hpv).
  apply (bool_decide_unpack _). vm_compute. exact I.
Defined.
