(* ===== verification/BlockValue.v ===== *)
(** * Conservation of value

    Connecting a block never increases the total value of the unspent outputs:
    what the transactions create is paid for by what they spend, and the coinbase
    by their fees. *)

From S2P Require Import Prelude Types Transaction Sample Rollback BitNames Authorization State.
From S2P Require Import Merkle Block BlockSamples BlockSafety BlockEquiv.

Section value.
Context `{Externals}.
Implicit Types (s : State) (header : Header) (body : Body).

(** The total value of a set of outputs *)
Definition utxo_value (u : gmap OutPoint FilledOutput) : N := map_sum filled_output_get_value u.

Lemma put_outputs_value t fos u :
  utxo_value (put_outputs t fos u) <= utxo_value u + sum_N (filled_output_get_value <$> fos).
Proof.
  unfold put_outputs. rewrite <-(enumerate_snd fos) at 2. revert u.
  induction (enumerate fos) as [|p l IH]; intros u; cbn.
  { unfold sum_N; cbn. lia. }
  etrans; [apply IH|]. pose proof (map_sum_insert_le filled_output_get_value u
    (OutPoint_Regular t p.1) p.2). unfold utxo_value, sum_N in *. cbn. lia.
Qed.

Lemma accumulate_coinbase_value header l puts puts' :
  fold_res (accumulate_coinbase header) l puts = Ok puts' ->
  utxo_value puts' <= utxo_value puts + sum_N (output_get_value <$> l.*2).
Proof.
  revert puts. induction l as [|[vout o] l IH]; intros puts Hf; cbn in Hf; res_inv.
  { unfold sum_N; cbn. lia. }
  apply IH in Hf. etrans; [exact Hf|].
  match goal with |- utxo_value (<[?k := ?v]> puts) + _ <= _ =>
    pose proof (map_sum_insert_le filled_output_get_value puts k v) as Hi;
    assert (filled_output_get_value v = output_get_value o) as Hv end.
  { destruct o as [ad [v| | |w] me]; cbn in *; res_inv; done. }
  rewrite Hv in Hi. unfold utxo_value, sum_N in *. cbn. lia.
Qed.

Lemma filled_outputs_value ftx fos :
  filled_outputs ftx = Some fos ->
  filled_output_get_value <$> fos = output_get_value <$> tx_outputs (ft_transaction ftx).
Proof.
  intros Hf. apply fill_outputs_Some in Hf as [<- _];
    [|apply filled_bitname_output_content_Forall|apply filled_reservation_output_content_Forall].
  by rewrite <-list_fmap_compose.
Qed.

(** All transactions: the outputs deleted are the inputs, and the value of the
    accumulated outputs is at most that of the declared ones. *)
Lemma accumulate_transactions_value s h ftxs m m' :
  fold_res (accumulate_transaction s h) (zip (ft_transaction <$> ftxs) ftxs) m = Ok m' ->
  mu_utxo_deletes m' =
    list_to_set (concat ((fun tx => tx_inputs (ft_transaction tx)) <$> ftxs)) ∪ mu_utxo_deletes m /\
  utxo_value (mu_utxo_puts m') <= utxo_value (mu_utxo_puts m) +
    sum_N (output_get_value <$> concat ((fun tx => tx_outputs (ft_transaction tx)) <$> ftxs)).
Proof.
  revert m. induction ftxs as [|ftx ftxs IH]; intros m Hf;
    cbn [fmap list_fmap zip_with fold_res] in Hf;
    [injection Hf as <-|apply bind_Ok in Hf as (m2 & Hx & Hf)].
  { cbn. split; [by rewrite (left_id_L ∅ (∪))|]. unfold sum_N; cbn; lia. }
  apply accumulate_transaction_Ok in Hx as (m1 & fos & _ & Hfos & _ & Hd & Hp & _).
  apply IH in Hf as [Hd' Hv]. split.
  - rewrite Hd', Hd. cbn. rewrite list_to_set_app_L. set_solver.
  - etrans; [exact Hv|]. rewrite Hp. cbn. rewrite fmap_app, sum_N_app.
    pose proof (put_outputs_value (txid (ft_transaction ftx)) fos (mu_utxo_puts m)) as Ho.
    rewrite (filled_outputs_value _ _ Hfos) in Ho. lia.
Qed.

Lemma sum_coinbase_Ok body v :
  sum_coinbase body = Ok v -> v = sum_N (output_get_value <$> cb_outputs (bd_coinbase body)).
Proof. intros Hs. apply fold_checked_sum in Hs as [-> _]. lia. Qed.

(** Inputs pay for outputs and fees. *)
Lemma validated_total s ftxs fees :
  Forall2 (validated s) ftxs fees ->
  sum_N (filled_output_get_value <$> concat (ft_spent_utxos <$> ftxs)) =
  sum_N (output_get_value <$> concat ((fun tx => tx_outputs (ft_transaction tx)) <$> ftxs)) +
  sum_N fees.
Proof.
  induction 1 as [|ftx f ftxs fees Hv _ IH]; cbn; [done|].
  rewrite !fmap_app, !sum_N_app. apply val_fee, fee_Ok in Hv as [_ Hv].
  rewrite sum_N_cons. lia.
Qed.

Lemma Forall2_concat_lookup (u : gmap OutPoint FilledOutput) ftxs :
  Forall (fun ftx => Forall2 (fun i o => u !! i = Some o)
    (tx_inputs (ft_transaction ftx)) (ft_spent_utxos ftx)) ftxs ->
  Forall2 (fun i o => u !! i = Some o)
    (concat ((fun tx => tx_inputs (ft_transaction tx)) <$> ftxs))
    (concat (ft_spent_utxos <$> ftxs)).
Proof. induction 1; cbn; [constructor|]. by apply Forall2_app. Qed.

Lemma connect_prevalidated_value s header body pv root s' :
  borsh_outpoint_spec -> accepted s header body pv ->
  connect_prevalidated s header body pv = Ok (root, s') ->
  utxo_value (st_utxos s') <= utxo_value (st_utxos s).
Proof.
  intros Hinj Ha Hc. destruct (accepted_transactions _ _ _ _ Ha) as [Htx Hfill].
  pose proof (acc_scan _ _ _ _ Ha) as Hscan. apply utxo_double_spent_false in Hscan; [|done].
  assert (Forall (fun ftx => Forall2 (fun i o => st_utxos s !! i = Some o)
    (tx_inputs (ft_transaction ftx)) (ft_spent_utxos ftx)) (pv_filled_transactions pv)) as Hlook.
  { eapply Forall_impl; [exact Hfill|]. by intros ? [_ ?]. }
  apply Forall2_concat_lookup in Hlook.
  destruct (sum_fees_Ok _ _ _ _ (acc_fees _ _ _ _ Ha)) as (fees & Hval & Htotal).
  apply validated_total in Hval.
  pose proof (sum_coinbase_Ok _ _ (acc_coinbase _ _ _ _ Ha)) as Hcb.
  pose proof (acc_enough _ _ _ _ Ha) as Henough.
  apply connect_prevalidated_Ok in Hc as (puts & x0 & Hx & Hx0 & _ & ->). rewrite <-Htx in Hx0.
  apply accumulate_transactions_value in Hx0 as [Hd Hv].
  apply accumulate_coinbase_value in Hx. rewrite enumerate_snd in Hx.
  rewrite apply_mutations_eq. cbn in *. rewrite (right_id_L ∅ (∪)) in Hd. rewrite Hd.
  pose proof (map_sum_without filled_output_get_value _ _ _ Hscan Hlook) as Hw.
  pose proof (map_sum_union_le filled_output_get_value (mu_utxo_puts x0)
    (without (list_to_set (concat ((fun tx => tx_inputs (ft_transaction tx)) <$>
      pv_filled_transactions pv))) (st_utxos s))) as Hu.
  unfold utxo_value in *. rewrite map_sum_empty in Hx. lia.
Qed.
End value.

(** ** Properties *)

(** C7 No inflation: a block that [apply_block] accepts never increases the
    total value of the unspent outputs, whatever outpoints it creates. *)
Theorem apply_block_no_inflation `{Externals} (s s' : State) (header : Header) (body : Body) :
  borsh_outpoint_spec -> apply_block s header body = Ok s' ->
  utxo_value (st_utxos s') <= utxo_value (st_utxos s).
Proof.
  intros Hinj (pv & root & Hp & Hc)%apply_block_Ok.
  apply prevalidate_accepted in Hp. by eapply connect_prevalidated_value.
Qed.

(** C9 A block that passes [prevalidate] spends every outpoint at most once, and
    every outpoint it spends is unspent in the state. *)
Theorem prevalidate_no_double_spend `{Externals} (s : State) (header : Header) (body : Body)
    (pv : PrevalidatedBlock) :
  borsh_outpoint_spec -> prevalidate s header body = Ok pv ->
  NoDup (get_inputs body) /\ Forall (fun o => is_Some (st_utxos s !! o)) (get_inputs body).
Proof.
  intros Hinj Ha%prevalidate_accepted. rewrite <-(accepted_inputs _ _ _ _ Ha).
  split; [apply utxo_double_spent_false, (acc_scan _ _ _ _ Ha); done|].
  destruct (accepted_transactions _ _ _ _ Ha) as [_ Hf].
  assert (Forall2 (fun i o => st_utxos s !! i = Some o)
    (concat ((fun tx => tx_inputs (ft_transaction tx)) <$> pv_filled_transactions pv))
    (concat (ft_spent_utxos <$> pv_filled_transactions pv))) as Hl.
  { apply Forall2_concat_lookup. eapply Forall_impl; [exact Hf|]. by intros ? [_ ?]. }
  apply Forall_lookup. intros k i Hk.
  eapply Forall2_lookup_l in Hl as (o & _ & Ho); [|exact Hk]. eauto.
Qed.

(** The inputs of a block and the messages to sign, in one order *)
Lemma prevalidate_authorized_at `{Externals} (s : State) (header : Header) (body : Body)
    (pv : PrevalidatedBlock) :
  batch_verify_spec -> prevalidate s header body = Ok pv ->
  length (bd_authorizations body) = length (get_inputs body) /\
  forall n input msg,
    get_inputs body !! n = Some input -> body_messages body !! n = Some msg ->
    exists utxo auth,
      st_utxos s !! input = Some utxo /\ bd_authorizations body !! n = Some auth /\
      address_of_key (auth_verifying_key auth) = fo_address utxo /\
      frost_verify (auth_verifying_key auth) msg (auth_signature auth) = true.
Proof.
  intros Hspec Ha%prevalidate_accepted.
  pose proof (acc_signatures _ _ _ _ Ha) as Hv. apply verify_authorizations_Ok in Hv; [|done].
  assert (length (body_messages body) = length (get_inputs body)) as Hlen.
  { rewrite body_messages_length. unfold get_inputs. clear.
    induction (bd_transactions body) as [|tx l IH]; cbn; [done|]. by rewrite length_app, IH. }
  split; [by rewrite <-Hlen; apply Forall2_length in Hv|]. intros n input msg Hin Hmsg.
  eapply Forall2_lookup_r in Hv as (auth & Hauth & Hsig); [|exact Hmsg].
  destruct (accepted_transactions _ _ _ _ Ha) as [_ Hf].
  rewrite <-(accepted_inputs _ _ _ _ Ha) in Hin.
  eapply Forall2_lookup_l in Hin as (utxo & Hutxo & Hlook);
    [|apply (Forall2_concat_lookup (st_utxos s)); eapply Forall_impl; [exact Hf|]; by intros ? [_ ?]].
  exists utxo, auth. split_and!; [done|done| |exact Hsig].
  pose proof (acc_addresses _ _ _ _ Ha) as Had.
  rewrite (accepted_requiring_auth _ _ _ _ Hspec Ha) in Had.
  apply check_addresses_Ok in Had. rewrite Forall_lookup in Had.
  apply (Had n (auth, utxo)), lookup_zip_with_Some. eauto.
Qed.

(** The place of an input of a transaction among those of the block *)
Lemma body_input_at `{Externals} (body : Body) before tx after (j : nat) input :
  bd_transactions body = before ++ tx :: after -> tx_inputs tx !! j = Some input ->
  let n := (length (concat (tx_inputs <$> before)) + j)%nat in
  get_inputs body !! n = Some input /\ body_messages body !! n = Some (tx_msg_canonical tx).
Proof.
  intros Hb Hj. unfold get_inputs, body_messages. rewrite Hb, !fmap_app, !fmap_cons, !concat_app.
  cbn [concat]. split.
  - rewrite lookup_app_r by lia. rewrite Nat.add_comm, Nat.add_sub. by apply lookup_app_l_Some.
  - assert (length (concat ((fun tx => replicate (length (tx_inputs tx)) (tx_msg_canonical tx)) <$> before)) =
      length (concat (tx_inputs <$> before))) as Hl.
    { clear Hb. induction before as [|x l IH]; cbn; [done|]. by rewrite !length_app, length_replicate, IH. }
    rewrite lookup_app_r, Hl by lia. rewrite Nat.add_comm, Nat.add_sub. apply lookup_app_l_Some.
    apply lookup_replicate. split; [done|]. by eapply lookup_lt_Some.
Qed.

(** C11 Authorization of blocks: in a block that passes [prevalidate] there are as many authorizations as
    inputs, and each input of each transaction has its own, at the input's place in the block: its key hashes to
    the address of the unspent output that the input spends, and its signature is one of the transaction that
    spends it, that is, of the byte for transactions followed by the encoding of that transaction. A batch of
    signatures is assumed to verify only if each of them does. *)
Theorem prevalidate_authorized `{Externals} (s : State) (header : Header) (body : Body)
    (pv : PrevalidatedBlock) :
  batch_verify_spec -> prevalidate s header body = Ok pv ->
  length (bd_authorizations body) = length (get_inputs body) /\
  forall before tx after j input,
    bd_transactions body = before ++ tx :: after -> tx_inputs tx !! j = Some input ->
    exists utxo auth,
      st_utxos s !! input = Some utxo /\
      bd_authorizations body !! (length (concat (tx_inputs <$> before)) + j)%nat = Some auth /\
      address_of_key (auth_verifying_key auth) = fo_address utxo /\
      frost_verify (auth_verifying_key auth) (dst_byte Dst_Transaction :: borsh_transaction tx) (auth_signature auth) = true.
Proof.
  intros Hspec Hp. destruct (prevalidate_authorized_at s header body pv Hspec Hp) as [Hlen Hall].
  split; [done|]. intros before tx after j input Hb Hj.
  destruct (body_input_at body before tx after j input Hb Hj) as [Hi Hm]. exact (Hall _ _ _ Hi Hm).
Qed.

Lemma apply_block_no_inflation_witness :
  exists s', @apply_block Sample.externals BlockSamples.state BlockSamples.header
      BlockSamples.body = Ok s' /\
    @utxo_value Sample.externals (st_utxos s') <= 1000.
Proof.
  destruct BlockSamples.applied as [s' Hs']. exists s'. split; [exact Hs'|].
  exact (@apply_block_no_inflation Sample.externals _ _ _ _ Sample.borsh_outpoint_inj Hs').
Defined.

Lemma prevalidate_no_double_spend_witness :
  exists pv, @prevalidate Sample.externals BlockSamples.state BlockSamples.header
      BlockSamples.body = Ok pv /\ NoDup (get_inputs BlockSamples.body).
Proof.
  destruct BlockSamples.prevalidated as [pv Hpv]. exists pv. split; [exact Hpv|].
  exact (proj1 (@prevalidate_no_double_spend Sample.externals _ _ _ _
    Sample.borsh_outpoint_inj Hpv)).
Defined.

Lemma prevalidate_authorized_witness :
  exists pv auth, @prevalidate Sample.externals BlockSamples.state BlockSamples.header
      BlockSamples.body = Ok pv /\
    bd_authorizations BlockSamples.body !! 1%nat = Some auth /\
    @frost_verify Sample.externals (auth_verifying_key auth)
      (dst_byte Dst_Transaction :: @borsh_transaction Sample.externals BlockSamples.transfer) (auth_signature auth) = true.
Proof.
  destruct BlockSamples.prevalidated as [pv Hpv].
  destruct (proj2 (@prevalidate_authorized Sample.externals _ _ _ _ Sample.batch_verify Hpv)
    [] BlockSamples.transfer [BlockSamples.reservation; BlockSamples.registration] 1%nat (OutPoint_Regular 2 0))
    as (utxo & auth & _ & Ha & _ & Hv); [reflexivity|reflexivity|].
  exists pv, auth. split; [exact Hpv|]. split; [exact Ha|exact Hv].
Defined.
