(* ===== verification/BlockRollback.v ===== *)
(** * Disconnecting a block undoes connecting it

    [disconnect_tip] of [src/lib/state/block.rs] against [connect]: the effects
    of one transaction and their reversal, and the round trip of a whole block. *)

From S2P Require Import Prelude Types Transaction Sample Rollback BitNames Authorization State.
From S2P Require Import Merkle Block BlockSamples BlockSafety BlockEquiv.

Section one_transaction.
Context `{Externals}.
Implicit Types (s : State) (tx : Transaction) (ftx : FilledTransaction).

(** ** Inputs *)

(** No outpoint is both unspent and spent. *)
Definition disjoint_dbs s : Prop :=
  forall o, is_Some (st_utxos s !! o) -> st_stxos s !! o = None.

(** The spent outputs of the transaction, written to the STXO database *)
Definition put_spent (t : Txid) (l : list ((u32 * OutPoint) * FilledOutput))
    (stxos : gmap OutPoint SpentOutput) : gmap OutPoint SpentOutput :=
  foldl (fun m e => <[e.1.2 := spent_output t e.1.1 e.2]> m) stxos l.
#[global] Arguments put_spent : simpl never.

Lemma connect_inputs_Ok t l s s1 :
  fold_res (connect_input t) l s = Ok s1 -> NoDup l.*2 /\ exists outs,
    Forall2 (fun p o => st_utxos s !! p.2 = Some o) l outs /\
    s1 = set_stxos (put_spent t (zip l outs) (st_stxos s))
           (set_utxos (without (list_to_set l.*2) (st_utxos s)) s).
Proof.
  revert s. induction l as [|[vin i] l IH]; intros s Hf; cbn [fold_res] in Hf.
  { injection Hf as <-. split; [constructor|]. exists []. split; [done|]. cbn.
    unfold put_spent; cbn. rewrite without_empty. by destruct s. }
  apply bind_Ok in Hf as (s0 & Hi & Hf). cbn in Hi. res_inv.
  apply IH in Hf as (Hnd & outs & Hf2 & ->). cbn in Hf2.
  assert (i ∉ l.*2) as Hnin.
  { intros (q & Hq & Hin)%list_elem_of_fmap. apply list_elem_of_lookup in Hin as [k Hk].
    eapply Forall2_lookup_l in Hf2 as (o & _ & Ho); [|exact Hk].
    rewrite <-Hq, lookup_delete_eq in Ho. done. }
  split; [by apply NoDup_cons|]. exists (x :: outs). split.
  - constructor; [done|]. eapply Forall2_impl; [exact Hf2|]. cbn. intros q o Ho.
    by apply lookup_delete_Some in Ho as [_ ?].
  - cbn. unfold set_stxos, set_utxos; cbn. f_equal.
    rewrite without_insert_set. apply map_eq. intros k.
    rewrite !lookup_delete, !lookup_without, lookup_delete.
    repeat case_decide; done.
Qed.

Lemma put_spent_lookup_ne t l stxos o :
  o ∉ l.*1.*2 -> put_spent t l stxos !! o = stxos !! o.
Proof.
  unfold put_spent. revert stxos. induction l as [|e l IH]; intros stxos Hnin; [done|].
  cbn in *. apply not_elem_of_cons in Hnin as [? ?]. rewrite IH by done.
  by rewrite lookup_insert_ne.
Qed.
Lemma put_spent_lookup t l stxos vin i o :
  NoDup l.*1.*2 -> ((vin, i), o) ∈ l -> put_spent t l stxos !! i = Some (spent_output t vin o).
Proof.
  revert stxos. induction l as [|e l IH]; intros stxos Hnd Hin; [by apply not_elem_of_nil in Hin|].
  cbn in Hnd. apply NoDup_cons in Hnd as [Hnin Hnd]. apply elem_of_cons in Hin as [<-|Hin].
  - cbn in Hnin. unfold put_spent; cbn. fold (put_spent t l (<[i := spent_output t vin o]> stxos)).
    rewrite put_spent_lookup_ne by done. apply lookup_insert_eq.
  - apply (IH (<[e.1.2 := spent_output t e.1.1 e.2]> stxos) Hnd Hin).
Qed.

(** Unspending the inputs in reverse order *)
Lemma unspend_connect_inputs t l s s1 :
  disjoint_dbs s -> fold_res (connect_input t) l s = Ok s1 ->
  fold_res unspend_input (reverse l.*2) s1 = Ok s.
Proof.
  intros Hdisj Hf. rewrite <-fmap_reverse, fold_res_fmap. revert Hdisj Hf.
  apply (fold_res_undo (connect_input t) (fun s p => unspend_input s p.2) disjoint_dbs).
  intros s0 [vin i] s2 _ Hd Hc. cbn in Hc. res_inv. rename Hx into Hi.
  assert (st_stxos s0 !! i = None) as Hst by (apply Hd; eauto).
  split.
  - intros o Ho. cbn in *. rewrite lookup_delete_is_Some in Ho. destruct Ho as [Hne Ho].
    rewrite lookup_insert_ne by done. by apply Hd.
  - unfold unspend_input; cbn. rewrite lookup_insert_eq. cbn.
    unfold set_utxos, set_stxos; cbn.
    rewrite (insert_delete_id (st_utxos s0)), (delete_insert_id (st_stxos s0)) by done.
    by destruct s0.
Qed.

(** ** Outputs *)

Lemma put_outputs_snoc t fos fo u :
  put_outputs t (fos ++ [fo]) u =
  <[OutPoint_Regular t (N.of_nat (length fos) mod 2 ^ 32) := fo]> (put_outputs t fos u).
Proof.
  unfold put_outputs, enumerate. rewrite imap_app, foldl_app. cbn. by rewrite Nat.add_0_r.
Qed.

Lemma delete_utxo_insert s u o fo :
  u !! o = None -> delete_utxo (set_utxos (<[o := fo]> u) s) o = Ok (set_utxos u s).
Proof.
  intros Hu. unfold delete_utxo; cbn. rewrite lookup_insert_eq; cbn. unfold set_utxos; cbn.
  by rewrite (delete_insert_id u).
Qed.

(** Deleting, last to first, outputs written under fresh distinct outpoints *)
Lemma delete_put_all s u (l : list (OutPoint * FilledOutput)) :
  NoDup l.*1 -> Forall (fun o => u !! o = None) l.*1 ->
  fold_res delete_utxo (reverse l.*1)
    (set_utxos (foldl (fun m e => <[e.1 := e.2]> m) u l) s) = Ok (set_utxos u s).
Proof.
  induction l as [|[o fo] l IH] using rev_ind; intros Hnd Hfresh; [done|].
  rewrite fmap_app in *. cbn in *. apply NoDup_app in Hnd as (Hnd & Hdisj & _).
  apply Forall_app in Hfresh as [Hfresh Ho]. rewrite Forall_singleton in Ho.
  rewrite foldl_app, reverse_snoc. cbn [foldl fold_res fst snd].
  rewrite delete_utxo_insert; [by apply IH|].
  assert (o ∉ l.*1) as Hnin by (intros Hin; apply (Hdisj o Hin), list_elem_of_here).
  clear -Hnin Ho. induction l as [|[k v] l IH] using rev_ind; [done|].
  rewrite foldl_app. rewrite fmap_app in Hnin. apply not_elem_of_app in Hnin as [? Hk].
  cbn in *. apply not_elem_of_cons in Hk as [? _]. rewrite lookup_insert_ne by done. by apply IH.
Qed.

Lemma put_outputs_list t fos u :
  put_outputs t fos u =
  foldl (fun m e => <[e.1 := e.2]> m) u
    ((fun p => (OutPoint_Regular t p.1, p.2)) <$> enumerate fos).
Proof.
  unfold put_outputs. revert u. induction (enumerate fos) as [|p l IH]; intros u; [done|].
  cbn. apply IH.
Qed.

Lemma delete_put_outputs s u ftx fos :
  filled_outputs ftx = Some fos -> NoDup (tx_outpoints (ft_transaction ftx)) ->
  Forall (fun o => u !! o = None) (tx_outpoints (ft_transaction ftx)) ->
  fold_res (fun s p => delete_utxo s (OutPoint_Regular (txid (ft_transaction ftx)) p.1))
    (reverse (enumerate (tx_outputs (ft_transaction ftx))))
    (set_utxos (put_outputs (txid (ft_transaction ftx)) fos u) s) = Ok (set_utxos u s).
Proof.
  intros Hfos. rewrite <-(tx_outpoints_filled _ _ Hfos). intros Hnd Hfresh.
  rewrite <-(fold_res_fmap delete_utxo
    (fun p => OutPoint_Regular (txid (ft_transaction ftx)) p.1)), fmap_reverse.
  change ((fun p : N * Output => OutPoint_Regular (txid (ft_transaction ftx)) p.1) <$>
    enumerate (tx_outputs (ft_transaction ftx))) with (tx_outpoints (ft_transaction ftx)).
  rewrite <-(tx_outpoints_filled _ _ Hfos), put_outputs_list.
  assert ((fun p : N * FilledOutput => OutPoint_Regular (txid (ft_transaction ftx)) p.1) <$>
    enumerate fos = ((fun p : N * FilledOutput =>
      (OutPoint_Regular (txid (ft_transaction ftx)) p.1, p.2)) <$> enumerate fos).*1) as Heq
    by (by rewrite <-list_fmap_compose).
  rewrite Heq in *. by apply delete_put_all.
Qed.

(** ** The whole transaction *)

(** The state after the inputs of a transaction were spent *)
Definition spend_inputs s tx (outs : list FilledOutput) : State :=
  set_stxos (put_spent (txid tx) (zip (enumerate (tx_inputs tx)) outs) (st_stxos s))
    (set_utxos (without (list_to_set (tx_inputs tx)) (st_utxos s)) s).

Record connects h s tx ftx fos (d : Dbs) s' : Prop := {
  con_tx : ft_transaction ftx = tx;
  con_lookup : Forall2 (fun i o => st_utxos s !! i = Some o) (tx_inputs tx) (ft_spent_utxos ftx);
  con_nodup : NoDup (tx_inputs tx);
  con_inputs : fold_res (connect_input (txid tx)) (enumerate (tx_inputs tx)) s =
                 Ok (spend_inputs s tx (ft_spent_utxos ftx));
  con_filled : filled_outputs ftx = Some fos;
  con_data : apply_tx_data (st_bitnames s) tx ftx h = Ok d;
  con_state : s' = set_bitname_dbs d
    (set_utxos (put_outputs (txid tx) fos (without (list_to_set (tx_inputs tx)) (st_utxos s)))
       (spend_inputs s tx (ft_spent_utxos ftx)));
}.

Lemma connect_transaction_Ok h s fs tx s' fs' :
  connect_transaction h (s, fs) tx = Ok (s', fs') ->
  exists ftx fos d, fs' = fs ++ [ftx] /\ connects h s tx ftx fos d s'.
Proof.
  unfold connect_transaction. intros (ftx & Hfill & Hc)%bind_Ok.
  apply fill_transaction_Ok in Hfill as [Htx Hlook]. rewrite Htx in Hc.
  apply bind_Ok in Hc as (s1 & Hin & Hc). apply bind_Ok in Hc as (fos & Hfos & Hc).
  apply ok_or_Ok in Hfos. apply bind_Ok in Hc as (d & Hd & Hc). injection Hc as <- <-.
  pose proof (connect_inputs_Ok _ _ _ _ Hin) as (Hnd & outs & Houts & Hs1).
  rewrite enumerate_snd in Hnd, Hs1. assert (outs = ft_spent_utxos ftx) as ->.
  { rewrite <-(enumerate_snd (tx_inputs tx)) in Hlook. apply Forall2_fmap_l in Hlook.
    clear -Hlook Houts. revert Hlook. generalize (ft_spent_utxos ftx).
    induction Houts as [|p o l outs Ho _ IH]; intros k Hk; inversion Hk; simplify_eq; [done|].
    f_equal; [cbn in *; congruence|by apply IH]. }
  exists ftx, fos, d. split; [done|]. fold (spend_inputs s tx (ft_spent_utxos ftx)) in Hs1.
  subst s1. split; try done.
Qed.

Lemma fill_from_stxos_connects h s tx ftx fos d s' :
  connects h s tx ftx fos d s' -> fill_transaction_from_stxos s' tx = Ok ftx.
Proof.
  intros [Htx Hlook Hnd _ _ _ ->]. unfold fill_transaction_from_stxos.
  rewrite (proj2 (map_res_Forall2 _ _ (reverse (ft_spent_utxos ftx)))).
  { cbn. rewrite reverse_involutive, <-Htx. by destruct ftx. }
  apply Forall2_reverse. apply Forall2_length in Hlook as Hlen.
  apply Forall2_same_length_lookup_2; [unfold enumerate; by rewrite length_imap|].
  intros k [vin i] o Hk Ho. cbn [st_stxos set_bitname_dbs set_utxos spend_inputs set_stxos].
  rewrite (put_spent_lookup _ _ _ vin i o).
  - cbn. by rewrite bool_decide_true.
  - rewrite fst_zip by (unfold enumerate; rewrite length_imap; lia). by rewrite enumerate_snd.
  - eapply list_elem_of_lookup_2, lookup_zip_with_Some. eauto.
Qed.

(** Disconnecting a transaction restores the state, when its outputs were fresh
    and the revert of its data restores the BitName databases. *)
Lemma disconnect_connects h s tx ftx fos d s' gs :
  connects h s tx ftx fos d s' -> disjoint_dbs s ->
  NoDup (tx_outpoints tx) -> Forall (fun o => st_utxos s !! o = None) (tx_outpoints tx) ->
  revert_tx_data d tx ftx h = Ok (st_bitnames s) ->
  disconnect_transaction h (s', gs) tx = Ok (s, gs ++ [ftx]).
Proof.
  intros Hc Hdisj Hnd Hfresh Hrev. unfold disconnect_transaction.
  rewrite (fill_from_stxos_connects _ _ _ _ _ _ _ Hc).
  destruct Hc as [<- Hlook Hnd' Hin Hfos Hd ->]. cbn [mbind result_bind].
  cbn [st_bitnames set_bitname_dbs]. rewrite Hrev. cbn [mbind result_bind].
  set (s1 := spend_inputs s (ft_transaction ftx) (ft_spent_utxos ftx)) in *.
  replace (set_bitname_dbs (st_bitnames s) (set_bitname_dbs d (set_utxos _ s1))) with
    (set_utxos (put_outputs (txid (ft_transaction ftx)) fos (without (list_to_set (tx_inputs (ft_transaction ftx))) (st_utxos s))) s1)
    by done.
  rewrite (delete_put_outputs s1 _ ftx fos Hfos Hnd).
  2:{ eapply Forall_impl; [exact Hfresh|]. cbn. intros o Ho. rewrite lookup_without.
      by case_decide. }
  cbn [mbind result_bind].
  replace (set_utxos (without _ _) s1) with s1 by done.
  rewrite <-(enumerate_snd (tx_inputs (ft_transaction ftx))).
  by rewrite (unspend_connect_inputs _ _ _ _ Hdisj Hin).
Qed.
End one_transaction.
