(* ===== verification/Ownership.v ===== *)
(** * Ownership of names

    The invariant that ties the BitName databases to the unspent outputs: every
    registered BitName and every open reservation is carried by exactly one
    unspent output. Connecting a validated block preserves it. *)

From S2P Require Import Prelude Types Transaction Sample Rollback BitNames Authorization State.
From S2P Require Import Merkle Block BlockSamples BlockSafety BlockEquiv BlockRollback.

(** ** Tokens carried by the unspent outputs *)

Section tokens.
Context {K : Type} (tok : FilledOutput -> option K).
Implicit Types (u : gmap OutPoint FilledOutput).

Definition tokens u : list K := omap tok (map_to_list u).*2.

Lemma omap_Permutation (l k : list FilledOutput) : l ≡ₚ k -> omap tok l ≡ₚ omap tok k.
Proof. by intros ->. Qed.

Lemma tokens_insert u o fo :
  u !! o = None -> tokens (<[o := fo]> u) ≡ₚ option_list (tok fo) ++ tokens u.
Proof.
  intros Ho. unfold tokens. rewrite (map_to_list_insert _ _ _ Ho). cbn.
  by destruct (tok fo).
Qed.

Lemma tokens_delete u o fo :
  u !! o = Some fo -> tokens u ≡ₚ option_list (tok fo) ++ tokens (delete o u).
Proof.
  intros Ho. rewrite <-(insert_delete_id u o fo) at 1 by done.
  apply tokens_insert, lookup_delete_eq.
Qed.

Lemma tokens_without u ks vs :
  NoDup ks -> Forall2 (fun k v => u !! k = Some v) ks vs ->
  tokens u ≡ₚ omap tok vs ++ tokens (without (list_to_set ks) u).
Proof.
  intros Hnd Hf. revert Hnd. induction Hf as [|k v ks vs Hk Hf IH]; intros Hnd.
  { cbn. by rewrite without_empty. }
  apply NoDup_cons in Hnd as [Hnin Hnd]. rewrite IH by done. cbn [list_to_set].
  rewrite without_insert_set.
  rewrite (tokens_delete (without (list_to_set ks) u) k v).
  - cbn. destruct (tok v); cbn; [|done]. by rewrite <-Permutation_middle.
  - rewrite lookup_without. case_decide; [set_solver|done].
Qed.

Lemma tokens_put_all u (l : list (OutPoint * FilledOutput)) :
  NoDup l.*1 -> Forall (fun o => u !! o = None) l.*1 ->
  tokens (foldl (fun m e => <[e.1 := e.2]> m) u l) ≡ₚ omap tok l.*2 ++ tokens u.
Proof.
  revert u. induction l as [|[o fo] l IH]; intros u Hnd Hfresh; [done|]. cbn in *.
  apply NoDup_cons in Hnd as [Hnin Hnd]. apply Forall_cons in Hfresh as [Ho Hfresh].
  rewrite IH; [|done|].
  - rewrite tokens_insert by done. destruct (tok fo); cbn; [|done].
    by rewrite <-Permutation_middle.
  - apply Forall_forall. intros o' Ho'. rewrite lookup_insert_ne by (intros ->; done).
    rewrite Forall_forall in Hfresh. by apply Hfresh.
Qed.

Lemma elem_of_tokens u k :
  k ∈ tokens u <-> exists o fo, u !! o = Some fo /\ tok fo = Some k.
Proof.
  unfold tokens. rewrite list_elem_of_omap. split.
  - intros (fo & ([o fo'] & -> & Hin)%list_elem_of_fmap & Ht).
    apply elem_of_map_to_list in Hin. eauto.
  - intros (o & fo & Ho & Ht). exists fo. split; [|done].
    apply list_elem_of_fmap. exists (o, fo). split; [done|]. by apply elem_of_map_to_list.
Qed.
End tokens.

Section tokens_put.
Context `{Externals} {K : Type} (tok : FilledOutput -> option K).

Lemma tokens_put_outputs u ftx fos :
  filled_outputs ftx = Some fos -> NoDup (tx_outpoints (ft_transaction ftx)) ->
  Forall (fun o => u !! o = None) (tx_outpoints (ft_transaction ftx)) ->
  tokens tok (put_outputs (txid (ft_transaction ftx)) fos u) ≡ₚ omap tok fos ++ tokens tok u.
Proof.
  intros Hfos. rewrite <-(tx_outpoints_filled _ _ Hfos), put_outputs_list. intros Hnd Hfresh.
  rewrite tokens_put_all.
  - rewrite <-list_fmap_compose. replace (omap tok _) with (omap tok fos); [done|].
    f_equal. symmetry. exact (enumerate_snd fos).
  - by rewrite <-list_fmap_compose.
  - by rewrite <-list_fmap_compose.
Qed.
End tokens_put.

(** ** The invariant *)

Definition bitname_tokens : gmap OutPoint FilledOutput -> list BitName :=
  tokens (fun o => filled_bitname (fo_content o)).
Definition reservation_tokens : gmap OutPoint FilledOutput -> list (Txid * Hash) :=
  tokens (fun o => filled_reservation_data (fo_content o)).

Record owned (u : gmap OutPoint FilledOutput) (d : Dbs) : Prop := {
  own_bitnames : bitname_tokens u ≡ₚ elements (dom (db_bitnames d));
  own_reservations : reservation_tokens u ≡ₚ map_to_list (db_reservations d);
}.

(** Exactly one unspent output for each registered BitName *)
Lemma owned_unique u d b :
  owned u d -> is_Some (db_bitnames d !! b) ->
  exists! o, exists fo, u !! o = Some fo /\ fo_content fo = Filled_BitName b.
Proof.
  intros [Hown _] Hb. assert (b ∈ bitname_tokens u) as Hin.
  { rewrite Hown. by apply elem_of_elements, elem_of_dom. }
  apply elem_of_tokens in Hin as (o & fo & Ho & Hfo).
  destruct fo as [ad [v|w|b'|t h] me]; cbn in Hfo; simplify_eq.
  exists o. split; [eauto|]. intros o' (fo' & Ho' & Hfo').
  destruct (decide (o = o')) as [|Hne]; [done|exfalso].
  assert (NoDup (bitname_tokens u)) as Hnd by (rewrite Hown; apply NoDup_elements).
  unfold bitname_tokens in Hnd.
  rewrite (tokens_delete _ u o _ Ho) in Hnd. cbn in Hnd. apply NoDup_cons in Hnd as [Hnin _].
  apply Hnin. apply elem_of_tokens. exists o', fo'. split; [by rewrite lookup_delete_ne|].
  by rewrite Hfo'.
Qed.

(** Only registered BitNames are carried. *)
Lemma owned_registered u d o fo b :
  owned u d -> u !! o = Some fo -> fo_content fo = Filled_BitName b ->
  is_Some (db_bitnames d !! b).
Proof.
  intros [Hown _] Ho Hfo. apply elem_of_dom, elem_of_elements. rewrite <-Hown.
  apply elem_of_tokens. exists o, fo. split; [done|]. by rewrite Hfo.
Qed.

Lemma owned_reservation u d o fo t c :
  owned u d -> u !! o = Some fo -> fo_content fo = Filled_BitNameReservation t c ->
  db_reservations d !! t = Some c.
Proof.
  intros [_ Hown] Ho Hfo. apply elem_of_map_to_list. rewrite <-Hown. apply elem_of_tokens.
  exists o, fo. split; [done|]. by rewrite Hfo.
Qed.

Section preservation.
Context `{Externals}.
Implicit Types (s : State) (d : Dbs) (tx : Transaction) (ftx : FilledTransaction).

(** What the data of a transaction does to the set of names *)
Lemma apply_tx_data_bitnames d ftx h d' :
  apply_tx_data d (ft_transaction ftx) ftx h = Ok d' ->
  dom (db_bitnames d') =
  list_to_set (option_list (registration_name_hash (ft_transaction ftx))) ∪ dom (db_bitnames d).
Proof.
  unfold apply_tx_data, registration_name_hash.
  destruct (tx_data (ft_transaction ftx)) as [[c|nh rn md|u|b]|]; cbn -[union]; intros Ha.
  - res_inv. cbn. by rewrite (left_id_L ∅ (∪)).
  - apply map_err_Ok, apply_registration_Ok in Ha as (ic & t & _ & _ & _ & ->). cbn.
    rewrite dom_insert_L. set_solver.
  - apply map_err_Ok, apply_updates_Ok in Ha as (b & data & _ & Hb & ->). cbn.
    rewrite dom_insert_lookup_L by done. by rewrite (left_id_L ∅ (∪)).
  - apply map_err_Ok, apply_icann_reservations in Ha as (_ & _ & ->).
    by rewrite (left_id_L ∅ (∪)).
  - res_inv. by rewrite (left_id_L ∅ (∪)).
Qed.

(** ... and to the reservations *)
Lemma apply_tx_data_reservations d ftx h d' :
  apply_tx_data d (ft_transaction ftx) ftx h = Ok d' ->
  match implied_reservation_commitment (ft_transaction ftx) with
  | Some ic => exists t, burned_reservation_txid ftx ic = Some t /\
      db_reservations d' = delete t (db_reservations d)
  | None => match reservation_commitment (ft_transaction ftx) with
      | Some c => db_reservations d' =
          <[txid (ft_transaction ftx) := c]> (db_reservations d)
      | None => db_reservations d' = db_reservations d
      end
  end.
Proof.
  unfold apply_tx_data.
  destruct (implied_reservation_commitment (ft_transaction ftx)) as [ic|] eqn:Hic.
  - unfold implied_reservation_commitment in Hic.
    destruct (tx_data (ft_transaction ftx)) as [[c|nh rn md|u|b]|] eqn:Hdata; try done.
    intros Ha. apply map_err_Ok, apply_registration_Ok in Ha as (ic' & t & Hic' & Ht & _ & ->).
    unfold implied_reservation_commitment in Hic'. rewrite Hdata in Hic'. simplify_eq. eauto.
  - unfold implied_reservation_commitment, reservation_commitment in *.
    destruct (tx_data (ft_transaction ftx)) as [[c|nh rn md|u|b]|]; intros Ha; try done.
    + by injection Ha as <-.
    + apply map_err_Ok, apply_updates_Ok in Ha as (b & data & _ & Hb & ->). done.
    + by apply map_err_Ok, apply_icann_reservations in Ha as (? & _ & _).
    + by injection Ha as <-.
Qed.

(** What a transaction must not clash with in the state it is connected to:
    outpoints, its txid as a reservation, the name it registers. *)
Record tx_fresh s tx : Prop := {
  fr_outpoints : Forall (fun o => st_utxos s !! o = None /\ st_stxos s !! o = None)
    (tx_outpoints tx);
  fr_reservation : db_reservations (st_bitnames s) !! txid tx = None;
  fr_name : forall b, registration_name_hash tx = Some b ->
    db_bitnames (st_bitnames s) !! b = None;
}.

Lemma fresh_utxos s tx : tx_fresh s tx -> Forall (fun o => st_utxos s !! o = None) (tx_outpoints tx).
Proof. intros [Hf _ _]. eapply Forall_impl; [exact Hf|]. by intros o [? _]. Qed.

Lemma connects_utxos_tokens {K} (tok : FilledOutput -> option K) h s ftx fos d s' :
  connects h s (ft_transaction ftx) ftx fos d s' -> tx_fresh s (ft_transaction ftx) ->
  NoDup (tx_outpoints (ft_transaction ftx)) -> exists rest,
    tokens tok (st_utxos s) ≡ₚ omap tok (ft_spent_utxos ftx) ++ rest /\
    tokens tok (st_utxos s') ≡ₚ omap tok fos ++ rest.
Proof.
  intros [_ Hlook Hnd _ Hfos _ ->] Hfr%fresh_utxos Hnd'.
  exists (tokens tok (without (list_to_set (tx_inputs (ft_transaction ftx))) (st_utxos s))).
  split; [by apply tokens_without|]. cbn.
  apply tokens_put_outputs; [done|done|]. eapply Forall_impl; [exact Hfr|]. cbn. intros o Ho.
  rewrite lookup_without. by case_decide.
Qed.

Lemma connects_filled h s ftx fos d s' :
  connects h s (ft_transaction ftx) ftx fos d s' -> filled ftx.
Proof. intros Hc. by eapply Forall2_length, con_lookup. Qed.

Lemma connects_owned h s s0 ftx fos d s' f :
  connects h s (ft_transaction ftx) ftx fos d s' -> validated s0 ftx f ->
  tx_fresh s (ft_transaction ftx) -> NoDup (tx_outpoints (ft_transaction ftx)) ->
  owned (st_utxos s) (st_bitnames s) -> owned (st_utxos s') (st_bitnames s').
Proof.
  intros Hc Hval Hfr Hnd [Hown_b Hown_r]. pose proof (connects_filled _ _ _ _ _ _ Hc) as Hfill.
  destruct (validated_filled_outputs s0 ftx f Hfill Hval) as (fos' & Hfos' & _ & Hbn).
  pose proof (con_filled _ _ _ _ _ _ _ Hc) as Hfos. rewrite Hfos in Hfos'. simplify_eq.
  pose proof (validated_reservations _ _ _ _ Hfill Hval Hfos) as Hres.
  pose proof (con_data _ _ _ _ _ _ _ Hc) as Hdata.
  assert (st_bitnames s' = d) as -> by (by rewrite (con_state _ _ _ _ _ _ _ Hc)).
  split.
  - destruct (connects_utxos_tokens (fun o => filled_bitname (fo_content o)) _ _ _ _ _ _ Hc Hfr Hnd)
      as (rest & Hs & Hs'). unfold bitname_tokens in *. rewrite Hs'.
    change (omap (fun o => filled_bitname (fo_content o)) fos') with (bitnames_of fos').
    rewrite Hbn, (apply_tx_data_bitnames _ _ _ _ Hdata).
    rewrite (Permutation_app_comm (bitnames_of _)), <-app_assoc. unfold bitnames_of.
    rewrite <-Hs, Hown_b.
    destruct (registration_name_hash (ft_transaction ftx)) as [b|] eqn:Hreg; cbn.
    + rewrite (right_id_L ∅ (∪)), elements_union_singleton; [done|].
      apply not_elem_of_dom. by apply (fr_name _ _ Hfr).
    + by rewrite (left_id_L ∅ (∪)).
  - destruct (connects_utxos_tokens (fun o => filled_reservation_data (fo_content o))
      _ _ _ _ _ _ Hc Hfr Hnd) as (rest & Hs & Hs').
    unfold reservation_tokens in *. rewrite Hs'.
    change (omap (fun o => filled_reservation_data (fo_content o)) fos')
      with (reservations_of fos').
    rewrite Hown_r in Hs.
    change (omap (fun o => filled_reservation_data (fo_content o)) (ft_spent_utxos ftx))
      with (reservations_of (ft_spent_utxos ftx)) in Hs.
    apply apply_tx_data_reservations in Hdata.
    destruct (implied_reservation_commitment (ft_transaction ftx)) as [ic|].
    + destruct Hres as (t & Ht & Hperm), Hdata as (t' & Ht' & Hd'). simplify_eq.
      rewrite Hd'. rewrite Hperm in Hs. cbn in Hs.
      assert (db_reservations (st_bitnames s) !! t = Some ic) as Hlook.
      { apply elem_of_map_to_list. rewrite Hs. apply list_elem_of_here. }
      rewrite <-(map_to_list_delete _ _ _ Hlook) in Hs. by apply Permutation_cons_inv in Hs.
    + rewrite Hres. destruct (reservation_commitment (ft_transaction ftx)) as [c|]; cbn.
      * rewrite Hdata, map_to_list_insert by apply (fr_reservation _ _ Hfr).
        rewrite Hs, <-app_assoc. cbn. by rewrite Permutation_middle.
      * by rewrite Hdata, app_nil_r, Hs.
Qed.

(** ** Sequences of transactions *)

Inductive connects_all (h : u32) : State -> list FilledTransaction -> State -> Prop :=
| connects_nil s : connects_all h s [] s
| connects_cons s ftx fos d s1 ftxs s' :
    connects h s (ft_transaction ftx) ftx fos d s1 -> connects_all h s1 ftxs s' ->
    connects_all h s (ftx :: ftxs) s'.

Lemma fold_connects_all h txs s fs s' fs' :
  fold_res (connect_transaction h) txs (s, fs) = Ok (s', fs') ->
  exists ftxs, fs' = fs ++ ftxs /\ ft_transaction <$> ftxs = txs /\ connects_all h s ftxs s'.
Proof.
  revert s fs. induction txs as [|tx txs IH]; intros s fs Hf; cbn [fold_res] in Hf.
  { injection Hf as <- <-. exists []. rewrite app_nil_r. split_and!; [done|done|constructor]. }
  apply bind_Ok in Hf as ([s1 fs1] & Hc & Hf).
  apply connect_transaction_Ok in Hc as (ftx & fos & d & -> & Hc).
  apply IH in Hf as (ftxs & -> & Htxs & Hall). exists (ftx :: ftxs).
  pose proof (con_tx _ _ _ _ _ _ _ Hc) as Htx.
  rewrite <-app_assoc. cbn. rewrite Htxs, Htx. split_and!; [done|done|].
  econstructor; [|exact Hall]. by rewrite Htx.
Qed.

Record txs_fresh s (txs : list Transaction) : Prop := {
  tf_outpoints : NoDup (concat (tx_outpoints <$> txs));
  tf_txids : NoDup (txid <$> txs);
  tf_names : NoDup (omap registration_name_hash txs);
  tf_fresh : Forall (tx_fresh s) txs;
}.

(** Where the outputs of a transaction went *)
Lemma connects_utxos_lookup h s ftx fos d s' o :
  connects h s (ft_transaction ftx) ftx fos d s' -> is_Some (st_utxos s' !! o) ->
  o ∈ tx_outpoints (ft_transaction ftx) \/
  (is_Some (st_utxos s !! o) /\ o ∉ tx_inputs (ft_transaction ftx)).
Proof.
  intros [_ _ _ _ Hfos _ ->] Ho. cbn in Ho. apply put_outputs_dom in Ho as [Ho|Ho].
  - right. rewrite lookup_without in Ho. case_decide as Hd; [by destruct Ho|].
    split; [done|]. by rewrite elem_of_list_to_set in Hd.
  - left. by rewrite tx_outpoints_filled in Ho.
Qed.
Lemma connects_stxos_lookup h s ftx fos d s' o :
  connects h s (ft_transaction ftx) ftx fos d s' -> o ∉ tx_inputs (ft_transaction ftx) ->
  st_stxos s' !! o = st_stxos s !! o.
Proof.
  intros [_ Hlook _ _ _ _ ->] Ho. cbn. apply put_spent_lookup_ne.
  apply Forall2_length in Hlook. rewrite fst_zip; [by rewrite enumerate_snd|].
  unfold enumerate. rewrite length_imap. lia.
Qed.
Lemma connects_input_utxo h s tx ftx fos d s' i :
  connects h s tx ftx fos d s' -> i ∈ tx_inputs tx -> is_Some (st_utxos s !! i).
Proof.
  intros [_ Hlook _ _ _ _ _] [k Hk]%list_elem_of_lookup.
  eapply Forall2_lookup_l in Hlook as (o & _ & Ho); [|exact Hk]. eauto.
Qed.

Lemma connects_disjoint h s ftx fos d s' :
  connects h s (ft_transaction ftx) ftx fos d s' -> tx_fresh s (ft_transaction ftx) ->
  disjoint_dbs s -> disjoint_dbs s'.
Proof.
  intros Hc Hfr Hd o Ho. destruct (connects_utxos_lookup _ _ _ _ _ _ _ Hc Ho) as [Hout|[Hin Hni]].
  - pose proof (fr_outpoints _ _ Hfr) as Hf. rewrite Forall_forall in Hf.
    destruct (Hf _ Hout) as [Hu Hx]. rewrite (connects_stxos_lookup _ _ _ _ _ _ _ Hc); [done|].
    intros Hi. eapply connects_input_utxo in Hi as [? ?]; [|exact Hc]. congruence.
  - rewrite (connects_stxos_lookup _ _ _ _ _ _ _ Hc) by done. by apply Hd.
Qed.

Lemma connects_fresh h s ftx fos d s' txs :
  connects h s (ft_transaction ftx) ftx fos d s' ->
  txs_fresh s (ft_transaction ftx :: txs) -> txs_fresh s' txs.
Proof.
  intros Hc [Hout Hid Hnm Hfr]. cbn in *. apply NoDup_app in Hout as (_ & Hdisj & Hout).
  apply NoDup_cons in Hid as [Hid Hids]. apply Forall_cons in Hfr as [_ Hfr].
  assert (NoDup (omap registration_name_hash txs)) as Hnms
    by (destruct (registration_name_hash _); [by apply NoDup_cons in Hnm as [_ ?]|done]).
  split; try done. rewrite Forall_forall in Hfr |- *. intros tx Htx.
  destruct (Hfr _ Htx) as [Ho Hr Hb]. pose proof (con_data _ _ _ _ _ _ _ Hc) as Hdata.
  assert (st_bitnames s' = d) as Hd by (by rewrite (con_state _ _ _ _ _ _ _ Hc)).
  split; rewrite ?Hd.
  - rewrite Forall_forall in Ho |- *. intros o Hin. destruct (Ho o Hin) as [Hu Hx].
    assert (o ∉ tx_inputs (ft_transaction ftx)) as Hni.
    { intros Hi. eapply connects_input_utxo in Hi as [? ?]; [|exact Hc]. congruence. }
    split; [|by rewrite (connects_stxos_lookup _ _ _ _ _ _ _ Hc)].
    apply eq_None_not_Some. intros Hs.
    destruct (connects_utxos_lookup _ _ _ _ _ _ _ Hc Hs) as [Hs'|[[? ?] _]]; [|congruence].
    apply (Hdisj o Hs'). apply list_elem_of_In, in_concat. exists (tx_outpoints tx).
    split; [|by apply list_elem_of_In]. apply list_elem_of_In. by apply list_elem_of_fmap_2.
  - apply apply_tx_data_reservations in Hdata.
    destruct (implied_reservation_commitment _); [destruct Hdata as (t & _ & ->)|
      destruct (reservation_commitment _); rewrite Hdata]; try done.
    + rewrite lookup_delete. by case_decide.
    + rewrite lookup_insert_ne; [done|]. intros Heq. apply Hid. rewrite Heq.
      by apply list_elem_of_fmap_2.
  - intros b Hreg. apply apply_tx_data_bitnames in Hdata. apply not_elem_of_dom. rewrite Hdata.
    rewrite not_elem_of_union, not_elem_of_dom. split; [|by apply Hb].
    destruct (registration_name_hash (ft_transaction ftx)) as [b'|]; cbn; [|set_solver].
    apply NoDup_cons in Hnm as [Hnin _]. rewrite (right_id_L ∅ (∪)), elem_of_singleton.
    intros ->. apply Hnin, list_elem_of_omap. eauto.
Qed.

Lemma apply_tx_data_wf d n ftx h d' :
  dbs_wf d n -> n + N.of_nat (length (option_list (registration_name_hash (ft_transaction ftx))))
    <= u32_MAX + 1 ->
  (forall b, registration_name_hash (ft_transaction ftx) = Some b -> db_bitnames d !! b = None) ->
  apply_tx_data d (ft_transaction ftx) ftx h = Ok d' ->
  dbs_wf d' (n + N.of_nat (length (option_list (registration_name_hash (ft_transaction ftx))))).
Proof.
  intros Hwf Hn Hb. unfold apply_tx_data, registration_name_hash in *.
  destruct (tx_data (ft_transaction ftx)) as [[c|nh rn md|u|b]|]; cbn in *; intros Ha;
    rewrite ?N.add_0_r.
  - injection Ha as <-. destruct Hwf. by split.
  - apply map_err_Ok in Ha. eapply apply_registration_wf; [done|lia|by apply Hb|done].
  - apply map_err_Ok in Ha. by eapply apply_updates_wf.
  - apply map_err_Ok in Ha. by eapply apply_icann_wf.
  - by injection Ha as <-.
Qed.

(** No batch of ICANN names to revert *)
Definition no_icann tx : Prop :=
  forall data, batch_icann_data tx = Some data -> bi_plain_names data = [].

(** The reservation a registration burns is the one the database holds. *)
Lemma burned_reservation_stored h s ftx fos d s' ic t :
  connects h s (ft_transaction ftx) ftx fos d s' -> owned (st_utxos s) (st_bitnames s) ->
  burned_reservation_txid ftx ic = Some t -> db_reservations (st_bitnames s) !! t = Some ic.
Proof.
  intros Hc Hown Ht. unfold burned_reservation_txid in Ht. apply head_Some_elem_of in Ht.
  apply list_elem_of_omap in Ht as ([i fo] & Hin & Hd). cbn in Hd.
  apply list_elem_of_In, filter_In in Hin as [Hin _].
  unfold spent_inputs in Hin. apply list_elem_of_In, list_elem_of_lookup in Hin as [k Hk].
  apply lookup_zip_with_Some in Hk as (? & ? & [= <- <-] & Hi & Ho).
  pose proof (con_lookup _ _ _ _ _ _ _ Hc) as Hl. eapply Forall2_lookup_lr in Hl; [|done|done].
  destruct fo as [ad [v|w|b|t' c] me]; cbn in Hd; try done.
  destruct (N.eqb_spec c ic); [|done]. simplify_eq. by eapply owned_reservation.
Qed.

Lemma connects_revert h s n ftx fos d s' :
  connects h s (ft_transaction ftx) ftx fos d s' -> tx_fresh s (ft_transaction ftx) ->
  owned (st_utxos s) (st_bitnames s) -> dbs_wf (st_bitnames s) n ->
  n + N.of_nat (length (option_list (registration_name_hash (ft_transaction ftx)))) <= u32_MAX + 1 ->
  no_icann (ft_transaction ftx) ->
  revert_tx_data d (ft_transaction ftx) ftx h = Ok (st_bitnames s).
Proof.
  intros Hc Hfr Hown Hwf Hn Hic. pose proof (con_data _ _ _ _ _ _ _ Hc) as Hdata.
  unfold apply_tx_data, revert_tx_data, no_icann, batch_icann_data in *.
  destruct (tx_data (ft_transaction ftx)) as [[c|nh rn md|u|b]|] eqn:Htd.
  - injection Hdata as <-. unfold delete_reservation, put_reservation; cbn.
    rewrite lookup_insert_eq. cbn. unfold set_reservations; cbn.
    rewrite delete_insert_id by apply (fr_reservation _ _ Hfr). by destruct (st_bitnames s).
  - apply map_err_Ok in Hdata. pose proof Hdata as (ic & t & Hi & Ht & _)%apply_registration_Ok.
    erewrite revert_apply_registration; [done|exact Hwf| | |exact Hi|exact Ht| |exact Hdata].
    + unfold registration_name_hash in Hn. rewrite Htd in Hn. cbn in Hn. lia.
    + apply (fr_name _ _ Hfr). unfold registration_name_hash. by rewrite Htd.
    + by eapply burned_reservation_stored.
  - apply map_err_Ok in Hdata. by rewrite (revert_apply_updates _ _ _ _ _ Hdata).
  - specialize (Hic b eq_refl). apply map_err_Ok in Hdata.
    unfold apply_batch_icann, revert_batch_icann in *. rewrite Hic in *. cbn in *.
    by injection Hdata as <-.
  - by injection Hdata as <-.
Qed.
End preservation.
