(* ===== verification/BlockChain.v ===== *)
(** * Whole blocks: the state invariant and the round trip

    [apply_block] preserves the invariant of the state, and [disconnect_tip]
    restores the state before it, for blocks that create no outpoint, txid or
    name twice. *)

From S2P Require Import Prelude Types Transaction Sample Rollback BitNames Authorization State.
From S2P Require Import Merkle Block BlockSamples BlockSafety BlockEquiv BlockRollback.
From S2P Require Import Ownership.

Section chain.
Context `{Externals}.
Implicit Types (s : State) (header : Header) (body : Body).

(** The invariant: [n] BitNames are registered, every name and reservation has
    one owner, no output is both spent and unspent, and the tip and the height
    are set together. *)
Record state_wf s (n : N) : Prop := {
  swf_disjoint : disjoint_dbs s;
  swf_dbs : dbs_wf (st_bitnames s) n;
  swf_owned : owned (st_utxos s) (st_bitnames s);
  swf_tip : is_Some (st_tip s) <-> is_Some (st_height s);
}.

(** The names a block registers *)
Definition registered_names body : list BitName :=
  omap registration_name_hash (bd_transactions body).

(** A block that creates nothing twice *)
Record block_fresh s header body : Prop := {
  bf_outpoints : NoDup (created header body);
  bf_new : Forall (fun o => st_utxos s !! o = None /\ st_stxos s !! o = None) (created header body);
  bf_txids : NoDup (txid <$> bd_transactions body);
  bf_reservations : Forall (fun tx => db_reservations (st_bitnames s) !! txid tx = None)
    (bd_transactions body);
  bf_names : NoDup (registered_names body);
}.

(** ** The coinbase *)

Definition coinbase_entries header (l : list (u32 * Output)) (fos : list FilledOutput)
  : list (OutPoint * FilledOutput) :=
  zip ((fun p => OutPoint_Coinbase (compute_coinbase_txid header) p.1) <$> l) fos.

Lemma connect_coinbase_Ok header l s s1 :
  fold_res (connect_coinbase_output header) l s = Ok s1 -> exists fos,
    Forall2 (fun p fo => fill_coinbase_output p.2 = Ok fo) l fos /\
    s1 = set_utxos (foldl (fun m e => <[e.1 := e.2]> m) (st_utxos s) (coinbase_entries header l fos)) s.
Proof.
  revert s. induction l as [|[vout o] l IH]; intros s Hf; cbn [fold_res] in Hf.
  { injection Hf as <-. exists []. split; [done|]. by destruct s. }
  apply bind_Ok in Hf as (s0 & Hc & Hf). unfold connect_coinbase_output in Hc.
  apply bind_Ok in Hc as (fo & Hfo & Hc). injection Hc as <-.
  apply IH in Hf as (fos & Hf2 & ->). exists (fo :: fos). split; [by constructor|]. done.
Qed.

Lemma fill_coinbase_no_token o fo :
  fill_coinbase_output o = Ok fo ->
  filled_bitname (fo_content fo) = None /\ filled_reservation_data (fo_content fo) = None.
Proof.
  unfold fill_coinbase_output. destruct (out_content o); cbn; intros Hf; by simplify_eq.
Qed.

Lemma foldl_insert_lookup (u : gmap OutPoint FilledOutput) l o :
  is_Some (foldl (fun m e => <[e.1 := e.2]> m) u l !! o) -> is_Some (u !! o) \/ o ∈ l.*1.
Proof.
  revert u. induction l as [|[k v] l IH]; intros u Hs; [by left|]. cbn in *.
  apply IH in Hs as [Hs|?]; [|right; by apply list_elem_of_further].
  rewrite lookup_insert_is_Some in Hs. destruct Hs as [->|[_ ?]]; [|by left].
  right. apply list_elem_of_here.
Qed.

Section with_coinbase.
Context s header body s1 (Hfresh : block_fresh s header body).
Context (Hcb : fold_res (connect_coinbase_output header)
  (enumerate (cb_outputs (bd_coinbase body))) s = Ok s1).

Lemma coinbase_state : exists l,
  l.*1 = coinbase_outpoints header body /\
  Forall (fun e => filled_bitname (fo_content e.2) = None /\
    filled_reservation_data (fo_content e.2) = None) l /\
  s1 = set_utxos (foldl (fun m e => <[e.1 := e.2]> m) (st_utxos s) l) s.
Proof.
  apply connect_coinbase_Ok in Hcb as (fos & Hf2 & ->).
  exists (coinbase_entries header (enumerate (cb_outputs (bd_coinbase body))) fos).
  apply Forall2_length in Hf2 as Hlen. split_and!; [|  |done].
  - unfold coinbase_entries. rewrite fst_zip; [done|]. rewrite length_fmap. lia.
  - apply Forall_lookup. intros k [o fo] Hk. apply lookup_zip_with_Some in Hk
      as (? & ? & [= <- <-] & _ & Hfo).
    eapply Forall2_lookup_r in Hf2 as (p & _ & Hp); [|exact Hfo]. by eapply fill_coinbase_no_token.
Qed.

Lemma coinbase_outpoints_fresh :
  NoDup (coinbase_outpoints header body) /\
  Forall (fun o => st_utxos s !! o = None) (coinbase_outpoints header body).
Proof.
  destruct Hfresh as [Hnd Hnew _ _ _]. unfold created in *.
  apply NoDup_app in Hnd as (? & _ & _). apply Forall_app in Hnew as [Hnew _].
  split; [done|]. eapply Forall_impl; [exact Hnew|]. by intros o [? _].
Qed.

Lemma coinbase_tokens {K} (tok : FilledOutput -> option K) :
  (forall fo, filled_bitname (fo_content fo) = None ->
    filled_reservation_data (fo_content fo) = None -> tok fo = None) ->
  tokens tok (st_utxos s1) ≡ₚ tokens tok (st_utxos s).
Proof.
  intros Htok. destruct coinbase_state as (l & Hl & Hnone & ->). cbn.
  destruct coinbase_outpoints_fresh as [Hnd Hnew]. rewrite <-Hl in Hnd, Hnew.
  rewrite tokens_put_all by done. replace (omap tok l.*2) with (@nil K); [done|].
  clear -Hnone Htok. induction Hnone as [|e l [H1 H2] _ IH]; [done|]. cbn.
  by rewrite (Htok _ H1 H2).
Qed.

Lemma coinbase_wf n : state_wf s n -> state_wf s1 n.
Proof.
  intros [Hd Hdb Hown Htip].
  destruct coinbase_state as (l & Hl & Hnone & Hs1). split.
  - intros o Ho. rewrite Hs1 in Ho |- *. cbn in *. apply foldl_insert_lookup in Ho as [?|Ho].
    + by apply Hd.
    + rewrite Hl in Ho. destruct Hfresh as [_ Hnew _ _ _]. unfold created in Hnew.
      apply Forall_app in Hnew as [Hnew _]. rewrite Forall_forall in Hnew. by apply Hnew.
  - by rewrite Hs1.
  - assert (st_bitnames s1 = st_bitnames s) as Hb by (by rewrite Hs1).
    destruct Hown as [Hb1 Hr1]. split; rewrite Hb.
    + rewrite <-Hb1. by apply coinbase_tokens.
    + rewrite <-Hr1. apply coinbase_tokens. by intros fo _ ->.
  - by rewrite Hs1.
Qed.

Lemma coinbase_txs_fresh :
  Forall (fun tx => forall b, registration_name_hash tx = Some b ->
    db_bitnames (st_bitnames s) !! b = None) (bd_transactions body) ->
  txs_fresh s1 (bd_transactions body).
Proof.
  intros Hnames. destruct Hfresh as [Hnd Hnew Hid Hres Hnm]. unfold created in *.
  apply NoDup_app in Hnd as (_ & Hdisj & Hnd). apply Forall_app in Hnew as [_ Hnew].
  destruct coinbase_state as (l & Hl & _ & Hs1).
  split; [done|done|done|]. rewrite Forall_forall in Hnames, Hres |- *. intros tx Htx.
  split; [|by rewrite Hs1; apply Hres|by rewrite Hs1; apply Hnames].
  apply Forall_forall. intros o Ho.
  assert (o ∈ concat (tx_outpoints <$> bd_transactions body)) as Hin.
  { apply list_elem_of_In, in_concat. exists (tx_outpoints tx).
    split; apply list_elem_of_In; [by apply list_elem_of_fmap_2|done]. }
  rewrite Forall_forall in Hnew. destruct (Hnew o Hin) as [Hu Hx]. rewrite Hs1. cbn.
  split; [|done]. apply eq_None_not_Some. intros [[? ?]|Hc]%foldl_insert_lookup; [congruence|].
  rewrite Hl in Hc. by apply (Hdisj o Hc).
Qed.

Lemma disconnect_coinbase :
  fold_res (fun s p => delete_utxo s (OutPoint_Coinbase (compute_coinbase_txid header) p.1))
    (reverse (enumerate (cb_outputs (bd_coinbase body)))) s1 = Ok s.
Proof.
  destruct coinbase_state as (l & Hl & _ & ->).
  destruct coinbase_outpoints_fresh as [Hnd Hnew].
  rewrite <-(fold_res_fmap delete_utxo
    (fun p => OutPoint_Coinbase (compute_coinbase_txid header) p.1)), fmap_reverse.
  fold (coinbase_outpoints header body). rewrite <-Hl in *.
  rewrite delete_put_all by done. by destruct s.
Qed.
End with_coinbase.

(** ** Sequences of transactions *)

Lemma names_length ftx ftxs :
  N.of_nat (length (omap registration_name_hash (ft_transaction <$> ftx :: ftxs))) =
  N.of_nat (length (option_list (registration_name_hash (ft_transaction ftx)))) +
  N.of_nat (length (omap registration_name_hash (ft_transaction <$> ftxs))).
Proof. cbn. destruct (registration_name_hash _); cbn; lia. Qed.

Lemma connects_wf h s n ftx fos d s' s0 f :
  connects h s (ft_transaction ftx) ftx fos d s' -> validated s0 ftx f ->
  tx_fresh s (ft_transaction ftx) -> NoDup (tx_outpoints (ft_transaction ftx)) ->
  n + N.of_nat (length (option_list (registration_name_hash (ft_transaction ftx)))) <= u32_MAX + 1 ->
  state_wf s n ->
  state_wf s' (n + N.of_nat (length (option_list (registration_name_hash (ft_transaction ftx))))).
Proof.
  intros Hc Hval Hfr Hnd Hn [Hd Hdb Hown Htip]. split.
  - by eapply connects_disjoint.
  - pose proof (con_data _ _ _ _ _ _ _ Hc) as Hdata.
    rewrite (con_state _ _ _ _ _ _ _ Hc). cbn.
    eapply apply_tx_data_wf; [done|done|by apply (fr_name _ _ Hfr)|exact Hdata].
  - by eapply connects_owned.
  - by rewrite (con_state _ _ _ _ _ _ _ Hc).
Qed.

Lemma txs_fresh_head s tx txs :
  txs_fresh s (tx :: txs) -> tx_fresh s tx /\ NoDup (tx_outpoints tx).
Proof.
  intros [Ho _ _ Hf]. cbn in Ho. apply NoDup_app in Ho as (? & _ & _).
  by apply Forall_cons in Hf as [? _].
Qed.

Lemma connects_all_wf h s0 fees ftxs : forall s n s',
  connects_all h s ftxs s' -> Forall2 (validated s0) ftxs fees ->
  txs_fresh s (ft_transaction <$> ftxs) ->
  n + N.of_nat (length (omap registration_name_hash (ft_transaction <$> ftxs))) <= u32_MAX + 1 ->
  state_wf s n ->
  state_wf s' (n + N.of_nat (length (omap registration_name_hash (ft_transaction <$> ftxs)))).
Proof.
  revert fees. induction ftxs as [|ftx ftxs IH]; intros fees s n s' Hall Hval Hfr Hn Hwf.
  { inversion Hall; subst. cbn. by rewrite N.add_0_r. }
  inversion Hall as [|? ? fos d s1 ? ? Hc Hall']; subst.
  inversion Hval as [|? f ? fees' Hv Hval']; subst.
  rewrite names_length in Hn |- *. rewrite N.add_assoc.
  destruct (txs_fresh_head _ _ _ Hfr) as [Hf1 Hnd].
  eapply IH; [done|done|by eapply connects_fresh|lia|].
  eapply connects_wf; [done|done|done|done|lia|done].
Qed.

Lemma disconnect_connects_all h s0 fees ftxs : forall s n s' gs,
  connects_all h s ftxs s' -> Forall2 (validated s0) ftxs fees ->
  txs_fresh s (ft_transaction <$> ftxs) -> Forall no_icann (ft_transaction <$> ftxs) ->
  n + N.of_nat (length (omap registration_name_hash (ft_transaction <$> ftxs))) <= u32_MAX + 1 ->
  state_wf s n ->
  fold_res (disconnect_transaction h) (reverse (ft_transaction <$> ftxs)) (s', gs) =
  Ok (s, gs ++ reverse ftxs).
Proof.
  revert fees. induction ftxs as [|ftx ftxs IH]; intros fees s n s' gs Hall Hval Hfr Hic Hn Hwf.
  { inversion Hall; subst. cbn. by rewrite app_nil_r. }
  inversion Hall as [|? ? fos d s1 ? ? Hc Hall']; subst.
  inversion Hval as [|? f ? fees' Hv Hval']; subst.
  rewrite names_length in Hn. destruct (txs_fresh_head _ _ _ Hfr) as [Hf1 Hnd].
  cbn [fmap list_fmap] in Hic. apply Forall_cons in Hic as [Hic1 Hic].
  cbn [fmap list_fmap]. rewrite reverse_cons, fold_res_snoc.
  erewrite IH; [|exact Hall'|exact Hval'|by eapply connects_fresh|done| |].
  - cbn [mbind result_bind]. destruct Hwf as [Hd Hdb Hown _].
    erewrite disconnect_connects; [|exact Hc|done|done|by apply fresh_utxos|].
    + by rewrite reverse_cons, app_assoc.
    + eapply connects_revert; [exact Hc|done|done|exact Hdb|lia|done].
  - instantiate (1 := n + N.of_nat (length (option_list
      (registration_name_hash (ft_transaction ftx))))). lia.
  - eapply connects_wf; [done|done|done|done|lia|done].
Qed.

(** ** Accepted blocks *)

Lemma accepted_validated s header body pv :
  accepted s header body pv ->
  exists fees, Forall2 (validated s) (pv_filled_transactions pv) fees.
Proof.
  intros Ha. destruct (sum_fees_Ok _ _ _ _ (acc_fees _ _ _ _ Ha)) as (fees & Hv & _). eauto.
Qed.

Lemma accepted_names s header body pv :
  accepted s header body pv ->
  Forall (fun tx => forall b, registration_name_hash tx = Some b ->
    db_bitnames (st_bitnames s) !! b = None) (bd_transactions body).
Proof.
  intros Ha. destruct (accepted_validated _ _ _ _ Ha) as (fees & Hv).
  destruct (accepted_transactions _ _ _ _ Ha) as [<- _]. apply Forall_fmap.
  eapply Forall2_Forall_l; [exact Hv|]. apply Forall_forall. intros f _ ftx Hval b Hb.
  destruct Hval as [_ Hbn _ _ _]. apply validate_bitnames_balance in Hbn as (_ & Hu & _).
  by apply Hu.
Qed.

(** A connected batch of ICANN names is empty. *)
Lemma accepted_connects_no_icann h s s1 s2 header body pv ftxs :
  batch_verify_spec -> accepted s header body pv ->
  (forall ftx, ftx ∈ ftxs -> ftx ∈ pv_filled_transactions pv) ->
  connects_all h s1 ftxs s2 -> Forall no_icann (ft_transaction <$> ftxs).
Proof.
  intros Hspec Ha Hsub Hall. induction Hall as [s'|s' ftx fos d s1 ftxs s2 Hc Hall IH]; [done|].
  cbn. constructor; [|apply IH; intros; apply Hsub; by apply list_elem_of_further].
  intros data Hdata. destruct (decide (bi_plain_names data = [])) as [|Hne]; [done|exfalso].
  pose proof (con_data _ _ _ _ _ _ _ Hc) as Hd. unfold apply_tx_data in Hd.
  unfold batch_icann_data in Hdata.
  destruct (tx_data (ft_transaction ftx)) as [[]|] eqn:Htd; simplify_eq.
  apply map_err_Ok in Hd. eapply accepted_no_icann; [exact Hspec|exact Ha| | |exact Hne|exact Hd].
  - apply Hsub, list_elem_of_here.
  - unfold batch_icann_data. by rewrite Htd.
Qed.

(** The tip and the height play no part in connecting the transactions. *)
Lemma connect_transaction_tip t th h s fs tx :
  connect_transaction h (set_tip t th s, fs) tx =
  (fun p : State * list FilledTransaction => (set_tip t th p.1, p.2)) <$>
    connect_transaction h (s, fs) tx.
Proof.
  unfold connect_transaction.
  change (fill_transaction (set_tip t th s) tx) with (fill_transaction s tx).
  destruct (fill_transaction s tx) as [ftx| |]; [|done|done]. cbn [mbind result_bind].
  rewrite (fold_res_frame (connect_input (txid (ft_transaction ftx)))
    (connect_input (txid (ft_transaction ftx))) (set_tip t th)).
  2:{ intros s0 [vin i]. cbn. by destruct (st_utxos s0 !! i). }
  destruct (fold_res _ _ s) as [s0| |]; [|done|done]. cbn [fmap result_fmap mbind result_bind].
  destruct (filled_outputs ftx) as [fos|]; [|done]. cbn [ok_or mbind result_bind].
  cbn [st_bitnames set_tip set_utxos]. by destruct (apply_tx_data _ _ _ _).
Qed.

Lemma fold_connect_tip t th h txs s s' fs :
  fold_res (connect_transaction h) txs (s, []) = Ok (s', fs) ->
  fold_res (connect_transaction h) txs (set_tip t th s, []) = Ok (set_tip t th s', fs).
Proof.
  intros Hf. set (g := fun p : State * list FilledTransaction => (set_tip t th p.1, p.2)).
  change (set_tip t th s, []) with (g (s, @nil FilledTransaction)).
  rewrite (fold_res_frame (connect_transaction h) (connect_transaction h) g).
  - by rewrite Hf.
  - intros [s0 fs0] tx. apply connect_transaction_tip.
Qed.

Lemma state_wf_tip s n t th : state_wf s n -> state_wf (set_tip (Some t) (Some th) s) n.
Proof. intros [Hd Hdb Hown _]. split; [done|done|done|]. cbn. split; eauto. Qed.
Lemma block_fresh_tip s header body t th :
  block_fresh s header body -> block_fresh (set_tip t th s) header body.
Proof. by intros []. Qed.
Lemma txs_fresh_tip s txs t th : txs_fresh s txs -> txs_fresh (set_tip t th s) txs.
Proof.
  intros [Ho Hi Hn Hf]. split; [done|done|done|].
  eapply Forall_impl; [exact Hf|]. by intros tx [].
Qed.
Lemma connect_coinbase_tip header l s s1 t th :
  fold_res (connect_coinbase_output header) l s = Ok s1 ->
  fold_res (connect_coinbase_output header) l (set_tip t th s) = Ok (set_tip t th s1).
Proof.
  intros Hf. rewrite (fold_res_frame (connect_coinbase_output header)
    (connect_coinbase_output header) (set_tip t th)); [by rewrite Hf|].
  intros s0 [vout o]. cbn. by destruct (fill_coinbase_output o).
Qed.

(** The last step of [disconnect_tip]: the tip and the height of before *)
Lemma restore_tip s n header t (height : u32) :
  state_wf s n -> hd_prev_side_hash header = st_tip s -> height = next_height s ->
  (forall h, st_height s = Some h -> h < u32_MAX) ->
  match hd_prev_side_hash header, height with
  | None, 0 => Ok (set_tip None None (set_tip t (Some height) s))
  | None, _ | _, 0 => Err Error_NoTip
  | Some prev_side_hash, height =>
      Ok (set_tip (Some prev_side_hash) (Some (u32_sub height 1)) (set_tip t (Some height) s))
  end = Ok s.
Proof.
  intros [_ _ _ Htip] -> -> Hh. unfold next_height, try_get_height.
  destruct s as [[p|] [h|]]; cbn in *.
  - specialize (Hh h eq_refl). rewrite u32_add_small by lia.
    destruct (h + 1) as [|q] eqn:Hq; [lia|]. rewrite <-Hq, u32_sub_small by lia.
    rewrite N.add_sub. done.
  - destruct Htip as [Ht _]. destruct Ht; [eauto|done].
  - destruct Htip as [_ Ht]. destruct Ht; [eauto|done].
  - done.
Qed.

(** Everything the two theorems below need of an applied block *)
Lemma apply_block_steps s n header body s' :
  borsh_outpoint_spec -> batch_verify_spec ->
  state_wf s n -> block_fresh s header body -> apply_block s header body = Ok s' ->
  exists s1 s2 pv fees,
    accepted s header body pv /\
    fold_res (connect_coinbase_output header) (enumerate (cb_outputs (bd_coinbase body))) s = Ok s1 /\
    fold_res (connect_transaction (next_height s)) (bd_transactions body) (s1, []) =
      Ok (s2, pv_filled_transactions pv) /\
    connects_all (next_height s) s1 (pv_filled_transactions pv) s2 /\
    ft_transaction <$> pv_filled_transactions pv = bd_transactions body /\
    Forall2 (validated s) (pv_filled_transactions pv) fees /\
    txs_fresh s1 (bd_transactions body) /\ Forall no_icann (bd_transactions body) /\
    state_wf s1 n /\
    s' = set_tip (Some (header_hash header)) (Some (next_height s)) s2.
Proof.
  intros Hinj Hspec Hwf Hfresh (pv & root & Hp & Hc)%apply_block_Ok.
  apply prevalidate_accepted in Hp as Ha.
  assert (Forall (fun o => st_utxos s !! o = None) (created header body)) as Hnew.
  { eapply Forall_impl; [apply (bf_new _ _ _ Hfresh)|]. by intros o [? _]. }
  destruct (connect_accepted _ _ _ _ _ _ Hinj Ha Hnew Hc) as (s1 & s2 & Hcb & Htxs & ->).
  pose proof (fold_connects_all _ _ _ _ _ _ Htxs) as (ftxs & Heq & Htx & Hall).
  cbn in Heq. subst ftxs.
  destruct (accepted_validated _ _ _ _ Ha) as (fees & Hv).
  exists s1, s2, pv, fees. split_and!; try done.
  - eapply coinbase_txs_fresh; [done|done|]. by eapply accepted_names.
  - rewrite <-Htx. by eapply accepted_connects_no_icann.
  - by eapply coinbase_wf.
Qed.
End chain.

(** ** Properties *)

(** [apply_block] preserves the invariant of the state: sequence numbers stay
    dense, every registered BitName and every open reservation is carried by
    exactly one unspent output, and no output is both spent and unspent; for a
    block that creates no outpoint, txid or name twice. *)
Theorem apply_block_preserves_wf `{Externals} (s s' : State) (n : N) (header : Header)
    (body : Body) :
  borsh_outpoint_spec -> batch_verify_spec ->
  state_wf s n -> block_fresh s header body ->
  n + N.of_nat (length (registered_names body)) <= u32_MAX + 1 ->
  apply_block s header body = Ok s' ->
  state_wf s' (n + N.of_nat (length (registered_names body))).
Proof.
  intros Hinj Hspec Hwf Hfresh Hn Hap.
  destruct (apply_block_steps _ _ _ _ _ Hinj Hspec Hwf Hfresh Hap)
    as (s1 & s2 & pv & fees & _ & _ & _ & Hall & Htx & Hv & Hfr & _ & Hwf1 & ->).
  unfold registered_names in *. rewrite <-Htx in *.
  destruct (connects_all_wf _ _ _ _ _ _ _ Hall Hv Hfr Hn Hwf1) as [Hd Hdb Hown _].
  split; [done|done|done|]. cbn. split; eauto.
Qed.

Lemma block_undo `{Externals} (s s' : State) (n : N) (header : Header)
    (body : Body) :
  borsh_outpoint_spec -> batch_verify_spec ->
  state_wf s n -> block_fresh s header body ->
  n + N.of_nat (length (registered_names body)) <= u32_MAX + 1 ->
  (forall h, st_height s = Some h -> h < u32_MAX) ->
  apply_block s header body = Ok s' -> disconnect_tip s' header body = Ok s.
Proof.
  intros Hinj Hspec Hwf Hfresh Hn Hh Hap.
  destruct (apply_block_steps _ _ _ _ _ Hinj Hspec Hwf Hfresh Hap)
    as (s1 & s2 & pv & fees & Ha & Hcb & Htxs & Hall & Htx & Hv & Hfr & Hic & Hwf1 & ->).
  set (tip := Some (header_hash header)). set (th := Some (next_height s)).
  pose proof (fold_connects_all _ _ _ _ _ _ (fold_connect_tip tip th _ _ _ _ _ Htxs))
    as (ftxs & Heq & _ & Hall'). cbn in Heq. subst ftxs.
  unfold disconnect_tip. cbn [st_tip set_tip try_get_height st_height].
  cbn [tip ok_or mbind result_bind]. rewrite N.eqb_refl. cbn [ensure th expect mbind result_bind].
  unfold registered_names in *. rewrite <-Htx in Hfr, Hic, Hn |- *.
  rewrite (disconnect_connects_all _ _ _ _ _ _ _ _ Hall' Hv (txs_fresh_tip _ _ _ _ Hfr) Hic Hn
    (state_wf_tip _ _ _ _ Hwf1)). cbn [mbind result_bind app].
  rewrite reverse_involutive.
  rewrite (disconnect_coinbase (set_tip tip th s) header body);
    [|by apply block_fresh_tip|by apply connect_coinbase_tip].
  cbn [mbind result_bind]. rewrite (acc_root _ _ _ _ Ha). cbn [mbind result_bind].
  rewrite (acc_header _ _ _ _ Ha), N.eqb_refl. cbn [ensure mbind result_bind].
  exact (restore_tip s n header tip _ Hwf (acc_tip _ _ _ _ Ha) eq_refl Hh).
Qed.

(** C3 Round trip: on a well-formed state, disconnecting the block that [apply_block] connected restores the
    state exactly, all databases included, when the block is fresh: its outpoints are distinct and neither
    unspent nor spent before, its txids are distinct and no reservation is stored under them, and it registers
    no name twice; and when sequence numbers and the height stay within [u32]. *)
Theorem disconnect_tip_apply_block `{Externals} (s s' : State) (n : N) (header : Header)
    (body : Body) :
  borsh_outpoint_spec -> batch_verify_spec ->
  state_wf s n -> block_fresh s header body ->
  n + N.of_nat (length (registered_names body)) <= u32_MAX + 1 ->
  (forall h, st_height s = Some h -> h < u32_MAX) ->
  apply_block s header body = Ok s' -> disconnect_tip s' header body = Ok s.
Proof. apply block_undo. Qed.

Module ChainSamples.
Lemma wf : state_wf BlockSamples.state 1.
Proof.
  split.
  - intros o _. apply lookup_empty.
  - by apply dbs_wf_singleton.
  - split; vm_compute; reflexivity.
  - split; intros [? ?]; done.
Qed.
Lemma fresh : @block_fresh Sample.externals BlockSamples.state BlockSamples.header
  BlockSamples.body.
Proof. split; apply (bool_decide_unpack _); vm_compute; exact I. Qed.
Lemma twice_wf : state_wf BlockSamples.twice_state 0.
Proof.
  split.
  - intros o _. apply lookup_empty.
  - apply dbs_wf_empty_names; reflexivity.
  - split; vm_compute; reflexivity.
  - split; intros [? ?]; done.
Qed.
End ChainSamples.

Lemma apply_block_preserves_wf_witness :
  exists s', @apply_block Sample.externals BlockSamples.state BlockSamples.header
      BlockSamples.body = Ok s' /\ state_wf s' 2.
Proof.
  destruct BlockSamples.applied as [s' Hs']. exists s'. split; [exact Hs'|].
  refine (@apply_block_preserves_wf Sample.externals _ s' 1 _ BlockSamples.body
    Sample.borsh_outpoint_inj Sample.batch_verify ChainSamples.wf ChainSamples.fresh _ Hs').
  vm_compute. discriminate.
Defined.

Lemma disconnect_tip_apply_block_witness :
  exists s', @apply_block Sample.externals BlockSamples.state BlockSamples.header
      BlockSamples.body = Ok s' /\
    @disconnect_tip Sample.externals s' BlockSamples.header BlockSamples.body =
      Ok BlockSamples.state.
Proof.
  destruct BlockSamples.applied as [s' Hs']. exists s'. split; [exact Hs'|].
  refine (@disconnect_tip_apply_block Sample.externals _ s' 1 _ BlockSamples.body
    Sample.borsh_outpoint_inj Sample.batch_verify ChainSamples.wf ChainSamples.fresh _ _ Hs').
  - vm_compute. discriminate.
  - discriminate.
Defined.

(** [apply_block] never connects a batch ICANN registration that declares a
    name: the count of authorizations it requires leaves no input exempt, and the
    registration applies only if it exempts one. *)
Theorem apply_block_no_batch_icann `{Externals} (s s' : State) (header : Header) (body : Body)
    (tx : Transaction) (data : BatchIcannRegistrationData) :
  borsh_outpoint_spec -> batch_verify_spec ->
  Forall (fun o => st_utxos s !! o = None) (created header body) ->
  apply_block s header body = Ok s' -> tx ∈ bd_transactions body ->
  batch_icann_data tx = Some data -> bi_plain_names data = [].
Proof.
  intros Hinj Hspec Hnew (pv & root & Hp & Hc)%apply_block_Ok Hin Hdata.
  apply prevalidate_accepted in Hp as Ha.
  destruct (connect_accepted _ _ _ _ _ _ Hinj Ha Hnew Hc) as (s1 & s2 & _ & Htxs & _).
  apply fold_connects_all in Htxs as (ftxs & Heq & Htx & Hall). cbn in Heq. subst ftxs.
  eapply accepted_connects_no_icann in Hall; [|done|exact Ha|done].
  rewrite Htx, Forall_forall in Hall. by apply (Hall tx Hin).
Qed.

Lemma apply_block_no_batch_icann_witness :
  exists s' tx data, @apply_block Sample.externals BlockSamples.state
      (BlockSamples.header_of BlockSamples.state BlockSamples.icann_body)
      BlockSamples.icann_body = Ok s' /\
    tx ∈ bd_transactions BlockSamples.icann_body /\ batch_icann_data tx = Some data /\
    bi_plain_names data = [].
Proof.
  destruct BlockSamples.icann_applied as [s' Hs'].
  exists s', BlockSamples.icann, BlockSamples.icann_data.
  assert (BlockSamples.icann ∈ bd_transactions BlockSamples.icann_body) as Hin
    by apply list_elem_of_here.
  split; [exact Hs'|]. split; [exact Hin|]. split; [reflexivity|].
  refine (@apply_block_no_batch_icann Sample.externals _ s' _ _ _ _ Sample.borsh_outpoint_inj
    Sample.batch_verify _ Hs' Hin eq_refl).
  apply (bool_decide_unpack _). vm_compute. exact I.
Defined.

(** Registering a name twice in one block: [apply_block] checks a registration
    against the state before the block only, so a block with two registrations of
    one name, on a well-formed state, is accepted. Two unspent outputs then carry
    the BitName, and the block can no longer be disconnected. *)
Theorem apply_block_registers_twice :
  exists s s' (header : Header) (body : Body) (o1 o2 : OutPoint) (b : BitName),
    state_wf s 0 /\ @apply_block Sample.externals s header body = Ok s' /\ o1 <> o2 /\
    fo_content <$> (st_utxos s' !! o1) = Some (Filled_BitName b) /\
    fo_content <$> (st_utxos s' !! o2) = Some (Filled_BitName b) /\
    @disconnect_tip Sample.externals s' header body = Err (Error_BitName (Missing b)).
Proof.
  exists BlockSamples.twice_state.
  assert (exists s', @apply_block Sample.externals BlockSamples.twice_state
    (BlockSamples.header_of BlockSamples.twice_state BlockSamples.twice_body)
    BlockSamples.twice_body = Ok s') as [s' Hs'] by apply BlockSamples.twice_applied.
  exists s', (BlockSamples.header_of BlockSamples.twice_state BlockSamples.twice_body),
    BlockSamples.twice_body,
    (OutPoint_Regular (@txid Sample.externals (BlockSamples.twice 3 1)) 0),
    (OutPoint_Regular (@txid Sample.externals (BlockSamples.twice 4 2)) 0), 6.
  split; [exact ChainSamples.twice_wf|]. split; [exact Hs'|]. split; [vm_compute; discriminate|].
  pose proof BlockSamples.twice_outputs as Hout. rewrite Hs' in Hout. exact Hout.
Qed.
