(* ===== verification/WithdrawalBundle.v ===== *)
(** * Withdrawal bundles

    [WithdrawalBundle] of [src/types/lib.rs] and [collect_withdrawal_bundle] of
    [src/lib/state/two_way_peg_data.rs]: the size and weight prediction, the
    construction of a bundle transaction, and the collection of the pending
    withdrawals of the state into one bundle. *)

From S2P Require Import Prelude Types Transaction Sample Rollback BitNames Authorization State.

Section bundle.
Context `{Externals}.

(** ** Sizes; [None] on overflow or when the weight is above the limit *)

(** [bitcoin::Amount::SIZE], [absolute::LockTime::SIZE], [Weight::WITNESS_SCALE_FACTOR] *)
Definition AMOUNT_SIZE : N := 8.
Definition LOCKTIME_SIZE : N := 4.
Definition WITNESS_SCALE_FACTOR : N := 4.

Definition txout_size (spk_size : u32) : option u32 :=
  size ← u32_checked_add AMOUNT_SIZE (varint_size spk_size);
  u32_checked_add size spk_size.

Definition txin_base_size (script_sig_size : u32) : option u32 :=
  res ← u32_checked_add (36 + varint_size script_sig_size) script_sig_size;
  u32_checked_add res 4.

Definition tx_base_size (n_inputs sum_txin_base_sizes n_outputs sum_txout_sizes : u32)
  : option u32 :=
  vin_base_size ← u32_checked_add (varint_size n_inputs) sum_txin_base_sizes;
  res ← u32_checked_add 4 vin_base_size;
  vout_size ← u32_checked_add (varint_size n_outputs) sum_txout_sizes;
  res ← u32_checked_add res vout_size;
  u32_checked_add res LOCKTIME_SIZE.

(** The treasury input, the commitment to the inputs and the commitment to the
    fee are added to what the caller counts. *)
Definition predict_weight (n_outputs sum_txout_sizes : u32) : option u64 :=
  sum_txin_base_sizes ← txin_base_size 0;
  n_outputs ← u32_checked_add n_outputs 2;
  inputs_commitment_txout_size ← txout_size 34;
  mainchain_fee_commitment_txout_size ← txout_size 10;
  sum_txout_sizes ← u32_checked_add
    (u32_add inputs_commitment_txout_size mainchain_fee_commitment_txout_size) sum_txout_sizes;
  tx_base_size ← tx_base_size 1 sum_txin_base_sizes n_outputs sum_txout_sizes;
  tx_weight_wu ← u64_checked_mul tx_base_size WITNESS_SCALE_FACTOR;
  if tx_weight_wu <=? MAX_STANDARD_TX_WEIGHT then Some tx_weight_wu else None.

(** [fee.to_sat().to_be_bytes()] *)
Definition be_bytes_u64 (n : u64) : bytes :=
  (fun i => n / 256 ^ N.of_nat (7 - i) mod 256) <$> seq 0 8.

Definition withdrawal_bundle_new (block_height : u32) (fee : Amount)
    (spend_utxos : list (OutPoint * FilledOutput)) (bundle_outputs : list TxOut)
  : result WithdrawalBundleError WithdrawalBundle :=
  let inputs := spend_utxos.*1 ++ [OutPoint_Regular 0 block_height] in
  let commitment := blake3_hash (borsh_outpoints inputs) in
  let inputs_commitment_txout := mkTxOut 0 (op_return_script (hash_bytes commitment)) in
  let mainchain_fee_txout := mkTxOut 0 (op_return_script (be_bytes_u64 fee)) in
  let tx := mkMainTx 2 0 [] ([mainchain_fee_txout; inputs_commitment_txout] ++ bundle_outputs) in
  _ ← ensure (main_tx_weight tx <=? MAX_STANDARD_TX_WEIGHT)
        (WithdrawalBundle_BundleTooHeavy (main_tx_weight tx) MAX_STANDARD_TX_WEIGHT);
  Ok (mkWithdrawalBundle spend_utxos tx).

Definition compute_m6id (b : WithdrawalBundle) : M6id := main_tx_txid (wb_tx b).

(** ** Collecting withdrawals *)

(** The [entry(..).or_insert(..)] and the additions of one output *)
Definition aggregate_output (m : gmap MainAddress AggregatedWithdrawal)
    (e : OutPoint * FilledOutput) : result Error (gmap MainAddress AggregatedWithdrawal) :=
  let '(outpoint, output) := e in
  match fo_content output with
  | Filled_BitcoinWithdrawal w =>
      let aggregated := default (mkAggregatedWithdrawal ∅ (wc_main_address w) 0 0)
                          (m !! wc_main_address w) in
      value ← ok_or (amount_checked_add (aw_value aggregated) (wc_value w)) Error_AmountOverflow;
      main_fee ← ok_or (amount_checked_add (aw_main_fee aggregated) (wc_main_fee w))
                   Error_AmountOverflow;
      Ok (<[wc_main_address w :=
              mkAggregatedWithdrawal (<[outpoint := output]> (aw_spend_utxos aggregated))
                (aw_main_address aggregated) value main_fee]> m)
  | _ => Ok m
  end.

(** [Ord for AggregatedWithdrawal], by fee, value and address; the list is sorted
    in the reverse order. *)
Definition aggregated_leb (a b : AggregatedWithdrawal) : bool :=
  (aw_main_fee a <? aw_main_fee b) ||
  ((aw_main_fee a =? aw_main_fee b) &&
   ((aw_value a <? aw_value b) ||
    ((aw_value a =? aw_value b) && main_address_leb (aw_main_address a) (aw_main_address b)))).
Definition aggregated_ge (a b : AggregatedWithdrawal) : Prop := aggregated_leb b a = true.
#[export] Instance aggregated_ge_dec : RelDecision aggregated_ge.
Proof. intros a b. unfold aggregated_ge. apply _. Defined.

Record BundleAcc : Type := mkBundleAcc {
  ba_fee : Amount;
  ba_spend_utxos : gmap OutPoint FilledOutput;
  ba_outputs : list TxOut;
  ba_txouts_size : u32;
}.

(** The [for] loop: [break] stops at the outputs so far, [continue] skips one. *)
Fixpoint collect_outputs (l : list AggregatedWithdrawal) (acc : BundleAcc)
  : result Error BundleAcc :=
  match l with
  | [] => Ok acc
  | aggregated :: l =>
      let script_pubkey := script_pubkey (aw_main_address aggregated) in
      let n_outputs := N.of_nat (length (ba_outputs acc)) + 1 in
      let spk_size := N.of_nat (length script_pubkey) in
      if negb (n_outputs <=? u32_MAX) then Ok acc
      else if negb (spk_size <=? u32_MAX) then collect_outputs l acc
      else match txout_size spk_size with
      | None => collect_outputs l acc
      | Some txout_size =>
          match u32_checked_add (ba_txouts_size acc) txout_size with
          | None => Ok acc
          | Some sum_txout_sizes =>
              match predict_weight n_outputs sum_txout_sizes with
              | None => Ok acc
              | Some _ =>
                  fee ← amount_add (ba_fee acc) (aw_main_fee aggregated);
                  collect_outputs l
                    (mkBundleAcc fee (aw_spend_utxos aggregated ∪ ba_spend_utxos acc)
                       (ba_outputs acc ++ [mkTxOut (aw_value aggregated) script_pubkey])
                       sum_txout_sizes)
              end
          end
      end
  end.

(** A [BTreeMap] in key order *)
Definition entry_le (a b : OutPoint * FilledOutput) : Prop := outpoint_leb a.1 b.1 = true.
#[export] Instance entry_le_dec : RelDecision entry_le.
Proof. intros a b. unfold entry_le. apply _. Defined.
Definition btree_entries (m : gmap OutPoint FilledOutput) : list (OutPoint * FilledOutput) :=
  merge_sort entry_le (map_to_list m).

Definition collect_withdrawal_bundle (s : State) (block_height : u32)
  : result Error (option WithdrawalBundle) :=
  address_to_aggregated_withdrawal ← fold_res aggregate_output (map_to_list (st_utxos s)) ∅;
  if decide (address_to_aggregated_withdrawal = ∅) then Ok None
  else
    let aggregated_withdrawals :=
      merge_sort aggregated_ge (map_to_list address_to_aggregated_withdrawal).*2 in
    acc ← collect_outputs aggregated_withdrawals (mkBundleAcc 0 ∅ [] 0);
    bundle ← map_err Error_WithdrawalBundle
      (withdrawal_bundle_new block_height (ba_fee acc) (btree_entries (ba_spend_utxos acc))
         (ba_outputs acc));
    _ ← ensure (main_tx_weight (wb_tx bundle) <=? MAX_STANDARD_TX_WEIGHT)
          (Error_BundleTooHeavy (main_tx_weight (wb_tx bundle)) MAX_STANDARD_TX_WEIGHT);
    Ok (Some bundle).
End bundle.

(** ** Lemmas: what a bundle pays *)

(** The value and the mainchain fee of a withdrawal output *)
Definition wd_value (o : FilledOutput) : N :=
  match fo_content o with Filled_BitcoinWithdrawal w => wc_value w | _ => 0 end.
Definition wd_fee (o : FilledOutput) : N :=
  match fo_content o with Filled_BitcoinWithdrawal w => wc_main_fee w | _ => 0 end.
Definition wd_address (o : FilledOutput) : option MainAddress :=
  match fo_content o with Filled_BitcoinWithdrawal w => Some (wc_main_address w) | _ => None end.

Section bundle_lemmas.
Context `{Externals} (u : gmap OutPoint FilledOutput).

(** The aggregate of an address: its outputs are unspent withdrawals to the
    address, and the totals are theirs. *)
Record agg_ok (agg : AggregatedWithdrawal) : Prop := {
  agg_sub : aw_spend_utxos agg ⊆ u;
  agg_address : forall o fo, aw_spend_utxos agg !! o = Some fo ->
    wd_address fo = Some (aw_main_address agg);
  agg_value : aw_value agg = map_sum wd_value (aw_spend_utxos agg);
  agg_fee : aw_main_fee agg = map_sum wd_fee (aw_spend_utxos agg);
}.

(** All aggregates are good, keyed by their address, and none holds an outpoint
    that is still to come. *)
Definition aggs_ok (m : gmap MainAddress AggregatedWithdrawal) (later : list OutPoint) : Prop :=
  forall a agg, m !! a = Some agg ->
    aw_main_address agg = a /\ agg_ok agg /\ forall o, o ∈ later -> aw_spend_utxos agg !! o = None.

Lemma amount_checked_add_Some a b c : amount_checked_add a b = Some c -> c = a + b.
Proof. unfold amount_checked_add. destruct (_ <=? _); [|done]. by intros [= <-]. Qed.

Lemma aggregate_output_ok m e later m' :
  u !! e.1 = Some e.2 -> e.1 ∉ later -> aggs_ok m (e.1 :: later) ->
  aggregate_output m e = Ok m' -> aggs_ok m' later.
Proof.
  destruct e as [o fo]; cbn [fst snd]. intros Ho Hnin Hok. unfold aggregate_output.
  assert (aggs_ok m later) as Hweak.
  { intros a agg Ha. destruct (Hok a agg Ha) as (? & ? & Hl). split_and!; [done|done|].
    intros o' Ho'. apply Hl. by apply list_elem_of_further. }
  destruct (fo_content fo) as [v|w|b|t c] eqn:Hc; try by intros [= <-].
  set (old := default _ _).
  assert (aw_main_address old = wc_main_address w /\ agg_ok old /\
    (forall o', o' ∈ o :: later -> aw_spend_utxos old !! o' = None)) as (Haddr & Hold & Hlater).
  { unfold old. destruct (m !! wc_main_address w) as [agg|] eqn:Hm; cbn; [by apply Hok|].
    split; [done|]. split; [|intros; apply lookup_empty].
    split; cbn; [apply map_empty_subseteq|by intros ? ? ?%lookup_empty_Some| |];
      by rewrite map_sum_empty. }
  intros Ha. res_inv. apply amount_checked_add_Some in Hx as ->, Hx0 as ->.
  assert (aw_spend_utxos old !! o = None) as Hnew by (apply Hlater, list_elem_of_here).
  intros a agg Hagg. destruct (decide (wc_main_address w = a)) as [<-|Hne].
  - rewrite lookup_insert_eq in Hagg. injection Hagg as <-. cbn. split; [done|]. split.
    + destruct Hold as [Hs Had Hv Hf]. split; cbn.
      * by apply insert_subseteq_l.
      * intros o' fo' [[<- <-]|[_ Hl]]%lookup_insert_Some; [|by eapply Had].
        unfold wd_address. by rewrite Hc, Haddr.
      * rewrite map_sum_insert by done. unfold wd_value at 1. rewrite Hc. lia.
      * rewrite map_sum_insert by done. unfold wd_fee at 1. rewrite Hc. lia.
    + intros o' Ho'. rewrite lookup_insert_ne by (intros ->; done).
      apply Hlater. by apply list_elem_of_further.
  - rewrite lookup_insert_ne in Hagg by done. by apply Hweak.
Qed.

Lemma aggregate_outputs_ok l m m' :
  Forall (fun e => u !! e.1 = Some e.2) l -> NoDup l.*1 -> aggs_ok m l.*1 ->
  fold_res aggregate_output l m = Ok m' -> aggs_ok m' [].
Proof.
  revert m. induction l as [|e l IH]; intros m Hl Hnd Hok Hf; cbn [fold_res] in Hf.
  { by injection Hf as <-. }
  apply bind_Ok in Hf as (m1 & Ha & Hf). apply Forall_cons in Hl as [He Hl].
  cbn in Hnd, Hok. apply NoDup_cons in Hnd as [Hnin Hnd].
  apply (IH m1); [done|done| |done]. by eapply aggregate_output_ok.
Qed.

(** The accumulated bundle pays what it spends. *)
Record acc_ok (acc : BundleAcc) : Prop := {
  ba_sub : ba_spend_utxos acc ⊆ u;
  ba_withdrawals : forall o fo, ba_spend_utxos acc !! o = Some fo -> is_Some (wd_address fo);
  ba_value : sum_N (txout_value <$> ba_outputs acc) = map_sum wd_value (ba_spend_utxos acc);
  ba_fee_ok : ba_fee acc = map_sum wd_fee (ba_spend_utxos acc);
}.

Lemma collect_outputs_ok l acc acc' :
  Forall agg_ok l -> NoDup (aw_main_address <$> l) -> acc_ok acc ->
  (forall o fo agg, ba_spend_utxos acc !! o = Some fo -> agg ∈ l ->
    wd_address fo <> Some (aw_main_address agg)) ->
  collect_outputs l acc = Ok acc' -> acc_ok acc'.
Proof.
  revert acc. induction l as [|agg l IH]; intros acc Hl Hnd Hacc Hsep Hc; cbn in Hc.
  { by injection Hc as <-. }
  apply Forall_cons in Hl as [Hagg Hl]. cbn in Hnd. apply NoDup_cons in Hnd as [Hnin Hnd].
  assert (forall o fo agg', ba_spend_utxos acc !! o = Some fo -> agg' ∈ l ->
    wd_address fo <> Some (aw_main_address agg')) as Hsep'.
  { intros o fo agg' Ho Hin. eapply Hsep; [done|]. by apply list_elem_of_further. }
  destruct (negb _) in Hc; [by injection Hc as <-|].
  destruct (negb _) in Hc; [by eapply IH|].
  destruct (txout_size _) as [sz|] in Hc; [|by eapply IH].
  destruct (u32_checked_add _ _) as [sum|] in Hc; [|by injection Hc as <-].
  destruct (predict_weight _ _) in Hc; [|by injection Hc as <-].
  apply bind_Ok in Hc as (fee & Hfee & Hc). unfold amount_add in Hfee.
  apply expect_Ok, amount_checked_add_Some in Hfee as ->.
  assert (aw_spend_utxos agg ##ₘ ba_spend_utxos acc) as Hdisj.
  { apply map_disjoint_spec. intros o fo fo' Ho Ho'. eapply (Hsep o fo' agg Ho');
      [apply list_elem_of_here|]. destruct Hagg as [Hs Had _ _], Hacc as [Hs' _ _ _].
    rewrite <-(Had o fo Ho). f_equal.
    apply (lookup_weaken _ u) in Ho; [|done]. apply (lookup_weaken _ u) in Ho'; [|done].
    congruence. }
  eapply IH; [done|done| | |exact Hc].
  - destruct Hagg as [Hs Had Hv Hf], Hacc as [Hs' Hw' Hv' Hf']. split; cbn.
    + by apply map_union_least.
    + intros o fo [Ho|[_ Ho]]%lookup_union_Some_raw; [|by eapply Hw']. rewrite (Had _ _ Ho). eauto.
    + rewrite fmap_app, sum_N_app, map_sum_union, Hv', <-Hv by done.
      cbn. rewrite sum_N_cons. unfold sum_N. cbn. lia.
    + rewrite map_sum_union, Hf', <-Hf by done. lia.
  - cbn. intros o fo agg' [Ho|[_ Ho]]%lookup_union_Some_raw Hin; [|by eapply Hsep'].
    rewrite (agg_address _ Hagg _ _ Ho). intros [= Heq]. apply Hnin. rewrite Heq.
    by apply list_elem_of_fmap_2.
Qed.
End bundle_lemmas.

(** What a proposed bundle is made of *)
Lemma collect_withdrawal_bundle_acc `{Externals} s h b :
  collect_withdrawal_bundle s h = Ok (Some b) ->
  exists acc, acc_ok (st_utxos s) acc /\
    withdrawal_bundle_new h (ba_fee acc) (btree_entries (ba_spend_utxos acc)) (ba_outputs acc) =
      Ok b.
Proof.
  unfold collect_withdrawal_bundle. intros (m & Hm & Hc)%bind_Ok.
  case_decide; [done|]. apply bind_Ok in Hc as (acc & Hacc & Hc).
  apply bind_Ok in Hc as (b' & Hb & Hc). apply bind_Ok in Hc as ([] & _ & [= ->]).
  apply map_err_Ok in Hb. exists acc. split; [|done].
  assert (aggs_ok (st_utxos s) m []) as Haggs.
  { eapply (aggregate_outputs_ok (st_utxos s)); [| | |exact Hm].
    - apply Forall_forall. intros [o fo] Hin. by apply elem_of_map_to_list.
    - apply NoDup_fst_map_to_list.
    - intros a agg Ha. by rewrite lookup_empty in Ha. }
  eapply (collect_outputs_ok (st_utxos s)); [| | | |exact Hacc].
  - rewrite merge_sort_Permutation. apply Forall_fmap, Forall_forall. intros [a agg] Hin.
    apply elem_of_map_to_list in Hin. by apply (Haggs a agg).
  - rewrite merge_sort_Permutation, <-list_fmap_compose.
    erewrite list_fmap_ext; [apply (NoDup_fst_map_to_list m)|]. intros i [a agg] Hi. cbn.
    apply list_elem_of_lookup_2, elem_of_map_to_list in Hi. by apply (Haggs a agg).
  - split; cbn; [apply map_empty_subseteq|by intros ? ? ?%lookup_empty_Some| |];
      by rewrite map_sum_empty.
  - cbn. by intros ? ? ? ?%lookup_empty_Some.
Qed.

(** ** Properties *)

(** C35 The bundle that [collect_withdrawal_bundle] proposes spends only unspent
    withdrawal outputs of the state, each once, and pays exactly what they ask
    for: its outputs add up to their values, and the fee it commits to adds up to
    their mainchain fees. *)
Theorem collect_withdrawal_bundle_balanced `{Externals} (s : State) (h : u32)
    (b : WithdrawalBundle) :
  collect_withdrawal_bundle s h = Ok (Some b) ->
  exists spends fee payouts,
    wb_spend_utxos b = btree_entries spends /\ spends ⊆ st_utxos s /\
    (forall o fo, spends !! o = Some fo -> is_Some (wd_address fo)) /\
    mtx_output (wb_tx b) = mkTxOut 0 (op_return_script (be_bytes_u64 fee)) ::
      mkTxOut 0 (op_return_script (hash_bytes (blake3_hash (borsh_outpoints
        ((btree_entries spends).*1 ++ [OutPoint_Regular 0 h]))))) :: payouts /\
    sum_N (txout_value <$> payouts) = map_sum wd_value spends /\
    fee = map_sum wd_fee spends.
Proof.
  intros (acc & [Hsub Hw Hv Hf] & Hb)%collect_withdrawal_bundle_acc.
  unfold withdrawal_bundle_new in Hb. apply bind_Ok in Hb as ([] & _ & [= <-]). cbn.
  exists (ba_spend_utxos acc), (ba_fee acc), (ba_outputs acc). by split_and!.
Qed.

(** Two withdrawals to one address, one to another *)
Definition sample_withdrawals : State :=
  let wd a v f := mkFilledOutput 7 (Filled_BitcoinWithdrawal (mkWithdrawalContent v f a)) [] in
  set_utxos (list_to_map
    [(OutPoint_Regular 1 0, wd 4 10 1); (OutPoint_Regular 2 0, wd 4 20 2);
     (OutPoint_Regular 3 0, wd 5 7 9);
     (OutPoint_Deposit 9 0, mkFilledOutput 7 (Filled_Bitcoin 50) [])]) empty_state.

Lemma collect_withdrawal_bundle_balanced_witness :
  exists b spends,
    @collect_withdrawal_bundle Sample.externals sample_withdrawals 4 = Ok (Some b) /\
    wb_spend_utxos b = btree_entries spends /\ spends ⊆ st_utxos sample_withdrawals.
Proof.
  destruct (@collect_withdrawal_bundle Sample.externals sample_withdrawals 4) as [[b|]| |] eqn:Hc;
    try (vm_compute in Hc; discriminate Hc).
  destruct (@collect_withdrawal_bundle_balanced Sample.externals _ _ _ Hc)
    as (spends & fee & payouts & Hb & Hs & _).
  exists b, spends. split; [reflexivity|]. split; [exact Hb|exact Hs].
Defined.
