(* ===== verification/TwoWayPeg.v ===== *)
(** * Two-way peg data

    [src/lib/state/two_way_peg_data.rs]: the effects of deposits and of
    withdrawal bundle events on the state, their reversal, and the proposal of a
    new pending bundle. Errors abort the write transaction; an [assert!] or
    [expect] that fails is a panic. *)

From S2P Require Import Prelude Types Transaction Sample Rollback BitNames Authorization State.
From S2P Require Import WithdrawalBundle.

Definition status_eqb (a b : WithdrawalBundleStatus) : bool := bool_decide (a = b).

(** [matches!(status, Submitted | SubmittedUnexpected)] *)
Definition is_submitted (st : WithdrawalBundleStatus) : bool :=
  match st with Submitted | SubmittedUnexpected => true | _ => false end.

Definition put_bundle (m6id : M6id) (e : WithdrawalBundleInfo * status_history) (s : State)
  : State :=
  set_bundles (<[m6id := e]> (st_withdrawal_bundles s)) s.
Definition delete_bundle (m6id : M6id) (s : State) : State :=
  set_bundles (delete m6id (st_withdrawal_bundles s)) s.

(** [bundle_status.push(..).expect(..)] *)
Definition push_status {E} (statuses : status_history) (st : WithdrawalBundleStatus)
    (block_height : u32) : result E status_history :=
  match hs_push statuses st block_height with Ok r => Ok r | _ => Panic end.

(** An output of a bundle moves between the two databases. *)
Definition withdrawn (m6id : M6id) (output : FilledOutput) : SpentOutput :=
  mkSpentOutput output (InPoint_Withdrawal m6id).
Definition spend_output {E} (e : OutPoint -> E) (m6id : M6id) (s : State)
    (p : OutPoint * FilledOutput) : result E State :=
  _ ← ensure (bool_decide (is_Some (st_utxos s !! p.1))) (e p.1);
  Ok (set_stxos (<[p.1 := withdrawn m6id p.2]> (st_stxos s))
        (set_utxos (delete p.1 (st_utxos s)) s)).
Definition unspend_output {E} (e : OutPoint -> E) (s : State) (p : OutPoint * FilledOutput)
  : result E State :=
  _ ← ensure (bool_decide (is_Some (st_stxos s !! p.1))) (e p.1);
  Ok (set_utxos (<[p.1 := p.2]> (st_utxos s)) (set_stxos (delete p.1 (st_stxos s)) s)).

(** ** Connecting *)

Definition push_spends (m6id : M6id) (spends : list (OutPoint * FilledOutput))
    (events : BlockIndexEvents) : BlockIndexEvents :=
  mkBlockIndexEvents (bie_deposits events)
    (bie_bundle_spends events ++ ((fun p => (p.1, m6id)) <$> spends)).

(** The check of [(bundle, latest status)] when a bundle that is not the pending
    one is submitted *)
Definition check_resubmission (event_block_hash : MainBlockHash) (m6id : M6id)
    (bundle : WithdrawalBundleInfo) (latest : HeightStamped WithdrawalBundleStatus)
  : result ConnectWithdrawalBundleSubmittedError unit :=
  match bundle, hs_value latest with
  | _, Confirmed => Err (ConfirmedResubmitted event_block_hash m6id)
  | _, (Submitted | SubmittedUnexpected) =>
      Err (Resubmitted event_block_hash m6id (hs_height latest))
  | Info_Known _, Dropped => Ok tt
  | (Info_Unknown | Info_UnknownConfirmed _), Dropped =>
      Err (UnknownDropped m6id (hs_height latest))
  | Info_Known _, Pending => Err (DroppedPending m6id)
  | (Info_Unknown | Info_UnknownConfirmed _), Pending =>
      Err (UnknownPending m6id (hs_height latest))
  | (Info_Known _ | Info_Unknown), Failed => Ok tt
  | Info_UnknownConfirmed _, Failed => Err (UnknownConfirmedFailed m6id (hs_height latest))
  end.

Definition connect_withdrawal_bundle_submitted (block_height : u32)
    (event_block_hash : MainBlockHash) (m6id : M6id) (acc : State * BlockIndexEvents)
  : result ConnectWithdrawalBundleSubmittedError (State * BlockIndexEvents) :=
  let '(s, index_events) := acc in
  if decide (st_pending_withdrawal_bundle s = Some m6id) then
    '(bundle, bundle_status) ← ok_or (st_withdrawal_bundles s !! m6id)
                                 (Submitted_PendingWithdrawalBundleUnknown m6id);
    bundle ← match bundle with
             | Info_Known bundle => Ok bundle
             | Info_Unknown | Info_UnknownConfirmed _ =>
                 Err (Submitted_PendingWithdrawalBundleUnknown m6id)
             end;
    s ← fold_res (spend_output Submitted_NoUtxo m6id) (wb_spend_utxos bundle) s;
    _ ← assert_ (status_eqb (hs_value (hs_latest bundle_status)) Pending);
    bundle_status ← push_status bundle_status Submitted block_height;
    Ok (set_pending None (put_bundle m6id (Info_Known bundle, bundle_status) s),
        push_spends m6id (wb_spend_utxos bundle) index_events)
  else
    match st_withdrawal_bundles s !! m6id with
    | Some (bundle, bundle_status) =>
        _ ← check_resubmission event_block_hash m6id bundle (hs_latest bundle_status);
        bundle_status ← push_status bundle_status SubmittedUnexpected block_height;
        Ok (put_bundle m6id (bundle, bundle_status) s, index_events)
    | None =>
        Ok (put_bundle m6id (Info_Unknown, hs_new Submitted block_height) s, index_events)
    end.

Definition connect_withdrawal_bundle_confirmed (block_height : u32)
    (event_block_hash : MainBlockHash) (m6id : M6id) (s : State) : result Error State :=
  '(bundle, bundle_status) ← ok_or (st_withdrawal_bundles s !! m6id)
                               (Error_UnknownWithdrawalBundle m6id);
  if status_eqb (hs_value (hs_latest bundle_status)) Confirmed then Ok s
  else
    _ ← assert_ (is_submitted (hs_value (hs_latest bundle_status)));
    '(bundle, s) ←
      match bundle with
      | Info_UnknownConfirmed _ =>
          Err (Error_UnknownWithdrawalBundleReconfirmed event_block_hash m6id)
      | Info_Unknown =>
          if block_height =? 0 then
            let utxos := btree_entries (st_utxos s) in
            let stxos := foldl (fun m p => <[p.1 := withdrawn m6id p.2]> m) (st_stxos s) utxos in
            Ok (Info_UnknownConfirmed utxos, set_utxos ∅ (set_stxos stxos s))
          else Err (Error_UnknownWithdrawalBundleConfirmed event_block_hash m6id)
      | Info_Known b =>
          if status_eqb (hs_value (hs_latest bundle_status)) SubmittedUnexpected then
            s ← fold_res (spend_output
                   (Error_UnexpectedWithdrawalBundleInsolvency event_block_hash m6id) m6id)
                  (wb_spend_utxos b) s;
            Ok (bundle, s)
          else Ok (bundle, s)
      end;
    bundle_status ← push_status bundle_status Confirmed block_height;
    Ok (put_bundle m6id (bundle, bundle_status) s).

(** A failed bundle gives its outputs back; deleting an absent key is no error. *)
Definition give_back (s : State) (p : OutPoint * FilledOutput) : State :=
  set_utxos (<[p.1 := p.2]> (st_utxos s)) (set_stxos (delete p.1 (st_stxos s)) s).

Definition push_latest_failed {E} (block_height : u32) (m6id : M6id) (s : State)
  : result E State :=
  latest_failed ←
    match st_latest_failed_withdrawal_bundle s with
    | Some latest_failed_m6id =>
        match hs_push latest_failed_m6id m6id block_height with Ok r => Ok r | _ => Panic end
    | None => Ok (hs_new m6id block_height)
    end;
  Ok (set_latest_failed (Some latest_failed) s).

Definition connect_withdrawal_bundle_failed (block_height : u32) (m6id : M6id) (s : State)
  : result Error State :=
  '(bundle, bundle_status) ← ok_or (st_withdrawal_bundles s !! m6id)
                               (Error_UnknownWithdrawalBundle m6id);
  if status_eqb (hs_value (hs_latest bundle_status)) Failed then Ok s
  else
    _ ← assert_ (is_submitted (hs_value (hs_latest bundle_status)));
    s ← match bundle with
        | Info_Unknown | Info_UnknownConfirmed _ => Ok s
        | Info_Known b =>
            if status_eqb (hs_value (hs_latest bundle_status)) SubmittedUnexpected then Ok s
            else push_latest_failed block_height m6id (foldl give_back s (wb_spend_utxos b))
        end;
    bundle_status ← push_status bundle_status Failed block_height;
    Ok (put_bundle m6id (bundle, bundle_status) s).

Definition connect_withdrawal_bundle_event (block_height : u32)
    (event_block_hash : MainBlockHash) (event : WithdrawalBundleEvent)
    (acc : State * BlockIndexEvents) : result Error (State * BlockIndexEvents) :=
  let '(s, index_events) := acc in
  match wbe_status event with
  | Event_Submitted =>
      map_err Error_ConnectWithdrawalBundleSubmitted
        (connect_withdrawal_bundle_submitted block_height event_block_hash (wbe_m6id event) acc)
  | Event_Confirmed =>
      s ← connect_withdrawal_bundle_confirmed block_height event_block_hash (wbe_m6id event) s;
      Ok (s, index_events)
  | Event_Failed =>
      s ← connect_withdrawal_bundle_failed block_height (wbe_m6id event) s;
      Ok (s, index_events)
  end.

(** The state of the loops over the events: what is collected for the index, and
    the last block with a deposit and with a bundle event *)
Record PegAcc : Type := mkPegAcc {
  pa_state : State;
  pa_index_events : BlockIndexEvents;
  pa_latest_deposit : option MainBlockHash;
  pa_latest_bundle_event : option MainBlockHash;
}.

Definition deposit_outpoint (deposit : Deposit) : OutPoint :=
  OutPoint_Deposit (dep_outpoint deposit).1 (dep_outpoint deposit).2.

Definition connect_2wpd_event (block_height : u32) (acc : PegAcc)
    (p : MainBlockHash * BlockEvent) : result Error PegAcc :=
  let '(event_block_hash, event) := p in
  let s := pa_state acc in
  match event with
  | BlockEvent_Deposit deposit =>
      let outpoint := deposit_outpoint deposit in
      let output := dep_output deposit in
      Ok (mkPegAcc (set_utxos (<[outpoint := output]> (st_utxos s)) s)
            (mkBlockIndexEvents (bie_deposits (pa_index_events acc) ++ [(outpoint, output)])
               (bie_bundle_spends (pa_index_events acc)))
            (Some event_block_hash) (pa_latest_bundle_event acc))
  | BlockEvent_WithdrawalBundle withdrawal_bundle_event =>
      '(s, index_events) ← connect_withdrawal_bundle_event block_height event_block_hash
                             withdrawal_bundle_event (s, pa_index_events acc);
      Ok (mkPegAcc s index_events (pa_latest_deposit acc) (Some event_block_hash))
  end.

(** The events of the two nested loops, in order *)
Definition peg_events (data : TwoWayPegData) : list (MainBlockHash * BlockEvent) :=
  concat ((fun b : MainBlockHash * BlockInfo => (fun e => (b.1, e)) <$> bi_events b.2) <$>
            twp_block_info data).

Definition index_events_empty (e : BlockIndexEvents) : bool :=
  match bie_deposits e, bie_bundle_spends e with [], [] => true | _, _ => false end.

Section connect.
Context `{Externals}.

(** [last().map_or(0, |(seq_idx, _)| seq_idx + 1)] *)
Definition next_seq_idx {V} (m : gmap u32 V) : u32 :=
  match db_last_u32 m with Some (seq_idx, _) => u32_add seq_idx 1 | None => 0 end.

Definition put_event_block (block_height : u32) (latest : option MainBlockHash)
    (m : gmap u32 (MainBlockHash * u32)) : gmap u32 (MainBlockHash * u32) :=
  match latest with
  | Some block_hash => <[next_seq_idx m := (block_hash, block_height)]> m
  | None => m
  end.

(** [block_height - last_withdrawal_bundle_failure_height >= GAP] *)
Definition failure_gap_passed (block_height : u32) (s : State) : result Error bool :=
  failed ← get_latest_failed_withdrawal_bundle s;
  let last_withdrawal_bundle_failure_height :=
    match failed with Some (height, _) => height | None => 0 end in
  Ok (WITHDRAWAL_BUNDLE_FAILURE_GAP <=? u32_sub block_height last_withdrawal_bundle_failure_height).

Definition propose_bundle (block_height : u32) (s : State) : result Error State :=
  gap ← failure_gap_passed block_height s;
  if gap && bool_decide (st_pending_withdrawal_bundle s = None) then
    bundle ← collect_withdrawal_bundle s block_height;
    match bundle with
    | Some bundle =>
        let m6id := compute_m6id bundle in
        let s := set_pending (Some m6id) s in
        bundle_status ←
          match st_withdrawal_bundles s !! m6id with
          | Some (_, bundle_status) => push_status bundle_status Pending block_height
          | None => Ok (hs_new Pending block_height)
          end;
        Ok (put_bundle m6id (Info_Known bundle, bundle_status) s)
    | None => Ok s
    end
  else Ok s.

Definition peg_connect (s : State) (two_way_peg_data : TwoWayPegData) : result Error State :=
  block_height ← ok_or (try_get_height s) Error_NoTip;
  acc ← fold_res (connect_2wpd_event block_height) (peg_events two_way_peg_data)
          (mkPegAcc s (mkBlockIndexEvents [] []) None None);
  let s := pa_state acc in
  let s := if index_events_empty (pa_index_events acc) then s
           else set_index_events
                  (<[block_height := pa_index_events acc]> (st_block_index_events s)) s in
  let s := set_deposit_blocks
             (put_event_block block_height (pa_latest_deposit acc) (st_deposit_blocks s)) s in
  let s := set_event_blocks
             (put_event_block block_height (pa_latest_bundle_event acc)
                (st_withdrawal_bundle_event_blocks s)) s in
  propose_bundle block_height s.
End connect.

(** ** Disconnecting *)

Definition disconnect_withdrawal_bundle_submitted (block_height : u32) (m6id : M6id) (s : State)
  : result Error State :=
  match st_withdrawal_bundles s !! m6id with
  | None =>
      if decide (st_pending_withdrawal_bundle s = Some m6id) then Ok s
      else Err (Error_UnknownWithdrawalBundle m6id)
  | Some (bundle, bundle_status) =>
      let '(bundle_status, latest_bundle_status) := hs_pop bundle_status in
      _ ← assert_ (is_submitted (hs_value latest_bundle_status));
      _ ← assert_ (hs_height latest_bundle_status =? block_height);
      s ← match bundle, bundle_status with
          | Info_Known b, Some bundle_status =>
              if status_eqb (hs_value (hs_latest bundle_status)) Pending then
                s ← fold_res (unspend_output Error_NoStxo) (reverse (wb_spend_utxos b)) s;
                Ok (set_pending (Some m6id) s)
              else Ok s
          | _, _ => Ok s
          end;
      match bundle_status with
      | Some bundle_status => Ok (put_bundle m6id (bundle, bundle_status) s)
      | None => Ok (delete_bundle m6id s)
      end
  end.

Definition disconnect_withdrawal_bundle_confirmed (block_height : u32) (m6id : M6id) (s : State)
  : result Error State :=
  '(bundle, bundle_status) ← ok_or (st_withdrawal_bundles s !! m6id)
                               (Error_UnknownWithdrawalBundle m6id);
  let '(prev_bundle_status, latest_bundle_status) := hs_pop bundle_status in
  if is_submitted (hs_value latest_bundle_status) then Ok s
  else
    _ ← assert_ (status_eqb (hs_value latest_bundle_status) Confirmed);
    _ ← assert_ (hs_height latest_bundle_status =? block_height);
    prev_bundle_status ← expect prev_bundle_status;
    _ ← assert_ (is_submitted (hs_value (hs_latest prev_bundle_status)));
    '(bundle, s) ←
      match bundle with
      | Info_Known b =>
          if status_eqb (hs_value (hs_latest prev_bundle_status)) SubmittedUnexpected then
            s ← fold_res (unspend_output Error_NoStxo) (wb_spend_utxos b) s;
            Ok (bundle, s)
          else Ok (bundle, s)
      | Info_UnknownConfirmed spend_utxos =>
          s ← fold_res (unspend_output Error_NoStxo) spend_utxos s;
          Ok (Info_Unknown, s)
      | Info_Unknown => Ok (bundle, s)
      end;
    Ok (put_bundle m6id (bundle, prev_bundle_status) s).

(** The reverse of [give_back]: the output is put back among the spent ones
    before its deletion from the unspent ones is checked. *)
Definition take_back (m6id : M6id) (s : State) (p : OutPoint * FilledOutput)
  : result Error State :=
  let s := set_stxos (<[p.1 := withdrawn m6id p.2]> (st_stxos s)) s in
  _ ← ensure (bool_decide (is_Some (st_utxos s !! p.1))) (Error_NoUtxo p.1);
  Ok (set_utxos (delete p.1 (st_utxos s)) s).

Definition pop_latest_failed (block_height : u32) (m6id : M6id) (s : State)
  : result Error State :=
  latest_failed ← expect (st_latest_failed_withdrawal_bundle s);
  let '(prev_latest_failed_m6id, latest_failed_m6id) := hs_pop latest_failed in
  _ ← assert_ (hs_value latest_failed_m6id =? m6id);
  _ ← assert_ (hs_height latest_failed_m6id =? block_height);
  Ok (set_latest_failed prev_latest_failed_m6id s).

Definition disconnect_withdrawal_bundle_failed (block_height : u32) (m6id : M6id) (s : State)
  : result Error State :=
  '(bundle, bundle_status) ← ok_or (st_withdrawal_bundles s !! m6id)
                               (Error_UnknownWithdrawalBundle m6id);
  let '(prev_bundle_status, latest_bundle_status) := hs_pop bundle_status in
  if status_eqb (hs_value latest_bundle_status) Submitted then Ok s
  else
    _ ← assert_ (status_eqb (hs_value latest_bundle_status) Failed);
    _ ← assert_ (hs_height latest_bundle_status =? block_height);
    prev_bundle_status ← expect prev_bundle_status;
    _ ← assert_ (is_submitted (hs_value (hs_latest prev_bundle_status)));
    s ← match bundle with
        | Info_Unknown | Info_UnknownConfirmed _ => Ok s
        | Info_Known b =>
            if status_eqb (hs_value (hs_latest prev_bundle_status)) SubmittedUnexpected then Ok s
            else
              s ← fold_res (take_back m6id) (reverse (wb_spend_utxos b)) s;
              pop_latest_failed block_height m6id s
        end;
    Ok (put_bundle m6id (bundle, prev_bundle_status) s).

Definition disconnect_withdrawal_bundle_event (block_height : u32)
    (event : WithdrawalBundleEvent) (s : State) : result Error State :=
  match wbe_status event with
  | Event_Submitted => disconnect_withdrawal_bundle_submitted block_height (wbe_m6id event) s
  | Event_Confirmed => disconnect_withdrawal_bundle_confirmed block_height (wbe_m6id event) s
  | Event_Failed => disconnect_withdrawal_bundle_failed block_height (wbe_m6id event) s
  end.

(** The first block seen, in reverse order, is the latest. *)
Definition keep_first (o : option MainBlockHash) (h : MainBlockHash) : option MainBlockHash :=
  match o with None => Some h | Some _ => o end.

Record UnpegAcc : Type := mkUnpegAcc {
  ua_state : State;
  ua_latest_deposit : option MainBlockHash;
  ua_latest_bundle_event : option MainBlockHash;
}.

Definition disconnect_event (block_height : u32) (acc : UnpegAcc)
    (p : MainBlockHash * BlockEvent) : result Error UnpegAcc :=
  let '(event_block_hash, event) := p in
  let s := ua_state acc in
  match event with
  | BlockEvent_Deposit deposit =>
      let outpoint := deposit_outpoint deposit in
      _ ← ensure (bool_decide (is_Some (st_utxos s !! outpoint))) (Error_NoUtxo outpoint);
      Ok (mkUnpegAcc (set_utxos (delete outpoint (st_utxos s)) s)
            (keep_first (ua_latest_deposit acc) event_block_hash) (ua_latest_bundle_event acc))
  | BlockEvent_WithdrawalBundle withdrawal_bundle_event =>
      s ← disconnect_withdrawal_bundle_event block_height withdrawal_bundle_event s;
      Ok (mkUnpegAcc s (ua_latest_deposit acc)
            (keep_first (ua_latest_bundle_event acc) event_block_hash))
  end.

Section disconnect.
Context `{Externals}.

(** The last entry of an event block database must be the one of this block. *)
Definition delete_event_block (e : Error) (block_height : u32) (latest : option MainBlockHash)
    (m : gmap u32 (MainBlockHash * u32)) : result Error (gmap u32 (MainBlockHash * u32)) :=
  match latest with
  | Some latest_block_hash =>
      '(last_seq_idx, (last_block_hash, last_block_height)) ← ok_or (db_last_u32 m) e;
      _ ← assert_ (latest_block_hash =? last_block_hash);
      _ ← assert_ (block_height =? last_block_height);
      _ ← ensure (bool_decide (is_Some (m !! last_seq_idx))) e;
      Ok (delete last_seq_idx m)
  | None => Ok m
  end.

Definition retract_bundle (block_height : u32) (s : State) : result Error State :=
  gap ← failure_gap_passed block_height s;
  match gap, st_pending_withdrawal_bundle s with
  | true, Some bundle_m6id =>
      '(bundle, bundle_status) ← ok_or (st_withdrawal_bundles s !! bundle_m6id)
                                   (Error_PendingWithdrawalBundleUnknown bundle_m6id);
      if hs_height (hs_latest bundle_status) =? block_height then
        let s := set_pending None s in
        match hs_pop bundle_status with
        | (Some bundle_status, _) => Ok (put_bundle bundle_m6id (bundle, bundle_status) s)
        | (None, _) => Ok (delete_bundle bundle_m6id s)
        end
      else Ok s
  | _, _ => Ok s
  end.

Definition peg_disconnect (s : State) (two_way_peg_data : TwoWayPegData) : result Error State :=
  block_height ← expect (try_get_height s);
  let s := set_index_events (delete block_height (st_block_index_events s)) s in
  acc ← fold_res (disconnect_event block_height) (reverse (peg_events two_way_peg_data))
          (mkUnpegAcc s None None);
  let s := ua_state acc in
  event_blocks ← delete_event_block Error_NoWithdrawalBundleEventBlock block_height
                   (ua_latest_bundle_event acc) (st_withdrawal_bundle_event_blocks s);
  let s := set_event_blocks event_blocks s in
  s ← retract_bundle block_height s;
  deposit_blocks ← delete_event_block Error_NoDepositBlock block_height
                     (ua_latest_deposit acc) (st_deposit_blocks s);
  Ok (set_deposit_blocks deposit_blocks s).
End disconnect.
