(* ===== verification/PegMoves.v ===== *)
(** * Moving the outputs of a withdrawal bundle

    The loops of [src/lib/state/two_way_peg_data.rs] that spend the outputs of a
    bundle and give them back, as operations on the two output databases, and
    that they undo each other. *)

From S2P Require Import Prelude Types Transaction Sample Rollback BitNames Authorization State.
From S2P Require Import WithdrawalBundle TwoWayPeg.

(** ** Moving the outputs of a bundle *)

Section moves.
Context {E : Type}.
Implicit Types (s : State) (l : list (OutPoint * FilledOutput)).

(** The entries are unspent, with the outputs the bundle recorded. *)
Definition entries_unspent s l : Prop :=
  Forall (fun p => st_utxos s !! p.1 = Some p.2 /\ st_stxos s !! p.1 = None) l.

(** The state in which the entries are spent by a bundle *)
Definition spent_by m6id l s : State :=
  set_stxos (list_to_map ((fun p => (p.1, withdrawn m6id p.2)) <$> l) ∪ st_stxos s)
    (set_utxos (without (list_to_set l.*1) (st_utxos s)) s).

Lemma spend_outputs_Ok (e : OutPoint -> E) m6id l s :
  NoDup l.*1 -> Forall (fun p => is_Some (st_utxos s !! p.1)) l ->
  fold_res (spend_output e m6id) l s = Ok (spent_by m6id l s).
Proof.
  revert s. induction l as [|[o fo] l IH]; intros s Hnd Hl.
  { unfold spent_by. cbn. rewrite without_empty, map_empty_union. by destruct s. }
  cbn in Hnd. apply NoDup_cons in Hnd as [Hnin Hnd]. apply Forall_cons in Hl as [Ho Hl].
  cbn [fst] in *. cbn [fold_res].
  assert (spend_output e m6id s (o, fo) =
    Ok (set_stxos (<[o := withdrawn m6id fo]> (st_stxos s)) (set_utxos (delete o (st_utxos s)) s)))
    as -> by (unfold spend_output; cbn; by rewrite bool_decide_true).
  cbn [mbind result_bind]. rewrite IH; [|done|].
  - unfold spent_by, set_stxos, set_utxos; cbn. do 2 f_equal.
    + rewrite without_insert_set. apply map_eq. intros k.
      rewrite lookup_delete, !lookup_without, lookup_delete. repeat case_decide; done.
    + rewrite <-insert_union_l. apply map_eq. intros k.
      destruct (decide (o = k)) as [<-|Hne].
      * rewrite lookup_insert_eq, lookup_union_r; [by rewrite lookup_insert_eq|].
        apply not_elem_of_list_to_map_1. by rewrite <-list_fmap_compose.
      * rewrite lookup_insert_ne by done. rewrite !lookup_union. by rewrite lookup_insert_ne.
  - cbn. eapply Forall_impl_in; [exact Hl|]. intros p Hp [? Hs]. cbn.
    rewrite lookup_delete_ne; [eauto|]. intros ->. apply Hnin. by apply list_elem_of_fmap_2.
Qed.

(** Giving spent entries back, in any order *)
Definition unspent_by l s : State :=
  set_utxos (list_to_map l ∪ st_utxos s) (set_stxos (without (list_to_set l.*1) (st_stxos s)) s).

Lemma unspend_outputs_Ok (e : OutPoint -> E) l s :
  NoDup l.*1 -> Forall (fun p => is_Some (st_stxos s !! p.1)) l ->
  fold_res (unspend_output e) l s = Ok (unspent_by l s).
Proof.
  revert s. induction l as [|[o fo] l IH]; intros s Hnd Hl.
  { unfold unspent_by. cbn. rewrite without_empty, map_empty_union. by destruct s. }
  cbn in Hnd. apply NoDup_cons in Hnd as [Hnin Hnd]. apply Forall_cons in Hl as [Ho Hl].
  cbn [fst] in *. cbn [fold_res].
  assert (unspend_output e s (o, fo) =
    Ok (set_utxos (<[o := fo]> (st_utxos s)) (set_stxos (delete o (st_stxos s)) s)))
    as -> by (unfold unspend_output; cbn; by rewrite bool_decide_true).
  cbn [mbind result_bind]. rewrite IH; [|done|].
  - unfold unspent_by, set_stxos, set_utxos; cbn. do 2 f_equal.
    + rewrite <-insert_union_l. apply map_eq. intros k.
      destruct (decide (o = k)) as [<-|Hne].
      * rewrite lookup_insert_eq, lookup_union_r; [by rewrite lookup_insert_eq|].
        by apply not_elem_of_list_to_map_1.
      * rewrite lookup_insert_ne by done. rewrite !lookup_union. by rewrite lookup_insert_ne.
    + rewrite without_insert_set. apply map_eq. intros k.
      rewrite lookup_delete, !lookup_without, lookup_delete. repeat case_decide; done.
  - cbn. eapply Forall_impl_in; [exact Hl|]. intros p Hp [? Hs]. cbn.
    rewrite lookup_delete_ne; [eauto|]. intros ->. apply Hnin. by apply list_elem_of_fmap_2.
Qed.
End moves.

Section moves_back.
Implicit Types (s : State) (l : list (OutPoint * FilledOutput)).

(** The entries are spent by the bundle. *)
Definition entries_spent m6id s l : Prop :=
  Forall (fun p => st_stxos s !! p.1 = Some (withdrawn m6id p.2) /\ st_utxos s !! p.1 = None) l.

Lemma entry_lookup {V} (f : FilledOutput -> V) l o fo :
  NoDup l.*1 -> (o, fo) ∈ l ->
  (list_to_map ((fun p => (p.1, f p.2)) <$> l) : gmap OutPoint V) !! o = Some (f fo).
Proof.
  intros Hnd Hin. apply elem_of_list_to_map_1; [by rewrite <-list_fmap_compose|].
  by apply (list_elem_of_fmap_2 (fun p => (p.1, f p.2)) l (o, fo)).
Qed.
Lemma entry_lookup_None {V} (f : FilledOutput -> V) l o :
  o ∉ l.*1 -> (list_to_map ((fun p => (p.1, f p.2)) <$> l) : gmap OutPoint V) !! o = None.
Proof. intros Hnin. apply not_elem_of_list_to_map_1. by rewrite <-list_fmap_compose. Qed.

(** Union with the entries and removal of their keys undo each other. *)
Lemma union_without {V} (f : FilledOutput -> V) l (m : gmap OutPoint V) :
  NoDup l.*1 -> Forall (fun p => m !! p.1 = Some (f p.2)) l ->
  list_to_map ((fun p => (p.1, f p.2)) <$> l) ∪ without (list_to_set l.*1) m = m.
Proof.
  intros Hnd Hl. apply map_eq. intros o. destruct (decide (o ∈ l.*1)) as [Hin|Hnin].
  - pose proof Hin as ([o' fo] & -> & Hin')%list_elem_of_fmap. cbn in *.
    rewrite (lookup_union_Some_l _ _ _ (f fo)) by (by apply entry_lookup).
    rewrite Forall_forall in Hl. symmetry. apply (Hl _ Hin').
  - rewrite lookup_union_r by (by apply entry_lookup_None).
    rewrite lookup_without. case_decide; [set_solver|done].
Qed.
Lemma without_union {V} (f : FilledOutput -> V) l (m : gmap OutPoint V) :
  Forall (fun p => m !! p.1 = None) l ->
  without (list_to_set l.*1) (list_to_map ((fun p => (p.1, f p.2)) <$> l) ∪ m) = m.
Proof.
  intros Hl. apply map_eq. intros o. rewrite lookup_without. case_decide as Hin.
  - apply elem_of_list_to_set, list_elem_of_fmap in Hin as (p & -> & Hin).
    rewrite Forall_forall in Hl. symmetry. by apply Hl.
  - rewrite elem_of_list_to_set in Hin. by rewrite lookup_union_r by (by apply entry_lookup_None).
Qed.
Lemma fmap_pair_id l : (fun p : OutPoint * FilledOutput => (p.1, p.2)) <$> l = l.
Proof. induction l as [|[o fo] l IH]; cbn; [done|]. by rewrite IH. Qed.

Lemma unspent_spent_by m6id l s :
  NoDup l.*1 -> entries_unspent s l -> unspent_by l (spent_by m6id l s) = s.
Proof.
  intros Hnd Hl. unfold unspent_by, spent_by, set_stxos, set_utxos; cbn.
  rewrite (without_union (withdrawn m6id) l (st_stxos s)) by
    (eapply Forall_impl; [exact Hl|]; by intros p [_ ?]).
  pose proof (union_without id l (st_utxos s) Hnd) as Hu. cbn in Hu. rewrite fmap_pair_id in Hu.
  rewrite Hu by (eapply Forall_impl; [exact Hl|]; by intros p [? _]). by destruct s.
Qed.
Lemma spent_unspent_by m6id l s :
  NoDup l.*1 -> entries_spent m6id s l -> spent_by m6id l (unspent_by l s) = s.
Proof.
  intros Hnd Hl. unfold unspent_by, spent_by, set_stxos, set_utxos; cbn.
  rewrite (union_without (withdrawn m6id) l (st_stxos s) Hnd) by
    (eapply Forall_impl; [exact Hl|]; by intros p [? _]).
  pose proof (without_union id l (st_utxos s)) as Hu. cbn in Hu. rewrite fmap_pair_id in Hu.
  rewrite Hu by (eapply Forall_impl; [exact Hl|]; by intros p [_ ?]). by destruct s.
Qed.

Lemma unspent_by_Permutation l k s : NoDup l.*1 -> l ≡ₚ k -> unspent_by l s = unspent_by k s.
Proof.
  intros Hnd Hp. unfold unspent_by, set_utxos, set_stxos; cbn. f_equal.
  - by rewrite (list_to_map_proper l k Hnd Hp).
  - f_equal. apply set_eq. intros o. rewrite !elem_of_list_to_set. by rewrite Hp.
Qed.
Lemma spent_by_Permutation m6id l k s :
  NoDup l.*1 -> l ≡ₚ k -> spent_by m6id l s = spent_by m6id k s.
Proof.
  intros Hnd Hp. unfold spent_by, set_utxos, set_stxos; cbn. f_equal.
  - f_equal. apply set_eq. intros o. rewrite !elem_of_list_to_set. by rewrite Hp.
  - f_equal. apply list_to_map_proper; [by rewrite <-list_fmap_compose|]. by rewrite Hp.
Qed.

Lemma NoDup_keys_Permutation l k : l ≡ₚ k -> NoDup l.*1 -> NoDup k.*1.
Proof. by intros ->. Qed.

Lemma spent_by_stxos m6id l s p :
  NoDup l.*1 -> p ∈ l -> st_stxos (spent_by m6id l s) !! p.1 = Some (withdrawn m6id p.2).
Proof.
  intros Hnd Hp. cbn. apply lookup_union_Some_l. destruct p. by apply entry_lookup.
Qed.
Lemma unspent_by_utxos l s p :
  NoDup l.*1 -> p ∈ l -> st_utxos (unspent_by l s) !! p.1 = Some p.2.
Proof.
  intros Hnd Hp. cbn. apply lookup_union_Some_l. destruct p as [o fo]. cbn.
  by apply elem_of_list_to_map_1.
Qed.

(** A bundle's outputs spent, and given back in the reverse (or any) order *)
Lemma unspend_spent {E} (e : OutPoint -> E) m6id l k s :
  NoDup l.*1 -> l ≡ₚ k -> entries_unspent s l ->
  fold_res (unspend_output e) k (spent_by m6id l s) = Ok s.
Proof.
  intros Hnd Hp Hl. rewrite unspend_outputs_Ok.
  - rewrite <-(unspent_by_Permutation l k _ Hnd Hp). by rewrite unspent_spent_by.
  - by eapply NoDup_keys_Permutation.
  - apply Forall_forall. intros p Hin. rewrite <-Hp in Hin.
    rewrite spent_by_stxos by done. eauto.
Qed.

Lemma give_back_all l s : NoDup l.*1 -> foldl give_back s l = unspent_by l s.
Proof.
  revert s. induction l as [|[o fo] l IH]; intros s Hnd.
  { unfold unspent_by. cbn. rewrite without_empty, map_empty_union. by destruct s. }
  cbn in Hnd. apply NoDup_cons in Hnd as [Hnin Hnd]. cbn [foldl]. rewrite IH by done.
  unfold unspent_by, give_back, set_stxos, set_utxos; cbn. f_equal.
  - rewrite <-insert_union_l. apply map_eq. intros k. destruct (decide (o = k)) as [<-|Hne].
    + rewrite lookup_insert_eq, lookup_union_r; [by rewrite lookup_insert_eq|].
      by apply not_elem_of_list_to_map_1.
    + rewrite lookup_insert_ne by done. rewrite !lookup_union. by rewrite lookup_insert_ne.
  - rewrite without_insert_set. apply map_eq. intros k.
    rewrite lookup_delete, !lookup_without, lookup_delete. repeat case_decide; done.
Qed.

Lemma take_back_spend m6id s p : take_back m6id s p = spend_output Error_NoUtxo m6id s p.
Proof.
  unfold take_back, spend_output. cbn. by destruct (bool_decide _).
Qed.

Lemma take_given_back m6id l s :
  NoDup l.*1 -> entries_spent m6id s l ->
  fold_res (take_back m6id) (reverse l) (unspent_by l s) = Ok s.
Proof.
  intros Hnd Hl. assert (l ≡ₚ reverse l) as Hp by (by rewrite reverse_Permutation).
  rewrite (fold_res_ext (take_back m6id) (spend_output Error_NoUtxo m6id) (fun _ => True))
    by (intros; by rewrite ?take_back_spend).
  rewrite spend_outputs_Ok.
  - rewrite <-(spent_by_Permutation m6id l _ _ Hnd Hp). by rewrite spent_unspent_by.
  - by eapply NoDup_keys_Permutation.
  - apply Forall_forall. intros p Hin. rewrite <-Hp in Hin. rewrite unspent_by_utxos by done. eauto.
Qed.
End moves_back.

(** ** The entries of a map, in the order of its keys *)

Lemma elem_of_btree_entries (u : gmap OutPoint FilledOutput) o fo :
  (o, fo) ∈ btree_entries u <-> u !! o = Some fo.
Proof. unfold btree_entries. by rewrite merge_sort_Permutation, elem_of_map_to_list. Qed.
Lemma NoDup_fst_btree_entries (u : gmap OutPoint FilledOutput) : NoDup (btree_entries u).*1.
Proof. unfold btree_entries. rewrite merge_sort_Permutation. apply NoDup_fst_map_to_list. Qed.
