(* ===== verification/PegBooks.v ===== *)
(** * The sequential books of the two-way peg

    [deposit_blocks] and [withdrawal_bundle_event_blocks] of
    [src/lib/state/mod.rs]: databases keyed by a sequence number, whose last key
    gives the next one. Their keys are encoded in little-endian order while the
    store compares bytes, so [last()] is the newest entry only up to 256
    entries. *)

From S2P Require Import Prelude Types Transaction Sample Rollback BitNames Authorization State.
From S2P Require Import WithdrawalBundle TwoWayPeg.

(** The keys are 0 .. n-1. *)
Definition seq_dense {V} (m : gmap u32 V) (n : N) : Prop :=
  forall i, is_Some (m !! i) <-> i < n.

Lemma seq_dense_insert {V} (m : gmap u32 V) n v : seq_dense m n -> seq_dense (<[n := v]> m) (n + 1).
Proof.
  intros Hd i. destruct (decide (n = i)) as [<-|Hne].
  - rewrite lookup_insert_eq. split; [lia|eauto].
  - rewrite lookup_insert_ne by done. rewrite (Hd i). lia.
Qed.

Section order.
Context `{Externals} (Hspec : bincode_u32_spec).

Lemma le_ltb_byte i j : j < 256 -> i mod 256 < j ->
  bytes_ltb (bincode_u32 i) (bincode_u32 j) = true.
Proof.
  intros Hj Hi. rewrite !Hspec. cbn [bytes_ltb]. rewrite (N.mod_small j) by done.
  by rewrite (proj2 (N.ltb_lt _ _) Hi).
Qed.

(** Up to 256 entries the last key is the newest; from then on, and as long as no
    key reaches 511, it is 255. *)
Lemma dense_last {V} (m : gmap u32 V) n :
  seq_dense m n -> 0 < n <= 511 ->
  exists v, m !! (N.min n 256 - 1) = Some v /\ db_last_u32 m = Some (N.min n 256 - 1, v).
Proof.
  intros Hd Hn. destruct (proj2 (Hd (N.min n 256 - 1))) as [v Hv]; [lia|]. exists v.
  split; [done|]. apply db_last_max;
    [intros; apply bytes_ltb_irrefl|intros ???; apply bytes_ltb_trans|done|].
  intros k Hk%Hd Hne. apply le_ltb_byte; [lia|].
  destruct (N.lt_ge_cases k 256); [rewrite N.mod_small by done; lia|].
  replace k with (k - 256 + 1 * 256) by lia. rewrite N.Div0.mod_add, N.mod_small by lia. lia.
Qed.

Lemma dense_next {V} (m : gmap u32 V) n :
  seq_dense m n -> n <= 511 -> next_seq_idx m = N.min n 256.
Proof.
  intros Hd Hn. unfold next_seq_idx. destruct (N.eq_dec n 0) as [->|].
  - destruct (db_last_u32 m) as [[i v]|] eqn:Hl; [|done]. unfold db_last_u32 in Hl.
    assert (m = ∅) as ->; [|by vm_compute in Hl].
    apply map_empty. intros i'. apply eq_None_not_Some. rewrite (Hd i'). lia.
  - destruct (dense_last m n Hd ltac:(lia)) as (v & _ & ->). unfold u32_add.
    rewrite N.mod_small; lia.
Qed.

(** ** A book used as a log *)

Lemma put_event_block_dense (m : gmap u32 (MainBlockHash * u32)) n h b :
  seq_dense m n -> n <= 255 ->
  put_event_block h (Some b) m = <[n := (b, h)]> m.
Proof.
  intros Hd Hn. unfold put_event_block. rewrite (dense_next m n Hd) by lia. f_equal; lia.
Qed.

(** With at most 255 entries, the entry of a block is found again and removed. *)
Lemma delete_put_event_block e (m : gmap u32 (MainBlockHash * u32)) n h latest :
  seq_dense m n -> n <= 255 ->
  delete_event_block e h latest (put_event_block h latest m) = Ok m.
Proof.
  intros Hd Hn. destruct latest as [b|]; [|done]. rewrite (put_event_block_dense m n) by done.
  unfold delete_event_block.
  destruct (dense_last (<[n := (b, h)]> m) (n + 1)) as (v & Hv & ->);
    [by apply seq_dense_insert|lia|].
  replace (N.min (n + 1) 256 - 1) with n in * by lia. rewrite lookup_insert_eq in Hv.
  injection Hv as <-. cbn [ok_or mbind result_bind]. rewrite !N.eqb_refl.
  cbn [assert_ mbind result_bind]. rewrite lookup_insert_eq, bool_decide_true by eauto.
  cbn [ensure mbind result_bind]. f_equal. apply delete_insert_id.
  apply eq_None_not_Some. rewrite (Hd n). lia.
Qed.
End order.

(** ** Properties *)

(** Up to 255 recorded blocks, the book of deposit (or bundle event) blocks is
    a log: connecting a block appends its entry under the next sequence number,
    [last()] returns it, and disconnecting the block removes exactly it. *)
Theorem event_blocks_log `{Externals} (m : gmap u32 (MainBlockHash * u32)) (n : N)
    (e : Error) (h : u32) (b : MainBlockHash) :
  bincode_u32_spec -> seq_dense m n -> n <= 255 ->
  put_event_block h (Some b) m = <[n := (b, h)]> m /\
  seq_dense (put_event_block h (Some b) m) (n + 1) /\
  db_last_u32 (put_event_block h (Some b) m) = Some (n, (b, h)) /\
  delete_event_block e h (Some b) (put_event_block h (Some b) m) = Ok m.
Proof.
  intros Hspec Hd Hn. rewrite (delete_put_event_block Hspec e m n) by done.
  rewrite (put_event_block_dense Hspec m n) by done.
  assert (seq_dense (<[n := (b, h)]> m) (n + 1)) as Hd' by (by apply seq_dense_insert).
  split_and!; [done|done| |done]. destruct (dense_last Hspec _ _ Hd') as (v & Hv & ->); [lia|].
  replace (N.min (n + 1) 256 - 1) with n in * by lia. rewrite lookup_insert_eq in Hv.
  by injection Hv as <-.
Qed.

(** [n] blocks with an event, one per height from 7 on *)
Definition sample_book (n : nat) : gmap u32 (MainBlockHash * u32) :=
  list_to_map ((fun i => (N.of_nat i, (N.of_nat i + 100, N.of_nat i + 7))) <$> seq 0 n).

Lemma sample_book_dense n : seq_dense (sample_book n) (N.of_nat n).
Proof.
  intros i. unfold sample_book. split.
  - intros [v Hv]. apply elem_of_list_to_map_2, list_elem_of_fmap in Hv as (j & [= -> ->] & Hj).
    apply elem_of_seq in Hj. lia.
  - intros Hi. destruct (list_to_map _ !! i) eqn:Hl; [eauto|].
    apply not_elem_of_list_to_map_2 in Hl. exfalso. apply Hl. rewrite <-list_fmap_compose.
    apply list_elem_of_fmap. exists (N.to_nat i). cbn. split; [lia|]. apply elem_of_seq. lia.
Qed.

Lemma event_blocks_log_witness :
  @delete_event_block Sample.externals Error_NoDepositBlock 300 (Some 9)
    (@put_event_block Sample.externals 300 (Some 9) (sample_book 255)) = Ok (sample_book 255).
Proof.
  apply (@event_blocks_log Sample.externals (sample_book 255) 255 Error_NoDepositBlock 300 9
           Sample.bincode_le (sample_book_dense 255)). lia.
Defined.

(** C40 After 256 recorded blocks the order of the little-endian keys sets in:
    the next block is stored under 256 and so is the one after it, which
    overwrites it; and disconnecting a block recorded there compares it with the
    entry of the 256th block, which is another one, and panics. *)
Theorem event_blocks_stuck `{Externals} (m : gmap u32 (MainBlockHash * u32))
    (e : Error) (h1 h2 : u32) (b1 b2 b' : MainBlockHash) (h' : u32) :
  bincode_u32_spec -> seq_dense m 256 -> m !! 255 = Some (b', h') -> h' <> h1 ->
  put_event_block h1 (Some b1) m = <[256 := (b1, h1)]> m /\
  put_event_block h2 (Some b2) (put_event_block h1 (Some b1) m) = <[256 := (b2, h2)]> m /\
  db_last_u32 (put_event_block h1 (Some b1) m) = Some (255, (b', h')) /\
  delete_event_block e h1 (Some b1) (put_event_block h1 (Some b1) m) = Panic.
Proof.
  intros Hspec Hd Hm Hne.
  assert (put_event_block h1 (Some b1) m = <[256 := (b1, h1)]> m) as ->
    by (unfold put_event_block; by rewrite (dense_next Hspec m 256)).
  assert (seq_dense (<[256 := (b1, h1)]> m) 257) as Hd' by (by apply (seq_dense_insert m 256)).
  assert (db_last_u32 (<[256 := (b1, h1)]> m) = Some (255, (b', h'))) as Hl.
  { destruct (dense_last Hspec _ _ Hd') as (v & Hv & ->); [lia|].
    change (N.min 257 256 - 1) with 255 in *. rewrite lookup_insert_ne in Hv by done. congruence. }
  split_and!; [done| |done|].
  - unfold put_event_block. rewrite (dense_next Hspec _ 257 Hd') by lia.
    change (N.min 257 256) with 256. by rewrite insert_insert_eq.
  - unfold delete_event_block. rewrite Hl. cbn [ok_or mbind result_bind].
    destruct (b1 =? b'); [|done]. cbn [assert_ mbind result_bind].
    by rewrite (proj2 (N.eqb_neq h1 h')) by done.
Qed.

Lemma event_blocks_stuck_witness :
  @delete_event_block Sample.externals Error_NoDepositBlock 300 (Some 9)
    (@put_event_block Sample.externals 300 (Some 9) (sample_book 256)) = Panic.
Proof.
  refine (proj2 (proj2 (proj2 (@event_blocks_stuck Sample.externals (sample_book 256)
    Error_NoDepositBlock 300 301 9 10 355 262 Sample.bincode_le (sample_book_dense 256) _ _)))).
  - vm_compute. reflexivity.
  - discriminate.
Defined.
