(* ===== verification/PegRollback.v ===== *)
(** * Undoing two-way peg events

    [disconnect] of [src/lib/state/two_way_peg_data.rs] against [connect]: an
    invariant of the bundle database that the events of a block keep, under
    which each event, the sequence of events, and the whole block are undone. *)

From S2P Require Import Prelude Types Transaction Sample Rollback BitNames Authorization State.
From S2P Require Import WithdrawalBundle TwoWayPeg PegMoves.

(** ** Lookups after a move *)

Section lookups.
Implicit Types (s : State) (l : list (OutPoint * FilledOutput)).

Lemma spend_outputs_inv {E} (e : OutPoint -> E) m6id l s s' :
  NoDup l.*1 -> fold_res (spend_output e m6id) l s = Ok s' ->
  Forall (fun p => is_Some (st_utxos s !! p.1)) l /\ s' = spent_by m6id l s.
Proof.
  intros Hnd Hf.
  assert (Forall (fun p => is_Some (st_utxos s !! p.1)) l) as Hl.
  { clear Hnd. revert s Hf. induction l as [|p l IH]; intros s Hf; [constructor|].
    cbn [fold_res] in Hf. apply bind_Ok in Hf as (s1 & Hs & Hf). unfold spend_output in Hs.
    apply bind_Ok in Hs as ([] & Hb & [= <-]). apply ensure_Ok, bool_decide_eq_true_1 in Hb.
    constructor; [done|]. eapply Forall_impl; [exact (IH _ Hf)|]. cbn.
    intros q [x Hx]. apply lookup_delete_Some in Hx as [_ Hx]. eauto. }
  split; [done|]. rewrite spend_outputs_Ok in Hf by done. by injection Hf as <-.
Qed.

Lemma spent_by_utxos_in m6id l s o :
  o ∈ l.*1 -> st_utxos (spent_by m6id l s) !! o = None.
Proof.
  intros Ho. cbn. rewrite lookup_without. case_decide as Hd; [done|].
  by rewrite elem_of_list_to_set in Hd.
Qed.
Lemma spent_by_ne m6id l s o :
  o ∉ l.*1 -> st_utxos (spent_by m6id l s) !! o = st_utxos s !! o /\
    st_stxos (spent_by m6id l s) !! o = st_stxos s !! o.
Proof.
  intros Ho. cbn. rewrite lookup_without, lookup_union_r by (by apply entry_lookup_None).
  split; [|done]. case_decide as Hd; [|done]. by rewrite elem_of_list_to_set in Hd.
Qed.
Lemma unspent_by_stxos_in l s o : o ∈ l.*1 -> st_stxos (unspent_by l s) !! o = None.
Proof.
  intros Ho. cbn. rewrite lookup_without. case_decide as Hd; [done|].
  by rewrite elem_of_list_to_set in Hd.
Qed.
Lemma unspent_by_ne l s o :
  o ∉ l.*1 -> st_utxos (unspent_by l s) !! o = st_utxos s !! o /\
    st_stxos (unspent_by l s) !! o = st_stxos s !! o.
Proof.
  intros Ho. cbn. rewrite lookup_without, lookup_union_r by (by apply not_elem_of_list_to_map_1).
  split; [done|]. case_decide as Hd; [|done]. by rewrite elem_of_list_to_set in Hd.
Qed.
End lookups.

(** ** The invariant *)

(** An output is not both unspent and spent. *)
Definition spent_once (s : State) : Prop :=
  forall o, st_utxos s !! o = None \/ st_stxos s !! o = None.

(** The recorded output is in one of the two databases. *)
Definition located (s : State) (p : OutPoint * FilledOutput) : Prop :=
  st_utxos s !! p.1 = Some p.2 \/ exists inpoint, st_stxos s !! p.1 = Some (mkSpentOutput p.2 inpoint).

(** The status before the latest one *)
Definition prev_status (st : status_history) : option WithdrawalBundleStatus :=
  (fun r => hs_value (hs_latest r)) <$> (hs_pop st).1.

(** What holds of a known bundle: its outputs are withdrawals, recorded once each, and exist;
    once submitted they are spent by it; an unexpected submission does not
    follow the pending status. *)
Record bundle_wf (s : State) (m6id : M6id) (b : WithdrawalBundle) (st : status_history)
  : Prop := {
  bw_nodup : NoDup (wb_spend_utxos b).*1;
  bw_located : Forall (located s) (wb_spend_utxos b);
  bw_submitted : hs_value (hs_latest st) = Submitted ->
    prev_status st = Some Pending /\ entries_spent m6id s (wb_spend_utxos b);
  bw_unexpected : hs_value (hs_latest st) = SubmittedUnexpected -> prev_status st <> Some Pending;
  bw_withdrawals : Forall (fun p => filled_is_withdrawal (fo_content p.2) = true) (wb_spend_utxos b);
}.

Record peg_wf (s : State) : Prop := {
  pw_spent_once : spent_once s;
  pw_bundles : forall m6id b st, st_withdrawal_bundles s !! m6id = Some (Info_Known b, st) ->
    bundle_wf s m6id b st;
}.

(** Only the outputs and the bundles matter. *)
Lemma peg_wf_ext s s' :
  st_utxos s' = st_utxos s -> st_stxos s' = st_stxos s ->
  st_withdrawal_bundles s' = st_withdrawal_bundles s -> peg_wf s -> peg_wf s'.
Proof.
  intros Hu Hx Hb [Hs Hw]. split.
  - intros o. rewrite Hu, Hx. apply Hs.
  - rewrite Hb. intros m6id b st Hm. destruct (Hw m6id b st Hm) as [Hn Hl Hsub Hun Hwd].
    split; [done| | |done|done].
    + eapply Forall_impl; [exact Hl|]. intros p. unfold located. by rewrite Hu, Hx.
    + intros Hst. destruct (Hsub Hst) as [? He]. split; [done|].
      eapply Forall_impl; [exact He|]. intros p. by rewrite Hu, Hx.
Qed.

(** Located outputs that are unspent are recorded as they are. *)
Lemma located_unspent s l :
  spent_once s -> Forall (located s) l -> Forall (fun p => is_Some (st_utxos s !! p.1)) l ->
  entries_unspent s l.
Proof.
  intros Hs Hl Hu. apply Forall_forall. intros p Hp.
  rewrite Forall_forall in Hl, Hu. destruct (Hu p Hp) as [fo Hfo], (Hs p.1) as [Hn|Hn];
    [congruence|]. split; [|done]. destruct (Hl p Hp) as [?|[? ?]]; congruence.
Qed.

Section invariant_moves.
Context (s : State) (m6id : M6id) (l : list (OutPoint * FilledOutput)).
Hypothesis Hnd : NoDup l.*1.
Hypothesis Hs : spent_once s.

Lemma spent_once_spent_by : spent_once (spent_by m6id l s).
Proof.
  intros o. destruct (decide (o ∈ l.*1)) as [Ho|Ho].
  - left. by apply spent_by_utxos_in.
  - destruct (spent_by_ne m6id l s o Ho) as [-> ->]. apply Hs.
Qed.
Lemma spent_once_unspent_by : spent_once (unspent_by l s).
Proof.
  intros o. destruct (decide (o ∈ l.*1)) as [Ho|Ho].
  - right. by apply unspent_by_stxos_in.
  - destruct (unspent_by_ne l s o Ho) as [-> ->]. apply Hs.
Qed.

Lemma located_spent_by p :
  entries_unspent s l -> located s p -> located (spent_by m6id l s) p.
Proof.
  intros Hl Hp. destruct (decide (p.1 ∈ l.*1)) as [Ho|Ho].
  - apply list_elem_of_fmap in Ho as (q & Hq & Hin). right. exists (InPoint_Withdrawal m6id).
    rewrite Hq, spent_by_stxos by done. unfold entries_unspent in Hl.
    rewrite Forall_forall in Hl. destruct (Hl q Hin) as [Hu Hx].
    unfold located in Hp. rewrite Hq in Hp. unfold withdrawn.
    destruct Hp as [?|[? ?]]; congruence.
  - unfold located. destruct (spent_by_ne m6id l s _ Ho) as [-> ->]. done.
Qed.
Lemma located_unspent_by p :
  entries_spent m6id s l -> located s p -> located (unspent_by l s) p.
Proof.
  intros Hl Hp. destruct (decide (p.1 ∈ l.*1)) as [Ho|Ho].
  - apply list_elem_of_fmap in Ho as (q & Hq & Hin). left.
    rewrite Hq, unspent_by_utxos by done. unfold entries_spent in Hl.
    rewrite Forall_forall in Hl. destruct (Hl q Hin) as [Hx Hu].
    unfold located in Hp. rewrite Hq in Hp. unfold withdrawn in Hx.
    destruct Hp as [?|[? ?]]; congruence.
  - unfold located. destruct (unspent_by_ne l s _ Ho) as [-> ->]. done.
Qed.

Lemma entries_spent_spent_by m k :
  entries_unspent s l -> entries_spent m s k -> entries_spent m (spent_by m6id l s) k.
Proof.
  intros Hl Hk. eapply Forall_impl; [exact Hk|]. intros p [Hx Hu].
  assert (p.1 ∉ l.*1) as Ho.
  { intros (q & Hq & Hin)%list_elem_of_fmap. unfold entries_unspent in Hl.
    rewrite Forall_forall in Hl. destruct (Hl q Hin). congruence. }
  by destruct (spent_by_ne m6id l s _ Ho) as [-> ->].
Qed.
Lemma entries_spent_unspent_by m k :
  m <> m6id -> entries_spent m6id s l -> entries_spent m s k -> entries_spent m (unspent_by l s) k.
Proof.
  intros Hne Hl Hk. eapply Forall_impl; [exact Hk|]. intros p [Hx Hu].
  assert (p.1 ∉ l.*1) as Ho.
  { intros (q & Hq & Hin)%list_elem_of_fmap. unfold entries_spent, withdrawn in *.
    rewrite Forall_forall in Hl. destruct (Hl q Hin). congruence. }
  by destruct (unspent_by_ne l s _ Ho) as [-> ->].
Qed.
Lemma entries_spent_own : entries_spent m6id (spent_by m6id l s) l.
Proof.
  apply Forall_forall. intros p Hp. rewrite spent_by_stxos by done. split; [done|].
  apply spent_by_utxos_in. by apply list_elem_of_fmap_2.
Qed.
End invariant_moves.

(** A step on one bundle keeps the invariant when it keeps outputs in place and
    other bundles' outputs spent. *)
Lemma peg_wf_put s s' m6id e :
  peg_wf s -> st_withdrawal_bundles s' = <[m6id := e]> (st_withdrawal_bundles s) ->
  spent_once s' -> (forall p, located s p -> located s' p) ->
  (forall m k, m <> m6id -> entries_spent m s k -> entries_spent m s' k) ->
  (forall b, e.1 = Info_Known b -> bundle_wf s' m6id b e.2) -> peg_wf s'.
Proof.
  intros [_ Hw] Hb Hs Hl He Hown. split; [done|]. intros m b st. rewrite Hb.
  destruct (decide (m6id = m)) as [<-|Hne].
  - rewrite lookup_insert_eq. intros [= ->]. by apply Hown.
  - rewrite lookup_insert_ne by done. intros Hm. destruct (Hw m b st Hm) as [Hn Hlo Hsub Hun Hwd].
    split; [done| | |done|done].
    + eapply Forall_impl; [exact Hlo|done].
    + intros Hst. destruct (Hsub Hst) as [? Hk]. split; [done|]. by apply He.
Qed.

(** Bookkeeping alone moves no output. *)
Lemma peg_wf_put_status s m6id e :
  peg_wf s ->
  (forall b, e.1 = Info_Known b -> bundle_wf s m6id b e.2) ->
  peg_wf (put_bundle m6id e s).
Proof.
  intros Hw Hown. eapply (peg_wf_put s _ m6id e Hw); [done|apply Hw|done|done|].
  intros b Hb. by destruct (Hown b Hb).
Qed.

Lemma push_status_Ok {E} st x h st' :
  push_status (E := E) st x h = Ok st' ->
  hs_pop st' = (Some st, mkHeightStamped x h) /\ hs_latest st' = mkHeightStamped x h /\
  prev_status st' = Some (hs_value (hs_latest st)).
Proof.
  unfold push_status. destruct (hs_push st x h) as [r| |] eqn:Hp; intros [= <-].
  apply hs_pop_push in Hp as Hpop. apply hs_latest_push in Hp. split_and!; [done|done|].
  unfold prev_status. by rewrite Hpop.
Qed.

Lemma put_put_bundle m6id e e' s : put_bundle m6id e (put_bundle m6id e' s) = put_bundle m6id e s.
Proof. unfold put_bundle, set_bundles; cbn. by rewrite insert_insert_eq. Qed.
Lemma put_bundle_same m6id e s : st_withdrawal_bundles s !! m6id = Some e -> put_bundle m6id e s = s.
Proof. intros Hm. unfold put_bundle, set_bundles. rewrite insert_id by done. by destruct s. Qed.
Lemma delete_put_bundle m6id e s :
  st_withdrawal_bundles s !! m6id = None -> delete_bundle m6id (put_bundle m6id e s) = s.
Proof.
  intros Hm. unfold delete_bundle, put_bundle, set_bundles; cbn.
  rewrite delete_insert_id by done. by destruct s.
Qed.
Lemma put_bundle_lookup m6id e s : st_withdrawal_bundles (put_bundle m6id e s) !! m6id = Some e.
Proof. apply lookup_insert_eq. Qed.
Lemma set_pending_same s p q :
  st_pending_withdrawal_bundle s = p -> set_pending p (set_pending q s) = s.
Proof. intros <-. by destruct s. Qed.

(** Moves commute with the bookkeeping of bundles. *)
Lemma unspent_by_put l m6id e s : unspent_by l (put_bundle m6id e s) = put_bundle m6id e (unspent_by l s).
Proof. done. Qed.
Lemma unspent_by_pending l p s : unspent_by l (set_pending p s) = set_pending p (unspent_by l s).
Proof. done. Qed.
Lemma spent_by_put m l m6id e s : spent_by m l (put_bundle m6id e s) = put_bundle m6id e (spent_by m l s).
Proof. done. Qed.

(** ** Each event *)

Section events.
Context (h : u32) (ebh : MainBlockHash) (m6id : M6id).

(** The status in which the bundle was before *)
Lemma status_eqb_true a b : status_eqb a b = true <-> a = b.
Proof. apply bool_decide_eq_true. Qed.
Lemma status_eqb_false a b : status_eqb a b = false <-> a <> b.
Proof. apply bool_decide_eq_false. Qed.

Lemma submitted_pending_undo s ie s' ie' :
  peg_wf s -> st_pending_withdrawal_bundle s = Some m6id ->
  connect_withdrawal_bundle_submitted h ebh m6id (s, ie) = Ok (s', ie') ->
  peg_wf s' /\ disconnect_withdrawal_bundle_submitted h m6id s' = Ok s.
Proof.
  intros Hw Hp. unfold connect_withdrawal_bundle_submitted. rewrite decide_True by done.
  intros ([i st] & Hm & Hc)%bind_Ok. apply ok_or_Ok in Hm.
  apply bind_Ok in Hc as (b & Hb & Hc). destruct i as [b'| |]; try done. injection Hb as ->.
  apply bind_Ok in Hc as (s1 & Hf & Hc). apply bind_Ok in Hc as ([] & Ha & Hc).
  apply assert_Ok, status_eqb_true in Ha. apply bind_Ok in Hc as (st' & Hst & [= <- <-]).
  apply push_status_Ok in Hst as (Hpop & Hlast & Hprev).
  destruct (pw_bundles _ Hw _ _ _ Hm) as [Hnd Hloc _ _ Hwd]. pose proof (pw_spent_once _ Hw) as Hs.
  apply spend_outputs_inv in Hf as [Hu ->]; [|done].
  pose proof (located_unspent _ _ Hs Hloc Hu) as Hun.
  split.
  - apply (peg_wf_ext (put_bundle m6id (Info_Known b, st') (spent_by m6id (wb_spend_utxos b) s)));
      [done..|]. eapply (peg_wf_put s _ m6id (Info_Known b, st') Hw);
      [done|by apply spent_once_spent_by|intros; by apply located_spent_by| |].
    + intros m k _. by apply entries_spent_spent_by.
    + intros b0 [= <-]. cbn [snd]. split; [done| | |by rewrite Hlast|done].
      * eapply Forall_impl; [exact Hloc|]. intros p. by apply located_spent_by.
      * intros _. rewrite Hprev, Ha. split; [done|]. by apply entries_spent_own.
  - unfold disconnect_withdrawal_bundle_submitted. cbn [st_withdrawal_bundles set_pending].
    rewrite put_bundle_lookup, Hpop. cbn [hs_value hs_height is_submitted]. rewrite N.eqb_refl.
    cbn [assert_ mbind result_bind]. rewrite Ha. rewrite (proj2 (status_eqb_true _ _) eq_refl).
    rewrite unspend_outputs_Ok.
    + cbn [mbind result_bind]. rewrite unspent_by_pending, unspent_by_put.
      rewrite <-(unspent_by_Permutation (wb_spend_utxos b)), unspent_spent_by
        by (done || by rewrite reverse_Permutation).
      change (put_bundle m6id (Info_Known b, st) (set_pending ?p ?x))
        with (set_pending p (put_bundle m6id (Info_Known b, st) x)).
      change (put_bundle m6id (Info_Known b, st) (set_pending ?p ?x))
        with (set_pending p (put_bundle m6id (Info_Known b, st) x)).
      rewrite put_put_bundle, put_bundle_same by done. f_equal. by apply set_pending_same.
    + eapply NoDup_keys_Permutation; [|exact Hnd]. by rewrite reverse_Permutation.
    + apply Forall_reverse, Forall_forall. intros p Hin. cbn [st_stxos set_pending put_bundle set_bundles].
      rewrite spent_by_stxos by done. eauto.
Qed.

Lemma submitted_other_undo s ie s' ie' :
  peg_wf s -> st_pending_withdrawal_bundle s <> Some m6id ->
  connect_withdrawal_bundle_submitted h ebh m6id (s, ie) = Ok (s', ie') ->
  peg_wf s' /\ disconnect_withdrawal_bundle_submitted h m6id s' = Ok s.
Proof.
  intros Hw Hp. unfold connect_withdrawal_bundle_submitted. rewrite decide_False by done.
  unfold disconnect_withdrawal_bundle_submitted.
  destruct (st_withdrawal_bundles s !! m6id) as [[b st]|] eqn:Hm; intros Hc.
  - apply bind_Ok in Hc as ([] & Hr & Hc). apply bind_Ok in Hc as (st' & Hst & [= <- <-]).
    apply push_status_Ok in Hst as (Hpop & Hlast & Hprev).
    assert (forall b', b = Info_Known b' -> hs_value (hs_latest st) <> Pending) as Hnp.
    { intros b' -> Hl. unfold check_resubmission in Hr. by rewrite Hl in Hr. }
    split.
    + apply peg_wf_put_status; [done|]. cbn [fst snd]. intros b' ->.
      destruct (pw_bundles _ Hw _ _ _ Hm) as [Hnd Hloc _ _ Hwd]. split; [done|done|by rewrite Hlast| |done].
      intros _. rewrite Hprev. intros [= Hl]. by eapply Hnp.
    + rewrite put_bundle_lookup, Hpop. cbn [hs_value hs_height is_submitted]. rewrite N.eqb_refl.
      cbn [assert_ mbind result_bind].
      destruct b as [b| |]; cbn [mbind result_bind];
        [rewrite (proj2 (status_eqb_false _ _)) by (by eapply Hnp)|..];
        cbn [mbind result_bind]; by rewrite put_put_bundle, put_bundle_same.
  - injection Hc as <- <-. split; [by apply peg_wf_put_status|].
    rewrite put_bundle_lookup, hs_pop_new. cbn [hs_value hs_height is_submitted].
    rewrite N.eqb_refl. cbn [assert_ mbind result_bind]. by rewrite delete_put_bundle.
Qed.

Lemma submitted_undo s ie s' ie' :
  peg_wf s -> connect_withdrawal_bundle_submitted h ebh m6id (s, ie) = Ok (s', ie') ->
  peg_wf s' /\ disconnect_withdrawal_bundle_submitted h m6id s' = Ok s.
Proof.
  intros Hw. destruct (decide (st_pending_withdrawal_bundle s = Some m6id)).
  - by apply submitted_pending_undo.
  - by apply submitted_other_undo.
Qed.

(** A confirmation spends the outputs of an unexpected bundle, or everything for
    an unknown one in the first block; [l] is what it spends. *)
Definition confirm_spends s b st (l : list (OutPoint * FilledOutput)) (b' : WithdrawalBundleInfo)
  : Prop :=
  match b with
  | Info_Known k => b' = b /\
      l = if status_eqb (hs_value (hs_latest st)) SubmittedUnexpected then wb_spend_utxos k else []
  | Info_Unknown => h = 0 /\ l = btree_entries (st_utxos s) /\ b' = Info_UnknownConfirmed l
  | Info_UnknownConfirmed _ => False
  end.

Lemma spent_by_nil m s : spent_by m [] s = s.
Proof. unfold spent_by; cbn. rewrite without_empty, map_empty_union. by destruct s. Qed.

Lemma spend_all m s :
  set_utxos ∅ (set_stxos (foldl (fun x p => <[p.1 := withdrawn m p.2]> x) (st_stxos s)
    (btree_entries (st_utxos s))) s) = spent_by m (btree_entries (st_utxos s)) s.
Proof.
  pose proof (NoDup_fst_btree_entries (st_utxos s)) as Hnd.
  unfold spent_by, set_utxos, set_stxos; cbn. f_equal.
  - symmetry. apply map_empty. intros o. rewrite lookup_without. case_decide as Ho; [done|].
    rewrite elem_of_list_to_set in Ho. destruct (st_utxos s !! o) as [fo|] eqn:Hu; [|done].
    exfalso. apply Ho. apply (list_elem_of_fmap_2 fst _ (o, fo)). by apply elem_of_btree_entries.
  - revert Hnd. generalize (st_stxos s). induction (btree_entries (st_utxos s)) as [|p l IH];
      intros x Hnd; cbn; [by rewrite map_empty_union|].
    cbn in Hnd. apply NoDup_cons in Hnd as [Hnin Hnd]. rewrite IH by done.
    rewrite <-insert_union_l, <-insert_union_r; [done|].
    by apply entry_lookup_None.
Qed.

Lemma confirmed_inv s s' :
  peg_wf s -> connect_withdrawal_bundle_confirmed h ebh m6id s = Ok s' ->
  exists b st, st_withdrawal_bundles s !! m6id = Some (b, st) /\
    (hs_value (hs_latest st) = Confirmed /\ s' = s \/
     exists l b' st', is_submitted (hs_value (hs_latest st)) = true /\
       confirm_spends s b st l b' /\ NoDup l.*1 /\ entries_unspent s l /\
       push_status (E := Error) st Confirmed h = Ok st' /\
       s' = put_bundle m6id (b', st') (spent_by m6id l s)).
Proof.
  intros Hw. unfold connect_withdrawal_bundle_confirmed.
  intros ([b st] & Hm & Hc)%bind_Ok. apply ok_or_Ok in Hm. exists b, st. split; [done|].
  destruct (status_eqb _ Confirmed) eqn:Hcf.
  { apply status_eqb_true in Hcf. injection Hc as <-. by left. }
  right. apply bind_Ok in Hc as ([] & Hsub & Hc). apply assert_Ok in Hsub.
  apply bind_Ok in Hc as ([b' s1] & Hsp & Hc). apply bind_Ok in Hc as (st' & Hst & [= <-]).
  pose proof (pw_spent_once _ Hw) as Hs.
  assert (exists l, confirm_spends s b st l b' /\ NoDup l.*1 /\ entries_unspent s l /\
    s1 = spent_by m6id l s) as (l & ? & ? & ? & ->); [|by exists l, b', st'].
  destruct b as [b| |u]; [|destruct (N.eqb_spec h 0); [|done]|done].
  - destruct (pw_bundles _ Hw _ _ _ Hm) as [Hnd Hloc _ _ Hwd]. cbn [confirm_spends].
    destruct (status_eqb _ SubmittedUnexpected).
    + apply bind_Ok in Hsp as (s2 & Hf & [= <- <-]). apply spend_outputs_inv in Hf as [Hu ->]; [|done].
      exists (wb_spend_utxos b). split_and!; try done. by apply located_unspent.
    + injection Hsp as <- <-. exists []. split_and!; [done|done|constructor|constructor|].
      by rewrite spent_by_nil.
  - injection Hsp as <- <-. exists (btree_entries (st_utxos s)). rewrite spend_all.
    split_and!; [by split_and!|apply NoDup_fst_btree_entries| |done].
    apply Forall_forall. intros [o fo] Ho. apply elem_of_btree_entries in Ho. split; [done|].
    cbn. destruct (Hs o) as [Hn|Hn]; [congruence|done].
Qed.

Lemma confirmed_undo s s' :
  peg_wf s ->
  (forall b st, st_withdrawal_bundles s !! m6id = Some (b, st) ->
    hs_value (hs_latest st) <> Confirmed) ->
  connect_withdrawal_bundle_confirmed h ebh m6id s = Ok s' ->
  peg_wf s' /\ disconnect_withdrawal_bundle_confirmed h m6id s' = Ok s.
Proof.
  intros Hw Hnc Hc. apply confirmed_inv in Hc as (b & st & Hm & Hc); [|done].
  destruct Hc as [[Hcf _]|(l & b' & st' & Hsub & Hsp & Hnd & Hun & Hst & ->)];
    [by destruct (Hnc _ _ Hm)|].
  apply push_status_Ok in Hst as (Hpop & Hlast & _). split.
  - eapply (peg_wf_put s _ m6id (b', st') Hw);
      [done|apply spent_once_spent_by, Hw|intros; by apply located_spent_by| |].
    + intros m k _. by apply entries_spent_spent_by.
    + cbn [fst snd]. intros k ->. destruct b as [b| |u]; [|by destruct Hsp as (_ & _ & ?)|done].
      destruct Hsp as [[= ->] _], (pw_bundles _ Hw _ _ _ Hm) as [? Hloc _ _ Hwd].
      split; [done| |by rewrite Hlast|by rewrite Hlast|done].
      eapply Forall_impl; [exact Hloc|]. intros p. by apply located_spent_by.
  - unfold disconnect_withdrawal_bundle_confirmed. rewrite put_bundle_lookup.
    cbn [ok_or mbind result_bind]. rewrite Hpop. cbn [hs_value hs_height is_submitted].
    rewrite (proj2 (status_eqb_true _ _) eq_refl), N.eqb_refl.
    cbn [assert_ mbind result_bind expect]. rewrite Hsub. cbn [assert_ mbind result_bind].
    destruct b as [b| |u]; [| |done].
    + destruct Hsp as [-> ->]. destruct (status_eqb _ SubmittedUnexpected).
      * rewrite unspend_outputs_Ok; [|done|].
        -- cbn [mbind result_bind]. rewrite unspent_by_put, unspent_spent_by, put_put_bundle by done.
           by rewrite put_bundle_same.
        -- apply Forall_forall. intros p Hp. cbn [st_stxos put_bundle set_bundles].
           rewrite spent_by_stxos by done. eauto.
      * cbn [mbind result_bind]. rewrite spent_by_nil, put_put_bundle. by rewrite put_bundle_same.
    + destruct Hsp as (_ & Hl & ->). rewrite unspend_outputs_Ok; [|done|].
      * cbn [mbind result_bind]. rewrite unspent_by_put, unspent_spent_by, put_put_bundle by done.
        by rewrite put_bundle_same.
      * apply Forall_forall. intros p Hp. cbn [st_stxos put_bundle set_bundles].
        rewrite spent_by_stxos by done. eauto.
Qed.

Lemma latest_failed_undo {E} s s' :
  push_latest_failed (E := E) h m6id s = Ok s' ->
  exists lf, s' = set_latest_failed (Some lf) s /\
    hs_pop lf = (st_latest_failed_withdrawal_bundle s, mkHeightStamped m6id h).
Proof.
  unfold push_latest_failed. intros (lf & Hlf & [= <-])%bind_Ok. exists lf. split; [done|].
  destruct (st_latest_failed_withdrawal_bundle s) as [old|].
  - destruct (hs_push old m6id h) as [r| |] eqn:Hp; try done. injection Hlf as <-.
    by apply hs_pop_push in Hp.
  - injection Hlf as <-. apply hs_pop_new.
Qed.

(** A failure of a bundle the state submitted itself gives its outputs back and
    is recorded as the latest failure; any other failure is only a status. *)
Lemma failed_inv s s' :
  peg_wf s -> connect_withdrawal_bundle_failed h m6id s = Ok s' ->
  exists b st, st_withdrawal_bundles s !! m6id = Some (b, st) /\
    (hs_value (hs_latest st) = Failed /\ s' = s \/
     exists st' s1, is_submitted (hs_value (hs_latest st)) = true /\
       push_status (E := Error) st Failed h = Ok st' /\ s' = put_bundle m6id (b, st') s1 /\
       match b with
       | Info_Known k =>
           if status_eqb (hs_value (hs_latest st)) SubmittedUnexpected then s1 = s
           else NoDup (wb_spend_utxos k).*1 /\ entries_spent m6id s (wb_spend_utxos k) /\
             push_latest_failed (E := Error) h m6id (unspent_by (wb_spend_utxos k) s) = Ok s1
       | _ => s1 = s
       end).
Proof.
  intros Hw. unfold connect_withdrawal_bundle_failed.
  intros ([b st] & Hm & Hc)%bind_Ok. apply ok_or_Ok in Hm. exists b, st. split; [done|].
  destruct (status_eqb _ Failed) eqn:Hcf.
  { apply status_eqb_true in Hcf. injection Hc as <-. by left. }
  right. apply bind_Ok in Hc as ([] & Hsub & Hc). apply assert_Ok in Hsub.
  apply bind_Ok in Hc as (s1 & Hsp & Hc). apply bind_Ok in Hc as (st' & Hst & [= <-]).
  exists st', s1. split_and!; [done|done|done|].
  destruct b as [b| |u]; [|by injection Hsp as <-..].
  destruct (status_eqb _ SubmittedUnexpected) eqn:Hun; [by injection Hsp as <-|].
  destruct (pw_bundles _ Hw _ _ _ Hm) as [Hnd _ Hs _ _].
  destruct Hs as [_ Hs]; [by destruct (hs_value (hs_latest st))|].
  split_and!; [done|done|]. by rewrite <-give_back_all.
Qed.

Lemma failed_undo s s' :
  peg_wf s ->
  (forall b st, st_withdrawal_bundles s !! m6id = Some (b, st) ->
    hs_value (hs_latest st) <> Failed) ->
  connect_withdrawal_bundle_failed h m6id s = Ok s' ->
  peg_wf s' /\ disconnect_withdrawal_bundle_failed h m6id s' = Ok s.
Proof.
  intros Hw Hnf Hc. apply failed_inv in Hc as (b & st & Hm & Hc); [|done].
  destruct Hc as [[Hcf _]|(st' & s1 & Hsub & Hst & -> & Hs1)]; [by destruct (Hnf _ _ Hm)|].
  apply push_status_Ok in Hst as (Hpop & Hlast & _).
  assert (forall k, b = Info_Known k -> NoDup (wb_spend_utxos k).*1 /\
    Forall (located s) (wb_spend_utxos k) /\
    Forall (fun p => filled_is_withdrawal (fo_content p.2) = true) (wb_spend_utxos k)) as Hb.
  { intros k ->. by destruct (pw_bundles _ Hw _ _ _ Hm). }
  unfold disconnect_withdrawal_bundle_failed. rewrite put_bundle_lookup.
  cbn [ok_or mbind result_bind]. rewrite Hpop. cbn [hs_value hs_height].
  rewrite (proj2 (status_eqb_true _ _) eq_refl), (proj2 (status_eqb_false Failed Submitted)) by done.
  rewrite N.eqb_refl. cbn [assert_ mbind result_bind expect]. rewrite Hsub.
  cbn [assert_ mbind result_bind].
  assert (s1 = s -> peg_wf (put_bundle m6id (b, st') s1) /\
    Ok (E := Error) (put_bundle m6id (b, st) (put_bundle m6id (b, st') s1)) = Ok s) as Hstatus.
  { intros ->. rewrite put_put_bundle, (put_bundle_same _ (b, st)) by done. split; [|done].
    apply peg_wf_put_status; [done|]. cbn [fst snd]. intros k Hk. destruct (Hb k Hk) as (? & ? & ?).
    split; [done|done|by rewrite Hlast|by rewrite Hlast|done]. }
  destruct b as [b| |u]; [|by apply Hstatus..].
  destruct (status_eqb (hs_value (hs_latest st)) SubmittedUnexpected); [by apply Hstatus|].
  destruct Hs1 as (Hnd & Hsp & Hlf). apply latest_failed_undo in Hlf as (lf & -> & Hlf).
  destruct (Hb b eq_refl) as (_ & Hloc & Hwd). split.
  - apply (peg_wf_ext (put_bundle m6id (Info_Known b, st') (unspent_by (wb_spend_utxos b) s)));
      [done..|]. eapply (peg_wf_put s _ m6id (Info_Known b, st') Hw);
      [done|apply spent_once_unspent_by, Hw|intros; by eapply located_unspent_by| |].
    + intros m k Hne. by eapply entries_spent_unspent_by.
    + intros b0 [= <-]. cbn [snd]. split; [done| |by rewrite Hlast|by rewrite Hlast|done].
      eapply Forall_impl; [exact Hloc|]. intros p. by eapply located_unspent_by.
  - rewrite (fold_res_ext (take_back m6id) (spend_output Error_NoUtxo m6id) (fun _ => True))
      by (intros; by rewrite ?take_back_spend).
    rewrite spend_outputs_Ok.
    + cbn [mbind result_bind]. rewrite spent_by_put.
      change (spent_by ?m ?l (set_latest_failed ?x ?y)) with (set_latest_failed x (spent_by m l y)).
      rewrite <-(spent_by_Permutation m6id (wb_spend_utxos b)), spent_unspent_by
        by (done || by rewrite reverse_Permutation).
      unfold pop_latest_failed. cbn [st_latest_failed_withdrawal_bundle put_bundle set_bundles
        set_latest_failed expect mbind result_bind]. rewrite Hlf. cbn [hs_value hs_height].
      rewrite !N.eqb_refl. cbn [assert_ mbind result_bind]. f_equal.
      transitivity (put_bundle m6id (Info_Known b, st) (put_bundle m6id (Info_Known b, st') s));
        [by destruct s|]. by rewrite put_put_bundle, put_bundle_same.
    + eapply NoDup_keys_Permutation; [|exact Hnd]. by rewrite reverse_Permutation.
    + apply Forall_reverse, Forall_forall. intros p Hin.
      change (st_utxos _) with (st_utxos (unspent_by (wb_spend_utxos b) s)).
      rewrite unspent_by_utxos by done. eauto.
Qed.
End events.

(** ** What an event does to the outputs *)

(** The output databases of [s'] are those of [s], or a bundle's outputs were
    spent, or given back. An unknown bundle spends more than withdrawals, but only
    in the first block. *)
Definition all_withdrawals (l : list (OutPoint * FilledOutput)) : Prop :=
  Forall (fun p => filled_is_withdrawal (fo_content p.2) = true) l.
Inductive moves (plain : Prop) (s : State) : State -> Prop :=
| moves_none : moves plain s s
| moves_spent m6id l : NoDup l.*1 -> entries_unspent s l -> (plain -> all_withdrawals l) ->
    moves plain s (spent_by m6id l s)
| moves_back m6id l : NoDup l.*1 -> entries_spent m6id s l -> all_withdrawals l ->
    moves plain s (unspent_by l s).
Definition same_outputs (s s' : State) : Prop :=
  st_utxos s' = st_utxos s /\ st_stxos s' = st_stxos s.

(** A submission spends the outputs of the pending bundle, or nothing. *)
Lemma submitted_moves plain h ebh m6id s ie s' ie' :
  peg_wf s -> connect_withdrawal_bundle_submitted h ebh m6id (s, ie) = Ok (s', ie') ->
  exists s1, moves plain s s1 /\ same_outputs s1 s'.
Proof.
  intros Hw. unfold connect_withdrawal_bundle_submitted. case_decide as Hp.
  - intros ([i st] & Hm & Hc)%bind_Ok. apply ok_or_Ok in Hm.
    apply bind_Ok in Hc as (b & Hb & Hc). destruct i as [b'| |]; try done. injection Hb as ->.
    apply bind_Ok in Hc as (s1 & Hf & Hc). apply bind_Ok in Hc as ([] & _ & Hc).
    apply bind_Ok in Hc as (st' & _ & [= <- <-]).
    destruct (pw_bundles _ Hw _ _ _ Hm) as [Hnd Hloc _ _ Hwd].
    apply spend_outputs_inv in Hf as [Hu ->]; [|done].
    exists (spent_by m6id (wb_spend_utxos b) s). split; [|done].
    apply moves_spent; [done| |done]. apply located_unspent; [apply Hw|done|done].
  - intros Hc. exists s. split; [apply moves_none|].
    destruct (st_withdrawal_bundles s !! m6id) as [[b st]|]; [|by injection Hc as <- <-].
    apply bind_Ok in Hc as ([] & _ & Hc). by apply bind_Ok in Hc as (st' & _ & [= <- <-]).
Qed.

Lemma bundle_event_moves h ebh e s ie s' ie' :
  peg_wf s -> connect_withdrawal_bundle_event h ebh e (s, ie) = Ok (s', ie') ->
  exists s1, moves (h <> 0 \/ wbe_status e <> Event_Confirmed) s s1 /\ same_outputs s1 s'.
Proof.
  intros Hw. unfold connect_withdrawal_bundle_event. destruct e as [m6id []]; cbn [wbe_status wbe_m6id].
  - intros (s1 & Hc & [= <- <-])%bind_Ok. apply confirmed_inv in Hc as (b & st & Hm & Hc); [|done].
    destruct Hc as [[_ ->]|(l & b' & st' & _ & Hsp & Hnd & Hun & _ & ->)];
      [exists s; split; [apply moves_none|done]|].
    exists (spent_by m6id l s). split; [|done]. apply moves_spent; [done|done|]. intros Hpl.
    destruct b as [b| |u]; cbn in Hsp; [|naive_solver|done].
    destruct Hsp as [_ ->], (pw_bundles _ Hw _ _ _ Hm) as [_ _ _ _ Hwd].
    destruct (status_eqb _ _); [done|constructor].
  - intros (s1 & Hc & [= <- <-])%bind_Ok. apply failed_inv in Hc as (b & st & Hm & Hc); [|done].
    destruct Hc as [[_ ->]|(st' & s1' & _ & _ & -> & Hs1)]; [exists s; split; [apply moves_none|done]|].
    destruct b as [b| |u]; [|subst s1'; exists s; split; [apply moves_none|done]..].
    destruct (status_eqb _ _); [subst s1'; exists s; split; [apply moves_none|done]|].
    destruct Hs1 as (Hnd & Hsp & Hlf). apply latest_failed_undo in Hlf as (lf & -> & _).
    exists (unspent_by (wb_spend_utxos b) s). split; [|done].
    eapply moves_back; [done|done|]. by destruct (pw_bundles _ Hw _ _ _ Hm).
  - intros Hc%map_err_Ok. by eapply submitted_moves.
Qed.

(** An event that the state has not seen yet: a deposit to an outpoint that does
    not exist, a confirmation (failure) of a bundle that is not already confirmed
    (failed). *)
Definition event_fresh (s : State) (p : MainBlockHash * BlockEvent) : bool :=
  match p.2 with
  | BlockEvent_Deposit d =>
      bool_decide (st_utxos s !! deposit_outpoint d = None) &&
      bool_decide (st_stxos s !! deposit_outpoint d = None)
  | BlockEvent_WithdrawalBundle e =>
      match st_withdrawal_bundles s !! wbe_m6id e with
      | Some (_, st) =>
          match wbe_status e with
          | Event_Submitted => true
          | Event_Confirmed => negb (status_eqb (hs_value (hs_latest st)) Confirmed)
          | Event_Failed => negb (status_eqb (hs_value (hs_latest st)) Failed)
          end
      | None => true
      end
  end.

(** Every event is fresh when its turn comes. *)
Fixpoint events_fresh (h : u32) (l : list (MainBlockHash * BlockEvent)) (acc : PegAcc) : bool :=
  match l with
  | [] => true
  | e :: l =>
      event_fresh (pa_state acc) e &&
      match connect_2wpd_event h acc e with Ok acc' => events_fresh h l acc' | _ => true end
  end.

Lemma deposit_undo s d :
  peg_wf s -> st_utxos s !! deposit_outpoint d = None -> st_stxos s !! deposit_outpoint d = None ->
  peg_wf (set_utxos (<[deposit_outpoint d := dep_output d]> (st_utxos s)) s).
Proof.
  intros [Hs Hw] Hu Hx. split.
  - intros o. cbn. destruct (decide (deposit_outpoint d = o)) as [<-|Hne]; [by right|].
    rewrite lookup_insert_ne by done. apply Hs.
  - cbn. intros m b st Hm. destruct (Hw m b st Hm) as [Hnd Hloc Hsub Hun Hwd].
    assert (forall p, located s p -> p.1 <> deposit_outpoint d) as Hne.
    { intros p [Hp|[? Hp]] Heq; rewrite Heq in Hp; congruence. }
    split; [done| | |done|done].
    + eapply Forall_impl; [exact Hloc|]. intros p Hp. pose proof (Hne p Hp).
      destruct Hp as [Hp|Hp]; [left|right; done]. cbn. by rewrite lookup_insert_ne.
    + intros Hst. destruct (Hsub Hst) as [? He]. split; [done|].
      eapply Forall_impl; [exact He|]. intros p [Hp1 Hp2]. split; [done|]. cbn.
      rewrite lookup_insert_ne; [done|]. intros Heq. rewrite <-Heq in Hp1. congruence.
Qed.

(** One event of the loop and its undoing *)
Lemma connect_event_undo h acc e acc' :
  peg_wf (pa_state acc) -> event_fresh (pa_state acc) e = true ->
  connect_2wpd_event h acc e = Ok acc' ->
  peg_wf (pa_state acc') /\
  forall ld lb, disconnect_event h (mkUnpegAcc (pa_state acc') ld lb) e =
    Ok (mkUnpegAcc (pa_state acc)
          (match e.2 with BlockEvent_Deposit _ => keep_first ld e.1 | _ => ld end)
          (match e.2 with BlockEvent_Deposit _ => lb | _ => keep_first lb e.1 end)).
Proof.
  destruct e as [ebh [d|e]]; unfold event_fresh; cbn [fst snd]; intros Hw Hf Hc;
    unfold connect_2wpd_event in Hc.
  - apply andb_true_iff in Hf as [Hu%bool_decide_eq_true_1 Hx%bool_decide_eq_true_1].
    injection Hc as <-. cbn [pa_state]. split; [by apply deposit_undo|]. intros ld lb.
    unfold disconnect_event. cbn [ua_state ua_latest_deposit ua_latest_bundle_event st_utxos set_utxos].
    rewrite lookup_insert_eq, bool_decide_true by eauto. cbn [ensure mbind result_bind].
    rewrite delete_insert_id by done. by destruct (pa_state acc).
  - apply bind_Ok in Hc as ([s' ie'] & Hc & [= <-]). cbn [pa_state].
    unfold disconnect_event. cbn [ua_state ua_latest_deposit ua_latest_bundle_event].
    enough (peg_wf s' /\ disconnect_withdrawal_bundle_event h e s' = Ok (pa_state acc)) as [? ->]
      by done.
    unfold connect_withdrawal_bundle_event in Hc. unfold disconnect_withdrawal_bundle_event.
    destruct e as [m6id []]; cbn [wbe_status wbe_m6id] in *.
    + apply bind_Ok in Hc as (s1 & Hc & [= <- <-]). eapply confirmed_undo; [done| |done].
      intros b st Hm. rewrite Hm in Hf. by apply negb_true_iff, status_eqb_false in Hf.
    + apply bind_Ok in Hc as (s1 & Hc & [= <- <-]). eapply failed_undo; [done| |done].
      intros b st Hm. rewrite Hm in Hf. by apply negb_true_iff, status_eqb_false in Hf.
    + apply map_err_Ok in Hc. by eapply submitted_undo.
Qed.

(** The blocks of the events, as the two loops note them: forwards the last one
    wins, backwards the first *)
Definition last_deposit (l : list (MainBlockHash * BlockEvent)) (d : option MainBlockHash) :=
  foldl (fun d e => match e.2 with BlockEvent_Deposit _ => Some e.1 | _ => d end) d l.
Definition last_bundle_event (l : list (MainBlockHash * BlockEvent)) (d : option MainBlockHash) :=
  foldl (fun d e => match e.2 with BlockEvent_Deposit _ => d | _ => Some e.1 end) d l.

Lemma connect_events_latest h l acc acc' :
  fold_res (connect_2wpd_event h) l acc = Ok acc' ->
  pa_latest_deposit acc' = last_deposit l (pa_latest_deposit acc) /\
  pa_latest_bundle_event acc' = last_bundle_event l (pa_latest_bundle_event acc).
Proof.
  revert acc. induction l as [|[ebh e] l IH]; intros acc Hf; cbn [fold_res] in Hf.
  { by injection Hf as <-. }
  apply bind_Ok in Hf as (acc1 & Hc & Hf). apply IH in Hf as [-> ->]. cbn.
  unfold connect_2wpd_event in Hc. destruct e as [d|e].
  - by injection Hc as <-.
  - by apply bind_Ok in Hc as ([s' ie'] & _ & [= <-]).
Qed.

(** The events of a block are undone in reverse, and the undoing finds the same
    latest blocks. *)
Lemma connect_events_undo h l acc acc' :
  peg_wf (pa_state acc) -> events_fresh h l acc = true ->
  fold_res (connect_2wpd_event h) l acc = Ok acc' ->
  peg_wf (pa_state acc') /\
  fold_res (disconnect_event h) (reverse l) (mkUnpegAcc (pa_state acc') None None) =
    Ok (mkUnpegAcc (pa_state acc) (last_deposit l None) (last_bundle_event l None)).
Proof.
  revert acc. induction l as [|e l IH]; intros acc Hw Hfr Hf; cbn [fold_res] in Hf.
  { by injection Hf as <-. }
  apply bind_Ok in Hf as (acc1 & Hc & Hf). cbn [events_fresh] in Hfr. rewrite Hc in Hfr.
  apply andb_true_iff in Hfr as [He Hfr].
  apply connect_event_undo in Hc as [Hw1 Hu]; [|done..].
  destruct (IH acc1 Hw1 Hfr Hf) as [Hw' Hundo]. split; [done|].
  rewrite reverse_cons, fold_res_snoc, Hundo. cbn [mbind result_bind]. rewrite Hu. do 2 f_equal.
  - unfold last_deposit. cbn. destruct (e.2); [|done].
    enough (forall d, foldl (fun d e => match e.2 with BlockEvent_Deposit _ => Some e.1 | _ => d end)
      (Some d) l = keep_first (last_deposit l None) d) by done.
    clear. intros d. unfold last_deposit. induction l as [|[? []] l IHl] using rev_ind; [done|..];
      by rewrite !foldl_app; cbn.
  - unfold last_bundle_event. cbn. destruct (e.2); [done|].
    enough (forall d, foldl (fun d e => match e.2 with BlockEvent_Deposit _ => d | _ => Some e.1 end)
      (Some d) l = keep_first (last_bundle_event l None) d) by done.
    clear. intros d. unfold last_bundle_event.
    induction l as [|[? []] l IHl] using rev_ind; [done|..]; by rewrite !foldl_app; cbn.
Qed.
