(* ===== verification/PegChain.v ===== *)
(** * A block's two-way peg data, connected and disconnected

    [TwoWayPegData] as a whole ([connect] and [disconnect] of
    [src/lib/state/two_way_peg_data.rs]): the invariant of the bundles is kept,
    a block that proposes no bundle is undone exactly, and a proposal alone is
    retracted exactly. *)

From S2P Require Import Prelude Types Transaction Sample Rollback BitNames Authorization State.
From S2P Require Import WithdrawalBundle TwoWayPeg PegMoves PegBooks PegRollback.

(** ** The databases the events do not touch *)

(** The tip, the BitNames, the index of events and the two books *)
Record Frame : Type := mkFrame {
  fr_tip : option BlockHash;
  fr_height : option u32;
  fr_bitnames : Dbs;
  fr_index_events : gmap u32 BlockIndexEvents;
  fr_deposit_blocks : gmap u32 (MainBlockHash * u32);
  fr_event_blocks : gmap u32 (MainBlockHash * u32);
}.
Definition frame_of (s : State) : Frame :=
  mkFrame (st_tip s) (st_height s) (st_bitnames s) (st_block_index_events s) (st_deposit_blocks s)
    (st_withdrawal_bundle_event_blocks s).
Definition set_frame (fr : Frame) (s : State) : State :=
  set_event_blocks (fr_event_blocks fr) (set_deposit_blocks (fr_deposit_blocks fr)
    (set_index_events (fr_index_events fr)
      (set_bitname_dbs (fr_bitnames fr) (set_tip (fr_tip fr) (fr_height fr) s)))).

Lemma set_frame_of s : set_frame (frame_of s) s = s.
Proof. by destruct s. Qed.
Lemma frame_of_set fr s : frame_of (set_frame fr s) = fr.
Proof. by destruct fr. Qed.
Lemma set_frame_set fr fr' s : set_frame fr (set_frame fr' s) = set_frame fr s.
Proof. done. Qed.

(** A step that neither reads nor writes them *)
Class Framed {E} (f : State -> result E State) : Prop :=
  framed fr s : f (set_frame fr s) = set_frame fr <$> f s.

#[export] Instance framed_fold {E A} (f : State -> A -> result E State) l :
  (forall a, Framed (fun s => f s a)) -> Framed (fold_res f l).
Proof. intros Hf fr s. apply fold_res_frame. intros. apply Hf. Qed.
#[export] Instance framed_unspend {E} (e : OutPoint -> E) p : Framed (fun s => unspend_output e s p).
Proof. intros fr s. unfold unspend_output. cbn. by destruct (bool_decide _). Qed.
#[export] Instance framed_take_back m6id p : Framed (fun s => take_back m6id s p).
Proof. intros fr s. unfold take_back. cbn. by destruct (bool_decide _). Qed.
#[export] Instance framed_pop_latest_failed h m6id : Framed (pop_latest_failed h m6id).
Proof.
  intros fr s. unfold pop_latest_failed. cbn.
  destruct (st_latest_failed_withdrawal_bundle s) as [lf|]; [|done]. cbn.
  destruct (hs_pop lf) as [prev x]. destruct (hs_value x =? m6id); [|done]. cbn.
  by destruct (hs_height x =? h).
Qed.
#[export] Instance framed_disconnect_submitted h m6id :
  Framed (disconnect_withdrawal_bundle_submitted h m6id).
Proof.
  intros fr s. unfold disconnect_withdrawal_bundle_submitted.
  cbn [st_withdrawal_bundles st_pending_withdrawal_bundle set_frame set_event_blocks
    set_deposit_blocks set_index_events set_bitname_dbs set_tip].
  destruct (st_withdrawal_bundles s !! m6id) as [[b st]|]; [|by case_decide].
  destruct (hs_pop st) as [prev x]. destruct (is_submitted _); [|done].
  cbn [assert_ mbind result_bind]. destruct (_ =? _); [|done]. cbn [assert_ mbind result_bind].
  destruct b as [b| |], prev as [prev|]; try done.
  destruct (status_eqb _ _); [|done].
  rewrite (framed (f := fold_res _ _)). by destruct (fold_res _ _ s).
Qed.
#[export] Instance framed_disconnect_confirmed h m6id :
  Framed (disconnect_withdrawal_bundle_confirmed h m6id).
Proof.
  intros fr s. unfold disconnect_withdrawal_bundle_confirmed.
  cbn [st_withdrawal_bundles set_frame set_event_blocks set_deposit_blocks set_index_events set_bitname_dbs set_tip].
  destruct (st_withdrawal_bundles s !! m6id) as [[b st]|]; [|done]. cbn [ok_or mbind result_bind].
  destruct (hs_pop st) as [prev x]. destruct (is_submitted _); [done|].
  destruct (status_eqb _ _); [|done]. cbn [assert_ mbind result_bind].
  destruct (_ =? _); [|done]. cbn [assert_ mbind result_bind].
  destruct prev as [prev|]; [|done]. cbn [expect mbind result_bind].
  destruct (is_submitted _); [|done]. cbn [assert_ mbind result_bind].
  destruct b as [b| |u]; [destruct (status_eqb _ _); [|done]|done|];
    rewrite (framed (f := fold_res _ _)); by destruct (fold_res _ _ s).
Qed.
#[export] Instance framed_disconnect_failed h m6id :
  Framed (disconnect_withdrawal_bundle_failed h m6id).
Proof.
  intros fr s. unfold disconnect_withdrawal_bundle_failed.
  cbn [st_withdrawal_bundles set_frame set_event_blocks set_deposit_blocks set_index_events set_bitname_dbs set_tip].
  destruct (st_withdrawal_bundles s !! m6id) as [[b st]|]; [|done]. cbn [ok_or mbind result_bind].
  destruct (hs_pop st) as [prev x]. destruct (status_eqb _ Submitted); [done|].
  destruct (status_eqb _ _); [|done]. cbn [assert_ mbind result_bind].
  destruct (_ =? _); [|done]. cbn [assert_ mbind result_bind].
  destruct prev as [prev|]; [|done]. cbn [expect mbind result_bind].
  destruct (is_submitted _); [|done]. cbn [assert_ mbind result_bind].
  destruct b as [b| |u]; [|done|done]. destruct (status_eqb _ _); [done|].
  rewrite (framed (f := fold_res _ _)). destruct (fold_res _ _ s) as [s1| |]; [|done|done].
  cbn [fmap result_fmap mbind result_bind]. rewrite (framed (f := pop_latest_failed h m6id)).
  by destruct (pop_latest_failed h m6id s1).
Qed.

Lemma disconnect_event_framed fr h acc e :
  disconnect_event h (mkUnpegAcc (set_frame fr (ua_state acc)) (ua_latest_deposit acc)
    (ua_latest_bundle_event acc)) e =
  (fun a => mkUnpegAcc (set_frame fr (ua_state a)) (ua_latest_deposit a)
    (ua_latest_bundle_event a)) <$> disconnect_event h acc e.
Proof.
  destruct e as [ebh [d|e]]; unfold disconnect_event;
    cbn [ua_state ua_latest_deposit ua_latest_bundle_event].
  - cbn [st_utxos set_frame set_event_blocks set_deposit_blocks set_index_events set_bitname_dbs set_tip].
    by destruct (bool_decide _).
  - enough (Framed (disconnect_withdrawal_bundle_event h e)) as Hf
      by (rewrite Hf; by destruct (disconnect_withdrawal_bundle_event h e (ua_state acc))).
    unfold disconnect_withdrawal_bundle_event. destruct e as [m []]; cbn; apply _.
Qed.

Lemma disconnect_events_framed fr h l s ld lb :
  fold_res (disconnect_event h) l (mkUnpegAcc (set_frame fr s) ld lb) =
  (fun a => mkUnpegAcc (set_frame fr (ua_state a)) (ua_latest_deposit a)
    (ua_latest_bundle_event a)) <$> fold_res (disconnect_event h) l (mkUnpegAcc s ld lb).
Proof.
  apply (fold_res_frame (disconnect_event h) (disconnect_event h)
    (fun a => mkUnpegAcc (set_frame fr (ua_state a)) (ua_latest_deposit a)
      (ua_latest_bundle_event a)) l (mkUnpegAcc s ld lb)).
  intros a e. by rewrite <-disconnect_event_framed.
Qed.

(** The steps forwards *)
#[export] Instance framed_spend {E} (e : OutPoint -> E) m6id p :
  Framed (fun s => spend_output e m6id s p).
Proof. intros fr s. unfold spend_output. cbn. by destruct (bool_decide _). Qed.
#[export] Instance framed_push_latest_failed {E} h m6id :
  Framed (push_latest_failed (E := E) h m6id).
Proof.
  intros fr s. unfold push_latest_failed. cbn.
  destruct (st_latest_failed_withdrawal_bundle s) as [lf|]; [|done]. cbn.
  by destruct (hs_push lf m6id h).
Qed.
Lemma give_back_framed fr l s :
  foldl give_back (set_frame fr s) l = set_frame fr (foldl give_back s l).
Proof. revert s. induction l as [|p l IH]; intros s; [done|]. cbn. by rewrite <-IH. Qed.

#[export] Instance framed_connect_confirmed h ebh m6id :
  Framed (connect_withdrawal_bundle_confirmed h ebh m6id).
Proof.
  intros fr s. unfold connect_withdrawal_bundle_confirmed.
  cbn [st_withdrawal_bundles set_frame set_event_blocks set_deposit_blocks set_index_events set_bitname_dbs set_tip].
  destruct (st_withdrawal_bundles s !! m6id) as [[b st]|]; [|done]. cbn [ok_or mbind result_bind].
  destruct (status_eqb _ Confirmed); [done|]. destruct (is_submitted _); [|done].
  cbn [assert_ mbind result_bind].
  destruct b as [b| |u]; [destruct (status_eqb _ _)|destruct (h =? 0); [|done]|done];
    [|by cbn [mbind result_bind]; destruct (push_status _ _ _)..].
  rewrite (framed (f := fold_res _ _)). destruct (fold_res _ _ s); [|done|done].
  cbn [fmap result_fmap mbind result_bind]. by destruct (push_status _ _ _).
Qed.
#[export] Instance framed_connect_failed h m6id : Framed (connect_withdrawal_bundle_failed h m6id).
Proof.
  intros fr s. unfold connect_withdrawal_bundle_failed.
  cbn [st_withdrawal_bundles set_frame set_event_blocks set_deposit_blocks set_index_events set_bitname_dbs set_tip].
  destruct (st_withdrawal_bundles s !! m6id) as [[b st]|]; [|done]. cbn [ok_or mbind result_bind].
  destruct (status_eqb _ Failed); [done|]. destruct (is_submitted _); [|done].
  cbn [assert_ mbind result_bind].
  destruct b as [b| |u]; [destruct (status_eqb _ _)|..];
    [by cbn [mbind result_bind]; destruct (push_status _ _ _)| |
     by cbn [mbind result_bind]; destruct (push_status _ _ _)..].
  change (set_event_blocks _ _) with (set_frame fr s).
  rewrite give_back_framed, (framed (f := push_latest_failed h m6id)).
  destruct (push_latest_failed _ _ _); [|done|done].
  cbn [fmap result_fmap mbind result_bind]. by destruct (push_status _ _ _).
Qed.
Lemma connect_submitted_framed fr h ebh m6id s ie :
  connect_withdrawal_bundle_submitted h ebh m6id (set_frame fr s, ie) =
  (fun a => (set_frame fr a.1, a.2)) <$> connect_withdrawal_bundle_submitted h ebh m6id (s, ie).
Proof.
  unfold connect_withdrawal_bundle_submitted.
  cbn [st_withdrawal_bundles st_pending_withdrawal_bundle set_frame set_event_blocks
    set_deposit_blocks set_index_events set_bitname_dbs set_tip].
  case_decide; destruct (st_withdrawal_bundles s !! m6id) as [[b st]|]; try done;
    cbn [ok_or mbind result_bind].
  - destruct b as [b| |]; try done. cbn [mbind result_bind].
    rewrite (framed (f := fold_res _ _)). destruct (fold_res _ _ s); [|done|done].
    cbn [fmap result_fmap mbind result_bind]. destruct (status_eqb _ _); [|done].
    cbn [assert_ mbind result_bind]. by destruct (push_status _ _ _).
  - destruct (check_resubmission _ _ _ _); [|done|done]. cbn [mbind result_bind].
    by destruct (push_status _ _ _).
Qed.

Definition frame_acc (fr : Frame) (a : PegAcc) : PegAcc :=
  mkPegAcc (set_frame fr (pa_state a)) (pa_index_events a) (pa_latest_deposit a)
    (pa_latest_bundle_event a).

Lemma connect_event_framed fr h acc e :
  connect_2wpd_event h (frame_acc fr acc) e = frame_acc fr <$> connect_2wpd_event h acc e.
Proof.
  destruct e as [ebh [d|[m []]]]; [done|..]; unfold connect_2wpd_event, connect_withdrawal_bundle_event;
    cbn [pa_state pa_index_events frame_acc wbe_status wbe_m6id].
  - rewrite framed. by destruct (connect_withdrawal_bundle_confirmed _ _ _ _).
  - rewrite framed. by destruct (connect_withdrawal_bundle_failed _ _ _).
  - rewrite connect_submitted_framed.
    by destruct (connect_withdrawal_bundle_submitted _ _ _ _) as [[? ?]| |].
Qed.

(** The events leave the frame as it is. *)
Lemma connect_events_frame h l acc acc' :
  fold_res (connect_2wpd_event h) l acc = Ok acc' ->
  frame_of (pa_state acc') = frame_of (pa_state acc).
Proof.
  intros Hf. set (fr := frame_of (pa_state acc)).
  assert (acc = frame_acc fr acc) as Hacc.
  { unfold frame_acc, fr. rewrite set_frame_of. by destruct acc. }
  rewrite Hacc in Hf. rewrite (fold_res_frame (connect_2wpd_event h) _ (frame_acc fr)) in Hf
    by (intros; apply connect_event_framed).
  apply fmap_Ok in Hf as (a & _ & ->). apply frame_of_set.
Qed.

(** ** Proposals *)

(** The pending bundle got its latest status at this height. *)
Definition proposed_at (h : u32) (s : State) : bool :=
  match st_pending_withdrawal_bundle s with
  | Some m6id =>
      match st_withdrawal_bundles s !! m6id with
      | Some (_, st) => hs_height (hs_latest st) =? h
      | None => false
      end
  | None => false
  end.

(** What the state says about bundles is readable: the latest failed one has a
    failure, and the pending one exists. *)
Definition bundles_readable (s : State) : bool :=
  match get_latest_failed_withdrawal_bundle s with
  | Ok _ =>
      match st_pending_withdrawal_bundle s with
      | Some m6id => bool_decide (is_Some (st_withdrawal_bundles s !! m6id))
      | None => true
      end
  | _ => false
  end.

Section proposals.
Context `{Externals}.

(** A block either proposes nothing, or a bundle that becomes the pending one. *)
Lemma propose_bundle_inv h s s' :
  propose_bundle h s = Ok s' ->
  s' = s \/
  exists b st, st_pending_withdrawal_bundle s = None /\ failure_gap_passed h s = Ok true /\
    collect_withdrawal_bundle s h = Ok (Some b) /\
    s' = put_bundle (compute_m6id b) (Info_Known b, st) (set_pending (Some (compute_m6id b)) s) /\
    hs_latest st = mkHeightStamped Pending h /\
    match st_withdrawal_bundles s !! compute_m6id b with
    | Some (_, st0) => (hs_pop st).1 = Some st0
    | None => (hs_pop st).1 = None
    end.
Proof.
  unfold propose_bundle. intros (gap & Hgap & Hp)%bind_Ok.
  destruct gap; [|injection Hp as <-; by left]. cbn [andb] in Hp.
  case_bool_decide as Hpend; [|injection Hp as <-; by left].
  apply bind_Ok in Hp as ([b|] & Hb & Hp); [|injection Hp as <-; by left].
  apply bind_Ok in Hp as (st & Hst & [= <-]). right. exists b, st.
  cbn [st_withdrawal_bundles set_pending] in Hst.
  destruct (st_withdrawal_bundles s !! compute_m6id b) as [[i st0]|].
  - apply push_status_Ok in Hst as (Hpop & Hl & _). split_and!; try done. by rewrite Hpop.
  - injection Hst as <-. by split_and!.
Qed.

Lemma propose_bundle_none h s s' :
  propose_bundle h s = Ok s' -> proposed_at h s' = false -> s' = s.
Proof.
  intros [->|(b & st & _ & _ & _ & -> & Hl & _)]%propose_bundle_inv; [done|].
  unfold proposed_at. cbn [st_pending_withdrawal_bundle put_bundle set_bundles set_pending].
  rewrite put_bundle_lookup, Hl. cbn. by rewrite N.eqb_refl.
Qed.

Lemma retract_bundle_none h s :
  bundles_readable s = true -> proposed_at h s = false -> retract_bundle h s = Ok s.
Proof.
  unfold bundles_readable, proposed_at, retract_bundle, failure_gap_passed.
  destruct (get_latest_failed_withdrawal_bundle s) as [lf| |]; [|done|done]. intros Hr Hp.
  cbn [mbind result_bind]. destruct (_ <=? _); [|done].
  destruct (st_pending_withdrawal_bundle s) as [m6id|]; [|done].
  destruct (st_withdrawal_bundles s !! m6id) as [[b st]|]; [|by apply bool_decide_eq_true_1 in Hr as []].
  cbn [ok_or mbind result_bind]. by rewrite Hp.
Qed.

Lemma peg_wf_propose h s s' : peg_wf s -> propose_bundle h s = Ok s' -> peg_wf s'.
Proof.
  intros Hw [->|(b & st & _ & _ & Hc & -> & Hl & _)]%propose_bundle_inv; [done|].
  apply collect_withdrawal_bundle_acc in Hc as (acc & [Hsub Hwd _ _] & Hb).
  unfold withdrawal_bundle_new in Hb. apply bind_Ok in Hb as ([] & _ & [= <-]).
  apply peg_wf_put_status; [by apply (peg_wf_ext s)|]. cbn [fst snd]. intros b' [= <-].
  split; cbn [wb_spend_utxos];
    [apply NoDup_fst_btree_entries| |by rewrite Hl|by rewrite Hl|];
    apply Forall_forall; intros [o fo] Ho; apply elem_of_btree_entries in Ho.
  - left. by apply (lookup_weaken _ _ _ _ Ho).
  - apply Hwd in Ho as [a Ha]. unfold wd_address in Ha. cbn. by destruct (fo_content fo).
Qed.
End proposals.

(** ** The whole block *)

Definition peg_start (s : State) : PegAcc := mkPegAcc s (mkBlockIndexEvents [] []) None None.

Section block.
Context `{Externals}.

(** The books after the events *)
Definition connected_frame (h : u32) (s : State) (acc : PegAcc) : Frame :=
  mkFrame (st_tip s) (st_height s) (st_bitnames s)
    (if index_events_empty (pa_index_events acc) then st_block_index_events s
     else <[h := pa_index_events acc]> (st_block_index_events s))
    (put_event_block h (pa_latest_deposit acc) (st_deposit_blocks s))
    (put_event_block h (pa_latest_bundle_event acc) (st_withdrawal_bundle_event_blocks s)).

Lemma peg_connect_inv s data s' :
  peg_connect s data = Ok s' ->
  exists h acc, try_get_height s = Some h /\
    fold_res (connect_2wpd_event h) (peg_events data) (peg_start s) = Ok acc /\
    propose_bundle h (set_frame (connected_frame h s acc) (pa_state acc)) = Ok s'.
Proof.
  unfold peg_connect. intros (h & Hh & Hc)%bind_Ok. apply ok_or_Ok in Hh.
  apply bind_Ok in Hc as (acc & Hf & Hc). exists h, acc. split_and!; [done|done|].
  apply connect_events_frame in Hf. unfold peg_start in Hf. cbn [pa_state] in Hf.
  rewrite <-Hc. f_equal. unfold frame_of in Hf.
  injection Hf as Ht Hht Hbn Hie Hdb Heb. unfold connected_frame.
  rewrite <-Ht, <-Hht, <-Hbn, <-Hie, <-Hdb, <-Heb. unfold set_frame; cbn.
  destruct (index_events_empty _), (pa_state acc); done.
Qed.

Lemma peg_disconnect_framed h s acc data fr s0 :
  fold_res (disconnect_event h) (reverse (peg_events data)) (mkUnpegAcc s None None) = Ok acc ->
  ua_state acc = s0 -> fr_height fr = Some h ->
  peg_disconnect (set_frame fr s) data =
    event_blocks ← delete_event_block Error_NoWithdrawalBundleEventBlock h
                     (ua_latest_bundle_event acc) (fr_event_blocks fr);
    s1 ← retract_bundle h (set_frame (mkFrame (fr_tip fr) (fr_height fr) (fr_bitnames fr)
           (delete h (fr_index_events fr)) (fr_deposit_blocks fr) event_blocks) s0);
    deposit_blocks ← delete_event_block Error_NoDepositBlock h (ua_latest_deposit acc)
                       (st_deposit_blocks s1);
    Ok (set_deposit_blocks deposit_blocks s1).
Proof.
  intros Hf <- Hh. unfold peg_disconnect. unfold try_get_height.
  cbn [st_height set_frame set_event_blocks set_deposit_blocks set_index_events set_bitname_dbs set_tip].
  rewrite Hh. cbn [expect mbind result_bind].
  change (set_index_events (delete h ?x) (set_frame fr s)) with
    (set_frame (mkFrame (fr_tip fr) (fr_height fr) (fr_bitnames fr) (delete h (fr_index_events fr))
      (fr_deposit_blocks fr) (fr_event_blocks fr)) s).
  rewrite disconnect_events_framed, Hf. cbn [fmap result_fmap mbind result_bind ua_state
    ua_latest_deposit ua_latest_bundle_event].
  cbn [st_withdrawal_bundle_event_blocks set_frame set_event_blocks fr_event_blocks].
  by rewrite Hh.
Qed.
End block.

(** ** Properties *)

(** C19 The peg data of a block keeps the invariant of the withdrawal bundles:
    no output is both unspent and spent, the outputs recorded in a bundle exist
    with the recorded contents, those of a submitted bundle are spent by that
    bundle, whatever deposits, submissions, confirmations and failures the block
    carries and whatever bundle it proposes. *)
Theorem peg_connect_preserves_wf `{Externals} (s s' : State) (data : TwoWayPegData) (h : u32) :
  peg_wf s -> try_get_height s = Some h ->
  events_fresh h (peg_events data) (peg_start s) = true ->
  peg_connect s data = Ok s' -> peg_wf s'.
Proof.
  intros Hw Hh Hfr (h' & acc & Hh' & Hf & Hp)%peg_connect_inv. simplify_eq.
  apply connect_events_undo in Hf as [Hw' _]; [|done|done].
  eapply peg_wf_propose; [|done]. by apply (peg_wf_ext (pa_state acc)).
Qed.

Lemma peg_undo `{Externals} (s s' : State) (data : TwoWayPegData) (h nd ne : N) :
  bincode_u32_spec ->
  peg_wf s -> bundles_readable s = true -> proposed_at h s = false ->
  try_get_height s = Some h -> st_block_index_events s !! h = None ->
  seq_dense (st_deposit_blocks s) nd -> nd <= 255 ->
  seq_dense (st_withdrawal_bundle_event_blocks s) ne -> ne <= 255 ->
  events_fresh h (peg_events data) (peg_start s) = true ->
  peg_connect s data = Ok s' -> proposed_at h s' = false ->
  peg_disconnect s' data = Ok s.
Proof.
  intros Hspec Hw Hr Hnp Hh Hie Hdb Hnd Heb Hne Hfr Hc Hnp'.
  apply peg_connect_inv in Hc as (h' & acc & Hh' & Hf & Hp). simplify_eq.
  apply propose_bundle_none in Hp as ->; [|done].
  apply connect_events_latest in Hf as Hlast. destruct Hlast as [Hld Hlb].
  cbn [pa_latest_deposit pa_latest_bundle_event peg_start] in Hld, Hlb.
  apply connect_events_undo in Hf as [_ Hu]; [|done|done]. cbn [pa_state peg_start] in Hu.
  erewrite peg_disconnect_framed; [|exact Hu|done|exact Hh].
  cbn [ua_latest_bundle_event ua_latest_deposit fr_event_blocks connected_frame].
  rewrite <-Hlb, (delete_put_event_block Hspec _ _ ne) by done. cbn [mbind result_bind].
  rewrite retract_bundle_none by done. cbn [mbind result_bind].
  cbn [st_deposit_blocks set_frame set_event_blocks set_deposit_blocks fr_deposit_blocks
    connected_frame].
  rewrite <-Hld, (delete_put_event_block Hspec _ _ nd) by done. cbn [mbind result_bind]. f_equal.
  assert (delete h (fr_index_events (connected_frame h s acc)) = st_block_index_events s) as Hie'.
  { cbn. destruct (index_events_empty _); [by apply delete_id|by apply delete_insert_id]. }
  rewrite Hie'. by destruct s.
Qed.

(** C5 Disconnecting the peg data of a block restores the state exactly: outputs, bundles and their status
    histories, the pending and the latest failed bundle, the index of events and both books. The state before is
    well-formed with readable bundles and has no events indexed at the height, no bundle is proposed at the
    height before or by the block, each book has at most 255 entries, and the events are fresh: a deposit is to
    a new outpoint, and no bundle that is confirmed (failed) already is confirmed (failed) again.
    [disconnect_failed_twice_panics] and [event_blocks_stuck] show what happens without the last two. *)
Theorem peg_disconnect_connect `{Externals} (s s' : State) (data : TwoWayPegData) (h nd ne : N) :
  bincode_u32_spec ->
  peg_wf s -> bundles_readable s = true -> proposed_at h s = false ->
  try_get_height s = Some h -> st_block_index_events s !! h = None ->
  seq_dense (st_deposit_blocks s) nd -> nd <= 255 ->
  seq_dense (st_withdrawal_bundle_event_blocks s) ne -> ne <= 255 ->
  events_fresh h (peg_events data) (peg_start s) = true ->
  peg_connect s data = Ok s' -> proposed_at h s' = false ->
  peg_disconnect s' data = Ok s.
Proof. apply peg_undo. Qed.

(** Retracting a proposal undoes it: when the proposed bundle is a new one,
    the bundle is gone and no bundle is pending, as before. *)
Theorem retract_propose_bundle `{Externals} (h : u32) (s s' : State) (m6id : M6id) :
  propose_bundle h s = Ok s' -> st_pending_withdrawal_bundle s = None ->
  st_pending_withdrawal_bundle s' = Some m6id -> st_withdrawal_bundles s !! m6id = None ->
  retract_bundle h s' = Ok s.
Proof.
  intros [->|(b & st & Hp & Hgap & _ & -> & Hl & Hpop)]%propose_bundle_inv; [congruence|].
  intros _ [= <-] Hn. rewrite Hn in Hpop. unfold retract_bundle.
  set (s' := put_bundle _ _ _).
  assert (failure_gap_passed h s' = Ok true) as ->.
  { rewrite <-Hgap. unfold failure_gap_passed, get_latest_failed_withdrawal_bundle, s'. cbn.
    destruct (st_latest_failed_withdrawal_bundle s) as [lf|] eqn:Hlf; [|done].
    destruct (decide (compute_m6id b = hs_value (hs_latest lf))) as [He|Hne].
    - unfold failure_gap_passed, get_latest_failed_withdrawal_bundle in Hgap.
      rewrite Hlf, <-He, Hn in Hgap. done.
    - by rewrite lookup_insert_ne. }
  cbn [mbind result_bind].
  assert (st_pending_withdrawal_bundle s' = Some (compute_m6id b)) as -> by done.
  assert (st_withdrawal_bundles s' !! compute_m6id b = Some (Info_Known b, st)) as ->
    by apply put_bundle_lookup.
  cbn [ok_or mbind result_bind].
  rewrite Hl. cbn [hs_height]. rewrite N.eqb_refl. destruct (hs_pop st) as [o x]. cbn in Hpop.
  subst o. f_equal. unfold s'.
  change (set_pending None (put_bundle ?m ?e (set_pending ?p s))) with
    (put_bundle m e (set_pending None (set_pending p s))).
  rewrite set_pending_same by done. by apply delete_put_bundle.
Qed.

(** ** Samples *)

Module PegSamples.
Definition wd (main_address value : N) : FilledOutput :=
  mkFilledOutput 7 (Filled_BitcoinWithdrawal (mkWithdrawalContent value 1 main_address)) [].
Definition bundle : WithdrawalBundle :=
  mkWithdrawalBundle [(OutPoint_Regular 1 0, wd 4 10)] (mkMainTx 2 0 [] []).

(** A bundle 77, pending since height 4; [extra] are other unspent outputs. *)
Definition pending_state (extra : gmap OutPoint FilledOutput) : State :=
  set_tip (Some 1) (Some 6)
    (set_pending (Some 77)
      (put_bundle 77 (Info_Known bundle, hs_new Pending 4)
        (set_utxos (<[OutPoint_Regular 1 0 := wd 4 10]> extra) empty_state))).

Definition deposit : Deposit :=
  mkDeposit 0 (9, 0) (mkFilledOutput 8 (Filled_Bitcoin 50) []).
Definition data (l : list BlockEvent) : TwoWayPegData :=
  mkTwoWayPegData [(100, mkBlockInfo None l)].
Definition submit_data : TwoWayPegData :=
  data [BlockEvent_Deposit deposit;
        BlockEvent_WithdrawalBundle (mkWithdrawalBundleEvent 77 Event_Submitted)].

Lemma pending_state_wf : peg_wf (pending_state ∅).
Proof.
  split; [by right|]. intros m b st. cbn.
  intros [[<- [= <- <-]]|[_ Hm]]%lookup_insert_Some; [|by rewrite lookup_empty in Hm].
  split; cbn [wb_spend_utxos bundle]; [|by repeat constructor|done|done|by repeat constructor].
  apply NoDup_cons. split; [apply not_elem_of_nil|constructor].
Qed.
Lemma empty_dense {V} : seq_dense (∅ : gmap u32 V) 0.
Proof. intros i. rewrite lookup_empty. split; [by intros []|lia]. Qed.

(** Another withdrawal, which a new bundle would pay *)
Definition busy_state : State :=
  pending_state {[ OutPoint_Regular 2 0 := wd 5 20 ]}.

(** A known bundle that was submitted unexpectedly *)
Definition unexpected_state : State :=
  set_tip (Some 1) (Some 9)
    (put_bundle 77 (Info_Known bundle,
        mkNonEmpty (mkHeightStamped Dropped 3) [mkHeightStamped SubmittedUnexpected 5])
      (set_utxos {[ OutPoint_Regular 1 0 := wd 4 10 ]} empty_state)).
Definition failed_twice : TwoWayPegData :=
  let e := BlockEvent_WithdrawalBundle (mkWithdrawalBundleEvent 77 Event_Failed) in data [e; e].
End PegSamples.

Lemma peg_connect_preserves_wf_witness :
  exists s', @peg_connect Sample.externals (PegSamples.pending_state ∅) PegSamples.submit_data = Ok s' /\
    peg_wf s'.
Proof.
  destruct (is_ok_Ok (@peg_connect Sample.externals (PegSamples.pending_state ∅)
    PegSamples.submit_data)) as [s' Hs']; [vm_compute; reflexivity|].
  exists s'. split; [exact Hs'|].
  apply (@peg_connect_preserves_wf Sample.externals (PegSamples.pending_state ∅) s'
    PegSamples.submit_data 6 PegSamples.pending_state_wf);
    [reflexivity|vm_compute; reflexivity|exact Hs'].
Defined.

Lemma peg_disconnect_connect_witness :
  exists s', @peg_connect Sample.externals (PegSamples.pending_state ∅) PegSamples.submit_data = Ok s' /\
    @peg_disconnect Sample.externals s' PegSamples.submit_data = Ok (PegSamples.pending_state ∅).
Proof.
  destruct (is_ok_Ok (@peg_connect Sample.externals (PegSamples.pending_state ∅)
    PegSamples.submit_data)) as [s' Hs']; [vm_compute; reflexivity|].
  assert ((proposed_at 6 <$> @peg_connect Sample.externals (PegSamples.pending_state ∅)
    PegSamples.submit_data) = Ok false) as Hp by (vm_compute; reflexivity).
  rewrite Hs' in Hp. injection Hp as Hp. exists s'. split; [exact Hs'|].
  apply (@peg_disconnect_connect Sample.externals (PegSamples.pending_state ∅) s'
    PegSamples.submit_data 6 0 0 Sample.bincode_le PegSamples.pending_state_wf);
    [vm_compute; reflexivity|vm_compute; reflexivity|reflexivity|reflexivity
    |exact PegSamples.empty_dense|lia|exact PegSamples.empty_dense|lia
    |vm_compute; reflexivity|exact Hs'|exact Hp].
Defined.

(** The bundle of the sample withdrawals, proposed at height 4 *)
Lemma retract_propose_bundle_witness :
  exists s', @propose_bundle Sample.externals 4 sample_withdrawals = Ok s' /\
    s' <> sample_withdrawals /\
    retract_bundle 4 s' = Ok sample_withdrawals.
Proof.
  destruct (is_ok_Ok (@propose_bundle Sample.externals 4 sample_withdrawals)) as [s' Hs'];
    [vm_compute; reflexivity|].
  assert ((st_pending_withdrawal_bundle <$> @propose_bundle Sample.externals 4 sample_withdrawals) <>
    Ok None) as Hm by (vm_compute; discriminate).
  rewrite Hs' in Hm. cbn in Hm.
  destruct (st_pending_withdrawal_bundle s') as [m|] eqn:Hp; [|done].
  exists s'. split; [exact Hs'|]. split; [intros ->; discriminate Hp|].
  apply (@retract_propose_bundle Sample.externals 4 _ _ m Hs' eq_refl Hp). apply lookup_empty.
Defined.

(** What is left of a proposal after its block is disconnected *)
Definition proposal_left (s : State) (data : TwoWayPegData)
  : option (option (HeightStamped WithdrawalBundleStatus) * option M6id * bool) :=
  match @peg_connect Sample.externals s data with
  | Ok s' =>
      match st_pending_withdrawal_bundle s', @peg_disconnect Sample.externals s' data with
      | Some m6id, Ok s'' =>
          Some ((fun e => hs_latest e.2) <$> st_withdrawal_bundles s'' !! m6id,
            st_pending_withdrawal_bundle s'',
            bool_decide (st_withdrawal_bundles s !! m6id = None))
      | _, _ => None
      end
  | _ => None
  end.
Lemma busy_state_left :
  proposal_left PegSamples.busy_state PegSamples.submit_data =
    Some (Some (mkHeightStamped Pending 6), Some 77, true).
Proof. vm_compute. reflexivity. Qed.

(** Disconnecting undoes the events before it looks for a proposal to
    retract. When the block submits the pending bundle and proposes another, the
    first is pending again by then, and the proposal of the disconnected block
    stays in the database of bundles. *)
Theorem peg_disconnect_keeps_proposal :
  exists s' s'' m6id b st,
    @peg_connect Sample.externals PegSamples.busy_state PegSamples.submit_data = Ok s' /\
    st_pending_withdrawal_bundle s' = Some m6id /\
    @peg_disconnect Sample.externals s' PegSamples.submit_data = Ok s'' /\
    st_pending_withdrawal_bundle s'' = Some 77 /\
    st_withdrawal_bundles PegSamples.busy_state !! m6id = None /\
    st_withdrawal_bundles s'' !! m6id = Some (b, st) /\
    hs_latest st = mkHeightStamped Pending 6.
Proof.
  pose proof busy_state_left as Hl. unfold proposal_left in Hl.
  generalize dependent PegSamples.submit_data. generalize dependent PegSamples.busy_state.
  intros s data Hl. destruct (peg_connect s data) as [s'| |]; [|discriminate..].
  destruct (st_pending_withdrawal_bundle s') as [m6id|] eqn:Hm; [|discriminate].
  destruct (peg_disconnect s' data) as [s''| |] eqn:Hd; [|discriminate..].
  injection Hl as Hb Hp Hn. apply bool_decide_eq_true_1 in Hn.
  destruct (st_withdrawal_bundles s'' !! m6id) as [[b st]|] eqn:Hb'; [|discriminate].
  injection Hb as Hb. exists s', s'', m6id, b, st. by split_and!.
Qed.

(** A bundle that was submitted unexpectedly and is reported failed twice in
    a block is accepted, the second report having no effect; but the block cannot
    be disconnected, since only a submission as expected counts as already
    undone. *)
Theorem disconnect_failed_twice_panics :
  exists s', @peg_connect Sample.externals PegSamples.unexpected_state PegSamples.failed_twice = Ok s' /\
    @peg_disconnect Sample.externals s' PegSamples.failed_twice = Panic.
Proof.
  assert (match @peg_connect Sample.externals PegSamples.unexpected_state PegSamples.failed_twice with
          | Ok s' => match @peg_disconnect Sample.externals s' PegSamples.failed_twice with
                     | Panic => true | _ => false end
          | _ => false
          end = true) as Hp by (vm_compute; reflexivity).
  destruct (peg_connect _ _) as [s'| |]; [|discriminate..]. exists s'. split; [done|].
  by destruct (peg_disconnect _ _).
Qed.
