(* ===== verification/Mempool.v ===== *)
(** * The memory pool

    [src/lib/mempool.rs]: transactions by txid, and for every outpoint they spend
    the transaction that does. Adding a transaction refuses double spends;
    deleting one deletes everything that depends on it. *)

From stdpp Require Import relations.
From S2P Require Import Prelude Types Transaction Sample.

Inductive MempoolError : Type :=
| Mempool_UtxoDoubleSpent.

Record MemPool : Type := mkMemPool {
  mp_transactions : gmap Txid AuthorizedTransaction;
  mp_spent_utxos : gmap OutPoint Txid;
}.

Definition empty_pool : MemPool := mkMemPool ∅ ∅.
Definition inputs_of (atx : AuthorizedTransaction) : list OutPoint :=
  tx_inputs (at_transaction atx).

(** [delete_stxos]: an absent key is no error. *)
Definition delete_stxos (stxos : list OutPoint) (spent : gmap OutPoint Txid) : gmap OutPoint Txid :=
  foldl (fun spent stxo => delete stxo spent) spent stxos.

Section mempool.
Context `{Externals}.

Definition put_input (txid : Txid) (spent : gmap OutPoint Txid) (input : OutPoint)
  : result MempoolError (gmap OutPoint Txid) :=
  _ ← ensure (bool_decide (spent !! input = None)) Mempool_UtxoDoubleSpent;
  Ok (<[input := txid]> spent).

Definition put (m : MemPool) (transaction : AuthorizedTransaction) : result MempoolError MemPool :=
  let txid := txid (at_transaction transaction) in
  spent ← fold_res (put_input txid) (inputs_of transaction) (mp_spent_utxos m);
  Ok (mkMemPool (<[txid := transaction]> (mp_transactions m)) spent).

(** The outpoints of a transaction, and who spends them *)
Definition output_outpoints (txid : Txid) (tx : AuthorizedTransaction) : list OutPoint :=
  (fun p : u32 * Output => OutPoint_Regular txid p.1) <$> enumerate (tx_outputs (at_transaction tx)).
Definition children (spent : gmap OutPoint Txid) (txid : Txid) (tx : AuthorizedTransaction)
  : list Txid :=
  omap (fun outpoint => spent !! outpoint) (output_outpoints txid tx).

(** One turn of the [while let] loop over [pending_deletes] *)
Definition delete_step (m : MemPool) (txid : Txid) : MemPool * list Txid :=
  match mp_transactions m !! txid with
  | Some tx =>
      let spent := delete_stxos (inputs_of tx) (mp_spent_utxos m) in
      (mkMemPool (delete txid (mp_transactions m)) spent, children spent txid tx)
  | None => (m, [])
  end.

(** [None] when the fuel runs out *)
Fixpoint delete_loop (fuel : nat) (pending_deletes : list Txid) (m : MemPool) : option MemPool :=
  match pending_deletes, fuel with
  | [], _ => Some m
  | _ :: _, O => None
  | txid :: pending_deletes, S fuel =>
      let '(m, child_txids) := delete_step m txid in
      delete_loop fuel (pending_deletes ++ child_txids) m
  end.

(** Each turn takes one txid from the queue, and adds at most one for each output
    of a transaction that it removes. *)
Definition n_outputs (tx : AuthorizedTransaction) : N :=
  N.of_nat (length (tx_outputs (at_transaction tx))).
Definition delete_fuel (m : MemPool) : nat := S (N.to_nat (map_sum n_outputs (mp_transactions m))).

Definition delete_tx (m : MemPool) (txid : Txid) : option MemPool :=
  delete_loop (delete_fuel m) [txid] m.

(** [take], [take_all]: in the order of the keys *)
Definition txid_le (a b : Txid * AuthorizedTransaction) : Prop := a.1 <= b.1.
#[local] Instance txid_le_dec : RelDecision txid_le.
Proof. intros a b. unfold txid_le. apply _. Defined.
Definition take_all (m : MemPool) : list AuthorizedTransaction :=
  (merge_sort txid_le (map_to_list (mp_transactions m))).*2.
Definition take_txs (number : nat) (m : MemPool) : list AuthorizedTransaction :=
  take number (take_all m).

(** ** The loop terminates *)

Lemma delete_step_measure m t m' l :
  delete_step m t = (m', l) ->
  N.of_nat (length l) + map_sum n_outputs (mp_transactions m') <=
    map_sum n_outputs (mp_transactions m).
Proof.
  unfold delete_step. destruct (mp_transactions m !! t) as [tx|] eqn:Ht; intros [= <- <-]; cbn; [|lia].
  rewrite (map_sum_delete _ _ t tx Ht). unfold children.
  assert (n_outputs tx = N.of_nat (length (tx_outputs (at_transaction tx)))) as -> by done.
  pose proof (length_omap_le (fun o => delete_stxos (inputs_of tx) (mp_spent_utxos m) !! o)
    (output_outpoints t tx)) as Hl.
  unfold output_outpoints, enumerate in Hl. rewrite length_fmap, length_imap in Hl.
  unfold output_outpoints, enumerate. lia.
Qed.

Lemma delete_loop_total fuel q m :
  (length q + N.to_nat (map_sum n_outputs (mp_transactions m)) <= fuel)%nat ->
  is_Some (delete_loop fuel q m).
Proof.
  revert q m. induction fuel as [|fuel IH]; intros [|t q] m Hf; cbn in *; try (by eexists); [lia|].
  destruct (delete_step m t) as [m' l] eqn:Hs. apply delete_step_measure in Hs.
  apply IH. rewrite length_app. lia.
Qed.

(** ** The invariant of the pool *)

(** Transactions are kept under their txid, each spends an outpoint once, and the
    outpoints spent are exactly theirs. *)
Record pool_wf (m : MemPool) : Prop := {
  pw_txid : forall t atx, mp_transactions m !! t = Some atx -> txid (at_transaction atx) = t;
  pw_nodup : forall t atx, mp_transactions m !! t = Some atx -> NoDup (inputs_of atx);
  pw_spent : forall o t, mp_spent_utxos m !! o = Some t <->
    exists atx, mp_transactions m !! t = Some atx /\ o ∈ inputs_of atx;
}.

Lemma empty_pool_wf : pool_wf empty_pool.
Proof.
  split; cbn; [by intros ? ? ?%lookup_empty_Some..|]. intros o t. rewrite lookup_empty.
  split; [done|]. by intros (? & ?%lookup_empty_Some & _).
Qed.

Lemma put_inputs_Ok t l spent spent' :
  fold_res (put_input t) l spent = Ok spent' <->
  NoDup l /\ Forall (fun o => spent !! o = None) l /\
  spent' = foldl (fun s o => <[o := t]> s) spent l.
Proof.
  revert spent. induction l as [|o l IH]; intros spent; cbn [fold_res foldl].
  { split; [intros [= <-]; by repeat constructor|]. by intros (_ & _ & ->). }
  rewrite bind_Ok, NoDup_cons, Forall_cons. unfold put_input at 1. split.
  - intros (s1 & ([] & Hb%ensure_Ok%bool_decide_eq_true_1 & [= <-])%bind_Ok & Hf).
    apply IH in Hf as (Hnd & Hl & ->). split_and!; try done.
    + intros Ho. rewrite Forall_forall in Hl. specialize (Hl o Ho). by rewrite lookup_insert_eq in Hl.
    + eapply Forall_impl; [exact Hl|]. by intros o' [? _]%lookup_insert_None.
  - intros ([Hnin Hnd] & [Ho Hl] & ->). exists (<[o := t]> spent).
    rewrite bool_decide_true by done. split; [done|]. apply IH. split_and!; [done| |done].
    apply Forall_forall. intros o' Ho'. rewrite Forall_forall in Hl.
    rewrite lookup_insert_ne by (by intros ->). by apply Hl.
Qed.

Lemma put_spent_Some t l spent o t' :
  foldl (fun (s : gmap OutPoint Txid) o => <[o := t]> s) spent l !! o = Some t' <->
  o ∈ l /\ t' = t \/ o ∉ l /\ spent !! o = Some t'.
Proof.
  revert spent. induction l as [|x l IH]; intros spent; cbn.
  - pose proof (not_elem_of_nil o). naive_solver.
  - rewrite IH, elem_of_cons, lookup_insert_Some. destruct (decide (o ∈ l)), (decide (o = x)); naive_solver.
Qed.

Lemma delete_stxos_Some l spent o t :
  delete_stxos l spent !! o = Some t <-> o ∉ l /\ spent !! o = Some t.
Proof.
  revert spent. induction l as [|x l IH]; intros spent; unfold delete_stxos; cbn.
  - pose proof (not_elem_of_nil o). naive_solver.
  - fold (delete_stxos l (delete x spent)). rewrite IH, not_elem_of_cons, lookup_delete_Some.
    naive_solver.
Qed.

(** Two transactions of the pool share no input. *)
Lemma pool_wf_disjoint m t1 t2 a1 a2 o :
  pool_wf m -> mp_transactions m !! t1 = Some a1 -> mp_transactions m !! t2 = Some a2 ->
  o ∈ inputs_of a1 -> o ∈ inputs_of a2 -> t1 = t2.
Proof.
  intros Hw H1 H2 Ho1 Ho2.
  assert (mp_spent_utxos m !! o = Some t1) by (apply (pw_spent _ Hw); eauto).
  assert (mp_spent_utxos m !! o = Some t2) by (apply (pw_spent _ Hw); eauto). congruence.
Qed.

Lemma put_wf m atx m' :
  pool_wf m -> mp_transactions m !! txid (at_transaction atx) = None ->
  put m atx = Ok m' -> pool_wf m'.
Proof.
  intros Hw Hn. unfold put. intros (spent & Hs & [= <-])%bind_Ok.
  apply put_inputs_Ok in Hs as (Hnd & Hl & ->). split; cbn.
  - intros t a [[<- <-]|[_ Ha]]%lookup_insert_Some; [done|by apply (pw_txid _ Hw)].
  - intros t a [[<- <-]|[_ Ha]]%lookup_insert_Some; [done|by apply (pw_nodup _ Hw _ _ Ha)].
  - intros o t. rewrite put_spent_Some. split.
    + intros [[Ho ->]|[Ho Hs]]; [exists atx; by rewrite lookup_insert_eq|].
      apply (pw_spent _ Hw) in Hs as (a & Ha & Hin). exists a. split; [|done].
      rewrite lookup_insert_ne; [done|]. intros Heq. congruence.
    + intros (a & [[<- <-]|[Hne Ha]]%lookup_insert_Some & Hin); [by left|].
      assert (mp_spent_utxos m !! o = Some t) as Ho by (apply (pw_spent _ Hw); eauto).
      right. split; [|done]. intros Hin'. rewrite Forall_forall in Hl. rewrite Hl in Ho; done.
Qed.

(** ** Deleting a transaction deletes what depends on it, and nothing else *)

(** [c] spends an output of [p]. *)
Definition child (m : MemPool) (p c : Txid) : Prop :=
  exists tx, mp_transactions m !! p = Some tx /\ c ∈ children (mp_spent_utxos m) p tx.

Lemma elem_of_children spent p tx c :
  c ∈ children spent p tx <-> exists o, o ∈ output_outpoints p tx /\ spent !! o = Some c.
Proof. unfold children. apply list_elem_of_omap. Qed.

(** What a deletion leaves *)
Definition removed (t : Txid) (tx : AuthorizedTransaction) (m : MemPool) : MemPool :=
  mkMemPool (delete t (mp_transactions m)) (delete_stxos (inputs_of tx) (mp_spent_utxos m)).

Section removal.
Context (m : MemPool) (t : Txid) (tx : AuthorizedTransaction).
Hypothesis Hw : pool_wf m.
Hypothesis Ht : mp_transactions m !! t = Some tx.

(** The outpoints of other transactions stay. *)
Lemma removed_spent o c :
  mp_spent_utxos (removed t tx m) !! o = Some c <-> mp_spent_utxos m !! o = Some c /\ c <> t.
Proof.
  cbn. rewrite delete_stxos_Some. split.
  - intros [Ho Hs]. split; [done|]. intros ->. apply (pw_spent _ Hw) in Hs as (a & Ha & Hin). congruence.
  - intros [Hs Hne]. split; [|done]. intros Hin. apply Hne.
    apply (pw_spent _ Hw) in Hs as (a & Ha & Hin'). by eapply pool_wf_disjoint.
Qed.

Lemma removed_wf : pool_wf (removed t tx m).
Proof.
  split; cbn [mp_transactions removed].
  - intros t' a [_ Ha]%lookup_delete_Some. by apply (pw_txid _ Hw).
  - intros t' a [_ Ha]%lookup_delete_Some. by apply (pw_nodup _ Hw _ _ Ha).
  - intros o t'. rewrite removed_spent, (pw_spent _ Hw). split.
    + intros [(a & Ha & Hin) Hne]. exists a. by rewrite lookup_delete_ne.
    + intros (a & [Hne Ha]%lookup_delete_Some & Hin). split; [by exists a|done].
Qed.

Lemma removed_child p c : child (removed t tx m) p c <-> child m p c /\ p <> t /\ c <> t.
Proof.
  unfold child. cbn [mp_transactions removed]. split.
  - intros (a & [Hne Ha]%lookup_delete_Some & Hc). rewrite elem_of_children in Hc.
    destruct Hc as (o & Ho & Hs). apply removed_spent in Hs as [Hs Hct]. split; [|done].
    exists a. split; [done|]. apply elem_of_children. by exists o.
  - intros ((a & Ha & Hc) & Hne & Hct). exists a. split; [by rewrite lookup_delete_ne|].
    apply elem_of_children in Hc as (o & Ho & Hs). apply elem_of_children. exists o. split; [done|].
    by apply removed_spent.
Qed.

(** What was reachable is still reachable, or it is from a child of the deleted
    transaction. *)
Lemma removed_reach a d :
  d <> t -> rtc (child m) a d ->
  rtc (child (removed t tx m)) a d \/
  exists c, child m t c /\ c <> t /\ rtc (child (removed t tx m)) c d.
Proof.
  intros Hd. induction 1 as [d|a b d Hab Hbd IH]; [by left; apply rtc_refl|].
  destruct (IH Hd) as [Hr|?]; [|by right].
  assert (b <> t) as Hb.
  { intros ->. inversion Hr as [|? c ? Hc]; subst; [done|]. apply removed_child in Hc. naive_solver. }
  destruct (decide (a = t)) as [->|Ha]; [right; by exists b|]. left.
  eapply rtc_l; [|exact Hr]. by apply removed_child.
Qed.
End removal.

Lemma delete_step_Some m t tx :
  mp_transactions m !! t = Some tx ->
  delete_step m t = (removed t tx m, children (mp_spent_utxos (removed t tx m)) t tx).
Proof. intros Ht. unfold delete_step. by rewrite Ht. Qed.

(** [d] is reachable from the queue. *)
Definition reach (m : MemPool) (q : list Txid) (d : Txid) : Prop :=
  exists a, a ∈ q /\ rtc (child m) a d.

(** What the queue is replaced by reaches the same transactions, the deleted one
    apart. *)
Lemma removed_reach_queue m t tx q d :
  pool_wf m -> mp_transactions m !! t = Some tx -> d <> t ->
  reach m (t :: q) d <->
  reach (removed t tx m) (q ++ children (mp_spent_utxos (removed t tx m)) t tx) d.
Proof.
  intros Hw Ht Hd. unfold reach. setoid_rewrite elem_of_app. setoid_rewrite elem_of_cons. split.
  - intros (a & Ha & Hr). destruct (removed_reach m t tx Hw Ht a d Hd Hr) as [Hr'|(c & Hc & Hct & Hr')].
    + destruct Ha as [->|Ha]; [|by exists a; split; [left|]].
      inversion Hr' as [|? c ? Hc]; subst; [done|]. apply (removed_child m t tx Hw Ht) in Hc. naive_solver.
    + exists c. split; [right|done]. destruct Hc as (tx' & Htx & Hc). simplify_eq.
      apply elem_of_children in Hc as (o & Ho & Hs). apply elem_of_children. exists o.
      split; [done|]. by apply (removed_spent m t tx Hw Ht).
  - intros (a & Ha & Hr).
    assert (rtc (child m) a d) as Hr'.
    { eapply rtc_subrel; [|exact Hr]. intros p c Hpc. by apply (removed_child m t tx Hw Ht) in Hpc as [? _]. }
    destruct Ha as [Ha|Ha]; [exists a; by split; [right|]|].
    exists t. split; [by left|]. eapply rtc_l; [|exact Hr']. exists tx. split; [done|].
    apply elem_of_children in Ha as (o & Ho & Hs). apply elem_of_children. exists o.
    split; [done|]. by apply (removed_spent m t tx Hw Ht) in Hs as [? _].
Qed.

Lemma reach_absent m t q d :
  mp_transactions m !! t = None -> d <> t -> reach m (t :: q) d <-> reach m q d.
Proof.
  intros Ht Hd. unfold reach. setoid_rewrite elem_of_cons. split; [|naive_solver].
  intros (a & [->|Ha] & Hr); [|by exists a].
  inversion Hr as [|? c ? (tx & Htx & _)]; subst; [done|]. congruence.
Qed.

(** The loop, from any queue *)
Lemma delete_loop_exact fuel q m m' :
  pool_wf m -> delete_loop fuel q m = Some m' ->
  pool_wf m' /\ mp_transactions m' ⊆ mp_transactions m /\
  forall d,
    (reach m q d -> mp_transactions m' !! d = None) /\
    (~ reach m q d -> mp_transactions m' !! d = mp_transactions m !! d).
Proof.
  revert q m. induction fuel as [|fuel IH]; intros [|t q] m Hw Hl; cbn [delete_loop] in Hl;
    try done; try (injection Hl as <-; split_and!; [done|done|]; intros d; split; [|done];
      by intros (a & ?%not_elem_of_nil & _)).
  destruct (mp_transactions m !! t) as [tx|] eqn:Ht.
  - rewrite (delete_step_Some _ _ _ Ht) in Hl.
    apply IH in Hl as (Hw' & Hsub & Hex); [|by apply removed_wf].
    split_and!; [done|etransitivity; [exact Hsub|apply delete_subseteq]|]. intros d.
    destruct (decide (d = t)) as [->|Hd].
    + assert (mp_transactions m' !! t = None) as ->
        by (eapply lookup_weaken_None; [|exact Hsub]; apply lookup_delete_eq).
      split; [done|]. intros []. exists t. split; [apply list_elem_of_here|apply rtc_refl].
    + rewrite (removed_reach_queue m t tx) by done. destruct (Hex d) as [H1 H2].
      split; [exact H1|]. intros Hn. rewrite (H2 Hn). by apply lookup_delete_ne.
  - unfold delete_step in Hl. rewrite Ht, app_nil_r in Hl.
    apply IH in Hl as (Hw' & Hsub & Hex); [|done]. split_and!; [done|done|]. intros d.
    destruct (decide (d = t)) as [->|Hd].
    + assert (mp_transactions m' !! t = None) as -> by (by eapply lookup_weaken_None).
      split; [done|]. intros []. exists t. split; [apply list_elem_of_here|apply rtc_refl].
    + rewrite reach_absent by done. apply Hex.
Qed.

(** ** Taking transactions *)

Lemma take_all_elem m atx :
  atx ∈ take_all m <-> exists t, mp_transactions m !! t = Some atx.
Proof.
  unfold take_all. rewrite list_elem_of_fmap. split.
  - intros ([t a] & -> & Hin). rewrite merge_sort_Permutation in Hin.
    exists t. by apply elem_of_map_to_list.
  - intros [t Ht]. exists (t, atx). split; [done|]. rewrite merge_sort_Permutation.
    by apply elem_of_map_to_list.
Qed.

Lemma NoDup_concat_inputs m (l : list (Txid * AuthorizedTransaction)) :
  pool_wf m -> NoDup l.*1 -> Forall (fun p => mp_transactions m !! p.1 = Some p.2) l ->
  NoDup (concat (inputs_of <$> l.*2)).
Proof.
  intros Hw. induction l as [|[t a] l IH]; intros Hnd Hl; cbn; [constructor|].
  cbn in Hnd. apply NoDup_cons in Hnd as [Hnin Hnd]. apply Forall_cons in Hl as [Ha Hl].
  apply NoDup_app. split_and!; [by apply (pw_nodup _ Hw _ _ Ha)| |by apply IH].
  intros o Ho Hc. apply list_elem_of_In, in_concat in Hc as (k & Hk & Hok).
  apply list_elem_of_In in Hk, Hok. apply list_elem_of_fmap in Hk as (a' & -> & Ha').
  apply list_elem_of_fmap in Ha' as ([t' a''] & -> & Hin). cbn in Hok. rewrite Forall_forall in Hl.
  specialize (Hl _ Hin). cbn in Hl. assert (t = t') as -> by (by eapply pool_wf_disjoint).
  apply Hnin. by apply (list_elem_of_fmap_2 fst l (t', a'')).
Qed.
End mempool.

(** ** Properties *)

(** [put] adds a transaction exactly when it spends no outpoint twice and none
    that a transaction of the pool spends; it then keeps the pool consistent, and
    otherwise reports a double spend. *)
Theorem mempool_put_correct `{Externals} (m : MemPool) (atx : AuthorizedTransaction) :
  pool_wf m -> mp_transactions m !! txid (at_transaction atx) = None ->
  match put m atx with
  | Ok m' =>
      NoDup (inputs_of atx) /\ Forall (fun o => mp_spent_utxos m !! o = None) (inputs_of atx) /\
      pool_wf m' /\
      mp_transactions m' = <[txid (at_transaction atx) := atx]> (mp_transactions m)
  | Err Mempool_UtxoDoubleSpent =>
      ~ (NoDup (inputs_of atx) /\ Forall (fun o => mp_spent_utxos m !! o = None) (inputs_of atx))
  | Panic => False
  end.
Proof.
  intros Hw Hn. destruct (put m atx) as [m'|[]|] eqn:Hp.
  - apply put_wf in Hp as Hw'; [|done|done]. unfold put in Hp.
    apply bind_Ok in Hp as (spent & (Hnd & Hl & _)%put_inputs_Ok & [= <-]). by split_and!.
  - intros [Hnd Hl]. unfold put in Hp.
    by rewrite (proj2 (put_inputs_Ok _ _ _ _) (conj Hnd (conj Hl eq_refl))) in Hp.
  - unfold put in Hp. revert Hp. generalize (mp_spent_utxos m) as spent.
    induction (inputs_of atx) as [|o l IH]; intros spent; [done|]. cbn [fold_res].
    unfold put_input at 2. case_bool_decide; [|done]. apply IH.
Qed.

(** C32 [delete] terminates, and removes from the pool exactly the transaction and
    those that depend on it through chains of spent outputs; the pool stays
    consistent. *)
Theorem mempool_delete_exact `{Externals} (m : MemPool) (t : Txid) :
  pool_wf m ->
  exists m', delete_tx m t = Some m' /\ pool_wf m' /\
    forall d,
      (rtc (child m) t d -> mp_transactions m' !! d = None) /\
      (~ rtc (child m) t d -> mp_transactions m' !! d = mp_transactions m !! d).
Proof.
  intros Hw. destruct (delete_loop_total (delete_fuel m) [t] m) as [m' Hm']; [unfold delete_fuel; cbn; lia|].
  exists m'. split; [done|]. apply delete_loop_exact in Hm' as (Hw' & _ & Hex); [|done].
  split; [done|]. intros d. destruct (Hex d) as [H1 H2]. split.
  - intros Hr. apply H1. exists t. split; [apply list_elem_of_here|done].
  - intros Hn. apply H2. intros (a & Ha & Hr). apply list_elem_of_singleton in Ha as ->. done.
Qed.

(** Deleting a transaction that was just added, and whose outputs nothing in
    the pool spends, restores the pool. *)
Theorem mempool_delete_put `{Externals} (m m' : MemPool) (atx : AuthorizedTransaction) :
  put m atx = Ok m' -> mp_transactions m !! txid (at_transaction atx) = None ->
  children (mp_spent_utxos m) (txid (at_transaction atx)) atx = [] ->
  delete_tx m' (txid (at_transaction atx)) = Some m.
Proof.
  unfold put. intros (spent & (Hnd & Hl & ->)%put_inputs_Ok & [= <-])%bind_Ok Hn Hc.
  unfold delete_tx, delete_fuel. cbn [delete_loop].
  set (spent := foldl _ _ _). unfold delete_step. cbn [mp_transactions mp_spent_utxos].
  rewrite lookup_insert_eq.
  assert (delete_stxos (inputs_of atx) spent = mp_spent_utxos m) as ->.
  { apply map_eq. intros o. apply option_eq. intros t. unfold spent.
    rewrite delete_stxos_Some, put_spent_Some. split; [naive_solver|]. intros Ho.
    assert (o ∉ inputs_of atx); [|naive_solver]. intros Hin. rewrite Forall_forall in Hl.
    rewrite Hl in Ho; done. }
  rewrite Hc, delete_insert_id by done. cbn. destruct (N.to_nat _), m; done.
Qed.

(** The transactions that [take] returns are of the pool and spend every
    outpoint at most once between them: they do not conflict in a block. *)
Theorem mempool_take_no_conflict `{Externals} (m : MemPool) (n : nat) :
  pool_wf m ->
  NoDup (concat (inputs_of <$> take_txs n m)) /\
  Forall (fun atx => mp_transactions m !! txid (at_transaction atx) = Some atx) (take_txs n m).
Proof.
  intros Hw. unfold take_txs, take_all. rewrite <-fmap_take.
  set (l := take n _).
  assert (Forall (fun p : Txid * AuthorizedTransaction => mp_transactions m !! p.1 = Some p.2) l) as Hl.
  { apply Forall_take. rewrite merge_sort_Permutation. apply Forall_forall. intros [t a] Hin.
    by apply elem_of_map_to_list. }
  split.
  - apply (NoDup_concat_inputs m); [done| |done]. unfold l. rewrite fmap_take.
    eapply sublist_NoDup; [|apply sublist_take]. rewrite merge_sort_Permutation.
    apply NoDup_fst_map_to_list.
  - apply Forall_fmap. eapply Forall_impl; [exact Hl|]. intros [t a] Hp. cbn in *.
    by rewrite (pw_txid m Hw t a Hp).
Qed.

(** ** Samples *)

Module MempoolSamples.
#[local] Existing Instance Sample.externals.

Definition pay (input : OutPoint) : AuthorizedTransaction :=
  mkAuthorizedTransaction
    (mkTransaction [input] [mkOutput 7 (Content_Bitcoin 5) []] [] None) [].
Definition parent : AuthorizedTransaction := pay (OutPoint_Deposit 1 0).
Definition parent_id : Txid := txid (at_transaction parent).
(** spends the output of [parent] *)
Definition spender : AuthorizedTransaction := pay (OutPoint_Regular parent_id 0).
Definition other : AuthorizedTransaction := pay (OutPoint_Deposit 2 0).

Definition pool_of (atx : AuthorizedTransaction) : MemPool :=
  mkMemPool {[ txid (at_transaction atx) := atx ]}
    (list_to_map ((fun o => (o, txid (at_transaction atx))) <$> inputs_of atx)).
Lemma pool_of_put atx m : put empty_pool atx = Ok m -> pool_wf m.
Proof. apply put_wf; [apply empty_pool_wf|apply lookup_empty]. Qed.
Definition pool1 : MemPool := pool_of parent.
Lemma pool1_wf : pool_wf pool1.
Proof. apply (pool_of_put parent). vm_compute. reflexivity. Qed.
Definition pool2 : MemPool :=
  mkMemPool (<[txid (at_transaction spender) := spender]> (mp_transactions pool1))
    (<[OutPoint_Regular parent_id 0 := txid (at_transaction spender)]> (mp_spent_utxos pool1)).
Lemma pool2_wf : pool_wf pool2.
Proof. apply (put_wf pool1 spender); [apply pool1_wf|vm_compute; reflexivity..]. Qed.
End MempoolSamples.

Lemma mempool_put_correct_witness :
  exists m', @put Sample.externals MempoolSamples.pool1 MempoolSamples.other = Ok m' /\
    @pool_wf Sample.externals m'.
Proof.
  pose proof (@mempool_put_correct Sample.externals MempoolSamples.pool1 MempoolSamples.other
    MempoolSamples.pool1_wf ltac:(vm_compute; reflexivity)) as Hp.
  destruct (is_ok_Ok (@put Sample.externals MempoolSamples.pool1 MempoolSamples.other)) as [m' Hm'];
    [vm_compute; reflexivity|].
  rewrite Hm' in Hp. exists m'. split; [exact Hm'|apply Hp].
Defined.

(** Deleting the parent deletes its spender too. *)
Lemma mempool_delete_exact_witness :
  exists m', delete_tx MempoolSamples.pool2 MempoolSamples.parent_id = Some m' /\
    mp_transactions m' !! @txid Sample.externals (at_transaction MempoolSamples.spender) = None.
Proof.
  destruct (@mempool_delete_exact Sample.externals MempoolSamples.pool2 MempoolSamples.parent_id
    MempoolSamples.pool2_wf) as (m' & Hd & _ & Hex).
  exists m'. split; [exact Hd|]. apply Hex. apply rtc_once.
  exists MempoolSamples.parent. split; [vm_compute; reflexivity|].
  apply elem_of_children. exists (OutPoint_Regular MempoolSamples.parent_id 0).
  split; [apply list_elem_of_here|vm_compute; reflexivity].
Defined.

Lemma mempool_delete_put_witness :
  exists m', @put Sample.externals MempoolSamples.pool1 MempoolSamples.spender = Ok m' /\
    delete_tx m' (@txid Sample.externals (at_transaction MempoolSamples.spender)) =
      Some MempoolSamples.pool1.
Proof.
  destruct (is_ok_Ok (@put Sample.externals MempoolSamples.pool1 MempoolSamples.spender)) as [m' Hm'];
    [vm_compute; reflexivity|].
  exists m'. split; [exact Hm'|].
  apply (@mempool_delete_put Sample.externals MempoolSamples.pool1 m' MempoolSamples.spender Hm');
    vm_compute; reflexivity.
Defined.
