(* ===== verification/Solvency.v ===== *)
(** * Solvency

    What the sidechain owes against what was deposited: the unspent outputs and
    the outputs paid out by withdrawal bundles never exceed the deposits, so
    [sidechain_wealth] of [src/lib/state/mod.rs] covers the unspent outputs. *)

From S2P Require Import Prelude Types Transaction Sample Rollback BitNames Authorization State.
From S2P Require Import Merkle Block BlockSamples BlockSafety BlockEquiv BlockValue BlockRollback.
From S2P Require Import Ownership BlockChain WithdrawalBundle TwoWayPeg PegMoves PegBooks.
From S2P Require Import PegRollback PegChain.

(** ** Sums over the entries of a map *)

Definition entry_sum `{Countable K} {V} (g : K -> V -> N) (m : gmap K V) : N :=
  sum_N ((fun e => g e.1 e.2) <$> map_to_list m).

Section entry_sum.
Context `{Countable K} {V : Type} (g : K -> V -> N).
Implicit Types m : gmap K V.

Lemma entry_sum_insert m k v :
  m !! k = None -> entry_sum g (<[k := v]> m) = g k v + entry_sum g m.
Proof.
  intros Hk. unfold entry_sum. rewrite (map_to_list_insert m k v Hk). cbn. by rewrite sum_N_cons.
Qed.
Lemma entry_sum_delete m k v :
  m !! k = Some v -> entry_sum g m = g k v + entry_sum g (delete k m).
Proof.
  intros Hk. rewrite <-(insert_delete_id m k v) at 1 by done.
  apply entry_sum_insert, lookup_delete_eq.
Qed.
(** Entries that do not count *)
Lemma entry_sum_insert_0 m k v :
  (forall x, g k x = 0) -> entry_sum g (<[k := v]> m) = entry_sum g m.
Proof.
  intros Hg. destruct (m !! k) as [x|] eqn:Hk.
  - rewrite <-insert_delete_eq, entry_sum_insert by apply lookup_delete_eq.
    by rewrite (entry_sum_delete m k x Hk), !Hg.
  - by rewrite entry_sum_insert, Hg.
Qed.
End entry_sum.

(** ** The totals *)

Section solvency.
Context `{Externals}.

Definition deposit_value (o : OutPoint) (fo : FilledOutput) : N :=
  if is_deposit o then filled_output_get_value fo else 0.
Definition payout_value (so : SpentOutput) : N :=
  if is_withdrawal_inpoint (so_inpoint so) then filled_output_get_value (so_output so) else 0.

(** All deposits, spent or not; what the bundles paid out; what is owed *)
Definition deposited (s : State) : N :=
  entry_sum deposit_value (st_utxos s) +
  entry_sum (fun o so => deposit_value o (so_output so)) (st_stxos s).
Definition paid_out (s : State) : N := map_sum payout_value (st_stxos s).
Definition liabilities (s : State) : N := utxo_value (st_utxos s) + paid_out s.

Definition backed (s : State) : Prop := liabilities s <= deposited s.

Lemma totals_ext s s' :
  st_utxos s' = st_utxos s -> st_stxos s' = st_stxos s ->
  deposited s' = deposited s /\ paid_out s' = paid_out s /\ liabilities s' = liabilities s.
Proof. unfold liabilities, deposited, paid_out. by intros -> ->. Qed.

(** One output is spent. *)
Definition spend_one (o : OutPoint) (so : SpentOutput) (s : State) : State :=
  set_stxos (<[o := so]> (st_stxos s)) (set_utxos (delete o (st_utxos s)) s).

Lemma spend_one_totals s o so :
  st_utxos s !! o = Some (so_output so) -> st_stxos s !! o = None ->
  deposited (spend_one o so s) = deposited s /\
  paid_out (spend_one o so s) = payout_value so + paid_out s /\
  utxo_value (st_utxos s) =
    filled_output_get_value (so_output so) + utxo_value (st_utxos (spend_one o so s)).
Proof.
  intros Hu Hx. unfold deposited, paid_out, utxo_value. cbn.
  rewrite entry_sum_insert, map_sum_insert by done.
  rewrite (entry_sum_delete deposit_value _ _ _ Hu).
  rewrite (map_sum_delete filled_output_get_value _ _ _ Hu). split_and!; [lia|done|done].
Qed.

(** An output that is no deposit is created. *)
Lemma create_totals s o fo :
  is_deposit o = false ->
  deposited (set_utxos (<[o := fo]> (st_utxos s)) s) = deposited s /\
  paid_out (set_utxos (<[o := fo]> (st_utxos s)) s) = paid_out s.
Proof.
  intros Ho. unfold deposited, paid_out. cbn. split; [|done].
  rewrite entry_sum_insert_0; [done|]. intros x. unfold deposit_value. by rewrite Ho.
Qed.

(** ** Blocks *)

Lemma connect_inputs_totals t l s s' :
  disjoint_dbs s -> fold_res (connect_input t) l s = Ok s' ->
  deposited s' = deposited s /\ paid_out s' = paid_out s.
Proof.
  intros Hd Hf.
  enough (disjoint_dbs s' /\ deposited s' = deposited s /\ paid_out s' = paid_out s) as (_ & ? & ?)
    by done.
  eapply (fold_res_inv _ (fun s' => disjoint_dbs s' /\ deposited s' = deposited s /\
    paid_out s' = paid_out s)); [|by split_and!|exact Hf].
  clear. intros s0 [vin o] s1 _ (Hd & Hdep & Hpaid) Hc. unfold connect_input in Hc. cbn in Hc.
  apply bind_Ok in Hc as (fo & Hfo & [= <-]). apply ok_or_Ok in Hfo.
  assert (st_stxos s0 !! o = None) as Hx by (by apply Hd; eauto).
  change (set_stxos _ _) with (spend_one o (spent_output t vin fo) s0).
  destruct (spend_one_totals s0 o (spent_output t vin fo) Hfo Hx) as (H1 & H2 & _).
  split_and!; [|congruence|rewrite H2; cbn; lia].
  intros o' [x Hx']. cbn in *. apply lookup_delete_Some in Hx' as [Hne Hx'].
  rewrite lookup_insert_ne by done. by apply Hd; eauto.
Qed.

Lemma put_outputs_totals t fos s :
  deposited (set_utxos (put_outputs t fos (st_utxos s)) s) = deposited s /\
  paid_out (set_utxos (put_outputs t fos (st_utxos s)) s) = paid_out s.
Proof.
  unfold put_outputs. generalize (enumerate fos) as l. intros l.
  revert s. induction l as [|[vout fo] l IH]; intros s; cbn [foldl]; [by destruct s|].
  set (s1 := set_utxos (<[OutPoint_Regular t vout := fo]> (st_utxos s)) s).
  destruct (create_totals s (OutPoint_Regular t vout) fo eq_refl) as [Hd Hp].
  destruct (IH s1) as [Hd' Hp']. fold s1 in Hd, Hp. rewrite <-Hd, <-Hp. by split.
Qed.

Lemma connects_totals h s tx ftx fos d s' :
  connects h s tx ftx fos d s' -> disjoint_dbs s ->
  deposited s' = deposited s /\ paid_out s' = paid_out s.
Proof.
  intros [_ _ _ Hin _ _ ->] Hd. apply connect_inputs_totals in Hin as [Hdep Hpaid]; [|done].
  rewrite <-Hdep, <-Hpaid.
  destruct (put_outputs_totals (txid tx) fos (spend_inputs s tx (ft_spent_utxos ftx))) as [H1 H2].
  rewrite <-H1, <-H2. by split.
Qed.

Lemma connects_all_totals h s ftxs s' :
  connects_all h s ftxs s' -> disjoint_dbs s -> txs_fresh s (ft_transaction <$> ftxs) ->
  deposited s' = deposited s /\ paid_out s' = paid_out s.
Proof.
  induction 1 as [s|s ftx fos d s1 ftxs s' Hc _ IH]; intros Hd Hfr; [done|].
  pose proof (connects_totals _ _ _ _ _ _ _ Hc Hd) as [Hdep Hpaid]. cbn in Hfr.
  destruct IH as [Hdep' Hpaid'].
  - eapply connects_disjoint; [exact Hc| |done]. by apply tf_fresh, Forall_inv in Hfr.
  - by eapply connects_fresh.
  - split; congruence.
Qed.

Lemma connect_coinbase_totals header l s s' :
  fold_res (connect_coinbase_output header) l s = Ok s' ->
  deposited s' = deposited s /\ paid_out s' = paid_out s.
Proof.
  intros Hf. eapply (fold_res_inv _ (fun s' => deposited s' = deposited s /\ paid_out s' = paid_out s));
    [|by split|exact Hf].
  clear. intros s0 [vout o] s1 _ [Hdep Hpaid] Hc. unfold connect_coinbase_output in Hc.
  apply bind_Ok in Hc as (fo & _ & [= <-]).
  destruct (create_totals s0 (OutPoint_Coinbase (compute_coinbase_txid header) vout) fo eq_refl)
    as [-> ->]. by split.
Qed.

Lemma apply_block_totals s s' n header body :
  borsh_outpoint_spec -> batch_verify_spec -> state_wf s n -> block_fresh s header body ->
  apply_block s header body = Ok s' ->
  deposited s' = deposited s /\ paid_out s' = paid_out s /\
  utxo_value (st_utxos s') <= utxo_value (st_utxos s).
Proof.
  intros Hinj Hspec Hwf Hfr Hap.
  assert (utxo_value (st_utxos s') <= utxo_value (st_utxos s)) as Hv.
  { apply apply_block_Ok in Hap as (pv & root & Hp & Hc). apply prevalidate_accepted in Hp.
    by eapply connect_prevalidated_value. }
  destruct (apply_block_steps _ _ _ _ _ Hinj Hspec Hwf Hfr Hap)
    as (s1 & s2 & pv & fees & _ & Hcb & _ & Hall & Htx & _ & Hfresh & _ & Hwf1 & ->).
  apply connect_coinbase_totals in Hcb as [Hdep Hpaid].
  rewrite <-Htx in Hfresh.
  destruct (connects_all_totals _ _ _ _ Hall (swf_disjoint _ _ Hwf1) Hfresh) as [Hdep' Hpaid'].
  rewrite <-Hdep, <-Hpaid. split_and!; [done|done|done].
Qed.

(** ** Two-way peg events *)

Lemma entries_unspent_spend_one s o so l :
  o ∉ l.*1 -> entries_unspent s l -> entries_unspent (spend_one o so s) l.
Proof.
  intros Hnin Hl. eapply Forall_impl_in; [exact Hl|]. cbn. intros p Hp [Hu Hx].
  assert (o <> p.1) as Hne by (intros ->; apply Hnin; by apply list_elem_of_fmap_2).
  by rewrite lookup_delete_ne, lookup_insert_ne.
Qed.

Lemma spent_by_cons m6id o fo l s :
  NoDup (o :: l.*1) -> entries_unspent s ((o, fo) :: l) ->
  spent_by m6id ((o, fo) :: l) s = spent_by m6id l (spend_one o (withdrawn m6id fo) s).
Proof.
  intros Hnd Hl. pose proof Hl as Hl0. apply Forall_cons in Hl as [[Hu _] Hl].
  apply NoDup_cons in Hnd as Hnd'. destruct Hnd' as [Hnin Hnd'].
  assert (forall s0 l0, entries_unspent s0 l0 -> Forall (fun p => is_Some (st_utxos s0 !! p.1)) l0) as Hsome.
  { intros s0 l0 Hl1. eapply Forall_impl; [exact Hl1|]. intros p [-> _]. eauto. }
  pose proof (spend_outputs_Ok Error_NoUtxo m6id ((o, fo) :: l) s Hnd (Hsome _ _ Hl0)) as Hf.
  cbn [fold_res] in Hf. unfold spend_output at 2 in Hf. cbn [fst snd] in Hf, Hu.
  rewrite bool_decide_true in Hf by eauto. cbn [ensure mbind result_bind] in Hf.
  rewrite spend_outputs_Ok in Hf.
  - unfold spend_one; congruence.
  - done.
  - apply (Hsome (spend_one o (withdrawn m6id fo) s) l). by apply entries_unspent_spend_one.
Qed.

Lemma spent_by_totals m6id l s :
  NoDup l.*1 -> entries_unspent s l ->
  deposited (spent_by m6id l s) = deposited s /\ liabilities (spent_by m6id l s) = liabilities s.
Proof.
  revert s. induction l as [|[o fo] l IH]; intros s Hnd Hl.
  { by rewrite spent_by_nil. }
  rewrite spent_by_cons by done. apply Forall_cons in Hl as [[Hu Hx] Hl]. cbn in Hu, Hx, Hnd.
  apply NoDup_cons in Hnd as [Hnin Hnd].
  destruct (spend_one_totals s o (withdrawn m6id fo) Hu Hx) as (Hd & Hp & Hv).
  destruct (IH (spend_one o (withdrawn m6id fo) s) Hnd) as [Hd' Hl'];
    [by apply entries_unspent_spend_one|].
  rewrite Hd', Hl'. split; [done|]. unfold liabilities. rewrite Hp, Hv. cbn. lia.
Qed.

Lemma unspent_by_totals m6id l s :
  NoDup l.*1 -> entries_spent m6id s l ->
  deposited (unspent_by l s) = deposited s /\ liabilities (unspent_by l s) = liabilities s.
Proof.
  intros Hnd Hl. destruct (spent_by_totals m6id l (unspent_by l s) Hnd) as [Hd Hli].
  - apply Forall_forall. intros p Hp. rewrite unspent_by_utxos by done. split; [done|].
    apply unspent_by_stxos_in. by apply list_elem_of_fmap_2.
  - rewrite (spent_unspent_by m6id l s Hnd Hl) in Hd, Hli. by rewrite Hd, Hli.
Qed.

Lemma bundle_event_totals h ebh e s ie s' ie' :
  peg_wf s -> connect_withdrawal_bundle_event h ebh e (s, ie) = Ok (s', ie') ->
  deposited s' = deposited s /\ liabilities s' = liabilities s.
Proof.
  intros Hw (s1 & Hmv & Hu & Hx)%bundle_event_moves; [|done].
  destruct (totals_ext s1 s' Hu Hx) as (-> & _ & ->).
  destruct Hmv as [|m6id l|m6id l]; [done|by apply spent_by_totals|by eapply unspent_by_totals].
Qed.

Lemma deposit_totals s o fo :
  is_deposit o = true -> st_utxos s !! o = None -> 
  deposited (set_utxos (<[o := fo]> (st_utxos s)) s) = filled_output_get_value fo + deposited s /\
  liabilities (set_utxos (<[o := fo]> (st_utxos s)) s) = filled_output_get_value fo + liabilities s.
Proof.
  intros Ho Hu. unfold deposited, liabilities, paid_out, utxo_value. cbn.
  rewrite entry_sum_insert, map_sum_insert by done. unfold deposit_value at 1. rewrite Ho. lia.
Qed.

Lemma connect_events_backed h l acc acc' :
  peg_wf (pa_state acc) -> events_fresh h l acc = true ->
  fold_res (connect_2wpd_event h) l acc = Ok acc' ->
  backed (pa_state acc) -> backed (pa_state acc').
Proof.
  revert acc. induction l as [|e l IH]; intros acc Hw Hfr Hf Hb; cbn [fold_res] in Hf.
  { by injection Hf as <-. }
  apply bind_Ok in Hf as (acc1 & Hc & Hf). cbn [events_fresh] in Hfr. rewrite Hc in Hfr.
  apply andb_true_iff in Hfr as [He Hfr].
  apply (IH acc1); [by eapply connect_event_undo|done|done|].
  destruct e as [ebh [d|e]]; unfold connect_2wpd_event in Hc.
  - injection Hc as <-. cbn [pa_state]. unfold event_fresh in He. cbn [snd] in He.
    apply andb_true_iff in He as [Hu%bool_decide_eq_true_1 _].
    unfold backed in *.
    destruct (deposit_totals (pa_state acc) (deposit_outpoint d) (dep_output d) eq_refl Hu) as [-> ->].
    lia.
  - apply bind_Ok in Hc as ([s' ie'] & Hc & [= <-]). cbn [pa_state].
    apply bundle_event_totals in Hc as [Hd Hl]; [|done]. unfold backed in *. by rewrite Hd, Hl.
Qed.

Lemma peg_connect_backed s data s' h :
  peg_wf s -> try_get_height s = Some h -> events_fresh h (peg_events data) (peg_start s) = true ->
  peg_connect s data = Ok s' -> backed s -> backed s'.
Proof.
  intros Hw Hh Hfr (h' & acc & Hh' & Hf & Hp)%peg_connect_inv Hb. simplify_eq.
  apply connect_events_backed in Hf as Hb'; [|done|done|done].
  assert (st_utxos s' = st_utxos (pa_state acc) /\ st_stxos s' = st_stxos (pa_state acc)) as [Hu Hx].
  { apply propose_bundle_inv in Hp as [->|(b & st & _ & _ & _ & -> & _)]; done. }
  destruct (totals_ext (pa_state acc) s' Hu Hx) as (Hd & _ & Hl). unfold backed in *.
  by rewrite Hd, Hl.
Qed.

(** ** [sidechain_wealth] *)

(** A checked running sum that fits *)
Lemma checked_sum_fits {A} (P : A -> bool) (f : A -> N) (l : list A) a :
  a + sum_N ((fun e => if P e then f e else 0) <$> l) <= AMOUNT_MAX ->
  fold_res (fun acc e => if P e then ok_or (amount_checked_add acc (f e)) Error_AmountOverflow
                         else Ok acc) l a =
    Ok (a + sum_N ((fun e => if P e then f e else 0) <$> l)).
Proof.
  revert a. induction l as [|e l IH]; intros a Hm; cbn [fold_res fmap list_fmap] in *.
  { unfold sum_N. cbn. f_equal. lia. }
  rewrite sum_N_cons in *. destruct (P e).
  - unfold amount_checked_add. rewrite (proj2 (N.leb_le _ _)) by lia.
    cbn [ok_or mbind result_bind]. rewrite IH by lia. f_equal. lia.
  - cbn [mbind result_bind]. rewrite IH by lia. by f_equal; lia.
Qed.

(** Two running sums in one pass are two passes. *)
Lemma fold_pair_split {A} (f g : N -> A -> result Error N) (l : list A) a b a' b' :
  fold_res f l a = Ok a' -> fold_res g l b = Ok b' ->
  fold_res (fun (acc : N * N) e => x ← f acc.1 e; y ← g acc.2 e; Ok (x, y)) l (a, b) = Ok (a', b').
Proof.
  revert a b. induction l as [|e l IH]; intros a b Hf Hg; cbn [fold_res] in *; [congruence|].
  apply bind_Ok in Hf as (x & Hx & Hf). apply bind_Ok in Hg as (y & Hy & Hg).
  cbn [fst snd]. rewrite Hx. cbn [mbind result_bind]. rewrite Hy. cbn [mbind result_bind]. by apply IH.
Qed.

Lemma sidechain_wealth_Ok s :
  backed s -> deposited s <= AMOUNT_MAX -> sidechain_wealth s = Ok (deposited s - paid_out s).
Proof.
  unfold backed, liabilities. intros Hb Hm. unfold sidechain_wealth.
  set (du := entry_sum deposit_value (st_utxos s)).
  set (dx := entry_sum (fun o so => deposit_value o (so_output so)) (st_stxos s)).
  assert (deposited s = du + dx) as Hd by done.
  rewrite (checked_sum_fits (fun e : OutPoint * FilledOutput => is_deposit e.1)
    (fun e => filled_output_get_value e.2)).
  2:{ change (0 + du <= AMOUNT_MAX). lia. }
  cbn [mbind result_bind].
  set (add := fun (P : OutPoint * SpentOutput -> bool) (acc : N) (e : OutPoint * SpentOutput) =>
    if P e then ok_or (amount_checked_add acc (filled_output_get_value (so_output e.2)))
      Error_AmountOverflow else Ok acc).
  rewrite (fold_pair_split (add (fun e => is_deposit e.1))
    (add (fun e => is_withdrawal_inpoint (so_inpoint e.2))) _ 0 0 dx (paid_out s)).
  - cbn [mbind result_bind]. change (0 + sum_N _) with (0 + du). unfold amount_checked_add.
    rewrite (proj2 (N.leb_le _ _)) by lia. cbn [ok_or mbind result_bind]. unfold amount_checked_sub.
    rewrite (proj2 (N.leb_le _ _)) by lia. done.
  - unfold add. rewrite (checked_sum_fits (fun e : OutPoint * SpentOutput => is_deposit e.1)
      (fun e => filled_output_get_value (so_output e.2))); [done|].
    change (0 + dx <= AMOUNT_MAX). lia.
  - unfold add.
    rewrite (checked_sum_fits (fun e : OutPoint * SpentOutput => is_withdrawal_inpoint (so_inpoint e.2))
      (fun e => filled_output_get_value (so_output e.2))); [done|].
    change (0 + paid_out s <= AMOUNT_MAX). lia.
Qed.
End solvency.
