(* ===== verification/Chain.v ===== *)
(** * The chain of blocks

    The state as the node advances it: a block's body through [apply_block], then
    its two-way peg data through [connect_two_way_peg_data], as [connect_tip_] of
    [src/lib/node/net_task.rs] composes them. The invariants of both parts, and
    solvency, hold in every state that is reached from the empty one. *)

From S2P Require Import Prelude Types Transaction Sample Rollback BitNames Authorization State.
From S2P Require Import Merkle Block BlockSamples BlockSafety BlockEquiv BlockValue BlockRollback.
From S2P Require Import Ownership BlockChain WithdrawalBundle TwoWayPeg PegMoves PegBooks.
From S2P Require Import PegRollback PegChain Solvency.

(** The state's part of [connect_tip_] *)
Definition connect_tip_state `{Externals} (s : State) (header : Header) (body : Body)
    (two_way_peg_data : TwoWayPegData) : result Error State :=
  s ← apply_block s header body;
  peg_connect s two_way_peg_data.

(** ** A block leaves withdrawals and spent outputs alone *)

(** Outputs that transactions cannot touch: unspent withdrawals, spent outputs *)
Definition settled (s : State) (o : OutPoint) : Prop :=
  (exists fo, st_utxos s !! o = Some fo /\ filled_is_withdrawal (fo_content fo) = true) \/
  is_Some (st_stxos s !! o).
Definition kept (s s' : State) : Prop :=
  forall o, settled s o -> st_utxos s' !! o = st_utxos s !! o /\ st_stxos s' !! o = st_stxos s !! o.

#[local] Instance kept_preorder : PreOrder kept.
Proof.
  split; [by intros s o _|]. intros s s1 s2 H1 H2 o Ho. destruct (H1 o Ho) as [Hu Hx].
  assert (settled s1 o) as Ho1 by (unfold settled; by rewrite Hu, Hx).
  destruct (H2 o Ho1) as [-> ->]. by rewrite Hu, Hx.
Qed.

Lemma peg_wf_kept s s' :
  st_withdrawal_bundles s' = st_withdrawal_bundles s -> spent_once s' -> kept s s' ->
  peg_wf s -> peg_wf s'.
Proof.
  intros Hb Hs Hk [_ Hw]. split; [done|]. rewrite Hb. intros m6id b st Hm.
  destruct (Hw m6id b st Hm) as [Hnd Hloc Hsub Hun Hwd]. split; [done| | |done|done].
  - eapply Forall_impl_in; [exact Hloc|]. intros p Hp Hl. rewrite Forall_forall in Hwd.
    assert (settled s p.1) as Ho.
    { destruct Hl as [Hl|[i Hl]]; [left; exists p.2; split; [done|by apply Hwd]|right; eauto]. }
    unfold located. by destruct (Hk _ Ho) as [-> ->].
  - intros Hst. destruct (Hsub Hst) as [? He]. split; [done|].
    eapply Forall_impl; [exact He|]. intros p [Hx Hu].
    assert (settled s p.1) as Ho by (right; eauto). by destruct (Hk _ Ho) as [-> ->].
Qed.

Section blocks.
Context `{Externals}.

Lemma put_outputs_ne t fos u o :
  o ∉ (fun p : u32 * FilledOutput => OutPoint_Regular t p.1) <$> enumerate fos ->
  put_outputs t fos u !! o = u !! o.
Proof.
  unfold put_outputs. revert u. induction (enumerate fos) as [|p l IH]; intros u Ho; [done|].
  cbn in *. apply not_elem_of_cons in Ho as [Hne Ho]. rewrite IH by done.
  by rewrite lookup_insert_ne.
Qed.

Lemma connects_kept h s s0 f ftx fos d s' :
  connects h s (ft_transaction ftx) ftx fos d s' -> disjoint_dbs s ->
  validated s0 ftx f -> tx_fresh s (ft_transaction ftx) -> kept s s'.
Proof.
  intros Hc Hd Hv Hfr o Ho.
  assert (o ∉ tx_inputs (ft_transaction ftx)) as Hin.
  { intros Hi. destruct Ho as [(fo & Hfo & Hwd)|Hx].
    - pose proof (con_lookup _ _ _ _ _ _ _ Hc) as Hl. pose proof (val_no_withdrawal _ _ _ Hv) as Hnw.
      apply list_elem_of_lookup in Hi as [k Hk].
      destruct (Forall2_lookup_l _ _ _ _ _ Hl Hk) as (fo' & Hk' & Hfo'). simplify_eq.
      rewrite Forall_forall in Hnw. specialize (Hnw (o, fo)). cbn in Hnw.
      rewrite Hnw in Hwd; [done|]. unfold spent_inputs. eapply list_elem_of_lookup_2, lookup_zip_with_Some.
      eauto.
    - eapply connects_input_utxo in Hi; [|exact Hc]. apply Hd in Hi. rewrite Hi in Hx. by destruct Hx. }
  split; [|by eapply connects_stxos_lookup].
  assert (o ∉ tx_outpoints (ft_transaction ftx)) as Hout.
  { intros Hi. pose proof (fr_outpoints _ _ Hfr) as Hf. rewrite Forall_forall in Hf.
    destruct (Hf o Hi) as [Hu Hx]. destruct Ho as [(fo & Hfo & _)|[? ?]]; congruence. }
  pose proof (con_filled _ _ _ _ _ _ _ Hc) as Hfos. rewrite (con_state _ _ _ _ _ _ _ Hc). cbn.
  rewrite put_outputs_ne by (by rewrite tx_outpoints_filled). rewrite lookup_without.
  case_decide as Hset; [|done]. by rewrite elem_of_list_to_set in Hset.
Qed.

Lemma connects_bundles h s tx ftx fos d s' :
  connects h s tx ftx fos d s' -> st_withdrawal_bundles s' = st_withdrawal_bundles s.
Proof. by intros [_ _ _ _ _ _ ->]. Qed.

Lemma connects_all_kept h s0 ftxs fees : forall s s',
  connects_all h s ftxs s' -> Forall2 (validated s0) ftxs fees -> disjoint_dbs s ->
  txs_fresh s (ft_transaction <$> ftxs) ->
  kept s s' /\ st_withdrawal_bundles s' = st_withdrawal_bundles s.
Proof.
  revert fees. induction ftxs as [|ftx ftxs IH]; intros fees s s' Hall Hv Hd Hfr.
  { inversion Hall; subst. split; [by apply kept_preorder|done]. }
  inversion Hall as [|? ? fos d s1 ? ? Hc Hall']; subst. inversion Hv as [|? f ? fees' Hf Hv']; subst.
  cbn in Hfr. assert (tx_fresh s (ft_transaction ftx)) as Hfr1 by (by apply tf_fresh, Forall_inv in Hfr).
  destruct (IH fees' s1 s' Hall' Hv') as [Hk Hb].
  - by eapply connects_disjoint.
  - by eapply connects_fresh.
  - split; [|by rewrite Hb, (connects_bundles _ _ _ _ _ _ _ Hc)].
    etransitivity; [|exact Hk]. by eapply connects_kept.
Qed.

Lemma coinbase_kept s header body s1 :
  block_fresh s header body ->
  fold_res (connect_coinbase_output header) (enumerate (cb_outputs (bd_coinbase body))) s = Ok s1 ->
  kept s s1 /\ st_withdrawal_bundles s1 = st_withdrawal_bundles s.
Proof.
  intros Hfr Hcb. destruct (coinbase_state s header body s1 Hcb) as (l & Hl & _ & ->).
  split; [|done]. intros o Ho. split; [|done]. cbn.
  assert (o ∉ l.*1) as Hnin.
  { rewrite Hl. intros Hin. pose proof (bf_new _ _ _ Hfr) as Hnew. unfold created in Hnew.
    apply Forall_app in Hnew as [Hnew _]. rewrite Forall_forall in Hnew.
    destruct (Hnew o Hin) as [Hu Hx]. destruct Ho as [(fo & Hfo & _)|[? ?]]; congruence. }
  clear -Hnin. revert Hnin. generalize (st_utxos s). induction l as [|e l IH]; intros u Hnin; [done|].
  cbn in *. apply not_elem_of_cons in Hnin as [? ?]. rewrite IH by done. by rewrite lookup_insert_ne.
Qed.

(** What [apply_block] does to the invariants *)
Lemma apply_block_invariants s n header body s' :
  borsh_outpoint_spec -> batch_verify_spec -> state_wf s n -> block_fresh s header body ->
  n + N.of_nat (length (registered_names body)) <= u32_MAX + 1 ->
  apply_block s header body = Ok s' -> peg_wf s ->
  state_wf s' (n + N.of_nat (length (registered_names body))) /\ peg_wf s' /\
  st_height s' = Some (next_height s).
Proof.
  intros Hinj Hspec Hwf Hfresh Hn Hap Hpeg.
  destruct (apply_block_steps _ _ _ _ _ Hinj Hspec Hwf Hfresh Hap)
    as (s1 & s2 & pv & fees & _ & Hcb & _ & Hall & Htx & Hv & Hfr & _ & Hwf1 & ->).
  unfold registered_names in *. rewrite <-Htx in Hfr, Hn |- *.
  destruct (connects_all_wf _ _ _ _ _ _ _ Hall Hv Hfr Hn Hwf1) as [Hd Hdb Hown Htip].
  apply coinbase_kept in Hcb as [Hk1 Hb1]; [|done].
  destruct (connects_all_kept _ _ _ _ _ _ Hall Hv (swf_disjoint _ _ Hwf1) Hfr) as [Hk2 Hb2].
  split_and!; [|  |done].
  - split; [done|done|done|]. cbn. split; eauto.
  - apply (peg_wf_ext s2); [done..|]. eapply peg_wf_kept; [|  |etransitivity; [exact Hk1|exact Hk2]|done].
    + by rewrite Hb2.
    + intros o. destruct (st_utxos s2 !! o) eqn:Hu; [right; apply Hd; eauto|by left].
Qed.
End blocks.

(** ** Peg data leaves BitNames and reservations alone *)

(** An output that carries neither *)
Definition plain_output (fo : FilledOutput) : Prop :=
  filled_bitname (fo_content fo) = None /\ filled_reservation_data (fo_content fo) = None.

(** The mainchain's events: deposits are plain outputs, and no bundle is confirmed
    in the first block, where an unknown bundle would take every output. *)
Definition events_plain (h : u32) (l : list (MainBlockHash * BlockEvent)) : Prop :=
  Forall (fun p => match p.2 with
    | BlockEvent_Deposit d => plain_output (dep_output d)
    | BlockEvent_WithdrawalBundle e => h <> 0 \/ wbe_status e <> Event_Confirmed
    end) l.

Section tokens_moves.
Context {K : Type} (tok : FilledOutput -> option K).
Hypothesis Htok : forall fo, filled_is_withdrawal (fo_content fo) = true -> tok fo = None.

Lemma tokens_spent_by m6id l s :
  NoDup l.*1 -> entries_unspent s l -> all_withdrawals l ->
  tokens tok (st_utxos (spent_by m6id l s)) ≡ₚ tokens tok (st_utxos s).
Proof.
  intros Hnd Hl Hwd. cbn. rewrite (tokens_without tok (st_utxos s) l.*1 l.*2 Hnd).
  - assert (omap tok l.*2 = []) as ->; [|done].
    clear -Hwd Htok. induction Hwd as [|p l Hp _ IH]; [done|]. cbn. by rewrite (Htok _ Hp).
  - clear -Hl. induction Hl as [|p l [Hu _] _ IH]; cbn; by constructor.
Qed.

Lemma tokens_moves plain s s1 :
  plain -> moves plain s s1 -> tokens tok (st_utxos s1) ≡ₚ tokens tok (st_utxos s).
Proof.
  intros Hpl [|m6id l Hnd Hun Hwd|m6id l Hnd Hsp Hwd]; [done|apply tokens_spent_by; auto|].
  rewrite <-(tokens_spent_by m6id l (unspent_by l s) Hnd); [|  |done].
  - by rewrite spent_unspent_by.
  - apply Forall_forall. intros p Hp. rewrite unspent_by_utxos by done. split; [done|].
    apply unspent_by_stxos_in. by apply list_elem_of_fmap_2.
Qed.

Lemma tokens_events (Hplain : forall fo, plain_output fo -> tok fo = None) h l acc acc' :
  peg_wf (pa_state acc) -> events_fresh h l acc = true -> events_plain h l ->
  fold_res (connect_2wpd_event h) l acc = Ok acc' ->
  tokens tok (st_utxos (pa_state acc')) ≡ₚ tokens tok (st_utxos (pa_state acc)).
Proof.
  revert acc. induction l as [|e l IH]; intros acc Hw Hfr Hpl Hf; cbn [fold_res] in Hf.
  { by injection Hf as <-. }
  apply bind_Ok in Hf as (acc1 & Hc & Hf). cbn [events_fresh] in Hfr. rewrite Hc in Hfr.
  apply andb_true_iff in Hfr as [He Hfr]. apply Forall_cons in Hpl as [Hp Hpl].
  rewrite (IH acc1); [|by eapply connect_event_undo|done|done|done].
  destruct e as [ebh [d|e]]; unfold connect_2wpd_event in Hc; cbn [snd] in Hp.
  - injection Hc as <-. cbn [pa_state st_utxos set_utxos]. unfold event_fresh in He. cbn [snd] in He.
    apply andb_true_iff in He as [Hu%bool_decide_eq_true_1 _].
    rewrite tokens_insert by done. by rewrite (Hplain _ Hp).
  - apply bind_Ok in Hc as ([s' ie'] & Hc & [= <-]). cbn [pa_state].
    apply bundle_event_moves in Hc as (s1 & Hmv & Hu & _); [|done]. rewrite Hu.
    eapply tokens_moves; [exact Hp|exact Hmv].
Qed.
End tokens_moves.

Section peg.
Context `{Externals}.

Lemma peg_connect_state_wf s n data s' h :
  state_wf s n -> peg_wf s -> try_get_height s = Some h ->
  events_fresh h (peg_events data) (peg_start s) = true -> events_plain h (peg_events data) ->
  peg_connect s data = Ok s' -> state_wf s' n /\ peg_wf s' /\ st_height s' = st_height s.
Proof.
  intros [Hd Hdb [Hob Hor] Htip] Hw Hh Hfr Hpl (h' & acc & Hh' & Hf & Hp)%peg_connect_inv. simplify_eq.
  destruct (connect_events_undo h (peg_events data) (peg_start s) acc Hw Hfr Hf) as [Hw' _].
  assert (peg_wf s') as Hws'.
  { eapply peg_wf_propose; [|done]. by apply (peg_wf_ext (pa_state acc)). }
  set (fr := connected_frame h s acc) in *.
  assert (st_utxos s' = st_utxos (pa_state acc) /\ st_bitnames s' = st_bitnames s /\
    st_tip s' = st_tip s /\ st_height s' = st_height s) as (Hu & Hbn & Ht & Hht).
  { apply propose_bundle_inv in Hp as [->|(b & st & _ & _ & _ & -> & _)]; done. }
  assert (forall fo, filled_is_withdrawal (fo_content fo) = true -> plain_output fo) as Hwp.
  { intros fo. unfold plain_output. by destruct (fo_content fo). }
  split_and!; [|done|done]. split.
  - intros o Ho. destruct (pw_spent_once _ Hws' o) as [Hn|]; [|done]. rewrite Hn in Ho. by destruct Ho.
  - by rewrite Hbn.
  - rewrite Hbn, Hu. split.
    + unfold bitname_tokens in *. rewrite <-Hob.
      apply (tokens_events _ (fun fo Hfo => proj1 (Hwp fo Hfo)) (fun fo Hfo => proj1 Hfo) h
        (peg_events data) (peg_start s) acc Hw Hfr Hpl Hf).
    + unfold reservation_tokens in *. rewrite <-Hor.
      apply (tokens_events _ (fun fo Hfo => proj2 (Hwp fo Hfo)) (fun fo Hfo => proj2 Hfo) h
        (peg_events data) (peg_start s) acc Hw Hfr Hpl Hf).
  - by rewrite Ht, Hht.
Qed.
End peg.

(** ** Reachable states *)

Section reachable.
Context `{Externals}.

(** [n] names are registered. The premises beside the two computations say that
    hashes do not collide (fresh outpoints and txids), that no name is registered
    twice in a block, that sequence numbers do not run out, and that the mainchain
    does not repeat its events. *)
Inductive reachable : State -> N -> Prop :=
| reachable_empty : reachable empty_state 0
| reachable_connect s n header body data s1 s' :
    reachable s n -> block_fresh s header body ->
    n + N.of_nat (length (registered_names body)) <= u32_MAX + 1 ->
    apply_block s header body = Ok s1 ->
    events_plain (next_height s) (peg_events data) ->
    events_fresh (next_height s) (peg_events data) (peg_start s1) = true ->
    peg_connect s1 data = Ok s' ->
    reachable s' (n + N.of_nat (length (registered_names body))).

Lemma empty_state_wf : state_wf empty_state 0.
Proof.
  split.
  - intros o [? Ho]. cbn in Ho. by rewrite lookup_empty in Ho.
  - by apply dbs_wf_empty_names.
  - split; vm_compute; reflexivity.
  - split; intros [? ?]; done.
Qed.
Lemma empty_state_peg_wf : peg_wf empty_state.
Proof.
  split; [intros o; left; apply lookup_empty|]. cbn. intros m b st. by rewrite lookup_empty.
Qed.
Lemma empty_state_backed : backed empty_state.
Proof. vm_compute. discriminate. Qed.

Lemma reachable_invariants s n :
  borsh_outpoint_spec -> batch_verify_spec -> reachable s n ->
  state_wf s n /\ peg_wf s /\ backed s.
Proof.
  intros Hinj Hspec. induction 1 as [|s n header body data s1 s' _ (Hwf & Hpeg & Hb) Hfr Hn Hap Hpl Hef Hpc].
  { split_and!; [apply empty_state_wf|apply empty_state_peg_wf|apply empty_state_backed]. }
  destruct (apply_block_invariants _ _ _ _ _ Hinj Hspec Hwf Hfr Hn Hap Hpeg) as (Hwf1 & Hpeg1 & Hh1).
  destruct (apply_block_totals _ _ _ _ _ Hinj Hspec Hwf Hfr Hap) as (Hd & Hp & Hv).
  destruct (peg_connect_state_wf _ _ _ _ _ Hwf1 Hpeg1 Hh1 Hef Hpl Hpc) as (Hwf' & Hpeg' & _).
  split_and!; [done|done|]. eapply peg_connect_backed; [exact Hpeg1|exact Hh1|done|done|].
  unfold backed, liabilities in *. lia.
Qed.
End reachable.

(** ** Properties *)

(** C1 Solvency: in every reachable state whose deposits fit into an amount, [sidechain_wealth] is computed
    without an error, is the deposits less what withdrawal bundles paid out, and covers the value of all unspent
    outputs. [reachable] are the states that arise from the empty one by connecting blocks whose outpoints and
    txids are new and that register no name twice, each with peg data whose deposits are plain outputs to new
    outpoints, that repeats no event, and that confirms no bundle in the first block, while sequence numbers are
    left. *)
Theorem reachable_solvent `{Externals} (s : State) (n : N) :
  borsh_outpoint_spec -> batch_verify_spec -> reachable s n -> deposited s <= AMOUNT_MAX ->
  exists wealth, sidechain_wealth s = Ok wealth /\ wealth = deposited s - paid_out s /\
    utxo_value (st_utxos s) <= wealth.
Proof.
  intros Hinj Hspec Hr Hm. destruct (reachable_invariants _ _ Hinj Hspec Hr) as (_ & _ & Hb).
  exists (deposited s - paid_out s). split; [by apply sidechain_wealth_Ok|]. split; [done|].
  unfold backed, liabilities in Hb. lia.
Qed.

(** C2 Ownership: in every state that is reachable by blocks whose outpoints and txids are new and that register
    no name twice, with plain and fresh peg events and while sequence numbers are left, each registered BitName
    is carried by exactly one unspent output, no other BitName is carried by any, the sequence numbers in use
    are those below the number of names, and no output is both unspent and spent. That a block registers no name
    twice is an assumption: the code does not check it, and [apply_block_registers_twice] shows what happens
    otherwise. *)
Theorem reachable_one_owner `{Externals} (s : State) (n : N) :
  borsh_outpoint_spec -> batch_verify_spec -> reachable s n ->
  (forall b, is_Some (db_bitnames (st_bitnames s) !! b) ->
    exists! o, exists fo, st_utxos s !! o = Some fo /\ fo_content fo = Filled_BitName b) /\
  (forall o fo b, st_utxos s !! o = Some fo -> fo_content fo = Filled_BitName b ->
    is_Some (db_bitnames (st_bitnames s) !! b)) /\
  (forall i, is_Some (db_seq_to_bitname (st_bitnames s) !! i) <-> i < n) /\
  (forall o, is_Some (st_utxos s !! o) -> st_stxos s !! o = None).
Proof.
  intros Hinj Hspec Hr. destruct (reachable_invariants _ _ Hinj Hspec Hr) as ([Hd Hdb Hown _] & _ & _).
  split_and!; [intros; by eapply owned_unique|intros; by eapply owned_registered| |exact Hd].
  apply Hdb.
Qed.

(** A block's transactions cannot touch what withdrawal bundles rely on: the
    unspent withdrawal outputs stay unspent, and spent outputs stay as they are. *)
Theorem apply_block_keeps_withdrawals `{Externals} (s s' : State) (n : N) (header : Header)
    (body : Body) :
  borsh_outpoint_spec -> batch_verify_spec -> state_wf s n -> block_fresh s header body ->
  apply_block s header body = Ok s' ->
  (forall o fo, st_utxos s !! o = Some fo -> filled_is_withdrawal (fo_content fo) = true ->
    st_utxos s' !! o = Some fo) /\
  (forall o so, st_stxos s !! o = Some so -> st_stxos s' !! o = Some so).
Proof.
  intros Hinj Hspec Hwf Hfresh Hap.
  destruct (apply_block_steps _ _ _ _ _ Hinj Hspec Hwf Hfresh Hap)
    as (s1 & s2 & pv & fees & _ & Hcb & _ & Hall & Htx & Hv & Hfr & _ & Hwf1 & ->).
  rewrite <-Htx in Hfr. apply coinbase_kept in Hcb as [Hk1 _]; [|done].
  destruct (connects_all_kept _ _ _ _ _ _ Hall Hv (swf_disjoint _ _ Hwf1) Hfr) as [Hk2 _].
  assert (kept s s2) as Hk by (etransitivity; [exact Hk1|exact Hk2]). split.
  - intros o fo Hu Hwd. cbn. destruct (Hk o) as [-> _]; [|done]. left. eauto.
  - intros o so Hx. cbn. destruct (Hk o) as [_ ->]; [|done]. right. eauto.
Qed.

(** ** Samples *)

Module ReachableSamples.
#[local] Existing Instance Sample.externals.
(** A first block without transactions, with a deposit *)
Definition body : Body := mkBody (mkCoinbase [] []) [] [].
Definition header : Header := BlockSamples.header_of empty_state body.
Definition data : TwoWayPegData := PegSamples.data [BlockEvent_Deposit PegSamples.deposit].
Lemma connected : exists s', connect_tip_state empty_state header body data = Ok s'.
Proof. apply is_ok_Ok. vm_compute. reflexivity. Qed.
Lemma data_plain h : events_plain h (peg_events data).
Proof. repeat constructor. Qed.
Lemma data_fresh s1 : apply_block empty_state header body = Ok s1 ->
  events_fresh 0 (peg_events data) (peg_start s1) = true.
Proof.
  intros Hs1. assert (match apply_block empty_state header body with
    | Ok s1 => events_fresh 0 (peg_events data) (peg_start s1) | _ => true end = true) as Hf
    by (vm_compute; reflexivity).
  by rewrite Hs1 in Hf.
Qed.
Lemma body_fresh : block_fresh empty_state header body.
Proof. split; apply (bool_decide_unpack _); vm_compute; exact I. Qed.
Lemma reached s' : connect_tip_state empty_state header body data = Ok s' -> reachable s' 0.
Proof.
  intros (s1 & Hap & Hpc)%bind_Ok.
  apply (reachable_connect empty_state 0 header body data s1 s'); [constructor|apply body_fresh| | | | |];
    [vm_compute; discriminate|exact Hap|apply data_plain|by apply data_fresh|exact Hpc].
Qed.
End ReachableSamples.

Lemma reachable_solvent_witness :
  exists s', @reachable Sample.externals s' 0 /\
    @sidechain_wealth Sample.externals s' = Ok 50 /\ @utxo_value Sample.externals (st_utxos s') <= 50.
Proof.
  destruct ReachableSamples.connected as [s' Hs']. exists s'.
  pose proof (ReachableSamples.reached s' Hs') as Hr. split; [exact Hr|].
  assert ((fun s => (@deposited Sample.externals s, @paid_out Sample.externals s)) <$>
    @connect_tip_state Sample.externals empty_state ReachableSamples.header ReachableSamples.body
      ReachableSamples.data = Ok (50, 0)) as Ht by (vm_compute; reflexivity).
  rewrite Hs' in Ht. injection Ht as Hd Hp.
  destruct (@reachable_solvent Sample.externals s' 0 Sample.borsh_outpoint_inj Sample.batch_verify Hr)
    as (w & Hw & -> & Hv); [rewrite Hd; vm_compute; discriminate|].
  rewrite Hd, Hp in Hw, Hv. split; [exact Hw|exact Hv].
Defined.

Lemma reachable_one_owner_witness :
  exists s', @reachable Sample.externals s' 0 /\
    forall o, is_Some (st_utxos s' !! o) -> st_stxos s' !! o = None.
Proof.
  destruct ReachableSamples.connected as [s' Hs']. exists s'.
  pose proof (ReachableSamples.reached s' Hs') as Hr. split; [exact Hr|].
  apply (@reachable_one_owner Sample.externals s' 0 Sample.borsh_outpoint_inj Sample.batch_verify Hr).
Defined.

Lemma apply_block_keeps_withdrawals_witness :
  exists s', @apply_block Sample.externals BlockSamples.state BlockSamples.header
      BlockSamples.body = Ok s' /\
    forall o so, st_stxos BlockSamples.state !! o = Some so -> st_stxos s' !! o = Some so.
Proof.
  destruct BlockSamples.applied as [s' Hs']. exists s'. split; [exact Hs'|].
  apply (@apply_block_keeps_withdrawals Sample.externals _ s' 1 _ BlockSamples.body
    Sample.borsh_outpoint_inj Sample.batch_verify ChainSamples.wf ChainSamples.fresh Hs').
Defined.
