(* ===== verification/SideTips.v ===== *)
(** * Side tips

    [src/lib/archive/side_tips/mod.rs]: the tip of the mainchain the node follows,
    and the sidechain blocks it can be reorganised to, by hash and in the order of
    their height and work. *)

From S2P Require Import Prelude Types.

(** ** Data *)

(** [bitcoin::Work], compared as a number *)
Notation Work := N (only parsing).

(** [bitcoin::BlockHash::all_zeros()] *)
Definition all_zeros : MainBlockHash := 0.

Record BlockHeaderInfo : Type := mkBlockHeaderInfo {
  bhi_block_hash : MainBlockHash;
  bhi_prev_block_hash : MainBlockHash;
  bhi_height : u32;
  bhi_work : Work;
}.
#[export] Instance BlockHeaderInfo_eq_dec : EqDecision BlockHeaderInfo.
Proof. solve_decision. Defined.

Record MainchainTip : Type := mkMainchainTip {
  mct_cumulative_work : Work;
  mct_tip_info : option BlockHeaderInfo;
}.

Record SidechainTipInfo : Type := mkSidechainTipInfo {
  sti_sidechain_height : u32;
  sti_work : Work;
  sti_main_block_hash : MainBlockHash;
}.
#[export] Instance SidechainTipInfo_eq_dec : EqDecision SidechainTipInfo.
Proof. solve_decision. Defined.
#[export] Instance SidechainTipInfo_countable : Countable SidechainTipInfo.
Proof.
  apply (inj_countable' (fun i => (sti_sidechain_height i, sti_work i, sti_main_block_hash i))
    (fun '(h, w, m) => mkSidechainTipInfo h w m)). by intros [].
Defined.

(** The derived order: by height, then work, then mainchain block *)
Definition tip_info_rank (i : SidechainTipInfo) : N * N * N :=
  (sti_sidechain_height i, sti_work i, sti_main_block_hash i).
Definition tip_info_leb (i j : SidechainTipInfo) : bool :=
  triple_leb (tip_info_rank i) (tip_info_rank j).

Record SidechainTip : Type := mkSidechainTip {
  sct_block_hash : BlockHash;
  sct_info : SidechainTipInfo;
}.

Record SidechainHeaderData : Type := mkSidechainHeaderData {
  shd_prev_side_hash : option BlockHash;
  shd_prev_main_hash : MainBlockHash;
}.
(** [From<Header> for SidechainHeaderData] *)
Definition header_data (header : Header) : SidechainHeaderData :=
  mkSidechainHeaderData (hd_prev_side_hash header) (hd_prev_main_hash header).

Record BmmCommitment : Type := mkBmmCommitment {
  bc_sidechain_block_hash : BlockHash;
  bc_sidechain_header_data : SidechainHeaderData;
}.

(** Arithmetic on [bitcoin::Work], and the key bytes of [ordered_sidechain_tips] *)
Class WorkExternals : Type := {
  work_add : Work -> Work -> Work;
  work_sub : Work -> Work -> Work;
  bincode_tip_info : SidechainTipInfo -> bytes;
}.
(** Documented: subtraction undoes addition; the keys sort like the tips. *)
Definition work_spec `{WorkExternals} : Prop := forall a b, work_sub (work_add a b) b = a.
Definition bincode_tip_info_spec `{WorkExternals} : Prop := forall i j,
  bytes_ltb (bincode_tip_info i) (bincode_tip_info j) = negb (tip_info_leb j i).

Record SideTips : Type := mkSideTips {
  sd_mainchain_tip : MainchainTip;
  sd_sidechain_tips : gmap BlockHash SidechainTipInfo;
  sd_ordered_sidechain_tips : gmap SidechainTipInfo BlockHash;
}.

Inductive SideTipsError : Type :=
| MissingSidechainParent (parent : BlockHash)
| Connect_InvalidMainchainParent (expected : MainBlockHash)
| Connect_InvalidTipHeight (expected : u32)
| NoMainchainTip
| Disconnect_InvalidMainchainParent (expected : MainBlockHash)
| Disconnect_InvalidMainchainParentHeight (tip_height : u32)
| MissingSidechainTip (block_hash : BlockHash).

(** ** Operations *)

Definition main_tip_block_hash (t : MainchainTip) : MainBlockHash :=
  match mct_tip_info t with
  | Some info => bhi_block_hash info
  | None => all_zeros
  end.

(** [SideTips::create] on an empty store *)
Definition side_tips_create : SideTips := mkSideTips (mkMainchainTip 0 None) ∅ ∅.

(** [saturating_add(1)] on a [u32] *)
Definition u32_saturating_succ (n : u32) : u32 := if n <? u32_MAX then n + 1 else u32_MAX.

Definition connect_sidechain_tip (t : SideTips) (main_block_hash : MainBlockHash)
    (cumulative_work : Work) (sidechain_block_hash : BlockHash)
    (sidechain_header_data : SidechainHeaderData) : result SideTipsError SideTips :=
  sidechain_height ←
    match shd_prev_side_hash sidechain_header_data with
    | Some parent_hash =>
        match sd_sidechain_tips t !! parent_hash with
        | None => Err (MissingSidechainParent parent_hash)
        | Some parent_info => Ok (u32_saturating_succ (sti_sidechain_height parent_info))
        end
    | None => Ok 0
    end;
  match sd_sidechain_tips t !! sidechain_block_hash with
  | Some _ => Ok t
  | None =>
      let side_tip_info :=
        mkSidechainTipInfo sidechain_height cumulative_work main_block_hash in
      Ok (mkSideTips (sd_mainchain_tip t)
        (<[sidechain_block_hash := side_tip_info]> (sd_sidechain_tips t))
        (<[side_tip_info := sidechain_block_hash]> (sd_ordered_sidechain_tips t)))
  end.

Definition disconnect_sidechain_tip (t : SideTips) (side_block_hash : BlockHash) : SideTips :=
  match sd_sidechain_tips t !! side_block_hash with
  | None => t
  | Some side_tip_info =>
      mkSideTips (sd_mainchain_tip t)
        (delete side_block_hash (sd_sidechain_tips t))
        (delete side_tip_info (sd_ordered_sidechain_tips t))
  end.

Section tips.
Context `{WorkExternals}.

(** [ordered_sidechain_tips.last()], in the order of the key bytes *)
Definition best_side_tip (t : SideTips) : option SidechainTip :=
  '(info, block_hash) ←
    db_last (fun i j => bytes_ltb (bincode_tip_info i) (bincode_tip_info j))
      (sd_ordered_sidechain_tips t);
  Some (mkSidechainTip block_hash info).

Definition connect_mainchain_tip (t : SideTips) (header_info : BlockHeaderInfo)
    (bmm_commitment : option BmmCommitment) : result SideTipsError SideTips :=
  let mainchain_tip := sd_mainchain_tip t in
  let expected_prev_main_hash := main_tip_block_hash mainchain_tip in
  _ ← ensure (bhi_prev_block_hash header_info =? expected_prev_main_hash)
        (Connect_InvalidMainchainParent expected_prev_main_hash);
  _ ← match mct_tip_info mainchain_tip with
      | Some tip_info =>
          ensure (bhi_height header_info =? u32_add (bhi_height tip_info) 1)
            (Connect_InvalidTipHeight (u32_add (bhi_height tip_info) 1))
      | None => Ok tt
      end;
  let cumulative_work := work_add (mct_cumulative_work mainchain_tip) (bhi_work header_info) in
  t ← match bmm_commitment with
      | Some bmm_commitment =>
          connect_sidechain_tip t (bhi_block_hash header_info) cumulative_work
            (bc_sidechain_block_hash bmm_commitment) (bc_sidechain_header_data bmm_commitment)
      | None => Ok t
      end;
  Ok (mkSideTips (mkMainchainTip cumulative_work (Some header_info))
        (sd_sidechain_tips t) (sd_ordered_sidechain_tips t)).

(** The checks of [disconnect_mainchain_tip] on the new mainchain tip *)
Definition new_mainchain_tip_info (mainchain_tip_info : BlockHeaderInfo)
    (prev_tip_info : option BlockHeaderInfo) : result SideTipsError (option BlockHeaderInfo) :=
  match prev_tip_info with
  | Some prev_tip_info =>
      _ ← ensure (bhi_block_hash prev_tip_info =? bhi_prev_block_hash mainchain_tip_info)
            (Disconnect_InvalidMainchainParent (bhi_prev_block_hash mainchain_tip_info));
      _ ← ensure (u32_add (bhi_height prev_tip_info) 1 =? bhi_height mainchain_tip_info)
            (Disconnect_InvalidMainchainParentHeight (bhi_height mainchain_tip_info));
      Ok (if bhi_prev_block_hash mainchain_tip_info =? all_zeros then None
          else Some prev_tip_info)
  | None =>
      _ ← ensure (bhi_prev_block_hash mainchain_tip_info =? all_zeros)
            (Disconnect_InvalidMainchainParent (bhi_prev_block_hash mainchain_tip_info));
      Ok None
  end.

Definition disconnect_mainchain_tip (t : SideTips) (prev_tip_info : option BlockHeaderInfo)
    (bmm_commitment : option BlockHash) : result SideTipsError SideTips :=
  let '(mkMainchainTip cumulative_work mainchain_tip_info) := sd_mainchain_tip t in
  mainchain_tip_info ← ok_or mainchain_tip_info NoMainchainTip;
  new_tip_info ← new_mainchain_tip_info mainchain_tip_info prev_tip_info;
  ordered ←
    match bmm_commitment with
    | Some side_block_hash =>
        side_tip_info ← ok_or (sd_sidechain_tips t !! side_block_hash)
          (MissingSidechainTip side_block_hash);
        if sti_main_block_hash side_tip_info =? bhi_block_hash mainchain_tip_info then
          _ ← ok_or (sd_ordered_sidechain_tips t !! side_tip_info)
            (MissingSidechainTip side_block_hash);
          Ok (delete side_tip_info (sd_ordered_sidechain_tips t))
        else Ok (sd_ordered_sidechain_tips t)
    | None => Ok (sd_ordered_sidechain_tips t)
    end;
  Ok (mkSideTips
        (mkMainchainTip (work_sub cumulative_work (bhi_work mainchain_tip_info)) new_tip_info)
        (sd_sidechain_tips t) ordered).
End tips.

(** ** The invariant *)

(** The two tables of tips describe the same set of tips. *)
Definition tips_wf (t : SideTips) : Prop := forall b i,
  sd_sidechain_tips t !! b = Some i <-> sd_ordered_sidechain_tips t !! i = Some b.

(** No tip was committed to by the mainchain block *)
Definition main_unused (t : SideTips) (m : MainBlockHash) : Prop :=
  map_Forall (fun _ i => sti_main_block_hash i <> m) (sd_sidechain_tips t).

Lemma tips_wf_create : tips_wf side_tips_create.
Proof. intros b i. cbn. by rewrite !lookup_empty. Qed.

Lemma tips_wf_insert t b i mt :
  tips_wf t -> sd_sidechain_tips t !! b = None ->
  main_unused t (sti_main_block_hash i) ->
  tips_wf (mkSideTips mt (<[b := i]> (sd_sidechain_tips t)) (<[i := b]> (sd_ordered_sidechain_tips t))).
Proof.
  intros Hw Hb Hm b' i'. cbn. assert (sd_ordered_sidechain_tips t !! i = None) as Hi.
  { apply eq_None_not_Some. intros [b0 Hb0%Hw]. by apply Hm in Hb0. }
  rewrite !lookup_insert_Some, (Hw b' i'). split.
  - intros [[-> ->]|[Hne Hl]]; [by left|right]. split; [intros ->; congruence|done].
  - intros [[-> ->]|[Hne Hl]]; [by left|right]. split; [|done]. intros ->.
    apply Hw in Hl. congruence.
Qed.

Lemma connect_sidechain_tip_wf t m w b d t' :
  tips_wf t -> main_unused t m -> connect_sidechain_tip t m w b d = Ok t' -> tips_wf t'.
Proof.
  intros Hw Hm Hc. unfold connect_sidechain_tip in Hc. apply bind_Ok in Hc as (h & _ & Hc).
  destruct (sd_sidechain_tips t !! b) eqn:Hb; injection Hc as <-; [done|].
  by apply tips_wf_insert.
Qed.

Lemma connect_sidechain_tip_present t m w b d t' :
  connect_sidechain_tip t m w b d = Ok t' -> is_Some (sd_sidechain_tips t' !! b).
Proof.
  intros Hc. unfold connect_sidechain_tip in Hc. apply bind_Ok in Hc as (h & _ & Hc).
  destruct (sd_sidechain_tips t !! b) eqn:Hb; injection Hc as <-; [by rewrite Hb|].
  cbn. rewrite lookup_insert_eq. eauto.
Qed.

(** The height a new tip gets *)
Definition parent_height (t : SideTips) (d : SidechainHeaderData) : result SideTipsError u32 :=
  match shd_prev_side_hash d with
  | Some parent_hash =>
      match sd_sidechain_tips t !! parent_hash with
      | None => Err (MissingSidechainParent parent_hash)
      | Some parent_info => Ok (u32_saturating_succ (sti_sidechain_height parent_info))
      end
  | None => Ok 0
  end.
Lemma connect_sidechain_tip_new t m w b d t' :
  sd_sidechain_tips t !! b = None -> connect_sidechain_tip t m w b d = Ok t' ->
  exists i, sti_main_block_hash i = m /\ is_ok (parent_height t d) = true /\
    t' = mkSideTips (sd_mainchain_tip t) (<[b := i]> (sd_sidechain_tips t))
      (<[i := b]> (sd_ordered_sidechain_tips t)).
Proof.
  intros Hb Hc. unfold connect_sidechain_tip in Hc. fold (parent_height t d) in Hc.
  apply bind_Ok in Hc as (h & Hh & Hc). rewrite Hb in Hc. injection Hc as <-.
  eexists. split_and!; [..|reflexivity]; [done|by rewrite Hh].
Qed.
Lemma connect_sidechain_tip_known t m w b d :
  is_Some (sd_sidechain_tips t !! b) -> is_ok (parent_height t d) = true ->
  connect_sidechain_tip t m w b d = Ok t.
Proof.
  intros [i Hi] Hd. unfold connect_sidechain_tip. fold (parent_height t d).
  apply is_ok_Ok in Hd as [h ->]. cbn. by rewrite Hi.
Qed.
Lemma parent_height_mono t t' d :
  sd_sidechain_tips t ⊆ sd_sidechain_tips t' ->
  is_ok (parent_height t d) = true -> is_ok (parent_height t' d) = true.
Proof.
  unfold parent_height. destruct (shd_prev_side_hash d) as [p|]; [|done].
  intros Hsub. destruct (sd_sidechain_tips t !! p) as [i|] eqn:Hp; [|done].
  by rewrite (lookup_weaken _ _ _ _ Hp Hsub).
Qed.

Lemma disconnect_sidechain_tip_wf t b : tips_wf t -> tips_wf (disconnect_sidechain_tip t b).
Proof.
  intros Hw. unfold disconnect_sidechain_tip. destruct (sd_sidechain_tips t !! b) as [i|] eqn:Hb; [|done].
  intros b' i'. cbn. rewrite !lookup_delete_Some, (Hw b' i'). split; intros [Hne Hl]; split; try done.
  - intros ->. apply Hw in Hb. congruence.
  - intros ->. apply Hw in Hl. congruence.
Qed.

Lemma triple_leb_spec x y : triple_leb x y = true <->
  x.1.1 < y.1.1 \/ x.1.1 = y.1.1 /\ (x.1.2 < y.1.2 \/ x.1.2 = y.1.2 /\ x.2 <= y.2).
Proof.
  destruct x as [[a b] c], y as [[a' b'] c']. unfold triple_leb. cbn.
  rewrite orb_true_iff, andb_true_iff, orb_true_iff, andb_true_iff.
  by rewrite !N.ltb_lt, !N.eqb_eq, N.leb_le.
Qed.

(** The order of the tips is strict and total. *)
Definition tip_info_ltb (i j : SidechainTipInfo) : bool := negb (tip_info_leb j i).
Lemma tip_info_ltb_true i j : tip_info_ltb i j = true <-> tip_info_leb j i = false.
Proof. unfold tip_info_ltb. by destruct (tip_info_leb j i). Qed.
Lemma tip_info_ltb_false i j : tip_info_ltb i j = false <-> tip_info_leb j i = true.
Proof. unfold tip_info_ltb. by destruct (tip_info_leb j i). Qed.
Lemma tip_info_ltb_irrefl i : tip_info_ltb i i = false.
Proof. apply tip_info_ltb_false, triple_leb_spec. lia. Qed.
Lemma tip_info_ltb_trans i j k :
  tip_info_ltb i j = true -> tip_info_ltb j k = true -> tip_info_ltb i k = true.
Proof.
  rewrite !tip_info_ltb_true, <-!not_true_iff_false. unfold tip_info_leb.
  rewrite !triple_leb_spec. lia.
Qed.
Lemma tip_info_ltb_total i j : tip_info_ltb i j = false -> tip_info_ltb j i = false -> i = j.
Proof.
  rewrite !tip_info_ltb_false. unfold tip_info_leb. rewrite !triple_leb_spec.
  destruct i, j. cbn. intros. f_equal; lia.
Qed.

Section properties.
Context `{WorkExternals}.

Lemma best_side_tip_Some t b i :
  bincode_tip_info_spec -> best_side_tip t = Some (mkSidechainTip b i) <->
  sd_ordered_sidechain_tips t !! i = Some b /\
  forall j, is_Some (sd_ordered_sidechain_tips t !! j) -> tip_info_leb j i = true.
Proof.
  intros Hspec. unfold best_side_tip.
  rewrite (db_last_ext _ tip_info_ltb) by (intros; apply Hspec).
  transitivity (db_last tip_info_ltb (sd_ordered_sidechain_tips t) = Some (i, b)).
  { destruct (db_last _ _) as [[i' b']|]; cbn; naive_solver. }
  rewrite (db_last_Some tip_info_ltb tip_info_ltb_irrefl tip_info_ltb_trans tip_info_ltb_total).
  by setoid_rewrite tip_info_ltb_false.
Qed.

Lemma connect_mainchain_tip_Ok t hi c t' :
  connect_mainchain_tip t hi c = Ok t' ->
  bhi_prev_block_hash hi = main_tip_block_hash (sd_mainchain_tip t) /\
  (forall info, mct_tip_info (sd_mainchain_tip t) = Some info ->
    bhi_height hi = u32_add (bhi_height info) 1) /\
  exists t1,
    match c with
    | Some c => connect_sidechain_tip t (bhi_block_hash hi)
        (work_add (mct_cumulative_work (sd_mainchain_tip t)) (bhi_work hi))
        (bc_sidechain_block_hash c) (bc_sidechain_header_data c)
    | None => Ok t
    end = Ok t1 /\
    t' = mkSideTips (mkMainchainTip (work_add (mct_cumulative_work (sd_mainchain_tip t)) (bhi_work hi))
      (Some hi)) (sd_sidechain_tips t1) (sd_ordered_sidechain_tips t1).
Proof.
  unfold connect_mainchain_tip. intros Hc.
  apply bind_Ok in Hc as (? & Hp%ensure_Ok & Hc). apply bind_Ok in Hc as (? & Hh & Hc).
  apply bind_Ok in Hc as (t1 & Ht1 & Hc). injection Hc as <-. apply N.eqb_eq in Hp.
  split; [done|]. split; [|by exists t1]. intros info Hi. rewrite Hi in Hh.
  by apply ensure_Ok, N.eqb_eq in Hh.
Qed.

Lemma new_tip_info_Ok t hi :
  (forall info, mct_tip_info (sd_mainchain_tip t) = Some info -> bhi_block_hash info <> all_zeros) ->
  bhi_prev_block_hash hi = main_tip_block_hash (sd_mainchain_tip t) ->
  (forall info, mct_tip_info (sd_mainchain_tip t) = Some info ->
    bhi_height hi = u32_add (bhi_height info) 1) ->
  new_mainchain_tip_info hi (mct_tip_info (sd_mainchain_tip t)) =
    Ok (mct_tip_info (sd_mainchain_tip t)).
Proof.
  intros Hz Hp Hh. unfold new_mainchain_tip_info, main_tip_block_hash in *.
  destruct (mct_tip_info (sd_mainchain_tip t)) as [info|].
  - rewrite Hp, N.eqb_refl, (Hh info), N.eqb_refl by done. cbn.
    by rewrite (proj2 (N.eqb_neq _ _) (Hz _ eq_refl)).
  - by rewrite Hp.
Qed.

(** A mainchain block whose side tip is known connects again, and changes no tip. *)
Lemma reconnect_mainchain_tip_Ok t t2 hi c :
  bhi_prev_block_hash hi = main_tip_block_hash (sd_mainchain_tip t) ->
  (forall info, mct_tip_info (sd_mainchain_tip t) = Some info ->
    bhi_height hi = u32_add (bhi_height info) 1) ->
  sd_mainchain_tip t2 = sd_mainchain_tip t ->
  sd_sidechain_tips t ⊆ sd_sidechain_tips t2 ->
  is_Some (sd_sidechain_tips t2 !! bc_sidechain_block_hash c) ->
  is_ok (parent_height t (bc_sidechain_header_data c)) = true ->
  exists t3, connect_mainchain_tip t2 hi (Some c) = Ok t3 /\
    sd_sidechain_tips t3 = sd_sidechain_tips t2 /\
    sd_ordered_sidechain_tips t3 = sd_ordered_sidechain_tips t2.
Proof.
  intros Hp Hh Hmt Hsub Hb Hd. unfold connect_mainchain_tip. rewrite Hmt, Hp, N.eqb_refl.
  cbn [ensure mbind result_bind]. rewrite connect_sidechain_tip_known; [|done|by eapply parent_height_mono].
  destruct (mct_tip_info (sd_mainchain_tip t)) as [info|].
  - rewrite (Hh info), N.eqb_refl by done. cbn. by eexists.
  - cbn. by eexists.
Qed.
End properties.

(** ** Properties *)

(** Connecting a mainchain block that no tip was committed to before keeps the
    two tables of tips consistent, moves the mainchain tip to the block, and the
    best side tip is then the tip of greatest height, work and block hash. *)
Theorem connect_mainchain_tip_correct `{WorkExternals} (t t' : SideTips)
    (header_info : BlockHeaderInfo) (bmm_commitment : option BmmCommitment) :
  bincode_tip_info_spec -> tips_wf t -> main_unused t (bhi_block_hash header_info) ->
  connect_mainchain_tip t header_info bmm_commitment = Ok t' ->
  tips_wf t' /\ mct_tip_info (sd_mainchain_tip t') = Some header_info /\
  (forall c, bmm_commitment = Some c ->
    is_Some (sd_sidechain_tips t' !! bc_sidechain_block_hash c)) /\
  forall b i, best_side_tip t' = Some (mkSidechainTip b i) <->
    sd_sidechain_tips t' !! b = Some i /\
    forall b' j, sd_sidechain_tips t' !! b' = Some j -> tip_info_leb j i = true.
Proof.
  intros Hspec Hw Hm Hc. apply connect_mainchain_tip_Ok in Hc as (_ & _ & t1 & Ht1 & ->).
  set (mt := mkMainchainTip _ _).
  assert (tips_wf t1) as Hw1.
  { destruct bmm_commitment as [c|]; [by eapply connect_sidechain_tip_wf|by injection Ht1 as <-]. }
  assert (tips_wf (mkSideTips mt (sd_sidechain_tips t1) (sd_ordered_sidechain_tips t1))) as Hw' by done.
  split_and!; [done|done| |].
  - intros c ->. cbn. by eapply connect_sidechain_tip_present.
  - intros b i. rewrite best_side_tip_Some by done. rewrite <-(Hw' b i). split; intros [Hb Hj]; (split; [done|]).
    + intros b' j Hb'. apply Hj. exists b'. by apply Hw'.
    + intros j [b' Hb']. apply (Hj b'). by apply Hw'.
Qed.

(** Disconnecting a mainchain block that committed to no side tip restores the
    side tips before it was connected. *)
Theorem disconnect_connect_mainchain_tip `{WorkExternals} (t t' : SideTips)
    (header_info : BlockHeaderInfo) :
  work_spec -> (forall info, mct_tip_info (sd_mainchain_tip t) = Some info ->
    bhi_block_hash info <> all_zeros) ->
  connect_mainchain_tip t header_info None = Ok t' ->
  disconnect_mainchain_tip t' (mct_tip_info (sd_mainchain_tip t)) None = Ok t.
Proof.
  intros Hspec Hz Hc. apply connect_mainchain_tip_Ok in Hc as (Hp & Hh & t1 & [= <-] & ->).
  unfold disconnect_mainchain_tip. cbn [sd_mainchain_tip ok_or mbind result_bind].
  rewrite (new_tip_info_Ok t header_info) by done. cbn. rewrite Hspec.
  destruct t as [[w i] st o]. done.
Qed.

(** A side tip that a disconnected mainchain block had committed to stays in
    [sidechain_tips] but leaves the ordered table, and connecting the block again
    does not put it back: it can no longer become the best side tip. *)
Theorem reconnected_tip_lost `{WorkExternals} (t t1 : SideTips) (header_info : BlockHeaderInfo)
    (c : BmmCommitment) :
  work_spec -> tips_wf t -> main_unused t (bhi_block_hash header_info) ->
  (forall info, mct_tip_info (sd_mainchain_tip t) = Some info -> bhi_block_hash info <> all_zeros) ->
  sd_sidechain_tips t !! bc_sidechain_block_hash c = None ->
  connect_mainchain_tip t header_info (Some c) = Ok t1 ->
  exists t2 t3 info,
    disconnect_mainchain_tip t1 (mct_tip_info (sd_mainchain_tip t))
      (Some (bc_sidechain_block_hash c)) = Ok t2 /\
    connect_mainchain_tip t2 header_info (Some c) = Ok t3 /\
    sd_sidechain_tips t3 !! bc_sidechain_block_hash c = Some info /\
    sd_ordered_sidechain_tips t3 = sd_ordered_sidechain_tips t /\
    forall best, best_side_tip t3 = Some best -> sct_block_hash best <> bc_sidechain_block_hash c.
Proof.
  intros Hspec Hw Hm Hz Hn Hc. apply connect_mainchain_tip_Ok in Hc as (Hp & Hh & t' & Ht' & ->).
  apply connect_sidechain_tip_new in Ht' as (i & Hi & Hd & ->); [|done].
  assert (sd_ordered_sidechain_tips t !! i = None) as Ho.
  { apply eq_None_not_Some. intros [b Hb%Hw]. by apply Hm in Hb. }
  set (b := bc_sidechain_block_hash c) in *.
  set (t2 := mkSideTips (sd_mainchain_tip t) (<[b := i]> (sd_sidechain_tips t))
    (sd_ordered_sidechain_tips t)).
  destruct (reconnect_mainchain_tip_Ok t t2 header_info c) as (t3 & Ht3 & Htips & Hord);
    [done|done|done|apply insert_subseteq, Hn|by exists i; apply lookup_insert_eq|done|].
  exists t2, t3, i. split_and!; [|done|by rewrite Htips; apply lookup_insert_eq|done|].
  - unfold disconnect_mainchain_tip. cbn [sd_mainchain_tip ok_or mbind result_bind].
    rewrite (new_tip_info_Ok t header_info) by done. cbn.
    rewrite lookup_insert_eq. cbn. rewrite Hi, N.eqb_refl, lookup_insert_eq. cbn.
    rewrite delete_insert_id, Hspec by done. by destruct t as [[??] ??].
  - intros [b' j] Hb'. unfold best_side_tip in Hb'.
    destruct (db_last _ _) as [[j' b0]|] eqn:Hl; [|done]. cbn in Hb'. injection Hb' as -> ->.
    apply db_last_in in Hl. rewrite Hord in Hl. apply Hw in Hl. cbn. congruence.
Qed.
