(* ===== verification/Lineage.v ===== *)
(** * Lineages

    What the archive promises of a block index, for the blocks of the sidechain and
    for those of the mainchain alike: heights, parents, and the ancestors at
    distances that are powers of two. The searches of [src/lib/archive/mod.rs] that
    are written once for each of the two chains ([get_nth_ancestor] and
    [get_nth_main_ancestor], [is_descendant] and [is_main_descendant], the search of
    the last common ancestor) are defined and proved here against the interface. *)

From S2P Require Import Prelude Types.

(** The reads of one of the two indexes *)
Class Lineage (E : Type) : Type := {
  lin_height : N -> result E u32;
  lin_parent : N -> result E N;
  lin_exponential : N -> result E (list N);
  lin_no_ancestor : N -> u32 -> E;
}.

Section lineage.
Context {E : Type} `{Lineage E}.

(** The [while n > 0] loop of [get_nth_ancestor]. Each turn clears the highest bit of
    [n], so the size of [n] is enough fuel. *)
Fixpoint nth_ancestor_loop (fuel : nat) (orig_block_hash : N) (orig_n : u32) (block_hash : N) (n : u32)
  : result E N :=
  if n =? 0 then Ok block_hash
  else
    match fuel with
    | O => Panic
    | S fuel =>
        height ← lin_height block_hash;
        if height <? n then Err (lin_no_ancestor orig_block_hash orig_n)
        else if n =? 1 then lin_parent block_hash
        else
          let exp_ancestor_index := N.log2 n - 1 in
          exponential_ancestors ← lin_exponential block_hash;
          block_hash ← expect (exponential_ancestors !! N.to_nat exp_ancestor_index);
          nth_ancestor_loop fuel orig_block_hash orig_n block_hash
            (n - N.shiftl 2 exp_ancestor_index)
    end.
Definition nth_ancestor (block_hash : N) (n : u32) : result E N :=
  nth_ancestor_loop (N.size_nat n) block_hash n block_hash n.

Definition descends (ancestor descendant : N) : result E bool :=
  if ancestor =? descendant then Ok true
  else
    ancestor_height ← lin_height ancestor;
    descendant_height ← lin_height descendant;
    if descendant_height <? ancestor_height then Ok false
    else
      a ← nth_ancestor descendant (descendant_height - ancestor_height);
      Ok (ancestor =? a).

(** The [match] that brings two blocks to the lower of their heights *)
Definition equalize (block_hash0 block_hash1 : N) : result E (N * N * u32) :=
  height0 ← lin_height block_hash0;
  height1 ← lin_height block_hash1;
  match height0 ?= height1 with
  | Eq => Ok (block_hash0, block_hash1, height0)
  | Lt =>
      block_hash1 ← nth_ancestor block_hash1 (height1 - height0);
      Ok (block_hash0, block_hash1, height0)
  | Gt =>
      block_hash0 ← nth_ancestor block_hash0 (height0 - height1);
      Ok (block_hash0, block_hash1, height1)
  end.

(** The binary search over depths; the interval shrinks at each turn, so its length is
    enough fuel. *)
Fixpoint search_loop (fuel : nat) (block_hash0 block_hash1 : N) (lo_depth hi_depth : u32)
  : result E u32 :=
  if lo_depth <? hi_depth then
    match fuel with
    | O => Panic
    | S fuel =>
        let mid_depth := u32_add lo_depth hi_depth / 2 in
        mid_ancestor0 ← nth_ancestor block_hash0 mid_depth;
        mid_ancestor1 ← nth_ancestor block_hash1 mid_depth;
        if mid_ancestor0 =? mid_ancestor1
        then search_loop fuel block_hash0 block_hash1 lo_depth mid_depth
        else search_loop fuel block_hash0 block_hash1 (u32_add mid_depth 1) hi_depth
    end
  else Ok hi_depth.
Definition search_common (block_hash0 block_hash1 : N) (height0 : u32) : result E N :=
  hi_depth ← search_loop (N.to_nat height0) block_hash0 block_hash1 1 height0;
  nth_ancestor block_hash0 hi_depth.
End lineage.

(** ** Trees of blocks *)

(** The ancestor at distance [n], following the parent links *)
Fixpoint ancestor_at (parent : N -> option N) (n : nat) (b : N) : option N :=
  match n with
  | O => Some b
  | S n => p ← parent b; ancestor_at parent n p
  end.

Lemma ancestor_at_add parent n m b :
  ancestor_at parent (n + m) b = a ← ancestor_at parent n b; ancestor_at parent m a.
Proof.
  revert b. induction n as [|n IH]; intros b; [done|]. cbn [Nat.add ancestor_at].
  destruct (parent b); [apply IH|done].
Qed.

(** A tree that numbers its blocks by height *)
Record tree_ok (parent : N -> option N) (height : N -> option u32) : Prop := {
  tr_root b : height b = Some 0 -> parent b = None;
  tr_parent b k : height b = Some (k + 1) -> exists p, parent b = Some p /\ height p = Some k;
}.

(** An index that answers for the blocks of a tree *)
Record lineage_ok {E} `{Lineage E} (parent : N -> option N) (height : N -> option u32) : Prop := {
  li_tree : tree_ok parent height;
  li_height b k : height b = Some k -> lin_height b = Ok k;
  li_parent b k p : height b = Some (k + 1) -> parent b = Some p -> lin_parent b = Ok p;
  li_exponential b k : height b = Some k -> exists l, lin_exponential b = Ok l /\
    forall i, 2 ^ (N.of_nat i + 1) <= k ->
      l !! i = ancestor_at parent (N.to_nat (2 ^ (N.of_nat i + 1))) b;
}.

Section tree.
Context {parent : N -> option N} {height : N -> option u32} (T : tree_ok parent height).

Lemma ancestor_at_Some n b k :
  height b = Some k -> N.of_nat n <= k ->
  exists a, ancestor_at parent n b = Some a /\ height a = Some (k - N.of_nat n).
Proof.
  revert b k. induction n as [|n IH]; intros b k Hb Hn.
  { exists b. rewrite N.sub_0_r. done. }
  destruct (tr_parent _ _ T b (k - 1)) as (p & Hp & Hk); [by replace (k - 1 + 1) with k by lia|].
  destruct (IH p (k - 1)) as (a & Ha & Hka); [done|lia|].
  exists a. cbn. rewrite Hp. split; [done|]. rewrite Hka. f_equal. lia.
Qed.
Lemma ancestor_at_height n b k a :
  height b = Some k -> ancestor_at parent n b = Some a ->
  N.of_nat n <= k /\ height a = Some (k - N.of_nat n).
Proof.
  revert b k. induction n as [|n IH]; intros b k Hb Ha.
  { injection Ha as <-. rewrite N.sub_0_r. split; [lia|done]. }
  cbn in Ha. destruct (parent b) as [p|] eqn:Hp; [|done].
  destruct (N.zero_or_succ k) as [->|[k' ->]]; [by rewrite (tr_root _ _ T b Hb) in Hp|].
  destruct (tr_parent _ _ T b k') as (p' & Hp' & Hk'); [by rewrite <-N.add_1_r in Hb|].
  rewrite Hp in Hp'. injection Hp' as <-. destruct (IH p k' Hk' Ha) as [Hn Hka].
  split; [lia|]. rewrite Hka. f_equal. lia.
Qed.
End tree.

(** [a] is [b] or an ancestor of it *)
Definition ancestor (parent : N -> option N) (a b : N) : Prop :=
  exists n, ancestor_at parent n b = Some a.

(** [c] is the last block that [b0] and [b1] both descend from. *)
Record last_common (parent : N -> option N) (b0 b1 c : N) : Prop := {
  lc_left : ancestor parent c b0;
  lc_right : ancestor parent c b1;
  lc_last a : ancestor parent a b0 -> ancestor parent a b1 -> ancestor parent a c;
}.

Lemma ancestor_refl parent b : ancestor parent b b.
Proof. by exists 0%nat. Qed.
Lemma ancestor_trans parent a b c : ancestor parent a b -> ancestor parent b c -> ancestor parent a c.
Proof. intros [n Hn] [m Hm]. exists (m + n)%nat. by rewrite ancestor_at_add, Hm. Qed.

Section ancestors.
Context {parent : N -> option N} {height : N -> option u32} (T : tree_ok parent height).

Lemma ancestor_spec a b k :
  height b = Some k -> ancestor parent a b <->
  exists ka, ka <= k /\ height a = Some ka /\ ancestor_at parent (N.to_nat (k - ka)) b = Some a.
Proof.
  intros Hb. split; [|by intros (ka & _ & _ & Ha); eexists].
  intros [n Hn]. destruct (ancestor_at_height T _ _ _ _ Hb Hn) as [Hle Ha].
  exists (k - N.of_nat n). split_and!; [lia|done|].
  by replace (N.to_nat (k - (k - N.of_nat n))) with n by lia.
Qed.

Lemma ancestor_le a b ka k :
  height a = Some ka -> height b = Some k -> ancestor parent a b -> ka <= k.
Proof. intros Ha Hb (ka' & Hle & Ha' & _)%(ancestor_spec _ _ _ Hb). congruence. Qed.
Lemma ancestor_unique a a' b k ka :
  height b = Some k -> height a = Some ka -> height a' = Some ka ->
  ancestor parent a b -> ancestor parent a' b -> a = a'.
Proof.
  intros Hb Ha Ha' (? & _ & ? & Haa)%(ancestor_spec _ _ _ Hb) (? & _ & ? & Haa')%(ancestor_spec _ _ _ Hb).
  congruence.
Qed.
Lemma ancestor_antisym a b ka k :
  height a = Some ka -> height b = Some k -> ancestor parent a b -> ancestor parent b a -> a = b.
Proof.
  intros Ha Hb Hab Hba. assert (ka = k) as ->.
  { apply N.le_antisymm; [by eapply ancestor_le|by eapply (ancestor_le b a)]. }
  by apply (ancestor_unique a b b k k); [..|apply ancestor_refl].
Qed.
Lemma last_common_unique b0 b1 c c' k :
  height b0 = Some k -> last_common parent b0 b1 c -> last_common parent b0 b1 c' -> c = c'.
Proof.
  intros Hb [Hl Hr Hc] [Hl' Hr' Hc'].
  pose proof Hl as (kc & _ & Hkc & _)%(ancestor_spec _ _ _ Hb).
  pose proof Hl' as (kc' & _ & Hkc' & _)%(ancestor_spec _ _ _ Hb).
  apply (ancestor_antisym c c' kc kc'); auto.
Qed.

(** An ancestor no higher than another one of the same block *)
Lemma ancestor_below a a' b k ka ka' :
  height b = Some k -> height a = Some ka -> height a' = Some ka' -> ka' <= ka ->
  ancestor parent a b -> ancestor parent a' b -> ancestor parent a' a.
Proof.
  intros Hb Ha Ha' Hle. rewrite !(ancestor_spec _ b k) by done.
  intros (? & Hk & Hh & Haa) (? & Hk' & Hh' & Haa'). simplify_eq.
  exists (N.to_nat (ka - ka')).
  replace (N.to_nat (k - ka')) with (N.to_nat (k - ka) + N.to_nat (ka - ka'))%nat in Haa' by lia.
  by rewrite ancestor_at_add, Haa in Haa'.
Qed.

(** A common ancestor of two blocks lies below both of their heights. *)
Lemma common_below b0 b1 k0 k1 a0 c :
  height b0 = Some k0 -> height b1 = Some k1 -> height a0 = Some (N.min k0 k1) ->
  ancestor parent a0 b0 -> ancestor parent c b0 -> ancestor parent c b1 -> ancestor parent c a0.
Proof.
  intros H0 H1 Ha0 Hb0 Hl Hr. pose proof Hl as (ka & Hk & Hha & _)%(ancestor_spec _ _ _ H0).
  pose proof Hr as (ka' & Hk' & Hha' & _)%(ancestor_spec _ _ _ H1). simplify_eq.
  apply (ancestor_below a0 c b0 k0 (N.min k0 k1) ka); try done. lia.
Qed.

(** Blocks of one height agree on their ancestors from some depth on. *)
Lemma agree_mono b0 b1 n m : (n <= m)%nat ->
  ancestor_at parent n b0 = ancestor_at parent n b1 ->
  ancestor_at parent m b0 = ancestor_at parent m b1.
Proof.
  intros Hle Heq. replace m with (n + (m - n))%nat by lia. by rewrite !ancestor_at_add, Heq.
Qed.
End ancestors.

Section correct.
Context {E : Type} `{L : Lineage E} {parent : N -> option N} {height : N -> option u32}.
Context (Hok : lineage_ok parent height).
Let T := li_tree _ _ Hok.

(** *** The nth ancestor *)

Lemma log2_split n : 2 <= n ->
  N.shiftl 2 (N.log2 n - 1) = 2 ^ N.log2 n /\ 2 ^ (N.log2 n - 1 + 1) = 2 ^ N.log2 n /\
  2 ^ N.log2 n <= n.
Proof.
  intros Hn. pose proof (N.log2_spec n ltac:(lia)) as [Hl _]. assert (1 <= N.log2 n) as H1.
  { change 1 with (N.log2 2). by apply N.log2_le_mono. }
  rewrite N.shiftl_mul_pow2. replace (N.log2 n - 1 + 1) with (N.log2 n) by lia.
  split_and!; [|done|done]. rewrite <-N.pow_succ_r'. f_equal. lia.
Qed.
Lemma size_nat_log2 n : 0 < n -> N.size_nat n = S (N.to_nat (N.log2 n)).
Proof.
  destruct n as [|p]; [lia|]. intros _. cbn [N.size_nat].
  induction p as [p IH|p IH|]; cbn [Pos.size_nat]; [rewrite IH..|done];
    destruct p; cbn [N.log2 Pos.size]; lia.
Qed.

Lemma nth_ancestor_loop_Ok fuel b0 n0 : forall b n k,
  (N.size_nat n <= fuel)%nat -> height b = Some k -> n <= k ->
  exists a, nth_ancestor_loop fuel b0 n0 b n = Ok a /\ ancestor_at parent (N.to_nat n) b = Some a.
Proof.
  induction fuel as [|fuel IH]; intros b n k Hf Hb Hn.
  { destruct n; [by exists b|]. destruct p; cbn in Hf; lia. }
  cbn [nth_ancestor_loop]. destruct (N.eqb_spec n 0) as [->|Hn0]; [by exists b|].
  rewrite (li_height _ _ Hok b k Hb). cbn [mbind result_bind].
  rewrite (proj2 (N.ltb_ge _ _) Hn). destruct (N.eqb_spec n 1) as [->|Hn1].
  - destruct (tr_parent _ _ T b (k - 1)) as (p & Hp & _); [by replace (k - 1 + 1) with k by lia|].
    exists p. split; [|by change (N.to_nat 1) with 1%nat; cbn; rewrite Hp].
    apply (li_parent _ _ Hok b (k - 1)); [by replace (k - 1 + 1) with k by lia|done].
  - destruct (log2_split n ltac:(lia)) as (Hs & He & Hle).
    destruct (li_exponential _ _ Hok b k Hb) as (l & -> & Hl). cbn [mbind result_bind].
    specialize (Hl (N.to_nat (N.log2 n - 1))). rewrite N2Nat.id, He in Hl.
    destruct (ancestor_at_Some T (N.to_nat (2 ^ N.log2 n)) b k Hb ltac:(lia)) as (a & Ha & Hka).
    rewrite N2Nat.id in Hka. rewrite Hl, Ha by lia. cbn [expect]. rewrite Hs.
    destruct (IH a (n - 2 ^ N.log2 n) (k - 2 ^ N.log2 n)) as (r & Hr & Har); [|done|lia|].
    + pose proof (N.log2_spec n ltac:(lia)) as [_ Hlt]. rewrite N.pow_succ_r' in Hlt.
      rewrite (size_nat_log2 n) in Hf by lia.
      destruct (decide (n - 2 ^ N.log2 n = 0)) as [->|Hnz]; [cbn; lia|].
      rewrite size_nat_log2 by lia.
      assert (N.log2 (n - 2 ^ N.log2 n) < N.log2 n); [|lia].
      apply N.log2_lt_pow2; lia.
    + exists r. split; [done|]. rewrite <-Har.
      replace (N.to_nat n) with (N.to_nat (2 ^ N.log2 n) + N.to_nat (n - 2 ^ N.log2 n))%nat by lia.
      by rewrite ancestor_at_add, Ha.
Qed.

Lemma nth_ancestor_Ok b n k :
  height b = Some k -> n <= k ->
  exists a, nth_ancestor b n = Ok a /\ ancestor_at parent (N.to_nat n) b = Some a /\
    height a = Some (k - n).
Proof.
  intros Hb Hn. destruct (nth_ancestor_loop_Ok (N.size_nat n) b n b n k) as (a & Ha & Haa); [done..|].
  exists a. split_and!; [done|done|]. destruct (ancestor_at_height T _ _ _ _ Hb Haa) as [_ ->].
  f_equal. lia.
Qed.
Lemma nth_ancestor_eq b n k a :
  height b = Some k -> ancestor_at parent (N.to_nat n) b = Some a -> nth_ancestor b n = Ok a.
Proof.
  intros Hb Ha. destruct (ancestor_at_height T _ _ _ _ Hb Ha) as [Hn _].
  destruct (nth_ancestor_Ok b n k Hb ltac:(lia)) as (a' & -> & Ha' & _). congruence.
Qed.
Lemma nth_ancestor_too_deep b n k :
  height b = Some k -> k < n -> nth_ancestor b n = Err (lin_no_ancestor b n).
Proof.
  intros Hb Hn. unfold nth_ancestor. rewrite size_nat_log2 by lia. cbn [nth_ancestor_loop].
  rewrite (proj2 (N.eqb_neq n 0)) by lia. rewrite (li_height _ _ Hok b k Hb). cbn [mbind result_bind].
  by rewrite (proj2 (N.ltb_lt _ _) Hn).
Qed.

(** *** Descendants *)

Lemma descends_Ok a b ka kb :
  height a = Some ka -> height b = Some kb ->
  exists r, descends a b = Ok r /\ (r = true <-> ancestor parent a b).
Proof.
  intros Ha Hb. unfold descends. destruct (N.eqb_spec a b) as [->|Hne].
  { exists true. split; [done|]. split; [|done]. intros _. by exists 0%nat. }
  rewrite (li_height _ _ Hok a ka Ha), (li_height _ _ Hok b kb Hb). cbn [mbind result_bind].
  destruct (N.ltb_spec kb ka) as [Hlt|Hle].
  - exists false. split; [done|]. split; [done|]. intros [n Hn].
    apply (ancestor_at_height T _ _ _ _ Hb) in Hn as [? Hh]. rewrite Ha in Hh. injection Hh. lia.
  - destruct (nth_ancestor_Ok b (kb - ka) kb Hb ltac:(lia)) as (c & -> & Hc & _). cbn.
    exists (a =? c). split; [done|]. rewrite N.eqb_eq. split.
    + intros ->. by eexists.
    + intros [n Hn]. destruct (ancestor_at_height T _ _ _ _ Hb Hn) as [? Hh].
      rewrite Ha in Hh. injection Hh as Hh. replace (N.to_nat (kb - ka)) with n in Hc by lia. congruence.
Qed.

(** *** The last common ancestor *)

Lemma equalize_Ok b0 b1 k0 k1 :
  height b0 = Some k0 -> height b1 = Some k1 ->
  exists a0 a1, equalize b0 b1 = Ok (a0, a1, N.min k0 k1) /\
    height a0 = Some (N.min k0 k1) /\ height a1 = Some (N.min k0 k1) /\
    ancestor parent a0 b0 /\ ancestor parent a1 b1.
Proof.
  intros H0 H1. unfold equalize. rewrite (li_height _ _ Hok b0 k0 H0), (li_height _ _ Hok b1 k1 H1).
  cbn [mbind result_bind]. destruct (N.compare_spec k0 k1) as [->|Hlt|Hlt].
  - exists b0, b1. rewrite N.min_id. split_and!; try done; apply ancestor_refl.
  - destruct (nth_ancestor_Ok b1 (k1 - k0) k1 H1 ltac:(lia)) as (a & -> & Ha & Hk). cbn.
    exists b0, a. rewrite N.min_l by lia. split_and!; try done; [|apply ancestor_refl|by eexists].
    rewrite Hk. f_equal. lia.
  - destruct (nth_ancestor_Ok b0 (k0 - k1) k0 H0 ltac:(lia)) as (a & -> & Ha & Hk). cbn.
    exists a, b1. rewrite N.min_r by lia. split_and!; try done; [|by eexists|apply ancestor_refl].
    rewrite Hk. f_equal. lia.
Qed.

(** Bringing blocks to one height keeps their common ancestors. *)
Lemma equalize_common b0 b1 k0 k1 a0 a1 c :
  height b0 = Some k0 -> height b1 = Some k1 ->
  height a0 = Some (N.min k0 k1) -> height a1 = Some (N.min k0 k1) ->
  ancestor parent a0 b0 -> ancestor parent a1 b1 ->
  last_common parent a0 a1 c -> last_common parent b0 b1 c.
Proof.
  intros H0 H1 Ha0 Ha1 Hb0 Hb1 [Hc0 Hc1 Hc]. split.
  { by apply (ancestor_trans _ _ a0). }
  { by apply (ancestor_trans _ _ a1). }
  intros a Hl Hr. apply Hc; [by apply (common_below T b0 b1 k0 k1)|].
  apply (common_below T b1 b0 k1 k0); try done. by rewrite N.min_comm.
Qed.

Definition agree (b0 b1 : N) (d : u32) : Prop :=
  ancestor_at parent (N.to_nat d) b0 = ancestor_at parent (N.to_nat d) b1.

Lemma agree_0 b0 b1 : agree b0 b1 0 -> b0 = b1.
Proof. unfold agree. change (N.to_nat 0) with 0%nat. cbn. congruence. Qed.

Lemma search_loop_Ok fuel b0 b1 k : forall lo hi,
  height b0 = Some k -> height b1 = Some k -> k < 2 ^ 31 ->
  hi <= k -> lo <= hi -> (N.to_nat (hi - lo) <= fuel)%nat ->
  agree b0 b1 hi -> (forall d, d < lo -> ~ agree b0 b1 d) ->
  exists d, search_loop fuel b0 b1 lo hi = Ok d /\ d <= k /\ agree b0 b1 d /\
    forall d', d' < d -> ~ agree b0 b1 d'.
Proof.
  induction fuel as [|fuel IH]; intros lo hi H0 H1 Hk Hhi Hlo Hf Hag Hna; cbn [search_loop].
  { rewrite (proj2 (N.ltb_ge lo hi)) by lia. exists hi. split_and!; try done.
    intros d' Hd'. apply Hna. lia. }
  destruct (N.ltb_spec lo hi) as [Hlt|Hge].
  2: { exists hi. split_and!; try done. intros d' Hd'. apply Hna. lia. }
  rewrite u32_add_small by (unfold u32_MAX; lia).
  set (mid := (lo + hi) / 2). assert (lo <= mid < hi) as Hmid.
  { split; [apply N.div_le_lower_bound; lia|apply N.div_lt_upper_bound; lia]. }
  destruct (nth_ancestor_Ok b0 mid k H0 ltac:(lia)) as (a0 & -> & Ha0 & _).
  destruct (nth_ancestor_Ok b1 mid k H1 ltac:(lia)) as (a1 & -> & Ha1 & _).
  cbn [mbind result_bind]. destruct (N.eqb_spec a0 a1) as [->|Hne].
  - apply IH; try done; try lia. unfold agree. congruence.
  - rewrite u32_add_small by (unfold u32_MAX; lia). apply IH; try done; try lia.
    intros d Hd Hag'. destruct (decide (d < lo)) as [Hd'|Hd']; [by eapply Hna|].
    apply Hne. enough (agree b0 b1 mid) by (unfold agree in *; congruence).
    eapply agree_mono; [|exact Hag']. lia.
Qed.

Lemma search_common_Ok b0 b1 k :
  height b0 = Some k -> height b1 = Some k -> k < 2 ^ 31 -> b0 <> b1 ->
  agree b0 b1 k ->
  exists c, search_common b0 b1 k = Ok c /\ last_common parent b0 b1 c.
Proof.
  intros H0 H1 Hk Hne Hag. assert (0 < k) as Hpos.
  { destruct (N.eq_0_gt_0_cases k) as [->|]; [|done]. by apply agree_0 in Hag. }
  destruct (search_loop_Ok (N.to_nat k) b0 b1 k 1 k) as (d & Hd & Hdk & Hagd & Hmin);
    [done..|lia|lia|done| |].
  { intros d Hd Ha. replace d with 0 in Ha by lia. by apply agree_0 in Ha. }
  unfold search_common. rewrite Hd. cbn [mbind result_bind].
  destruct (nth_ancestor_Ok b0 d k H0 Hdk) as (c & -> & Hc & Hkc). exists c. split; [done|].
  split; [by eexists|exists (N.to_nat d); by rewrite <-Hagd|].
  intros a Hl Hr. pose proof Hl as (ka & Hka & Ha & Hl')%(ancestor_spec T _ _ _ H0).
  pose proof Hr as (ka' & Hka' & Ha' & Hr')%(ancestor_spec T _ _ _ H1). simplify_eq.
  eapply (ancestor_below T); [exact H0|exact Hkc|exact Ha| |by eexists|done].
  destruct (decide (d <= k - ka)) as [|Hd']; [lia|]. exfalso.
  apply (Hmin (k - ka)); [lia|]. unfold agree. congruence.
Qed.

Lemma roots_disagree b0 b1 k :
  height b0 = Some k -> height b1 = Some k -> ~ agree b0 b1 k ->
  forall a, ancestor parent a b0 -> ancestor parent a b1 -> False.
Proof.
  intros H0 H1 Hna a (ka & Hka & Ha & Hl)%(ancestor_spec T _ _ _ H0)
    (ka' & Hka' & Ha' & Hr)%(ancestor_spec T _ _ _ H1). simplify_eq.
  apply Hna. eapply agree_mono with (n := N.to_nat (k - ka)); [lia|congruence].
Qed.
End correct.
