(* ===== verification/Archive.v ===== *)
(** * The archive

    [src/lib/archive/mod.rs]: every header and body the node has seen, sidechain and
    mainchain, with their heights, ancestors, successors and BMM results; and the
    queries over the two block trees. *)

From S2P Require Import Prelude Types Transaction Merkle SideTips Lineage.

(** ** Data *)

Inductive BmmResult : Type := Bmm_Verified | Bmm_Failed.
#[export] Instance BmmResult_eq_dec : EqDecision BmmResult.
Proof. solve_decision. Defined.

Record Tip : Type := mkTip {
  tip_block_hash : BlockHash;
  tip_main_block_hash : MainBlockHash;
}.
#[export] Instance Tip_eq_dec : EqDecision Tip.
Proof. solve_decision. Defined.

Record Archive : Type := mkArchive {
  ar_block_hash_to_height : gmap BlockHash u32;
  ar_bmm_results : gmap BlockHash (gmap MainBlockHash BmmResult);
  ar_bodies : gmap BlockHash Body;
  ar_exponential_ancestors : gmap BlockHash (list BlockHash);
  ar_exponential_main_ancestors : gmap MainBlockHash (list MainBlockHash);
  ar_headers : gmap BlockHash Header;
  ar_invalid_blocks : gset BlockHash;
  ar_main_block_hash_to_height : gmap MainBlockHash u32;
  ar_main_block_infos : gmap MainBlockHash BlockInfo;
  ar_main_header_infos : gmap MainBlockHash BlockHeaderInfo;
  ar_main_successors : gmap MainBlockHash (gset MainBlockHash);
  ar_side_tips : SideTips;
  ar_successors : gmap (option BlockHash) (gset BlockHash);
  ar_total_work : gmap MainBlockHash Work;
  ar_txid_to_inclusions : gmap Txid (gmap BlockHash u32);
}.

(** [Archive::new] on an empty store *)
Definition archive_new : Archive :=
  mkArchive ∅ ∅ ∅ ∅ ∅ ∅ ∅ ∅ ∅ ∅ {[all_zeros := ∅]} side_tips_create {[None := ∅]} ∅ ∅.

Inductive ArchiveError : Type :=
| Archive_Db
| Archive_InvalidPrevSideHash
| Archive_NoAncestor (block_hash : BlockHash) (depth : u32)
| Archive_NoBlock (block_hash : BlockHash)
| Archive_NoBlockHash (block_hash : BlockHash)
| Archive_NoBmmResult (block_hash : BlockHash)
| Archive_NoBody (block_hash : BlockHash)
| Archive_NoHeader (block_hash : BlockHash)
| Archive_NoHeight (block_hash : BlockHash)
| Archive_NoMainAncestor (block_hash : MainBlockHash) (depth : u32)
| Archive_NoMainBlockHash (block_hash : MainBlockHash)
| Archive_NoMainBlockInfo (block_hash : MainBlockHash)
| Archive_NoMainHeaderInfo (block_hash : MainBlockHash)
| Archive_NoMainHeight (block_hash : MainBlockHash)
| Archive_SideTips (e : SideTipsError).

(** ** Writes to one database *)

Definition put_heights f (a : Archive) : Archive :=
  mkArchive (f (ar_block_hash_to_height a)) (ar_bmm_results a) (ar_bodies a)
    (ar_exponential_ancestors a) (ar_exponential_main_ancestors a) (ar_headers a)
    (ar_invalid_blocks a) (ar_main_block_hash_to_height a) (ar_main_block_infos a)
    (ar_main_header_infos a) (ar_main_successors a) (ar_side_tips a) (ar_successors a)
    (ar_total_work a) (ar_txid_to_inclusions a).
Definition put_bmm_results f (a : Archive) : Archive :=
  mkArchive (ar_block_hash_to_height a) (f (ar_bmm_results a)) (ar_bodies a)
    (ar_exponential_ancestors a) (ar_exponential_main_ancestors a) (ar_headers a)
    (ar_invalid_blocks a) (ar_main_block_hash_to_height a) (ar_main_block_infos a)
    (ar_main_header_infos a) (ar_main_successors a) (ar_side_tips a) (ar_successors a)
    (ar_total_work a) (ar_txid_to_inclusions a).
Definition put_bodies f (a : Archive) : Archive :=
  mkArchive (ar_block_hash_to_height a) (ar_bmm_results a) (f (ar_bodies a))
    (ar_exponential_ancestors a) (ar_exponential_main_ancestors a) (ar_headers a)
    (ar_invalid_blocks a) (ar_main_block_hash_to_height a) (ar_main_block_infos a)
    (ar_main_header_infos a) (ar_main_successors a) (ar_side_tips a) (ar_successors a)
    (ar_total_work a) (ar_txid_to_inclusions a).
Definition put_exponential f (a : Archive) : Archive :=
  mkArchive (ar_block_hash_to_height a) (ar_bmm_results a) (ar_bodies a)
    (f (ar_exponential_ancestors a)) (ar_exponential_main_ancestors a) (ar_headers a)
    (ar_invalid_blocks a) (ar_main_block_hash_to_height a) (ar_main_block_infos a)
    (ar_main_header_infos a) (ar_main_successors a) (ar_side_tips a) (ar_successors a)
    (ar_total_work a) (ar_txid_to_inclusions a).
Definition put_exponential_main f (a : Archive) : Archive :=
  mkArchive (ar_block_hash_to_height a) (ar_bmm_results a) (ar_bodies a)
    (ar_exponential_ancestors a) (f (ar_exponential_main_ancestors a)) (ar_headers a)
    (ar_invalid_blocks a) (ar_main_block_hash_to_height a) (ar_main_block_infos a)
    (ar_main_header_infos a) (ar_main_successors a) (ar_side_tips a) (ar_successors a)
    (ar_total_work a) (ar_txid_to_inclusions a).
Definition put_headers f (a : Archive) : Archive :=
  mkArchive (ar_block_hash_to_height a) (ar_bmm_results a) (ar_bodies a)
    (ar_exponential_ancestors a) (ar_exponential_main_ancestors a) (f (ar_headers a))
    (ar_invalid_blocks a) (ar_main_block_hash_to_height a) (ar_main_block_infos a)
    (ar_main_header_infos a) (ar_main_successors a) (ar_side_tips a) (ar_successors a)
    (ar_total_work a) (ar_txid_to_inclusions a).
Definition put_invalid_blocks f (a : Archive) : Archive :=
  mkArchive (ar_block_hash_to_height a) (ar_bmm_results a) (ar_bodies a)
    (ar_exponential_ancestors a) (ar_exponential_main_ancestors a) (ar_headers a)
    (f (ar_invalid_blocks a)) (ar_main_block_hash_to_height a) (ar_main_block_infos a)
    (ar_main_header_infos a) (ar_main_successors a) (ar_side_tips a) (ar_successors a)
    (ar_total_work a) (ar_txid_to_inclusions a).
Definition put_main_heights f (a : Archive) : Archive :=
  mkArchive (ar_block_hash_to_height a) (ar_bmm_results a) (ar_bodies a)
    (ar_exponential_ancestors a) (ar_exponential_main_ancestors a) (ar_headers a)
    (ar_invalid_blocks a) (f (ar_main_block_hash_to_height a)) (ar_main_block_infos a)
    (ar_main_header_infos a) (ar_main_successors a) (ar_side_tips a) (ar_successors a)
    (ar_total_work a) (ar_txid_to_inclusions a).
Definition put_main_block_infos f (a : Archive) : Archive :=
  mkArchive (ar_block_hash_to_height a) (ar_bmm_results a) (ar_bodies a)
    (ar_exponential_ancestors a) (ar_exponential_main_ancestors a) (ar_headers a)
    (ar_invalid_blocks a) (ar_main_block_hash_to_height a) (f (ar_main_block_infos a))
    (ar_main_header_infos a) (ar_main_successors a) (ar_side_tips a) (ar_successors a)
    (ar_total_work a) (ar_txid_to_inclusions a).
Definition put_main_header_infos f (a : Archive) : Archive :=
  mkArchive (ar_block_hash_to_height a) (ar_bmm_results a) (ar_bodies a)
    (ar_exponential_ancestors a) (ar_exponential_main_ancestors a) (ar_headers a)
    (ar_invalid_blocks a) (ar_main_block_hash_to_height a) (ar_main_block_infos a)
    (f (ar_main_header_infos a)) (ar_main_successors a) (ar_side_tips a) (ar_successors a)
    (ar_total_work a) (ar_txid_to_inclusions a).
Definition put_main_successors f (a : Archive) : Archive :=
  mkArchive (ar_block_hash_to_height a) (ar_bmm_results a) (ar_bodies a)
    (ar_exponential_ancestors a) (ar_exponential_main_ancestors a) (ar_headers a)
    (ar_invalid_blocks a) (ar_main_block_hash_to_height a) (ar_main_block_infos a)
    (ar_main_header_infos a) (f (ar_main_successors a)) (ar_side_tips a) (ar_successors a)
    (ar_total_work a) (ar_txid_to_inclusions a).
Definition put_side_tips (t : SideTips) (a : Archive) : Archive :=
  mkArchive (ar_block_hash_to_height a) (ar_bmm_results a) (ar_bodies a)
    (ar_exponential_ancestors a) (ar_exponential_main_ancestors a) (ar_headers a)
    (ar_invalid_blocks a) (ar_main_block_hash_to_height a) (ar_main_block_infos a)
    (ar_main_header_infos a) (ar_main_successors a) t (ar_successors a)
    (ar_total_work a) (ar_txid_to_inclusions a).
Definition put_successors f (a : Archive) : Archive :=
  mkArchive (ar_block_hash_to_height a) (ar_bmm_results a) (ar_bodies a)
    (ar_exponential_ancestors a) (ar_exponential_main_ancestors a) (ar_headers a)
    (ar_invalid_blocks a) (ar_main_block_hash_to_height a) (ar_main_block_infos a)
    (ar_main_header_infos a) (ar_main_successors a) (ar_side_tips a) (f (ar_successors a))
    (ar_total_work a) (ar_txid_to_inclusions a).
Definition put_total_work f (a : Archive) : Archive :=
  mkArchive (ar_block_hash_to_height a) (ar_bmm_results a) (ar_bodies a)
    (ar_exponential_ancestors a) (ar_exponential_main_ancestors a) (ar_headers a)
    (ar_invalid_blocks a) (ar_main_block_hash_to_height a) (ar_main_block_infos a)
    (ar_main_header_infos a) (ar_main_successors a) (ar_side_tips a) (ar_successors a)
    (f (ar_total_work a)) (ar_txid_to_inclusions a).
Definition put_inclusions f (a : Archive) : Archive :=
  mkArchive (ar_block_hash_to_height a) (ar_bmm_results a) (ar_bodies a)
    (ar_exponential_ancestors a) (ar_exponential_main_ancestors a) (ar_headers a)
    (ar_invalid_blocks a) (ar_main_block_hash_to_height a) (ar_main_block_infos a)
    (ar_main_header_infos a) (ar_main_successors a) (ar_side_tips a) (ar_successors a)
    (ar_total_work a) (f (ar_txid_to_inclusions a)).

(** ** Queries *)

Section queries.
Implicit Types (a : Archive).

Definition archive_try_get_height a (block_hash : BlockHash) : option u32 :=
  ar_block_hash_to_height a !! block_hash.
Definition archive_get_height a (block_hash : BlockHash) : result ArchiveError u32 :=
  ok_or (archive_try_get_height a block_hash) (Archive_NoHeight block_hash).
Definition get_bmm_results a (block_hash : BlockHash) : gmap MainBlockHash BmmResult :=
  default ∅ (ar_bmm_results a !! block_hash).
Definition contains_body a (block_hash : BlockHash) : bool :=
  bool_decide (is_Some (ar_bodies a !! block_hash)).
Definition try_get_bmm_result a (block_hash : BlockHash) (main_hash : MainBlockHash)
  : option BmmResult :=
  get_bmm_results a block_hash !! main_hash.
Definition get_bmm_result a (block_hash : BlockHash) (main_hash : MainBlockHash)
  : result ArchiveError BmmResult :=
  ok_or (try_get_bmm_result a block_hash main_hash) (Archive_NoBmmResult block_hash).
Definition get_body a (block_hash : BlockHash) : result ArchiveError Body :=
  ok_or (ar_bodies a !! block_hash) (Archive_NoBody block_hash).
Definition get_header a (block_hash : BlockHash) : result ArchiveError Header :=
  ok_or (ar_headers a !! block_hash) (Archive_NoHeader block_hash).
Definition invalidated_block a (block_hash : BlockHash) : bool :=
  bool_decide (block_hash ∈ ar_invalid_blocks a).
Definition get_main_block_info a (main_hash : MainBlockHash) : result ArchiveError BlockInfo :=
  ok_or (ar_main_block_infos a !! main_hash) (Archive_NoMainBlockInfo main_hash).
Definition get_main_height a (block_hash : MainBlockHash) : result ArchiveError u32 :=
  ok_or (ar_main_block_hash_to_height a !! block_hash) (Archive_NoMainHeight block_hash).
Definition get_main_header_info a (block_hash : MainBlockHash)
  : result ArchiveError BlockHeaderInfo :=
  ok_or (ar_main_header_infos a !! block_hash) (Archive_NoMainHeaderInfo block_hash).
Definition get_main_successors a (block_hash : MainBlockHash)
  : result ArchiveError (gset MainBlockHash) :=
  ok_or (ar_main_successors a !! block_hash) (Archive_NoMainBlockHash block_hash).
(** the successors of [None] should always be known: without them, a panic *)
Definition get_successors a (block_hash : option BlockHash)
  : result ArchiveError (gset BlockHash) :=
  match ar_successors a !! block_hash with
  | Some successors => Ok successors
  | None => block_hash ← expect block_hash; Err (Archive_NoBlockHash block_hash)
  end.
Definition get_total_work a (block_hash : MainBlockHash) : result ArchiveError Work :=
  ok_or (ar_total_work a !! block_hash) (Archive_NoMainHeaderInfo block_hash).
Definition get_tx_inclusions a (txid : Txid) : gmap BlockHash u32 :=
  default ∅ (ar_txid_to_inclusions a !! txid).

(** [max_by_key] over the verified results, in the order of the map: among
    verifications of equal work the code's choice is unspecified *)
Definition try_get_best_main_verification a (block_hash : BlockHash)
  : result ArchiveError (option MainBlockHash) :=
  best ← fold_res (fun best main_hash =>
      work ← get_total_work a main_hash;
      Ok (match best with
          | Some (key, _) => if work <? key then best else Some (work, main_hash)
          | None => Some (work, main_hash)
          end))
    (map_to_list (filter (fun p => p.2 = Bmm_Verified) (get_bmm_results a block_hash))).*1 None;
  Ok (match best with Some (_, main_hash) => Some main_hash | None => None end).
Definition get_best_main_verification a (block_hash : BlockHash)
  : result ArchiveError MainBlockHash :=
  best ← try_get_best_main_verification a block_hash;
  ok_or best (Archive_NoBmmResult block_hash).
End queries.

(** ** The two lineages *)

Definition side_lineage (a : Archive) : Lineage ArchiveError := {|
  lin_height := archive_get_height a;
  lin_parent b := header ← get_header a b; expect (hd_prev_side_hash header);
  lin_exponential b := ok_or (ar_exponential_ancestors a !! b) Archive_Db;
  lin_no_ancestor := Archive_NoAncestor;
|}.
Definition main_lineage (a : Archive) : Lineage ArchiveError := {|
  lin_height := get_main_height a;
  lin_parent b := header_info ← get_main_header_info a b; Ok (bhi_prev_block_hash header_info);
  lin_exponential b := ok_or (ar_exponential_main_ancestors a !! b) Archive_Db;
  lin_no_ancestor := Archive_NoMainAncestor;
|}.

Section ancestry.
Implicit Types (a : Archive).

Definition get_nth_ancestor a (block_hash : BlockHash) (n : u32) : result ArchiveError BlockHash :=
  @nth_ancestor _ (side_lineage a) block_hash n.
Definition get_nth_main_ancestor a (block_hash : MainBlockHash) (n : u32)
  : result ArchiveError MainBlockHash :=
  @nth_ancestor _ (main_lineage a) block_hash n.

Definition get_block_locator a (block_hash : BlockHash) : result ArchiveError (list BlockHash) :=
  header ← get_header a block_hash;
  res ← ok_or (ar_exponential_ancestors a !! block_hash) Archive_Db;
  Ok (match hd_prev_side_hash header with
      | Some parent => reverse (reverse res ++ [parent])
      | None => res
      end).

Definition is_descendant a (ancestor descendant : BlockHash) : result ArchiveError bool :=
  @descends _ (side_lineage a) ancestor descendant.
Definition is_main_descendant a (ancestor descendant : MainBlockHash) : result ArchiveError bool :=
  @descends _ (main_lineage a) ancestor descendant.

Definition last_common_ancestor a (block_hash0 block_hash1 : BlockHash)
  : result ArchiveError (option BlockHash) :=
  '(block_hash0, block_hash1, height0) ← @equalize _ (side_lineage a) block_hash0 block_hash1;
  if block_hash0 =? block_hash1 then Ok (Some block_hash0)
  else
    oldest_ancestor_0 ← get_nth_ancestor a block_hash0 height0;
    oldest_ancestor_1 ← get_nth_ancestor a block_hash1 height0;
    if negb (oldest_ancestor_0 =? oldest_ancestor_1) then Ok None
    else Some <$> @search_common _ (side_lineage a) block_hash0 block_hash1 height0.

Definition last_common_main_ancestor a (block_hash0 block_hash1 : MainBlockHash)
  : result ArchiveError MainBlockHash :=
  '(block_hash0, block_hash1, height0) ← @equalize _ (main_lineage a) block_hash0 block_hash1;
  if block_hash0 =? block_hash1 then Ok block_hash0
  else @search_common _ (main_lineage a) block_hash0 block_hash1 height0.

Definition shared_mainchain_lineage a (block_hash0 block_hash1 : MainBlockHash)
  : result ArchiveError bool :=
  '(block_hash0, block_hash1, _) ← @equalize _ (main_lineage a) block_hash0 block_hash1;
  Ok (block_hash0 =? block_hash1).
End ancestry.

(** ** Storing headers *)

(** The loop that computes the exponential ancestors of a new block, given the nth
    ancestor of a known one: [2, 4, 8, ..] blocks before, as long as the height
    allows; [next_exponential_ancestor_depth] doubles, so 32 turns are enough. *)
Fixpoint exponential_loop (nth : N -> u32 -> result ArchiveError N) (fuel : nat) (height : u32)
    (exponential_ancestors : list N) (next_exponential_ancestor_depth : u64)
  : result ArchiveError (list N) :=
  if next_exponential_ancestor_depth <=? height then
    match fuel with
    | O => Panic
    | S fuel =>
        last ← expect (last exponential_ancestors);
        next_exponential_ancestor ←
          nth last (next_exponential_ancestor_depth mod 2 ^ 32 / 2);
        exponential_loop nth fuel height (exponential_ancestors ++ [next_exponential_ancestor])
          (next_exponential_ancestor_depth * 2)
    end
  else Ok exponential_ancestors.
Definition exponential_of (nth : N -> u32 -> result ArchiveError N) (height : u32)
    (parent : option N) : result ArchiveError (list N) :=
  if 2 <=? height then
    parent ← expect parent;
    grandparent ← nth parent 1;
    exponential_loop nth 32 height [grandparent] 4
  else Ok [].

(** [any] over the BMM results of the parent: one that is verified in the ancestry of
    [main_block] *)
Definition verified_ancestor (a : Archive) (bmm_block : MainBlockHash) (bmm_result : BmmResult)
    (main_block : MainBlockHash) : result ArchiveError bool :=
  if decide (bmm_result = Bmm_Verified) then is_main_descendant a bmm_block main_block
  else Ok false.
Fixpoint any_verified_ancestor (a : Archive) (results : list (MainBlockHash * BmmResult))
    (main_block : MainBlockHash) : result ArchiveError bool :=
  match results with
  | [] => Ok false
  | (bmm_block, bmm_result) :: results =>
      parent_verified ← verified_ancestor a bmm_block bmm_result main_block;
      match parent_verified with
      | true => Ok true
      | false => any_verified_ancestor a results main_block
      end
  end.

Definition bmm_result_of (verified : bool) : BmmResult :=
  if verified then Bmm_Verified else Bmm_Failed.

(** The result of a header at a mainchain block *)
Definition bmm_result_at (a : Archive) (header : Header) (block_hash : BlockHash)
    (main_block : MainBlockHash) : result ArchiveError BmmResult :=
  block_info ← get_main_block_info a main_block;
  match bi_bmm_commitment block_info with
  | None => Ok Bmm_Failed
  | Some commitment =>
      if negb (commitment =? block_hash) then Ok Bmm_Failed
      else
        main_header_info ← get_main_header_info a main_block;
        if negb (hd_prev_main_hash header =? bhi_prev_block_hash main_header_info)
        then Ok Bmm_Failed
        else
          match hd_prev_side_hash header with
          | None => Ok Bmm_Verified
          | Some parent =>
              verified ← any_verified_ancestor a (map_to_list (get_bmm_results a parent)) main_block;
              Ok (bmm_result_of verified)
          end
  end.

Section store.
Context `{Externals} `{WorkExternals}.
Implicit Types (a : Archive).

Definition put_header a (header : Header) : result ArchiveError Archive :=
  height ←
    match hd_prev_side_hash header with
    | None => Ok 0
    | Some parent =>
        parent_height ← ok_or (archive_try_get_height a parent) Archive_InvalidPrevSideHash;
        Ok (u32_add parent_height 1)
    end;
  let block_hash := header_hash header in
  let a := put_heights <[block_hash := height]> a in
  let a := put_headers <[block_hash := header]> a in
  pred_successors ← get_successors a (hd_prev_side_hash header);
  let a := put_successors <[hd_prev_side_hash header := {[block_hash]} ∪ pred_successors]> a in
  let successors := default ∅ (ar_successors a !! Some block_hash) in
  let a := put_successors <[Some block_hash := successors]> a in
  exponential_ancestors ← exponential_of (get_nth_ancestor a) height (hd_prev_side_hash header);
  let a := put_exponential <[block_hash := exponential_ancestors]> a in
  main_blocks ← get_main_successors a (hd_prev_main_hash header);
  bmm_results ← fold_res (fun bmm_results main_block =>
      bmm_result ← bmm_result_at a header block_hash main_block;
      Ok (<[main_block := bmm_result]> bmm_results))
    (elements main_blocks) (get_bmm_results a block_hash);
  Ok (put_bmm_results <[block_hash := bmm_results]> a).

Definition put_main_block_info a (main_hash : MainBlockHash) (block_info : BlockInfo)
  : result ArchiveError Archive :=
  main_header_info ← get_main_header_info a main_hash;
  _ ← (if negb (bhi_prev_block_hash main_header_info =? all_zeros)
       then _ ← get_main_block_info a (bhi_prev_block_hash main_header_info); Ok tt
       else Ok tt);
  let a := put_main_block_infos <[main_hash := block_info]> a in
  match bi_bmm_commitment block_info with
  | None => Ok a
  | Some commitment =>
      match ar_headers a !! commitment with
      | None => Ok a
      | Some header =>
          bmm_result ←
            (if negb (hd_prev_main_hash header =? bhi_prev_block_hash main_header_info)
             then Ok Bmm_Failed
             else
               match hd_prev_side_hash header with
               | Some parent =>
                   verified ←
                     any_verified_ancestor a (map_to_list (get_bmm_results a parent)) main_hash;
                   Ok (bmm_result_of verified)
               | None => Ok Bmm_Verified
               end);
          let bmm_results := get_bmm_results a commitment in
          Ok (put_bmm_results <[commitment := <[main_hash := bmm_result]> bmm_results]> a)
      end
  end.

Definition put_main_header_info a (header_info : BlockHeaderInfo) : result ArchiveError Archive :=
  let prev_block_hash := bhi_prev_block_hash header_info in
  _ ← ensure (bool_decide (is_Some (ar_main_header_infos a !! prev_block_hash)) ||
        (prev_block_hash =? all_zeros)) (Archive_NoMainHeaderInfo prev_block_hash);
  let block_hash := bhi_block_hash header_info in
  height ←
    (if prev_block_hash =? all_zeros then Ok 0
     else prev_height ← get_main_height a prev_block_hash; Ok (u32_add prev_height 1));
  total_work ←
    (if negb (prev_block_hash =? all_zeros) then
       prev_work ← get_total_work a prev_block_hash;
       Ok (work_add prev_work (bhi_work header_info))
     else Ok (bhi_work header_info));
  let a := put_main_heights <[block_hash := height]> a in
  let a := put_main_header_infos <[block_hash := header_info]> a in
  let a := put_total_work <[block_hash := total_work]> a in
  pred_successors ← get_main_successors a prev_block_hash;
  let a := put_main_successors <[prev_block_hash := {[block_hash]} ∪ pred_successors]> a in
  let successors := default ∅ (ar_main_successors a !! block_hash) in
  let a := put_main_successors <[block_hash := successors]> a in
  exponential_ancestors ← exponential_of (get_nth_main_ancestor a) height (Some prev_block_hash);
  Ok (put_exponential_main <[block_hash := exponential_ancestors]> a).
End store.
