(* ===== verification/ArchiveTree.v ===== *)
(** * The block trees of the archive

    The invariant of the two block indexes of [src/lib/archive/mod.rs], that storing a
    header keeps it, and that an index with the invariant answers as [Lineage] asks. *)

From S2P Require Import Prelude Types Transaction Merkle SideTips Lineage Archive.

(** ** An index of blocks *)

(** Parents ([None] for the first block of a chain), heights and exponential ancestors *)
Record Index : Type := mkIndex {
  ix_parents : gmap N (option N);
  ix_heights : gmap N u32;
  ix_exponential : gmap N (list N);
}.
Definition ix_parent (x : Index) (b : N) : option N := p ← ix_parents x !! b; p.
Definition ix_height (x : Index) (b : N) : option u32 := ix_heights x !! b.

Lemma ix_parent_Some x b p : ix_parent x b = Some p <-> ix_parents x !! b = Some (Some p).
Proof. unfold ix_parent. destruct (ix_parents x !! b) as [[q|]|]; naive_solver. Qed.

(** The entry at [i] is the ancestor at distance [2 ^ (i + 1)], if there is one. *)
Definition exponential_ok (x : Index) (b : N) (l : list N) : Prop :=
  forall i, l !! i = ancestor_at (ix_parent x) (N.to_nat (2 ^ (N.of_nat i + 1))) b.

Record index_wf (x : Index) : Prop := {
  iw_dom b : is_Some (ix_parents x !! b) <-> is_Some (ix_heights x !! b);
  iw_root b : ix_parents x !! b = Some None -> ix_heights x !! b = Some 0;
  iw_parent b p : ix_parents x !! b = Some (Some p) ->
    exists k, ix_heights x !! p = Some k /\ ix_heights x !! b = Some (k + 1);
  iw_bound b k : ix_heights x !! b = Some k -> k <= u32_MAX;
  iw_exponential b k : ix_heights x !! b = Some k ->
    exists l, ix_exponential x !! b = Some l /\ exponential_ok x b l;
}.

Lemma index_tree x : index_wf x -> tree_ok (ix_parent x) (ix_height x).
Proof.
  intros Hw. unfold ix_parent, ix_height. split.
  - intros b Hb. destruct (ix_parents x !! b) as [[p|]|] eqn:Hp; [|done|done].
    apply (iw_parent _ Hw) in Hp as (k & _ & Hk). rewrite Hb in Hk. injection Hk. lia.
  - intros b k Hb. destruct (iw_dom _ Hw b) as [_ [[p|] Hp]]; [by eexists|..].
    + pose proof (iw_parent _ Hw _ _ Hp) as (k' & Hp' & Hk). rewrite Hb in Hk. injection Hk as Hk.
      exists p. rewrite Hp. split; [done|]. rewrite Hp'. f_equal. lia.
    + pose proof (iw_root _ Hw _ Hp) as Hk. rewrite Hb in Hk. injection Hk. lia.
Qed.

(** ** Adding a block *)

(** What [put_header] writes for a block *)
Definition ix_insert (b : N) (p : option N) (k : u32) (l : list N) (x : Index) : Index :=
  mkIndex (<[b := p]> (ix_parents x)) (<[b := k]> (ix_heights x)) (<[b := l]> (ix_exponential x)).

(** The block is new, or stored again with the same parent; [p] is known. *)
Record insertable (x : Index) (b : N) (p : option N) (k : u32) : Prop := {
  in_same : ix_parents x !! b = None \/ ix_parents x !! b = Some p;
  in_root : p = None -> k = 0;
  in_parent p' : p = Some p' -> exists k', ix_heights x !! p' = Some k' /\ k = k' + 1;
  in_bound : k <= u32_MAX;
}.

Lemma insertable_height x b p k :
  index_wf x -> insertable x b p k -> ix_heights x !! b = None \/ ix_heights x !! b = Some k.
Proof.
  intros Hw [Hs Hr Hp _]. destruct Hs as [Hn|Hb].
  - left. apply eq_None_not_Some. intros Hk. apply (iw_dom _ Hw) in Hk as [? ?]. congruence.
  - right. destruct p as [p'|].
    + destruct (Hp p' eq_refl) as (k' & Hk' & ->).
      apply (iw_parent _ Hw) in Hb as (k0 & H0 & ->). congruence.
    + rewrite Hr by done. by apply (iw_root _ Hw).
Qed.

(** Blocks of the index keep their ancestors. *)
Lemma insert_ancestor_at x b p k l n c kc :
  index_wf x -> insertable x b p k -> ix_heights x !! c = Some kc ->
  ancestor_at (ix_parent (ix_insert b p k l x)) n c = ancestor_at (ix_parent x) n c.
Proof.
  intros Hw Hi. revert c kc. induction n as [|n IH]; intros c kc Hc; [done|]. cbn [ancestor_at].
  assert (ix_parent (ix_insert b p k l x) c = ix_parent x c) as ->.
  { unfold ix_parent. cbn. destruct (decide (b = c)) as [->|Hne]; [|by rewrite lookup_insert_ne].
    rewrite lookup_insert_eq. destruct (in_same _ _ _ _ Hi) as [Hn|Hs]; [|by rewrite Hs].
    destruct (iw_dom _ Hw c) as [_ [? ?]]; [by eexists|congruence]. }
  destruct (ix_parent x c) as [q|] eqn:Hq; [|done]. cbn.
  apply ix_parent_Some, (iw_parent _ Hw) in Hq as (kq & Hq & _). by eapply IH.
Qed.

Lemma insert_index_wf x b p k l :
  index_wf x -> insertable x b p k -> exponential_ok (ix_insert b p k l x) b l ->
  index_wf (ix_insert b p k l x).
Proof.
  intros Hw Hi Hl. pose proof (insertable_height _ _ _ _ Hw Hi) as Hk. split; cbn.
  - intros c. destruct (decide (b = c)) as [->|Hne]; [rewrite !lookup_insert_eq; split; by eexists|].
    rewrite !lookup_insert_ne by done. apply (iw_dom _ Hw).
  - intros c. rewrite !lookup_insert_Some. intros [[-> Hp]|[Hne Hc]].
    + left. split; [done|]. by apply (in_root _ _ _ _ Hi).
    + right. split; [done|]. by apply (iw_root _ Hw).
  - intros c q. rewrite lookup_insert_Some. intros [[-> Hp]|[Hne Hc]].
    + destruct (in_parent _ _ _ _ Hi q) as (k' & Hq & ->); [done|]. exists k'.
      rewrite lookup_insert_eq. split; [|done]. rewrite lookup_insert_ne; [done|].
      intros ->. destruct Hk as [Hk|Hk]; rewrite Hq in Hk; [done|]. injection Hk. lia.
    + apply (iw_parent _ Hw) in Hc as (kc & Hq & Hc). exists kc. rewrite (lookup_insert_ne _ b c) by done.
      split; [|done]. destruct (decide (b = q)) as [->|]; [|by rewrite lookup_insert_ne].
      rewrite lookup_insert_eq. destruct Hk as [Hk|Hk]; congruence.
  - intros c kc. rewrite lookup_insert_Some. intros [[_ <-]|[_ Hc]];
      [apply (in_bound _ _ _ _ Hi)|by apply (iw_bound _ Hw c)].
  - intros c kc. rewrite lookup_insert_Some. intros [[<- <-]|[Hne Hc]].
    + exists l. by rewrite lookup_insert_eq.
    + destruct (iw_exponential _ Hw c kc Hc) as (lc & Hlc & Hok). exists lc.
      rewrite lookup_insert_ne by done. split; [done|]. intros i.
      rewrite (insert_ancestor_at _ _ _ _ _ _ _ kc) by done. by apply Hok.
Qed.

(** ** The exponential ancestors of a new block *)

Section exponential.
Context (nth : N -> u32 -> result ArchiveError N) (x : Index) (Hw : index_wf x).
(** [nth] finds the ancestors of the blocks of the index. *)
Context (Hnth : forall b n k a, ix_heights x !! b = Some k ->
  ancestor_at (ix_parent x) (N.to_nat n) b = Some a -> nth b n = Ok a).
Context (p : N) (k : u32) (Hp : ix_heights x !! p = Some k) (Hk : k + 1 <= u32_MAX).

(** The ancestor at distance [2 ^ i] of a block whose parent is [p] *)
Let expo (i : nat) : option N :=
  ancestor_at (ix_parent x) (N.to_nat (2 ^ N.of_nat i - 1)) p.

Lemma expo_Some i : 2 ^ N.of_nat i <= k + 1 -> exists a ka, expo i = Some a /\ ix_heights x !! a = Some ka.
Proof.
  intros Hi. destruct (ancestor_at_Some (index_tree x Hw) (N.to_nat (2 ^ N.of_nat i - 1)) p k Hp)
    as (a & Ha & Hka); [lia|]. by exists a, (k - N.of_nat (N.to_nat (2 ^ N.of_nat i - 1))).
Qed.

Lemma expo_None i : k + 1 < 2 ^ N.of_nat i -> expo i = None.
Proof.
  intros Hi. destruct (expo i) as [a|] eqn:Ha; [|done].
  apply (ancestor_at_height (index_tree x Hw) _ _ _ _ Hp) in Ha as [? _]. lia.
Qed.

Lemma expo_double i a : expo i = Some a ->
  ancestor_at (ix_parent x) (N.to_nat (2 ^ N.of_nat i)) a = expo (S i).
Proof.
  intros Ha. unfold expo in *. pose proof (N.pow_nonzero 2 (N.of_nat i) ltac:(lia)).
  replace (N.to_nat (2 ^ N.of_nat (S i) - 1))
    with (N.to_nat (2 ^ N.of_nat i - 1) + N.to_nat (2 ^ N.of_nat i))%nat.
  - by rewrite ancestor_at_add, Ha.
  - rewrite Nat2N.inj_succ, N.pow_succ_r'. lia.
Qed.

Lemma exponential_loop_Ok fuel : forall acc j,
  length acc = S j -> (33 <= j + 2 + fuel)%nat -> 2 ^ N.of_nat (S j) <= k + 1 ->
  (forall i, (i <= j)%nat -> acc !! i = expo (S i)) ->
  exists l, exponential_loop nth fuel (k + 1) acc (2 ^ N.of_nat (S (S j))) = Ok l /\
    forall i, l !! i = expo (S i).
Proof.
  induction fuel as [|fuel IH]; intros acc j Hlen Hf Hj Hacc; cbn [exponential_loop].
  { exfalso. pose proof (N.pow_le_mono_r 2 32 (N.of_nat (S j)) ltac:(lia) ltac:(lia)).
    unfold u32_MAX in Hk. lia. }
  destruct (N.leb_spec (2 ^ N.of_nat (S (S j))) (k + 1)) as [Hle|Hgt].
  - destruct (expo_Some (S j)) as (a & ka & Ha & Hka); [done|].
    assert (last acc = Some a) as ->.
    { rewrite last_lookup, Hlen. cbn. rewrite Hacc by lia. done. }
    cbn [expect mbind result_bind].
    assert (2 ^ N.of_nat (S (S j)) mod 2 ^ 32 / 2 = 2 ^ N.of_nat (S j)) as ->.
    { rewrite N.mod_small by (unfold u32_MAX in Hk; lia).
      rewrite (Nat2N.inj_succ (S j)), N.pow_succ_r', N.mul_comm. by apply N.div_mul. }
    destruct (expo_Some (S (S j)) Hle) as (a' & ka' & Ha' & _).
    rewrite (Hnth a _ ka a' Hka) by (by rewrite expo_double). cbn [mbind result_bind].
    replace (2 ^ N.of_nat (S (S j)) * 2) with (2 ^ N.of_nat (S (S (S j))))
      by (rewrite (Nat2N.inj_succ (S (S j))), N.pow_succ_r'; lia).
    apply IH; [rewrite length_app; cbn; lia|lia|done|].
    intros i Hi. destruct (decide (i = S j)) as [->|Hne].
    + rewrite lookup_app_r, Hlen, Nat.sub_diag by lia. by rewrite Ha'.
    + rewrite lookup_app_l by lia. apply Hacc. lia.
  - exists acc. split; [done|]. intros i. destruct (decide (i <= j)%nat) as [|Hij]; [by apply Hacc|].
    rewrite lookup_ge_None_2 by lia. symmetry. apply expo_None.
    pose proof (N.pow_le_mono_r 2 (N.of_nat (S (S j))) (N.of_nat (S i)) ltac:(lia) ltac:(lia)). lia.
Qed.

Lemma exponential_of_Ok : exists l, exponential_of nth (k + 1) (Some p) = Ok l /\
  forall i, l !! i = expo (S i).
Proof.
  unfold exponential_of. destruct (N.leb_spec 2 (k + 1)) as [Hle|Hgt].
  - cbn [expect mbind result_bind]. destruct (expo_Some 1) as (a & ka & Ha & _); [done|].
    rewrite (Hnth p 1 k a Hp Ha). cbn [mbind result_bind].
    apply (exponential_loop_Ok 32 [a] 0); [done|lia|done|]. intros i Hi. by replace i with 0%nat by lia.
  - exists []. split; [done|]. intros i. symmetry. apply expo_None.
    pose proof (N.pow_le_mono_r 2 1 (N.of_nat (S i)) ltac:(lia) ltac:(lia)). change (2 ^ 1) with 2 in *. lia.
Qed.
End exponential.

(** A block stored with the exponential ancestors that [put_header] computes *)
Lemma exponential_stored nth x b p k :
  index_wf x -> insertable x b p k ->
  (forall b n k a, ix_heights x !! b = Some k ->
    ancestor_at (ix_parent x) (N.to_nat n) b = Some a -> nth b n = Ok a) ->
  forall l p0, (p = None \/ p0 = p) -> exponential_of nth k p0 = Ok l ->
  index_wf (ix_insert b p k l x).
Proof.
  intros Hw Hi Hnth l p0 Hp0 Hl. apply insert_index_wf; [done|done|].
  destruct p as [p|].
  - destruct Hp0 as [Hp0| ->]; [done|]. destruct (in_parent _ _ _ _ Hi p eq_refl) as (k' & Hp & ->).
    destruct (exponential_of_Ok nth x Hw Hnth p k' Hp (in_bound _ _ _ _ Hi)) as (l' & Hl' & Hok).
    rewrite Hl in Hl'. injection Hl' as <-. intros i. rewrite Hok.
    pose proof (N.pow_nonzero 2 (N.of_nat i + 1) ltac:(lia)).
    replace (N.to_nat (2 ^ (N.of_nat i + 1)))
      with (S (N.to_nat (2 ^ N.of_nat (S i) - 1))) by (rewrite Nat2N.inj_succ, <-N.add_1_r; lia).
    cbn [ancestor_at]. rewrite (proj2 (ix_parent_Some _ _ p)) by apply lookup_insert_eq. cbn.
    symmetry. by eapply insert_ancestor_at.
  - rewrite (in_root _ _ _ _ Hi) in * by done. injection Hl as <-. intros i.
    pose proof (N.pow_nonzero 2 (N.of_nat i + 1) ltac:(lia)).
    replace (N.to_nat (2 ^ (N.of_nat i + 1))) with (S (N.to_nat (2 ^ (N.of_nat i + 1) - 1))) by lia.
    cbn [ancestor_at]. assert (ix_parent (ix_insert b None 0 [] x) b = None) as -> by (unfold ix_parent; cbn; by rewrite lookup_insert_eq). done.
Qed.

(** ** The indexes of the archive *)

Definition side_index (a : Archive) : Index :=
  mkIndex (hd_prev_side_hash <$> ar_headers a) (ar_block_hash_to_height a)
    (ar_exponential_ancestors a).

Definition main_parent (info : BlockHeaderInfo) : option MainBlockHash :=
  if bhi_prev_block_hash info =? all_zeros then None else Some (bhi_prev_block_hash info).
Definition main_index (a : Archive) : Index :=
  mkIndex (main_parent <$> ar_main_header_infos a) (ar_main_block_hash_to_height a)
    (ar_exponential_main_ancestors a).

(** A lineage that answers from the entries of an index *)
Record reads {E} (L : Lineage E) (x : Index) : Prop := {
  rd_height b k : ix_heights x !! b = Some k -> lin_height b = Ok k;
  rd_parent b p : ix_parents x !! b = Some (Some p) -> lin_parent b = Ok p;
  rd_exponential b l : ix_exponential x !! b = Some l -> lin_exponential b = Ok l;
}.

Lemma reads_lineage_ok {E} (L : Lineage E) x :
  index_wf x -> reads L x -> lineage_ok (ix_parent x) (ix_height x).
Proof.
  intros Hw [Hh Hp He]. split; [by apply index_tree|done|..].
  - intros b k p _ Hb. apply Hp. by apply ix_parent_Some.
  - intros b k Hb. destruct (iw_exponential _ Hw b k Hb) as (l & Hl & Hok). exists l. auto.
Qed.

(** An archive whose entries extend those of another one *)
Lemma side_reads a x :
  ix_heights x ⊆ ar_block_hash_to_height a ->
  ix_parents x ⊆ hd_prev_side_hash <$> ar_headers a ->
  ix_exponential x ⊆ ar_exponential_ancestors a -> reads (side_lineage a) x.
Proof.
  intros Hh Hp He. split; cbn.
  - intros b k Hb. unfold archive_get_height, archive_try_get_height.
    by rewrite (lookup_weaken _ _ _ _ Hb Hh).
  - intros b p Hb. apply (lookup_weaken _ _ _ _ Hb), lookup_fmap_Some in Hp as (h & Hh' & Hg).
    unfold get_header. rewrite Hg. cbn. by rewrite Hh'.
  - intros b l Hb. by rewrite (lookup_weaken _ _ _ _ Hb He).
Qed.
Lemma main_reads a x :
  ix_heights x ⊆ ar_main_block_hash_to_height a ->
  ix_parents x ⊆ main_parent <$> ar_main_header_infos a ->
  ix_exponential x ⊆ ar_exponential_main_ancestors a -> reads (main_lineage a) x.
Proof.
  intros Hh Hp He. split; cbn.
  - intros b k Hb. unfold get_main_height. by rewrite (lookup_weaken _ _ _ _ Hb Hh).
  - intros b p Hb. apply (lookup_weaken _ _ _ _ Hb), lookup_fmap_Some in Hp as (h & Hh' & Hg).
    unfold get_main_header_info. rewrite Hg. cbn. unfold main_parent in Hh'. by destruct (_ =? _); simplify_eq.
  - intros b l Hb. by rewrite (lookup_weaken _ _ _ _ Hb He).
Qed.

Lemma side_lineage_ok a : index_wf (side_index a) ->
  @lineage_ok _ (side_lineage a) (ix_parent (side_index a)) (ix_height (side_index a)).
Proof. intros Hw. apply reads_lineage_ok; [done|]. by apply side_reads. Qed.
Lemma main_lineage_ok a : index_wf (main_index a) ->
  @lineage_ok _ (main_lineage a) (ix_parent (main_index a)) (ix_height (main_index a)).
Proof. intros Hw. apply reads_lineage_ok; [done|]. by apply main_reads. Qed.

(** A lineage that reads an index finds the ancestors of its blocks. *)
Lemma reads_nth {E} (L : Lineage E) x b n k a :
  index_wf x -> reads L x -> ix_heights x !! b = Some k ->
  ancestor_at (ix_parent x) (N.to_nat n) b = Some a -> nth_ancestor b n = Ok a.
Proof.
  intros Hw Hr Hb Ha. by eapply (nth_ancestor_eq (reads_lineage_ok L x Hw Hr)).
Qed.

Lemma insert_subseteq_same {V} (m : gmap N V) b v :
  m !! b = None \/ m !! b = Some v -> m ⊆ <[b := v]> m.
Proof. intros [Hn|Hs]; [by apply insert_subseteq|by rewrite insert_id]. Qed.
