(* ===== verification/ArchiveWf.v ===== *)
(** * The archive as it grows

    The invariant of the archive: the two block trees, and the BMM results, each of
    which is bmm_backed by a commitment in the mainchain and by a verified parent. Storing
    headers and mainchain blocks keeps it. *)

From S2P Require Import Prelude Types Transaction Merkle Sample SideTips Lineage Archive.
From S2P Require Import ArchiveTree.

(** ** BMM results *)

(** Why a block may be verified at a mainchain block *)
Record bmm_backed (a : Archive) (b : BlockHash) (m : MainBlockHash) (header : Header)
    (info : BlockInfo) (main_header : BlockHeaderInfo) : Prop := {
  bk_header : ar_headers a !! b = Some header;
  bk_info : ar_main_block_infos a !! m = Some info;
  bk_commitment : bi_bmm_commitment info = Some b;
  bk_main_header : ar_main_header_infos a !! m = Some main_header;
  bk_prev : hd_prev_main_hash header = bhi_prev_block_hash main_header;
  bk_parent p : hd_prev_side_hash header = Some p -> exists m',
    get_bmm_results a p !! m' = Some Bmm_Verified /\ ancestor (ix_parent (main_index a)) m' m;
}.

Record archive_wf (a : Archive) : Prop := {
  aw_side : index_wf (side_index a);
  aw_main : index_wf (main_index a);
  aw_verified b m : get_bmm_results a b !! m = Some Bmm_Verified ->
    exists header info main_header, bmm_backed a b m header info main_header;
}.

Lemma archive_new_wf : archive_wf archive_new.
Proof.
  split.
  - split; cbn; intros b; rewrite ?fmap_empty, ?lookup_empty; done.
  - split; cbn; intros b; rewrite ?fmap_empty, ?lookup_empty; done.
  - intros b m Hv. unfold get_bmm_results in Hv. cbn in Hv. rewrite lookup_empty in Hv. cbn in Hv.
    by rewrite lookup_empty in Hv.
Qed.

(** *** Checking a commitment to the parent *)

Lemma is_main_descendant_Ok a x y r :
  index_wf (main_index a) -> is_main_descendant a x y = Ok r ->
  r = true <-> ancestor (ix_parent (main_index a)) x y.
Proof.
  intros Hw Hd. pose proof (main_lineage_ok a Hw) as Hl. unfold is_main_descendant in Hd.
  pose proof Hd as Hd'. unfold descends in Hd'. destruct (N.eqb_spec x y) as [->|Hne].
  { injection Hd' as <-. split; [|done]. intros _. apply ancestor_refl. }
  apply bind_Ok in Hd' as (kx & Hx%ok_or_Ok & Hd'). apply bind_Ok in Hd' as (ky & Hy%ok_or_Ok & _).
  destruct (descends_Ok Hl x y kx ky) as (r' & Hr' & Hspec); [done|done|]. congruence.
Qed.

Lemma any_verified_ancestor_Ok a l m r :
  index_wf (main_index a) -> any_verified_ancestor a l m = Ok r ->
  r = true <-> exists m', (m', Bmm_Verified) ∈ l /\ ancestor (ix_parent (main_index a)) m' m.
Proof.
  intros Hw. induction l as [|[m' v] l IH]; cbn; intros Hr.
  { injection Hr as <-. split; [done|]. by intros (? & []%not_elem_of_nil & _). }
  apply bind_Ok in Hr as (v0 & Hv & Hr). unfold verified_ancestor in Hv.
  setoid_rewrite elem_of_cons. destruct (decide (v = Bmm_Verified)) as [->|Hnv].
  - pose proof (is_main_descendant_Ok _ _ _ _ Hw Hv) as Hd. destruct v0.
    + injection Hr as <-. split; [|done]. intros _. exists m'. split; [by left|by apply Hd].
    + rewrite (IH Hr). split.
      * intros (m0 & ? & ?). exists m0. auto.
      * intros (m0 & [[= ->]|?] & Hm); [|by exists m0]. apply Hd in Hm. done.
  - injection Hv as <-. rewrite (IH Hr). split.
    + intros (m0 & ? & ?). exists m0. auto.
    + intros (m0 & [[= -> <-]|?] & Hm); [done|by exists m0].
Qed.

Lemma bmm_result_of_true v : bmm_result_of v = Bmm_Verified <-> v = true.
Proof. by destruct v. Qed.

(** The check of [put_header] at a mainchain block is the condition of [bmm_backed]. *)
Lemma bmm_result_at_Ok a header b m r :
  index_wf (main_index a) -> ar_headers a !! b = Some header ->
  bmm_result_at a header b m = Ok r ->
  r = Bmm_Verified <-> exists info main_header, bmm_backed a b m header info main_header.
Proof.
  intros Hw Hb Hr. unfold bmm_result_at in Hr. apply bind_Ok in Hr as (info & Hinfo%ok_or_Ok & Hr).
  assert (forall info' mh, bmm_backed a b m header info' mh -> info' = info) as Hu.
  { intros info' mh Hbk. pose proof (bk_info _ _ _ _ _ _ Hbk). congruence. }
  destruct (bi_bmm_commitment info) as [c|] eqn:Hc.
  2: { injection Hr as <-. split; [done|]. intros (info' & mh & Hbk).
       rewrite (Hu _ _ Hbk) in Hbk. apply bk_commitment in Hbk. congruence. }
  destruct (N.eqb_spec c b) as [->|Hne]; cbn [negb] in Hr.
  2: { injection Hr as <-. split; [done|]. intros (info' & mh & Hbk).
       rewrite (Hu _ _ Hbk) in Hbk. apply bk_commitment in Hbk. congruence. }
  apply bind_Ok in Hr as (mh & Hmh%ok_or_Ok & Hr).
  assert (forall info' mh', bmm_backed a b m header info' mh' -> mh' = mh) as Hu'.
  { intros info' mh' Hbk. pose proof (bk_main_header _ _ _ _ _ _ Hbk). congruence. }
  destruct (N.eqb_spec (hd_prev_main_hash header) (bhi_prev_block_hash mh)) as [Hp|Hne]; cbn [negb] in Hr.
  2: { injection Hr as <-. split; [done|]. intros (info' & mh' & Hbk).
       rewrite (Hu' _ _ Hbk) in Hbk. by apply bk_prev in Hbk. }
  destruct (hd_prev_side_hash header) as [p|] eqn:Hpar.
  - apply bind_Ok in Hr as (v & Hv & [= <-]). rewrite bmm_result_of_true.
    rewrite (any_verified_ancestor_Ok _ _ _ _ Hw Hv). split.
    + intros (m' & Hm'%elem_of_map_to_list & Ha). exists info, mh. split; try done.
      intros p' Hp'. rewrite Hpar in Hp'. injection Hp' as <-. by exists m'.
    + intros (info' & mh' & Hbk). destruct (bk_parent _ _ _ _ _ _ Hbk p Hpar) as (m' & Hm' & Ha).
      exists m'. split; [by apply elem_of_map_to_list|done].
  - injection Hr as <-. split; [|done]. intros _. exists info, mh. split; try done.
    intros p' Hp'. congruence.
Qed.

(** ** Storing a sidechain header *)

Lemma fold_insert_Ok {E V} (f : N -> result E V) l (m0 m1 : gmap N V) :
  fold_res (fun m k => v ← f k; Ok (<[k := v]> m)) l m0 = Ok m1 ->
  forall k, (k ∈ l /\ exists v, f k = Ok v /\ m1 !! k = Some v) \/ (k ∉ l /\ m1 !! k = m0 !! k).
Proof.
  revert m0. induction l as [|k0 l IH]; intros m0 Hf k; cbn in Hf.
  { injection Hf as <-. right. split; [apply not_elem_of_nil|done]. }
  apply bind_Ok in Hf as (m & Hm & Hf). apply bind_Ok in Hm as (v0 & Hv0 & [= <-]).
  destruct (IH _ Hf k) as [[Hin Hk]|[Hni Hk]].
  - left. split; [by apply list_elem_of_further|done].
  - destruct (decide (k = k0)) as [->|Hne].
    + left. split; [apply list_elem_of_here|]. exists v0. rewrite Hk. split; [done|]. apply lookup_insert_eq.
    + right. rewrite not_elem_of_cons. split; [done|]. by rewrite Hk, lookup_insert_ne.
Qed.

(** *** Writing results *)

Lemma lookup_results a b b' results m :
  get_bmm_results (put_bmm_results <[b := results]> a) b' !! m =
  if decide (b' = b) then results !! m else get_bmm_results a b' !! m.
Proof.
  unfold get_bmm_results. cbn. case_decide as Heq; [subst; by rewrite lookup_insert_eq|].
  by rewrite lookup_insert_ne.
Qed.

(** Results that are kept, or decided by [bmm_backed], keep the archive consistent: a
    verified result that children rely on is verified again. *)
Lemma write_results_wf a b header results :
  archive_wf a -> ar_headers a !! b = Some header ->
  (forall m, results !! m = get_bmm_results a b !! m \/
    exists r, results !! m = Some r /\
      (r = Bmm_Verified <-> exists info mh, bmm_backed a b m header info mh)) ->
  archive_wf (put_bmm_results <[b := results]> a).
Proof.
  intros [Hs Hm Hv] Hb Hr.
  assert (forall b' m, get_bmm_results a b' !! m = Some Bmm_Verified ->
    get_bmm_results (put_bmm_results <[b := results]> a) b' !! m = Some Bmm_Verified) as Hkeep.
  { intros b' m Hbm. rewrite lookup_results. case_decide as Heq; [subst|done].
    destruct (Hr m) as [->|(r & -> & Hiff)]; [done|]. f_equal. apply Hiff.
    destruct (Hv _ _ Hbm) as (h' & info & mh & Hbk). exists info, mh.
    pose proof (bk_header _ _ _ _ _ _ Hbk). by simplify_eq. }
  split; [done|done|]. intros b' m Hbm. rewrite lookup_results in Hbm.
  assert (exists h' info mh, bmm_backed a b' m h' info mh) as (h' & info & mh & [H1 H2 H3 H4 H5 H6]).
  { case_decide as Heq; [subst|by apply Hv]. destruct (Hr m) as [Hold|(r & Hres & Hiff)].
    - apply Hv. congruence.
    - rewrite Hres in Hbm. injection Hbm as ->. destruct Hiff as [Hiff _]. eauto. }
  exists h', info, mh. split; [done..|]. intros p Hp. destruct (H6 p Hp) as (m' & Hm' & Ha).
  exists m'. split; [by apply Hkeep|done].
Qed.

(** An archive that differs in what no result depends on *)
Lemma bmm_backed_mono a a' b m header info mh :
  ar_headers a ⊆ ar_headers a' -> ar_main_block_infos a ⊆ ar_main_block_infos a' ->
  ar_main_header_infos a ⊆ ar_main_header_infos a' -> ar_bmm_results a' = ar_bmm_results a ->
  (forall m', ancestor (ix_parent (main_index a)) m' m -> ancestor (ix_parent (main_index a')) m' m) ->
  bmm_backed a b m header info mh -> bmm_backed a' b m header info mh.
Proof.
  intros Hh Hi Hm Hr Ha [H1 H2 H3 H4 H5 H6].
  split; [by eapply lookup_weaken..|done|by eapply lookup_weaken|done|].
  intros p Hp. destruct (H6 p Hp) as (m' & Hm' & Hanc). exists m'.
  unfold get_bmm_results in *. rewrite Hr. auto.
Qed.

Section store.
Context `{Externals} `{WorkExternals}.

(** The header is new or stored again; its parent is not at the last height. *)
Record header_storable (a : Archive) (header : Header) : Prop := {
  hs_same : ar_headers a !! header_hash header = None \/
    ar_headers a !! header_hash header = Some header;
  hs_bound p k : hd_prev_side_hash header = Some p ->
    ar_block_hash_to_height a !! p = Some k -> k + 1 <= u32_MAX;
}.

(** The archive when [put_header] comes to the BMM results *)
Definition header_indexed (a : Archive) (header : Header) (k : u32) (l : list N)
    (pred_successors successors : gset BlockHash) : Archive :=
  put_exponential <[header_hash header := l]>
    (put_successors <[Some (header_hash header) := successors]>
      (put_successors <[hd_prev_side_hash header := pred_successors]>
        (put_headers <[header_hash header := header]>
          (put_heights <[header_hash header := k]> a)))).

Lemma put_header_Ok a header a' :
  put_header a header = Ok a' -> exists k l ps s1 s2 main_blocks results,
    match hd_prev_side_hash header with
    | None => k = 0
    | Some p => exists kp, ar_block_hash_to_height a !! p = Some kp /\ k = u32_add kp 1
    end /\
    (exists old, ar_successors a !! hd_prev_side_hash header = Some old /\
      ps = {[header_hash header]} ∪ old) /\
    exponential_of (get_nth_ancestor (put_successors s2 (put_successors s1
        (put_headers <[header_hash header := header]> (put_heights <[header_hash header := k]> a)))))
      k (hd_prev_side_hash header) = Ok l /\
    let a1 := header_indexed a header k l ps (default ∅ (<[hd_prev_side_hash header := ps]>
      (ar_successors a) !! Some (header_hash header))) in
    fold_res (fun bmm_results main_block =>
        bmm_result ← bmm_result_at a1 header (header_hash header) main_block;
        Ok (<[main_block := bmm_result]> bmm_results))
      main_blocks (get_bmm_results a (header_hash header)) = Ok results /\
    a' = put_bmm_results <[header_hash header := results]> a1.
Proof.
  intros Hp. unfold put_header in Hp. apply bind_Ok in Hp as (k & Hk & Hp).
  apply bind_Ok in Hp as (ps & Hps & Hp). apply bind_Ok in Hp as (l & Hl & Hp).
  apply bind_Ok in Hp as (mb & Hmb & Hp). apply bind_Ok in Hp as (results & Hres & [= <-]).
  set (ps1 := {[header_hash header]} ∪ ps) in *.
  exists k, l, ps1, <[hd_prev_side_hash header := ps1]>,
    <[Some (header_hash header) := default ∅ (<[hd_prev_side_hash header := ps1]>
      (ar_successors a) !! Some (header_hash header))]>, (elements mb), results. split_and!.
  - destruct (hd_prev_side_hash header) as [p|]; [|by injection Hk as <-].
    apply bind_Ok in Hk as (kp & Hkp%ok_or_Ok & [= <-]). by exists kp.
  - exists ps. split; [|done]. unfold get_successors in Hps. cbn in Hps.
    destruct (ar_successors a !! _) as [s|]; [by injection Hps as ->|].
    by apply bind_Ok in Hps as (? & _ & ?).
  - exact Hl.
  - split; [exact Hres|reflexivity].
Qed.

(** The index part of [put_header] *)
Lemma header_insertable a header k :
  index_wf (side_index a) -> header_storable a header ->
  match hd_prev_side_hash header with
  | None => k = 0
  | Some p => exists kp, ar_block_hash_to_height a !! p = Some kp /\ k = u32_add kp 1
  end -> insertable (side_index a) (header_hash header) (hd_prev_side_hash header) k.
Proof.
  intros Hw [Hs Hb] Hk. split; cbn.
  - rewrite !lookup_fmap. by destruct Hs as [-> | ->]; [left|right].
  - intros Hp. by rewrite Hp in Hk.
  - intros p Hp. rewrite Hp in Hk. destruct Hk as (kp & Hkp & ->). exists kp. split; [done|].
    apply u32_add_small. by eapply Hb.
  - destruct (hd_prev_side_hash header) as [p|]; [|subst; unfold u32_MAX; lia].
    destruct Hk as (kp & Hkp & ->). rewrite u32_add_small; by eapply Hb.
Qed.

Lemma header_indexed_wf a header k l ps s s1 s2 :
  archive_wf a -> header_storable a header ->
  insertable (side_index a) (header_hash header) (hd_prev_side_hash header) k ->
  exponential_of (get_nth_ancestor (put_successors s2 (put_successors s1
    (put_headers <[header_hash header := header]> (put_heights <[header_hash header := k]> a)))))
    k (hd_prev_side_hash header) = Ok l ->
  archive_wf (header_indexed a header k l ps s).
Proof.
  intros [Hs Hm Hv] Hst Hi Hl. split.
  - assert (side_index (header_indexed a header k l ps s) =
      ix_insert (header_hash header) (hd_prev_side_hash header) k l (side_index a)) as ->.
    { unfold side_index, ix_insert. cbn. by rewrite fmap_insert. }
    eapply exponential_stored; [done|done| |by right|exact Hl].
    intros b n kb c. apply reads_nth; [done|]. apply side_reads; cbn; [|rewrite fmap_insert|done].
    + apply insert_subseteq_same. by apply (insertable_height _ _ _ _ Hs Hi).
    + apply insert_subseteq_same. apply (in_same _ _ _ _ Hi).
  - done.
  - intros b m Hbm. destruct (Hv b m Hbm) as (h & info & mh & Hbk). exists h, info, mh.
    eapply bmm_backed_mono; [..|exact Hbk]; try done. cbn. apply insert_subseteq_same, Hst.
Qed.

Lemma put_header_wf a header a' :
  archive_wf a -> header_storable a header -> put_header a header = Ok a' -> archive_wf a'.
Proof.
  intros Hw Hst Hp. apply put_header_Ok in Hp as (k & l & ps & s1 & s2 & mb & results & Hk & _ & Hl & Hres & ->).
  pose proof (header_insertable _ _ _ (aw_side _ Hw) Hst Hk) as Hi.
  set (a1 := header_indexed _ _ _ _ _ _) in *.
  assert (archive_wf a1) as Hw1 by (by eapply header_indexed_wf).
  assert (ar_headers a1 !! header_hash header = Some header) as Hh by apply lookup_insert_eq.
  eapply write_results_wf; [done|exact Hh|]. intros m.
  destruct (fold_insert_Ok _ _ _ _ Hres m) as [(_ & r & Hr & Hm)|[_ Hm]]; [right|by left].
  exists r. split; [done|]. by apply (bmm_result_at_Ok _ _ _ _ _ (aw_main _ Hw1)).
Qed.

(** ** Storing mainchain blocks *)

Record main_header_storable (a : Archive) (info : BlockHeaderInfo) : Prop := {
  ms_same : ar_main_header_infos a !! bhi_block_hash info = None \/
    ar_main_header_infos a !! bhi_block_hash info = Some info;
  ms_bound k : ar_main_block_hash_to_height a !! bhi_prev_block_hash info = Some k ->
    k + 1 <= u32_MAX;
}.

Lemma put_main_header_info_Ok a info a' :
  put_main_header_info a info = Ok a' -> exists k l a1,
    (if bhi_prev_block_hash info =? all_zeros then k = 0 else
      exists kp, ar_main_block_hash_to_height a !! bhi_prev_block_hash info = Some kp /\
        k = u32_add kp 1) /\
    exponential_of (get_nth_main_ancestor a1) k (Some (bhi_prev_block_hash info)) = Ok l /\
    ar_main_block_hash_to_height a1 = <[bhi_block_hash info := k]> (ar_main_block_hash_to_height a) /\
    ar_main_header_infos a1 = <[bhi_block_hash info := info]> (ar_main_header_infos a) /\
    ar_exponential_main_ancestors a1 = ar_exponential_main_ancestors a /\
    ar_headers a1 = ar_headers a /\ ar_main_block_infos a1 = ar_main_block_infos a /\
    ar_bmm_results a1 = ar_bmm_results a /\ side_index a1 = side_index a /\
    a' = put_exponential_main <[bhi_block_hash info := l]> a1.
Proof.
  intros Hp. unfold put_main_header_info in Hp. apply bind_Ok in Hp as (_ & _ & Hp).
  apply bind_Ok in Hp as (k & Hk & Hp). apply bind_Ok in Hp as (w & _ & Hp).
  apply bind_Ok in Hp as (ps & _ & Hp). apply bind_Ok in Hp as (l & Hl & [= <-]).
  exists k, l. eexists. split_and!; [|exact Hl|done..].
  destruct (_ =? all_zeros); [by injection Hk as <-|].
  apply bind_Ok in Hk as (kp & Hkp%ok_or_Ok & [= <-]). by exists kp.
Qed.

Lemma main_insertable a info k :
  index_wf (main_index a) -> main_header_storable a info ->
  (if bhi_prev_block_hash info =? all_zeros then k = 0 else
    exists kp, ar_main_block_hash_to_height a !! bhi_prev_block_hash info = Some kp /\
      k = u32_add kp 1) ->
  insertable (main_index a) (bhi_block_hash info) (main_parent info) k.
Proof.
  intros Hw [Hs Hb] Hk. unfold main_parent in *. split; cbn.
  - rewrite !lookup_fmap. by destruct Hs as [-> | ->]; [left|right].
  - by destruct (_ =? all_zeros).
  - destruct (_ =? all_zeros); [done|]. intros p [= <-]. destruct Hk as (kp & Hkp & ->).
    exists kp. split; [done|]. by apply u32_add_small, Hb.
  - destruct (_ =? all_zeros); [subst; unfold u32_MAX; lia|].
    destruct Hk as (kp & Hkp & ->). rewrite u32_add_small; by apply Hb.
Qed.

Lemma put_main_header_info_wf a info a' :
  archive_wf a -> main_header_storable a info -> put_main_header_info a info = Ok a' -> archive_wf a'.
Proof.
  intros [Hs Hm Hv] Hst Hp.
  apply put_main_header_info_Ok in Hp
    as (k & l & a1 & Hk & Hl & Hkh & Hmh & Hex & Hhd & Hbi & Hbr & Hsi & ->).
  pose proof (main_insertable _ _ _ Hm Hst Hk) as Hi.
  assert (main_index (put_exponential_main <[bhi_block_hash info := l]> a1) =
    ix_insert (bhi_block_hash info) (main_parent info) k l (main_index a)) as Hmi.
  { unfold main_index, ix_insert. cbn. by rewrite Hkh, Hmh, Hex, fmap_insert. }
  split.
  - change (index_wf (side_index a1)). by rewrite Hsi.
  - rewrite Hmi. eapply exponential_stored; [done|done| | |exact Hl].
    + intros b n kb c. apply reads_nth; [done|]. apply main_reads; cbn; [rewrite Hkh|rewrite Hmh, fmap_insert|by rewrite Hex].
      * apply insert_subseteq_same. by apply (insertable_height _ _ _ _ Hm Hi).
      * apply insert_subseteq_same. apply (in_same _ _ _ _ Hi).
    + unfold main_parent. destruct (_ =? all_zeros); auto.
  - intros b m Hbm. destruct (Hv b m) as (h & i & mh & Hbk).
    { unfold get_bmm_results in *. cbn in Hbm. by rewrite Hbr in Hbm. }
    exists h, i, mh. pose proof (bk_main_header _ _ _ _ _ _ Hbk) as Hmk.
    eapply bmm_backed_mono; [..|exact Hbk]; cbn; rewrite ?Hhd, ?Hbi, ?Hmh; try done.
    + apply insert_subseteq_same, Hst.
    + intros m' [n Hn]. exists n. rewrite Hmi.
      destruct (iw_dom _ Hm m) as [[km Hkm] _]; [cbn; rewrite lookup_fmap, Hmk; by eexists|].
      by rewrite (insert_ancestor_at _ _ _ _ _ _ _ km).
Qed.

(** A block's information is new or stored again. *)
Definition info_storable (a : Archive) (m : MainBlockHash) (info : BlockInfo) : Prop :=
  ar_main_block_infos a !! m = None \/ ar_main_block_infos a !! m = Some info.

Lemma put_main_block_info_wf a m info a' :
  archive_wf a -> info_storable a m info -> put_main_block_info a m info = Ok a' -> archive_wf a'.
Proof.
  intros Hw Hst Hp. unfold put_main_block_info in Hp.
  apply bind_Ok in Hp as (mh & Hmh%ok_or_Ok & Hp). apply bind_Ok in Hp as (_ & _ & Hp).
  set (a1 := put_main_block_infos _ a) in *.
  assert (archive_wf a1) as Hw1.
  { destruct Hw as [Hs Hm Hv]. split; [done|done|]. intros b m' Hbm.
    destruct (Hv b m' Hbm) as (h & i & mh' & Hbk). exists h, i, mh'.
    eapply bmm_backed_mono; [..|exact Hbk]; try done. by apply insert_subseteq_same. }
  assert (ar_main_block_infos a1 !! m = Some info) as Hinfo by apply lookup_insert_eq.
  destruct (bi_bmm_commitment info) as [b|] eqn:Hc; [|by injection Hp as <-].
  destruct (ar_headers a1 !! b) as [header|] eqn:Hb; [|by injection Hp as <-].
  apply bind_Ok in Hp as (r & Hr & Hp). injection Hp as <-.
  eapply write_results_wf; [done|exact Hb|]. intros m'.
  destruct (decide (m' = m)) as [->|Hne]; [right|left; by rewrite lookup_insert_ne].
  exists r. rewrite lookup_insert_eq. split; [done|].
  apply (bmm_result_at_Ok a1 header b m r (aw_main _ Hw1) Hb).
  unfold bmm_result_at, get_main_block_info, get_main_header_info. rewrite Hinfo. cbn [ok_or mbind result_bind].
  rewrite Hc, N.eqb_refl. cbn [negb]. change (ar_main_header_infos a1) with (ar_main_header_infos a).
  rewrite Hmh. cbn [ok_or mbind result_bind]. destruct (negb _); [done|].
  destruct (hd_prev_side_hash header); done.
Qed.
End store.

(** ** Verified blocks *)

Section queries.
Context (a : Archive) (Hw : archive_wf a).

Lemma verified_parent b m p :
  get_bmm_results a b !! m = Some Bmm_Verified -> ix_parent (side_index a) b = Some p ->
  exists m', get_bmm_results a p !! m' = Some Bmm_Verified /\ ancestor (ix_parent (main_index a)) m' m.
Proof.
  intros Hv Hp. destruct (aw_verified _ Hw b m Hv) as (h & info & mh & [H1 _ _ _ _ H6]).
  apply ix_parent_Some in Hp. cbn in Hp. rewrite lookup_fmap, H1 in Hp. injection Hp as Hp. by apply H6.
Qed.

Lemma verified_ancestor_at n : forall b m c,
  get_bmm_results a b !! m = Some Bmm_Verified -> ancestor_at (ix_parent (side_index a)) n b = Some c ->
  exists m', get_bmm_results a c !! m' = Some Bmm_Verified /\ ancestor (ix_parent (main_index a)) m' m.
Proof.
  induction n as [|n IH]; intros b m c Hv Ha; cbn in Ha.
  { injection Ha as <-. exists m. split; [done|apply ancestor_refl]. }
  destruct (ix_parent (side_index a) b) as [p|] eqn:Hp; [|done]. cbn in Ha.
  destruct (verified_parent b m p Hv Hp) as (m1 & Hm1 & Ha1).
  destruct (IH p m1 c Hm1 Ha) as (m2 & Hm2 & Ha2). exists m2. split; [done|].
  by eapply ancestor_trans.
Qed.

Lemma verified_commitment b m :
  get_bmm_results a b !! m = Some Bmm_Verified ->
  exists info, ar_main_block_infos a !! m = Some info /\ bi_bmm_commitment info = Some b.
Proof. intros Hv. destruct (aw_verified _ Hw b m Hv) as (h & info & mh & []). eauto. Qed.
End queries.
