(* ===== verification/ArchiveBodies.v ===== *)
(** * Bodies in the archive

    [put_body], [delete_body] and [invalidate_block] of [src/lib/archive/mod.rs]: bodies
    with the index of transactions, and the side tips that they make available. *)

From S2P Require Import Prelude Types Transaction Merkle Sample SideTips Lineage Archive.
From S2P Require Import ArchiveTree ArchiveWf.

(** ** Definitions *)

(** The parent of a header, if there is one, is a side tip. *)
Definition parent_connected (a : Archive) (header : Header) : bool :=
  match hd_prev_side_hash header with
  | Some side_parent => bool_decide (is_Some (sd_sidechain_tips (ar_side_tips a) !! side_parent))
  | None => true
  end.

(** One BMM result in [update_side_tips]; the flag is [connected_sidechain_tip] *)
Definition connect_result (mainchain_tip : MainBlockHash) (block_hash : BlockHash) (header : Header)
    (acc : Archive * bool) (result : MainBlockHash * BmmResult) : Prelude.result ArchiveError (Archive * bool) :=
  let '(a, connected_sidechain_tip) := acc in
  let '(main_block_hash, bmm_result) := result in
  match bmm_result with
  | Bmm_Failed => Ok acc
  | Bmm_Verified =>
      if negb (parent_connected a header) then Ok acc
      else
        descendant ← is_main_descendant a main_block_hash mainchain_tip;
        match descendant with
        | false => Ok acc
        | true =>
            cumulative_work ← get_total_work a main_block_hash;
            side_tips ← map_err Archive_SideTips
              (connect_sidechain_tip (ar_side_tips a) main_block_hash cumulative_work block_hash
                (header_data header));
            Ok (put_side_tips side_tips a, true)
        end
  end.

(** The closure [update_side_tips]: the archive, and what it adds to the queue *)
Definition update_side_tips (mainchain_tip : MainBlockHash) (block_hash : BlockHash)
    (header : Header) (a : Archive) : result ArchiveError (Archive * list BlockHash) :=
  '(a, connected_sidechain_tip) ←
    fold_res (connect_result mainchain_tip block_hash header)
      (map_to_list (get_bmm_results a block_hash)) (a, false);
  match connected_sidechain_tip with
  | false => Ok (a, [])
  | true => successors ← get_successors a (Some block_hash); Ok (a, elements successors)
  end.

(** ['update_side_tips: while let Some(block_hash) = queue.pop_front()]; a block enters the
    queue once, as a successor of its parent *)
Fixpoint update_side_tips_loop (fuel : nat) (mainchain_tip : MainBlockHash) (queue : list BlockHash)
    (a : Archive) : result ArchiveError Archive :=
  match queue, fuel with
  | [], _ => Ok a
  | _ :: _, O => Panic
  | block_hash :: queue, S fuel =>
      if negb (contains_body a block_hash) then update_side_tips_loop fuel mainchain_tip queue a
      else
        header ← get_header a block_hash;
        '(a, successors) ← update_side_tips mainchain_tip block_hash header a;
        update_side_tips_loop fuel mainchain_tip (queue ++ successors) a
  end.

Section bodies.
Context `{Externals}.

(** The transactions of a body, with their indexes *)
Definition put_inclusion (block_hash : BlockHash) (a : Archive) (tx : u32 * Transaction) : Archive :=
  let inclusions := get_tx_inclusions a (txid tx.2) in
  put_inclusions <[txid tx.2 := <[block_hash := tx.1]> inclusions]> a.

Definition put_body (a : Archive) (block_hash : BlockHash) (body : Body) : result ArchiveError Archive :=
  header ← get_header a block_hash;
  let a := put_bodies <[block_hash := body]> a in
  let a := foldl (put_inclusion block_hash) a (enumerate (bd_transactions body)) in
  let mainchain_tip := main_tip_block_hash (sd_mainchain_tip (ar_side_tips a)) in
  '(a, queue) ← update_side_tips mainchain_tip block_hash header a;
  update_side_tips_loop (size (ar_headers a)) mainchain_tip queue a.

(** [inclusions.remove(..)], and the entry with it when nothing is left *)
Definition delete_inclusion (block_hash : BlockHash) (a : Archive) (tx : Transaction) : Archive :=
  let inclusions := delete block_hash (get_tx_inclusions a (txid tx)) in
  if decide (inclusions = ∅) then put_inclusions (delete (txid tx)) a
  else put_inclusions <[txid tx := inclusions]> a.

(** The loop of [delete_body]. Each turn takes a block from the queue, and adds the
    successors of a tip that it removes. *)
Fixpoint disconnect_tips_loop (fuel : nat) (queue : list BlockHash) (a : Archive)
  : result ArchiveError Archive :=
  match queue, fuel with
  | [], _ => Ok a
  | _ :: _, O => Panic
  | block_hash :: queue, S fuel =>
      match sd_sidechain_tips (ar_side_tips a) !! block_hash with
      | None => disconnect_tips_loop fuel queue a
      | Some _ =>
          let a := put_side_tips (disconnect_sidechain_tip (ar_side_tips a) block_hash) a in
          successors ← get_successors a (Some block_hash);
          disconnect_tips_loop fuel (queue ++ elements successors) a
      end
  end.
(** How many blocks can enter the queue: the successors of the tips *)
Definition n_successors (a : Archive) (block_hash : BlockHash) : nat :=
  size (default ∅ (ar_successors a !! Some block_hash)).
Definition disconnect_fuel (a : Archive) : nat :=
  S (sum_list (n_successors a <$> (map_to_list (sd_sidechain_tips (ar_side_tips a))).*1)).

Definition delete_body (a : Archive) (block_hash : BlockHash) (body : Body)
  : result ArchiveError Archive :=
  let a := put_bodies (delete block_hash) a in
  let a := foldl (delete_inclusion block_hash) a (bd_transactions body) in
  disconnect_tips_loop (disconnect_fuel a) [block_hash] a.

(** The transactions of a block leave the index, as far as they are in it. *)
Definition forget_inclusions (x : BlockHash) (a : Archive) : Archive :=
  match ar_bodies a !! x with
  | Some body =>
      foldl (fun a tx =>
        match ar_txid_to_inclusions a !! txid tx with
        | Some _ => delete_inclusion x a tx
        | None => a
        end) a (bd_transactions body)
  | None => a
  end.

(** One block of [invalidate_block]: the archive, and the successors pushed on the stack *)
Definition invalidate_step (block_hash : BlockHash) (a : Archive) : Archive * list BlockHash :=
  let a := put_heights (delete block_hash) a in
  let a := forget_inclusions block_hash a in
  let a := put_bodies (delete block_hash) a in
  let a := put_exponential (delete block_hash) a in
  let a :=
    match ar_headers a !! block_hash with
    | Some header =>
        match ar_successors a !! hd_prev_side_hash header with
        | Some pred_successors =>
            put_successors <[hd_prev_side_hash header := pred_successors ∖ {[block_hash]}]> a
        | None => a
        end
    | None => a
    end in
  let a := put_headers (delete block_hash) a in
  let a := put_invalid_blocks (union {[block_hash]}) a in
  let successors := default ∅ (ar_successors a !! Some block_hash) in
  (put_successors (delete (Some block_hash)) a, elements successors).

(** [while let Some(block_hash) = stack.pop()], the top of the stack first *)
Fixpoint invalidate_loop (fuel : nat) (stack : list BlockHash) (a : Archive)
  : result ArchiveError Archive :=
  match stack, fuel with
  | [], _ => Ok a
  | _ :: _, O => Panic
  | block_hash :: stack, S fuel =>
      let '(a, successors) := invalidate_step block_hash a in
      invalidate_loop fuel (reverse successors ++ stack) a
  end.
(** Each block that is taken loses its entry of successors. *)
Definition invalidate_fuel (a : Archive) : nat :=
  S (sum_list ((fun p => size p.2) <$> map_to_list (ar_successors a))).
Definition invalidate_block (a : Archive) (block_hash : BlockHash) : result ArchiveError Archive :=
  invalidate_loop (invalidate_fuel a) [block_hash] a.
End bodies.

(** ** Invalidating a block *)

Section invalidate.
Context `{Externals}.

(** The successor relation of the archive *)
Definition successor (a : Archive) (p c : BlockHash) : Prop :=
  exists s, ar_successors a !! Some p = Some s /\ c ∈ s.

(** What the archive holds of a block *)
Definition stored (a : Archive) (b : BlockHash) :=
  (ar_block_hash_to_height a !! b, ar_headers a !! b, ar_bodies a !! b,
   ar_exponential_ancestors a !! b, bool_decide (b ∈ ar_invalid_blocks a)).
Definition invalidated : option u32 * option Header * option Body * option (list BlockHash) * bool :=
  (None, None, None, None, true).

Lemma forget_inclusions_frame x a : exists f, forget_inclusions x a = put_inclusions f a.
Proof.
  unfold forget_inclusions. destruct (ar_bodies a !! x) as [body|];
    [|by exists (fun m => m); destruct a].
  assert (forall l a0 f0, a0 = put_inclusions f0 a -> exists f,
    foldl (fun a tx => match ar_txid_to_inclusions a !! txid tx with
      | Some _ => delete_inclusion x a tx | None => a end) a0 l = put_inclusions f a) as Hf.
  { induction l as [|tx l IH]; intros a0 f0 ->; [by exists f0|]. cbn [foldl].
    destruct (ar_txid_to_inclusions (put_inclusions f0 a) !! txid tx).
    - unfold delete_inclusion. case_decide.
      + by apply (IH _ (fun m => delete (txid tx) (f0 m))).
      + by eapply (IH _ (fun m => <[txid tx := _]> (f0 m))).
    - by apply (IH _ f0). }
  apply (Hf _ a (fun m => m)). by destruct a.
Qed.

(** The successors after a step *)
Definition without_successor (x : BlockHash) (header : option Header)
    (m : gmap (option BlockHash) (gset BlockHash)) : gmap (option BlockHash) (gset BlockHash) :=
  match header with
  | Some header =>
      match m !! hd_prev_side_hash header with
      | Some s => <[hd_prev_side_hash header := s ∖ {[x]}]> m
      | None => m
      end
  | None => m
  end.

Lemma invalidate_step_spec x a a' l :
  invalidate_step x a = (a', l) ->
  (forall b, stored a' b = if decide (b = x) then invalidated else stored a b) /\
  ar_successors a' = delete (Some x) (without_successor x (ar_headers a !! x) (ar_successors a)) /\
  l = elements (default ∅ (without_successor x (ar_headers a !! x) (ar_successors a) !! Some x)).
Proof.
  unfold invalidate_step. intros Hs.
  destruct (forget_inclusions_frame x (put_heights (delete x) a)) as [f Hf]. rewrite Hf in Hs.
  cbn [put_heights put_bodies put_exponential put_inclusions ar_headers ar_successors] in Hs.
  assert (forall a2, ar_block_hash_to_height a2 = delete x (ar_block_hash_to_height a) ->
    ar_headers a2 = delete x (ar_headers a) -> ar_bodies a2 = delete x (ar_bodies a) ->
    ar_exponential_ancestors a2 = delete x (ar_exponential_ancestors a) ->
    ar_invalid_blocks a2 = {[x]} ∪ ar_invalid_blocks a ->
    forall b, stored a2 b = if decide (b = x) then invalidated else stored a b) as Hst.
  { intros a2 E1 E2 E3 E4 E5 b. unfold stored, invalidated. rewrite E1, E2, E3, E4, E5.
    case_decide as Hb; [subst|].
    - rewrite !lookup_delete_eq. f_equal. rewrite bool_decide_eq_true. set_solver.
    - rewrite !lookup_delete_ne by done. f_equal. apply bool_decide_ext. set_solver. }
  unfold without_successor. destruct (ar_headers a !! x) as [header|] eqn:Hh.
  - destruct (ar_successors a !! hd_prev_side_hash header) as [ps|] eqn:Hps; injection Hs as <- <-;
      (split; [by apply Hst|done]).
  - injection Hs as <- <-. split; [by apply Hst|done].
Qed.

Lemma without_successor_lookup x h m p s :
  without_successor x h m !! p = Some s ->
  exists s0, m !! p = Some s0 /\ s ⊆ s0 /\ s0 ⊆ {[x]} ∪ s.
Proof.
  unfold without_successor. intros Hp.
  assert (m !! p = Some s -> exists s0, m !! p = Some s0 /\ s ⊆ s0 /\ s0 ⊆ {[x]} ∪ s) as Hsame.
  { intros Hs. exists s. set_solver. }
  destruct h as [h|]; [|auto]. destruct (m !! hd_prev_side_hash h) as [s1|] eqn:Hs1; [|auto].
  rewrite lookup_insert_Some in Hp. destruct Hp as [[<- <-]|[_ Hp]]; [|auto].
  exists s1. split; [done|]. split; [set_solver|]. intros y Hy.
  destruct (decide (y = x)); set_solver.
Qed.
Lemma without_successor_Some x h m p s :
  m !! p = Some s -> exists s', without_successor x h m !! p = Some s'.
Proof.
  intros Hp. unfold without_successor. destruct h as [h|]; [|eauto].
  destruct (m !! hd_prev_side_hash h) as [s1|] eqn:Hs1; [|eauto].
  destruct (decide (hd_prev_side_hash h = p)) as [<-|]; [rewrite lookup_insert_eq; eauto|].
  rewrite lookup_insert_ne by done. eauto.
Qed.

(** A step removes a node and its edges. *)
Lemma invalidate_step_reaches x a a' l q d :
  invalidate_step x a = (a', l) -> d <> x ->
  reaches (successor a) (x :: q) d <-> reaches (successor a') (q ++ l) d.
Proof.
  intros (_ & Hs & ->)%invalidate_step_spec Hd. set (w := without_successor _ _ _) in *.
  apply removal_reaches; [..|done].
  - intros p c (s & Hp & Hc). rewrite Hs in Hp. apply lookup_delete_Some in Hp as [_ Hp].
    apply without_successor_lookup in Hp as (s0 & Hp & Hsub & _). exists s0. split; [done|set_solver].
  - intros p c (s & Hp & Hc) Hpx Hcx. destruct (without_successor_Some x (ar_headers a !! x) _ _ _ Hp) as [s' Hs'].
    exists s'. split; [rewrite Hs, lookup_delete_ne; [done|congruence]|].
    apply without_successor_lookup in Hs' as (s0 & Hp' & _ & Hsup). rewrite Hp in Hp'. set_solver.
  - intros c Hc. rewrite elem_of_elements in Hc. destruct (w !! Some x) as [s|] eqn:Hw; [|set_solver].
    apply without_successor_lookup in Hw as (s0 & Hp & Hsub & _). exists s0. split; [done|set_solver].
  - intros c (s & Hp & Hc) Hcx. rewrite elem_of_elements.
    destruct (without_successor_Some x (ar_headers a !! x) _ _ _ Hp) as [s' Hs']. unfold w. rewrite Hs'.
    apply without_successor_lookup in Hs' as (s0 & Hp' & _ & Hsup). rewrite Hp in Hp'. set_solver.
Qed.

Lemma invalidate_loop_exact fuel stack a a' :
  invalidate_loop fuel stack a = Ok a' -> forall d,
  (stored a d = invalidated -> stored a' d = invalidated) /\
  (reaches (successor a) stack d -> stored a' d = invalidated) /\
  (~ reaches (successor a) stack d -> stored a' d = stored a d).
Proof.
  revert stack a. induction fuel as [|fuel IH]; intros [|x stack] a Hl d; cbn [invalidate_loop] in Hl; try done;
    try (injection Hl as <-; split_and!; [done|by intros ?%reaches_nil|done]).
  destruct (invalidate_step x a) as [a1 l] eqn:Hs. destruct (IH _ _ Hl d) as (H0 & H1 & H2).
  pose proof (invalidate_step_spec _ _ _ _ Hs) as (Hst & _ & _). rewrite (Hst d) in H0, H2.
  destruct (decide (d = x)) as [->|Hd].
  - split_and!; [auto|auto|]. intros []. apply reaches_here.
  - rewrite (invalidate_step_reaches _ _ _ _ stack _ Hs Hd).
    assert (reverse l ++ stack ≡ₚ stack ++ l) as Hp by (by rewrite reverse_Permutation, Permutation_app_comm).
    rewrite (reaches_Permutation _ _ _ _ Hp) in H1, H2. done.
Qed.

(** *** Termination *)

Lemma sum_list_Permutation l k : l ≡ₚ k -> sum_list l = sum_list k.
Proof. induction 1; cbn; lia. Qed.
Definition total_successors (m : gmap (option BlockHash) (gset BlockHash)) : nat :=
  sum_list ((fun p => size p.2) <$> map_to_list m).
Lemma total_insert m p s : m !! p = None -> total_successors (<[p := s]> m) = (size s + total_successors m)%nat.
Proof.
  intros Hp. unfold total_successors. pose proof (map_to_list_insert m p s Hp) as Hq.
  apply (fmap_Permutation (fun q : option BlockHash * gset BlockHash => size q.2)) in Hq.
  by rewrite (sum_list_Permutation _ _ Hq).
Qed.
Lemma total_delete m p s :
  m !! p = Some s -> total_successors m = (size s + total_successors (delete p m))%nat.
Proof.
  intros Hp. rewrite <-(total_insert (delete p m) p s) by apply lookup_delete_eq.
  by rewrite insert_delete_id.
Qed.
Lemma total_without x h m : (total_successors (without_successor x h m) <= total_successors m)%nat.
Proof.
  unfold without_successor. destruct h as [h|]; [|done].
  destruct (m !! hd_prev_side_hash h) as [s|] eqn:Hs; [|done].
  rewrite (total_delete m _ s Hs), <-insert_delete_eq, total_insert by apply lookup_delete_eq.
  assert (size (s ∖ {[x]}) <= size s)%nat; [|lia]. apply subseteq_size. set_solver.
Qed.

Lemma invalidate_loop_total fuel stack a :
  (length stack + total_successors (ar_successors a) <= fuel)%nat ->
  exists a', invalidate_loop fuel stack a = Ok a'.
Proof.
  revert stack a. induction fuel as [|fuel IH]; intros [|x stack] a Hf; cbn [length] in Hf; [by eexists|lia|by eexists|].
  cbn [invalidate_loop]. destruct (invalidate_step x a) as [a1 l] eqn:Hs.
  pose proof (invalidate_step_spec _ _ _ _ Hs) as (_ & Ha & ->). apply IH. rewrite Ha.
  pose proof (total_without x (ar_headers a !! x) (ar_successors a)) as Hle.
  set (w := without_successor _ _ _) in *. rewrite length_app, length_reverse.
  destruct (w !! Some x) as [s|] eqn:Hw.
  - rewrite (total_delete w _ s Hw) in Hle. cbn. change (length (elements s)) with (size s). lia.
  - rewrite delete_id by done. cbn. rewrite elements_empty. cbn. lia.
Qed.
End invalidate.

(** ** Properties *)

(** C36 Invalidating a block terminates, and removes exactly the block and its
    descendants: their headers, heights, ancestors and bodies are gone and they are
    marked invalid; every other block is kept as it is. *)
Theorem invalidate_block_exact `{Externals} (a : Archive) (b : BlockHash) :
  exists a', invalidate_block a b = Ok a' /\ forall d,
    (rtc (successor a) b d -> stored a' d = invalidated) /\
    (~ rtc (successor a) b d -> stored a' d = stored a d).
Proof.
  destruct (invalidate_loop_total (invalidate_fuel a) [b] a) as [a' Ha'];
    [unfold invalidate_fuel, total_successors; cbn; lia|].
  exists a'. split; [done|]. intros d. destruct (invalidate_loop_exact _ _ _ _ Ha' d) as (_ & H1 & H2).
  assert (rtc (successor a) b d <-> reaches (successor a) [b] d) as Hr.
  { split; [intros Hr; exists b; by split; [apply list_elem_of_here|]|].
    by intros (x & ->%list_elem_of_singleton & Hr). }
  rewrite Hr. done.
Qed.
