(* ===== verification/TipsWf.v ===== *)
(** * The side tips of the archive

    The invariant that ties the side tips to the archive: the two tables of tips agree,
    every tip is verified at the mainchain block it records and has its parent among the
    tips. Storing and deleting bodies keeps it. *)

From S2P Require Import Prelude Types Transaction Merkle Sample SideTips Lineage Archive.
From S2P Require Import ArchiveTree ArchiveWf ArchiveBodies.

(** ** The invariant *)

(** Every header is among the successors of its parent, and has an entry of its own. *)
Definition successors_ok (a : Archive) : Prop := forall b header,
  ar_headers a !! b = Some header ->
  is_Some (ar_successors a !! Some b) /\
  exists s, ar_successors a !! hd_prev_side_hash header = Some s /\ b ∈ s.

Definition is_tip (a : Archive) (b : BlockHash) : Prop :=
  is_Some (sd_sidechain_tips (ar_side_tips a) !! b).

(** The parent of a tip *)
Definition tip_parent (a : Archive) (b p : BlockHash) : Prop :=
  is_tip a b /\ exists header, ar_headers a !! b = Some header /\ hd_prev_side_hash header = Some p.

Record side_tips_ok (a : Archive) : Prop := {
  st_tables : tips_wf (ar_side_tips a);
  st_verified b i : sd_sidechain_tips (ar_side_tips a) !! b = Some i ->
    get_bmm_results a b !! sti_main_block_hash i = Some Bmm_Verified;
  st_closed b p : tip_parent a b p -> is_tip a p;
}.

(** What [put_body] and [delete_body] leave alone *)
Record same_chain (a a' : Archive) : Prop := {
  sc_side : side_index a' = side_index a;
  sc_main : main_index a' = main_index a;
  sc_headers : ar_headers a' = ar_headers a;
  sc_main_headers : ar_main_header_infos a' = ar_main_header_infos a;
  sc_infos : ar_main_block_infos a' = ar_main_block_infos a;
  sc_results : ar_bmm_results a' = ar_bmm_results a;
  sc_successors : ar_successors a' = ar_successors a;
}.
#[export] Instance same_chain_preorder : PreOrder same_chain.
Proof.
  split; [by split|]. intros a b c [] []. split; congruence.
Qed.
Lemma same_chain_tips a t : same_chain a (put_side_tips t a).
Proof. by split. Qed.

(** What connecting to the side tips leaves alone *)
Definition same_archive (a a' : Archive) : Prop := exists t, a' = put_side_tips t a.
#[export] Instance same_archive_preorder : PreOrder same_archive.
Proof.
  split; [intros a; exists (ar_side_tips a); by destruct a|].
  intros a b c [t ->] [t' ->]. by exists t'.
Qed.
Lemma same_archive_chain a a' : same_archive a a' -> same_chain a a'.
Proof. intros [t ->]. apply same_chain_tips. Qed.

Lemma same_chain_wf a a' : same_chain a a' -> archive_wf a -> archive_wf a'.
Proof.
  intros [Hs Hm Hh Hmh Hi Hr _] [Hws Hwm Hv]. split; [by rewrite Hs|by rewrite Hm|].
  intros b m Hbm. unfold get_bmm_results in Hbm. rewrite Hr in Hbm.
  destruct (Hv b m Hbm) as (h & info & mh & Hb). exists h, info, mh.
  eapply bmm_backed_mono; [..|exact Hb]; rewrite ?Hh, ?Hi, ?Hmh, ?Hr, ?Hm; done.
Qed.
Lemma same_chain_successors a a' : same_chain a a' -> successors_ok a -> successors_ok a'.
Proof. intros Hc Hs b h. rewrite (sc_headers _ _ Hc), (sc_successors _ _ Hc). apply Hs. Qed.

Lemma put_header_successors `{Externals} a header a' :
  successors_ok a -> put_header a header = Ok a' -> successors_ok a'.
Proof.
  intros Hs (k & l & ps & s1 & s2 & mb & results & _ & (old & Hold & ->) & _ & _ & ->)%put_header_Ok.
  set (b := header_hash header). set (prev := hd_prev_side_hash header) in *.
  assert (forall q s, ar_successors a !! q = Some s -> exists s',
    ar_successors (put_bmm_results <[b := results]> (header_indexed a header k l ({[b]} ∪ old)
      (default ∅ (<[prev := {[b]} ∪ old]> (ar_successors a) !! Some b)))) !! q = Some s' /\
    s ⊆ s' /\ (q = prev -> b ∈ s')) as Hgrow.
  { intros q s Hq. cbn. fold b prev. destruct (decide (Some b = q)) as [<-|Hbq].
    - rewrite lookup_insert_eq. eexists. split; [done|].
      destruct (decide (prev = Some b)) as [Hpb|Hpb].
      + rewrite Hpb in Hold |- *. rewrite lookup_insert_eq. cbn. split; [congruence || set_solver|set_solver].
      + rewrite lookup_insert_ne, Hq by done. cbn. split; [done|congruence].
    - rewrite lookup_insert_ne by done. destruct (decide (prev = q)) as [Hpq|Hpq].
      + rewrite Hpq in Hold |- *. rewrite lookup_insert_eq. eexists. split; [done|]. split; [|set_solver].
        rewrite Hq in Hold. injection Hold as ->. set_solver.
      + rewrite lookup_insert_ne by done. exists s. split_and!; [done|done|congruence]. }
  intros c h Hc. cbn in Hc. fold b in Hc. rewrite lookup_insert_Some in Hc. destruct Hc as [[<- <-]|[Hne Hc]].
  - split; [cbn; fold b; rewrite lookup_insert_eq; by eexists|].
    destruct (Hgrow prev old Hold) as (s' & Hs' & _ & Hin). exists s'. split; [done|]. by apply Hin.
  - destruct (Hs c h Hc) as [[s Hcs] (s0 & Hs0 & Hin)]. split.
    + destruct (Hgrow _ _ Hcs) as (s' & Hs' & _). by exists s'.
    + destruct (Hgrow _ _ Hs0) as (s' & Hs' & Hsub & _). exists s'. split; [done|set_solver].
Qed.

(** ** Connecting tips *)

(** Two blocks are not verified at one mainchain block. *)
Lemma verified_unique a b b' m :
  archive_wf a -> get_bmm_results a b !! m = Some Bmm_Verified ->
  get_bmm_results a b' !! m = Some Bmm_Verified -> b = b'.
Proof.
  intros Hw H1 H2. destruct (verified_commitment a Hw _ _ H1) as (i & Hi & Hc).
  destruct (verified_commitment a Hw _ _ H2) as (i' & Hi' & Hc'). congruence.
Qed.

Lemma connect_tip_ok a b header m w t :
  archive_wf a -> side_tips_ok a -> ar_headers a !! b = Some header ->
  get_bmm_results a b !! m = Some Bmm_Verified ->
  (forall p, hd_prev_side_hash header = Some p -> is_tip a p) ->
  connect_sidechain_tip (ar_side_tips a) m w b (header_data header) = Ok t ->
  side_tips_ok (put_side_tips t a) /\
  sd_sidechain_tips (ar_side_tips a) ⊆ sd_sidechain_tips t /\
  sd_mainchain_tip t = sd_mainchain_tip (ar_side_tips a) /\ is_Some (sd_sidechain_tips t !! b).
Proof.
  intros Hw [Ht Hv Hc] Hh Hm Hp Hcon. pose proof (connect_sidechain_tip_present _ _ _ _ _ _ Hcon) as Hb'.
  destruct (sd_sidechain_tips (ar_side_tips a) !! b) as [i|] eqn:Hb.
  { unfold connect_sidechain_tip in Hcon. apply bind_Ok in Hcon as (? & _ & Hcon). rewrite Hb in Hcon.
    injection Hcon as <-. split; [|done]. by destruct a. }
  pose proof Hcon as Hnew. apply connect_sidechain_tip_new in Hnew as (i & Hi & _ & ->); [|done].
  assert (main_unused (ar_side_tips a) m) as Hun.
  { intros b1 i1 Hb1 Heq. apply Hv in Hb1 as Hb1v. rewrite Heq in Hb1v.
    rewrite (verified_unique a b b1 m Hw Hm Hb1v) in Hb. congruence. }
  split; [|split_and!; [by apply insert_subseteq|done|done]]. split.
  - by eapply connect_sidechain_tip_wf.
  - intros b1 i1 Hb1. cbn in Hb1. rewrite lookup_insert_Some in Hb1.
    destruct Hb1 as [[<- <-]|[_ Hb1]]; [by rewrite Hi|by apply Hv].
  - intros b1 p [Hb1 (h1 & Hh1 & Hp1)]. unfold is_tip in *. cbn in Hb1 |- *.
    destruct (decide (b = p)) as [->|Hbp]; [by rewrite lookup_insert_eq|]. rewrite lookup_insert_ne by done.
    destruct (decide (b1 = b)) as [->|Hbb]; [apply Hp; cbn in Hh1; congruence|].
    rewrite lookup_insert_ne in Hb1 by done. apply (Hc b1 p). split; [done|]. by exists h1.
Qed.

(** A state of the side tips that a loop of [put_body] reaches *)
Record tips_grow (a a' : Archive) : Prop := {
  tg_chain : same_chain a a';
  tg_bodies : ar_bodies a' = ar_bodies a;
  tg_inclusions : ar_txid_to_inclusions a' = ar_txid_to_inclusions a;
  tg_tips : sd_sidechain_tips (ar_side_tips a) ⊆ sd_sidechain_tips (ar_side_tips a');
  tg_main : sd_mainchain_tip (ar_side_tips a') = sd_mainchain_tip (ar_side_tips a);
}.
#[export] Instance tips_grow_preorder : PreOrder tips_grow.
Proof.
  split; [by split|]. intros a b c [] []. split; try congruence; by etransitivity.
Qed.

Lemma parent_connected_true a header :
  parent_connected a header = true <-> forall p, hd_prev_side_hash header = Some p -> is_tip a p.
Proof.
  unfold parent_connected, is_tip. destruct (hd_prev_side_hash header) as [p|]; [|by split].
  rewrite bool_decide_eq_true. split; [by intros ? ? [= <-]|auto].
Qed.

Lemma connect_result_ok mt b header a c m r a' c' :
  archive_wf a -> side_tips_ok a -> ar_headers a !! b = Some header ->
  get_bmm_results a b !! m = Some r ->
  connect_result mt b header (a, c) (m, r) = Ok (a', c') ->
  side_tips_ok a' /\ tips_grow a a' /\
  (r = Bmm_Verified -> (forall p, hd_prev_side_hash header = Some p -> is_tip a p) ->
    ancestor (ix_parent (main_index a)) m mt -> is_tip a' b).
Proof.
  intros Hw Hs Hh Hr Hc. unfold connect_result in Hc. destruct r; [|by injection Hc as <- <-].
  pose proof (parent_connected_true a header) as Hpc. destruct (parent_connected a header).
  2: { cbn in Hc. injection Hc as <- <-. split_and!; [done|done|]. intros _ Hp. by apply Hpc in Hp. }
  cbn [negb] in Hc. apply bind_Ok in Hc as (d & Hd & Hc).
  pose proof (is_main_descendant_Ok _ _ _ _ (aw_main _ Hw) Hd) as Hdesc. destruct d.
  2: { injection Hc as <- <-. split_and!; [done|done|]. intros _ _ Ha. by apply Hdesc in Ha. }
  apply bind_Ok in Hc as (w & _ & Hc). apply bind_Ok in Hc as (t & Ht%map_err_Ok & [= <- <-]).
  destruct (connect_tip_ok a b header m w t) as (Hok & Hsub & Hmt & Hb); [done..|by apply Hpc|done|].
  split_and!; [done| |done]. split; try done.
Qed.

Lemma connect_results_ok mt b header l : forall a c a' c',
  archive_wf a -> side_tips_ok a -> ar_headers a !! b = Some header ->
  (forall m r, (m, r) ∈ l -> get_bmm_results a b !! m = Some r) ->
  fold_res (connect_result mt b header) l (a, c) = Ok (a', c') ->
  side_tips_ok a' /\ tips_grow a a'.
Proof.
  induction l as [|[m r] l IH]; intros a c a' c' Hw Hs Hh Hl Hf; cbn in Hf.
  { by injection Hf as <- <-. }
  apply bind_Ok in Hf as ([a1 c1] & Hc & Hf).
  destruct (connect_result_ok mt b header a c m r a1 c1) as (Hs1 & Hg & _);
    [done..|apply Hl, list_elem_of_here|done|].
  destruct (IH a1 c1 a' c') as (Hs' & Hg'); [by eapply same_chain_wf, Hw; apply Hg|done| | |done|].
  - by rewrite (sc_headers _ _ (tg_chain _ _ Hg)).
  - intros m' r' Hm. unfold get_bmm_results. rewrite (sc_results _ _ (tg_chain _ _ Hg)).
    by apply Hl, list_elem_of_further.
  - split; [done|]. by etransitivity.
Qed.

Lemma tips_grow_tip a a' b : tips_grow a a' -> is_tip a b -> is_tip a' b.
Proof. intros Hg [i Hi]. exists i. eapply lookup_weaken; [exact Hi|apply Hg]. Qed.

(** A result that is verified in the mainchain makes a block a tip. *)
Definition connectable (a : Archive) (mt : MainBlockHash) (header : Header) (m : MainBlockHash) : Prop :=
  (forall p, hd_prev_side_hash header = Some p -> is_tip a p) /\
  ancestor (ix_parent (main_index a)) m mt.
Lemma connectable_grow a a' mt header m :
  tips_grow a a' -> connectable a mt header m -> connectable a' mt header m.
Proof.
  intros Hg [Hp Ha]. split; [|by rewrite (sc_main _ _ (tg_chain _ _ Hg))].
  intros p Hpp. eapply tips_grow_tip; [done|]. by apply Hp.
Qed.
Lemma connect_results_tip mt b header l m0 : forall a c a' c',
  archive_wf a -> side_tips_ok a -> ar_headers a !! b = Some header ->
  (forall m r, (m, r) ∈ l -> get_bmm_results a b !! m = Some r) ->
  fold_res (connect_result mt b header) l (a, c) = Ok (a', c') ->
  (m0, Bmm_Verified) ∈ l -> connectable a mt header m0 -> is_tip a' b.
Proof.
  induction l as [|[m r] l IH]; intros a c a' c' Hw Hs Hh Hl Hf Hin Hcn; [by apply not_elem_of_nil in Hin|].
  cbn in Hf. apply bind_Ok in Hf as ([a1 c1] & Hc & Hf).
  destruct (connect_result_ok mt b header a c m r a1 c1) as (Hs1 & Hg & Htip);
    [done..|apply Hl, list_elem_of_here|done|].
  assert (archive_wf a1) as Hw1 by (by eapply same_chain_wf, Hw; apply Hg).
  assert (ar_headers a1 !! b = Some header) as Hh1 by (by rewrite (sc_headers _ _ (tg_chain _ _ Hg))).
  assert (forall m r, (m, r) ∈ l -> get_bmm_results a1 b !! m = Some r) as Hl1.
  { intros m' r' Hm. unfold get_bmm_results. rewrite (sc_results _ _ (tg_chain _ _ Hg)).
    by apply Hl, list_elem_of_further. }
  apply elem_of_cons in Hin as [[= -> <-]|Hin].
  - destruct (connect_results_ok mt b header l a1 c1 a' c') as [_ Hg']; [done..|].
    eapply tips_grow_tip; [exact Hg'|]. apply Htip; [done|apply Hcn..].
  - eapply IH; [exact Hw1|exact Hs1|exact Hh1|exact Hl1|exact Hf|exact Hin|by eapply connectable_grow].
Qed.

Lemma update_side_tips_ok mt b header a a' q :
  archive_wf a -> side_tips_ok a -> ar_headers a !! b = Some header ->
  update_side_tips mt b header a = Ok (a', q) -> side_tips_ok a' /\ tips_grow a a' /\
  forall m, get_bmm_results a b !! m = Some Bmm_Verified -> connectable a mt header m -> is_tip a' b.
Proof.
  intros Hw Hs Hh Hu. unfold update_side_tips in Hu. apply bind_Ok in Hu as ([a1 c] & Hf & Hu).
  assert (a' = a1) as ->.
  { destruct c; [|by injection Hu as <- _]. by apply bind_Ok in Hu as (s & _ & [= <- _]). }
  assert (forall m r, (m, r) ∈ map_to_list (get_bmm_results a b) ->
    get_bmm_results a b !! m = Some r) as Hl by (intros m r; by apply elem_of_map_to_list).
  destruct (connect_results_ok mt b header _ _ _ _ _ Hw Hs Hh Hl Hf) as [Hs1 Hg].
  split_and!; [done|done|]. intros m Hm Hcn. eapply connect_results_tip; [done..|exact Hf| |exact Hcn].
  by apply elem_of_map_to_list.
Qed.

Lemma update_side_tips_loop_ok mt fuel : forall q a a',
  archive_wf a -> side_tips_ok a -> update_side_tips_loop fuel mt q a = Ok a' ->
  side_tips_ok a' /\ tips_grow a a'.
Proof.
  induction fuel as [|fuel IH]; intros [|b q] a a' Hw Hs Hl; cbn [update_side_tips_loop] in Hl;
    try done; try (by injection Hl as <-).
  destruct (negb _); [by eapply IH|]. apply bind_Ok in Hl as (header & Hh%ok_or_Ok & Hl).
  apply bind_Ok in Hl as ([a1 s] & Hu & Hl).
  destruct (update_side_tips_ok _ _ _ _ _ _ Hw Hs Hh Hu) as (Hs1 & Hg & _).
  destruct (IH _ _ _ (same_chain_wf _ _ (tg_chain _ _ Hg) Hw) Hs1 Hl) as [Hs' Hg'].
  split; [done|]. by etransitivity.
Qed.

(** ** Storing a body *)

(** The loops change the side tips only, whatever they are. *)
Lemma connect_results_same mt b header l : forall a c a' c',
  fold_res (connect_result mt b header) l (a, c) = Ok (a', c') -> same_archive a a'.
Proof.
  induction l as [|[m r] l IH]; intros a c a' c' Hf; cbn in Hf; [by injection Hf as <- <-|].
  apply bind_Ok in Hf as ([a1 c1] & Hc & Hf). etransitivity; [|by eapply IH].
  unfold connect_result in Hc. destruct r; [|by injection Hc as <- <-].
  destruct (negb _); [by injection Hc as <- <-|]. apply bind_Ok in Hc as (d & _ & Hc).
  destruct d; [|by injection Hc as <- <-]. apply bind_Ok in Hc as (w & _ & Hc).
  apply bind_Ok in Hc as (t & _ & [= <- <-]). by exists t.
Qed.
Lemma update_side_tips_same mt b header a a' q :
  update_side_tips mt b header a = Ok (a', q) -> same_archive a a'.
Proof.
  intros Hu. unfold update_side_tips in Hu. apply bind_Ok in Hu as ([a1 c] & Hf & Hu).
  apply connect_results_same in Hf. destruct c; [|by injection Hu as <- _].
  by apply bind_Ok in Hu as (s & _ & [= <- _]).
Qed.
Lemma update_side_tips_loop_same mt fuel : forall q a a',
  update_side_tips_loop fuel mt q a = Ok a' -> same_archive a a'.
Proof.
  induction fuel as [|fuel IH]; intros [|b q] a a' Hl; cbn [update_side_tips_loop] in Hl;
    try done; try (by injection Hl as <-).
  destruct (negb _); [by eapply IH|]. apply bind_Ok in Hl as (header & _ & Hl).
  apply bind_Ok in Hl as ([a1 s] & Hu & Hl). etransitivity; [by eapply update_side_tips_same|by eapply IH].
Qed.

Section bodies.
Context `{Externals}.

Lemma put_inclusion_frame b l : forall a, exists f,
  foldl (put_inclusion b) a l = put_inclusions f a.
Proof.
  induction l as [|tx l IH]; intros a; [by exists (fun m => m); destruct a|]. cbn [foldl].
  destruct (IH (put_inclusion b a tx)) as [f ->].
  by exists (fun m => f (<[txid tx.2 := <[b := tx.1]> (default ∅ (m !! txid tx.2))]> m)).
Qed.
Lemma delete_inclusion_frame b l : forall a, exists f,
  foldl (delete_inclusion b) a l = put_inclusions f a.
Proof.
  induction l as [|tx l IH]; intros a; [by exists (fun m => m); destruct a|]. cbn [foldl].
  destruct (IH (delete_inclusion b a tx)) as [f ->]. unfold delete_inclusion. case_decide.
  - by exists (fun m => f (delete (txid tx) m)).
  - by exists (fun m => f (<[txid tx := delete b (default ∅ (m !! txid tx))]> m)).
Qed.

(** The archive when [put_body] comes to the side tips *)
Definition body_stored (a : Archive) (b : BlockHash) (body : Body) : Archive :=
  foldl (put_inclusion b) (put_bodies <[b := body]> a) (enumerate (bd_transactions body)).
Lemma body_stored_frame a b body : exists f,
  body_stored a b body = put_inclusions f (put_bodies <[b := body]> a).
Proof. apply put_inclusion_frame. Qed.

Lemma put_body_Ok a b body a' :
  put_body a b body = Ok a' -> exists header a1 q,
    let mt := main_tip_block_hash (sd_mainchain_tip (ar_side_tips a)) in
    ar_headers a !! b = Some header /\
    update_side_tips mt b header (body_stored a b body) = Ok (a1, q) /\
    update_side_tips_loop (size (ar_headers a)) mt q a1 = Ok a'.
Proof.
  intros Hp. unfold put_body in Hp. apply bind_Ok in Hp as (header & Hh%ok_or_Ok & Hp).
  fold (body_stored a b body) in Hp. apply bind_Ok in Hp as ([a1 q] & Hu & Hl).
  destruct (body_stored_frame a b body) as [f Hf]. exists header, a1, q.
  pose proof (same_archive_chain _ _ (update_side_tips_same _ _ _ _ _ _ Hu)) as Hc.
  assert (ar_headers a1 = ar_headers a) as Hha by (rewrite (sc_headers _ _ Hc), Hf; done).
  assert (ar_side_tips (body_stored a b body) = ar_side_tips a) as Hst by (by rewrite Hf).
  rewrite Hst in Hu, Hl. rewrite Hha in Hl. done.
Qed.
(** Up to the side tips, the body and its transactions are what is new. *)
Lemma put_body_same a b body a' :
  put_body a b body = Ok a' -> same_archive (body_stored a b body) a'.
Proof.
  intros (header & a1 & q & _ & Hu & Hl)%put_body_Ok.
  etransitivity; [by eapply update_side_tips_same|by eapply update_side_tips_loop_same].
Qed.
Lemma put_body_chain a b body a' : put_body a b body = Ok a' -> same_chain a a'.
Proof.
  intros Hs%put_body_same. etransitivity; [|by apply same_archive_chain].
  destruct (body_stored_frame a b body) as [f ->]. by split.
Qed.
Lemma put_body_stored a b body a' : put_body a b body = Ok a' -> ar_bodies a' = <[b := body]> (ar_bodies a).
Proof.
  intros [t ->]%put_body_same. cbn. by destruct (body_stored_frame a b body) as [f ->].
Qed.

(** ** Deleting a body *)

Lemma disconnect_tips_chain fuel : forall q a a',
  disconnect_tips_loop fuel q a = Ok a' -> same_chain a a' /\ ar_bodies a' = ar_bodies a.
Proof.
  induction fuel as [|fuel IH]; intros [|b q] a a' Hl; cbn [disconnect_tips_loop] in Hl;
    try done; try (by injection Hl as <-).
  destruct (_ !! b) as [i|]; [|by eapply IH]. apply bind_Ok in Hl as (s & _ & Hl).
  apply IH in Hl as [Hc Hb]. split; [|done]. etransitivity; [|exact Hc]. apply same_chain_tips.
Qed.
Lemma delete_body_chain a b body a' : delete_body a b body = Ok a' -> same_chain a a'.
Proof.
  intros Hd. unfold delete_body in Hd. apply disconnect_tips_chain in Hd as [Hc _].
  etransitivity; [|exact Hc]. destruct (delete_inclusion_frame b (bd_transactions body) (put_bodies (delete b) a))
    as [f ->]. by split.
Qed.
End bodies.

(** A state of the loop: tips whose parent is gone are in the queue. *)
Record disconnecting (q : list BlockHash) (a : Archive) : Prop := {
  dc_tables : tips_wf (ar_side_tips a);
  dc_verified b i : sd_sidechain_tips (ar_side_tips a) !! b = Some i ->
    get_bmm_results a b !! sti_main_block_hash i = Some Bmm_Verified;
  dc_closed b p : tip_parent a b p -> is_tip a p \/ b ∈ q;
  dc_headers b : is_tip a b -> is_Some (ar_headers a !! b);
}.

Lemma disconnect_sidechain_tip_lookup t b c :
  sd_sidechain_tips (disconnect_sidechain_tip t b) !! c =
  if decide (c = b) then None else sd_sidechain_tips t !! c.
Proof.
  unfold disconnect_sidechain_tip. destruct (sd_sidechain_tips t !! b) as [i|] eqn:Hb; cbn; case_decide as Hc.
  - subst. apply lookup_delete_eq.
  - by apply lookup_delete_ne.
  - by subst.
  - done.
Qed.

Lemma disconnecting_step a b q s :
  successors_ok a -> ar_successors a !! Some b = Some s -> disconnecting (b :: q) a ->
  disconnecting (q ++ elements s) (put_side_tips (disconnect_sidechain_tip (ar_side_tips a) b) a).
Proof.
  intros Hs Hb [Ht Hv Hc Hh]. unfold tip_parent, is_tip in *. split.
  - by apply disconnect_sidechain_tip_wf.
  - intros c i. cbn. rewrite disconnect_sidechain_tip_lookup. case_decide; [done|]. apply Hv.
  - intros c p. unfold tip_parent, is_tip. cbn. rewrite !disconnect_sidechain_tip_lookup.
    intros [Htip (h & Hch & Hp)]. case_decide as Hcb; [by destruct Htip|].
    rewrite elem_of_app, elem_of_elements. case_decide as Hpb.
    + subst p. destruct (Hs c h Hch) as [_ (s' & Hs' & Hin)]. rewrite Hp, Hb in Hs'. set_solver.
    + destruct (Hc c p) as [?|Hin%elem_of_cons]; [|auto|naive_solver]. split; [done|]. by exists h.
  - intros c. unfold is_tip. cbn. rewrite disconnect_sidechain_tip_lookup. case_decide; [by intros [? ?]|]. apply Hh.
Qed.
Lemma disconnecting_skip a b q :
  sd_sidechain_tips (ar_side_tips a) !! b = None -> disconnecting (b :: q) a -> disconnecting q a.
Proof.
  intros Hb [Ht Hv Hc Hh]. split; [done..| |done]. intros c p Hp.
  destruct (Hc c p Hp) as [?|[->|?]%elem_of_cons]; [auto| |auto]. destruct Hp as [[i Hi] _]. congruence.
Qed.

(** The number of turns left *)
Definition tips_successors (a : Archive) : nat :=
  sum_list (n_successors a <$> (map_to_list (sd_sidechain_tips (ar_side_tips a))).*1).
Lemma tips_successors_disconnect a b i s :
  sd_sidechain_tips (ar_side_tips a) !! b = Some i -> ar_successors a !! Some b = Some s ->
  tips_successors a =
    (size s + tips_successors (put_side_tips (disconnect_sidechain_tip (ar_side_tips a) b) a))%nat.
Proof.
  intros Hb Hs. unfold tips_successors, disconnect_sidechain_tip. rewrite Hb. cbn.
  pose proof (map_to_list_delete _ _ _ Hb) as Hp. apply (fmap_Permutation fst) in Hp.
  apply (fmap_Permutation (n_successors a)) in Hp. rewrite <-(sum_list_Permutation _ _ Hp). cbn.
  unfold n_successors at 1. by rewrite Hs.
Qed.

Lemma disconnect_tips_Ok fuel : forall q a,
  (length q + tips_successors a <= fuel)%nat -> successors_ok a -> disconnecting q a ->
  exists a', disconnect_tips_loop fuel q a = Ok a' /\ disconnecting [] a' /\
    sd_sidechain_tips (ar_side_tips a') ⊆ sd_sidechain_tips (ar_side_tips a) /\
    sd_mainchain_tip (ar_side_tips a') = sd_mainchain_tip (ar_side_tips a) /\
    forall b, b ∈ q -> ~ is_tip a' b.
Proof.
  induction fuel as [|fuel IH]; intros [|b q] a Hf Hs Hd; cbn [length] in Hf; try lia;
    try (exists a; split_and!; try done; intros b ?%not_elem_of_nil; done).
  cbn [disconnect_tips_loop]. destruct (sd_sidechain_tips (ar_side_tips a) !! b) as [i|] eqn:Hb.
  - destruct (dc_headers _ _ Hd b) as [h Hh]; [by exists i|]. destruct (Hs b h Hh) as [[s Hsb] _].
    set (a1 := put_side_tips _ a).
    assert (get_successors a1 (Some b) = Ok s) as -> by (unfold get_successors; cbn; by rewrite Hsb).
    cbn [mbind result_bind].
    rewrite (tips_successors_disconnect a b i s Hb Hsb) in Hf. fold a1 in Hf.
    destruct (IH (q ++ elements s) a1) as (a' & -> & Hd' & Hsub & Hmt & Hq); [|done|by apply disconnecting_step|].
    { rewrite length_app. change (length (elements s)) with (size s). lia. }
    exists a'. split; [done|].
    assert (sd_sidechain_tips (ar_side_tips a1) = delete b (sd_sidechain_tips (ar_side_tips a))) as Ht1.
    { cbn. unfold disconnect_sidechain_tip. by rewrite Hb. }
    rewrite Ht1 in Hsub. split_and!; [done| | |].
    + etransitivity; [exact Hsub|]. apply delete_subseteq.
    + rewrite Hmt. cbn. unfold disconnect_sidechain_tip. by rewrite Hb.
    + intros c [->|Hc]%elem_of_cons [j Hj]; [|by eapply Hq; [apply elem_of_app; left|exists j]].
      eapply lookup_weaken in Hj; [|exact Hsub]. by rewrite lookup_delete_eq in Hj.
  - destruct (IH q a) as (a' & -> & Hd' & Hsub & Hmt & Hq); [lia|done|by eapply disconnecting_skip|].
    exists a'. split_and!; try done. intros c [->|Hc]%elem_of_cons [j Hj]; [|by eapply Hq; [|exists j]].
    eapply lookup_weaken in Hj; [|exact Hsub]. congruence.
Qed.

Lemma put_body_tips `{Externals} a b body a' :
  archive_wf a -> side_tips_ok a -> put_body a b body = Ok a' ->
  side_tips_ok a' /\ tips_grow (body_stored a b body) a' /\
  forall m header, ar_headers a !! b = Some header -> get_bmm_results a b !! m = Some Bmm_Verified ->
    connectable a (main_tip_block_hash (sd_mainchain_tip (ar_side_tips a))) header m -> is_tip a' b.
Proof.
  intros Hw Hs (header & a1 & q & Hh & Hu & Hl)%put_body_Ok.
  destruct (body_stored_frame a b body) as [f Hf]. rewrite Hf in Hu |- *.
  assert (side_tips_ok (put_inclusions f (put_bodies <[b := body]> a))) as Hs0 by (by destruct Hs).
  assert (same_chain a (put_inclusions f (put_bodies <[b := body]> a))) as Hc0 by done.
  destruct (update_side_tips_ok _ _ _ _ _ _ (same_chain_wf _ _ Hc0 Hw) Hs0 Hh Hu) as (Hs1 & Hg1 & Htip).
  assert (archive_wf a1) as Hw1 by (eapply same_chain_wf, Hw; etransitivity; [exact Hc0|apply Hg1]).
  destruct (update_side_tips_loop_ok _ _ _ _ _ Hw1 Hs1 Hl) as [Hs2 Hg2].
  split_and!; [done|by etransitivity|].
  intros m h Hh' Hm Hcn. rewrite Hh in Hh'. injection Hh' as <-.
  eapply tips_grow_tip; [exact Hg2|]. by apply (Htip m).
Qed.
Lemma put_body_wf_tips `{Externals} a b body a' :
  archive_wf a -> side_tips_ok a -> put_body a b body = Ok a' -> archive_wf a' /\ side_tips_ok a'.
Proof.
  intros Hw Hs Hp. split; [eapply same_chain_wf; [by eapply put_body_chain|done]|].
  by destruct (put_body_tips _ _ _ _ Hw Hs Hp).
Qed.

(** ** Properties *)

(** Storing a body keeps the side tips consistent: the tables of tips agree, every
    tip is verified at the mainchain block it records and has its parent among the tips.
    Tips are only added, and the block becomes a tip when it is verified in the
    mainchain and its parent is a tip. *)
Theorem put_body_keeps_tips `{Externals} (a a' : Archive) (b : BlockHash) (body : Body) :
  archive_wf a -> side_tips_ok a -> put_body a b body = Ok a' ->
  archive_wf a' /\ side_tips_ok a' /\ ar_bodies a' = <[b := body]> (ar_bodies a) /\
  sd_sidechain_tips (ar_side_tips a) ⊆ sd_sidechain_tips (ar_side_tips a') /\
  forall m header, ar_headers a !! b = Some header -> get_bmm_results a b !! m = Some Bmm_Verified ->
    connectable a (main_tip_block_hash (sd_mainchain_tip (ar_side_tips a))) header m -> is_tip a' b.
Proof.
  intros Hw Hs Hp. destruct (put_body_wf_tips _ _ _ _ Hw Hs Hp) as [Hw' Hs'].
  destruct (put_body_tips _ _ _ _ Hw Hs Hp) as (_ & Hg & Htip).
  destruct (body_stored_frame a b body) as [f Hf]. rewrite Hf in Hg.
  split_and!; [done|done|by rewrite (tg_bodies _ _ Hg)|by apply (tg_tips _ _ Hg)|].
  intros m header. apply Htip.
Qed.

(** Deleting a body terminates without error and disconnects the block and the tips
    that build on it: the side tips stay consistent, none is added, and the block is no
    tip. *)
Theorem delete_body_disconnects `{Externals} (a : Archive) (b : BlockHash) (body : Body) :
  archive_wf a -> side_tips_ok a -> successors_ok a ->
  exists a', delete_body a b body = Ok a' /\ side_tips_ok a' /\ archive_wf a' /\
    ar_bodies a' = delete b (ar_bodies a) /\ ~ is_tip a' b /\
    sd_sidechain_tips (ar_side_tips a') ⊆ sd_sidechain_tips (ar_side_tips a).
Proof.
  intros Hw Hs Hsc. destruct (delete_inclusion_frame b (bd_transactions body) (put_bodies (delete b) a)) as [f Hf].
  set (a1 := put_inclusions f (put_bodies (delete b) a)) in *.
  assert (same_chain a a1) as Hc1 by done.
  assert (disconnecting [b] a1) as Hd.
  { destruct Hs as [Ht Hv Hcl]. split; [done|done|intros c p Hcp; left; by apply (Hcl c p)|].
    intros c [i Hi]. destruct (aw_verified _ Hw c _ (Hv c i Hi)) as (h & ? & ? & []). by exists h. }
  destruct (disconnect_tips_Ok (disconnect_fuel a1) [b] a1) as (a' & Ha' & Hd' & Hsub & _ & Hq);
    [done|done|done|].
  pose proof (disconnect_tips_chain _ _ _ _ Ha') as [Hc' Hb'].
  exists a'. split; [unfold delete_body; by rewrite Hf|]. split_and!.
  - destruct Hd' as [H1 H2 H3 _]. split; [done|done|]. intros c p Hcp.
    by destruct (H3 c p Hcp) as [?|?%not_elem_of_nil].
  - by eapply same_chain_wf, same_chain_wf, Hw.
  - by rewrite Hb'.
  - apply Hq, list_elem_of_here.
  - done.
Qed.
