(* ===== verification/ArchiveQueries.v ===== *)
(** * What the archive answers

    The archives that can be built from the empty one, and the properties of their
    queries: ancestors, common ancestors, and the meaning of a verified BMM result. *)

From S2P Require Import Prelude Types Transaction Merkle Sample SideTips Lineage Archive.
From S2P Require Import ArchiveTree ArchiveWf ArchiveBodies TipsWf.

(** ** Reachable archives *)

Section reachable.
Context `{Externals} `{WorkExternals}.

(** The operations of the archive but [invalidate_block], which leaves the BMM results of
    the blocks it removes *)
Inductive archive_step (a : Archive) : Archive -> Prop :=
| step_put_header header a' :
    header_storable a header -> put_header a header = Ok a' -> archive_step a a'
| step_put_main_header_info info a' :
    main_header_storable a info -> put_main_header_info a info = Ok a' -> archive_step a a'
| step_put_main_block_info m info a' :
    info_storable a m info -> put_main_block_info a m info = Ok a' -> archive_step a a'
| step_put_body b body a' : put_body a b body = Ok a' -> archive_step a a'
| step_delete_body b body a' : delete_body a b body = Ok a' -> archive_step a a'
| step_connect_mainchain_tip info c t :
    connect_mainchain_tip (ar_side_tips a) info c = Ok t -> archive_step a (put_side_tips t a)
| step_disconnect_mainchain_tip info c t :
    disconnect_mainchain_tip (ar_side_tips a) info c = Ok t -> archive_step a (put_side_tips t a).

Inductive archive_reachable : Archive -> Prop :=
| reach_new : archive_reachable archive_new
| reach_step a a' : archive_reachable a -> archive_step a a' -> archive_reachable a'.

Lemma archive_step_wf a a' : archive_wf a -> archive_step a a' -> archive_wf a'.
Proof.
  intros Hw [header a1 Hst Hp|info a1 Hst Hp|m info a1 Hst Hp|b body a1 Hp|b body a1 Hp|info c t Hp|info c t Hp].
  - by eapply put_header_wf.
  - by eapply put_main_header_info_wf.
  - by eapply put_main_block_info_wf.
  - eapply same_chain_wf; [by eapply put_body_chain|done].
  - eapply same_chain_wf; [by eapply delete_body_chain|done].
  - eapply same_chain_wf; [apply same_chain_tips|done].
  - eapply same_chain_wf; [apply same_chain_tips|done].
Qed.
Lemma archive_reachable_wf a : archive_reachable a -> archive_wf a.
Proof. induction 1 as [|a a' _ IH Hs]; [apply archive_new_wf|by eapply archive_step_wf]. Qed.
End reachable.

(** ** Properties *)



Lemma last_common_ancestor_Ok (a : Archive) (b0 b1 : BlockHash) (k0 k1 : u32) :
  index_wf (side_index a) -> archive_try_get_height a b0 = Some k0 ->
  archive_try_get_height a b1 = Some k1 -> N.min k0 k1 < 2 ^ 31 ->
  exists r, last_common_ancestor a b0 b1 = Ok r /\
    match r with
    | Some c => last_common (ix_parent (side_index a)) b0 b1 c
    | None => forall c, ancestor (ix_parent (side_index a)) c b0 ->
        ~ ancestor (ix_parent (side_index a)) c b1
    end.
Proof.
  intros Hw Hk0 Hk1 Hmin. pose proof (side_lineage_ok a Hw) as Hl. pose proof (index_tree _ Hw) as Ht.
  unfold last_common_ancestor, get_nth_ancestor.
  destruct (equalize_Ok Hl b0 b1 k0 k1 Hk0 Hk1) as (a0 & a1 & -> & Ha0 & Ha1 & Hb0 & Hb1).
  cbn [mbind result_bind].
  assert (forall c, last_common (ix_parent (side_index a)) a0 a1 c ->
    last_common (ix_parent (side_index a)) b0 b1 c) as Heq.
  { intros c. by apply (equalize_common Hl b0 b1 k0 k1 a0 a1 c). }
  destruct (N.eqb_spec a0 a1) as [->|Hne].
  { exists (Some a1). split; [done|]. apply Heq. split; [apply ancestor_refl..|done]. }
  destruct (nth_ancestor_Ok Hl a0 _ _ Ha0 (N.le_refl _)) as (r0 & -> & Hr0 & _).
  destruct (nth_ancestor_Ok Hl a1 _ _ Ha1 (N.le_refl _)) as (r1 & -> & Hr1 & _).
  cbn [mbind result_bind]. destruct (N.eqb_spec r0 r1) as [->|Hner]; cbn [negb].
  - destruct (search_common_Ok Hl a0 a1 _ Ha0 Ha1 Hmin Hne) as (c & -> & Hc);
      [unfold agree; congruence|]. exists (Some c). split; [done|]. by apply Heq.
  - exists None. split; [done|]. intros c Hc0 Hc1.
    eapply (roots_disagree Hl a0 a1 (N.min k0 k1)); [done|done|unfold agree; congruence|..];
      [by apply (common_below Ht b0 b1 k0 k1)|].
    apply (common_below Ht b1 b0 k1 k0); try done. by rewrite N.min_comm.
Qed.

(** [last_common_ancestor] finds the last block that two blocks both descend from,
    or that there is none: the binary search over depths terminates and is exact, for
    heights below [2 ^ 31]. *)
Theorem last_common_ancestor_correct `{Externals} `{WorkExternals} (a : Archive) (b0 b1 : BlockHash)
    (k0 k1 : u32) :
  archive_reachable a -> archive_try_get_height a b0 = Some k0 ->
  archive_try_get_height a b1 = Some k1 -> N.min k0 k1 < 2 ^ 31 ->
  exists r, last_common_ancestor a b0 b1 = Ok r /\
    match r with
    | Some c => last_common (ix_parent (side_index a)) b0 b1 c
    | None => forall c, ancestor (ix_parent (side_index a)) c b0 ->
        ~ ancestor (ix_parent (side_index a)) c b1
    end.
Proof. intros Hr. by apply last_common_ancestor_Ok, aw_side, archive_reachable_wf. Qed.
