(* ===== verification/ArchiveSamples.v ===== *)
(** * A sample archive

    Five mainchain blocks in a row and three sidechain blocks committed to in them, a
    parent with two children, stored in an archive with the sample externals. *)

From S2P Require Import Prelude Types Transaction Merkle Sample SideTips Lineage Archive.
From S2P Require Import ArchiveTree ArchiveWf ArchiveBodies TipsWf ArchiveQueries.

Module ArchiveSamples.
#[export] Existing Instance Sample.externals.
#[export] Instance work_externals : WorkExternals := {|
  work_add := N.add;
  work_sub := N.sub;
  bincode_tip_info i := [sti_sidechain_height i; sti_work i; sti_main_block_hash i];
|}.
Lemma work : work_spec.
Proof. intros x y. cbn. lia. Qed.
Lemma bincode_tip_info_order : bincode_tip_info_spec.
Proof.
  intros i j. apply eq_true_iff_eq. cbn [bincode_tip_info work_externals bytes_ltb].
  rewrite negb_true_iff, <-not_true_iff_false. unfold tip_info_leb. rewrite triple_leb_spec.
  unfold tip_info_rank. cbn [fst snd].
  rewrite !orb_true_iff, !andb_true_iff, !orb_true_iff, !andb_true_iff, !N.ltb_lt, !N.eqb_eq.
  rewrite andb_false_r, orb_false_r, N.ltb_lt. lia.
Qed.

(** Mainchain blocks 101 to 105 *)
Definition main_header (n : N) : BlockHeaderInfo :=
  mkBlockHeaderInfo (101 + n) (if n =? 0 then all_zeros else 100 + n) n 10.
(** Sidechain blocks: [block0], and [block1] and [block2] on top of it *)
Definition header0 : Header := mkHeader 1 None 101.
Definition block0 : BlockHash := header_hash header0.
Definition header1 : Header := mkHeader 2 (Some block0) 102.
Definition block1 : BlockHash := header_hash header1.
Definition header2 : Header := mkHeader 3 (Some block0) 103.
Definition block2 : BlockHash := header_hash header2.

Definition main_info (n : N) : BlockInfo :=
  mkBlockInfo (if n =? 1 then Some block0 else if n =? 2 then Some block1
               else if n =? 3 then Some block2 else None) [].

(** Storing a block when the archive is ready for it *)
Inductive Op : Type :=
| Op_header (header : Header)
| Op_main_header (info : BlockHeaderInfo)
| Op_main_info (m : MainBlockHash) (info : BlockInfo).
Definition absent {V} (o : option V) : bool := match o with None => true | Some _ => false end.
Definition below_max (o : option u32) : bool := match o with None => true | Some k => k <? u32_MAX end.
Definition run_op (a : Archive) (o : Op) : option Archive :=
  match o with
  | Op_header header =>
      if absent (ar_headers a !! header_hash header) &&
         below_max (p ← hd_prev_side_hash header; ar_block_hash_to_height a !! p)
      then match put_header a header with Ok a => Some a | _ => None end else None
  | Op_main_header info =>
      if absent (ar_main_header_infos a !! bhi_block_hash info) &&
         below_max (ar_main_block_hash_to_height a !! bhi_prev_block_hash info)
      then match put_main_header_info a info with Ok a => Some a | _ => None end else None
  | Op_main_info m info =>
      if absent (ar_main_block_infos a !! m)
      then match put_main_block_info a m info with Ok a => Some a | _ => None end else None
  end.
Lemma run_op_step a o a' : run_op a o = Some a' -> archive_step a a'.
Proof.
  assert (forall k, k <? u32_MAX = true -> k + 1 <= u32_MAX) as Hmax by (intros k ?%N.ltb_lt; lia).
  destruct o as [header|info|m info]; cbn; intros Hr.
  - destruct (ar_headers a !! _) eqn:Hn; [done|]. cbn in Hr. destruct (below_max _) eqn:Hb; [|done].
    destruct (put_header a header) eqn:Hp; simplify_eq. eapply step_put_header; [|exact Hp].
    split; [by left|]. intros p k Hp' Hk. rewrite Hp' in Hb. cbn in Hb. rewrite Hk in Hb. by apply Hmax.
  - destruct (ar_main_header_infos a !! _) eqn:Hn; [done|]. cbn in Hr. destruct (below_max _) eqn:Hb; [|done].
    destruct (put_main_header_info a info) eqn:Hp; simplify_eq. eapply step_put_main_header_info; [|exact Hp].
    split; [by left|]. intros k Hk. rewrite Hk in Hb. by apply Hmax.
  - destruct (ar_main_block_infos a !! _) eqn:Hn; [done|]. cbn in Hr.
    destruct (put_main_block_info a m info) eqn:Hp; simplify_eq.
    eapply step_put_main_block_info; [|exact Hp]. by left.
Qed.
Fixpoint run (ops : list Op) (a : Archive) : option Archive :=
  match ops with
  | [] => Some a
  | o :: ops => a ← run_op a o; run ops a
  end.
Lemma run_reachable ops a a' : archive_reachable a -> run ops a = Some a' -> archive_reachable a'.
Proof.
  revert a. induction ops as [|o ops IH]; intros a Ha Hr; cbn in Hr; [by injection Hr as <-|].
  destruct (run_op a o) as [a1|] eqn:Ho; [|done]. apply (IH a1); [|done].
  eapply reach_step; [done|]. by eapply run_op_step.
Qed.

Definition ops : list Op :=
  concat ((fun n => [Op_main_header (main_header n); Op_main_info (101 + n) (main_info n)]) <$>
    [0; 1; 2; 3; 4]) ++ [Op_header header0; Op_header header1; Op_header header2].
Definition archive : Archive := default archive_new (run ops archive_new).
Lemma archive_run : run ops archive_new = Some archive.
Proof. vm_compute. reflexivity. Qed.
Lemma archive_ok : archive_reachable archive.
Proof. exact (run_reachable ops archive_new archive reach_new archive_run). Qed.

(** The mainchain tip at the last mainchain block, and no side tip *)
Definition main_synced (a : Archive) : option Archive :=
  match fold_res (fun t n => connect_mainchain_tip t (main_header n) None) [0; 1; 2; 3; 4] (ar_side_tips a) with
  | Ok t => Some (put_side_tips t a)
  | _ => None
  end.
Lemma main_synced_chain a : same_chain a (default a (main_synced a)).
Proof. unfold main_synced. case_match; try reflexivity. apply same_chain_tips. Qed.
Definition synced : Archive := default archive (main_synced archive).
Lemma synced_wf : archive_wf synced.
Proof. exact (same_chain_wf _ _ (main_synced_chain archive) (archive_reachable_wf _ archive_ok)). Qed.
Lemma side_tips_empty a :
  sd_sidechain_tips (ar_side_tips a) = ∅ -> sd_ordered_sidechain_tips (ar_side_tips a) = ∅ -> side_tips_ok a.
Proof.
  intros Ht Ho. split.
  - intros b i. by rewrite Ht, Ho, !lookup_empty.
  - intros b i. by rewrite Ht, lookup_empty.
  - intros b p [[i Hi] _]. by rewrite Ht, lookup_empty in Hi.
Qed.
Lemma synced_tips : side_tips_ok synced.
Proof. apply side_tips_empty; vm_compute; reflexivity. Qed.

(** A check of [successors_ok] *)
Definition successors_okb (a : Archive) : bool :=
  forallb (fun p => negb (absent (ar_successors a !! Some p.1)) &&
    match ar_successors a !! hd_prev_side_hash p.2 with
    | Some s => bool_decide (p.1 ∈ s)
    | None => false
    end) (map_to_list (ar_headers a)).
Lemma successors_okb_sound a : successors_okb a = true -> successors_ok a.
Proof.
  intros Hb b h Hh. unfold successors_okb in Hb. rewrite forallb_forall in Hb.
  specialize (Hb (b, h)). rewrite <-list_elem_of_In, elem_of_map_to_list in Hb. specialize (Hb Hh). cbn in Hb.
  apply andb_true_iff in Hb as [H1 H2]. split.
  - destruct (ar_successors a !! Some b) as [s|]; [by exists s|done].
  - destruct (ar_successors a !! hd_prev_side_hash h) as [s|]; [|done]. exists s.
    split; [done|]. by apply bool_decide_eq_true in H2.
Qed.

Definition body : Body := mkBody (mkCoinbase [] []) [mkTransaction [] [] [] None] [].
(** The first block stored with a body *)
Definition with_body : Archive :=
  match put_body synced block0 body with Ok a => a | _ => synced end.
End ArchiveSamples.

Lemma put_body_keeps_tips_witness :
  exists a', @put_body Sample.externals ArchiveSamples.synced ArchiveSamples.block0 ArchiveSamples.body = Ok a' /\
    side_tips_ok a' /\ is_tip a' ArchiveSamples.block0.
Proof.
  destruct (is_ok_Ok (@put_body Sample.externals ArchiveSamples.synced ArchiveSamples.block0 ArchiveSamples.body))
    as [a' Ha']; [vm_compute; reflexivity|]. exists a'. split; [exact Ha'|].
  destruct (@put_body_keeps_tips Sample.externals ArchiveSamples.synced a' ArchiveSamples.block0 ArchiveSamples.body
    ArchiveSamples.synced_wf ArchiveSamples.synced_tips Ha') as (_ & Hs & _ & _ & Htip).
  split; [exact Hs|]. apply (Htip 102 ArchiveSamples.header0); [vm_compute; reflexivity..|].
  split; [intros p Hp; discriminate Hp|]. exists 3%nat. vm_compute. reflexivity.
Defined.

Lemma delete_body_disconnects_witness :
  is_tip ArchiveSamples.with_body ArchiveSamples.block0 /\
  exists a', @delete_body Sample.externals ArchiveSamples.with_body ArchiveSamples.block0 ArchiveSamples.body = Ok a' /\
    ~ is_tip a' ArchiveSamples.block0.
Proof.
  destruct (is_ok_Ok (@put_body Sample.externals ArchiveSamples.synced ArchiveSamples.block0 ArchiveSamples.body))
    as [a1 Ha1]; [vm_compute; reflexivity|].
  assert (ArchiveSamples.with_body = a1) as Heq by (unfold ArchiveSamples.with_body; rewrite Ha1; reflexivity).
  split; [apply (bool_decide_unpack _); vm_compute; exact I|].
  destruct (put_body_wf_tips _ _ _ _ ArchiveSamples.synced_wf ArchiveSamples.synced_tips Ha1) as [Hw Hs].
  rewrite Heq.
  destruct (@delete_body_disconnects Sample.externals a1 ArchiveSamples.block0 ArchiveSamples.body Hw Hs)
    as (a' & Ha' & _ & _ & _ & Htip & _).
  { apply (same_chain_successors ArchiveSamples.synced); [exact (put_body_chain _ _ _ _ Ha1)|].
    apply ArchiveSamples.successors_okb_sound. vm_compute. reflexivity. }
  exists a'. split; [exact Ha'|exact Htip].
Defined.



Lemma last_common_ancestor_correct_witness :
  exists r, last_common_ancestor ArchiveSamples.archive ArchiveSamples.block1 ArchiveSamples.block2 = Ok r /\
    r = Some ArchiveSamples.block0.
Proof.
  destruct (@last_common_ancestor_correct Sample.externals ArchiveSamples.work_externals
    ArchiveSamples.archive ArchiveSamples.block1 ArchiveSamples.block2 1 1 ArchiveSamples.archive_ok)
    as (r & Hr & _); [vm_compute; reflexivity..|].
  exists r. split; [exact Hr|]. vm_compute in Hr. injection Hr as <-. vm_compute. reflexivity.
Defined.

(** ** Side tips *)

Lemma connect_mainchain_tip_correct_witness :
  exists t', @connect_mainchain_tip ArchiveSamples.work_externals side_tips_create (ArchiveSamples.main_header 0)
    (Some (mkBmmCommitment 7 (mkSidechainHeaderData None 0))) = Ok t' /\ tips_wf t'.
Proof.
  eexists. split; [reflexivity|].
  apply (@connect_mainchain_tip_correct ArchiveSamples.work_externals side_tips_create _ (ArchiveSamples.main_header 0)
    (Some (mkBmmCommitment 7 (mkSidechainHeaderData None 0))) ArchiveSamples.bincode_tip_info_order tips_wf_create);
    [apply map_Forall_empty|reflexivity].
Defined.

Lemma disconnect_connect_mainchain_tip_witness :
  exists t', @connect_mainchain_tip ArchiveSamples.work_externals side_tips_create (ArchiveSamples.main_header 0) None = Ok t' /\
    @disconnect_mainchain_tip ArchiveSamples.work_externals t' None None = Ok side_tips_create.
Proof.
  eexists. split; [reflexivity|].
  apply (@disconnect_connect_mainchain_tip ArchiveSamples.work_externals side_tips_create _ (ArchiveSamples.main_header 0)
    ArchiveSamples.work); [intros info Hi; discriminate Hi|reflexivity].
Defined.

Lemma reconnected_tip_lost_witness :
  exists t1 t2 t3 info,
    @connect_mainchain_tip ArchiveSamples.work_externals side_tips_create (ArchiveSamples.main_header 0)
      (Some (mkBmmCommitment 7 (mkSidechainHeaderData None 0))) = Ok t1 /\
    @disconnect_mainchain_tip ArchiveSamples.work_externals t1 None (Some 7) = Ok t2 /\
    @connect_mainchain_tip ArchiveSamples.work_externals t2 (ArchiveSamples.main_header 0)
      (Some (mkBmmCommitment 7 (mkSidechainHeaderData None 0))) = Ok t3 /\
    sd_sidechain_tips t3 !! 7 = Some info /\ sd_ordered_sidechain_tips t3 = ∅.
Proof.
  destruct (is_ok_Ok (@connect_mainchain_tip ArchiveSamples.work_externals side_tips_create
    (ArchiveSamples.main_header 0) (Some (mkBmmCommitment 7 (mkSidechainHeaderData None 0))))) as [t1 Ht1];
    [vm_compute; reflexivity|].
  destruct (@reconnected_tip_lost ArchiveSamples.work_externals side_tips_create
    t1 (ArchiveSamples.main_header 0) (mkBmmCommitment 7 (mkSidechainHeaderData None 0))
    ArchiveSamples.work tips_wf_create) as (t2 & t3 & info & H2 & H3 & H4 & H5 & _);
    [apply map_Forall_empty|intros info Hi; discriminate Hi|reflexivity|exact Ht1|].
  exists t1, t2, t3, info. split; [exact Ht1|]. split; [exact H2|]. split; [exact H3|].
  split; [exact H4|exact H5].
Defined.
