(* ===== verification/ArchiveIter.v ===== *)
(** * Walks over ancestors

    [src/lib/archive/iter.rs] and the walks of [src/lib/archive/mod.rs] built on it:
    the ancestors of a block, newest first, and the ancestors from a height on, oldest
    first, which are read in batches of 32; and the missing bodies of a branch. *)

From S2P Require Import Prelude Types Transaction Merkle Sample SideTips Lineage Archive.
From S2P Require Import ArchiveTree ArchiveWf ArchiveQueries ArchiveSamples.

(** ** Newest first *)

(** [AncestorHeaders::next]: the item, and the next [block_hash] *)
Definition ancestor_headers_next (a : Archive) (block_hash : option BlockHash)
  : result ArchiveError (option (BlockHash * Header) * option BlockHash) :=
  match block_hash with
  | None => Ok (None, None)
  | Some block_hash =>
      header ← get_header a block_hash;
      Ok (Some (block_hash, header), hd_prev_side_hash header)
  end.

(** [.take(n)], collected *)
Fixpoint ancestor_headers_take (a : Archive) (n : nat) (block_hash : option BlockHash)
  : result ArchiveError (list (BlockHash * Header)) :=
  match n with
  | O => Ok []
  | S n =>
      '(item, next) ← ancestor_headers_next a block_hash;
      match item with
      | None => Ok []
      | Some item => items ← ancestor_headers_take a n next; Ok (item :: items)
      end
  end.

(** [main_ancestor_header_infos], collected up to [n] items *)
Fixpoint main_ancestor_header_infos_take (a : Archive) (n : nat) (block_hash : MainBlockHash)
  : result ArchiveError (list BlockHeaderInfo) :=
  match n with
  | O => Ok []
  | S n =>
      if block_hash =? all_zeros then Ok []
      else
        header_info ← get_main_header_info a block_hash;
        items ← main_ancestor_header_infos_take a n (bhi_prev_block_hash header_info);
        Ok (header_info :: items)
  end.

(** ** Oldest first *)

Record RevInner (Item : Type) : Type := mkRevInner {
  ri_end_height : u32;
  ri_buffer : list Item;
}.
Arguments mkRevInner {_} _ _.
Arguments ri_end_height {_} _.
Arguments ri_buffer {_} _.
Record RevIter (Item : Type) : Type := mkRevIter {
  rv_batch_start_height : option u32;
  rv_block_hash : N;
  rv_inner : option (RevInner Item);
}.
Arguments mkRevIter {_} _ _ _.
Arguments rv_batch_start_height {_} _.
Arguments rv_block_hash {_} _.
Arguments rv_inner {_} _.

Definition MAX_BATCH_SIZE : u32 := 32.

Section rev.
Context {Item : Type}.
(** The height of the last block, the nth ancestor of a block, and a number of items from
    a block back: what the walks over the two chains do not share *)
Context (end_height : N -> result ArchiveError u32).
Context (nth : N -> u32 -> result ArchiveError N).
Context (take_items : nat -> N -> result ArchiveError (list Item)).

Definition rev_new (block_hash : N) (start_height : u32) : RevIter Item :=
  mkRevIter (Some start_height) block_hash None.

(** [buffer] is a stack: its last element is at the head of the list here. *)
Definition rev_next (it : RevIter Item) : result ArchiveError (option Item * RevIter Item) :=
  inner ← match rv_inner it with
          | Some inner => Ok inner
          | None => h ← end_height (rv_block_hash it); Ok (mkRevInner h [])
          end;
  match ri_buffer inner with
  | item :: buffer =>
      Ok (Some item, mkRevIter (rv_batch_start_height it) (rv_block_hash it)
        (Some (mkRevInner (ri_end_height inner) buffer)))
  | [] =>
      match rv_batch_start_height it with
      | Some batch_start_height =>
          if ri_end_height inner <? batch_start_height
          then Ok (None, mkRevIter (rv_batch_start_height it) (rv_block_hash it) (Some inner))
          else
            let height_diff := ri_end_height inner - batch_start_height in
            let ancestor_offset := N.min height_diff (MAX_BATCH_SIZE - 1) in
            let batch_size := ancestor_offset + 1 in
            let nth_ancestor := height_diff - ancestor_offset in
            ancestor ← nth (rv_block_hash it) nth_ancestor;
            items ← take_items (N.to_nat batch_size) ancestor;
            let buffer := foldl (fun buffer item => item :: buffer) [] items in
            let batch_start_height :=
              match u32_checked_add batch_start_height batch_size with
              | Some batch_start_height =>
                  if batch_start_height <=? ri_end_height inner then Some batch_start_height
                  else None
              | None => None
              end in
            Ok (head buffer, mkRevIter batch_start_height (rv_block_hash it)
              (Some (mkRevInner (ri_end_height inner) (tail buffer))))
      | None => Ok (None, mkRevIter None (rv_block_hash it) (Some inner))
      end
  end.

(** [collect()]: until [next] returns [None] *)
Fixpoint rev_collect (fuel : nat) (it : RevIter Item) : result ArchiveError (list Item) :=
  match fuel with
  | O => Panic
  | S fuel =>
      '(item, it) ← rev_next it;
      match item with
      | None => Ok []
      | Some item => items ← rev_collect fuel it; Ok (item :: items)
      end
  end.

(** [.take(n).collect()] *)
Fixpoint rev_take (n : nat) (it : RevIter Item) : result ArchiveError (list Item) :=
  match n with
  | O => Ok []
  | S n =>
      '(item, it) ← rev_next it;
      match item with
      | None => Ok []
      | Some item => items ← rev_take n it; Ok (item :: items)
      end
  end.

(** *** The batches put together *)

Context (b : N) (k : u32) (item_at : u32 -> Item).
Context (Hend : end_height b = Ok k).
(** The items of a block at height [h], and of the blocks before it *)
Context (Hitems : forall d n, d <= k -> n <= k - d + 1 ->
  exists c, nth b d = Ok c /\
    take_items (N.to_nat n) c = Ok ((fun i => item_at (k - d - N.of_nat i)) <$> seq 0 (N.to_nat n))).

(** The items of the heights from [h] on *)
Definition items_from (h : u32) (n : nat) : list Item :=
  (fun i => item_at (h + N.of_nat i)) <$> seq 0 n.

Lemma items_from_cons h n : items_from h (S n) = item_at h :: items_from (h + 1) n.
Proof.
  unfold items_from. cbn [seq]. rewrite fmap_cons. f_equal; [by rewrite N.add_0_r|].
  rewrite <-fmap_S_seq, <-list_fmap_compose. apply list_fmap_ext. intros i x _. cbn. f_equal. lia.
Qed.
Lemma items_from_app h n m : items_from h (n + m) = items_from h n ++ items_from (h + N.of_nat n) m.
Proof.
  revert h. induction n as [|n IH]; intros h; cbn [Nat.add].
  { cbn. f_equal. lia. }
  rewrite !items_from_cons, IH. cbn. f_equal. f_equal. f_equal. lia.
Qed.

(** A batch read newest first leaves the items oldest first on the stack. *)
Lemma batch_buffer h n :
  foldl (fun buffer item => item :: buffer) []
    ((fun i => item_at (h + N.of_nat n - N.of_nat i)) <$> seq 0 (S n)) = items_from h (S n).
Proof.
  assert (forall (l acc : list Item),
    foldl (fun buffer item => item :: buffer) acc l = reverse l ++ acc) as Hrev.
  { induction l as [|x l IH]; intros acc; [done|]. cbn. rewrite IH, reverse_cons, <-app_assoc. done. }
  rewrite Hrev, app_nil_r. apply list_eq. intros i.
  destruct (decide (i < S n)%nat) as [Hi|Hi].
  - unfold items_from. rewrite reverse_lookup by (rewrite length_fmap, length_seq; lia).
    rewrite !list_lookup_fmap, length_fmap, length_seq, !lookup_seq_lt by lia. cbn. f_equal. f_equal. lia.
  - rewrite !lookup_ge_None_2; [done| |]; unfold items_from;
      rewrite ?length_reverse, length_fmap, length_seq; lia.
Qed.

(** A state of the walk that has the items up to height [nb] in the buffer *)
Definition rev_state (cur : u32) (n : nat) : RevIter Item :=
  let nb := cur + N.of_nat n in
  mkRevIter (if nb <=? k then Some nb else None) b (Some (mkRevInner k (items_from cur n))).

Lemma rev_next_batch cur :
  cur <= k -> k <= u32_MAX ->
  rev_next (rev_state cur 0) = Ok (Some (item_at cur),
    rev_state (cur + 1) (N.to_nat (N.min (k - cur) (MAX_BATCH_SIZE - 1)))).
Proof.
  intros Hck Hk. set (off := N.min (k - cur) (MAX_BATCH_SIZE - 1)).
  assert (off <= k - cur) as Hoff by (unfold off; lia).
  unfold rev_state, rev_next. cbn [rv_inner mbind result_bind ri_buffer rv_batch_start_height
    rv_block_hash ri_end_height items_from seq fmap list_fmap N.of_nat].
  rewrite N.add_0_r, (proj2 (N.leb_le cur k)) by done. rewrite (proj2 (N.ltb_ge k cur)) by done.
  fold off. destruct (Hitems (k - cur - off) (off + 1)) as (c & -> & Hc); [lia|lia|].
  cbn [mbind result_bind]. rewrite Hc. cbn [mbind result_bind].
  replace (N.to_nat (off + 1)) with (S (N.to_nat off)) by lia.
  rewrite (list_fmap_ext _ (fun i => item_at (cur + N.of_nat (N.to_nat off) - N.of_nat i)))
    by (intros; f_equal; lia).
  rewrite batch_buffer, items_from_cons. cbn [head tail]. f_equal. f_equal. f_equal.
  rewrite N2Nat.id. unfold u32_checked_add.
  replace (cur + (off + 1)) with (cur + 1 + off) by lia.
  destruct (N.leb_spec (cur + 1 + off) k) as [Hle|Hgt].
  - rewrite (proj2 (N.leb_le _ u32_MAX)) by lia. by rewrite (proj2 (N.leb_le _ _)).
  - destruct (_ <=? u32_MAX); [|done]. by rewrite (proj2 (N.leb_gt _ _)).
Qed.

(** A step from a state with items left *)
Lemma rev_next_state cur n :
  cur <= k -> cur + N.of_nat n <= k + 1 -> k <= u32_MAX ->
  exists n', cur + 1 + N.of_nat n' <= k + 1 /\
    rev_next (rev_state cur n) = Ok (Some (item_at cur), rev_state (cur + 1) n').
Proof.
  intros Hck Hle Hk. destruct n as [|n].
  - eexists. split; [|by apply rev_next_batch]. unfold MAX_BATCH_SIZE. lia.
  - exists n. split; [lia|]. unfold rev_state, rev_next. rewrite items_from_cons.
    cbn [rv_inner mbind result_bind ri_buffer rv_batch_start_height rv_block_hash ri_end_height].
    by replace (cur + 1 + N.of_nat n) with (cur + N.of_nat (S n)) by lia.
Qed.
Lemma rev_next_end cur n :
  k < cur -> cur + N.of_nat n <= k + 1 -> exists it, rev_next (rev_state cur n) = Ok (None, it).
Proof.
  intros Hck Hle. replace n with 0%nat by lia. unfold rev_state, rev_next.
  cbn [rv_inner mbind result_bind ri_buffer items_from seq fmap list_fmap].
  rewrite N.add_0_r, (proj2 (N.leb_gt _ _)) by lia. by eexists.
Qed.

Lemma rev_collect_state fuel : forall cur n,
  cur + N.of_nat n <= k + 1 -> k <= u32_MAX -> (N.to_nat (k + 1 - cur) < fuel)%nat ->
  rev_collect fuel (rev_state cur n) = Ok (items_from cur (N.to_nat (k + 1 - cur))).
Proof.
  induction fuel as [|fuel IH]; intros cur n Hle Hk Hf; [lia|]. cbn [rev_collect].
  destruct (decide (cur <= k)) as [Hck|Hck].
  - destruct (rev_next_state cur n) as (n' & Hn' & ->); [lia|done|done|]. cbn [mbind result_bind].
    rewrite (IH (cur + 1) n') by lia. cbn [mbind result_bind].
    replace (N.to_nat (k + 1 - cur)) with (S (N.to_nat (k + 1 - (cur + 1)))) by lia.
    by rewrite items_from_cons.
  - destruct (rev_next_end cur n) as [it ->]; [lia|done|].
    by replace (N.to_nat (k + 1 - cur)) with 0%nat by lia.
Qed.

Lemma rev_take_state m : forall cur n,
  N.of_nat m <= k + 1 - cur -> cur + N.of_nat n <= k + 1 -> k <= u32_MAX ->
  rev_take m (rev_state cur n) = Ok (items_from cur m).
Proof.
  induction m as [|m IH]; intros cur n Hm Hle Hk; [done|]. cbn [rev_take].
  destruct (rev_next_state cur n) as (n' & Hn' & ->); [lia|done|done|]. cbn [mbind result_bind].
  rewrite (IH (cur + 1) n') by lia. by rewrite items_from_cons.
Qed.

(** The first state of a walk *)
Lemma rev_next_new s : s <= k -> rev_next (rev_new b s) = rev_next (rev_state s 0).
Proof.
  intros Hs. unfold rev_state. rewrite N.add_0_r, (proj2 (N.leb_le _ _)) by done.
  unfold rev_next, rev_new. cbn [rv_inner rv_block_hash mbind result_bind]. by rewrite Hend.
Qed.
Lemma rev_take_new m s :
  s <= k -> N.of_nat m <= k + 1 - s -> k <= u32_MAX ->
  rev_take m (rev_new b s) = Ok (items_from s m).
Proof.
  intros Hs Hm Hk. destruct m as [|m]; [done|]. cbn [rev_take]. rewrite rev_next_new by done.
  by apply (rev_take_state (S m) s 0); [|lia|].
Qed.
(** A walk that ends before [m] items are taken *)
Lemma rev_take_all m s :
  s <= k -> k + 1 - s <= N.of_nat m -> k <= u32_MAX ->
  rev_take m (rev_new b s) = Ok (items_from s (N.to_nat (k + 1 - s))).
Proof.
  intros Hs Hm Hk.
  assert (forall m cur n, cur + N.of_nat n <= k + 1 -> k + 1 - cur <= N.of_nat m ->
    rev_take m (rev_state cur n) = Ok (items_from cur (N.to_nat (k + 1 - cur)))) as Hst.
  { clear m Hm. induction m as [|m IH]; intros cur n Hle Hm.
    { by replace (N.to_nat (k + 1 - cur)) with 0%nat by lia. }
    cbn [rev_take]. destruct (decide (cur <= k)) as [Hck|Hck].
    - destruct (rev_next_state cur n) as (n' & Hn' & ->); [lia|done|done|]. cbn [mbind result_bind].
      rewrite (IH (cur + 1) n') by lia. cbn [mbind result_bind].
      replace (N.to_nat (k + 1 - cur)) with (S (N.to_nat (k + 1 - (cur + 1)))) by lia.
      by rewrite items_from_cons.
    - destruct (rev_next_end cur n) as [it ->]; [lia|done|].
      by replace (N.to_nat (k + 1 - cur)) with 0%nat by lia. }
  destruct m as [|m]; [lia|]. rewrite <-(Hst (S m) s 0%nat) by lia. cbn [rev_take]. by rewrite rev_next_new.
Qed.

(** The whole walk *)
Lemma rev_collect_new fuel s :
  s <= k + 1 -> k <= u32_MAX -> (N.to_nat (k + 1 - s) < fuel)%nat ->
  rev_collect fuel (rev_new b s) = Ok (items_from s (N.to_nat (k + 1 - s))).
Proof.
  intros Hs Hk Hf. destruct (decide (s <= k)) as [Hsk|Hsk].
  - rewrite <-(rev_collect_state fuel s 0) by lia. destruct fuel as [|fuel]; [lia|].
    cbn [rev_collect]. by rewrite rev_next_new.
  - replace (N.to_nat (k + 1 - s)) with 0%nat by lia. destruct fuel as [|fuel]; [lia|].
    cbn [rev_collect]. unfold rev_next, rev_new. cbn [rv_inner rv_block_hash mbind result_bind].
    rewrite Hend. cbn. rewrite (proj2 (N.ltb_lt _ _)) by lia. done.
Qed.
End rev.

(** ** The walks of the archive *)

Section walks.
Implicit Types (a : Archive).

(** [AncestorsRev] *)
Definition ancestors_rev_next a : RevIter (BlockHash * Header) ->
    result ArchiveError (option (BlockHash * Header) * RevIter (BlockHash * Header)) :=
  rev_next (archive_get_height a) (get_nth_ancestor a)
    (fun n b => ancestor_headers_take a n (Some b)).
Definition ancestors_rev a (block_hash : BlockHash) (start_height : u32)
  : result ArchiveError (list (BlockHash * Header)) :=
  rev_collect (archive_get_height a) (get_nth_ancestor a)
    (fun n b => ancestor_headers_take a n (Some b))
    (S (S (N.to_nat (default 0 (archive_try_get_height a block_hash)))))
    (rev_new block_hash start_height).

(** [MainchainAncestorsRev] *)
Definition main_ancestors_rev_next a : RevIter BlockHeaderInfo ->
    result ArchiveError (option BlockHeaderInfo * RevIter BlockHeaderInfo) :=
  rev_next (fun b => info ← get_main_header_info a b; Ok (bhi_height info))
    (get_nth_main_ancestor a) (main_ancestor_header_infos_take a).

Definition missing_body a (block_hash : BlockHash) : bool := negb (contains_body a block_hash).

Definition iter_missing_bodies a (block_hash : BlockHash) (start_height : u32)
  : result ArchiveError (list BlockHash) :=
  items ← ancestors_rev a block_hash start_height;
  Ok (List.filter (missing_body a) items.*1).

(** [ancestors(..).take_while(..).filter_map(..)]; a walk visits each header once *)
Fixpoint missing_bodies_loop a (fuel : nat) (block_hash ancestor : option BlockHash)
  : result ArchiveError (list BlockHash) :=
  '(item, next) ← ancestor_headers_next a block_hash;
  match item, fuel with
  | None, _ => Ok []
  | Some _, O => Panic
  | Some (block_hash, _), S fuel =>
      if decide (ancestor = Some block_hash) then Ok []
      else
        res ← missing_bodies_loop a fuel next ancestor;
        Ok (if missing_body a block_hash then block_hash :: res else res)
  end.
Definition get_missing_bodies a (block_hash : BlockHash) (ancestor : option BlockHash)
  : result ArchiveError (list BlockHash) :=
  res ← missing_bodies_loop a (S (N.to_nat (default 0 (archive_try_get_height a block_hash))))
          (Some block_hash) ancestor;
  Ok (reverse res).

Definition main_parent_header_info a (header_info : BlockHeaderInfo)
  : result ArchiveError (option BlockHeaderInfo) :=
  if bhi_prev_block_hash header_info =? all_zeros then Ok None
  else Some <$> get_main_header_info a (bhi_prev_block_hash header_info).
End walks.

Section side.
Context (a : Archive) (Hw : index_wf (side_index a)).
Let par := ix_parent (side_index a).

(** The item of the walk at height [h] below a block [b] at height [k] *)
Definition item_of (b : BlockHash) (k h : u32) : BlockHash * Header :=
  let c := default b (ancestor_at par (N.to_nat (k - h)) b) in
  (c, default (mkHeader 0 None 0) (ar_headers a !! c)).

Lemma known_header c kc : ar_block_hash_to_height a !! c = Some kc -> is_Some (ar_headers a !! c).
Proof.
  intros Hc. destruct (iw_dom _ Hw c) as [_ [p Hp]]; [by eexists|]. cbn in Hp.
  rewrite lookup_fmap in Hp. destruct (ar_headers a !! c); [by eexists|done].
Qed.

Lemma ancestor_headers_take_Ok n : forall c kc,
  ar_block_hash_to_height a !! c = Some kc -> N.of_nat n <= kc + 1 ->
  ancestor_headers_take a n (Some c) =
    Ok ((fun i => item_of c kc (kc - N.of_nat i)) <$> seq 0 n).
Proof.
  induction n as [|n IH]; intros c kc Hc Hn; [done|]. cbn [ancestor_headers_take ancestor_headers_next].
  destruct (known_header c kc Hc) as [header Hh]. unfold get_header. rewrite Hh. cbn [ok_or mbind result_bind].
  assert (item_of c kc (kc - N.of_nat 0) = (c, header)) as Hitem.
  { unfold item_of. replace (kc - (kc - N.of_nat 0)) with 0 by lia. change (N.to_nat 0) with 0%nat. cbn. by rewrite Hh. }
  cbn [seq]. rewrite fmap_cons, Hitem, <-fmap_S_seq, <-list_fmap_compose.
  destruct (hd_prev_side_hash header) as [p|] eqn:Hp.
  - destruct (iw_parent _ Hw c p) as (kp & Hkp & Hkc); [cbn; by rewrite lookup_fmap, Hh; cbn; rewrite Hp|].
    cbn in Hkp, Hkc. rewrite Hc in Hkc. injection Hkc as ->. rewrite (IH p kp Hkp) by lia. cbn.
    f_equal. f_equal. apply list_fmap_ext. intros i x Hi. apply lookup_seq in Hi as [-> Hi]. cbn.
    unfold item_of. replace (N.to_nat (kp + 1 - (kp + 1 - N.of_nat (S i)))) with (S i) by lia.
    replace (N.to_nat (kp - (kp - N.of_nat i))) with i by lia. cbn [ancestor_at].
    assert (par c = Some p) as -> by (by apply ix_parent_Some; cbn; rewrite lookup_fmap, Hh; cbn; rewrite Hp).
    cbn [mbind option_bind].
    destruct (ancestor_at_Some (index_tree _ Hw) i p kp Hkp) as (c' & Hc' & _); [lia|]. by unfold par; rewrite Hc'.
  - assert (kc = 0) as ->.
    { enough (Some kc = Some 0) by congruence. rewrite <-Hc. apply (iw_root _ Hw). cbn.
      by rewrite lookup_fmap, Hh; cbn; rewrite Hp. }
    replace n with 0%nat by lia. done.
Qed.

Lemma ancestors_rev_Ok b k s :
  ar_block_hash_to_height a !! b = Some k -> s <= k + 1 ->
  ancestors_rev a b s = Ok (items_from (item_of b k) s (N.to_nat (k + 1 - s))).
Proof.
  intros Hb Hs. unfold ancestors_rev, archive_try_get_height. rewrite Hb. change (default 0 (Some k)) with k.
  apply rev_collect_new; [| |done|by eapply (iw_bound _ Hw)|lia].
  - unfold archive_get_height, archive_try_get_height. by rewrite Hb.
  - intros d n Hd Hn. destruct (nth_ancestor_Ok (side_lineage_ok a Hw) b d k Hb Hd) as (c & Hc & Hca & Hkc).
    exists c. split; [done|]. rewrite (ancestor_headers_take_Ok _ c (k - d) Hkc) by lia. f_equal.
    apply list_fmap_ext. intros i x Hi. apply lookup_seq in Hi as [-> Hi]. cbn.
    unfold item_of. replace (N.to_nat (k - (k - d - N.of_nat i))) with (N.to_nat d + i)%nat by lia.
    rewrite ancestor_at_add. unfold par. rewrite Hca. cbn [mbind option_bind].
    replace (N.to_nat (k - d - (k - d - N.of_nat i))) with i by lia.
    destruct (ancestor_at_Some (index_tree _ Hw) i c (k - d) Hkc) as (c' & Hc' & _); [lia|]. by rewrite Hc'.
Qed.

(** *** Missing bodies *)

Lemma missing_bodies_loop_Ok n : forall c kc anc fuel,
  ar_block_hash_to_height a !! c = Some kc -> N.of_nat n <= kc + 1 ->
  anc = ancestor_at par n c -> (N.to_nat kc < fuel)%nat ->
  missing_bodies_loop a fuel (Some c) anc =
    Ok (List.filter (missing_body a) ((fun i => (item_of c kc (kc - N.of_nat i)).1) <$> seq 0 n)).
Proof.
  induction n as [|n IH]; intros c kc anc fuel Hc Hn -> Hf; (destruct fuel as [|fuel]; [lia|]);
    destruct (known_header c kc Hc) as [header Hh]; cbn [missing_bodies_loop ancestor_headers_next];
    unfold get_header; rewrite Hh; cbn [ok_or mbind result_bind].
  { by rewrite decide_True. }
  rewrite decide_False.
  2: { intros Ha. apply (ancestor_at_height (index_tree _ Hw) _ _ _ _ Hc) in Ha as [? Ha].
       pose proof (eq_trans (eq_sym Hc) Ha) as Heq. injection Heq. lia. }
  assert ((item_of c kc (kc - N.of_nat 0)).1 = c) as Hitem.
  { unfold item_of. replace (kc - (kc - N.of_nat 0)) with 0 by lia. by change (N.to_nat 0) with 0%nat. }
  cbn [seq]. rewrite fmap_cons, Hitem, <-fmap_S_seq, <-list_fmap_compose. cbn [List.filter ancestor_at].
  destruct (hd_prev_side_hash header) as [p|] eqn:Hp.
  - destruct (iw_parent _ Hw c p) as (kp & Hkp & Hkc); [cbn; by rewrite lookup_fmap, Hh; cbn; rewrite Hp|].
    cbn in Hkp, Hkc. rewrite Hc in Hkc. injection Hkc as ->.
    assert (par c = Some p) as Hpar
      by (by apply ix_parent_Some; cbn; rewrite lookup_fmap, Hh; cbn; rewrite Hp).
    rewrite Hpar. cbn [mbind option_bind]. rewrite (IH p kp _ fuel Hkp) by (done || lia). cbn [mbind result_bind].
    rewrite (list_fmap_ext _ ((fun i => (item_of c (kp + 1) (kp + 1 - N.of_nat i)).1) ∘ S)); [done|].
    intros i x Hi. apply lookup_seq in Hi as [-> Hi]. cbn.
    replace (N.to_nat (kp + 1 - (kp + 1 - N.of_nat (S i)))) with (S i) by lia.
    replace (N.to_nat (kp - (kp - N.of_nat i))) with i by lia. cbn [ancestor_at].
    rewrite Hpar. cbn [mbind option_bind].
    destruct (ancestor_at_Some (index_tree _ Hw) i p kp Hkp) as (c' & Hc' & _); [lia|]. by unfold par; rewrite Hc'.
  - assert (kc = 0) as ->.
    { enough (Some kc = Some 0) by congruence. rewrite <-Hc. apply (iw_root _ Hw). cbn.
      by rewrite lookup_fmap, Hh; cbn; rewrite Hp. }
    replace n with 0%nat by lia. by destruct fuel.
Qed.
End side.

Lemma filter_reverse {A} (f : A -> bool) l : List.filter f (reverse l) = reverse (List.filter f l).
Proof.
  induction l as [|x l IH]; [done|]. rewrite reverse_cons, List.filter_app, IH. cbn.
  destruct (f x); [by rewrite reverse_cons|by rewrite app_nil_r].
Qed.

(** ** Properties *)

(** The walk over the ancestors of a block from a height on, which reads them in
    batches of 32, yields exactly the blocks of the branch at the heights from
    [start_height] to that of the block, each with its header, oldest first. *)
Theorem ancestors_rev_correct `{Externals} `{WorkExternals} (a : Archive) (b : BlockHash)
    (k start_height : u32) :
  archive_reachable a -> archive_try_get_height a b = Some k -> start_height <= k + 1 ->
  exists l, ancestors_rev a b start_height = Ok l /\ length l = N.to_nat (k + 1 - start_height) /\
    forall i c header, l !! i = Some (c, header) ->
      ar_headers a !! c = Some header /\
      archive_try_get_height a c = Some (start_height + N.of_nat i) /\
      ancestor_at (ix_parent (side_index a)) (N.to_nat (k - (start_height + N.of_nat i))) b = Some c.
Proof.
  intros Hr Hb Hs. pose proof (aw_side _ (archive_reachable_wf a Hr)) as Hw.
  eexists. split; [by apply (ancestors_rev_Ok a Hw b k)|]. unfold items_from.
  split; [by rewrite length_fmap, length_seq|]. intros i c header Hi.
  apply list_lookup_fmap_Some in Hi as (j & Hj & Hi). apply lookup_seq in Hi as [-> Hi].
  unfold item_of in Hj. cbn [Nat.add] in Hj.
  destruct (ancestor_at_Some (index_tree _ Hw) (N.to_nat (k - (start_height + N.of_nat i))) b k Hb)
    as (c' & Hc' & Hk'); [lia|]. rewrite Hc' in Hj. cbn in Hj. injection Hj as -> ->.
  destruct (known_header a Hw c' _ Hk') as [h Hh]. rewrite Hh. split_and!; [done| |done].
  unfold archive_try_get_height. unfold ix_height in Hk'. cbn in Hk'. rewrite Hk'. f_equal. lia.
Qed.

(** The missing bodies of a branch, found by walking back from its end to an
    ancestor, are those found by walking forward from the height after it: the two
    functions that look for missing bodies agree. *)
Theorem get_missing_bodies_iter `{Externals} `{WorkExternals} (a : Archive) (b : BlockHash)
    (k start_height : u32) :
  archive_reachable a -> archive_try_get_height a b = Some k -> start_height <= k + 1 ->
  get_missing_bodies a b
    (ancestor_at (ix_parent (side_index a)) (N.to_nat (k + 1 - start_height)) b) =
  iter_missing_bodies a b start_height.
Proof.
  intros Hr Hb Hs. pose proof (aw_side _ (archive_reachable_wf a Hr)) as Hw.
  unfold get_missing_bodies, iter_missing_bodies. rewrite (ancestors_rev_Ok a Hw b k) by done.
  rewrite Hb. change (default 0 (Some k)) with k.
  rewrite (missing_bodies_loop_Ok a Hw (N.to_nat (k + 1 - start_height)) b k _ _ Hb) by (done || lia).
  cbn [mbind result_bind]. rewrite <-filter_reverse. f_equal. f_equal.
  apply list_eq. intros i. unfold items_from. rewrite <-list_fmap_compose.
  destruct (decide (i < N.to_nat (k + 1 - start_height))%nat) as [Hi|Hi].
  - rewrite reverse_lookup by (rewrite length_fmap, length_seq; lia).
    rewrite !list_lookup_fmap, length_fmap, length_seq, !lookup_seq_lt by lia. cbn -[item_of].
    f_equal. f_equal. f_equal. lia.
  - rewrite !lookup_ge_None_2; [done| |]; rewrite ?length_reverse, length_fmap, length_seq; lia.
Qed.

(** ** Samples *)

Lemma ancestors_rev_correct_witness :
  exists l, ancestors_rev ArchiveSamples.archive ArchiveSamples.block2 0 = Ok l /\ length l = 2%nat.
Proof.
  destruct (@ancestors_rev_correct Sample.externals ArchiveSamples.work_externals ArchiveSamples.archive
    ArchiveSamples.block2 1 0 ArchiveSamples.archive_ok) as (l & Hl & Hlen & _);
    [vm_compute; reflexivity|lia|]. exists l. split; [exact Hl|exact Hlen].
Defined.

Lemma get_missing_bodies_iter_witness :
  get_missing_bodies ArchiveSamples.archive ArchiveSamples.block2 (Some ArchiveSamples.block0) =
  iter_missing_bodies ArchiveSamples.archive ArchiveSamples.block2 1.
Proof.
  rewrite <-(@get_missing_bodies_iter Sample.externals ArchiveSamples.work_externals ArchiveSamples.archive
    ArchiveSamples.block2 1 1 ArchiveSamples.archive_ok); [|vm_compute; reflexivity|lia].
  vm_compute. reflexivity.
Defined.
