(* ===== verification/BetterTip.v ===== *)
(** * Choosing between tips

    [better_tip] of [src/lib/archive/mod.rs]: the rule by which the node prefers one
    tip to another, by the height of the sidechain block and the total work of the
    mainchain block that commits to it. *)

From S2P Require Import Prelude Types Transaction Merkle Sample SideTips Lineage Archive.
From S2P Require Import ArchiveTree ArchiveWf ArchiveQueries ArchiveIter ArchiveSamples.

(** ** Definitions *)

(** [ancestors(..).find_map(f)]; a walk visits each header once *)
Fixpoint ancestors_find_map {B} (a : Archive) (f : BlockHash -> result ArchiveError (option B))
    (fuel : nat) (block_hash : option BlockHash) : result ArchiveError (option B) :=
  '(item, next) ← ancestor_headers_next a block_hash;
  match item, fuel with
  | None, _ => Ok None
  | Some _, O => Panic
  | Some (block_hash, _), S fuel =>
      r ← f block_hash;
      match r with
      | Some x => Ok (Some x)
      | None => ancestors_find_map a f fuel next
      end
  end.
(** The walk from [block_hash], at the given height, which bounds its length *)
Definition find_ancestor {B} (a : Archive) (f : BlockHash -> result ArchiveError (option B))
    (block_hash : BlockHash) (height : u32) : result ArchiveError (option B) :=
  ancestors_find_map a f (S (N.to_nat height)) (Some block_hash).

(** Whether a block was committed to before [main_ancestor]: its mainchain parent is an
    ancestor of it, and not itself *)
Definition committed_before (a : Archive) (main_ancestor : MainBlockHash) (header : Header)
  : result ArchiveError bool :=
  descendant ← is_main_descendant a (hd_prev_main_hash header) main_ancestor;
  Ok (descendant && negb (hd_prev_main_hash header =? main_ancestor)).

(** The closure of the branches that compare heights only *)
Definition ancestor_height_before (a : Archive) (main_ancestor : MainBlockHash)
    (tip_ancestor : BlockHash) : result ArchiveError (option u32) :=
  header ← get_header a tip_ancestor;
  before ← committed_before a main_ancestor header;
  match before with
  | false => Ok None
  | true => Some <$> archive_get_height a tip_ancestor
  end.

(** The closure of the last branch, with the total work at the block's commitment *)
Definition ancestor_height_work_before (a : Archive) (main_ancestor : MainBlockHash)
    (main_ancestor_height : u32) (tip_ancestor : BlockHash)
  : result ArchiveError (option (u32 * Work)) :=
  header ← get_header a tip_ancestor;
  before ← committed_before a main_ancestor header;
  match before with
  | false => Ok None
  | true =>
      height ← archive_get_height a tip_ancestor;
      prev_height ← get_main_height a (hd_prev_main_hash header);
      main_block ← get_nth_main_ancestor a main_ancestor
        (u32_sub main_ancestor_height (u32_add prev_height 1));
      work ← get_total_work a main_block;
      Ok (Some (height, work))
  end.

(** The derived order of [Option<N>] *)
Definition option_compare (x y : option N) : comparison :=
  match x, y with
  | None, None => Eq
  | None, Some _ => Lt
  | Some _, None => Gt
  | Some x, Some y => x ?= y
  end.

(** The branch for equal work and equal height *)
Definition better_tip_tie (a : Archive) (tip0 tip1 : Tip) (height0 height1 : u32)
  : result ArchiveError (option Tip) :=
  if tip_block_hash tip0 =? tip_block_hash tip1 then Ok (Some tip0)
  else
    main_ancestor ← last_common_main_ancestor a (tip_main_block_hash tip0) (tip_main_block_hash tip1);
    main_ancestor_height ← get_main_height a main_ancestor;
    found0 ← find_ancestor a (ancestor_height_work_before a main_ancestor main_ancestor_height)
      (tip_block_hash tip0) height0;
    found1 ← find_ancestor a (ancestor_height_work_before a main_ancestor main_ancestor_height)
      (tip_block_hash tip1) height1;
    Ok (Some (match option_compare (snd <$> found0) (snd <$> found1),
                    option_compare (fst <$> found0) (fst <$> found1) with
              | (Lt | Eq), Eq => tip0
              | _, Gt => tip0
              | Gt, Eq => tip1
              | _, Lt => tip1
              end)).

Definition better_tip (a : Archive) (tip0 tip1 : Tip) : result ArchiveError (option Tip) :=
  if decide (tip0 = tip1) then Ok None
  else
    let block_hash0 := tip_block_hash tip0 in
    let block_hash1 := tip_block_hash tip1 in
    height0 ← archive_get_height a block_hash0;
    height1 ← archive_get_height a block_hash1;
    if (height0 =? 0) && (height1 =? 0) then Ok None
    else if height0 =? 0 then Ok (Some tip1)
    else if height1 =? 0 then Ok (Some tip0)
    else
      work0 ← get_total_work a (tip_main_block_hash tip0);
      work1 ← get_total_work a (tip_main_block_hash tip1);
      match work0 ?= work1, height0 ?= height1 with
      | (Lt | Eq), Lt => Ok (Some tip1)
      | (Eq | Gt), Gt => Ok (Some tip0)
      | Lt, Eq =>
          shared ← shared_mainchain_lineage a (tip_main_block_hash tip0) (tip_main_block_hash tip1);
          match shared with true => Ok (Some tip0) | false => Ok (Some tip1) end
      | Gt, Eq =>
          shared ← shared_mainchain_lineage a (tip_main_block_hash tip0) (tip_main_block_hash tip1);
          match shared with false => Ok (Some tip0) | true => Ok (Some tip1) end
      | Lt, Gt =>
          main_ancestor ←
            last_common_main_ancestor a (tip_main_block_hash tip0) (tip_main_block_hash tip1);
          tip0_ancestor_height ←
            find_ancestor a (ancestor_height_before a main_ancestor) block_hash0 height0;
          match option_compare tip0_ancestor_height (Some height1) with
          | Lt => Ok (Some tip1)
          | _ => Ok (Some tip0)
          end
      | Gt, Lt =>
          main_ancestor ←
            last_common_main_ancestor a (tip_main_block_hash tip0) (tip_main_block_hash tip1);
          tip1_ancestor_height ←
            find_ancestor a (ancestor_height_before a main_ancestor) block_hash1 height1;
          match option_compare tip1_ancestor_height (Some height0) with
          | Lt => Ok (Some tip0)
          | _ => Ok (Some tip1)
          end
      | Eq, Eq => better_tip_tie a tip0 tip1 height0 height1
      end.

(** ** The mainchain of two tips *)

Section main.
Context (a : Archive) (Hw : index_wf (main_index a)).
Context (m0 m1 : MainBlockHash) (k0 k1 : u32).
Context (Hk0 : ar_main_block_hash_to_height a !! m0 = Some k0).
Context (Hk1 : ar_main_block_hash_to_height a !! m1 = Some k1).
Let par := ix_parent (main_index a).
Let Hl := main_lineage_ok a Hw.
Let Ht := index_tree _ Hw.

Lemma last_common_main_Ok c :
  N.min k0 k1 < 2 ^ 31 -> ancestor par c m0 -> ancestor par c m1 ->
  exists c, last_common_main_ancestor a m0 m1 = Ok c /\ last_common par m0 m1 c.
Proof.
  intros Hmin Hc0 Hc1. unfold last_common_main_ancestor.
  destruct (equalize_Ok Hl m0 m1 k0 k1 Hk0 Hk1) as (a0 & a1 & -> & Ha0 & Ha1 & Hb0 & Hb1).
  cbn [mbind result_bind].
  assert (forall c, last_common par a0 a1 c -> last_common par m0 m1 c) as Heq.
  { intros c'. by apply (equalize_common Hl m0 m1 k0 k1 a0 a1 c'). }
  destruct (N.eqb_spec a0 a1) as [->|Hne].
  { exists a1. split; [done|]. apply Heq. split; [apply ancestor_refl..|done]. }
  destruct (decide (ancestor_at par (N.to_nat (N.min k0 k1)) a0 =
    ancestor_at par (N.to_nat (N.min k0 k1)) a1)) as [Hag|Hag].
  - destruct (search_common_Ok Hl a0 a1 _ Ha0 Ha1 Hmin Hne Hag) as (c' & -> & Hc').
    exists c'. split; [done|]. by apply Heq.
  - exfalso. eapply (roots_disagree Hl a0 a1 (N.min k0 k1)); [done|done|exact Hag|..].
    + by apply (common_below Ht m0 m1 k0 k1 a0 c).
    + apply (common_below Ht m1 m0 k1 k0 a1 c); try done. by rewrite N.min_comm.
Qed.

Lemma shared_lineage_Ok :
  exists r, shared_mainchain_lineage a m0 m1 = Ok r /\
    (r = true <-> ancestor par m0 m1 \/ ancestor par m1 m0).
Proof.
  unfold shared_mainchain_lineage.
  destruct (equalize_Ok Hl m0 m1 k0 k1 Hk0 Hk1) as (a0 & a1 & -> & Ha0 & Ha1 & Hb0 & Hb1).
  cbn [mbind result_bind]. exists (a0 =? a1). split; [done|]. rewrite N.eqb_eq. split.
  - intros ->. destruct (decide (k0 <= k1)) as [Hle|Hgt]; [left|right].
    + rewrite N.min_l in Ha1 by done. enough (m0 = a1) as -> by done.
      by apply (ancestor_unique Ht m0 a1 m0 k0 k0); [..|apply ancestor_refl|].
    + rewrite N.min_r in Ha1 by lia. enough (m1 = a1) as -> by done.
      by apply (ancestor_unique Ht m1 a1 m1 k1 k1); [..|apply ancestor_refl|].
  - intros [Hanc|Hanc].
    + pose proof (ancestor_le Ht m0 m1 k0 k1 Hk0 Hk1 Hanc). rewrite N.min_l in Ha0, Ha1 by done.
      assert (a0 = m0) as -> by (by apply (ancestor_unique Ht a0 m0 m0 k0 k0); [..|apply ancestor_refl]).
      by apply (ancestor_unique Ht m0 a1 m1 k1 k0).
    + pose proof (ancestor_le Ht m1 m0 k1 k0 Hk1 Hk0 Hanc). rewrite N.min_r in Ha0, Ha1 by done.
      assert (a1 = m1) as -> by (by apply (ancestor_unique Ht a1 m1 m1 k1 k1); [..|apply ancestor_refl]).
      by apply (ancestor_unique Ht a0 m1 m0 k0 k1).
Qed.
End main.

Lemma last_common_main_swap a m0 m1 k0 k1 c :
  index_wf (main_index a) -> ar_main_block_hash_to_height a !! m0 = Some k0 ->
  ar_main_block_hash_to_height a !! m1 = Some k1 -> N.min k0 k1 < 2 ^ 31 ->
  ancestor (ix_parent (main_index a)) c m0 -> ancestor (ix_parent (main_index a)) c m1 ->
  last_common_main_ancestor a m1 m0 = last_common_main_ancestor a m0 m1.
Proof.
  intros Hw H0 H1 Hmin Hc0 Hc1.
  destruct (last_common_main_Ok a Hw m0 m1 k0 k1 H0 H1 c) as (x & -> & Hx); [done..|].
  destruct (last_common_main_Ok a Hw m1 m0 k1 k0 H1 H0 c) as (y & -> & [Hy0 Hy1 Hy]); [by rewrite N.min_comm|done..|].
  f_equal. apply (last_common_unique (index_tree _ Hw) m0 m1 y x k0 H0); [|done].
  split; auto.
Qed.
Lemma shared_lineage_swap a m0 m1 k0 k1 :
  index_wf (main_index a) -> ar_main_block_hash_to_height a !! m0 = Some k0 ->
  ar_main_block_hash_to_height a !! m1 = Some k1 ->
  shared_mainchain_lineage a m1 m0 = shared_mainchain_lineage a m0 m1.
Proof.
  intros Hw H0 H1. destruct (shared_lineage_Ok a Hw m0 m1 k0 k1 H0 H1) as (x & -> & Hx).
  destruct (shared_lineage_Ok a Hw m1 m0 k1 k0 H1 H0) as (y & -> & Hy). f_equal.
  destruct x, y; try done; exfalso; [assert (false = true)|assert (false = true)]; try done;
    first [apply Hy|apply Hx]; intuition.
Qed.

Lemma archive_get_height_Ok a b k :
  archive_try_get_height a b = Some k -> archive_get_height a b = Ok k.
Proof. unfold archive_get_height. by intros ->. Qed.

(** ** Properties *)

(** The headers of two tips and of the mainchain blocks that commit to them are stored,
    and the mainchain blocks have an ancestor in common. *)
Record tips_known (a : Archive) (tip0 tip1 : Tip) (height0 height1 : u32) (work0 work1 : Work) : Prop := {
  tk_height0 : archive_try_get_height a (tip_block_hash tip0) = Some height0;
  tk_height1 : archive_try_get_height a (tip_block_hash tip1) = Some height1;
  tk_work0 : ar_total_work a !! tip_main_block_hash tip0 = Some work0;
  tk_work1 : ar_total_work a !! tip_main_block_hash tip1 = Some work1;
  tk_main : exists k0 k1 c,
    ar_main_block_hash_to_height a !! tip_main_block_hash tip0 = Some k0 /\
    ar_main_block_hash_to_height a !! tip_main_block_hash tip1 = Some k1 /\ N.min k0 k1 < 2 ^ 31 /\
    ancestor (ix_parent (main_index a)) c (tip_main_block_hash tip0) /\
    ancestor (ix_parent (main_index a)) c (tip_main_block_hash tip1);
}.

Lemma better_tip_swap (a : Archive) (tip0 tip1 : Tip)
    (height0 height1 : u32) (work0 work1 : Work) :
  archive_wf a -> tips_known a tip0 tip1 height0 height1 work0 work1 ->
  (height0, work0) <> (height1, work1) ->
  better_tip a tip1 tip0 = better_tip a tip0 tip1.
Proof.
  intros Hwf [Hh0 Hh1 Hw0 Hw1 (k0 & k1 & c & Hk0 & Hk1 & Hmin & Hc0 & Hc1)] Hne.
  pose proof (aw_main _ Hwf) as Hw. unfold better_tip.
  destruct (decide (tip0 = tip1)) as [->|Htip]; [by rewrite decide_True|].
  rewrite decide_False by done.
  rewrite (archive_get_height_Ok _ _ _ Hh0), (archive_get_height_Ok _ _ _ Hh1). cbn [mbind result_bind].
  rewrite andb_comm. destruct (N.eqb_spec height0 0) as [->|Hz0], (N.eqb_spec height1 0) as [->|Hz1];
    cbn [andb]; [done|done|done|].
  unfold get_total_work. rewrite Hw0, Hw1. cbn [ok_or mbind result_bind].
  rewrite (N.compare_antisym work0 work1), (N.compare_antisym height0 height1).
  rewrite (last_common_main_swap a _ _ k0 k1 c) by done. rewrite (shared_lineage_swap a _ _ k0 k1) by done.
  destruct (N.compare_spec work0 work1), (N.compare_spec height0 height1); cbn [CompOpp]; try done.
  congruence.
Qed.

(** The choice between two tips does not depend on the order in which they are
    compared, unless they have the same height and the same total work. *)
Theorem better_tip_order `{Externals} `{WorkExternals} (a : Archive) (tip0 tip1 : Tip)
    (height0 height1 : u32) (work0 work1 : Work) :
  archive_reachable a -> tips_known a tip0 tip1 height0 height1 work0 work1 ->
  (height0, work0) <> (height1, work1) ->
  better_tip a tip1 tip0 = better_tip a tip0 tip1.
Proof.
  intros Hr. by apply better_tip_swap, archive_reachable_wf.
Qed.

(** Of two tips of equal height, above the first block, on one mainchain branch, the
    one committed to by less work is chosen, whichever way they are compared. *)
Theorem better_tip_prefers_less_work `{Externals} `{WorkExternals} (a : Archive) (tip0 tip1 : Tip)
    (height : u32) (work0 work1 : Work) :
  archive_reachable a -> tips_known a tip0 tip1 height height work0 work1 ->
  height <> 0 -> work0 < work1 ->
  ancestor (ix_parent (main_index a)) (tip_main_block_hash tip0) (tip_main_block_hash tip1) ->
  better_tip a tip0 tip1 = Ok (Some tip0) /\ better_tip a tip1 tip0 = Ok (Some tip0).
Proof.
  intros Hr Hk Hz Hlt Hanc.
  pose proof Hk as [Hh0 Hh1 Hw0 Hw1 (k0 & k1 & c & Hk0 & Hk1 & Hmin & Hc0 & Hc1)].
  assert (better_tip a tip0 tip1 = Ok (Some tip0)) as Heq.
  { unfold better_tip. rewrite decide_False by (intros ->; rewrite Hw0 in Hw1; simplify_eq; lia).
    rewrite (archive_get_height_Ok _ _ _ Hh0), (archive_get_height_Ok _ _ _ Hh1). cbn [mbind result_bind].
    rewrite (proj2 (N.eqb_neq _ _) Hz). cbn [andb]. unfold get_total_work. rewrite Hw0, Hw1.
    cbn [ok_or mbind result_bind]. rewrite (proj2 (N.compare_lt_iff _ _) Hlt), N.compare_refl.
    pose proof (aw_main _ (archive_reachable_wf a Hr)) as Hw.
    destruct (shared_lineage_Ok a Hw _ _ k0 k1 Hk0 Hk1) as (r & -> & Hr'). cbn [mbind result_bind].
    by rewrite (proj2 Hr' (or_introl Hanc)). }
  split; [done|]. rewrite <-Heq. apply (better_tip_swap a tip0 tip1 height height work0 work1);
    [by apply archive_reachable_wf|done|]. intros [=]. lia.
Qed.

(** ** Samples *)

Module BetterTipSamples.
Definition tip1 : Tip := mkTip ArchiveSamples.block1 103.
Definition tip2 : Tip := mkTip ArchiveSamples.block2 104.
Lemma known : tips_known ArchiveSamples.archive tip1 tip2 1 1 30 40.
Proof.
  split; [vm_compute; reflexivity..|]. exists 2, 3, 103.
  split_and!; [vm_compute; reflexivity..| |]; [exists 0%nat|exists 1%nat]; vm_compute; reflexivity.
Qed.
End BetterTipSamples.

Lemma better_tip_order_witness :
  better_tip ArchiveSamples.archive BetterTipSamples.tip2 BetterTipSamples.tip1 =
  better_tip ArchiveSamples.archive BetterTipSamples.tip1 BetterTipSamples.tip2.
Proof.
  apply (@better_tip_order Sample.externals ArchiveSamples.work_externals ArchiveSamples.archive
    BetterTipSamples.tip1 BetterTipSamples.tip2 1 1 30 40 ArchiveSamples.archive_ok BetterTipSamples.known).
  discriminate.
Defined.

Lemma better_tip_prefers_less_work_witness :
  better_tip ArchiveSamples.archive BetterTipSamples.tip1 BetterTipSamples.tip2 = Ok (Some BetterTipSamples.tip1).
Proof.
  apply (@better_tip_prefers_less_work Sample.externals ArchiveSamples.work_externals ArchiveSamples.archive
    BetterTipSamples.tip1 BetterTipSamples.tip2 1 30 40 ArchiveSamples.archive_ok BetterTipSamples.known);
    [discriminate|lia|exists 1%nat; vm_compute; reflexivity].
Defined.
