(* ===== verification/MainchainTask.v ===== *)
(** * Following the mainchain

    [src/lib/node/mainchain_task.rs]: storing the mainchain blocks that the mainchain node
    reports, connecting and disconnecting them to the side tips, and bringing the side
    tips to a mainchain tip. The mainchain node is a parameter: a function that returns
    the information of a block and of a number of its ancestors. *)

From S2P Require Import Prelude Types Transaction Merkle Sample SideTips Lineage Archive.
From S2P Require Import ArchiveTree ArchiveWf ArchiveBodies TipsWf ArchiveQueries.
From S2P Require Import ArchiveSamples ArchiveIter.

(** ** Definitions *)

Inductive MainchainBlockEvent : Type :=
| ConnectBlock (header_info : BlockHeaderInfo) (block_info : BlockInfo)
| DisconnectBlock (block_hash : MainBlockHash).

Section task.
Context `{WorkExternals}.
Implicit Types (a : Archive).

(** The ['bmm_commitment] block: the sidechain block a mainchain block commits to, if it
    can be reorganised to *)
Definition valid_commitment a (block_info : BlockInfo) (main_hash : MainBlockHash)
  : result ArchiveError (option BmmCommitment) :=
  match bi_bmm_commitment block_info with
  | None => Ok None
  | Some side_block_hash =>
      if negb (contains_body a side_block_hash) then Ok None
      else
        side_header ← get_header a side_block_hash;
        if negb (parent_connected a side_header) then Ok None
        else
          bmm_result ← get_bmm_result a side_block_hash main_hash;
          Ok (match bmm_result with
              | Bmm_Verified => Some (mkBmmCommitment side_block_hash (header_data side_header))
              | Bmm_Failed => None
              end)
  end.

(** The two calls that connect a mainchain block to the side tips *)
Definition connect_main_block a (header_info : BlockHeaderInfo) (block_info : BlockInfo)
  : result ArchiveError Archive :=
  bmm_commitment ← valid_commitment a block_info (bhi_block_hash header_info);
  side_tips ← map_err Archive_SideTips
    (connect_mainchain_tip (ar_side_tips a) header_info bmm_commitment);
  Ok (put_side_tips side_tips a).

Definition disconnect_main_block a (parent_info : option BlockHeaderInfo)
    (bmm_commitment : option BlockHash) : result ArchiveError Archive :=
  side_tips ← map_err Archive_SideTips
    (disconnect_mainchain_tip (ar_side_tips a) parent_info bmm_commitment);
  Ok (put_side_tips side_tips a).

Definition handle_block_event a (event : MainchainBlockEvent) : result ArchiveError Archive :=
  match event with
  | ConnectBlock header_info block_info =>
      a ← put_main_header_info a header_info;
      a ← put_main_block_info a (bhi_block_hash header_info) block_info;
      connect_main_block a header_info block_info
  | DisconnectBlock block_hash =>
      header_info ← get_main_header_info a block_hash;
      block_info ← get_main_block_info a block_hash;
      parent_info ← main_parent_header_info a header_info;
      disconnect_main_block a parent_info (bi_bmm_commitment block_info)
  end.

(** [while let Some(main_state_tip_info) = side_tips_tip_info]: down to the common ancestor.
    Each turn goes to the parent, so the height of the tip bounds the turns. *)
Fixpoint disconnect_to_loop (fuel : nat) (common_ancestor : MainBlockHash)
    (side_tips_tip_info : option BlockHeaderInfo) a (events : list MainchainBlockEvent)
  : result ArchiveError (Archive * option BlockHeaderInfo * list MainchainBlockEvent) :=
  match side_tips_tip_info with
  | None => Ok (a, None, events)
  | Some main_state_tip_info =>
      if bhi_block_hash main_state_tip_info =? common_ancestor
      then Ok (a, side_tips_tip_info, events)
      else
        match fuel with
        | O => Panic
        | S fuel =>
            main_state_prev_tip_info ← main_parent_header_info a main_state_tip_info;
            block_info ← get_main_block_info a (bhi_block_hash main_state_tip_info);
            a ← disconnect_main_block a main_state_prev_tip_info (bi_bmm_commitment block_info);
            disconnect_to_loop fuel common_ancestor main_state_prev_tip_info a
              (events ++ [DisconnectBlock (bhi_block_hash main_state_tip_info)])
        end
  end.

Definition extract_tip (tip_info : option BlockHeaderInfo) : MainBlockHash :=
  match tip_info with None => all_zeros | Some info => bhi_block_hash info end.

(** One block of a batch *)
Definition sync_connect (acc : Archive * option BlockHeaderInfo * list MainchainBlockEvent)
    (main_header_info : BlockHeaderInfo)
  : result ArchiveError (Archive * option BlockHeaderInfo * list MainchainBlockEvent) :=
  let '(a, _, events) := acc in
  main_block_info ← get_main_block_info a (bhi_block_hash main_header_info);
  a ← connect_main_block a main_header_info main_block_info;
  Ok (a, Some main_header_info, events ++ [ConnectBlock main_header_info main_block_info]).

Definition BATCH_SIZE : nat := 32.

(** [main_ancestor_header_infos_rev(..).take(n).collect()] *)
Definition main_rev_take (n : nat) a (block_hash : MainBlockHash) (start_height : u32)
  : result ArchiveError (list BlockHeaderInfo) :=
  rev_take (fun b => info ← get_main_header_info a b; Ok (bhi_height info))
    (get_nth_main_ancestor a) (main_ancestor_header_infos_take a) n (rev_new block_hash start_height).

(** [while extract_tip(side_tips_tip_info) != mainchain_tip]: a batch of blocks each turn *)
Fixpoint connect_to_loop (fuel : nat) (mainchain_tip : MainBlockHash)
    (acc : Archive * option BlockHeaderInfo * list MainchainBlockEvent)
  : result ArchiveError (Archive * option BlockHeaderInfo * list MainchainBlockEvent) :=
  let '(a, side_tips_tip_info, events) := acc in
  if extract_tip side_tips_tip_info =? mainchain_tip then Ok acc
  else
    match fuel with
    | O => Panic
    | S fuel =>
        let start_height :=
          match side_tips_tip_info with None => 0 | Some info => u32_add (bhi_height info) 1 end in
        main_header_infos ← main_rev_take BATCH_SIZE a mainchain_tip start_height;
        acc ← fold_res sync_connect main_header_infos acc;
        connect_to_loop fuel mainchain_tip acc
    end.

(** The height of a stored mainchain block bounds both loops. *)
Definition sync_fuel a (block_hash : MainBlockHash) : nat :=
  S (N.to_nat (default 0 (ar_main_block_hash_to_height a !! block_hash))).

(** The first loop: down to the last common ancestor *)
Definition disconnect_to_common a (mainchain_tip : MainBlockHash)
  : result ArchiveError (Archive * option BlockHeaderInfo * list MainchainBlockEvent) :=
  let side_tips_tip := sd_mainchain_tip (ar_side_tips a) in
  let tip_hash := main_tip_block_hash side_tips_tip in
  common_ancestor ←
    (if (tip_hash =? all_zeros) || (mainchain_tip =? all_zeros) then Ok all_zeros
     else last_common_main_ancestor a mainchain_tip tip_hash);
  disconnect_to_loop (sync_fuel a tip_hash) common_ancestor (mct_tip_info side_tips_tip) a [].

Definition sync_side_tips_to_tip a (mainchain_tip : MainBlockHash)
  : result ArchiveError (Archive * list MainchainBlockEvent) :=
  '(a, side_tips_tip_info, events) ← disconnect_to_common a mainchain_tip;
  '(a, _, events) ← connect_to_loop (sync_fuel a mainchain_tip) mainchain_tip
    (a, side_tips_tip_info, events);
  Ok (a, events).

(** [request_ancestor_infos]: the client's [get_block_infos] returns a block and up to a
    number of its ancestors, newest first; [None] when the block is not available. *)
Section client.
Context (get_block_infos : MainBlockHash -> u32 -> option (list (BlockHeaderInfo * BlockInfo))).
Definition BATCH_REQUEST_SIZE : u32 := 20000.

Definition main_known a (block_hash : MainBlockHash) : bool :=
  (block_hash =? all_zeros) || bool_decide (is_Some (ar_main_header_infos a !! block_hash)).

(** The [loop]: requests until a known block is reached; [Ok None] when a block is not
    available. The number of requests is up to the client. *)
Fixpoint fetch_loop (fuel : nat) a (current_block_hash : MainBlockHash)
    (block_infos : list (BlockHeaderInfo * BlockInfo))
  : result ArchiveError (option (list (BlockHeaderInfo * BlockInfo))) :=
  match fuel with
  | O => Panic
  | S fuel =>
      match get_block_infos current_block_hash (BATCH_REQUEST_SIZE - 1) with
      | None => Ok None
      | Some block_infos_resp =>
          current ← expect (last block_infos_resp);
          let current_block_hash := bhi_prev_block_hash current.1 in
          let block_infos := block_infos ++ block_infos_resp in
          if main_known a current_block_hash then Ok (Some block_infos)
          else fetch_loop fuel a current_block_hash block_infos
      end
  end.

Definition store_infos a (infos : BlockHeaderInfo * BlockInfo) : result ArchiveError Archive :=
  a ← put_main_header_info a infos.1;
  put_main_block_info a (bhi_block_hash infos.1) infos.2.

Definition request_ancestor_infos (fuel : nat) a (block_hash : MainBlockHash)
  : result ArchiveError (Archive * bool) :=
  if main_known a block_hash then Ok (a, true)
  else
    fetched ← fetch_loop fuel a block_hash [];
    match fetched with
    | None => Ok (a, false)
    | Some block_infos => a ← fold_res store_infos (reverse block_infos) a; Ok (a, true)
    end.
End client.
End task.

(** ** Walking the mainchain *)

(** The stored mainchain is complete: heights agree with the index, every block has its
    information, and commitments to stored bodies have been checked. *)
Record main_ready (a : Archive) : Prop := {
  mr_wf : archive_wf a;
  mr_info m info : ar_main_header_infos a !! m = Some info ->
    m <> all_zeros /\ bhi_block_hash info = m /\
    ar_main_block_hash_to_height a !! m = Some (bhi_height info) /\
    is_Some (ar_main_block_infos a !! m);
  mr_commitment m info side : ar_main_block_infos a !! m = Some info ->
    bi_bmm_commitment info = Some side -> contains_body a side = true ->
    is_Some (ar_headers a !! side) /\ is_Some (get_bmm_results a side !! m);
}.

Lemma same_archive_ready a a' : same_archive a a' -> main_ready a -> main_ready a'.
Proof.
  intros [t ->] [Hw Hi Hc]. split; [|done|done]. eapply same_chain_wf; [apply same_chain_tips|done].
Qed.

Lemma main_parent_Some info p : main_parent info = Some p -> bhi_prev_block_hash info = p.
Proof. unfold main_parent. destruct (_ =? _); [done|]. by intros [= ->]. Qed.
Lemma main_parent_None info : main_parent info = None -> bhi_prev_block_hash info = all_zeros.
Proof. unfold main_parent. destruct (N.eqb_spec (bhi_prev_block_hash info) all_zeros); [done|]. done. Qed.

Section main_walk.
Context (a : Archive) (Hr : main_ready a).
Let Hw := aw_main _ (mr_wf _ Hr).
Let par := ix_parent (main_index a).
Definition no_info : BlockHeaderInfo := mkBlockHeaderInfo 0 0 0 0.

(** The block at height [h] below a block [b] at height [k] *)
Definition main_item (b : MainBlockHash) (k h : u32) : BlockHeaderInfo :=
  default no_info (ar_main_header_infos a !! default b (ancestor_at par (N.to_nat (k - h)) b)).

Lemma main_known_info m k :
  ar_main_block_hash_to_height a !! m = Some k ->
  exists info, ar_main_header_infos a !! m = Some info /\ bhi_height info = k.
Proof.
  intros Hm. destruct (iw_dom _ Hw m) as [_ [p Hp]]; [by eexists|]. cbn in Hp. rewrite lookup_fmap in Hp.
  destruct (ar_main_header_infos a !! m) as [info|] eqn:Hi; [|done]. exists info. split; [done|].
  apply (mr_info _ Hr) in Hi as (_ & _ & Hh & _). congruence.
Qed.

Lemma main_item_spec b k h :
  ar_main_block_hash_to_height a !! b = Some k -> h <= k ->
  ar_main_header_infos a !! bhi_block_hash (main_item b k h) = Some (main_item b k h) /\
  bhi_height (main_item b k h) = h /\
  ancestor_at par (N.to_nat (k - h)) b = Some (bhi_block_hash (main_item b k h)).
Proof.
  intros Hb Hh. destruct (ancestor_at_Some (index_tree _ Hw) (N.to_nat (k - h)) b k Hb) as (c & Hc & Hk);
    [lia|]. unfold main_item, par. rewrite Hc. cbn.
  destruct (main_known_info c _ Hk) as (info & Hi & Hih). rewrite Hi. cbn.
  destruct (mr_info _ Hr _ _ Hi) as (_ & Hhash & _). rewrite Hhash. split_and!; [done|lia|done].
Qed.

Lemma main_parent_item b k h :
  ar_main_block_hash_to_height a !! b = Some k -> h <= k ->
  main_parent (main_item b k h) =
    if h =? 0 then None else Some (bhi_block_hash (main_item b k (h - 1))).
Proof.
  intros Hb Hh. destruct (main_item_spec b k h Hb Hh) as (Hi & Hih & Ha).
  set (info := main_item b k h) in *.
  assert (par (bhi_block_hash info) = main_parent info) as Hp.
  { unfold par, ix_parent. cbn. rewrite lookup_fmap, Hi. done. }
  rewrite <-Hp. destruct (N.eqb_spec h 0) as [->|Hz].
  - apply (tr_root _ _ (index_tree _ Hw)). apply (mr_info _ Hr) in Hi as (_ & _ & Hk & _).
    unfold ix_height. cbn. rewrite Hk. by f_equal.
  - destruct (main_item_spec b k (h - 1) Hb ltac:(lia)) as (_ & _ & Ha').
    replace (N.to_nat (k - (h - 1))) with (N.to_nat (k - h) + 1)%nat in Ha' by lia.
    rewrite ancestor_at_add, Ha in Ha'. cbn in Ha'. by destruct (par _).
Qed.

Lemma main_take_Ok n : forall c kc,
  ar_main_block_hash_to_height a !! c = Some kc -> N.of_nat n <= kc + 1 ->
  main_ancestor_header_infos_take a n c = Ok ((fun i => main_item c kc (kc - N.of_nat i)) <$> seq 0 n).
Proof.
  induction n as [|n IH]; intros c kc Hc Hn; [done|]. cbn [main_ancestor_header_infos_take].
  destruct (main_known_info c kc Hc) as (info & Hi & Hih).
  destruct (mr_info _ Hr _ _ Hi) as (Hz & Hhash & _). rewrite (proj2 (N.eqb_neq _ _) Hz).
  unfold get_main_header_info. rewrite Hi. cbn [ok_or mbind result_bind].
  assert (main_item c kc (kc - N.of_nat 0) = info) as Hitem.
  { unfold main_item. replace (kc - (kc - N.of_nat 0)) with 0 by lia.
    change (N.to_nat 0) with 0%nat. cbn. by rewrite Hi. }
  cbn [seq]. rewrite fmap_cons, Hitem, <-fmap_S_seq, <-list_fmap_compose.
  destruct n as [|n]; [done|].
  assert (par c = main_parent info) as Hp.
  { unfold par, ix_parent. cbn. rewrite lookup_fmap, Hi. done. }
  destruct (tr_parent _ _ (index_tree _ Hw) c (kc - 1)) as (p & Hcp & Hkp);
    [unfold ix_height; cbn; rewrite Hc; f_equal; lia|]. fold par in Hcp.
  rewrite Hp in Hcp. rewrite (main_parent_Some _ _ Hcp). rewrite (IH p (kc - 1) Hkp) by lia.
  cbn [mbind result_bind]. f_equal. f_equal.
  apply list_fmap_ext. intros i x Hx. apply lookup_seq in Hx as [-> Hx]. cbn [compose Nat.add].
  unfold main_item. replace (N.to_nat (kc - (kc - N.of_nat (S i)))) with (S i) by lia.
  replace (N.to_nat (kc - 1 - (kc - 1 - N.of_nat i))) with i by lia. cbn [ancestor_at].
  rewrite Hp, Hcp. cbn [mbind option_bind].
  destruct (ancestor_at_Some (index_tree _ Hw) i p (kc - 1) Hkp) as (c' & Hc' & _); [lia|].
  unfold par. by rewrite Hc'.
Qed.

(** A batch of the walk up to [b] *)
Lemma main_rev_take_Ok n b k s :
  ar_main_block_hash_to_height a !! b = Some k -> s <= k ->
  main_rev_take n a b s = Ok (items_from (main_item b k) s (n `min` N.to_nat (k + 1 - s))).
Proof.
  intros Hb Hs.
  assert (forall d n, d <= k -> n <= k - d + 1 -> exists c, get_nth_main_ancestor a b d = Ok c /\
    main_ancestor_header_infos_take a (N.to_nat n) c =
      Ok ((fun i => main_item b k (k - d - N.of_nat i)) <$> seq 0 (N.to_nat n))) as Hitems.
  { intros d m Hd Hm. destruct (nth_ancestor_Ok (main_lineage_ok a Hw) b d k Hb Hd) as (c & Hc & Hca & Hkc).
    exists c. split; [done|]. rewrite (main_take_Ok _ c (k - d) Hkc) by lia. f_equal.
    apply list_fmap_ext. intros i x Hi. apply lookup_seq in Hi as [-> Hi]. cbn.
    unfold main_item. replace (N.to_nat (k - (k - d - N.of_nat i))) with (N.to_nat d + i)%nat by lia.
    rewrite ancestor_at_add. unfold par. rewrite Hca. cbn [mbind option_bind].
    replace (N.to_nat (k - d - (k - d - N.of_nat i))) with i by lia.
    destruct (ancestor_at_Some (index_tree _ Hw) i c (k - d) Hkc) as (c' & Hc' & _); [lia|]. by rewrite Hc'. }
  assert ((info ← get_main_header_info a b; Ok (bhi_height info)) = Ok k) as Hend.
  { destruct (main_known_info b k Hb) as (info & Hi & <-). unfold get_main_header_info. by rewrite Hi. }
  pose proof (iw_bound _ Hw b k Hb) as Hmax. unfold main_rev_take.
  destruct (decide (N.of_nat n <= k + 1 - s)) as [Hle|Hgt].
  - rewrite Nat.min_l by lia. by apply (rev_take_new _ _ _ b k (main_item b k)).
  - rewrite Nat.min_r by lia. apply (rev_take_all _ _ _ b k (main_item b k)); try done. lia.
Qed.
End main_walk.

Lemma main_item_same a a' b k : same_archive a a' -> main_item a' b k = main_item a b k.
Proof. by intros [t ->]. Qed.
Lemma same_archive_height a a' :
  same_archive a a' -> ar_main_block_hash_to_height a' = ar_main_block_hash_to_height a.
Proof. by intros [t ->]. Qed.

(** ** Connecting blocks *)

Section sync.
Context `{WorkExternals}.

Lemma connect_sidechain_tip_Ok t m w b d :
  is_ok (parent_height t d) = true -> exists t', connect_sidechain_tip t m w b d = Ok t' /\
    sd_mainchain_tip t' = sd_mainchain_tip t.
Proof.
  intros Hd. unfold connect_sidechain_tip. fold (parent_height t d). apply is_ok_Ok in Hd as [h ->].
  cbn [mbind result_bind]. destruct (_ !! b); by eexists.
Qed.
Lemma parent_connected_height a header :
  parent_connected a header = true -> is_ok (parent_height (ar_side_tips a) (header_data header)) = true.
Proof.
  unfold parent_connected, parent_height. cbn. destruct (hd_prev_side_hash header) as [p|]; [|done].
  rewrite bool_decide_eq_true. by intros [i ->].
Qed.

Lemma valid_commitment_Ok a m info :
  main_ready a -> ar_main_block_infos a !! m = Some info ->
  exists c, valid_commitment a info m = Ok c /\
    forall c', c = Some c' -> is_ok (parent_height (ar_side_tips a) (bc_sidechain_header_data c')) = true.
Proof.
  intros Hr Hi. unfold valid_commitment. destruct (bi_bmm_commitment info) as [side|] eqn:Hc; [|by eexists].
  destruct (contains_body a side) eqn:Hb; [|by eexists]. cbn [negb].
  destruct (mr_commitment _ Hr m info side Hi Hc Hb) as [[h Hh] [r Hres]].
  unfold get_header, get_bmm_result, try_get_bmm_result. rewrite Hh, Hres. cbn [ok_or mbind result_bind].
  destruct (parent_connected a h) eqn:Hp; [|by eexists]. cbn [negb]. eexists. split; [done|].
  intros c'. destruct r; [|done]. intros [= <-]. cbn. by apply parent_connected_height.
Qed.

(** The next block of the mainchain connects. *)
Lemma sync_connect_Ok a ti ev hi :
  main_ready a -> mct_tip_info (sd_mainchain_tip (ar_side_tips a)) = ti ->
  ar_main_header_infos a !! bhi_block_hash hi = Some hi ->
  bhi_prev_block_hash hi = extract_tip ti ->
  (forall info, ti = Some info -> bhi_height hi = bhi_height info + 1) ->
  exists a' bi, sync_connect (a, ti, ev) hi = Ok (a', Some hi, ev ++ [ConnectBlock hi bi]) /\
    ar_main_block_infos a !! bhi_block_hash hi = Some bi /\ same_archive a a' /\
    mct_tip_info (sd_mainchain_tip (ar_side_tips a')) = Some hi.
Proof.
  intros Hr Hti Hhi Hprev Hh. destruct (mr_info _ Hr _ _ Hhi) as (_ & _ & Hk & [bi Hbi]).
  unfold sync_connect, get_main_block_info. rewrite Hbi. cbn [ok_or mbind result_bind].
  destruct (valid_commitment_Ok a _ bi Hr Hbi) as (c & Hc & Hpar). unfold connect_main_block. rewrite Hc.
  cbn [mbind result_bind]. unfold connect_mainchain_tip.
  assert (main_tip_block_hash (sd_mainchain_tip (ar_side_tips a)) = extract_tip ti) as ->
    by (unfold main_tip_block_hash; by rewrite Hti).
  rewrite Hprev, N.eqb_refl. cbn [ensure mbind result_bind]. rewrite Hti.
  assert (match ti with
    | Some tip_info => ensure (bhi_height hi =? u32_add (bhi_height tip_info) 1)
        (Connect_InvalidTipHeight (u32_add (bhi_height tip_info) 1))
    | None => Ok tt end = Ok tt) as ->.
  { destruct ti as [info|]; [|done]. pose proof (iw_bound _ (aw_main _ (mr_wf _ Hr)) _ _ Hk) as Hmax.
    rewrite u32_add_small by (rewrite <-(Hh info eq_refl); done).
    by rewrite (Hh info eq_refl), N.eqb_refl. }
  cbn [mbind result_bind].
  set (w := work_add _ _). assert (exists t, match c with
    | Some bmm => connect_sidechain_tip (ar_side_tips a) (bhi_block_hash hi) w
        (bc_sidechain_block_hash bmm) (bc_sidechain_header_data bmm)
    | None => Ok (ar_side_tips a) end = Ok t) as [t ->].
  { destruct c as [c|]; [|by eexists]. destruct (connect_sidechain_tip_Ok (ar_side_tips a) (bhi_block_hash hi) w
      (bc_sidechain_block_hash c) (bc_sidechain_header_data c)) as (t & Ht & _); [by apply Hpar|]. by exists t. }
  cbn [mbind result_bind map_err]. eexists _, bi. split_and!; [reflexivity|done|by eexists|done].
Qed.

(** *** Up to a block [b] at height [k] *)

Section target.
Context (a0 : Archive) (Hr : main_ready a0) (b : MainBlockHash) (k : u32).
Context (Hb : ar_main_block_hash_to_height a0 !! b = Some k).
Local Notation item := (main_item a0 b k).

(** The next height to connect, given the mainchain tip *)
Definition next_to_connect (ti : option BlockHeaderInfo) (cur : u32) : Prop :=
  match ti with
  | None => cur = 0
  | Some info => 1 <= cur <= k + 1 /\ info = item (cur - 1)
  end.
Definition connect_event (hi : BlockHeaderInfo) : MainchainBlockEvent :=
  ConnectBlock hi (default (mkBlockInfo None []) (ar_main_block_infos a0 !! bhi_block_hash hi)).

Lemma next_prev ti cur :
  next_to_connect ti cur -> cur <= k ->
  bhi_prev_block_hash (item cur) = extract_tip ti /\
  forall info, ti = Some info -> bhi_height (item cur) = bhi_height info + 1.
Proof.
  intros Hn Hc. pose proof (main_parent_item a0 Hr b k cur Hb Hc) as Hp.
  destruct (main_item_spec a0 Hr b k cur Hb Hc) as (_ & Hh & _).
  destruct ti as [info|]; cbn in Hn.
  - destruct Hn as [Hn ->]. rewrite (proj2 (N.eqb_neq cur 0)) in Hp by lia.
    split; [by apply main_parent_Some in Hp|]. intros info [= <-].
    destruct (main_item_spec a0 Hr b k (cur - 1) Hb ltac:(lia)) as (_ & Hh' & _). lia.
  - subst cur. split; [by apply main_parent_None in Hp|done].
Qed.

Lemma sync_batch n : forall cur a ti ev,
  same_archive a0 a -> mct_tip_info (sd_mainchain_tip (ar_side_tips a)) = ti -> next_to_connect ti cur ->
  cur + N.of_nat n <= k + 1 ->
  exists a' ti', fold_res sync_connect (items_from item cur n) (a, ti, ev) =
      Ok (a', ti', ev ++ (connect_event <$> items_from item cur n)) /\
    same_archive a0 a' /\ mct_tip_info (sd_mainchain_tip (ar_side_tips a')) = ti' /\
    next_to_connect ti' (cur + N.of_nat n).
Proof.
  induction n as [|n IH]; intros cur a ti ev Hs Hti Hn Hle.
  { exists a, ti. cbn. rewrite app_nil_r, N.add_0_r. done. }
  rewrite items_from_cons. cbn [fold_res].
  destruct (next_prev ti cur Hn ltac:(lia)) as [Hprev Hh].
  destruct (main_item_spec a0 Hr b k cur Hb ltac:(lia)) as (Hi & Hih & _).
  destruct (sync_connect_Ok a ti ev (item cur)) as (a1 & bi & -> & Hbi & Hs1 & Hti1);
    [by eapply same_archive_ready|done|by destruct Hs as [t ->]|done|done|].
  cbn [mbind result_bind].
  destruct (IH (cur + 1) a1 (Some (item cur)) (ev ++ [ConnectBlock (item cur) bi])) as (a' & ti' & Hf & Hs' & Hti' & Hn');
    [by etransitivity|done| |lia|].
  { cbn. split; [lia|]. f_equal. lia. }
  exists a', ti'. rewrite Hf, fmap_cons. unfold connect_event at 2.
  assert (ar_main_block_infos a0 !! bhi_block_hash (item cur) = Some bi) as -> by (by destruct Hs as [t ->]).
  split_and!; [by rewrite <-app_assoc|done|done|].
  by replace (cur + N.of_nat (S n)) with (cur + 1 + N.of_nat n) by lia.
Qed.

Lemma item_hash_eq cur : cur <= k -> bhi_block_hash (item cur) = b -> cur = k.
Proof.
  intros Hc Heq. destruct (main_item_spec a0 Hr b k cur Hb Hc) as (Hi & Hh & _).
  apply (mr_info _ Hr) in Hi as (_ & _ & Hk & _). rewrite Heq, Hb in Hk. injection Hk as Hk. congruence.
Qed.
Lemma item_last : bhi_block_hash (item k) = b.
Proof.
  destruct (main_item_spec a0 Hr b k k Hb ltac:(lia)) as (_ & _ & Ha).
  rewrite N.sub_diag in Ha. change (N.to_nat 0) with 0%nat in Ha. cbn in Ha. by injection Ha.
Qed.

Lemma connect_to_loop_Ok fuel : forall cur a ti ev,
  same_archive a0 a -> mct_tip_info (sd_mainchain_tip (ar_side_tips a)) = ti -> next_to_connect ti cur ->
  cur <= k + 1 -> (N.to_nat (k + 1 - cur) <= fuel)%nat ->
  exists a', connect_to_loop fuel b (a, ti, ev) =
      Ok (a', Some (item k), ev ++ (connect_event <$> items_from item cur (N.to_nat (k + 1 - cur)))) /\
    same_archive a0 a' /\ mct_tip_info (sd_mainchain_tip (ar_side_tips a')) = Some (item k).
Proof.
  assert (b <> all_zeros) as Hz.
  { destruct (main_known_info a0 Hr b k Hb) as (info & Hi & _). by apply (mr_info _ Hr) in Hi as [? _]. }
  induction fuel as [|fuel IH]; intros cur a ti ev Hs Hti Hn Hle Hf; cbn [connect_to_loop].
  all: destruct (decide (cur = k + 1)) as [->|Hne].
  1, 3: destruct ti as [info|]; cbn in Hn; [|lia]; destruct Hn as [_ ->];
    replace (k + 1 - 1) with k in * by lia; cbn [extract_tip]; rewrite item_last, N.eqb_refl;
    exists a; rewrite N.sub_diag, app_nil_r; done.
  { lia. }
  assert (extract_tip ti <> b) as Hex.
  { destruct ti as [info|]; cbn in *; [|by intros <-]. destruct Hn as [Hc ->].
    intros Heq. apply item_hash_eq in Heq; lia. }
  rewrite (proj2 (N.eqb_neq _ _) Hex).
  assert (match ti with None => 0 | Some info => u32_add (bhi_height info) 1 end = cur) as ->.
  { destruct ti as [info|]; [|done]. destruct Hn as [Hc ->].
    destruct (main_item_spec a0 Hr b k (cur - 1) Hb ltac:(lia)) as (_ & Hh & _). rewrite Hh.
    pose proof (iw_bound _ (aw_main _ (mr_wf _ Hr)) b k Hb). rewrite u32_add_small by lia. lia. }
  set (n := (BATCH_SIZE `min` N.to_nat (k + 1 - cur))%nat).
  assert (main_rev_take BATCH_SIZE a b cur = Ok (items_from item cur n)) as ->.
  { rewrite <-(main_item_same a0 a b k Hs).
    apply main_rev_take_Ok; [by eapply same_archive_ready|by rewrite (same_archive_height _ _ Hs)|lia]. }
  cbn [mbind result_bind]. assert (1 <= n)%nat as Hn1 by (unfold n, BATCH_SIZE; lia).
  destruct (sync_batch n cur a ti ev) as (a1 & ti1 & -> & Hs1 & Hti1 & Hn'); [done..|unfold n; lia|].
  cbn [mbind result_bind].
  destruct (IH (cur + N.of_nat n) a1 ti1 (ev ++ (connect_event <$> items_from item cur n))) as (a' & -> & Hs' & Hti');
    [done|done|done|unfold n; lia|lia|].
  exists a'. split_and!; [|done|done]. rewrite <-app_assoc, <-fmap_app, <-items_from_app.
  do 5 f_equal. unfold n. lia.
Qed.
End target.

(** *** Down from a block [tip] at height [kt] *)

(** The side tips of the blocks a mainchain block commits to let it be disconnected. *)
Definition disconnectable (t : SideTips) (m : MainBlockHash) (bi : BlockInfo) : Prop :=
  forall side, bi_bmm_commitment bi = Some side ->
  exists i, sd_sidechain_tips t !! side = Some i /\
    (sti_main_block_hash i = m -> is_Some (sd_ordered_sidechain_tips t !! i)).

Lemma disconnect_main_block_Ok a hi parent bi :
  mct_tip_info (sd_mainchain_tip (ar_side_tips a)) = Some hi ->
  bhi_prev_block_hash hi = extract_tip parent ->
  (forall info, parent = Some info ->
    bhi_block_hash info <> all_zeros /\ bhi_height hi = bhi_height info + 1 /\ bhi_height hi <= u32_MAX) ->
  disconnectable (ar_side_tips a) (bhi_block_hash hi) bi ->
  exists a', disconnect_main_block a parent (bi_bmm_commitment bi) = Ok a' /\ same_archive a a' /\
    mct_tip_info (sd_mainchain_tip (ar_side_tips a')) = parent /\
    (forall m' bi', m' <> bhi_block_hash hi -> disconnectable (ar_side_tips a) m' bi' ->
      disconnectable (ar_side_tips a') m' bi').
Proof.
  intros Hti Hprev Hpar Hd. unfold disconnect_main_block, disconnect_mainchain_tip.
  destruct (ar_side_tips a) as [[w tip] st ord] eqn:Ht. cbn in Hti. subst tip. cbn [sd_mainchain_tip].
  cbn [ok_or mbind result_bind].
  assert (new_mainchain_tip_info hi parent = Ok parent) as ->.
  { unfold new_mainchain_tip_info. destruct parent as [info|]; cbn in Hprev; rewrite Hprev.
    - destruct (Hpar info eq_refl) as (Hz & Hh & Hm). rewrite N.eqb_refl, u32_add_small, <-Hh, N.eqb_refl by lia.
      cbn. by rewrite (proj2 (N.eqb_neq _ _) Hz).
    - by rewrite N.eqb_refl. }
  cbn [mbind result_bind sd_sidechain_tips sd_ordered_sidechain_tips].
  destruct (bi_bmm_commitment bi) as [side|] eqn:Hside;
    [|eexists; split_and!; [reflexivity|by eexists|done|done]].
  destruct (Hd side Hside) as (i & Hi & Ho). cbn in Hi, Ho. rewrite Hi. cbn [ok_or mbind result_bind].
  destruct (N.eqb_spec (sti_main_block_hash i) (bhi_block_hash hi)) as [He|Hne];
    [|eexists; split_and!; [reflexivity|by eexists|done|done]].
  destruct (Ho He) as [x ->]. cbn [ok_or mbind result_bind map_err].
  eexists. split_and!; [reflexivity|by eexists|done|].
  intros m' bi' Hm' Hd' side' Hs'. destruct (Hd' side' Hs') as (i' & Hi' & Ho'). exists i'. cbn in *.
  split; [done|]. intros Hmi. rewrite lookup_delete_ne; [by apply Ho'|]. intros ->. congruence.
Qed.

Section source.
Context (a0 : Archive) (Hr : main_ready a0) (tip : MainBlockHash) (kt : u32).
Context (Ht : ar_main_block_hash_to_height a0 !! tip = Some kt).
Local Notation item := (main_item a0 tip kt).

(** The mainchain tip at height [h - 1], which is no block when [h] is 0 *)
Definition tip_below (h : u32) : option BlockHeaderInfo :=
  if h =? 0 then None else Some (item (h - 1)).
Definition block_info_at (h : u32) : BlockInfo :=
  default (mkBlockInfo None []) (ar_main_block_infos a0 !! bhi_block_hash (item h)).
Definition disconnect_event_at (h : u32) : MainchainBlockEvent := DisconnectBlock (bhi_block_hash (item h)).

Lemma item_hash_inj h h' :
  h <= kt -> h' <= kt -> bhi_block_hash (item h) = bhi_block_hash (item h') -> h = h'.
Proof.
  intros Hle Hle' He. destruct (main_item_spec a0 Hr tip kt h Ht Hle) as (Hi & Hh & _).
  destruct (main_item_spec a0 Hr tip kt h' Ht Hle') as (Hi' & Hh' & _).
  rewrite He, Hi' in Hi. injection Hi as Hi. congruence.
Qed.
Lemma item_nonzero h : h <= kt -> bhi_block_hash (item h) <> all_zeros.
Proof.
  intros Hle. destruct (main_item_spec a0 Hr tip kt h Ht Hle) as (Hi & _). by apply (mr_info _ Hr) in Hi as [? _].
Qed.
Lemma item_prev h : h <= kt -> bhi_prev_block_hash (item h) = extract_tip (tip_below h).
Proof.
  intros Hle. pose proof (main_parent_item a0 Hr tip kt h Ht Hle) as Hp. unfold tip_below.
  destruct (h =? 0); [by apply main_parent_None in Hp|by apply main_parent_Some in Hp].
Qed.
Lemma item_parent_info a h :
  same_archive a0 a -> h <= kt -> main_parent_header_info a (item h) = Ok (tip_below h).
Proof.
  intros [t ->] Hle. unfold main_parent_header_info. rewrite (item_prev h Hle). unfold tip_below.
  destruct (N.eqb_spec h 0) as [->|Hz]; [done|]. cbn [extract_tip].
  rewrite (proj2 (N.eqb_neq _ _) (item_nonzero (h - 1) ltac:(lia))).
  destruct (main_item_spec a0 Hr tip kt (h - 1) Ht ltac:(lia)) as (Hi & _).
  unfold get_main_header_info. cbn [ar_main_header_infos put_side_tips]. by rewrite Hi.
Qed.
Lemma item_block_info a h :
  same_archive a0 a -> h <= kt -> get_main_block_info a (bhi_block_hash (item h)) = Ok (block_info_at h).
Proof.
  intros [t ->] Hle. destruct (main_item_spec a0 Hr tip kt h Ht Hle) as (Hi & _).
  apply (mr_info _ Hr) in Hi as (_ & _ & _ & [bi Hbi]).
  unfold get_main_block_info, block_info_at. cbn [ar_main_block_infos put_side_tips]. by rewrite Hbi.
Qed.

(** The blocks from height [stop] on are disconnected, from the last one down. *)
Lemma disconnect_to_loop_Ok common stop n : forall fuel a ev,
  (n <= fuel)%nat -> stop + N.of_nat n <= kt + 1 -> common = extract_tip (tip_below stop) ->
  same_archive a0 a ->
  mct_tip_info (sd_mainchain_tip (ar_side_tips a)) = tip_below (stop + N.of_nat n) ->
  (forall h, stop <= h < stop + N.of_nat n ->
    disconnectable (ar_side_tips a) (bhi_block_hash (item h)) (block_info_at h)) ->
  exists a', disconnect_to_loop fuel common (tip_below (stop + N.of_nat n)) a ev =
      Ok (a', tip_below stop, ev ++ reverse (disconnect_event_at <$> ((fun i => stop + N.of_nat i) <$> seq 0 n))) /\
    same_archive a0 a' /\ mct_tip_info (sd_mainchain_tip (ar_side_tips a')) = tip_below stop.
Proof.
  induction n as [|n IH]; intros fuel a ev Hf Hle Hc Hs Hti Hd.
  { replace (stop + N.of_nat 0) with stop in * by lia. exists a. rewrite app_nil_r. split_and!; [|done|done].
    unfold tip_below in *. destruct fuel; cbn [disconnect_to_loop]; destruct (stop =? 0); try done;
      cbn [extract_tip] in Hc; by rewrite <-Hc, N.eqb_refl. }
  set (h := stop + N.of_nat n). replace (stop + N.of_nat (S n)) with (h + 1) in * by lia.
  assert (tip_below (h + 1) = Some (item h)) as Htb.
  { unfold tip_below. rewrite (proj2 (N.eqb_neq _ _)) by lia. do 2 f_equal. lia. }
  rewrite Htb in *. destruct fuel as [|fuel]; [lia|]. cbn [disconnect_to_loop].
  assert (bhi_block_hash (item h) <> common) as Hne.
  { subst common. unfold tip_below. destruct (N.eqb_spec stop 0); cbn [extract_tip]; [by apply item_nonzero; lia|].
    intros He. apply item_hash_inj in He; lia. }
  rewrite (proj2 (N.eqb_neq _ _) Hne), (item_parent_info a h Hs) by lia. cbn [mbind result_bind].
  rewrite (item_block_info a h Hs) by lia. cbn [mbind result_bind].
  destruct (disconnect_main_block_Ok a (item h) (tip_below h) (block_info_at h)) as (a1 & -> & Hs1 & Hti1 & Hd1);
    [done|apply item_prev; lia| |apply Hd; lia|].
  { intros info. unfold tip_below. destruct (N.eqb_spec h 0) as [|Hz]; [done|]. intros [= <-].
    destruct (main_item_spec a0 Hr tip kt h Ht ltac:(lia)) as (_ & Hh & _).
    destruct (main_item_spec a0 Hr tip kt (h - 1) Ht ltac:(lia)) as (_ & Hh' & _).
    pose proof (iw_bound _ (aw_main _ (mr_wf _ Hr)) tip kt Ht).
    split_and!; [apply item_nonzero; lia|lia|lia]. }
  cbn [mbind result_bind].
  destruct (IH fuel a1 (ev ++ [disconnect_event_at h])) as (a' & Heq & Hs' & Hti');
    [lia|lia|done|by etransitivity|done| |].
  { intros h' Hh'. apply Hd1; [|apply Hd; lia]. intros He. apply item_hash_inj in He; lia. }
  exists a'. fold h in Heq. fold (disconnect_event_at h). rewrite Heq. split_and!; [|done|done]. rewrite seq_S, !fmap_app, reverse_app, <-app_assoc. done.
Qed.
End source.
End sync.

(** ** The last common ancestor of two mainchain blocks *)

Lemma last_common_main_ancestor_Ok a b0 b1 k0 k1 c :
  index_wf (main_index a) ->
  ar_main_block_hash_to_height a !! b0 = Some k0 -> ar_main_block_hash_to_height a !! b1 = Some k1 ->
  N.min k0 k1 < 2 ^ 31 -> last_common (ix_parent (main_index a)) b0 b1 c ->
  last_common_main_ancestor a b0 b1 = Ok c.
Proof.
  intros Hw Hk0 Hk1 Hmin Hc. pose proof (main_lineage_ok a Hw) as Hl. pose proof (index_tree _ Hw) as Ht.
  unfold last_common_main_ancestor.
  destruct (equalize_Ok Hl b0 b1 k0 k1 Hk0 Hk1) as (a0 & a1 & -> & Ha0 & Ha1 & Hb0 & Hb1).
  cbn [mbind result_bind].
  assert (forall c', last_common (ix_parent (main_index a)) a0 a1 c' -> c' = c) as Heq.
  { intros c' Hc'. apply (last_common_unique Ht b0 b1 c' c k0); [done| |done].
    by apply (equalize_common Hl b0 b1 k0 k1 a0 a1 c'). }
  destruct (N.eqb_spec a0 a1) as [->|Hne].
  { f_equal. apply Heq. split; [apply ancestor_refl..|done]. }
  destruct (search_common_Ok Hl a0 a1 _ Ha0 Ha1 Hmin Hne) as (c' & -> & Hc'); [|f_equal; by apply Heq].
  destruct (decide (ancestor_at (ix_parent (main_index a)) (N.to_nat (N.min k0 k1)) a0 =
    ancestor_at (ix_parent (main_index a)) (N.to_nat (N.min k0 k1)) a1)) as [|Hna]; [done|].
  exfalso. destruct Hc as [Hc0 Hc1 _].
  eapply (roots_disagree Hl a0 a1 (N.min k0 k1) Ha0 Ha1 Hna c).
  - by apply (common_below Ht b0 b1 k0 k1).
  - apply (common_below Ht b1 b0 k1 k0); try done. by rewrite N.min_comm.
Qed.

(** ** Bringing the side tips to a mainchain tip *)

Section reaches.
Context `{WorkExternals} (a : Archive) (Hr : main_ready a) (b : MainBlockHash) (k : u32).
Context (Hb : ar_main_block_hash_to_height a !! b = Some k).

(** The blocks of the target's chain from height [start] on are connected. *)
Definition connect_events (start : u32) : list MainchainBlockEvent :=
  connect_event a <$> items_from (main_item a b k) start (N.to_nat (k + 1 - start)).
(** The blocks of the chain of [tip] from height [start] on are disconnected, the last one first. *)
Definition disconnect_events (tip : MainBlockHash) (kt start : u32) : list MainchainBlockEvent :=
  reverse (disconnect_event_at a tip kt <$>
    ((fun i => start + N.of_nat i) <$> seq 0 (N.to_nat (kt + 1 - start)))).

Lemma sync_connects a1 ti start ev :
  same_archive a a1 -> mct_tip_info (sd_mainchain_tip (ar_side_tips a1)) = ti ->
  next_to_connect a b k ti start -> start <= k + 1 ->
  exists a', connect_to_loop (sync_fuel a1 b) b (a1, ti, ev) =
      Ok (a', Some (main_item a b k k), ev ++ connect_events start) /\
    same_archive a a' /\ mct_tip_info (sd_mainchain_tip (ar_side_tips a')) = Some (main_item a b k k).
Proof.
  intros Hs Hti Hn Hle. apply connect_to_loop_Ok; try done.
  unfold sync_fuel. rewrite (same_archive_height _ _ Hs), Hb. change (default 0 (Some k)) with k. lia.
Qed.
End reaches.

(** The block at a height is the same below the two ends of a fork. *)
Lemma main_item_common a b k tip kt c kc :
  main_ready a -> ar_main_block_hash_to_height a !! b = Some k ->
  ar_main_block_hash_to_height a !! tip = Some kt -> ar_main_block_hash_to_height a !! c = Some kc ->
  ancestor (ix_parent (main_index a)) c b -> ancestor (ix_parent (main_index a)) c tip ->
  kc <= k /\ kc <= kt /\ main_item a tip kt kc = main_item a b k kc /\
  bhi_block_hash (main_item a tip kt kc) = c.
Proof.
  intros Hr Hb Ht Hc. pose proof (index_tree _ (aw_main _ (mr_wf _ Hr))) as T.
  rewrite (ancestor_spec T c b k Hb), (ancestor_spec T c tip kt Ht).
  intros (kc0 & Hle & Hk0 & Ha) (kc1 & Hle' & Hk1 & Ha').
  assert (kc0 = kc) as -> by (unfold ix_height in Hk0; cbn in Hk0; congruence).
  assert (kc1 = kc) as -> by (unfold ix_height in Hk1; cbn in Hk1; congruence).
  destruct (main_item_spec a Hr b k kc Hb Hle) as (Hi & _ & Hx).
  destruct (main_item_spec a Hr tip kt kc Ht Hle') as (Hi' & _ & Hx').
  rewrite Ha in Hx. rewrite Ha' in Hx'. injection Hx as Hx. injection Hx' as Hx'.
  rewrite <-Hx in Hi. rewrite <-Hx' in Hi'. split_and!; [done|done|congruence|done].
Qed.

(** On a first start there is nothing to disconnect. *)
Lemma disconnect_to_common_none `{WorkExternals} a b :
  mct_tip_info (sd_mainchain_tip (ar_side_tips a)) = None -> disconnect_to_common a b = Ok (a, None, []).
Proof.
  intros Hti. unfold disconnect_to_common.
  assert (main_tip_block_hash (sd_mainchain_tip (ar_side_tips a)) = all_zeros) as ->
    by (unfold main_tip_block_hash; by rewrite Hti).
  rewrite N.eqb_refl, orb_true_l, Hti. cbn [mbind result_bind]. by destruct (sync_fuel a all_zeros).
Qed.

(** A side tip [tip] of the mainchain from which [b] is reached over the common ancestor [c], at height [kc]: the
    blocks above it that are given up can be disconnected. *)
Record forks_at (a : Archive) (b : MainBlockHash) (k : u32) (tip : BlockHeaderInfo) (c : MainBlockHash) (kc : u32)
  : Prop := {
  fk_tip : ar_main_header_infos a !! bhi_block_hash tip = Some tip;
  fk_common : ar_main_block_hash_to_height a !! c = Some kc;
  fk_last : last_common (ix_parent (main_index a)) b (bhi_block_hash tip) c;
  fk_bound : N.min k (bhi_height tip) < 2 ^ 31;
  fk_disconnectable h : kc < h <= bhi_height tip ->
    disconnectable (ar_side_tips a) (bhi_block_hash (main_item a (bhi_block_hash tip) (bhi_height tip) h))
      (block_info_at a (bhi_block_hash tip) (bhi_height tip) h);
}.
Lemma disconnect_to_common_Ok `{WorkExternals} a b k tip c kc :
  main_ready a -> ar_main_block_hash_to_height a !! b = Some k ->
  mct_tip_info (sd_mainchain_tip (ar_side_tips a)) = Some tip -> forks_at a b k tip c kc ->
  kc <= k /\ exists a1,
    disconnect_to_common a b = Ok (a1, Some (main_item a b k kc),
      disconnect_events a (bhi_block_hash tip) (bhi_height tip) (kc + 1)) /\
    same_archive a a1 /\ mct_tip_info (sd_mainchain_tip (ar_side_tips a1)) = Some (main_item a b k kc).
Proof.
  intros Hr Hb Hti [Htip Hc Hlc Hmin Hd]. destruct (mr_info _ Hr _ _ Htip) as (Htz & _ & Ht & _).
  set (t := bhi_block_hash tip) in *. set (kt := bhi_height tip) in *.
  destruct (main_item_common a b k t kt c kc Hr Hb Ht Hc (lc_left _ _ _ _ Hlc) (lc_right _ _ _ _ Hlc))
    as (Hkc & Hkc' & Heq & Hhash). split; [done|].
  assert (b <> all_zeros) as Hbz.
  { destruct (main_known_info a Hr b k Hb) as (info & Hi & _). by apply (mr_info _ Hr) in Hi as [? _]. }
  unfold disconnect_to_common.
  assert (main_tip_block_hash (sd_mainchain_tip (ar_side_tips a)) = t) as ->
    by (unfold main_tip_block_hash; by rewrite Hti).
  rewrite (proj2 (N.eqb_neq _ _) Htz), (proj2 (N.eqb_neq _ _) Hbz). cbn [orb].
  rewrite (last_common_main_ancestor_Ok a b t k kt c (aw_main _ (mr_wf _ Hr)) Hb Ht Hmin Hlc).
  cbn [mbind result_bind].
  assert (tip_below a t kt (kc + 1) = Some (main_item a b k kc)) as Hstop.
  { unfold tip_below. rewrite (proj2 (N.eqb_neq _ _)) by lia. rewrite <-Heq. do 2 f_equal. lia. }
  assert (tip_below a t kt (kt + 1) = Some tip) as Htop.
  { unfold tip_below. rewrite (proj2 (N.eqb_neq _ _)) by lia. replace (kt + 1 - 1) with kt by lia.
    f_equal. destruct (main_item_spec a Hr t kt kt Ht ltac:(lia)) as (Hi & _).
    rewrite (item_last a Hr t kt Ht), Htip in Hi. congruence. }
  destruct (disconnect_to_loop_Ok a Hr t kt Ht c (kc + 1) (N.to_nat (kt - kc)) (sync_fuel a t) a [])
    as (a1 & Hdis & Hs1 & Hti1).
  all: replace (kc + 1 + N.of_nat (N.to_nat (kt - kc))) with (kt + 1) in * by lia.
  { unfold sync_fuel. rewrite Ht. change (default 0 (Some kt)) with kt. lia. }
  { lia. }
  { rewrite Hstop. cbn. by rewrite <-Heq. }
  { done. }
  { by rewrite Htop. }
  { intros h Hh. apply Hd. lia. }
  rewrite Htop in Hdis. rewrite Hti, Hdis. cbn [app]. exists a1. split_and!; [|done|by rewrite Hti1].
  rewrite Hstop. unfold disconnect_events. by replace (N.to_nat (kt + 1 - (kc + 1))) with (N.to_nat (kt - kc)) by lia.
Qed.

(** On a first start the side tips are brought to any stored mainchain block: the
    loops end, its ancestors are connected from the first block on, oldest first and
    each once, the events say so, and the mainchain tip is the block asked for. *)
Theorem sync_from_scratch `{WorkExternals} (a : Archive) (b : MainBlockHash) (k : u32) :
  main_ready a -> ar_main_block_hash_to_height a !! b = Some k ->
  mct_tip_info (sd_mainchain_tip (ar_side_tips a)) = None ->
  exists a', sync_side_tips_to_tip a b = Ok (a', connect_events a b k 0) /\ same_archive a a' /\
    main_tip_block_hash (sd_mainchain_tip (ar_side_tips a')) = b.
Proof.
  intros Hr Hb Hti. unfold sync_side_tips_to_tip. rewrite (disconnect_to_common_none a b Hti). cbn [mbind result_bind].
  destruct (sync_connects a Hr b k Hb a None 0 []) as (a' & -> & Hs & Hti'); [done..|lia|].
  exists a'. split_and!; [done|done|]. unfold main_tip_block_hash. rewrite Hti'. by apply item_last.
Qed.

(** A reorganisation of the mainchain ends at the block asked for: down to the last
    common ancestor the blocks of the old branch are disconnected, last one first, and
    from there the blocks of the new branch are connected, first one first, as long as the
    side tips of the blocks that the old branch commits to are there. *)
Theorem sync_reorganises `{WorkExternals} (a : Archive) (b : MainBlockHash) (k : u32)
    (tip : BlockHeaderInfo) (c : MainBlockHash) (kc : u32) :
  main_ready a -> ar_main_block_hash_to_height a !! b = Some k ->
  mct_tip_info (sd_mainchain_tip (ar_side_tips a)) = Some tip -> forks_at a b k tip c kc ->
  exists a', sync_side_tips_to_tip a b =
      Ok (a', disconnect_events a (bhi_block_hash tip) (bhi_height tip) (kc + 1) ++
              connect_events a b k (kc + 1)) /\
    same_archive a a' /\ main_tip_block_hash (sd_mainchain_tip (ar_side_tips a')) = b.
Proof.
  intros Hr Hb Hti Hf. unfold sync_side_tips_to_tip.
  destruct (disconnect_to_common_Ok a b k tip c kc Hr Hb Hti Hf) as (Hkc & a1 & -> & Hs1 & Hti1).
  cbn [mbind result_bind].
  destruct (sync_connects a Hr b k Hb a1 (Some (main_item a b k kc)) (kc + 1)
    (disconnect_events a (bhi_block_hash tip) (bhi_height tip) (kc + 1))) as (a' & -> & Hs' & Hti').
  { done. }
  { by rewrite Hti1. }
  { cbn. split; [lia|]. f_equal. lia. }
  { lia. }
  cbn [mbind result_bind]. exists a'. split_and!; [done|done|].
  unfold main_tip_block_hash. rewrite Hti'. by apply item_last.
Qed.

(** ** Blocks that commit to unknown sidechain blocks *)

(** What storing a mainchain block changes *)
Lemma store_infos_Ok `{WorkExternals} a hi bi a' :
  store_infos a (hi, bi) = Ok a' ->
  ar_main_header_infos a' = <[bhi_block_hash hi := hi]> (ar_main_header_infos a) /\
  ar_main_block_infos a' = <[bhi_block_hash hi := bi]> (ar_main_block_infos a) /\
  ar_bodies a' = ar_bodies a /\ ar_side_tips a' = ar_side_tips a.
Proof.
  intros Hs. apply bind_Ok in Hs as (a1 & Hp & Hb). unfold put_main_header_info in Hp.
  apply bind_Ok in Hp as (_ & _ & Hp). apply bind_Ok in Hp as (k & _ & Hp).
  apply bind_Ok in Hp as (w & _ & Hp). apply bind_Ok in Hp as (ps & _ & Hp).
  apply bind_Ok in Hp as (l & _ & [= <-]). unfold put_main_block_info in Hb.
  apply bind_Ok in Hb as (mh & _ & Hb). apply bind_Ok in Hb as (_ & _ & Hb). cbn [fst snd] in Hb.
  destruct (bi_bmm_commitment bi) as [side|]; [|by injection Hb as <-].
  case_match; [|by injection Hb as <-]. apply bind_Ok in Hb as (r & _ & [= <-]). done.
Qed.

(** The mainchain tip is stored. *)
Definition tip_stored (a : Archive) : Prop := forall info,
  mct_tip_info (sd_mainchain_tip (ar_side_tips a)) = Some info ->
  bhi_block_hash info <> all_zeros /\ ar_main_header_infos a !! bhi_block_hash info = Some info.

(** A mainchain block that commits to a sidechain block whose body is not stored can
    be connected but not disconnected: [disconnect_mainchain_tip] is given the commitment of
    the block, not the one that was connected, and fails with [MissingSidechainTip]. *)
Theorem unknown_commitment_stuck `{WorkExternals} (a a' : Archive) (hi : BlockHeaderInfo)
    (bi : BlockInfo) (side : BlockHash) :
  tip_stored a -> ar_main_header_infos a !! bhi_block_hash hi = None ->
  bi_bmm_commitment bi = Some side -> contains_body a side = false ->
  sd_sidechain_tips (ar_side_tips a) !! side = None ->
  handle_block_event a (ConnectBlock hi bi) = Ok a' ->
  handle_block_event a' (DisconnectBlock (bhi_block_hash hi)) =
    Err (Archive_SideTips (MissingSidechainTip side)).
Proof.
  intros Htip Hnew Hc Hb Hst He. apply bind_Ok in He as (a1 & Hp & He).
  apply bind_Ok in He as (a2 & Hbi & He).
  destruct (store_infos_Ok a hi bi a2) as (Hhs & Hbs & Hbody & Hsd);
    [unfold store_infos; cbn [fst snd]; rewrite Hp; exact Hbi|].
  unfold connect_main_block, valid_commitment in He. rewrite Hc in He.
  assert (contains_body a2 side = false) as Hb2 by (unfold contains_body in *; by rewrite Hbody).
  rewrite Hb2 in He. cbn [negb mbind result_bind] in He. rewrite Hsd in He.
  destruct (connect_mainchain_tip (ar_side_tips a) hi None) as [t| |] eqn:Ht; [|done|done].
  injection He as <-. apply connect_mainchain_tip_Ok in Ht as (Hprev & Hh & t1 & [= <-] & ->).
  cbn [handle_block_event]. unfold get_main_header_info, get_main_block_info, disconnect_main_block.
  cbn [ar_main_header_infos ar_main_block_infos ar_side_tips put_side_tips].
  rewrite Hhs, Hbs, !lookup_insert_eq. cbn [ok_or mbind result_bind].
  unfold main_parent_header_info, get_main_header_info.
  cbn [ar_main_header_infos put_side_tips]. rewrite Hprev, Hhs, Hc.
  unfold disconnect_mainchain_tip. cbn [sd_mainchain_tip ok_or mbind result_bind].
  assert (new_mainchain_tip_info hi (mct_tip_info (sd_mainchain_tip (ar_side_tips a))) =
    Ok (mct_tip_info (sd_mainchain_tip (ar_side_tips a)))) as Hnt.
  { apply new_tip_info_Ok; [|done|done]. intros info Hinfo. by apply Htip. }
  unfold main_tip_block_hash. destruct (mct_tip_info _) as [info|] eqn:Hti.
  - destruct (Htip info Hti) as [Hz Hi]. rewrite (proj2 (N.eqb_neq _ _) Hz).
    rewrite lookup_insert_ne by congruence. rewrite Hi.
    change (Some <$> ok_or (Some info) (Archive_NoMainHeaderInfo (bhi_block_hash info)))
      with (@Ok ArchiveError _ (Some info)).
    cbn [mbind result_bind]. rewrite Hnt. cbn [mbind result_bind sd_sidechain_tips]. by rewrite Hst.
  - rewrite N.eqb_refl. cbn [mbind result_bind]. rewrite Hnt.
    cbn [mbind result_bind sd_sidechain_tips]. by rewrite Hst.
Qed.

(** ** Examples *)

(** A check of [main_ready] *)
Definition main_readyb (a : Archive) : bool :=
  forallb (fun p => negb (p.1 =? all_zeros) && (bhi_block_hash p.2 =? p.1) &&
      bool_decide (ar_main_block_hash_to_height a !! p.1 = Some (bhi_height p.2)) &&
      bool_decide (is_Some (ar_main_block_infos a !! p.1))) (map_to_list (ar_main_header_infos a)) &&
  bool_decide (ar_bodies a = ∅).
Lemma main_readyb_sound a : archive_wf a -> main_readyb a = true -> main_ready a.
Proof.
  intros Hw Hb. unfold main_readyb in Hb. apply andb_true_iff in Hb as [Hb Hbodies].
  rewrite forallb_forall in Hb. apply bool_decide_eq_true in Hbodies. split; [done| |].
  - intros m info Hm. specialize (Hb (m, info)). rewrite <-list_elem_of_In, elem_of_map_to_list in Hb.
    specialize (Hb Hm). cbn [fst snd] in Hb. rewrite !andb_true_iff, negb_true_iff in Hb.
    destruct Hb as [[[Hz Hh] Hk] Hi]. apply N.eqb_neq in Hz. apply N.eqb_eq in Hh.
    apply bool_decide_eq_true in Hk, Hi. done.
  - intros m info side _ _ Hc. exfalso. unfold contains_body in Hc. rewrite Hbodies, lookup_empty in Hc.
    by apply bool_decide_eq_true in Hc as [].
Qed.

(** Two blocks on top of the same one *)
Lemma last_common_siblings parent height b0 b1 c k :
  @tree_ok parent height -> height c = Some k -> height b0 = Some (k + 1) -> height b1 = Some (k + 1) ->
  parent b0 = Some c -> parent b1 = Some c -> b0 <> b1 -> last_common parent b0 b1 c.
Proof.
  intros T Hc H0 H1 Hp0 Hp1 Hne. split; [by exists 1%nat; cbn; rewrite Hp0|by exists 1%nat; cbn; rewrite Hp1|].
  intros a [[|n] Ha0] Ha1; [|by exists n; cbn in Ha0; rewrite Hp0 in Ha0].
  injection Ha0 as <-. destruct Ha1 as [[|n] Ha1]; cbn in Ha1; [congruence|]. rewrite Hp1 in Ha1.
  by exists n.
Qed.

#[local] Existing Instance Sample.externals.
#[local] Existing Instance ArchiveSamples.work_externals.

Module MainchainSamples.
(** A sixth mainchain block, on the same parent as the last one *)
Definition fork_header : BlockHeaderInfo := mkBlockHeaderInfo 205 104 4 10.
Definition fork_ops : list ArchiveSamples.Op :=
  ArchiveSamples.ops ++ [ArchiveSamples.Op_main_header fork_header;
    ArchiveSamples.Op_main_info 205 (mkBlockInfo None [])].
Definition forked : Archive := default archive_new (ArchiveSamples.run fork_ops archive_new).
Lemma forked_run : ArchiveSamples.run fork_ops archive_new = Some forked.
Proof. vm_compute. reflexivity. Qed.
Lemma forked_ok : archive_reachable forked.
Proof. exact (ArchiveSamples.run_reachable fork_ops archive_new forked reach_new forked_run). Qed.
Lemma forked_ready : main_ready forked.
Proof.
  apply main_readyb_sound; [exact (archive_reachable_wf _ forked_ok)|]. vm_compute. reflexivity.
Qed.
(** The mainchain tip at the last block of the first branch *)
Definition on_branch : Archive := default forked (ArchiveSamples.main_synced forked).
Lemma on_branch_ready : main_ready on_branch.
Proof.
  apply main_readyb_sound; [|vm_compute; reflexivity].
  exact (same_chain_wf _ _ (ArchiveSamples.main_synced_chain forked) (mr_wf _ forked_ready)).
Qed.
(** A block whose commitment is to a block without a body *)
Definition next_header : BlockHeaderInfo := mkBlockHeaderInfo 106 105 5 10.
Definition next_info : BlockInfo := mkBlockInfo (Some 77) [].
End MainchainSamples.

Lemma sync_from_scratch_witness :
  exists a', sync_side_tips_to_tip MainchainSamples.forked 205 =
      Ok (a', connect_events MainchainSamples.forked 205 4 0) /\
    main_tip_block_hash (sd_mainchain_tip (ar_side_tips a')) = 205.
Proof.
  destruct (sync_from_scratch MainchainSamples.forked 205 4 MainchainSamples.forked_ready)
    as (a' & Ha & _ & Ht); [vm_compute; reflexivity..|]. exists a'. split; [exact Ha|exact Ht].
Defined.

Lemma sync_reorganises_witness :
  exists a', sync_side_tips_to_tip MainchainSamples.on_branch 205 =
      Ok (a', disconnect_events MainchainSamples.on_branch 105 4 4 ++
              connect_events MainchainSamples.on_branch 205 4 4) /\
    main_tip_block_hash (sd_mainchain_tip (ar_side_tips a')) = 205.
Proof.
  destruct (sync_reorganises MainchainSamples.on_branch 205 4 (ArchiveSamples.main_header 4) 104 3
    MainchainSamples.on_branch_ready) as (a' & Ha & _ & Ht).
  1-2: vm_compute; reflexivity.
  - split; [vm_compute; reflexivity|vm_compute; reflexivity| |vm_compute; reflexivity|].
    + apply (last_common_siblings _ _ _ _ _ 3
        (index_tree _ (aw_main _ (mr_wf _ MainchainSamples.on_branch_ready)))); vm_compute; congruence.
    + intros h Hh. assert (h = 4) as -> by (cbn in Hh; lia). intros side Hs. vm_compute in Hs. discriminate.
  - exists a'. split; [exact Ha|exact Ht].
Defined.

Lemma unknown_commitment_stuck_witness :
  exists a', handle_block_event MainchainSamples.on_branch
      (ConnectBlock MainchainSamples.next_header MainchainSamples.next_info) = Ok a' /\
    handle_block_event a' (DisconnectBlock 106) = Err (Archive_SideTips (MissingSidechainTip 77)).
Proof.
  destruct (is_ok_Ok (handle_block_event MainchainSamples.on_branch
      (ConnectBlock MainchainSamples.next_header MainchainSamples.next_info))) as [a' Ha'];
    [vm_compute; reflexivity|].
  exists a'. split; [exact Ha'|].
  apply (unknown_commitment_stuck MainchainSamples.on_branch a' MainchainSamples.next_header
    MainchainSamples.next_info 77); try (vm_compute; reflexivity); [|exact Ha'].
  intros info Hi. vm_compute in Hi. injection Hi as <-. split; [vm_compute; discriminate|vm_compute; reflexivity].
Defined.
