(* ===== verification/Node.v ===== *)
(** * The pool across blocks

    What [connect_tip_] and [disconnect_tip_] of [src/lib/node/net_task.rs] do to
    the memory pool: the transactions of a connected block leave it, those of a
    disconnected block return to it. *)

From stdpp Require Import relations.
From S2P Require Import Prelude Types Transaction Sample State Merkle Mempool.

Section node.
Context `{Externals}.

(** [for transaction in &body.transactions { mempool.delete(..) }] *)
Definition connect_tip_mempool (m : MemPool) (body : Body) : option MemPool :=
  foldl (fun m transaction => m ← m; delete_tx m (txid transaction)) (Some m) (bd_transactions body).

(** [for transaction in tip_body.authorized_transactions().iter().rev()
    { mempool.put(..) }] *)
Definition disconnect_tip_mempool (m : MemPool) (body : Body) : result MempoolError MemPool :=
  transactions ← expect (authorized_transactions body);
  fold_res put (reverse transactions) m.

(** ** Lemmas *)

Lemma connect_tip_mempool_keeps l : forall m m' t,
  pool_wf m ->
  foldl (fun m tx => m ← m; delete_tx m (txid tx)) (Some m) l = Some m' ->
  (forall tx, tx ∈ l -> ~ rtc (child m) (txid tx) t) ->
  pool_wf m' /\ mp_transactions m' !! t = mp_transactions m !! t.
Proof.
  induction l as [|tx l IH]; intros m m' t Hw Hf Ht; cbn [foldl] in Hf;
    [by injection Hf as <-|].
  destruct (delete_loop_total (delete_fuel m) [txid tx] m) as [m1 Hm1];
    [unfold delete_fuel; cbn; lia|].
  assert (delete_tx m (txid tx) = Some m1) as Heq by done.
  cbn [mbind option_bind] in Hf. rewrite Heq in Hf.
  pose proof (delete_loop_exact _ _ _ _ Hw Hm1) as (Hw1 & Hsub & Hex).
  destruct (Hex t) as [_ Hkeep]. rewrite <-Hkeep.
  - apply (IH m1 m' t Hw1 Hf). intros tx' Htx' Hr. apply (Ht tx'); [by apply list_elem_of_further|].
    eapply rtc_subrel; [|exact Hr]. intros p c (a & Ha & Hc). exists a.
    assert (mp_transactions m !! p = Some a) as Hpa by (by eapply lookup_weaken).
    split; [done|]. apply elem_of_children in Hc as (o & Ho & Hs). apply elem_of_children.
    exists o. split; [done|]. apply (pw_spent _ Hw). apply (pw_spent _ Hw1) in Hs as (b & Hb & Hin).
    exists b. split; [by eapply lookup_weaken|done].
  - intros (a & ->%list_elem_of_singleton & Hr). apply (Ht tx); [apply list_elem_of_here|done].
Qed.

Lemma child_absent m p t : rtc (child m) p t -> mp_transactions m !! p = None -> t = p.
Proof. intros [|? c ? (a & Ha & _) _] Hn; [done|]. by rewrite Ha in Hn. Qed.

Lemma put_not_panic m atx : put m atx <> Panic.
Proof.
  unfold put. generalize (mp_spent_utxos m) as spent.
  induction (inputs_of atx) as [|o l IH]; intros spent; [done|]. cbn [fold_res].
  unfold put_input at 2. case_bool_decide; [|done]. apply IH.
Qed.
Lemma put_all_not_panic l m : fold_res put l m <> Panic.
Proof.
  revert m. induction l as [|a l IH]; intros m; [done|]. cbn [fold_res].
  pose proof (put_not_panic m a). destruct (put m a); [apply IH|done|done].
Qed.

(** [put] forgets no spent outpoint, and refuses one that is spent. *)
Lemma put_all_conflict l m m' o t :
  mp_spent_utxos m !! o = Some t -> o ∈ concat (inputs_of <$> l) -> fold_res put l m <> Ok m'.
Proof.
  revert m. induction l as [|a l IH]; intros m Hs Ho Hf; cbn in Ho; [by apply not_elem_of_nil in Ho|].
  cbn [fold_res] in Hf. apply bind_Ok in Hf as (m1 & Hp & Hf). unfold put in Hp.
  apply bind_Ok in Hp as (spent & (Hnd & Hl & ->)%put_inputs_Ok & [= <-]).
  assert (o ∉ inputs_of a) as Hni.
  { intros Hin. rewrite Forall_forall in Hl. rewrite Hl in Hs; done. }
  apply elem_of_app in Ho as [?|Ho]; [done|]. eapply IH; [|exact Ho|exact Hf]. cbn.
  apply put_spent_Some. by right.
Qed.

Lemma put_all_Ok l m :
  pool_wf m -> NoDup (concat (inputs_of <$> l)) ->
  Forall (fun o => mp_spent_utxos m !! o = None) (concat (inputs_of <$> l)) ->
  NoDup ((fun a => txid (at_transaction a)) <$> l) ->
  Forall (fun a => mp_transactions m !! txid (at_transaction a) = None) l ->
  exists m', fold_res put l m = Ok m' /\ pool_wf m' /\
    mp_transactions m ⊆ mp_transactions m' /\
    Forall (fun a => mp_transactions m' !! txid (at_transaction a) = Some a) l.
Proof.
  revert m. induction l as [|a l IH]; intros m Hw Hnd Hf Hid Hnew.
  { exists m. by split_and!. }
  cbn in Hnd, Hf, Hid. apply NoDup_app in Hnd as (Hnda & Hdisj & Hnd). apply Forall_app in Hf as [Hfa Hf].
  apply NoDup_cons in Hid as [Hida Hid]. apply Forall_cons in Hnew as [Hna Hnew].
  set (m1 := mkMemPool (<[txid (at_transaction a) := a]> (mp_transactions m))
    (foldl (fun s o => <[o := txid (at_transaction a)]> s) (mp_spent_utxos m) (inputs_of a))).
  assert (put m a = Ok m1) as Hp.
  { unfold put. by rewrite (proj2 (put_inputs_Ok _ _ _ _) (conj Hnda (conj Hfa eq_refl))). }
  destruct (IH m1) as (m' & Hm' & Hw' & Hsub & Hall).
  - by eapply put_wf.
  - done.
  - apply Forall_forall. intros o Ho. rewrite Forall_forall in Hf. apply eq_None_not_Some.
    intros [t Ht]. cbn in Ht. apply put_spent_Some in Ht as [[Hin _]|[_ Ht]]; [by apply (Hdisj o)|].
    rewrite Hf in Ht; done.
  - done.
  - eapply Forall_impl_in; [exact Hnew|]. cbn. intros b Hb Hn. rewrite lookup_insert_ne; [done|].
    intros Heq. apply Hida. rewrite Heq.
    by apply (list_elem_of_fmap_2 (fun a => txid (at_transaction a))).
  - exists m'. cbn [fold_res]. rewrite Hp. split_and!; [done|done| |].
    + etransitivity; [|exact Hsub]. by apply insert_subseteq.
    + constructor; [|done]. eapply lookup_weaken; [|exact Hsub]. apply lookup_insert_eq.
Qed.
End node.

(** ** Properties *)

(** The transactions of a disconnected block return to the pool, when they do
    not conflict with it: the pool stays consistent, keeps what it had, and holds
    every transaction of the block. *)
Theorem disconnect_returns_transactions `{Externals} (m : MemPool) (body : Body)
    (atxs : list AuthorizedTransaction) :
  pool_wf m -> authorized_transactions body = Some atxs ->
  NoDup (concat (inputs_of <$> atxs)) ->
  Forall (fun o => mp_spent_utxos m !! o = None) (concat (inputs_of <$> atxs)) ->
  NoDup ((fun a => txid (at_transaction a)) <$> atxs) ->
  Forall (fun a => mp_transactions m !! txid (at_transaction a) = None) atxs ->
  exists m', disconnect_tip_mempool m body = Ok m' /\ pool_wf m' /\
    mp_transactions m ⊆ mp_transactions m' /\
    Forall (fun a => mp_transactions m' !! txid (at_transaction a) = Some a) atxs.
Proof.
  intros Hw Ha Hnd Hf Hid Hnew. unfold disconnect_tip_mempool. rewrite Ha. cbn [expect mbind result_bind].
  assert (reverse atxs ≡ₚ atxs) as Hp by apply reverse_Permutation.
  assert (concat (inputs_of <$> reverse atxs) ≡ₚ concat (inputs_of <$> atxs)) as Hc by (by rewrite Hp).
  destruct (put_all_Ok (reverse atxs) m) as (m' & Hm' & Hw' & Hsub & Hall); rewrite ?Hc, ?Hp; try done.
  exists m'. split_and!; try done. by rewrite <-Hp.
Qed.

(** A transaction of the pool that conflicts with a block, and depends on none
    of its transactions, stays in the pool when the block is connected; as long as
    it does, the block cannot be disconnected: returning its transactions to the
    pool fails with a double spend. *)
Theorem disconnect_refused_by_pool `{Externals} (m m' : MemPool) (body : Body)
    (atxs : list AuthorizedTransaction) (t : Txid) (atx : AuthorizedTransaction) (o : OutPoint) :
  pool_wf m -> mp_transactions m !! t = Some atx -> o ∈ inputs_of atx ->
  (forall tx, tx ∈ bd_transactions body -> ~ rtc (child m) (txid tx) t) ->
  authorized_transactions body = Some atxs -> o ∈ concat (inputs_of <$> atxs) ->
  connect_tip_mempool m body = Some m' ->
  disconnect_tip_mempool m' body = Err Mempool_UtxoDoubleSpent.
Proof.
  intros Hw Ht Ho Hnr Ha Hin Hc. destruct (connect_tip_mempool_keeps _ _ _ t Hw Hc Hnr) as [Hw' Hk].
  assert (mp_spent_utxos m' !! o = Some t) as Hs.
  { apply (pw_spent _ Hw'). exists atx. by rewrite Hk. }
  unfold disconnect_tip_mempool. rewrite Ha. cbn [expect mbind result_bind].
  destruct (fold_res put (reverse atxs) m') as [m2|[]|] eqn:Hf; [|done|by apply put_all_not_panic in Hf].
  exfalso. eapply put_all_conflict; [exact Hs| |exact Hf]. by rewrite reverse_Permutation.
Qed.

(** ** Samples *)

Module NodeSamples.
#[local] Existing Instance Sample.externals.
(** A block with a transaction that spends what [MempoolSamples.parent] spends *)
Definition rival : AuthorizedTransaction :=
  mkAuthorizedTransaction
    (mkTransaction [OutPoint_Deposit 1 0] [mkOutput 8 (Content_Bitcoin 4) []] [] None)
    [mkAuthorization 7 1].
Definition body : Body := body_new [rival] (mkCoinbase [] []).
Definition other_body : Body :=
  body_new [mkAuthorizedTransaction (at_transaction MempoolSamples.other) [mkAuthorization 7 1]]
    (mkCoinbase [] []).
End NodeSamples.

Lemma disconnect_returns_transactions_witness :
  exists m', @disconnect_tip_mempool Sample.externals MempoolSamples.pool1 NodeSamples.other_body = Ok m' /\
    @pool_wf Sample.externals m'.
Proof.
  destruct (@disconnect_returns_transactions Sample.externals MempoolSamples.pool1
    NodeSamples.other_body [mkAuthorizedTransaction (at_transaction MempoolSamples.other)
      [mkAuthorization 7 1]] MempoolSamples.pool1_wf) as (m' & Hm' & Hw & _);
    [vm_compute; reflexivity|apply (bool_decide_unpack _); vm_compute; exact I..|].
  exists m'. split; [exact Hm'|exact Hw].
Defined.

Lemma disconnect_refused_by_pool_witness :
  exists m', @connect_tip_mempool Sample.externals MempoolSamples.pool1 NodeSamples.body = Some m' /\
    @disconnect_tip_mempool Sample.externals m' NodeSamples.body = Err Mempool_UtxoDoubleSpent.
Proof.
  destruct (@connect_tip_mempool Sample.externals MempoolSamples.pool1 NodeSamples.body) as [m'|] eqn:Hm';
    [|vm_compute in Hm'; discriminate Hm'].
  exists m'. split; [reflexivity|].
  apply (@disconnect_refused_by_pool Sample.externals MempoolSamples.pool1 m' NodeSamples.body
    [NodeSamples.rival] MempoolSamples.parent_id MempoolSamples.parent (OutPoint_Deposit 1 0)
    MempoolSamples.pool1_wf);
    [vm_compute; reflexivity|apply list_elem_of_here| |vm_compute; reflexivity
    |apply list_elem_of_here|exact Hm'].
  intros tx Htx Hr. assert (@txid Sample.externals tx = @txid Sample.externals (at_transaction NodeSamples.rival)) as Heq.
  { apply list_elem_of_singleton in Htx as ->. reflexivity. }
  assert (MempoolSamples.parent_id = @txid Sample.externals tx) as Hid.
  { apply (child_absent _ _ _ Hr). rewrite Heq. vm_compute. reflexivity. }
  rewrite Heq in Hid. vm_compute in Hid. discriminate Hid.
Defined.
