(* ===== verification/NodeTask.v ===== *)
(** * The node's databases as one

    [src/lib/node/net_task.rs] and [src/lib/node/mod.rs]: connecting and disconnecting
    the tip over the state, the archive and the memory pool, reorganisations and what
    they commit, and the handlers of the node that change the databases. A write
    transaction is a value of [NodeDb] that becomes the committed one, or is dropped. *)

From S2P Require Import Prelude Types Transaction Rollback BitNames Authorization State Merkle Block.
From S2P Require Import TwoWayPeg Mempool Chain SideTips Lineage Archive ArchiveBodies ArchiveIter.
From S2P Require Import BetterTip MainchainTask Node.

Record NodeDb : Type := mkNodeDb {
  nd_state : State;
  nd_archive : Archive;
  nd_mempool : MemPool;
}.

Inductive NodeError : Type :=
| Node_State (e : Error)
| Node_Archive (e : ArchiveError)
| Node_MemPool (e : MempoolError)
| Node_AmountOverflow
| Node_AmountUnderflow.

(** A state error means that a peer sent an invalid block. *)
Definition is_fatal_reorg_error (err : NodeError) : bool :=
  match err with Node_State _ => false | _ => true end.

Section node.
Context `{Externals} `{WorkExternals}.
Implicit Types (db : NodeDb) (a : Archive).

(** ** The tip *)

Definition connect_tip_ db (header : Header) (body : Body) (two_way_peg_data : TwoWayPegData)
  : result NodeError NodeDb :=
  state ← map_err Node_State (connect_tip_state (nd_state db) header body two_way_peg_data);
  archive ← map_err Node_Archive (put_header (nd_archive db) header);
  archive ← map_err Node_Archive (put_body archive (header_hash header) body);
  mempool ← expect (connect_tip_mempool (nd_mempool db) body);
  Ok (mkNodeDb state archive mempool).

(** [rev_iter().find_map(..)]: the last entry, in the order of the keys, of a block
    before [height] *)
Definition last_applied_before (height : u32) (blocks : gmap u32 (MainBlockHash * u32))
  : option (MainBlockHash * u32) :=
  snd <$> db_last_u32 (filter (fun e : u32 * (MainBlockHash * u32) => e.2.2 < height) blocks).

(** The [match] that gives [start_block_hash] *)
Definition start_block a (deposit event : option (MainBlockHash * u32))
  : result ArchiveError (option MainBlockHash) :=
  match deposit, event with
  | None, None => Ok None
  | Some (block_hash, _), None | None, Some (block_hash, _) => Ok (Some block_hash)
  | Some (deposit_block, deposit_block_applied_height),
    Some (withdrawal_event_block, withdrawal_event_block_applied_height) =>
      match deposit_block_applied_height ?= withdrawal_event_block_applied_height with
      | Lt => Ok (Some withdrawal_event_block)
      | Gt => Ok (Some deposit_block)
      | Eq =>
          event_first ← is_main_descendant a withdrawal_event_block deposit_block;
          match event_first with
          | true => Ok (Some withdrawal_event_block)
          | false =>
              deposit_first ← is_main_descendant a deposit_block withdrawal_event_block;
              _ ← assert_ deposit_first;
              Ok (Some deposit_block)
          end
      end
  end.

(** [main_ancestors(block_hash).take_while(|b| Some(b) != stop).filter_map(f)]: the block
    and its ancestors, newest first, down to [stop]. The walk goes to the parent, so the
    height bounds it. *)
Fixpoint main_ancestors_until {B} (fuel : nat) a (stop : option MainBlockHash)
    (f : MainBlockHash -> result ArchiveError (option B)) (block_hash : MainBlockHash)
  : result ArchiveError (list B) :=
  if block_hash =? all_zeros then Ok []
  else
    match fuel with
    | O => Panic
    | S fuel =>
        header_info ← get_main_header_info a block_hash;
        let ancestor := bhi_block_hash header_info in
        if decide (Some ancestor = stop) then Ok []
        else
          item ← f ancestor;
          items ← main_ancestors_until fuel a stop f (bhi_prev_block_hash header_info);
          Ok (match item with Some item => item :: items | None => items end)
    end.
Definition main_fuel a (block_hash : MainBlockHash) : nat :=
  S (N.to_nat (default 0 (ar_main_block_hash_to_height a !! block_hash))).

(** A block with events, and its information *)
Definition eventful_info a (ancestor : MainBlockHash)
  : result ArchiveError (option (MainBlockHash * BlockInfo)) :=
  block_info ← get_main_block_info a ancestor;
  Ok (match bi_events block_info with [] => None | _ => Some (ancestor, block_info) end).

(** The mainchain blocks whose events the tip applied *)
Definition tip_two_way_peg_data (state : State) a (height : u32) (prev_main_hash : MainBlockHash)
  : result ArchiveError TwoWayPegData :=
  let last_applied_deposit_block := last_applied_before height (st_deposit_blocks state) in
  let last_applied_withdrawal_bundle_event_block :=
    last_applied_before height (st_withdrawal_bundle_event_blocks state) in
  start_block_hash ←
    start_block a last_applied_deposit_block last_applied_withdrawal_bundle_event_block;
  block_infos ← main_ancestors_until (main_fuel a prev_main_hash) a start_block_hash
    (eventful_info a) prev_main_hash;
  Ok (mkTwoWayPegData (reverse block_infos)).

Definition disconnect_tip_ db : result NodeError NodeDb :=
  tip_block_hash ← ok_or (try_get_tip (nd_state db)) (Node_State Error_NoTip);
  tip_header ← map_err Node_Archive (get_header (nd_archive db) tip_block_hash);
  tip_body ← map_err Node_Archive (get_body (nd_archive db) tip_block_hash);
  height ← ok_or (try_get_height (nd_state db)) (Node_State Error_NoTip);
  two_way_peg_data ← map_err Node_Archive
    (tip_two_way_peg_data (nd_state db) (nd_archive db) height (hd_prev_main_hash tip_header));
  state ← map_err Node_State (peg_disconnect (nd_state db) two_way_peg_data);
  state ← map_err Node_State (disconnect_tip state tip_header tip_body);
  mempool ← map_err Node_MemPool (disconnect_tip_mempool (nd_mempool db) tip_body);
  Ok (mkNodeDb state (nd_archive db) mempool).

(** ** Reorganisations *)

(** The block of a tip with its best verification *)
Definition tip_of a (block_hash : BlockHash) : result NodeError Tip :=
  main_block_hash ← map_err Node_Archive (get_best_main_verification a block_hash);
  Ok (mkTip block_hash main_block_hash).
Definition current_tip db : result NodeError (option Tip) :=
  match try_get_tip (nd_state db) with
  | None => Ok None
  | Some tip_hash => Some <$> tip_of (nd_archive db) tip_hash
  end.

(** [better_tip(tip, new_tip)? == Some(new_tip)] *)
Definition is_better a (tip new_tip : Tip) : result NodeError bool :=
  better ← map_err Node_Archive (better_tip a tip new_tip);
  Ok (bool_decide (better = Some new_tip)).

(** [ancestors(..).take_while(..).map(..)]: headers and bodies, newest first, above the
    common ancestor *)
Fixpoint blocks_until (fuel : nat) a (stop : option BlockHash) (block_hash : option BlockHash)
  : result ArchiveError (list (Header * Body)) :=
  match block_hash with
  | None => Ok []
  | Some ancestor =>
      match fuel with
      | O => Panic
      | S fuel =>
          header ← get_header a ancestor;
          if decide (Some ancestor = stop) then Ok []
          else
            body ← get_body a ancestor;
            blocks ← blocks_until fuel a stop (hd_prev_side_hash header);
            Ok ((header, body) :: blocks)
      end
  end.
Definition side_fuel a (block_hash : BlockHash) : nat :=
  S (N.to_nat (default 0 (ar_block_hash_to_height a !! block_hash))).

(** [blocks_to_apply], newest first; the head is the new tip. *)
Definition blocks_to_apply a (common_ancestor : option BlockHash) (new_tip : BlockHash)
  : result ArchiveError (list (Header * Body)) :=
  header ← get_header a new_tip;
  body ← get_body a new_tip;
  ancestors ← blocks_until (side_fuel a new_tip) a common_ancestor (hd_prev_side_hash header);
  Ok ((header, body) :: ancestors).

Fixpoint disconnect_n (n : nat) db : result NodeError NodeDb :=
  match n with
  | O => Ok db
  | S n => db ← disconnect_tip_ db; disconnect_n n db
  end.

(** The number of blocks above the common ancestor *)
Definition disconnects a (tip_height : u32) (common_ancestor : option BlockHash)
  : result NodeError u32 :=
  match common_ancestor with
  | Some common_ancestor =>
      common_ancestor_height ← map_err Node_Archive (archive_get_height a common_ancestor);
      Ok (u32_sub tip_height common_ancestor_height)
  | None => Ok (u32_add tip_height 1)
  end.
Definition disconnect_to_ancestor db (common_ancestor : option BlockHash) : result NodeError NodeDb :=
  match try_get_height (nd_state db) with
  | None => Ok db
  | Some tip_height =>
      n ← disconnects (nd_archive db) tip_height common_ancestor;
      disconnect_n (N.to_nat n) db
  end.

(** [two_way_peg_data_batch], which is popped from its end: oldest first here *)
Definition peg_data_batch a (common_ancestor : option BlockHash) (prev_main_hash : MainBlockHash)
  : result ArchiveError (list (MainBlockHash * BlockInfo)) :=
  common_ancestor_prev_main_hash ←
    match common_ancestor with
    | Some common_ancestor =>
        header ← get_header a common_ancestor; Ok (Some (hd_prev_main_hash header))
    | None => Ok None
    end;
  infos ← main_ancestors_until (main_fuel a prev_main_hash) a common_ancestor_prev_main_hash
    (fun ancestor => block_info ← get_main_block_info a ancestor; Ok (Some (ancestor, block_info)))
    prev_main_hash;
  Ok (reverse infos).

(** [LinkedHashMap::replace]: a known key keeps its place. *)
Fixpoint lhm_replace (key : MainBlockHash) (info : BlockInfo) (l : list (MainBlockHash * BlockInfo))
  : list (MainBlockHash * BlockInfo) :=
  match l with
  | [] => [(key, info)]
  | (k, i) :: l => if k =? key then (key, info) :: l else (k, i) :: lhm_replace key info l
  end.

(** ['fill_2wpd]: the blocks up to [prev_main_hash], and those that are left *)
Fixpoint fill_2wpd (prev_main_hash : MainBlockHash) (batch : list (MainBlockHash * BlockInfo))
    (acc : list (MainBlockHash * BlockInfo))
  : list (MainBlockHash * BlockInfo) * list (MainBlockHash * BlockInfo) :=
  match batch with
  | [] => (acc, [])
  | (block_hash, block_info) :: batch =>
      let acc := lhm_replace block_hash block_info acc in
      if block_hash =? prev_main_hash then (acc, batch) else fill_2wpd prev_main_hash batch acc
  end.

(** A failed block: its body is discarded from the committed archive when the error is
    a state error. *)
Definition abort_reorg (committed : NodeDb) (header : Header) (body : Body) (err : NodeError)
  : NodeDb * result NodeError NodeDb :=
  if is_fatal_reorg_error err then (committed, Err err)
  else
    match delete_body (nd_archive committed) (header_hash header) body with
    | Ok archive => (mkNodeDb (nd_state committed) archive (nd_mempool committed), Err err)
    | Err e => (committed, Err (Node_Archive e))
    | Panic => (committed, Panic)
    end.

(** Whether the transaction is committed at the new tip *)
Definition commits (tip : option Tip) db : result NodeError bool :=
  new_tip_hash ← expect (try_get_tip (nd_state db));
  new_tip ← tip_of (nd_archive db) new_tip_hash;
  match tip with
  | Some tip => is_better (nd_archive db) tip new_tip
  | None => Ok true
  end.

(** The loop over the blocks, oldest first. The result is the committed database and, when
    the loop ends, the current transaction. *)
Fixpoint apply_blocks (tip : option Tip) (blocks : list (Header * Body))
    (batch : list (MainBlockHash * BlockInfo)) (committed db : NodeDb)
  : NodeDb * result NodeError NodeDb :=
  match blocks with
  | [] => (committed, Ok db)
  | (header, body) :: blocks =>
      let '(block_info, batch) := fill_2wpd (hd_prev_main_hash header) batch [] in
      match connect_tip_ db header body (mkTwoWayPegData block_info) with
      | Err err => abort_reorg committed header body err
      | Panic => (committed, Panic)
      | Ok db =>
          match commits tip db with
          | Err err => (committed, Err err)
          | Panic => (committed, Panic)
          | Ok commit => apply_blocks tip blocks batch (if commit then db else committed) db
          end
      end
  end.

(** Everything before the first block is applied; [None]: the new tip is not better. *)
Definition prepare_reorg db (new_tip : Tip)
  : result NodeError
      (option (option Tip * list (Header * Body) * list (MainBlockHash * BlockInfo) * NodeDb)) :=
  let archive := nd_archive db in
  tip ← current_tip db;
  better ← match tip with Some tip => is_better archive tip new_tip | None => Ok true end;
  match better with
  | false => Ok None
  | true =>
      common_ancestor ←
        match tip with
        | Some tip => map_err Node_Archive
            (last_common_ancestor archive (tip_block_hash tip) (tip_block_hash new_tip))
        | None => Ok None
        end;
      blocks ← map_err Node_Archive
        (blocks_to_apply archive common_ancestor (tip_block_hash new_tip));
      db ← disconnect_to_ancestor db common_ancestor;
      _ ← assert_ (bool_decide (try_get_tip (nd_state db) = common_ancestor));
      head ← expect (head blocks);
      batch ← map_err Node_Archive
        (peg_data_batch (nd_archive db) common_ancestor (hd_prev_main_hash head.1));
      Ok (Some (tip, reverse blocks, batch, db))
  end.

Definition reorg_to_tip db (new_tip : Tip) : NodeDb * result NodeError bool :=
  match prepare_reorg db new_tip with
  | Err err => (db, Err err)
  | Panic => (db, Panic)
  | Ok None => (db, Ok false)
  | Ok (Some (tip, blocks, batch, db')) =>
      match apply_blocks tip blocks batch db db' with
      | (committed, Err err) => (committed, Err err)
      | (committed, Panic) => (committed, Panic)
      | (committed, Ok db') =>
          if bool_decide (try_get_tip (nd_state db') = Some (tip_block_hash new_tip))
          then (db', Ok true)
          else (committed, Panic)
      end
  end.

(** ** Events of the net task *)

(** [MailboxItem::NewTipReady]: whether the tip is connected to the side tips and on the
    mainchain, then the reorganisation *)
Definition tip_ready db (new_tip : Tip) : result NodeError bool :=
  let tips := ar_side_tips (nd_archive db) in
  if bool_decide (is_Some (sd_sidechain_tips tips !! tip_block_hash new_tip)) then
    map_err Node_Archive (is_main_descendant (nd_archive db) (tip_main_block_hash new_tip)
      (main_tip_block_hash (sd_mainchain_tip tips)))
  else Ok false.

(** [reorg_applied], and whether the peer that sent the tip is dropped *)
Record Reorg : Type := mkReorg {
  ro_applied : bool;
  ro_drop_peer : bool;
}.
Definition new_tip_ready db (new_tip : Tip) : NodeDb * result NodeError Reorg :=
  let '(db, reorg_result) :=
    match tip_ready db new_tip with
    | Ok true => reorg_to_tip db new_tip
    | Ok false => (db, Ok false)
    | Err err => (db, Err err)
    | Panic => (db, Panic)
    end in
  (db,
   match reorg_result with
   | Ok applied => Ok (mkReorg applied false)
   | Err err => if is_fatal_reorg_error err then Err err else Ok (mkReorg false true)
   | Panic => Panic
   end).

(** [while let Some(state_tip) = .. && !sidechain_tips.contains_key(state_tip)]; the height of
    the tip bounds the turns. *)
Fixpoint disconnect_lost_tips (fuel : nat) a (state : State) : result NodeError State :=
  match try_get_tip state with
  | None => Ok state
  | Some state_tip =>
      if bool_decide (is_Some (sd_sidechain_tips (ar_side_tips a) !! state_tip)) then Ok state
      else
        match fuel with
        | O => Panic
        | S fuel =>
            header ← map_err Node_Archive (get_header a state_tip);
            body ← map_err Node_Archive (get_body a state_tip);
            state ← map_err Node_State (disconnect_tip state header body);
            disconnect_lost_tips fuel a state
        end
  end.

Definition handle_mainchain_block_event db : NodeDb * result NodeError unit :=
  match disconnect_lost_tips (S (N.to_nat (default 0 (try_get_height (nd_state db)))))
          (nd_archive db) (nd_state db) with
  | Err err => (db, Err err)
  | Panic => (db, Panic)
  | Ok state =>
      let db := mkNodeDb state (nd_archive db) (nd_mempool db) in
      match best_side_tip (ar_side_tips (nd_archive db)) with
      | None => (db, Ok tt)
      | Some best =>
          let '(db, res) := reorg_to_tip db
            (mkTip (sct_block_hash best) (sti_main_block_hash (sct_info best))) in
          (db, match res with
               | Ok _ => Ok tt
               | Err err => if is_fatal_reorg_error err then Err err else Ok tt
               | Panic => Panic
               end)
      end
  end.

(** [relay_mempool]: the transactions to relay; those that are not valid leave the pool.
    The errors that are returned are those of the database, which the model has not. *)
Definition relay_step (state : State) (acc : MemPool * list AuthorizedTransaction)
    (transaction : AuthorizedTransaction) : result NodeError (MemPool * list AuthorizedTransaction) :=
  let '(mempool, valid) := acc in
  match validate_transaction state transaction with
  | Ok _ => Ok (mempool, valid ++ [transaction])
  | Err _ => mempool ← expect (delete_tx mempool (txid (at_transaction transaction))); Ok (mempool, valid)
  | Panic => Panic
  end.
Definition relay_mempool db : result NodeError (NodeDb * list AuthorizedTransaction) :=
  '(mempool, valid) ← fold_res (relay_step (nd_state db)) (take_all (nd_mempool db)) (nd_mempool db, []);
  Ok (mkNodeDb (nd_state db) (nd_archive db) mempool, valid).

(** [PeerConnectionInfo::NewTransaction]: whether the transaction is new and relayed *)
Definition new_transaction db (new_tx : AuthorizedTransaction) : NodeDb * bool :=
  match mp_transactions (nd_mempool db) !! txid (at_transaction new_tx) with
  | Some _ => (db, false)
  | None =>
      match put (nd_mempool db) new_tx with
      | Ok mempool => (mkNodeDb (nd_state db) (nd_archive db) mempool, true)
      | _ => (db, false)
      end
  end.

(** *** Headers from a peer *)

(** [handle_response] of a [GetHeaders] request: the header that is expected last, and the
    headers that the first one may build on *)
Record HeadersRequest : Type := mkHeadersRequest {
  hr_start : gset BlockHash;
  hr_end : BlockHash;
  hr_height : u32;
}.

Fixpoint sequential a (prev_side_hash : option BlockHash) (headers : list Header) : bool :=
  match headers with
  | [] => true
  | header :: headers =>
      bool_decide (hd_prev_side_hash header = prev_side_hash) &&
      negb (invalidated_block a (header_hash header)) &&
      sequential a (Some (header_hash header)) headers
  end.

Definition check_headers a (req : HeadersRequest) (headers : list Header)
  : result ArchiveError bool :=
  match headers, last headers with
  | first :: _, Some end_header =>
      if negb (header_hash end_header =? hr_end req) then Ok false
      else
        let start_hash := hd_prev_side_hash first in
        match start_hash with
        | Some hash => if bool_decide (hash ∈ hr_start req) then
            start_height ← archive_get_height a hash;
            Ok ((u32_add start_height (N.of_nat (length headers) mod 2 ^ 32) =? hr_height req) &&
                sequential a start_hash headers)
            else Ok false
        | None => Ok ((u32_sub (N.of_nat (length headers) mod 2 ^ 32) 1 =? hr_height req) &&
                      sequential a start_hash headers)
        end
  | _, _ => Ok false
  end.

(** [for header in &headers]: stored until one has no parent *)
Fixpoint store_headers a (headers : list Header) : result ArchiveError Archive :=
  match headers with
  | [] => Ok a
  | header :: headers =>
      if bool_decide (is_Some (ar_headers a !! header_hash header)) then store_headers a headers
      else
        match hd_prev_side_hash header with
        | Some parent =>
            if bool_decide (is_Some (ar_headers a !! parent)) then
              a ← put_header a header; store_headers a headers
            else Ok a
        | None => a ← put_header a header; store_headers a headers
        end
  end.

(** [false]: the peer is removed. *)
Definition handle_headers a (req : HeadersRequest) (headers : list Header)
  : result ArchiveError (Archive * bool) :=
  valid ← check_headers a req headers;
  match valid with
  | true => a ← store_headers a headers; Ok (a, true)
  | false => Ok (a, false)
  end.

(** ** Operations of the node *)

(** [get_transactions]: one transaction of the pool *)
Record Template : Type := mkTemplate {
  tp_mempool : MemPool;
  tp_fee : Amount;
  tp_transactions : list (FilledTransaction * list Authorization);
  tp_spent_utxos : gset OutPoint;
}.
Definition template_step (state : State) (t : Template) (transaction : AuthorizedTransaction)
  : result NodeError Template :=
  let remove := mempool ← expect (delete_tx (tp_mempool t) (txid (at_transaction transaction)));
    Ok (mkTemplate mempool (tp_fee t) (tp_transactions t) (tp_spent_utxos t)) in
  let inputs : gset OutPoint := list_to_set (tx_inputs (at_transaction transaction)) in
  if negb (bool_decide (tp_spent_utxos t ## inputs)) then remove
  else
    match validate_transaction state transaction with
    | Err _ => remove
    | Panic => Panic
    | Ok _ =>
        filled ← map_err Node_State (fill_authorized_transaction state transaction);
        value_in ← ok_or (spent_value filled.1) Node_AmountOverflow;
        value_out ← ok_or (value_out filled.1) Node_AmountOverflow;
        fee ← ok_or (amount_checked_sub value_in value_out) Node_AmountOverflow;
        total ← ok_or (amount_checked_add (tp_fee t) fee) Node_AmountUnderflow;
        Ok (mkTemplate (tp_mempool t) total (tp_transactions t ++ [filled])
              (tp_spent_utxos t ∪ list_to_set (tx_inputs (ft_transaction filled.1))))
    end.
Definition get_transactions db (number : nat)
  : result NodeError (NodeDb * list (FilledTransaction * list Authorization) * Amount) :=
  t ← fold_res (template_step (nd_state db)) (take_txs number (nd_mempool db))
        (mkTemplate (nd_mempool db) 0 [] ∅);
  Ok (mkNodeDb (nd_state db) (nd_archive db) (tp_mempool t), tp_transactions t, tp_fee t).

(** [broadcast_transaction], but for the network: the stored transaction is relayed when there
    is one. *)
Definition broadcast_transaction db (transaction : AuthorizedTransaction)
  : result NodeError (NodeDb * AuthorizedTransaction) :=
  _ ← map_err Node_State (validate_transaction (nd_state db) transaction);
  match mp_transactions (nd_mempool db) !! txid (at_transaction transaction) with
  | Some stored => Ok (db, stored)
  | None =>
      mempool ← map_err Node_MemPool (put (nd_mempool db) transaction);
      Ok (mkNodeDb (nd_state db) (nd_archive db) mempool, transaction)
  end.

(** [while self.state.try_get_tip()? != header.prev_side_hash] *)
Fixpoint disconnect_until (fuel : nat) (prev_side_hash : option BlockHash) db
  : result NodeError NodeDb :=
  if decide (try_get_tip (nd_state db) = prev_side_hash) then Ok db
  else
    match fuel with
    | O => Panic
    | S fuel => db ← disconnect_tip_ db; disconnect_until fuel prev_side_hash db
    end.
Definition node_invalidate_block db (block_hash : BlockHash) : result NodeError NodeDb :=
  match ar_headers (nd_archive db) !! block_hash with
  | None => Ok db
  | Some header =>
      in_active_chain ←
        match try_get_tip (nd_state db) with
        | Some tip => map_err Node_Archive (is_descendant (nd_archive db) block_hash tip)
        | None => Ok false
        end;
      db ← (match in_active_chain with
            | true => disconnect_until (S (N.to_nat (default 0 (try_get_height (nd_state db)))))
                        (hd_prev_side_hash header) db
            | false => Ok db
            end);
      archive ← map_err Node_Archive (invalidate_block (nd_archive db) block_hash);
      Ok (mkNodeDb (nd_state db) archive (nd_mempool db))
  end.

(** *** Submitting a block *)

Section client.
Context (get_block_infos : MainBlockHash -> u32 -> option (list (BlockHeaderInfo * BlockInfo))).

(** Whether the ancestors' bodies are there; the block's own is stored when it is missing.
    [None]: the block is refused. *)
Definition store_submitted db (block_hash : BlockHash) (body : Body)
  : result NodeError (option NodeDb) :=
  let a := nd_archive db in
  common_ancestor ←
    match try_get_tip (nd_state db) with
    | Some tip => map_err Node_Archive (last_common_ancestor a tip block_hash)
    | None => Ok None
    end;
  missing_bodies ← map_err Node_Archive (get_missing_bodies a block_hash common_ancestor);
  if decide (missing_bodies = []) then Ok (Some db)
  else if decide (missing_bodies = [block_hash]) then
    a ← map_err Node_Archive (put_body a block_hash body);
    Ok (Some (mkNodeDb (nd_state db) a (nd_mempool db)))
  else Ok None.

(** [submit_block] up to the new tip: [None] when the block is refused, else the databases
    in which the new tip is proposed. *)
Definition prepare_block (fuel : nat) db (main_block_hash : MainBlockHash) (header : Header)
    (body : Body) : NodeDb * result NodeError (option Tip) :=
  let block_hash := header_hash header in
  let refused db := (db, Ok None) in
  let with_archive a := mkNodeDb (nd_state db) a (nd_mempool db) in
  if match hd_prev_side_hash header with
     | Some parent => bool_decide (is_Some (ar_headers (nd_archive db) !! parent))
     | None => true
     end
  then
    match request_ancestor_infos get_block_infos fuel (nd_archive db) main_block_hash with
    | Err e => (db, Err (Node_Archive e))
    | Panic => (db, Panic)
    | Ok (a, false) => refused (with_archive a)
    | Ok (a, true) =>
        match put_header a header with
        | Err e => (with_archive a, Err (Node_Archive e))
        | Panic => (with_archive a, Panic)
        | Ok a =>
            match get_bmm_result a block_hash main_block_hash with
            | Err e => (with_archive a, Err (Node_Archive e))
            | Panic => (with_archive a, Panic)
            | Ok Bmm_Failed => refused (with_archive a)
            | Ok Bmm_Verified =>
                match store_submitted (with_archive a) block_hash body with
                | Err e => (with_archive a, Err e)
                | Panic => (with_archive a, Panic)
                | Ok None => refused (with_archive a)
                | Ok (Some db) => (db, Ok (Some (mkTip block_hash main_block_hash)))
                end
            end
        end
    end
  else refused db.

(** The rest of [submit_block], but for the withdrawal bundle that is sent to the mainchain *)
Definition submit_block (fuel : nat) db (main_block_hash : MainBlockHash) (header : Header)
    (body : Body) : NodeDb * result NodeError bool :=
  match prepare_block fuel db main_block_hash header body with
  | (db, Ok (Some new_tip)) =>
      let '(db, res) := new_tip_ready db new_tip in
      (db, match res with Ok reorg => Ok (ro_applied reorg) | Err e => Err e | Panic => Panic end)
  | (db, Ok None) => (db, Ok false)
  | (db, Err e) => (db, Err e)
  | (db, Panic) => (db, Panic)
  end.
End client.
End node.
