(* ===== verification/Reorg.v ===== *)
(** * What a reorganisation commits

    [reorg_to_tip] of [src/lib/node/net_task.rs] connects blocks in one write transaction
    after another: whatever happens, the committed state is the one before, or one whose
    tip is better than the tip before. *)

From S2P Require Import Prelude Types Transaction State Merkle Block TwoWayPeg Mempool Chain.
From S2P Require Import SideTips Lineage Archive ArchiveBodies TipsWf ArchiveIter BetterTip MainchainTask.
From S2P Require Import Node NodeTask.

Section reorg.
Context `{Externals}.

(** The tip of the state, with its best verification in the archive [a], is better than [tip] by [a]. *)
Definition better_state a (tip : option Tip) (s : State) : Prop :=
  exists new_tip, try_get_tip s = Some (tip_block_hash new_tip) /\ tip_of a (tip_block_hash new_tip) = Ok new_tip /\
    forall old, tip = Some old -> better_tip a old new_tip = Ok (Some new_tip).

Definition same_state (db db' : NodeDb) : Prop :=
  nd_state db' = nd_state db /\ nd_mempool db' = nd_mempool db.

Lemma is_better_true a tip new_tip :
  is_better a tip new_tip = Ok true -> better_tip a tip new_tip = Ok (Some new_tip).
Proof.
  unfold is_better. destruct (better_tip a tip new_tip) as [o| |]; cbn; [|done|done].
  intros [= Hb]. by apply bool_decide_eq_true in Hb as ->.
Qed.

Lemma is_better_false a tip new_tip :
  is_better a tip new_tip = Ok false -> better_tip a tip new_tip <> Ok (Some new_tip).
Proof.
  unfold is_better. destruct (better_tip a tip new_tip) as [o| |]; cbn; [|done|done].
  intros [= Hb] [= ->]. by rewrite bool_decide_true in Hb.
Qed.

Lemma commits_better tip db : commits tip db = Ok true -> better_state (nd_archive db) tip (nd_state db).
Proof.
  intros Hc. unfold commits in Hc. apply bind_Ok in Hc as (h & Hh & Hc).
  apply bind_Ok in Hc as (new_tip & Ht & Hc).
  assert (tip_block_hash new_tip = h) as <-.
  { unfold tip_of in Ht. by apply bind_Ok in Ht as (m & _ & [= <-]). }
  destruct (try_get_tip (nd_state db)) as [h'|] eqn:Htip; [|done]. injection Hh as ->.
  exists new_tip. split; [done|]. split; [done|]. intros old ->. by apply is_better_true.
Qed.

(** The bodies of blocks, and what follows from them, have no part in the choice between tips. *)
Section frame.
Context (a : Archive) (f : gmap BlockHash Body -> gmap BlockHash Body)
  (g : gmap Txid (gmap BlockHash u32) -> gmap Txid (gmap BlockHash u32)) (t : SideTips).
Let a' := put_side_tips t (put_inclusions g (put_bodies f a)).

Lemma ancestors_find_map_frame {B} (h : BlockHash -> result ArchiveError (option B)) fuel : forall b,
  ancestors_find_map a' h fuel b = ancestors_find_map a h fuel b.
Proof.
  induction fuel as [|fuel IH]; intros b; cbn [ancestors_find_map];
    change (ancestor_headers_next a' b) with (ancestor_headers_next a b);
    destruct (ancestor_headers_next a b) as [[[[c hd]|] next]| |]; try done.
  cbn [mbind result_bind]. destruct (h c) as [[x|]| |]; try done. apply IH.
Qed.
Lemma find_ancestor_frame {B} (h : BlockHash -> result ArchiveError (option B)) b k :
  find_ancestor a' h b k = find_ancestor a h b k.
Proof. apply ancestors_find_map_frame. Qed.

(** One step of two equal computations *)
Ltac same_step := match goal with
  | |- (?c ≫= _) = (?c' ≫= _) => change c with c'; destruct c' as [?| |]; [|done|done]; cbn [mbind result_bind]
  end.
Lemma better_tip_frame tip0 tip1 : better_tip a' tip0 tip1 = better_tip a tip0 tip1.
Proof.
  unfold better_tip. case_decide; [done|]. do 2 same_step.
  repeat (match goal with |- (if ?b then _ else _) = _ => destruct b; [done|] end). do 2 same_step.
  case_match; case_match; try done; unfold better_tip_tie; try (case_match; [done|]).
  all: repeat same_step; rewrite ?find_ancestor_frame; repeat same_step; try done.
  all: rewrite find_ancestor_frame; repeat same_step; done.
Qed.
End frame.

Lemma disconnect_tips_loop_frame fuel : forall q a a', disconnect_tips_loop fuel q a = Ok a' -> same_archive a a'.
Proof.
  induction fuel as [|fuel IH]; intros [|b q] a a' Hl; cbn [disconnect_tips_loop] in Hl; try done;
    try (by injection Hl as <-).
  destruct (_ !! b) as [i|]; [|by eapply IH]. apply bind_Ok in Hl as (s & _ & Hl).
  etransitivity; [|by eapply IH]. by eexists.
Qed.
Lemma delete_body_frame a b body a' : delete_body a b body = Ok a' ->
  exists f g t, a' = put_side_tips t (put_inclusions g (put_bodies f a)).
Proof.
  unfold delete_body. intros [t ->]%disconnect_tips_loop_frame.
  destruct (delete_inclusion_frame b (bd_transactions body) (put_bodies (delete b) a)) as [g ->]. by exists (delete b), g, t.
Qed.

Lemma delete_body_better a b body a' tip s :
  delete_body a b body = Ok a' -> better_state a tip s -> better_state a' tip s.
Proof.
  intros (f & g & t & ->)%delete_body_frame (new_tip & Htip & Hof & Hb). exists new_tip. split; [done|]. split; [done|].
  intros old Hold. rewrite better_tip_frame. by apply Hb.
Qed.

(** The database that is left when a block fails: the committed one, less the body of the block *)
Lemma abort_reorg_same committed header body err c r tip :
  abort_reorg committed header body err = (c, r) -> same_state committed c /\ (forall db, r <> Ok db) /\
  (better_state (nd_archive committed) tip (nd_state committed) -> better_state (nd_archive c) tip (nd_state c)).
Proof.
  unfold abort_reorg. destruct (is_fatal_reorg_error err); [by intros [= <- <-]|].
  destruct (delete_body _ _ _) eqn:Hd; intros [= <- <-]; try done. split_and!; [done|done|].
  by apply (delete_body_better _ _ _ _ _ _ Hd).
Qed.

(** The committed database of the loop is the first one, up to its archive, or has a better tip. *)
Lemma apply_blocks_committed tip blocks : forall batch committed db c r,
  apply_blocks tip blocks batch committed db = (c, r) ->
  (same_state committed c \/ better_state (nd_archive c) tip (nd_state c)) /\
  (better_state (nd_archive committed) tip (nd_state committed) -> better_state (nd_archive c) tip (nd_state c)).
Proof.
  induction blocks as [|[header body] blocks IH]; intros batch committed db c r Ha; cbn [apply_blocks] in Ha.
  { injection Ha as <- _. by split; [left|]. }
  destruct (fill_2wpd _ _ _) as [infos batch'].
  destruct (connect_tip_ db header body _) as [db1|err|]; [| |injection Ha as <- _; by split; [left|]].
  - destruct (commits tip db1) as [[]|err|] eqn:Hc; [| |injection Ha as <- _; by split; [left|]..].
    + apply commits_better in Hc. destruct (IH _ _ _ _ _ Ha) as [_ Hb]. split; [right|intros _]; by apply Hb.
    + by apply IH in Ha.
  - destruct (abort_reorg_same _ _ _ _ _ _ tip Ha) as (Hs & _ & Hb). split; [by left|done].
Qed.
End reorg.

(** C6 Whatever the outcome of a reorganisation, an error in the middle included, what is committed is one of
    three: the state and the pool from before; a state whose tip, with its best verification in the archive that
    is left, is better by [better_tip] of that archive than the tip from before; the tip that was asked for,
    which is better by [better_tip] of the archive from before. When success is reported, it is the last of
    these. When it is reported that nothing was attempted, nothing has changed, and the tip that was asked for
    is not better. Where there was no tip before, every tip counts as better. *)
Theorem reorg_never_worse `{Externals} (db : NodeDb) (new_tip : Tip) :
  let '(db', res) := reorg_to_tip db new_tip in
  let requested := try_get_tip (nd_state db') = Some (tip_block_hash new_tip) /\
    exists tip, current_tip db = Ok tip /\
      forall old, tip = Some old -> better_tip (nd_archive db) old new_tip = Ok (Some new_tip) in
  (same_state db db' \/
   (exists tip, current_tip db = Ok tip /\ better_state (nd_archive db') tip (nd_state db')) \/
   requested) /\
  (res = Ok true -> requested) /\
  (res = Ok false -> db' = db /\
    exists old, current_tip db = Ok (Some old) /\ better_tip (nd_archive db) old new_tip <> Ok (Some new_tip)).
Proof.
  unfold reorg_to_tip. destruct (prepare_reorg db new_tip) as [attempt|err|] eqn:Hp; [|by split_and!; [by left| |]..].
  unfold prepare_reorg in Hp. apply bind_Ok in Hp as (tip & Htip & Hp). apply bind_Ok in Hp as ([] & Hbetter & Hp).
  2: { injection Hp as <-. destruct tip as [old|]; [|done]. split_and!; [by left|done|]. intros _. split; [done|].
       exists old. split; [done|]. by apply is_better_false. }
  apply bind_Ok in Hp as (c & _ & Hp). apply bind_Ok in Hp as (bs & _ & Hp). apply bind_Ok in Hp as (db2 & _ & Hp).
  apply bind_Ok in Hp as (_ & _ & Hp). apply bind_Ok in Hp as (hd & _ & Hp). apply bind_Ok in Hp as (b & _ & [= <-]).
  assert (exists tip, current_tip db = Ok tip /\
    forall old, tip = Some old -> better_tip (nd_archive db) old new_tip = Ok (Some new_tip)) as Hnew.
  { exists tip. split; [done|]. intros old ->. by apply is_better_true. }
  destruct (apply_blocks tip (reverse bs) b db db2) as [c' [db'|err|]] eqn:Ha.
  1: case_bool_decide as Hend; [by split_and!; [right; right| |]|].
  all: apply apply_blocks_committed in Ha as [[Hs|Hs] _]; split_and!; try done; [by left|right; left; by exists tip].
Qed.

(** ** Mainchain reorganisations *)

Lemma disconnect_main_block_tips `{WorkExternals} a parent c a' :
  disconnect_main_block a parent c = Ok a' ->
  sd_sidechain_tips (ar_side_tips a') = sd_sidechain_tips (ar_side_tips a).
Proof.
  unfold disconnect_main_block. destruct (disconnect_mainchain_tip _ _ _) as [t| |] eqn:Hd; [|done|done].
  intros [= <-]. cbn. unfold disconnect_mainchain_tip in Hd.
  destruct (sd_mainchain_tip (ar_side_tips a)) as [w i].
  apply bind_Ok in Hd as (i' & _ & Hd). apply bind_Ok in Hd as (n & _ & Hd).
  by apply bind_Ok in Hd as (o & _ & [= <-]).
Qed.

(** Disconnecting a mainchain block leaves every side tip in [sidechain_tips], the one it
    committed to included, so the net task, which disconnects the state's tip while it is
    not among them, keeps a tip whose commitment is no longer on the mainchain. *)
Lemma orphaned_tip_kept `{Externals} `{WorkExternals} a a' parent c s tip fuel :
  try_get_tip s = Some tip -> is_Some (sd_sidechain_tips (ar_side_tips a) !! tip) ->
  disconnect_main_block a parent c = Ok a' -> disconnect_lost_tips fuel a' s = Ok s.
Proof.
  intros Ht Hs Hd. apply disconnect_main_block_tips in Hd. destruct fuel; cbn [disconnect_lost_tips];
    by rewrite Ht, Hd, bool_decide_true.
Qed.
