(* ===== verification/NodePool.v ===== *)
(** * Block templates and relay

    [get_transactions] of [src/lib/node/mod.rs], which a miner fills blocks from, and
    [relay_mempool] of [src/lib/node/net_task.rs]: both go through the pool, keep the
    transactions that the state accepts and remove the others. *)

From S2P Require Import Prelude Types Transaction Sample Authorization State Merkle Block BlockValue.
From S2P Require Import Mempool Archive SideTips Node NodeTask.

(** ** Results that do not panic *)

Definition no_panic {E A} (r : result E A) : Prop := r <> Panic.

Section no_panic.
Context {E : Type}.
Lemma no_panic_bind {A B} (r : result E A) (f : A -> result E B) :
  no_panic r -> (forall x, r = Ok x -> no_panic (f x)) -> no_panic (x ← r; f x).
Proof. intros Hr Hf. destruct r; [by apply Hf|done|done]. Qed.
Lemma no_panic_ensure b (e : E) : no_panic (ensure b e).
Proof. by destruct b. Qed.
Lemma no_panic_ok_or {A} (o : option A) (e : E) : no_panic (ok_or o e).
Proof. by destruct o. Qed.
Lemma no_panic_map_err {F A} (f : E -> F) (r : result E A) : no_panic r -> no_panic (map_err f r).
Proof. by destruct r. Qed.
Lemma no_panic_fold {S A} (f : S -> A -> result E S) l s :
  (forall s x, no_panic (f s x)) -> no_panic (fold_res f l s).
Proof.
  intros Hf. revert s. induction l as [|x l IH]; intros s; [done|]. cbn [fold_res].
  apply no_panic_bind; [apply Hf|]. intros s' _. apply IH.
Qed.
Lemma no_panic_map {A B} (f : A -> result E B) l : (forall x, no_panic (f x)) -> no_panic (map_res f l).
Proof.
  intros Hf. induction l as [|x l IH]; [done|]. cbn [map_res].
  apply no_panic_bind; [apply Hf|]. intros y _. by apply no_panic_bind.
Qed.
End no_panic.

Create HintDb no_panic discriminated.
#[export] Hint Resolve no_panic_bind no_panic_ensure no_panic_ok_or no_panic_map_err
  no_panic_fold no_panic_map : no_panic.
#[export] Hint Extern 1 (no_panic (Ok _)) => discriminate : no_panic.
#[export] Hint Extern 1 (no_panic (Err _)) => discriminate : no_panic.
#[export] Hint Extern 2 (no_panic (match ?x with _ => _ end)) => destruct x : no_panic.

Section node.
Context `{Externals}.

Lemma validate_no_panic s atx : no_panic (validate_transaction s atx).
Proof.
  unfold validate_transaction, fill_transaction, check_addresses, validate_filled_transaction,
    validate_reservations, validate_bitnames, validate_batch_icann, fee.
  assert (no_panic (verify_authorized_transaction atx)) as Hv.
  { unfold verify_authorized_transaction, check_count, verify_batch. eauto 10 with no_panic. }
  repeat first [apply no_panic_bind; [|intros ? _]|apply no_panic_fold; intros ? ?
    |apply no_panic_map; intros ?|apply no_panic_map_err
    |solve [eauto with no_panic]|case_match]; try done.
Qed.

(** ** Removing transactions *)

(** A run of removals: the pool stays consistent and shrinks. *)
Definition shrinks (m m' : MemPool) : Prop := pool_wf m' /\ mp_transactions m' ⊆ mp_transactions m.

Lemma delete_tx_Ok m t :
  pool_wf m -> exists m', delete_tx m t = Some m' /\ shrinks m m' /\ mp_transactions m' !! t = None.
Proof.
  intros Hw. destruct (delete_loop_total (delete_fuel m) [t] m) as [m' Hm']; [unfold delete_fuel; cbn; lia|].
  exists m'. split; [done|]. pose proof (delete_loop_exact _ _ _ _ Hw Hm') as (Hw' & Hs & Hex).
  split; [done|]. apply Hex. exists t. split; [apply list_elem_of_here|done].
Qed.
Lemma shrinks_refl m : pool_wf m -> shrinks m m.
Proof. by split. Qed.
Lemma shrinks_trans m1 m2 m3 : shrinks m1 m2 -> shrinks m2 m3 -> shrinks m1 m3.
Proof. intros [_ H1] [Hw H2]. split; [done|]. by etransitivity. Qed.
Lemma shrinks_None m m' t : shrinks m m' -> mp_transactions m !! t = None -> mp_transactions m' !! t = None.
Proof. intros [_ Hs] Hn. by eapply lookup_weaken_None. Qed.

(** The transactions that the state accepts *)
Definition state_accepts (s : State) (atx : AuthorizedTransaction) : bool := is_ok (validate_transaction s atx).
Definition accepted_of (s : State) (l : list AuthorizedTransaction) : list AuthorizedTransaction :=
  List.filter (state_accepts s) l.

Lemma accepted_dec s atx :
  (exists f, validate_transaction s atx = Ok f /\ state_accepts s atx = true) \/
  (exists e, validate_transaction s atx = Err e /\ state_accepts s atx = false).
Proof.
  unfold state_accepts. pose proof (validate_no_panic s atx) as Hn.
  destruct (validate_transaction s atx); [left|right|by destruct Hn]; eauto.
Qed.

(** ** Relaying *)

Lemma relay_fold s l : forall m valid, pool_wf m ->
  exists m', fold_res (relay_step s) l (m, valid) = Ok (m', valid ++ accepted_of s l) /\ shrinks m m' /\
    Forall (fun atx => state_accepts s atx = false -> mp_transactions m' !! txid (at_transaction atx) = None) l.
Proof.
  induction l as [|atx l IH]; intros m valid Hw.
  { exists m. cbn. rewrite app_nil_r. split_and!; [done|by apply shrinks_refl|done]. }
  cbn [fold_res]. unfold relay_step at 2.
  destruct (accepted_dec s atx) as [(f & Hv & Ha)|(e & Hv & Ha)]; rewrite Hv.
  - cbn [mbind result_bind]. destruct (IH m (valid ++ [atx]) Hw) as (m' & Hf & Hs & Hall).
    exists m'. cbn [accepted_of List.filter]. rewrite Ha. split_and!; [by rewrite Hf, <-app_assoc|done|].
    constructor; [congruence|done].
  - destruct (delete_tx_Ok m (txid (at_transaction atx)) Hw) as (m1 & -> & Hs1 & Hn).
    cbn [expect mbind result_bind]. destruct (IH m1 valid (proj1 Hs1)) as (m' & Hf & Hs & Hall).
    exists m'. cbn [accepted_of List.filter]. rewrite Ha.
    split_and!; [done|by eapply shrinks_trans|]. constructor; [|done]. intros _. by eapply shrinks_None.
Qed.

Lemma take_all_stored m t atx :
  mp_transactions m !! t = Some atx -> atx ∈ take_all m.
Proof.
  intros Ht. unfold take_all. apply list_elem_of_fmap. exists (t, atx). split; [done|].
  rewrite merge_sort_Permutation. by apply elem_of_map_to_list.
Qed.

(** ** Templates *)

Lemma map_sum_spend u ins : forall r fos,
  NoDup ins -> (forall o, o ∈ ins -> r !! o = u !! o) ->
  Forall2 (fun o fo => (u : gmap OutPoint FilledOutput) !! o = Some fo) ins fos ->
  exists r', sum_N (filled_output_get_value <$> fos) + utxo_value r' = utxo_value r /\
    forall o, o ∉ ins -> r' !! o = (r : gmap OutPoint FilledOutput) !! o.
Proof.
  induction ins as [|o ins IH]; intros r fos Hnd Hr Hl.
  { apply Forall2_nil_inv_l in Hl as ->. by exists r. }
  apply Forall2_cons_inv_l in Hl as (fo & fos' & Ho & Hl & ->). apply NoDup_cons in Hnd as [Hni Hnd].
  destruct (IH (delete o r) fos' Hnd) as (r' & Hsum & Hr').
  { intros o' Ho'. rewrite lookup_delete_ne by congruence. apply Hr. by apply list_elem_of_further. }
  { done. }
  exists r'. split.
  - rewrite fmap_cons. unfold utxo_value, sum_N in *. cbn [foldr].
    rewrite (map_sum_delete _ r o fo) by (rewrite (Hr o); [done|apply list_elem_of_here]). lia.
  - intros o' [Hne Ho']%not_elem_of_cons. rewrite (Hr' o' Ho'). by rewrite lookup_delete_ne by congruence.
Qed.

(** The fees so far are covered by what the outputs that are left are less worth. *)
Definition covered (u : gmap OutPoint FilledOutput) (t : Template) : Prop :=
  exists r, tp_fee t + utxo_value r <= utxo_value u /\
    forall o, o ∉ tp_spent_utxos t -> r !! o = u !! o.

Lemma validate_Ok_inv s atx f :
  validate_transaction s atx = Ok f ->
  exists ftx, fill_transaction s (at_transaction atx) = Ok ftx /\ fee ftx = Ok f /\
    ft_transaction ftx = at_transaction atx /\
    Forall2 (fun o fo => st_utxos s !! o = Some fo) (inputs_of atx) (ft_spent_utxos ftx).
Proof.
  intros Hv. unfold validate_transaction in Hv. apply bind_Ok in Hv as (ftx & Hf & Hv).
  apply bind_Ok in Hv as (_ & _ & Hv). apply bind_Ok in Hv as (_ & _ & Hv).
  apply bind_Ok in Hv as (_ & _ & Hv). unfold validate_filled_transaction in Hv.
  do 4 apply bind_Ok in Hv as (? & _ & Hv). exists ftx. split; [done|].
  destruct (fee ftx) as [f'| |] eqn:Hfee; [|done|done]. injection Hv as ->. split; [done|].
  unfold fill_transaction in Hf. apply bind_Ok in Hf as (l & Hl & [= <-]). split; [done|]. cbn.
  unfold inputs_of. clear -Hl. revert l Hl. induction (tx_inputs (at_transaction atx)) as [|o ins IH]; intros l Hl.
  - cbn in Hl. injection Hl as <-. constructor.
  - cbn [map_res] in Hl. apply bind_Ok in Hl as (fo & Hfo%ok_or_Ok & Hl).
    apply bind_Ok in Hl as (l' & Hl' & [= <-]). constructor; [done|by apply IH].
Qed.

(** One transaction of the pool, with inputs that no earlier one spends *)
Lemma template_accept s t atx f :
  covered (st_utxos s) t -> utxo_value (st_utxos s) <= AMOUNT_MAX ->
  NoDup (inputs_of atx) -> (forall o, o ∈ inputs_of atx -> o ∉ tp_spent_utxos t) ->
  validate_transaction s atx = Ok f ->
  exists ftx, fill_authorized_transaction s atx = Ok (ftx, at_authorizations atx) /\
    let t' := mkTemplate (tp_mempool t) (tp_fee t + f)
      (tp_transactions t ++ [(ftx, at_authorizations atx)])
      (tp_spent_utxos t ∪ list_to_set (inputs_of atx)) in
    template_step s t atx = Ok t' /\ covered (st_utxos s) t'.
Proof.
  intros (r & Hr & Hfree) Hmax Hnd Hdisj Hv.
  destruct (validate_Ok_inv s atx f Hv) as (ftx & Hfill & Hfee & Htx & Hl).
  assert (fill_authorized_transaction s atx = Ok (ftx, at_authorizations atx)) as Hfa
    by (unfold fill_authorized_transaction; by rewrite Hfill).
  exists ftx. split; [done|].
  destruct (map_sum_spend (st_utxos s) (inputs_of atx) r (ft_spent_utxos ftx)) as (r' & Hsum & Hr'); [done| |done|].
  { intros o Ho. by apply Hfree, Hdisj. }
  assert (exists vin vout, spent_value ftx = Some vin /\ value_out ftx = Some vout /\
    vin = vout + f /\ vin = sum_N (filled_output_get_value <$> ft_spent_utxos ftx)) as (vin & vout & Hvin & Hvout & Hio & Hval).
  { apply fee_Ok in Hfee as [Hle Heq]. rewrite Htx in Heq. exists (sum_N (filled_output_get_value <$> ft_spent_utxos ftx)),
      (sum_N (output_get_value <$> tx_outputs (at_transaction atx))).
    unfold spent_value, value_out. rewrite Htx, !checked_sum_Some. split_and!; [done|done|done|lia|lia|done]. }
  split.
  - unfold template_step. rewrite bool_decide_true.
    2:{ intros o Ho Hin%elem_of_list_to_set. by apply (Hdisj o). }
    cbn [negb]. rewrite Hv, Hfa. cbn [map_err mbind result_bind fst]. rewrite Hvin, Hvout.
    cbn [ok_or mbind result_bind].
    assert (amount_checked_sub vin vout = Some f) as ->.
    { unfold amount_checked_sub. rewrite (proj2 (N.leb_le _ _)) by lia. f_equal. lia. }
    cbn [ok_or mbind result_bind].
    assert (amount_checked_add (tp_fee t) f = Some (tp_fee t + f)) as ->.
    { unfold amount_checked_add. rewrite (proj2 (N.leb_le _ _)) by lia. done. }
    cbn [ok_or mbind result_bind]. by rewrite Htx.
  - exists r'. cbn. split; [lia|]. intros o Ho. apply not_elem_of_union in Ho as [H1 H2].
    rewrite not_elem_of_list_to_set in H2. rewrite (Hr' o H2). by apply Hfree.
Qed.

Lemma template_reject s t atx e :
  validate_transaction s atx = Err e -> pool_wf (tp_mempool t) ->
  exists m, template_step s t atx =
      Ok (mkTemplate m (tp_fee t) (tp_transactions t) (tp_spent_utxos t)) /\
    shrinks (tp_mempool t) m /\ mp_transactions m !! txid (at_transaction atx) = None.
Proof.
  intros Hv Hw. destruct (delete_tx_Ok (tp_mempool t) (txid (at_transaction atx)) Hw) as (m & Hm & Hs & Hn).
  exists m. unfold template_step. rewrite Hm, Hv. cbn [expect mbind result_bind].
  by destruct (negb _).
Qed.

Lemma template_fold s l : forall t,
  covered (st_utxos s) t -> utxo_value (st_utxos s) <= AMOUNT_MAX -> pool_wf (tp_mempool t) ->
  NoDup (concat (inputs_of <$> l)) ->
  (forall o, o ∈ concat (inputs_of <$> l) -> o ∉ tp_spent_utxos t) ->
  exists t' txs fees, fold_res (template_step s) l t = Ok t' /\
    tp_transactions t' = tp_transactions t ++ txs /\ tp_fee t' = tp_fee t + sum_N fees /\
    Forall2 (fun p atx => fill_authorized_transaction s atx = Ok p) txs (accepted_of s l) /\
    Forall2 (fun f atx => validate_transaction s atx = Ok f) fees (accepted_of s l) /\
    covered (st_utxos s) t' /\ shrinks (tp_mempool t) (tp_mempool t') /\
    Forall (fun atx => state_accepts s atx = false ->
      mp_transactions (tp_mempool t') !! txid (at_transaction atx) = None) l.
Proof.
  induction l as [|atx l IH]; intros t Hc Hmax Hw Hnd Hfree.
  { exists t, [], []. rewrite app_nil_r, N.add_0_r. split_and!; try done. }
  rewrite fmap_cons in Hnd, Hfree. cbn [concat] in Hnd, Hfree.
  apply NoDup_app in Hnd as (Hnda & Hdis & Hnd). cbn [fold_res].
  destruct (accepted_dec s atx) as [(f & Hv & Ha)|(e & Hv & Ha)].
  - destruct (template_accept s t atx f Hc Hmax Hnda) as (ftx & Hfa & -> & Hc'); [|done|].
    { intros o Ho. apply Hfree. by apply elem_of_app; left. }
    cbn [mbind result_bind]. set (t1 := mkTemplate _ _ _ _) in *.
    destruct (IH t1 Hc' Hmax Hw Hnd) as (t' & txs & fees & -> & Htx & Hfee & H1 & H2 & Hcov & Hs & Hall).
    { cbn. intros o Ho. apply not_elem_of_union. rewrite not_elem_of_list_to_set.
      split; [apply Hfree; by apply elem_of_app; right|]. intros Hin. by apply (Hdis o). }
    exists t', ((ftx, at_authorizations atx) :: txs), (f :: fees).
    cbn [accepted_of List.filter]. rewrite Ha. cbn in Htx, Hfee. split_and!; [done| | |by constructor|by constructor|done|done|].
    + by rewrite Htx, <-app_assoc.
    + rewrite Hfee. unfold sum_N. cbn. lia.
    + constructor; [congruence|done].
  - destruct (template_reject s t atx e Hv Hw) as (m & -> & Hsm & Hn). cbn [mbind result_bind].
    set (t1 := mkTemplate m _ _ _).
    destruct (IH t1 Hc Hmax (proj1 Hsm) Hnd) as (t' & txs & fees & -> & Htx & Hfee & H1 & H2 & Hcov & Hs & Hall).
    { intros o Ho. apply Hfree. by apply elem_of_app; right. }
    exists t', txs, fees. cbn [accepted_of List.filter]. rewrite Ha.
    split_and!; try done; [by eapply shrinks_trans|]. constructor; [|done]. intros _. by eapply shrinks_None.
Qed.

Lemma get_transactions_spec db n :
  pool_wf (nd_mempool db) -> utxo_value (st_utxos (nd_state db)) <= AMOUNT_MAX ->
  let taken := take_txs n (nd_mempool db) in
  let accepted_txs := accepted_of (nd_state db) taken in
  exists db' txs fees, get_transactions db n = Ok (db', txs, sum_N fees) /\
    Forall2 (fun p atx => fill_authorized_transaction (nd_state db) atx = Ok p) txs accepted_txs /\
    Forall2 (fun f atx => validate_transaction (nd_state db) atx = Ok f) fees accepted_txs /\
    NoDup (concat (inputs_of <$> taken)) /\ sum_N fees <= AMOUNT_MAX /\
    nd_state db' = nd_state db /\ nd_archive db' = nd_archive db /\ pool_wf (nd_mempool db') /\
    Forall (fun atx => state_accepts (nd_state db) atx = false ->
      mp_transactions (nd_mempool db') !! txid (at_transaction atx) = None) taken.
Proof.
  intros Hw Hmax taken accepted_txs. pose proof (proj1 (mempool_take_no_conflict _ n Hw)) as Hnd.
  destruct (template_fold (nd_state db) taken (mkTemplate (nd_mempool db) 0 [] ∅))
    as (t & txs & fees & Hf & Htx & Hfee & H1 & H2 & (r & Hr & _) & Hs & Hall); [|done..|].
  { exists (st_utxos (nd_state db)). cbn. split; [lia|done]. }
  cbn in Htx, Hfee. exists (mkNodeDb (nd_state db) (nd_archive db) (tp_mempool t)), txs, fees.
  unfold get_transactions. fold taken. rewrite Hf. cbn [mbind result_bind].
  rewrite Htx, Hfee in *. split_and!; try done; [lia|by apply Hs].
Qed.
End node.

(** ** Properties *)

(** A block template always exists, and holds exactly the transactions among the first of
    the pool that the state accepts, filled with the outputs they spend; no two of them
    spend the same output, the reported fee is the sum of theirs, and what the
    state does not accept has left the pool. *)
Theorem get_transactions_template `{Externals} (db : NodeDb) (n : nat) :
  pool_wf (nd_mempool db) -> utxo_value (st_utxos (nd_state db)) <= AMOUNT_MAX ->
  let taken := take_txs n (nd_mempool db) in
  let accepted_txs := accepted_of (nd_state db) taken in
  exists db' txs fees, get_transactions db n = Ok (db', txs, sum_N fees) /\
    Forall2 (fun p atx => fill_authorized_transaction (nd_state db) atx = Ok p) txs accepted_txs /\
    Forall2 (fun f atx => validate_transaction (nd_state db) atx = Ok f) fees accepted_txs /\
    NoDup (concat (inputs_of <$> taken)) /\
    nd_state db' = nd_state db /\ nd_archive db' = nd_archive db /\ pool_wf (nd_mempool db') /\
    Forall (fun atx => state_accepts (nd_state db) atx = false ->
      mp_transactions (nd_mempool db') !! txid (at_transaction atx) = None) taken.
Proof.
  intros Hw Hmax. destruct (get_transactions_spec db n Hw Hmax)
    as (db' & txs & fees & Hg & H1 & H2 & H3 & _ & Hrest). eauto 12.
Qed.

(** After [relay_mempool], every transaction that is left in the pool is accepted by the
    state; what is relayed is exactly what the state accepts. *)
Theorem relay_mempool_accepted `{Externals} (db : NodeDb) :
  pool_wf (nd_mempool db) ->
  exists db', relay_mempool db = Ok (db', accepted_of (nd_state db) (take_all (nd_mempool db))) /\
    nd_state db' = nd_state db /\ pool_wf (nd_mempool db') /\
    mp_transactions (nd_mempool db') ⊆ mp_transactions (nd_mempool db) /\
    map_Forall (fun _ atx => state_accepts (nd_state db) atx = true) (mp_transactions (nd_mempool db')).
Proof.
  intros Hw. destruct (relay_fold (nd_state db) (take_all (nd_mempool db)) (nd_mempool db) [] Hw)
    as (m & Hf & [Hwm Hsub] & Hall). exists (mkNodeDb (nd_state db) (nd_archive db) m).
  unfold relay_mempool. rewrite Hf. split_and!; [done|done|done|done|]. cbn.
  intros t atx Ht. destruct (state_accepts (nd_state db) atx) eqn:Ha; [done|exfalso].
  pose proof (lookup_weaken _ _ _ _ Ht Hsub) as Hin. rewrite Forall_forall in Hall.
  pose proof (Hall atx (take_all_stored _ _ _ Hin) Ha) as Hn.
  rewrite (pw_txid _ Hw _ _ Hin) in Hn. congruence.
Qed.

(** ** Samples *)

Module NodePoolSamples.
#[local] Existing Instance Sample.externals.
Definition transfer : AuthorizedTransaction := StateSamples.signed StateSamples.transfer.
(** A pool with a transaction that the state accepts and one that spends unknown outputs *)
Definition pool0 : MemPool := match put empty_pool transfer with Ok m => m | _ => empty_pool end.
Definition pool : MemPool := match put pool0 MempoolSamples.spender with Ok m => m | _ => pool0 end.
Lemma pool_ok : pool_wf pool.
Proof.
  apply (put_wf pool0 MempoolSamples.spender); [|vm_compute; reflexivity..].
  apply (put_wf empty_pool transfer); [apply empty_pool_wf|vm_compute; reflexivity..].
Qed.
Definition db : NodeDb := mkNodeDb StateSamples.state archive_new pool.
End NodePoolSamples.

Lemma get_transactions_template_witness :
  exists db' txs fees, @get_transactions Sample.externals NodePoolSamples.db 10 =
      Ok (db', txs, sum_N fees) /\ sum_N fees = 100 /\ length txs = 1%nat /\
    size (mp_transactions (nd_mempool db')) = 1%nat.
Proof.
  destruct (@get_transactions_template Sample.externals NodePoolSamples.db 10
    NodePoolSamples.pool_ok ltac:(vm_compute; discriminate)) as (db' & txs & fees & Hg & _).
  exists db', txs, fees. split; [exact Hg|]. clear -Hg. generalize dependent (sum_N fees). intros fee Hg.
  vm_compute in Hg. injection Hg as <- <- <-. vm_compute. split; [reflexivity|]. split; reflexivity.
Defined.

Lemma relay_mempool_accepted_witness :
  exists db', @relay_mempool Sample.externals NodePoolSamples.db =
      Ok (db', [NodePoolSamples.transfer]) /\ size (mp_transactions (nd_mempool db')) = 1%nat.
Proof.
  destruct (@relay_mempool_accepted Sample.externals NodePoolSamples.db NodePoolSamples.pool_ok)
    as (db' & Hr & _).
  exists db'. assert (@accepted_of Sample.externals (nd_state NodePoolSamples.db)
    (take_all (nd_mempool NodePoolSamples.db)) = [NodePoolSamples.transfer]) as Ha
    by (vm_compute; reflexivity).
  rewrite Ha in Hr. split; [exact Hr|]. vm_compute in Hr. injection Hr as <-. vm_compute. reflexivity.
Defined.
