(* ===== verification/NodeRollback.v ===== *)
(** * Disconnecting the tip of the node

    [disconnect_tip_] of [src/lib/node/net_task.rs] finds the mainchain blocks whose events
    the tip applied in the books of the state and in the archive. When it finds those
    that [connect_tip_] was given, it restores the state. *)

From S2P Require Import Prelude Types Transaction Sample Rollback BitNames Authorization State.
From S2P Require Import Merkle Block BlockRollback Ownership BlockChain TwoWayPeg PegMoves.
From S2P Require Import PegBooks PegRollback PegChain Mempool Chain SideTips.
From S2P Require Import Lineage Archive ArchiveTree ArchiveWf ArchiveBodies TipsWf ArchiveIter.
From S2P Require Import BetterTip MainchainTask Node NodeTask.

(** ** Stretches of the mainchain *)

(** From block [b] down to block [e], which is not part of it, newest first *)
Inductive stretch (a : Archive) : MainBlockHash -> MainBlockHash -> list (MainBlockHash * BlockInfo) -> Prop :=
| stretch_nil b : stretch a b b []
| stretch_cons b e info bi l :
    b <> all_zeros -> ar_main_header_infos a !! b = Some info ->
    ar_main_block_infos a !! b = Some bi -> stretch a (bhi_prev_block_hash info) e l ->
    stretch a b e ((b, bi) :: l).

Record mainchain_ok (a : Archive) : Prop := {
  mc_wf : index_wf (main_index a);
  mc_hash m info : ar_main_header_infos a !! m = Some info -> m <> all_zeros /\ bhi_block_hash info = m;
}.

Lemma stretch_app a b c e l1 l2 : stretch a b c l1 -> stretch a c e l2 -> stretch a b e (l1 ++ l2).
Proof. induction 1; [done|]. intros. cbn. econstructor; eauto. Qed.

Section stretches.
Context (a : Archive) (Hok : mainchain_ok a).
Let T := index_tree _ (mc_wf _ Hok).

Lemma stored_height b info :
  ar_main_header_infos a !! b = Some info -> exists k, ar_main_block_hash_to_height a !! b = Some k.
Proof.
  intros Hi. destruct (iw_dom _ (mc_wf _ Hok) b) as [[k Hk] _]; [|by exists k].
  cbn. rewrite lookup_fmap, Hi. by eexists.
Qed.
Lemma stored_info b k :
  ar_main_block_hash_to_height a !! b = Some k -> exists info, ar_main_header_infos a !! b = Some info.
Proof.
  intros Hk. destruct (iw_dom _ (mc_wf _ Hok) b) as [_ [p Hp]]; [by eexists|].
  cbn in Hp. rewrite lookup_fmap in Hp. destruct (ar_main_header_infos a !! b); [by eexists|done].
Qed.

(** The parent of a block is one lower, or the block is the first one. *)
Lemma parent_height b info k :
  ar_main_header_infos a !! b = Some info -> ar_main_block_hash_to_height a !! b = Some k ->
  bhi_prev_block_hash info = all_zeros /\ k = 0 \/
  bhi_prev_block_hash info <> all_zeros /\ 0 < k /\
  ar_main_block_hash_to_height a !! bhi_prev_block_hash info = Some (k - 1).
Proof.
  intros Hi Hk. assert (ix_parent (main_index a) b = main_parent info) as Hp.
  { unfold ix_parent. cbn. by rewrite lookup_fmap, Hi. }
  unfold main_parent in Hp. destruct (N.zero_or_succ k) as [->|[k' ->]].
  - left. split; [|done]. rewrite (tr_root _ _ T b Hk) in Hp. destruct (N.eqb_spec (bhi_prev_block_hash info) all_zeros); done.
  - right. destruct (tr_parent _ _ T b k') as (p & Hpp & Hkp); [by rewrite <-N.add_1_r in Hk|].
    rewrite Hp in Hpp. destruct (N.eqb_spec (bhi_prev_block_hash info) all_zeros) as [|Hne]; [done|].
    injection Hpp as <-. split_and!; [done|lia|]. rewrite N.pred_succ || (replace (N.succ k' - 1) with k' by lia).
    by unfold ix_height in Hkp.
Qed.

Lemma stretch_end b e l : stretch a b e l -> forall k, ar_main_block_hash_to_height a !! b = Some k ->
  N.of_nat (length l) <= k + 1 /\
  (e = all_zeros \/ N.of_nat (length l) <= k /\
    ar_main_block_hash_to_height a !! e = Some (k - N.of_nat (length l))).
Proof.
  induction 1 as [b|b e info bi l Hz Hi Hbi Hs IH]; intros k Hk.
  { cbn [length]. split; [lia|]. right. split; [lia|]. change (N.of_nat 0) with 0. by rewrite N.sub_0_r. }
  destruct (parent_height b info k Hi Hk) as [[Hp ->]|(Hp & Hpos & Hkp)].
  - rewrite Hp in Hs. inversion Hs as [|? ? ? ? ? Hz']; [|done]. subst. split; [cbn [length]; lia|by left].
  - destruct (IH _ Hkp) as [Hl He]. cbn [length]. split; [lia|]. destruct He as [He|[Hle He]]; [by left|right].
    split; [lia|]. rewrite He. f_equal. lia.
Qed.

(** The end is not part of it. *)
Lemma stretch_end_out b e l : stretch a b e l -> e ∉ l.*1.
Proof.
  induction 1 as [b|b e info bi l Hz Hi Hbi Hs IH]; [apply not_elem_of_nil|].
  cbn. intros [->|]%elem_of_cons; [|done]. destruct (stored_height b info Hi) as [k Hk].
  destruct (parent_height b info k Hi Hk) as [[Hp ->]|(Hp & Hpos & Hkp)].
  - rewrite Hp in Hs. inversion Hs; by subst.
  - destruct (stretch_end _ _ _ Hs _ Hkp) as [_ [|[Hle He]]]; [done|]. rewrite Hk in He. injection He as He. lia.
Qed.

(** The walk over a stretch *)
Lemma stretch_walk {B} (f : MainBlockHash -> result ArchiveError (option B))
    (g : MainBlockHash * BlockInfo -> option B) stop b e l :
  (forall m bi, ar_main_block_infos a !! m = Some bi -> f m = Ok (g (m, bi))) ->
  stretch a b e l -> e = all_zeros \/ stop = Some e ->
  (forall m, stop = Some m -> m ∉ l.*1) ->
  forall fuel k, b = all_zeros \/ ar_main_block_hash_to_height a !! b = Some k /\ (N.to_nat k < fuel)%nat ->
  main_ancestors_until fuel a stop f b = Ok (omap g l).
Proof.
  intros Hf Hs He. induction Hs as [b|b e info bi l Hz Hi Hbi Hs IH]; intros Hstop fuel k Hk.
  - destruct fuel as [|fuel]; cbn [main_ancestors_until].
    { destruct Hk as [->|[_ ?]]; [done|lia]. }
    destruct (N.eqb_spec b all_zeros) as [|Hne]; [done|]. destruct He as [|He]; [done|].
    destruct Hk as [|[Hk _]]; [done|]. destruct (stored_info b k Hk) as [info Hi].
    unfold get_main_header_info. rewrite Hi. cbn [ok_or mbind result_bind].
    destruct (mc_hash _ Hok _ _ Hi) as [_ ->]. by rewrite decide_True.
  - destruct Hk as [|[Hk Hfuel]]; [done|]. destruct fuel as [|fuel]; [lia|]. cbn [main_ancestors_until].
    rewrite (proj2 (N.eqb_neq _ _) Hz). unfold get_main_header_info. rewrite Hi. cbn [ok_or mbind result_bind].
    destruct (mc_hash _ Hok _ _ Hi) as [_ ->]. rewrite decide_False.
    2:{ intros Heq. apply (Hstop b); [by symmetry|apply list_elem_of_here]. }
    rewrite (Hf b bi Hbi). cbn [mbind result_bind].
    rewrite (IH He) with (k := k - 1).
    + cbn. by destruct (g (b, bi)).
    + intros m Hm Hin. apply (Hstop m Hm). by apply list_elem_of_further.
    + destruct (parent_height b info k Hi Hk) as [[Hp _]|(_ & Hpos & Hkp)]; [by left|right]. split; [done|lia].
Qed.
End stretches.

(** ** The events of the tip *)

Definition eventful (b : MainBlockHash * BlockInfo) : option (MainBlockHash * BlockInfo) :=
  match bi_events b.2 with [] => None | _ => Some b end.

Lemma peg_events_app l1 l2 :
  peg_events (mkTwoWayPegData (l1 ++ l2)) =
  peg_events (mkTwoWayPegData l1) ++ peg_events (mkTwoWayPegData l2).
Proof. unfold peg_events. cbn. by rewrite fmap_app, concat_app. Qed.
Lemma peg_events_eventful l :
  peg_events (mkTwoWayPegData (reverse (omap eventful l))) = peg_events (mkTwoWayPegData (reverse l)).
Proof.
  induction l as [|b l IH]; [done|]. rewrite reverse_cons, peg_events_app, <-IH. cbn [omap list_omap].
  unfold eventful at 1. destruct (bi_events b.2) eqn:He.
  - unfold peg_events at 3. cbn. by rewrite He, !app_nil_r.
  - by rewrite reverse_cons, peg_events_app.
Qed.
Lemma peg_disconnect_events `{Externals} s d d' :
  peg_events d = peg_events d' -> peg_disconnect s d = peg_disconnect s d'.
Proof. intros He. unfold peg_disconnect. by rewrite He. Qed.

(** The blocks before the tip's are settled: down to the block that the books name, none of
    those that an earlier tip referred to has events. *)
Definition settled_from (a : Archive) (s : State) (h : u32) (p : MainBlockHash) `{Externals} : Prop :=
  exists start l,
    start_block a (last_applied_before h (st_deposit_blocks s))
      (last_applied_before h (st_withdrawal_bundle_event_blocks s)) = Ok start /\
    stretch a p (default all_zeros start) l /\ omap eventful l = [].

Lemma tip_data_found `{Externals} a s h m p l1 :
  mainchain_ok a -> settled_from a s h p -> stretch a m p l1 ->
  m = all_zeros \/ is_Some (ar_main_header_infos a !! m) ->
  exists d, tip_two_way_peg_data s a h m = Ok d /\
    peg_events d = peg_events (mkTwoWayPegData (reverse l1)).
Proof.
  intros Hok (start & l2 & Hst & Hs2 & Hno) Hs1 Hm. unfold tip_two_way_peg_data. rewrite Hst.
  cbn [mbind result_bind]. pose proof (stretch_app _ _ _ _ _ _ Hs1 Hs2) as Hs.
  rewrite (stretch_walk a Hok (eventful_info a) eventful start m (default all_zeros start) (l1 ++ l2))
    with (k := default 0 (ar_main_block_hash_to_height a !! m)); try done.
  - cbn [mbind result_bind]. eexists. split; [done|]. rewrite omap_app, Hno, app_nil_r. apply peg_events_eventful.
  - intros b bi Hbi. unfold eventful_info, get_main_block_info. by rewrite Hbi.
  - destruct start as [x|]; [by right|by left].
  - intros x ->. exact (stretch_end_out a Hok _ _ _ Hs).
  - destruct Hm as [|[info Hi]]; [by left|right]. destruct (stored_height a Hok m info Hi) as [k Hk].
    unfold main_fuel. rewrite Hk. cbn [default]. split; [done|]. change (default 0 (Some k)) with k. lia.
Qed.

(** The entry of a block does not change what came before it. *)
Lemma last_applied_put `{Externals} h latest n (m : gmap u32 (MainBlockHash * u32)) :
  bincode_u32_spec -> seq_dense m n -> n <= 255 ->
  last_applied_before h (put_event_block h latest m) = last_applied_before h m.
Proof.
  intros Hspec Hd Hn. destruct latest as [b|]; [|done].
  rewrite (put_event_block_dense Hspec m n) by done. unfold last_applied_before.
  rewrite map_filter_insert_False by (cbn; lia). do 2 f_equal. f_equal.
  apply delete_id. apply eq_None_not_Some. rewrite (Hd n). lia.
Qed.

(** ** The archive *)

(** The tables of the mainchain *)
Record same_main (a a' : Archive) : Prop := {
  sm_headers : ar_main_header_infos a' = ar_main_header_infos a;
  sm_infos : ar_main_block_infos a' = ar_main_block_infos a;
  sm_heights : ar_main_block_hash_to_height a' = ar_main_block_hash_to_height a;
  sm_exponential : ar_exponential_main_ancestors a' = ar_exponential_main_ancestors a;
}.
Lemma same_main_trans a b c : same_main a b -> same_main b c -> same_main a c.
Proof. intros [] []. split; congruence. Qed.
Lemma same_main_lineage a a' : same_main a a' -> main_lineage a' = main_lineage a.
Proof.
  intros [Hh Hi Hk He]. unfold main_lineage, get_main_height, get_main_header_info. by rewrite Hh, Hk, He.
Qed.
Lemma start_block_same a a' x y : same_main a a' -> start_block a' x y = start_block a x y.
Proof. intros Hs. unfold start_block, is_main_descendant. by rewrite (same_main_lineage _ _ Hs). Qed.
Lemma stretch_same a a' b e l : same_main a a' -> stretch a b e l -> stretch a' b e l.
Proof.
  intros [Hh Hi _ _]. induction 1; [constructor|]. econstructor; [done|by rewrite Hh|by rewrite Hi|done].
Qed.
Lemma mainchain_ok_same a a' : same_main a a' -> mainchain_ok a -> mainchain_ok a'.
Proof.
  intros [Hh Hi Hk He] [Hw Hx]. split; [|by rewrite Hh]. unfold main_index in *. by rewrite Hh, Hk, He.
Qed.
Lemma settled_same `{Externals} a a' s h p :
  same_main a a' -> settled_from a s h p -> settled_from a' s h p.
Proof.
  intros Hs (start & l & Hst & Hl & He). exists start, l. rewrite (start_block_same a a') by done.
  split_and!; [done|by eapply stretch_same|done].
Qed.

Lemma same_chain_main a a' : same_chain a a' -> same_main a a'.
Proof.
  intros [_ Hm _ Hh Hi _ _]. unfold main_index in Hm. injection Hm as _ Hk He. by split.
Qed.
Lemma put_header_main `{Externals} a header a' :
  put_header a header = Ok a' ->
  same_main a a' /\ ar_headers a' !! header_hash header = Some header /\ ar_bodies a' = ar_bodies a.
Proof.
  intros (k & l & ps & s1 & s2 & mb & results & _ & _ & _ & _ & ->)%put_header_Ok.
  split_and!; [by split|apply lookup_insert_eq|done].
Qed.

(** ** Connecting and disconnecting *)

(** A block that [disconnect_tip] can undo *)
Record block_reversible `{Externals} (s : State) (n : N) (header : Header) (body : Body) : Prop := {
  br_wf : state_wf s n;
  br_fresh : block_fresh s header body;
  br_names : n + N.of_nat (length (registered_names body)) <= u32_MAX + 1;
  br_height h : st_height s = Some h -> h < u32_MAX;
}.
(** Peg data, between the states [s] and [s'], that [peg_disconnect] can undo *)
Record peg_reversible `{Externals} (s s' : State) (h : u32) (data : TwoWayPegData) : Prop := {
  pr_wf : peg_wf s;
  pr_readable : bundles_readable s = true;
  pr_not_proposed : proposed_at h s = false /\ proposed_at h s' = false;
  pr_height : try_get_height s = Some h;
  pr_index : st_block_index_events s !! h = None;
  pr_deposits : exists nd, seq_dense (st_deposit_blocks s) nd /\ nd <= 255;
  pr_events : exists ne, seq_dense (st_withdrawal_bundle_event_blocks s) ne /\ ne <= 255;
  pr_fresh : events_fresh h (peg_events data) (peg_start s) = true;
}.

Section undo.
Context `{Externals}.

(** The books and the tip after the peg data of a block *)
Lemma peg_connect_books s s' h data :
  bincode_u32_spec -> peg_reversible s s' h data -> peg_connect s data = Ok s' ->
  st_tip s' = st_tip s /\ st_height s' = st_height s /\
  last_applied_before h (st_deposit_blocks s') = last_applied_before h (st_deposit_blocks s) /\
  last_applied_before h (st_withdrawal_bundle_event_blocks s') =
    last_applied_before h (st_withdrawal_bundle_event_blocks s).
Proof.
  intros Hspec Hr (h' & acc & Hh' & Hf & Hp)%peg_connect_inv.
  rewrite (pr_height _ _ _ _ Hr) in Hh'. injection Hh' as <-.
  destruct (pr_deposits _ _ _ _ Hr) as (nd & Hd & Hnd). destruct (pr_events _ _ _ _ Hr) as (ne & He & Hne).
  apply propose_bundle_none in Hp as ->; [|apply Hr].
  split_and!; [done|done|by apply (last_applied_put h (pa_latest_deposit acc) nd)|].
  by apply (last_applied_put h (pa_latest_bundle_event acc) ne).
Qed.

Lemma connect_tip_inv db header body data db1 :
  connect_tip_ db header body data = Ok db1 -> exists s1,
    apply_block (nd_state db) header body = Ok s1 /\ peg_connect s1 data = Ok (nd_state db1) /\
    same_main (nd_archive db) (nd_archive db1) /\
    get_header (nd_archive db1) (header_hash header) = Ok header /\
    get_body (nd_archive db1) (header_hash header) = Ok body.
Proof.
  unfold connect_tip_, connect_tip_state. intros Hc. apply bind_Ok in Hc as (s & Hs & Hc).
  apply bind_Ok in Hc as (a1 & Ha1 & Hc). apply bind_Ok in Hc as (a2 & Ha2 & Hc).
  apply bind_Ok in Hc as (m & _ & [= <-]). cbn [nd_state nd_archive].
  destruct (apply_block (nd_state db) header body) as [s1| |]; [|done|done]. cbn [mbind result_bind] in Hs.
  destruct (peg_connect s1 data) as [s2| |] eqn:Hpeg; [|done|done]. injection Hs as ->.
  destruct (put_header (nd_archive db) header) as [a1'| |] eqn:Hph; [|done|done]. injection Ha1 as ->.
  destruct (put_body a1 (header_hash header) body) as [a2'| |] eqn:Hpb; [|done|done]. injection Ha2 as ->.
  apply put_header_main in Hph as (Hm & Hh & _). pose proof (put_body_chain _ _ _ _ Hpb) as Hch.
  exists s1. split_and!; [done|done| | |].
  - eapply same_main_trans; [done|]. by apply same_chain_main.
  - unfold get_header. by rewrite (sc_headers _ _ Hch), Hh.
  - unfold get_body. by rewrite (put_body_stored _ _ _ _ Hpb), lookup_insert_eq.
Qed.
End undo.

(** ** The books name the last settled block *)

Definition is_deposit (e : BlockEvent) : bool :=
  match e with BlockEvent_Deposit _ => true | _ => false end.

Lemma last_deposit_block b es d :
  last_deposit ((fun e => (b, e)) <$> es) d = if existsb is_deposit es then Some b else d.
Proof.
  unfold last_deposit. revert d. induction es as [|e es IH]; intros d; [done|]. cbn. rewrite IH.
  destruct e; cbn; [by destruct (existsb _ _)|done].
Qed.
Lemma last_bundle_event_block b es d :
  last_bundle_event ((fun e => (b, e)) <$> es) d =
  if existsb (fun e => negb (is_deposit e)) es then Some b else d.
Proof.
  unfold last_bundle_event. revert d. induction es as [|e es IH]; intros d; [done|]. cbn. rewrite IH.
  destruct e; cbn; [done|by destruct (existsb _ _)].
Qed.
Lemma event_kinds es :
  existsb is_deposit es = false -> existsb (fun e => negb (is_deposit e)) es = false -> es = [].
Proof. destruct es as [|e es]; [done|]. cbn. by destruct (is_deposit e). Qed.

(** The last blocks of a stretch, newest first, with a deposit and with a bundle event *)
Definition last_deposit_of (l : list (MainBlockHash * BlockInfo)) : option MainBlockHash :=
  last_deposit (peg_events (mkTwoWayPegData (reverse l))) None.
Definition last_bundle_event_of (l : list (MainBlockHash * BlockInfo)) : option MainBlockHash :=
  last_bundle_event (peg_events (mkTwoWayPegData (reverse l))) None.

(** They are not two different blocks. *)
Definition tie_free (l : list (MainBlockHash * BlockInfo)) : Prop :=
  forall d e, last_deposit_of l = Some d -> last_bundle_event_of l = Some e -> d = e.

Lemma last_of_cons b bi l :
  last_deposit_of ((b, bi) :: l) =
    (if existsb is_deposit (bi_events bi) then Some b else last_deposit_of l) /\
  last_bundle_event_of ((b, bi) :: l) =
    (if existsb (fun e => negb (is_deposit e)) (bi_events bi) then Some b else last_bundle_event_of l).
Proof.
  unfold last_deposit_of, last_bundle_event_of. rewrite reverse_cons, peg_events_app.
  assert (peg_events (mkTwoWayPegData [(b, bi)]) = (fun e => (b, e)) <$> bi_events bi) as ->.
  { unfold peg_events. cbn. by rewrite app_nil_r. }
  unfold last_deposit, last_bundle_event. rewrite !foldl_app.
  split; [apply last_deposit_block|apply last_bundle_event_block].
Qed.

(** Down to the last block with an event, a stretch has none. *)
Definition last_event_of (l : list (MainBlockHash * BlockInfo)) : option MainBlockHash :=
  match last_deposit_of l with Some d => Some d | None => last_bundle_event_of l end.
Lemma stretch_last_event a m p l :
  stretch a m p l -> tie_free l ->
  exists l1, stretch a m (default p (last_event_of l)) l1 /\ omap eventful l1 = [].
Proof.
  induction 1 as [b|b p info bi l Hz Hi Hbi Hs IH]; intros Ht; [by exists []; split; [constructor|]|].
  destruct (last_of_cons b bi l) as [Hd He]. unfold last_event_of, tie_free in *. rewrite Hd, He in *.
  destruct (existsb is_deposit (bi_events bi)) eqn:Hbd; [by exists []; split; [constructor|]|].
  destruct (existsb (fun e => negb (is_deposit e)) (bi_events bi)) eqn:Hbe.
  - destruct (last_deposit_of l) as [d|]; [rewrite (Ht d b) by done|]; by exists []; split; [constructor|].
  - destruct (IH Ht) as (l1 & Hs1 & Hl1). exists ((b, bi) :: l1). split; [by econstructor|].
    cbn [omap list_omap]. unfold eventful at 1. cbn [snd]. by rewrite (event_kinds _ Hbd Hbe).
Qed.

(** A book with entries of blocks before [h] *)
Definition book_ok (h : u32) (book : gmap u32 (MainBlockHash * u32)) (n : N) : Prop :=
  seq_dense book n /\ map_Forall (fun _ e => e.2 < h) book.

Lemma book_ok_before `{Externals} h h' book n :
  book_ok h book n -> h <= h' -> last_applied_before h' book = snd <$> db_last_u32 book.
Proof.
  intros [_ Hh] Hle. unfold last_applied_before. rewrite map_filter_id; [done|].
  intros i e He. apply Hh in He. cbn in *. lia.
Qed.
Lemma book_ok_put `{Externals} h book n latest :
  bincode_u32_spec -> book_ok h book n -> n <= 254 ->
  let book' := put_event_block h latest book in
  (exists n', n' <= n + 1 /\ book_ok (h + 1) book' n') /\
  last_applied_before (h + 1) book' =
    match latest with Some b => Some (b, h) | None => last_applied_before h book end.
Proof.
  intros Hspec Hb Hn book'. pose proof Hb as [Hd Hh]. subst book'. destruct latest as [b|]; cbn [put_event_block].
  - fold (put_event_block h (Some b) book). rewrite (put_event_block_dense Hspec book n) by (done || lia).
    pose proof (seq_dense_insert book n (b, h) Hd) as Hd'.
    assert (book_ok (h + 1) (<[n := (b, h)]> book) (n + 1)) as Hb'.
    { split; [done|]. apply map_Forall_insert_2; [cbn; lia|]. eapply map_Forall_impl; [exact Hh|]. cbn. lia. }
    split; [by exists (n + 1)|]. rewrite (book_ok_before (h + 1) _ _ _ Hb') by lia.
    destruct (dense_last Hspec _ _ Hd') as (v & Hv & ->); [lia|].
    replace (N.min (n + 1) 256 - 1) with n in Hv by lia. rewrite lookup_insert_eq in Hv. by injection Hv as <-.
  - split.
    + exists n. split; [lia|]. split; [done|]. eapply map_Forall_impl; [exact Hh|]. cbn. lia.
    + by rewrite !(book_ok_before h _ book n) by (done || lia).
Qed.
Lemma last_applied_lt `{Externals} h book b h0 : last_applied_before h book = Some (b, h0) -> h0 < h.
Proof.
  unfold last_applied_before. destruct (db_last_u32 _) as [[i e]|] eqn:Hl; [|done]. cbn. intros [= ->].
  unfold db_last_u32 in Hl. apply db_last_in in Hl. apply map_lookup_filter_Some in Hl as [_ Hlt]. done.
Qed.

(** C4 Round trip of the node: the peg data that [disconnect_tip_] finds for the tip in the books and the
    archive has the events that [connect_tip_] was given, and disconnecting restores the state exactly. This is
    under conditions. The block is fresh on a well-formed state, with sequence numbers and height within [u32]
    ([block_reversible]). The peg data is fresh, proposes no bundle at this height, and each of the two books
    has at most 255 entries ([peg_reversible]). The mainchain of the archive is well-formed and has the blocks
    of the data, and those of earlier tips, back to the one that the books name, have no events
    ([settled_from]). And the pool takes the transactions back. *)
Theorem disconnect_tip_restores_state `{Externals} (db db1 : NodeDb) (s1 : State)
    (header : Header) (body : Body) (p : MainBlockHash) (blocks : list (MainBlockHash * BlockInfo))
    (mempool : MemPool) (n : N) :
  borsh_outpoint_spec -> batch_verify_spec -> bincode_u32_spec ->
  let data := mkTwoWayPegData (reverse blocks) in
  let h := next_height (nd_state db) in
  block_reversible (nd_state db) n header body ->
  apply_block (nd_state db) header body = Ok s1 ->
  peg_reversible s1 (nd_state db1) h data ->
  mainchain_ok (nd_archive db) -> is_Some (ar_main_header_infos (nd_archive db) !! hd_prev_main_hash header) ->
  settled_from (nd_archive db) s1 h p -> stretch (nd_archive db) (hd_prev_main_hash header) p blocks ->
  connect_tip_ db header body data = Ok db1 ->
  disconnect_tip_mempool (nd_mempool db1) body = Ok mempool ->
  disconnect_tip_ db1 = Ok (mkNodeDb (nd_state db) (nd_archive db1) mempool).
Proof.
  intros Hinj Hbatch Hle data h Hblock Hap Hpeg Hmain Hm Hset Hstr Hc Hpool.
  destruct (connect_tip_inv _ _ _ _ _ Hc) as (s1' & Hap' & Hpc & Hsm & Hgh & Hgb).
  rewrite Hap in Hap'. injection Hap' as <-.
  destruct (peg_connect_books _ _ _ _ Hle Hpeg Hpc) as (Htip & Hht & Hbd & Hbe).
  assert (st_tip s1 = Some (header_hash header)) as Htip1.
  { destruct Hblock as [Hwf Hfr _ _].
    by destruct (apply_block_steps _ _ _ _ _ Hinj Hbatch Hwf Hfr Hap) as (? & ? & ? & ? & _ & _ & _ & _ & _ & _ & _ & _ & _ & ->). }
  unfold disconnect_tip_, try_get_tip, try_get_height. rewrite Htip, Htip1. cbn [ok_or mbind result_bind].
  rewrite Hgh. cbn [map_err mbind result_bind]. rewrite Hgb. cbn [map_err mbind result_bind].
  rewrite Hht. pose proof (pr_height _ _ _ _ Hpeg) as Hh1. unfold try_get_height in Hh1. rewrite Hh1.
  cbn [ok_or mbind result_bind].
  destruct (tip_data_found (nd_archive db1) (nd_state db1) h (hd_prev_main_hash header) p blocks)
    as (d & -> & Hd); [by eapply mainchain_ok_same| |by eapply stretch_same|right; by rewrite (sm_headers _ _ Hsm)|].
  { destruct Hset as (start & l & Hst & Hl & He). exists start, l. rewrite Hbd, Hbe, (start_block_same _ _ _ _ Hsm).
    split_and!; [done|by eapply stretch_same|done]. }
  cbn [map_err mbind result_bind]. rewrite (peg_disconnect_events _ d data Hd).
  destruct (pr_deposits _ _ _ _ Hpeg) as (nd & Hnd & Hnd'). destruct (pr_events _ _ _ _ Hpeg) as (ne & Hne & Hne').
  rewrite (peg_undo s1 (nd_state db1) data h nd ne Hle (pr_wf _ _ _ _ Hpeg) (pr_readable _ _ _ _ Hpeg)
    (proj1 (pr_not_proposed _ _ _ _ Hpeg)) (pr_height _ _ _ _ Hpeg) (pr_index _ _ _ _ Hpeg) Hnd Hnd' Hne Hne'
    (pr_fresh _ _ _ _ Hpeg) Hpc (proj2 (pr_not_proposed _ _ _ _ Hpeg))).
  cbn [map_err mbind result_bind]. destruct Hblock as [Hwf Hfr Hn Hhb].
  rewrite (block_undo (nd_state db) s1 n header body Hinj Hbatch Hwf Hfr Hn Hhb Hap).
  cbn [map_err mbind result_bind]. rewrite Hpool. done.
Qed.

(** The books of a state: entries of earlier blocks, and below the mainchain block [p] nothing
    but settled blocks *)
Record books_ok `{Externals} (a : Archive) (s : State) (h : u32) (p : MainBlockHash) (nd ne : N) : Prop := {
  bo_deposits : book_ok h (st_deposit_blocks s) nd;
  bo_events : book_ok h (st_withdrawal_bundle_event_blocks s) ne;
  bo_settled : settled_from a s h p;
}.

(** [start_block] for the books after a block, when it has no tie *)
Lemma start_block_next a h dep ev d e :
  (forall b h0, dep = Some (b, h0) -> h0 < h) -> (forall b h0, ev = Some (b, h0) -> h0 < h) ->
  (forall x y, d = Some x -> e = Some y -> x = y) ->
  start_block a (match d with Some b => Some (b, h) | None => dep end)
    (match e with Some b => Some (b, h) | None => ev end) =
  match d, e with
  | None, None => start_block a dep ev
  | Some x, _ | None, Some x => Ok (Some x)
  end.
Proof.
  intros Hdep Hev Hde. destruct d as [x|], e as [y|]; [| | |done].
  - rewrite (Hde x y) by done. unfold start_block. rewrite N.compare_refl. unfold is_main_descendant, descends.
    by rewrite N.eqb_refl.
  - destruct ev as [[b h0]|]; [|done]. unfold start_block. pose proof (Hev b h0 eq_refl) as Hlt.
    apply N.compare_gt_iff in Hlt. by rewrite Hlt.
  - destruct dep as [[b h0]|]; [|done]. unfold start_block. pose proof (Hdep b h0 eq_refl) as Hlt.
    apply N.compare_lt_iff in Hlt. by rewrite Hlt.
Qed.

(** The books stay in step with the mainchain: after the peg data of a block, the last
    entries of the two books name the newest mainchain block with events up to the block's
    own mainchain parent, so that the next block's events will be found again, unless
    the last deposit and the last bundle event are in two different mainchain blocks. *)
Theorem books_follow_mainchain `{Externals} (a : Archive) (s s' : State) (h : u32)
    (m p : MainBlockHash) (blocks : list (MainBlockHash * BlockInfo)) (nd ne : N) :
  bincode_u32_spec -> books_ok a s h p nd ne -> nd <= 254 -> ne <= 254 ->
  try_get_height s = Some h -> stretch a m p blocks -> tie_free blocks ->
  peg_connect s (mkTwoWayPegData (reverse blocks)) = Ok s' ->
  exists nd' ne', books_ok a s' (h + 1) m nd' ne' /\ nd' <= nd + 1 /\ ne' <= ne + 1.
Proof.
  intros Hspec [Hd He (start & l2 & Hst & Hs2 & Hl2)] Hnd Hne Hh Hs Ht (h' & acc & Hh' & Hf & Hp)%peg_connect_inv.
  rewrite Hh in Hh'. injection Hh' as <-.
  apply connect_events_latest in Hf as [Hld Hlb]. cbn [pa_latest_deposit pa_latest_bundle_event peg_start] in Hld, Hlb.
  fold (last_deposit_of blocks) in Hld. fold (last_bundle_event_of blocks) in Hlb.
  assert (st_deposit_blocks s' = put_event_block h (last_deposit_of blocks) (st_deposit_blocks s) /\
    st_withdrawal_bundle_event_blocks s' =
      put_event_block h (last_bundle_event_of blocks) (st_withdrawal_bundle_event_blocks s)) as [Hbd Hbe].
  { rewrite <-Hld, <-Hlb. apply propose_bundle_inv in Hp as [->|(b & st & _ & _ & _ & -> & _)]; done. }
  destruct (book_ok_put h _ nd (last_deposit_of blocks) Hspec Hd Hnd) as [(nd' & Hnd' & Hd') Hld'].
  destruct (book_ok_put h _ ne (last_bundle_event_of blocks) Hspec He Hne) as [(ne' & Hne' & He') Hlb'].
  exists nd', ne'. split; [|done]. split; [by rewrite Hbd|by rewrite Hbe|]. unfold settled_from.
  rewrite Hbd, Hbe, Hld', Hlb', start_block_next; [|intros ? ?; apply last_applied_lt..|exact Ht].
  destruct (stretch_last_event a m p blocks Hs Ht) as (l1 & Hs1 & Hl1). unfold last_event_of in Hs1.
  destruct (last_deposit_of blocks) as [x|]; [by exists (Some x), l1|].
  destruct (last_bundle_event_of blocks) as [x|]; [by exists (Some x), l1|].
  exists start, (l1 ++ l2). split_and!; [done|by eapply stretch_app|by rewrite omap_app, Hl1, Hl2].
Qed.
