(* ===== verification/NodeSamples.v ===== *)
(** * Sample runs of the node

    Two sidechain blocks connected over a mainchain with a deposit and a bundle event: in
    one mainchain block, where disconnecting works, and in two, where it does not. And a reorganisation from a
    branch of one block to one of two, and the refusal to go back. *)

From S2P Require Import Prelude Types Transaction Sample Rollback BitNames Authorization State.
From S2P Require Import Merkle Block BlockSamples BlockRollback Ownership BlockChain TwoWayPeg PegMoves.
From S2P Require Import PegBooks PegRollback PegChain Mempool Chain SideTips.
From S2P Require Import Lineage Archive ArchiveTree ArchiveWf ArchiveBodies TipsWf ArchiveQueries.
From S2P Require Import ArchiveSamples ArchiveIter BetterTip MainchainTask Node NodeTask Reorg NodeRollback.

(** ** A tie of the two books *)

Lemma stretch_ancestor a b e l :
  mainchain_ok a -> stretch a b e l -> e <> all_zeros -> ancestor (ix_parent (main_index a)) e b.
Proof.
  intros Hok. induction 1 as [b|b e info bi l Hz Hi Hbi Hs IH]; intros He; [apply ancestor_refl|].
  destruct (IH He) as [n Hn]. exists (S n). cbn.
  assert (ix_parent (main_index a) b = main_parent info) as ->.
  { unfold ix_parent. cbn. by rewrite lookup_fmap, Hi. }
  unfold main_parent. destruct (N.eqb_spec (bhi_prev_block_hash info) all_zeros) as [Hp|]; [|done].
  rewrite Hp in Hs. inversion Hs; by subst.
Qed.

(** When the last deposit and the last bundle event before the tip were applied by one
    block and come from two mainchain blocks, [disconnect_tip_] starts after the older
    of the two: the events of the newer one, which an earlier block applied, are
    among those that are disconnected with the tip. *)
Theorem tied_events_disconnected_again `{Externals} (a : Archive) (s : State) (h h0 : u32)
    (m d e : MainBlockHash) (bid : BlockInfo) (l l0 : list (MainBlockHash * BlockInfo)) :
  mainchain_ok a -> is_Some (ar_main_header_infos a !! m) -> e <> all_zeros ->
  stretch a m d l0 -> stretch a d e ((d, bid) :: l) ->
  last_applied_before h (st_deposit_blocks s) = Some (d, h0) ->
  last_applied_before h (st_withdrawal_bundle_event_blocks s) = Some (e, h0) ->
  exists data, tip_two_way_peg_data s a h m = Ok data /\ h0 < h /\
    forall event, event ∈ bi_events bid -> (d, event) ∈ peg_events data.
Proof.
  intros Hok [info Hm] He Hs0 Hs Hd Hev. pose proof (stretch_ancestor a d e _ Hok Hs He) as Hanc.
  assert (is_Some (ar_main_header_infos a !! d)) as [infod Hdi] by (inversion Hs; by eexists).
  destruct (stored_height a Hok d infod Hdi) as [kd Hkd].
  destruct (stretch_end a Hok _ _ _ Hs kd Hkd) as [_ [|[_ Hke]]]; [done|].
  destruct (descends_Ok (main_lineage_ok a (mc_wf _ Hok)) e d _ kd Hke Hkd) as (r & Hr & Hra).
  assert (r = true) as -> by (by apply Hra).
  assert (start_block a (Some (d, h0)) (Some (e, h0)) = Ok (Some e)) as Hst.
  { unfold start_block. rewrite N.compare_refl. unfold is_main_descendant. by rewrite Hr. }
  destruct (tip_data_found a s h m e (l0 ++ (d, bid) :: l)) as (data & Hdata & Hpe).
  { done. }
  { exists (Some e), []. rewrite Hd, Hev. split_and!; [done|constructor|done]. }
  { by eapply stretch_app. }
  { right. by exists info. }
  exists data. split_and!; [done|by eapply last_applied_lt|]. intros event Hin. rewrite Hpe.
  rewrite reverse_app, peg_events_app, reverse_cons, peg_events_app. apply elem_of_app. left.
  apply elem_of_app. right. unfold peg_events. cbn. rewrite app_nil_r.
  apply list_elem_of_fmap. by exists event.
Qed.

#[local] Existing Instance Sample.externals.
#[local] Existing Instance ArchiveSamples.work_externals.

Module NodeRunSamples.
(** The mainchain blocks 101 to 105; [events] are those of the blocks 102 and 103. *)
Definition main_info (events : list BlockEvent * list BlockEvent) (n : N) : BlockInfo :=
  mkBlockInfo None (if n =? 1 then events.1 else if n =? 2 then events.2 else []).
Definition ops (events : list BlockEvent * list BlockEvent) : list ArchiveSamples.Op :=
  concat ((fun n => [ArchiveSamples.Op_main_header (ArchiveSamples.main_header n);
                     ArchiveSamples.Op_main_info (101 + n) (main_info events n)]) <$> [0; 1; 2; 3; 4]).
Definition archive (events : list BlockEvent * list BlockEvent) : Archive :=
  default archive_new (ArchiveSamples.run (ops events) archive_new).

Definition body : Body := mkBody (mkCoinbase [] []) [] [].
(** A block on top of a state, with the mainchain block it refers to *)
Definition header (s : State) (prev_main_hash : MainBlockHash) : Header :=
  let root := match compute_merkle_root (bd_coinbase body) [] with Ok r => r | _ => 0 end in
  mkHeader root (st_tip s) prev_main_hash.
(** The blocks down to [stop], as [reorg_to_tip] finds them *)
Definition peg_data (a : Archive) (stop : option MainBlockHash) (m : MainBlockHash)
  : list (MainBlockHash * BlockInfo) :=
  match main_ancestors_until (main_fuel a m) a stop
    (fun b => block_info ← get_main_block_info a b; Ok (Some (b, block_info))) m with
  | Ok l => l
  | _ => []
  end.
Definition connect (db : NodeDb) (stop : option MainBlockHash) (m : MainBlockHash) : result NodeError NodeDb :=
  connect_tip_ db (header (nd_state db) m) body
    (mkTwoWayPegData (reverse (peg_data (nd_archive db) stop m))).

Definition deposit : BlockEvent := BlockEvent_Deposit PegSamples.deposit.
Definition submitted : BlockEvent :=
  BlockEvent_WithdrawalBundle (mkWithdrawalBundleEvent 77 Event_Submitted).
Definition start (events : list BlockEvent * list BlockEvent) : NodeDb :=
  mkNodeDb empty_state (archive events) empty_pool.
(** One block with the events up to 103, one without events *)
Definition two_blocks (events : list BlockEvent * list BlockEvent) : result NodeError (NodeDb * NodeDb) :=
  db1 ← connect (start events) None 103;
  db2 ← connect db1 (Some 103) 104;
  Ok (db1, db2).

(** A check of [mainchain_ok] *)
Definition hashes_okb (a : Archive) : bool :=
  forallb (fun p : MainBlockHash * BlockHeaderInfo => negb (p.1 =? all_zeros) && (bhi_block_hash p.2 =? p.1))
    (map_to_list (ar_main_header_infos a)).
Lemma mainchain_okb a : archive_wf a -> hashes_okb a = true -> mainchain_ok a.
Proof.
  intros Hw Hb. split; [apply Hw|]. intros m info Hm. unfold hashes_okb in Hb. rewrite forallb_forall in Hb.
  specialize (Hb (m, info)). rewrite <-list_elem_of_In, elem_of_map_to_list in Hb. specialize (Hb Hm).
  apply andb_true_iff in Hb as [Hz Hh]. apply negb_true_iff, N.eqb_neq in Hz. apply N.eqb_eq in Hh. done.
Qed.

(** The events of two mainchain blocks, and of one *)
Definition tied : list BlockEvent * list BlockEvent := ([submitted], [deposit]).
Definition joined : list BlockEvent * list BlockEvent := ([], [submitted; deposit]).
Lemma run_archive_ok events a :
  ArchiveSamples.run (ops events) archive_new = Some a -> hashes_okb a = true -> mainchain_ok a.
Proof.
  intros Hr. apply mainchain_okb, archive_reachable_wf.
  exact (ArchiveSamples.run_reachable (ops events) archive_new _ reach_new Hr).
Qed.
Lemma tied_ok : mainchain_ok (archive tied).
Proof. apply (run_archive_ok tied); vm_compute; reflexivity. Qed.
Lemma joined_ok : mainchain_ok (archive joined).
Proof. apply (run_archive_ok joined); vm_compute; reflexivity. Qed.

(** The first block over the events of one mainchain block *)
Definition first_header : Header := header empty_state 103.
Definition first_state : State := match apply_block empty_state first_header body with Ok s => s | _ => empty_state end.
Lemma first_applied : apply_block empty_state first_header body = Ok first_state.
Proof. vm_compute. reflexivity. Qed.
Definition first_blocks : list (MainBlockHash * BlockInfo) :=
  [(103, main_info joined 2); (102, main_info joined 1); (101, main_info joined 0)].
Lemma first_stretch : stretch (archive joined) 103 all_zeros first_blocks.
Proof.
  do 3 (eapply stretch_cons; [vm_compute; discriminate|vm_compute; reflexivity..|]). apply stretch_nil.
Qed.
Lemma first_fresh : block_fresh empty_state first_header body.
Proof. split; apply (bool_decide_unpack _); vm_compute; exact I. Qed.
Lemma first_reversible : block_reversible empty_state 0 first_header body.
Proof.
  split; [apply empty_state_wf|apply first_fresh|vm_compute; discriminate|done].
Qed.
Lemma first_peg_wf : peg_wf first_state.
Proof.
  apply (apply_block_invariants empty_state 0 first_header body first_state Sample.borsh_outpoint_inj
    Sample.batch_verify empty_state_wf first_fresh ltac:(vm_compute; discriminate) first_applied empty_state_peg_wf).
Qed.
Lemma first_settled : settled_from (archive joined) first_state 0 all_zeros.
Proof. exists None, []. split; [vm_compute; reflexivity|]. split; [apply stretch_nil|done]. Qed.
End NodeRunSamples.

Ltac stretch_step := eapply stretch_cons; [vm_compute; discriminate|vm_compute; reflexivity..|].

Lemma tied_events_disconnected_again_witness :
  exists db1 db2 data, NodeRunSamples.two_blocks NodeRunSamples.tied = Ok (db1, db2) /\
    tip_two_way_peg_data (nd_state db2) (NodeRunSamples.archive NodeRunSamples.tied) 1 104 = Ok data /\
    (103, NodeRunSamples.deposit) ∈ peg_events data /\ disconnect_tip_ db2 = Panic.
Proof.
  destruct (is_ok_Ok (NodeRunSamples.two_blocks NodeRunSamples.tied)) as [[db1 db2] Hdb];
    [vm_compute; reflexivity|].
  destruct (tied_events_disconnected_again (NodeRunSamples.archive NodeRunSamples.tied) (nd_state db2) 1 0 104 103 102
    (NodeRunSamples.main_info NodeRunSamples.tied 2) [] [(104, NodeRunSamples.main_info NodeRunSamples.tied 3)]
    NodeRunSamples.tied_ok) as (data & Hdata & _ & Hin).
  - vm_compute. eexists. reflexivity.
  - vm_compute. discriminate.
  - stretch_step. apply stretch_nil.
  - stretch_step. apply stretch_nil.
  - assert (((fun p => last_applied_before 1 (st_deposit_blocks (nd_state p.2))) <$>
      NodeRunSamples.two_blocks NodeRunSamples.tied) = Ok (Some (103, 0))) as Hl by (vm_compute; reflexivity).
    rewrite Hdb in Hl. injection Hl as Hl. exact Hl.
  - assert (((fun p => last_applied_before 1 (st_withdrawal_bundle_event_blocks (nd_state p.2))) <$>
      NodeRunSamples.two_blocks NodeRunSamples.tied) = Ok (Some (102, 0))) as Hl by (vm_compute; reflexivity).
    rewrite Hdb in Hl. injection Hl as Hl. exact Hl.
  - exists db1, db2, data. split; [exact Hdb|]. split; [exact Hdata|]. split; [apply Hin, list_elem_of_here|].
    assert (match NodeRunSamples.two_blocks NodeRunSamples.tied with
      | Ok p => disconnect_tip_ p.2 = Panic | _ => True end) as Hp by (vm_compute; reflexivity).
    rewrite Hdb in Hp. exact Hp.
Defined.

Lemma disconnect_tip_restores_state_witness :
  exists db1, NodeRunSamples.connect (NodeRunSamples.start NodeRunSamples.joined) None 103 = Ok db1 /\
    disconnect_tip_ db1 = Ok (mkNodeDb empty_state (nd_archive db1) empty_pool).
Proof.
  destruct (is_ok_Ok (NodeRunSamples.connect (NodeRunSamples.start NodeRunSamples.joined) None 103)) as [db1 Hdb];
    [vm_compute; reflexivity|].
  assert (nd_mempool <$> NodeRunSamples.connect (NodeRunSamples.start NodeRunSamples.joined) None 103 =
    Ok empty_pool) as Hpool by (vm_compute; reflexivity).
  assert ((fun d => proposed_at 0 (nd_state d)) <$>
    NodeRunSamples.connect (NodeRunSamples.start NodeRunSamples.joined) None 103 = Ok false) as Hprop
    by (vm_compute; reflexivity).
  rewrite Hdb in Hpool, Hprop. injection Hpool as Hpool. injection Hprop as Hprop.
  exists db1. split; [exact Hdb|].
  apply (disconnect_tip_restores_state (NodeRunSamples.start NodeRunSamples.joined) db1 NodeRunSamples.first_state
    NodeRunSamples.first_header NodeRunSamples.body all_zeros NodeRunSamples.first_blocks empty_pool 0
    Sample.borsh_outpoint_inj Sample.batch_verify Sample.bincode_le).
  - exact NodeRunSamples.first_reversible.
  - exact NodeRunSamples.first_applied.
  - split; [exact NodeRunSamples.first_peg_wf|vm_compute; reflexivity|split; [vm_compute; reflexivity|exact Hprop]
      |vm_compute; reflexivity|vm_compute; reflexivity|exists 0|exists 0|vm_compute; reflexivity].
    + split; [apply PegSamples.empty_dense|vm_compute; discriminate].
    + split; [apply PegSamples.empty_dense|vm_compute; discriminate].
  - exact NodeRunSamples.joined_ok.
  - vm_compute. eexists. reflexivity.
  - exact NodeRunSamples.first_settled.
  - exact NodeRunSamples.first_stretch.
  - assert (NodeRunSamples.peg_data (NodeRunSamples.archive NodeRunSamples.joined) None 103 =
      NodeRunSamples.first_blocks) as Hp by (vm_compute; reflexivity).
    rewrite <-Hp. exact Hdb.
  - rewrite Hpool. vm_compute. reflexivity.
Defined.

Lemma books_follow_mainchain_witness :
  exists s' nd ne, peg_connect NodeRunSamples.first_state
      (mkTwoWayPegData (reverse NodeRunSamples.first_blocks)) = Ok s' /\
    books_ok (NodeRunSamples.archive NodeRunSamples.joined) s' 1 103 nd ne.
Proof.
  destruct (is_ok_Ok (peg_connect NodeRunSamples.first_state
    (mkTwoWayPegData (reverse NodeRunSamples.first_blocks)))) as [s' Hs']; [vm_compute; reflexivity|].
  destruct (books_follow_mainchain (NodeRunSamples.archive NodeRunSamples.joined) NodeRunSamples.first_state s' 0
    103 all_zeros NodeRunSamples.first_blocks 0 0 Sample.bincode_le) as (nd & ne & Hb & _).
  - split; [split; [apply PegSamples.empty_dense|apply map_Forall_empty]..|exact NodeRunSamples.first_settled].
  - vm_compute; discriminate.
  - vm_compute; discriminate.
  - vm_compute; reflexivity.
  - exact NodeRunSamples.first_stretch.
  - intros d e Hd He. vm_compute in Hd, He. congruence.
  - exact Hs'.
  - exists s', nd, ne. split; [exact Hs'|exact Hb].
Defined.

(** ** A reorganisation *)

(** Two branches, of one and of two blocks, in an archive that is at the mainchain block 105 *)
Module ReorgSamples.
Definition body : Body := NodeRunSamples.body.
Definition root : MerkleRoot := match compute_merkle_root (bd_coinbase body) [] with Ok r => r | _ => 0 end.
Definition header_a : Header := mkHeader root None 101.
Definition header_b : Header := mkHeader root None 102.
Definition header_c : Header := mkHeader root (Some (header_hash header_b)) 103.
Definition commitment (n : N) : option BlockHash :=
  if n =? 1 then Some (header_hash header_a) else if n =? 2 then Some (header_hash header_b)
  else if n =? 3 then Some (header_hash header_c) else None.
Definition ops : list ArchiveSamples.Op :=
  concat ((fun n => [ArchiveSamples.Op_main_header (ArchiveSamples.main_header n);
                     ArchiveSamples.Op_main_info (101 + n) (mkBlockInfo (commitment n) [])]) <$> [0; 1; 2; 3; 4]) ++
  (ArchiveSamples.Op_header <$> [header_a; header_b; header_c]).
Definition archive : Archive :=
  let a := default archive_new (a ← ArchiveSamples.run ops archive_new; ArchiveSamples.main_synced a) in
  match fold_res (fun a h => put_body a (header_hash h) body) [header_a; header_b; header_c] a with Ok a => a | _ => a end.
Definition start : NodeDb := mkNodeDb empty_state archive empty_pool.
Definition tip_a : Tip := mkTip (header_hash header_a) 102.
Definition tip_c : Tip := mkTip (header_hash header_c) 104.
(** The node at the first branch, and moved to the second one *)
Definition at_a : NodeDb := (reorg_to_tip start tip_a).1.
Definition at_c : NodeDb := (reorg_to_tip at_a tip_c).1.
End ReorgSamples.

Lemma reorg_never_worse_witness :
  try_get_tip (nd_state ReorgSamples.at_a) = Some (header_hash ReorgSamples.header_a) /\
  better_tip (nd_archive ReorgSamples.at_a) ReorgSamples.tip_a ReorgSamples.tip_c = Ok (Some ReorgSamples.tip_c) /\
  try_get_tip (nd_state ReorgSamples.at_c) = Some (header_hash ReorgSamples.header_c) /\
  (reorg_to_tip ReorgSamples.at_c ReorgSamples.tip_a).1 = ReorgSamples.at_c.
Proof.
  pose proof (reorg_never_worse ReorgSamples.at_a ReorgSamples.tip_c) as Hc.
  pose proof (reorg_never_worse ReorgSamples.at_c ReorgSamples.tip_a) as Ha.
  rewrite (surjective_pairing (reorg_to_tip ReorgSamples.at_a ReorgSamples.tip_c)) in Hc.
  rewrite (surjective_pairing (reorg_to_tip ReorgSamples.at_c ReorgSamples.tip_a)) in Ha.
  destruct Hc as (_ & Hc & _). destruct Ha as (_ & _ & Ha).
  destruct Hc as (Htip & tip & Hold & Hbetter); [vm_compute; reflexivity|].
  destruct Ha as (Hsame & _); [vm_compute; reflexivity|].
  assert (current_tip ReorgSamples.at_a = Ok (Some ReorgSamples.tip_a)) as Hcur by (vm_compute; reflexivity).
  rewrite Hcur in Hold. injection Hold as <-.
  split; [vm_compute; reflexivity|]. split; [exact (Hbetter _ eq_refl)|]. split; [exact Htip|exact Hsame].
Defined.
