(* ===== verification/HeadersSync.v ===== *)
(** * Headers from a peer

    [handle_response] of [src/lib/node/net_task.rs] for headers: the headers that a peer sends
    are checked against the request, and stored in order. *)

From S2P Require Import Prelude Types Transaction Sample Merkle State SideTips Lineage Archive.
From S2P Require Import ArchiveTree ArchiveWf ArchiveBodies TipsWf ArchiveQueries ArchiveSamples.
From S2P Require Import BetterTip MainchainTask Node NodeTask.

Section headers.
Context `{Externals}.
Implicit Types (a : Archive) (headers : list Header).

(** Headers with the same hash are the same. *)
Definition no_collision a headers : Prop :=
  (forall h, h ∈ headers -> ar_headers a !! header_hash h = None \/ ar_headers a !! header_hash h = Some h) /\
  (forall h h', h ∈ headers -> h' ∈ headers -> header_hash h = header_hash h' -> h = h').

(** The height of the block after [prev] *)
Definition height_after a (prev : option BlockHash) : option u32 :=
  match prev with
  | None => Some 0
  | Some p => (fun k => k + 1) <$> ar_block_hash_to_height a !! p
  end.

Lemma put_header_effect a header a' :
  put_header a header = Ok a' ->
  ar_headers a' = <[header_hash header := header]> (ar_headers a) /\
  exists k, ar_block_hash_to_height a' = <[header_hash header := k]> (ar_block_hash_to_height a) /\
    match hd_prev_side_hash header with
    | None => k = 0
    | Some p => exists kp, ar_block_hash_to_height a !! p = Some kp /\ k = u32_add kp 1
    end.
Proof.
  intros (k & l & ps & s1 & s2 & mb & results & Hk & _ & _ & _ & ->)%put_header_Ok.
  split; [done|]. by exists k.
Qed.

(** The height of a stored header *)
Lemma stored_header_height a header :
  archive_wf a -> ar_headers a !! header_hash header = Some header ->
  ar_block_hash_to_height a !! header_hash header = height_after a (hd_prev_side_hash header).
Proof.
  intros [Hs _ _] Hh. pose proof (index_tree _ Hs) as T.
  destruct (iw_dom _ Hs (header_hash header)) as [[k Hk] _]; [cbn; rewrite lookup_fmap, Hh; by eexists|].
  cbn in Hk. rewrite Hk.
  assert (ix_parent (side_index a) (header_hash header) = hd_prev_side_hash header) as Hp.
  { unfold ix_parent. cbn. by rewrite lookup_fmap, Hh. }
  destruct (N.zero_or_succ k) as [->|[k' ->]].
  - by rewrite <-Hp, (tr_root _ _ T _ Hk).
  - destruct (tr_parent _ _ T (header_hash header) k') as (p & Hpp & Hkp); [by rewrite <-N.add_1_r in Hk|].
    rewrite Hp in Hpp. rewrite Hpp. cbn. unfold ix_height in Hkp. cbn in Hkp. rewrite Hkp. cbn. f_equal. lia.
Qed.

Definition archive_grows a a' : Prop :=
  ar_headers a ⊆ ar_headers a' /\ ar_block_hash_to_height a ⊆ ar_block_hash_to_height a'.

(** A new header with a known parent *)
Lemma put_new_header a header a' base :
  archive_wf a -> ar_headers a !! header_hash header = None ->
  height_after a (hd_prev_side_hash header) = Some base -> base <= u32_MAX ->
  put_header a header = Ok a' ->
  archive_wf a' /\ archive_grows a a' /\ ar_headers a' = <[header_hash header := header]> (ar_headers a) /\
  ar_block_hash_to_height a' !! header_hash header = Some base.
Proof.
  intros Hw Hn Hb Hmax Hp. assert (header_storable a header) as Hst.
  { split; [by left|]. intros p k Hpp Hk. rewrite Hpp in Hb. cbn in Hb. rewrite Hk in Hb.
    injection Hb as <-. done. }
  destruct (put_header_effect _ _ _ Hp) as (Hh & k & Hk & Hkk).
  assert (ar_block_hash_to_height a !! header_hash header = None) as Hkn.
  { apply eq_None_not_Some. intros Hs. destruct (iw_dom _ (aw_side _ Hw) (header_hash header)) as [_ Hd].
    destruct (Hd Hs) as [p Hpx]. cbn in Hpx. by rewrite lookup_fmap, Hn in Hpx. }
  split_and!; [by eapply put_header_wf| |done|].
  - split; [rewrite Hh|rewrite Hk]; by apply insert_subseteq.
  - rewrite Hk, lookup_insert_eq. f_equal. destruct (hd_prev_side_hash header) as [p|]; cbn in Hb.
    + destruct Hkk as (kp & Hkp & ->). rewrite Hkp in Hb. injection Hb as <-. by apply u32_add_small.
    + by injection Hb as <-.
Qed.

Lemma height_known_header a p k :
  archive_wf a -> ar_block_hash_to_height a !! p = Some k -> is_Some (ar_headers a !! p).
Proof.
  intros Hw Hk. destruct (iw_dom _ (aw_side _ Hw) p) as [_ Hd]. destruct Hd as [x Hx]; [by eexists|].
  cbn in Hx. rewrite lookup_fmap in Hx. by destruct (ar_headers a !! p).
Qed.

Lemma no_collision_next a a' header headers :
  no_collision a (header :: headers) ->
  ar_headers a' = ar_headers a \/ ar_headers a' = <[header_hash header := header]> (ar_headers a) ->
  no_collision a' headers.
Proof.
  intros [H1 H2] Ha. split.
  - intros h Hh. destruct Ha as [->| ->]; [apply H1; by apply list_elem_of_further|].
    destruct (decide (header_hash h = header_hash header)) as [He|Hne].
    + right. rewrite (H2 h header (list_elem_of_further _ _ _ Hh) (list_elem_of_here _ _) He).
      apply lookup_insert_eq.
    + rewrite lookup_insert_ne by congruence. apply H1. by apply list_elem_of_further.
  - intros h h' Hh Hh'. apply H2; by apply list_elem_of_further.
Qed.

(** One header, stored before or now *)
Lemma store_header_step a header headers base a' :
  archive_wf a -> no_collision a (header :: headers) ->
  height_after a (hd_prev_side_hash header) = Some base -> base <= u32_MAX ->
  store_headers a (header :: headers) = Ok a' ->
  exists a1, store_headers a1 headers = Ok a' /\ archive_wf a1 /\ archive_grows a a1 /\
    no_collision a1 headers /\ ar_headers a1 !! header_hash header = Some header /\
    ar_block_hash_to_height a1 !! header_hash header = Some base.
Proof.
  intros Hw Hnc Hb Hmax Hst. cbn [store_headers] in Hst.
  destruct (proj1 Hnc header (list_elem_of_here _ _)) as [Hn|Hs].
  - rewrite Hn, bool_decide_false in Hst by (by intros []).
    assert (exists a1, put_header a header = Ok a1 /\ store_headers a1 headers = Ok a') as (a1 & Hp & Hst').
    { destruct (hd_prev_side_hash header) as [p|]; [|by apply bind_Ok in Hst].
      destruct (ar_block_hash_to_height a !! p) as [k|] eqn:Hk; [|cbn in Hb; by rewrite Hk in Hb].
      rewrite bool_decide_true in Hst by (by eapply height_known_header). by apply bind_Ok in Hst. }
    destruct (put_new_header a header a1 base Hw Hn Hb Hmax Hp) as (Hw1 & Hg & Hh & Hk).
    exists a1. split_and!; [done|done|done|eapply no_collision_next; [done|by right]| |done].
    rewrite Hh. apply lookup_insert_eq.
  - rewrite Hs, bool_decide_true in Hst by by eexists. exists a.
    split_and!; [done|done|by split|eapply no_collision_next; [done|by left]|done|].
    by rewrite (stored_header_height a header Hw Hs).
Qed.

Lemma store_headers_Ok a0 headers : forall a prev base a',
  archive_wf a -> no_collision a headers -> sequential a0 prev headers = true ->
  height_after a prev = Some base -> base + N.of_nat (length headers) <= u32_MAX + 1 ->
  store_headers a headers = Ok a' ->
  archive_wf a' /\ archive_grows a a' /\
  forall i h, headers !! i = Some h -> ar_headers a' !! header_hash h = Some h /\
    ar_block_hash_to_height a' !! header_hash h = Some (base + N.of_nat i).
Proof.
  induction headers as [|header headers IH]; intros a prev base a' Hw Hnc Hseq Hb Hlen Hst.
  { injection Hst as <-. split_and!; [done|by split|intros i h Hi; by rewrite lookup_nil in Hi]. }
  cbn [sequential] in Hseq. rewrite !andb_true_iff in Hseq. destruct Hseq as [[Hp%bool_decide_eq_true _] Hseq].
  subst prev. cbn [length] in Hlen.
  destruct (store_header_step a header headers base a' Hw Hnc Hb ltac:(lia) Hst)
    as (a1 & Hst1 & Hw1 & [Hg1 Hg2] & Hnc1 & Hh1 & Hk1).
  destruct (IH a1 (Some (header_hash header)) (base + 1) a') as (Hw' & [Hg1' Hg2'] & Hall);
    [done|done|done|cbn; by rewrite Hk1|lia|done|].
  split_and!; [done|split; by etransitivity|]. intros [|i] h Hi; cbn in Hi.
  - injection Hi as <-. split; [by eapply lookup_weaken|].
    rewrite N.add_0_r. by eapply lookup_weaken.
  - destruct (Hall i h Hi) as [? Hk]. split; [done|]. rewrite Hk. f_equal. lia.
Qed.
End headers.

(** An answer that is taken links up from a block of the request, or from the first block, to the end of the request, at
    the announced height, and holds no block that was invalidated. *)
Lemma check_headers_true `{Externals} (a : Archive) (req : HeadersRequest) (headers : list Header) :
  (forall b k, b ∈ hr_start req -> ar_block_hash_to_height a !! b = Some k ->
    k + N.of_nat (length headers) <= u32_MAX) ->
  N.of_nat (length headers) <= u32_MAX ->
  check_headers a req headers = Ok true ->
  exists prev base end_header,
    last headers = Some end_header /\ header_hash end_header = hr_end req /\
    height_after a prev = Some base /\ base + N.of_nat (length headers) <= u32_MAX + 1 /\
    base + N.of_nat (length headers) - 1 = hr_height req /\ sequential a prev headers = true.
Proof.
  intros Hmax Hlen Hc. unfold check_headers in Hc. destruct headers as [|first rest] eqn:Heq; [done|]. rewrite <-Heq in *.
  destruct (last headers) as [end_header|] eqn:Hlast; [|done].
  destruct (N.eqb_spec (header_hash end_header) (hr_end req)) as [Hend|]; [|done]. cbn [negb] in Hc.
  exists (hd_prev_side_hash first).
  assert (N.of_nat (length headers) mod 2 ^ 32 = N.of_nat (length headers)) as Hmod
    by (apply N.mod_small; unfold u32_MAX in Hlen; lia).
  rewrite Hmod in Hc. assert (1 <= N.of_nat (length headers)) as Hpos by (rewrite Heq; cbn; lia).
  destruct (hd_prev_side_hash first) as [p|].
  - case_bool_decide as Hin; [|done]. apply bind_Ok in Hc as (k & Hk%ok_or_Ok & Hc). injection Hc as Hc.
    apply andb_true_iff in Hc as [Hc%N.eqb_eq Hs]. unfold archive_try_get_height in Hk. pose proof (Hmax p k Hin Hk) as Hm.
    rewrite u32_add_small in Hc by done. exists (k + 1), end_header. cbn. rewrite Hk. split_and!; [done|done|done|lia|lia|done].
  - injection Hc as Hc. apply andb_true_iff in Hc as [Hc%N.eqb_eq Hs]. exists 0, end_header. unfold u32_sub in Hc.
    replace (N.of_nat (length headers) + 2 ^ 32 - 1) with (N.of_nat (length headers) - 1 + 1 * 2 ^ 32) in Hc by lia.
    rewrite N.Div0.mod_add, N.mod_small in Hc by (unfold u32_MAX in Hlen; lia).
    split_and!; [done|done|done|lia|lia|done].
Qed.

Lemma sequential_valid `{Externals} a headers : forall prev,
  sequential a prev headers = true -> Forall (fun h => invalidated_block a (header_hash h) = false) headers.
Proof.
  induction headers as [|h headers IH]; intros prev Hs; [done|]. cbn [sequential] in Hs.
  rewrite !andb_true_iff, negb_true_iff in Hs. destruct Hs as [[_ Hv] Hs]. constructor; [done|]. by eapply IH.
Qed.

(** ** Samples *)

Module HeadersSamples.
#[local] Existing Instance Sample.externals.
#[local] Existing Instance ArchiveSamples.work_externals.
(** The first sidechain block is known; a peer sends the next one. *)
Definition ops : list ArchiveSamples.Op :=
  take 10 ArchiveSamples.ops ++ [ArchiveSamples.Op_header ArchiveSamples.header0].
Definition archive : Archive := default archive_new (ArchiveSamples.run ops archive_new).
Lemma headers_archive_wf : archive_wf archive.
Proof.
  apply archive_reachable_wf, (ArchiveSamples.run_reachable ops archive_new); [constructor|].
  vm_compute. reflexivity.
Qed.
Definition req : HeadersRequest :=
  mkHeadersRequest {[ArchiveSamples.block0]} ArchiveSamples.block1 1.
Lemma heights_small b k :
  ar_block_hash_to_height archive !! b = Some k -> k + 1 <= u32_MAX.
Proof.
  assert (map_Forall (fun _ k => k + 1 <= u32_MAX) (ar_block_hash_to_height archive)) as Hf
    by (apply (bool_decide_unpack _); vm_compute; exact I).
  apply Hf.
Qed.
End HeadersSamples.
