(* ===== verification/Wallet.v ===== *)
(** * The wallet

    [src/lib/wallet/mod.rs], [src/lib/wallet/util.rs] and
    [src/lib/wallet/error.rs]: the databases of the wallet, the derivation of
    its keys from the seed, coin selection, the transactions it makes, and its
    signatures.

    An operation of the wallet opens a write transaction of its own and commits
    it before it returns, and some operations commit several: they are the
    operations of the monad [op]. *)

From S2P Require Import Prelude Types Transaction Authorization.

Notation XPrv := N (only parsing).
Notation XPub := N (only parsing).
Notation StaticSecret := N (only parsing).

(** ** Third-party code of the wallet *)

Class WalletExternals : Type := {
  sha256 : bytes -> bytes;
  (** [ed25519_bip32::XPrv] *)
  from_nonextended_noforce : bytes -> bytes -> option XPrv;
  xprv_derive : XPrv -> u32 -> XPrv;
  xprv_public : XPrv -> XPub;
  extended_secret_key_bytes : XPrv -> bytes;
  (** [curve25519_dalek::Scalar], [frost_ristretto255::SigningKey] *)
  from_bytes_mod_order : bytes -> N;
  signing_key_from_scalar : N -> option SigningKey;
  signing_key_to_scalar_bytes : SigningKey -> bytes;
  (** [x25519_dalek] *)
  static_secret_from : bytes -> StaticSecret;
  encryption_pubkey_of : StaticSecret -> EncryptionPubKey;
  (** [bip39]: the seed of a phrase, [None] when it does not parse *)
  bip39_seed : string -> option bytes;
  (** [libes::Ecies::decrypt] *)
  ecies_decrypt : StaticSecret -> bytes -> option bytes;
  (** [rayon]: sorts by a key, equal keys in any order *)
  par_sort_unstable_by_key : forall {A : Type}, (A -> N) -> list A -> list A;
  (** The order in which a [HashMap] is iterated, which is not specified *)
  hashmap_iter : forall {V : Type}, gmap OutPoint V -> list (OutPoint * V);
}.

(** What is documented of the two orders. *)
Definition par_sort_spec `{WalletExternals} : Prop :=
  forall A (key : A -> N) (l : list A),
    par_sort_unstable_by_key key l ≡ₚ l /\
    StronglySorted (fun a b => key a <= key b) (par_sort_unstable_by_key key l).
Definition hashmap_iter_spec `{WalletExternals} : Prop :=
  forall V (m : gmap OutPoint V), hashmap_iter m ≡ₚ map_to_list m.

(** ** Errors and state *)

Inductive WalletError : Type :=
| Wallet_AddressDoesNotExist (address : Address)
| Wallet_AmountOverflow
| Wallet_Ecies
| Wallet_EpkDoesNotExist (epk : EncryptionPubKey)
| Wallet_NoIndex (address : Address)
| Wallet_NoSeed
| Wallet_NoBitnameReservation (plain_name : string)
| Wallet_NotEnoughFunds
| Wallet_NoTransferDestination
| Wallet_NoUtxo
| Wallet_ParseMnemonic
| Wallet_SeedAlreadyExists
| Wallet_VkDoesNotExist (vk : VerifyingKey).

Record Wallet : Type := mkWallet {
  w_seed : option bytes;
  w_address_to_index : gmap Address u32;
  w_epk_to_index : gmap EncryptionPubKey u32;
  w_index_to_address : gmap u32 Address;
  w_index_to_epk : gmap u32 EncryptionPubKey;
  w_index_to_vk : gmap u32 VerifyingKey;
  w_utxos : gmap OutPoint FilledOutput;
  w_pending_inputs : gset OutPoint;
  w_stxos : gmap OutPoint SpentOutput;
  w_bitname_reservations : gmap Hash string;
  w_known_bitnames : gmap BitName string;
  w_vk_to_index : gmap VerifyingKey u32;
}.

Definition wallet_new : Wallet := mkWallet None ∅ ∅ ∅ ∅ ∅ ∅ ∅ ∅ ∅ ∅ ∅.

(** Writes to the databases of the wallet *)
Definition set_addresses (by_address : gmap Address u32) (by_index : gmap u32 Address)
    (w : Wallet) : Wallet :=
  mkWallet (w_seed w) by_address (w_epk_to_index w) by_index (w_index_to_epk w)
    (w_index_to_vk w) (w_utxos w) (w_pending_inputs w) (w_stxos w) (w_bitname_reservations w)
    (w_known_bitnames w) (w_vk_to_index w).
Definition set_epks (by_epk : gmap EncryptionPubKey u32) (by_index : gmap u32 EncryptionPubKey)
    (w : Wallet) : Wallet :=
  mkWallet (w_seed w) (w_address_to_index w) by_epk (w_index_to_address w) by_index
    (w_index_to_vk w) (w_utxos w) (w_pending_inputs w) (w_stxos w) (w_bitname_reservations w)
    (w_known_bitnames w) (w_vk_to_index w).
Definition set_vks (by_vk : gmap VerifyingKey u32) (by_index : gmap u32 VerifyingKey)
    (w : Wallet) : Wallet :=
  mkWallet (w_seed w) (w_address_to_index w) (w_epk_to_index w) (w_index_to_address w)
    (w_index_to_epk w) by_index (w_utxos w) (w_pending_inputs w) (w_stxos w)
    (w_bitname_reservations w) (w_known_bitnames w) by_vk.
Definition set_coins (utxos : gmap OutPoint FilledOutput) (stxos : gmap OutPoint SpentOutput)
    (w : Wallet) : Wallet :=
  mkWallet (w_seed w) (w_address_to_index w) (w_epk_to_index w) (w_index_to_address w)
    (w_index_to_epk w) (w_index_to_vk w) utxos (w_pending_inputs w) stxos
    (w_bitname_reservations w) (w_known_bitnames w) (w_vk_to_index w).
Definition set_pending_inputs (pending : gset OutPoint) (w : Wallet) : Wallet :=
  mkWallet (w_seed w) (w_address_to_index w) (w_epk_to_index w) (w_index_to_address w)
    (w_index_to_epk w) (w_index_to_vk w) (w_utxos w) pending (w_stxos w)
    (w_bitname_reservations w) (w_known_bitnames w) (w_vk_to_index w).
Definition set_names (reservations : gmap Hash string) (known : gmap BitName string)
    (w : Wallet) : Wallet :=
  mkWallet (w_seed w) (w_address_to_index w) (w_epk_to_index w) (w_index_to_address w)
    (w_index_to_epk w) (w_index_to_vk w) (w_utxos w) (w_pending_inputs w) (w_stxos w)
    reservations known (w_vk_to_index w).

(** ** Operations *)

Definition wallet_op : Type -> Type := op Wallet WalletError.

(** [Amount - Amount], which panics on underflow *)
Definition amount_sub {E} (a b : Amount) : result E Amount := expect (amount_checked_sub a b).

(** ** Derivation paths ([wallet/util.rs]) *)

(** [bitcoin::bip32::ChildNumber] and its conversion to [u32] *)
Inductive ChildNumber : Type := Normal (index : u32) | Hardened (index : u32).
Definition child_number_u32 (c : ChildNumber) : u32 :=
  match c with Normal index => index | Hardened index => N.lor index (2 ^ 31) end.

Inductive KnownBip32Path : Type :=
| Encryption (index : u32) | MessageSigning (index : u32) | TxSigning (index : u32).

Definition MASTER_ENCRYPTION : list ChildNumber := [Hardened 1].
Definition MASTER_MESSAGE_SIGNING : list ChildNumber := [Hardened 2].
Definition MASTER_TX_SIGNING : list ChildNumber := [Hardened 0].

Definition derivation_path (p : KnownBip32Path) : list ChildNumber :=
  match p with
  | Encryption index => MASTER_ENCRYPTION ++ [Normal index]
  | MessageSigning index => MASTER_MESSAGE_SIGNING ++ [Normal index]
  | TxSigning index => MASTER_TX_SIGNING ++ [Normal index]
  end.

Section wallet.
Context `{Externals} `{WalletExternals}.
Implicit Types (w : Wallet).

Definition derive_xprv (xprv : XPrv) (path : list ChildNumber) : XPrv :=
  foldl (fun xprv child_number => xprv_derive xprv (child_number_u32 child_number)) xprv path.

(** ** Keys *)

Definition signing_key_from_xprv (xprv : XPrv) : result WalletError SigningKey :=
  expect (signing_key_from_scalar
            (from_bytes_mod_order (take 32 (extended_secret_key_bytes xprv)))).

(** [XEncryptionSecretKey::encryption_secret] *)
Definition encryption_secret (xesk : XPrv) : StaticSecret :=
  static_secret_from (take 32 (extended_secret_key_bytes xesk)).

(** The [loop] of [get_master_xprv]. A try succeeds for one secret in two. The
    model gives up after [MASTER_ROUNDS] tries. *)
Definition MASTER_ROUNDS : nat := 256.
Fixpoint master_xprv_loop (fuel : nat) (master_secret : bytes) : result WalletError XPrv :=
  match fuel with
  | O => Panic
  | S fuel =>
      let root_chain_code := sha256 (1 :: master_secret) in
      match from_nonextended_noforce master_secret root_chain_code with
      | Some res => Ok res
      | None => master_xprv_loop fuel (sha256 master_secret)
      end
  end.
Definition get_master_xprv w : result WalletError XPrv :=
  seed_bytes ← ok_or (w_seed w) Wallet_NoSeed;
  master_xprv_loop MASTER_ROUNDS (sha256 seed_bytes).

Definition get_master_xesk w : result WalletError XPrv :=
  master_xprv ← get_master_xprv w;
  Ok (derive_xprv master_xprv MASTER_ENCRYPTION).
Definition get_master_xsk w : result WalletError XPrv :=
  master_xprv ← get_master_xprv w;
  Ok (derive_xprv master_xprv MASTER_TX_SIGNING).
Definition get_master_xvk w : result WalletError XPub :=
  xsk ← get_master_xsk w;
  Ok (xprv_public xsk).

Definition get_epk_index w (epk : EncryptionPubKey) : result WalletError u32 :=
  ok_or (w_epk_to_index w !! epk) (Wallet_EpkDoesNotExist epk).
Definition get_encryption_xesk w (index : u32) : result WalletError XPrv :=
  master_xprv ← get_master_xprv w;
  Ok (derive_xprv master_xprv (derivation_path (Encryption index))).
Definition get_encryption_secret w (index : u32) : result WalletError StaticSecret :=
  xesk ← get_encryption_xesk w index;
  Ok (encryption_secret xesk).
Definition get_encryption_xesk_for_epk w (epk : EncryptionPubKey) : result WalletError XPrv :=
  epk_idx ← get_epk_index w epk;
  xesk ← get_encryption_xesk w epk_idx;
  _ ← assert_ (epk =? encryption_pubkey_of (encryption_secret xesk));
  Ok xesk.
Definition get_encryption_secret_for_epk w (epk : EncryptionPubKey)
  : result WalletError StaticSecret :=
  epk_idx ← get_epk_index w epk;
  encryption_secret ← get_encryption_secret w epk_idx;
  _ ← assert_ (epk =? encryption_pubkey_of encryption_secret);
  Ok encryption_secret.

Definition get_tx_signing_key w (index : u32) : result WalletError SigningKey :=
  master_xprv ← get_master_xprv w;
  signing_key_from_xprv (derive_xprv master_xprv (derivation_path (TxSigning index))).
Definition address_of_signing_key (signing_key : SigningKey) : Address :=
  address_of_key (verifying_key_of signing_key).
Definition get_tx_signing_key_for_addr w (address : Address) : result WalletError SigningKey :=
  addr_idx ← ok_or (w_address_to_index w !! address) (Wallet_AddressDoesNotExist address);
  signing_key ← get_tx_signing_key w addr_idx;
  _ ← assert_ (address =? address_of_signing_key signing_key);
  Ok signing_key.
Definition get_message_signing_key w (index : u32) : result WalletError SigningKey :=
  master_xprv ← get_master_xprv w;
  signing_key_from_xprv (derive_xprv master_xprv (derivation_path (MessageSigning index))).
Definition try_get_message_signing_key_for_vk w (vk : VerifyingKey)
  : result WalletError (option SigningKey) :=
  match w_vk_to_index w !! vk with
  | None => Ok None
  | Some vk_idx =>
      signing_key ← get_message_signing_key w vk_idx;
      _ ← assert_ (vk =? verifying_key_of signing_key);
      Ok (Some signing_key)
  end.
Definition get_message_signing_key_for_vk w (vk : VerifyingKey) : result WalletError SigningKey :=
  signing_key ← try_get_message_signing_key_for_vk w vk;
  ok_or signing_key (Wallet_VkDoesNotExist vk).

(** [.last(&txn)?.map(|(idx, _)| idx + 1).unwrap_or(0)] *)
Definition next_index {V} (db : gmap u32 V) : u32 :=
  match db_last_N db with Some (idx, _) => u32_add idx 1 | None => 0 end.

Definition get_new_address : wallet_op Address :=
  next_index ← reading (fun w => Ok (next_index (w_index_to_address w)));
  tx_signing_key ← reading (fun w => get_tx_signing_key w next_index);
  let address := address_of_signing_key tx_signing_key in
  _ ← writing (fun w => set_addresses (<[address := next_index]> (w_address_to_index w))
                          (<[next_index := address]> (w_index_to_address w)) w);
  mret address.

Definition get_new_encryption_key : wallet_op EncryptionPubKey :=
  next_index ← reading (fun w => Ok (next_index (w_index_to_epk w)));
  encryption_secret ← reading (fun w => get_encryption_secret w next_index);
  let epk := encryption_pubkey_of encryption_secret in
  _ ← writing (fun w => set_epks (<[epk := next_index]> (w_epk_to_index w))
                          (<[next_index := epk]> (w_index_to_epk w)) w);
  mret epk.

Definition get_new_verifying_key : wallet_op VerifyingKey :=
  next_index ← reading (fun w => Ok (next_index (w_index_to_vk w)));
  signing_key ← reading (fun w => get_message_signing_key w next_index);
  let vk := verifying_key_of signing_key in
  _ ← writing (fun w => set_vks (<[vk := next_index]> (w_vk_to_index w))
                          (<[next_index := vk]> (w_index_to_vk w)) w);
  mret vk.

Definition address_received w (address : Address) : bool :=
  existsb (fun e : OutPoint * FilledOutput => fo_address e.2 =? address)
    (map_to_list (w_utxos w)) ||
  existsb (fun e : OutPoint * SpentOutput => fo_address (so_output e.2) =? address)
    (map_to_list (w_stxos w)).

Definition get_receive_address : wallet_op Address :=
  last ← reading (fun w => Ok (db_last_N (w_index_to_address w)));
  unused ← reading (fun w => Ok match last with
                               | Some (_, address) => negb (address_received w address)
                               | None => false
                               end);
  match last, unused with
  | Some (_, address), true => mret address
  | _, _ => get_new_address
  end.

(** ** The seed *)

Definition overwrite_seed (seed : bytes) : wallet_op unit :=
  writing (fun w =>
    mkWallet (Some seed) ∅ (w_epk_to_index w) ∅ (w_index_to_epk w) (w_index_to_vk w)
      ∅ (w_pending_inputs w) ∅ ∅ (w_known_bitnames w) (w_vk_to_index w)).

Definition has_seed w : bool := bool_decide (is_Some (w_seed w)).

Definition set_seed (seed : bytes) : wallet_op unit :=
  current ← reading (fun w => Ok (w_seed w));
  match current with
  | Some current_seed =>
      lifted (ensure (bool_decide (current_seed = seed)) Wallet_SeedAlreadyExists)
  | None => overwrite_seed seed
  end.

Definition set_seed_from_mnemonic (mnemonic : string) : wallet_op unit :=
  seed_bytes ← lifted (ok_or (bip39_seed mnemonic) Wallet_ParseMnemonic);
  set_seed seed_bytes.

Definition decrypt_msg w (encryption_pubkey : EncryptionPubKey) (ciphertext : bytes)
  : result WalletError bytes :=
  encryption_secret ← get_encryption_secret_for_epk w encryption_pubkey;
  ok_or (ecies_decrypt encryption_secret ciphertext) Wallet_Ecies.

(** ** Coins *)

Definition set_pending_transactions (transactions : list AuthorizedTransaction) w : Wallet :=
  set_pending_inputs
    (list_to_set (concat ((fun tx => tx_inputs (at_transaction tx)) <$> transactions))) w.

(** The condition on which [select_coins] passes over an output *)
Definition skipped w (outpoint : OutPoint) (output : FilledOutput) : bool :=
  bool_decide (outpoint ∈ w_pending_inputs w) ||
  filled_is_withdrawal (fo_content output) || filled_is_bitname (fo_content output) ||
  filled_is_reservation (fo_content output) || (filled_output_get_value output =? 0).

Fixpoint select_loop w (value : Amount) (utxos : list (OutPoint * FilledOutput))
    (total : Amount) (selected : gmap OutPoint FilledOutput)
  : result WalletError (Amount * gmap OutPoint FilledOutput) :=
  match utxos with
  | [] => Ok (total, selected)
  | (outpoint, output) :: utxos =>
      if skipped w outpoint output then select_loop w value utxos total selected
      else if value <=? total then Ok (total, selected)
      else
        total ← ok_or (amount_checked_add total (filled_output_get_value output))
                  Wallet_AmountOverflow;
        select_loop w value utxos total (<[outpoint := output]> selected)
  end.

Definition select_coins w (value : Amount)
  : result WalletError (Amount * gmap OutPoint FilledOutput) :=
  let utxos := par_sort_unstable_by_key (fun e => filled_output_get_value e.2)
                 (map_to_list (w_utxos w)) in
  '(total, selected) ← select_loop w value utxos 0 ∅;
  if total <? value then Err Wallet_NotEnoughFunds else Ok (total, selected).

Definition spend_utxo w (spent : OutPoint * InPoint) : Wallet :=
  match w_utxos w !! spent.1 with
  | Some output =>
      set_coins (delete spent.1 (w_utxos w))
        (<[spent.1 := mkSpentOutput output spent.2]> (w_stxos w)) w
  | None => w
  end.
Definition spend_utxos (spent : list (OutPoint * InPoint)) w : Wallet := foldl spend_utxo w spent.
Definition put_utxos (utxos : gmap OutPoint FilledOutput) w : Wallet :=
  set_coins (utxos ∪ w_utxos w) (w_stxos w) w.

(** [types/wallet.rs] *)
Record Balance : Type := mkBalance { bal_total : Amount; bal_available : Amount }.

Definition get_balance w : result WalletError Balance :=
  fold_res (fun balance (e : OutPoint * FilledOutput) =>
    let value := filled_output_get_value e.2 in
    total ← ok_or (amount_checked_add (bal_total balance) value) Wallet_AmountOverflow;
    available ← (if filled_is_withdrawal (fo_content e.2) then Ok (bal_available balance)
                 else ok_or (amount_checked_add (bal_available balance) value)
                        Wallet_AmountOverflow);
    Ok (mkBalance total available)) (map_to_list (w_utxos w)) (mkBalance 0 0).

Definition get_bitnames w : gmap OutPoint FilledOutput :=
  filter (fun e => filled_is_bitname (fo_content e.2) = true) (w_utxos w).
Definition get_spent_bitnames w : gmap OutPoint SpentOutput :=
  filter (fun e => filled_is_bitname (fo_content (so_output e.2)) = true) (w_stxos w).
Definition get_addresses w : gset Address := map_img (w_index_to_address w).
Definition try_get_last_address w : option Address := snd <$> db_last_N (w_index_to_address w).
Definition get_or_generate_last_address : wallet_op Address :=
  last ← reading (fun w => Ok (try_get_last_address w));
  match last with Some address => mret address | None => get_new_address end.
Definition get_num_addresses w : u32 := N.of_nat (size (w_index_to_address w)) mod 2 ^ 32.

(** ** Transactions *)

Definition tx_new (inputs : list OutPoint) (outputs : list Output) : Transaction :=
  mkTransaction inputs outputs [] None.
Definition output_new (address : Address) (content : Content) : Output :=
  mkOutput address content [].
Definition is_regular (tx : Transaction) : bool :=
  match tx_data tx with None => true | Some _ => false end.

Definition create_regular_transaction (fee : Amount) : wallet_op Transaction :=
  '(total, coins) ← reading (fun w => select_coins w fee);
  change ← lifted (amount_sub total fee);
  let inputs := (hashmap_iter coins).*1 in
  address ← get_new_address;
  mret (tx_new inputs [output_new address (Content_Bitcoin change)]).

Definition create_withdrawal (main_address : MainAddress) (value main_fee fee : Amount)
  : wallet_op Transaction :=
  needed ← lifted (ok_or (amount_checked_add value fee) Wallet_AmountOverflow);
  needed ← lifted (ok_or (amount_checked_add needed main_fee) Wallet_AmountOverflow);
  '(total, coins) ← reading (fun w => select_coins w needed);
  change ← lifted (amount_sub total value);
  change ← lifted (amount_sub change fee);
  change ← lifted (amount_sub change main_fee);
  let inputs := (hashmap_iter coins).*1 in
  address ← get_new_address;
  change_address ← get_new_address;
  mret (tx_new inputs
    [output_new address (Content_Withdrawal (mkWithdrawalContent value main_fee main_address));
     output_new change_address (Content_Bitcoin change)]).

(** The change output of a transfer *)
Definition with_change (outputs : list Output) (change : Amount) : wallet_op (list Output) :=
  if change =? 0 then mret outputs
  else
    address ← get_new_address;
    mret (outputs ++ [output_new address (Content_Bitcoin change)]).

Definition create_transfer (address : Address) (value fee : Amount) (memo : option bytes)
  : wallet_op Transaction :=
  needed ← lifted (ok_or (amount_checked_add value fee) Wallet_AmountOverflow);
  '(total, coins) ← reading (fun w => select_coins w needed);
  change ← lifted (amount_sub total value);
  change ← lifted (amount_sub change fee);
  let inputs := (hashmap_iter coins).*1 in
  outputs ← with_change [mkOutput address (Content_Bitcoin value) (default [] memo)] change;
  mret (tx_new inputs outputs).

(** [dests] are the entries of the [BTreeMap] in the order of their keys. *)
Definition create_transfer_many (dests : list (Address * Amount)) (fee : Amount)
  : wallet_op Transaction :=
  _ ← lifted (ensure (negb (Nat.eqb (length dests) 0)) Wallet_NoTransferDestination);
  value ← lifted (ok_or (checked_sum dests.*2) Wallet_AmountOverflow);
  needed ← lifted (ok_or (amount_checked_add value fee) Wallet_AmountOverflow);
  '(total, coins) ← reading (fun w => select_coins w needed);
  change ← lifted (amount_sub total value);
  change ← lifted (amount_sub change fee);
  let inputs := (hashmap_iter coins).*1 in
  outputs ← with_change ((fun d => output_new d.1 (Content_Bitcoin d.2)) <$> dests) change;
  mret (tx_new inputs outputs).

(** The address of the last output when the wallet owns it, or a new one *)
Definition last_output_address (tx : Transaction) : wallet_op Address :=
  match last (tx_outputs tx) with
  | Some last_output =>
      owned ← reading (fun w =>
        Ok (bool_decide (is_Some (w_address_to_index w !! out_address last_output))));
      if owned : bool then mret (out_address last_output) else get_new_address
  | None => get_new_address
  end.

(** The nonce with which the holder of a key reserves a name *)
Definition reservation_nonce (reservation_signing_key : SigningKey) (name_hash : Hash) : Hash :=
  blake3_keyed_hash (blake3_hash (signing_key_to_scalar_bytes reservation_signing_key)) name_hash.

Definition push_output (tx : Transaction) (output : Output) : Transaction :=
  mkTransaction (tx_inputs tx) (tx_outputs tx ++ [output]) (tx_memo tx) (tx_data tx).
Definition with_data (tx : Transaction) (data : TxData) : Transaction :=
  mkTransaction (tx_inputs tx) (tx_outputs tx) (tx_memo tx) (Some data).

Definition reserve_bitname (tx : Transaction) (plain_name : string) : wallet_op Transaction :=
  _ ← lifted (assert_ (is_regular tx || is_reservation tx));
  reservation_addr ←
    (if is_reservation tx then
       lifted (out_address <$> expect (last (reservation_outputs tx)))
     else last_output_address tx);
  reservation_signing_key ← reading (fun w => get_tx_signing_key_for_addr w reservation_addr);
  let name_hash := name_hash_of plain_name in
  let nonce := reservation_nonce reservation_signing_key name_hash in
  let commitment := blake3_keyed_hash nonce name_hash in
  _ ← writing (fun w => set_names (<[commitment := plain_name]> (w_bitname_reservations w))
                          (<[name_hash := plain_name]> (w_known_bitnames w)) w);
  let tx := if is_regular tx
            then push_output tx (output_new reservation_addr Content_BitNameReservation)
            else tx in
  mret (with_data tx (TxData_BitNameReservation commitment)).

(** The search of [register_bitname]: an outpoint and its nonce *)
Fixpoint find_reservation w (name_hash : BitName) (utxos : list (OutPoint * FilledOutput))
  : result WalletError (option (OutPoint * Hash)) :=
  match utxos with
  | [] => Ok None
  | (outpoint, filled_output) :: utxos =>
      match filled_reservation_commitment (fo_content filled_output) with
      | Some reservation_commitment =>
          reservation_signing_key ← get_tx_signing_key_for_addr w (fo_address filled_output);
          let nonce := reservation_nonce reservation_signing_key name_hash in
          if blake3_keyed_hash nonce name_hash =? reservation_commitment
          then Ok (Some (outpoint, nonce))
          else find_reservation w name_hash utxos
      | None => find_reservation w name_hash utxos
      end
  end.

Definition register_bitname (tx : Transaction) (plain_name : string)
    (bitname_data : MutableBitNameData) : wallet_op Transaction :=
  _ ← lifted (assert_ (is_regular tx));
  registration_addr ← last_output_address tx;
  let name_hash := name_hash_of plain_name in
  reservation_outpoint_nonce ←
    reading (fun w => find_reservation w name_hash (hashmap_iter (w_utxos w)));
  _ ← writing (fun w => set_names (w_bitname_reservations w)
                          (<[name_hash := plain_name]> (w_known_bitnames w)) w);
  '(reservation_outpoint, nonce) ←
    lifted (ok_or reservation_outpoint_nonce (Wallet_NoBitnameReservation plain_name));
  mret (mkTransaction (tx_inputs tx ++ [reservation_outpoint])
          (tx_outputs tx ++ [output_new registration_addr Content_BitName]) (tx_memo tx)
          (Some (TxData_BitNameRegistration name_hash nonce bitname_data))).

(** ** Signatures *)

(** One authorization of [authorize]; [rng] is the state of the generator. *)
Definition authorize_input w (transaction : Transaction) (rng : N) (input : OutPoint)
  : result WalletError Authorization :=
  spent_utxo ← ok_or (w_utxos w !! input) Wallet_NoUtxo;
  index ← ok_or (w_address_to_index w !! fo_address spent_utxo)
            (Wallet_NoIndex (fo_address spent_utxo));
  tx_signing_key ← get_tx_signing_key w index;
  Ok (mkAuthorization (verifying_key_of tx_signing_key) (sign_tx rng tx_signing_key transaction)).

Definition wallet_authorize w (rngs : nat -> N) (transaction : Transaction)
  : result WalletError AuthorizedTransaction :=
  authorizations ← map_res (fun '(i, input) => authorize_input w transaction (rngs i) input)
                     (imap pair (tx_inputs transaction));
  Ok (mkAuthorizedTransaction transaction authorizations).

Definition sign_arbitrary_msg w (rng : N) (verifying_key : VerifyingKey) (msg : string)
  : result WalletError Signature :=
  signing_key ← get_message_signing_key_for_vk w verifying_key;
  Ok (sign rng signing_key Dst_Arbitrary (string_bytes msg)).
Definition sign_arbitrary_msg_as_addr w (rng : N) (address : Address) (msg : string)
  : result WalletError Authorization :=
  signing_key ← get_tx_signing_key_for_addr w address;
  Ok (mkAuthorization (verifying_key_of signing_key)
        (sign rng signing_key Dst_Arbitrary (string_bytes msg))).
End wallet.
