(* ===== verification/WalletCoins.v ===== *)
(** * The coins and the keys of the wallet

    What [select_coins] of the wallet picks, on every branch; and the invariant that ties the
    tables of addresses and keys of the wallet to its seed, and that every operation of the
    wallet keeps. *)

From S2P Require Import Prelude Types Transaction Authorization Wallet.

(** ** Coin selection *)

Section coins.
Context `{Externals} `{WalletExternals}.
Implicit Types (w : Wallet) (utxos pre post : list (OutPoint * FilledOutput)).

(** The outputs that [select_coins] may pick *)
Definition spendable w : gmap OutPoint FilledOutput :=
  filter (fun e => skipped w e.1 e.2 = false) (w_utxos w).
Definition not_skipped w utxos : list (OutPoint * FilledOutput) :=
  filter (fun e => skipped w e.1 e.2 = false) utxos.
Definition coins_value utxos : N := sum_N ((fun e => filled_output_get_value e.2) <$> utxos).

(** The loop takes the shortest prefix of the candidates that is worth the value. *)
Lemma select_loop_prefix w value utxos : forall total selected,
  match select_loop w value utxos total selected with
  | Ok (total', selected') =>
      exists pre post, not_skipped w utxos = pre ++ post /\
        total' = total + coins_value pre /\
        selected' = foldl (fun m e => <[e.1 := e.2]> m) selected pre /\
        (post = [] \/ value <= total') /\
        (pre = [] \/ exists pre' e, pre = pre' ++ [e] /\ total + coins_value pre' < value)
  | Err e => e = Wallet_AmountOverflow /\
      AMOUNT_MAX < total + coins_value (not_skipped w utxos)
  | Panic => False
  end.
Proof.
  induction utxos as [|[o out] utxos IH]; intros total selected; cbn [select_loop not_skipped].
  { exists [], []. unfold coins_value, sum_N. cbn. split_and!; auto with lia. }
  unfold not_skipped. rewrite filter_cons. cbn [fst snd].
  destruct (skipped w o out) eqn:Hs.
  { rewrite decide_False by done. apply IH. }
  rewrite decide_True by done. fold (not_skipped w utxos).
  destruct (N.leb_spec value total) as [Hle|Hlt].
  { exists [], ((o, out) :: not_skipped w utxos). unfold coins_value, sum_N. cbn. split_and!; auto with lia. }
  unfold amount_checked_add. unfold coins_value at 3. cbn [fmap list_fmap snd]. rewrite sum_N_cons.
  fold (coins_value (not_skipped w utxos)).
  destruct (N.leb_spec (total + filled_output_get_value out) AMOUNT_MAX) as [Hm|Hm].
  2:{ cbn. split; [done|lia]. }
  cbn [ok_or mbind result_bind].
  specialize (IH (total + filled_output_get_value out) (<[o:=out]> selected)).
  destruct (select_loop _ _ _ _ _) as [[t' sel']|e|]; [|destruct IH; split; [done|lia]|done].
  destruct IH as (pre & post & Hp & -> & -> & Hpost & Hpre).
  exists ((o, out) :: pre), post. unfold coins_value in *. cbn [fmap list_fmap snd]. rewrite sum_N_cons.
  split_and!; [by rewrite Hp|lia|done| |].
  - destruct Hpost; [by left|right; lia].
  - right. destruct Hpre as [->|(pre' & e & -> & Hv)].
    + exists [], (o, out). split; [done|]. unfold sum_N. cbn. lia.
    + exists ((o, out) :: pre'), e. split; [done|]. cbn [fmap list_fmap snd]. rewrite sum_N_cons. lia.
Qed.

Lemma select_loop_bounded w value utxos : forall total selected total' selected',
  select_loop w value utxos total selected = Ok (total', selected') ->
  total <= AMOUNT_MAX -> total' <= AMOUNT_MAX.
Proof.
  induction utxos as [|[o out] utxos IH]; intros total selected total' selected' Hl Ht; cbn in Hl; [by simplify_eq|].
  destruct (skipped w o out); [by eapply IH|]. destruct (value <=? total); [by simplify_eq|]. res_inv.
  eapply IH; [exact Hl|]. unfold amount_checked_add in Hx. destruct (N.leb_spec (total + filled_output_get_value out) AMOUNT_MAX);
    by simplify_eq.
Qed.

Lemma foldl_insert_map pre :
  NoDup pre.*1 -> foldl (fun m e => <[e.1 := e.2]> m) ∅ pre =@{gmap OutPoint FilledOutput} list_to_map pre.
Proof.
  induction pre as [|[o out] pre IH] using rev_ind; intros Hnd; [done|].
  rewrite fmap_app in Hnd. apply NoDup_app in Hnd as (Hnd & Hdis & _).
  rewrite foldl_app, IH by done. cbn. rewrite list_to_map_snoc; [done|].
  intros Hin. apply (Hdis _ Hin). cbn. apply list_elem_of_here.
Qed.

Lemma map_sum_list pre :
  NoDup pre.*1 -> map_sum filled_output_get_value (list_to_map pre : gmap _ _) = coins_value pre.
Proof. intros Hnd. unfold map_sum. by rewrite map_to_list_to_map. Qed.

Lemma StronglySorted_filter {A} (R : relation A) (P : A -> Prop) `{forall a, Decision (P a)} l :
  StronglySorted R l -> StronglySorted R (filter P l).
Proof.
  induction 1 as [|a l Hl IH Ha]; [constructor|]. rewrite filter_cons. case_decide; [|done].
  constructor; [done|]. rewrite Forall_forall in *. intros x [_ Hx]%list_elem_of_filter. by apply Ha.
Qed.

(** The candidates, in the order of the loop *)
Lemma candidates w : par_sort_spec ->
  let l := not_skipped w (par_sort_unstable_by_key (fun e => filled_output_get_value e.2)
                            (map_to_list (w_utxos w))) in
  NoDup l.*1 /\ (list_to_map l : gmap _ _) = spendable w /\
  StronglySorted (fun a b => filled_output_get_value a.2 <= filled_output_get_value b.2) l.
Proof.
  intros Hspec. destruct (Hspec _ (fun e : OutPoint * FilledOutput => filled_output_get_value e.2)
    (map_to_list (w_utxos w))) as [Hp Hs]. cbn zeta. unfold not_skipped. set (l := filter _ _).
  assert (l ≡ₚ filter (fun e => skipped w e.1 e.2 = false) (map_to_list (w_utxos w))) as Hl.
  { unfold l. by rewrite Hp. }
  assert (NoDup l.*1) as Hnd.
  { rewrite Hl. eapply sublist_NoDup; [|apply fmap_sublist, sublist_filter].
    apply NoDup_fst_map_to_list. }
  split_and!; [done| |by apply StronglySorted_filter].
  unfold spendable. rewrite map_filter_alt. by apply list_to_map_proper.
Qed.
Lemma select_coins_spec w value :
  par_sort_spec ->
  match select_coins w value with
  | Ok (total, selected) =>
      total = map_sum filled_output_get_value selected /\ value <= total /\
      selected ⊆ spendable w /\
      (forall o out o' out', selected !! o = Some out -> spendable w !! o' = Some out' ->
        selected !! o' = None -> filled_output_get_value out <= filled_output_get_value out') /\
      (selected = ∅ \/ exists o,
        map_sum filled_output_get_value (delete o selected) < value)
  | Err Wallet_NotEnoughFunds => map_sum filled_output_get_value (spendable w) < value
  | Err e => e = Wallet_AmountOverflow /\
      AMOUNT_MAX < map_sum filled_output_get_value (spendable w)
  | Panic => False
  end.
Proof.
  intros Hspec. destruct (candidates w Hspec) as (Hnd & Hmap & Hsort). unfold select_coins.
  set (l := par_sort_unstable_by_key _ _) in *. pose proof (select_loop_prefix w value l 0 ∅) as Hl.
  destruct (select_loop w value l 0 ∅) as [[total sel]|e|]; cbn [mbind result_bind]; [| |done].
  2:{ destruct Hl as [-> Hl]. split; [done|]. by rewrite <-Hmap, map_sum_list. }
  destruct Hl as (pre & post & Hp & -> & -> & Hpost & Hpre). rewrite Hp in *.
  rewrite fmap_app in Hnd. apply NoDup_app in Hnd as (Hnd & Hdis & Hnd').
  rewrite list_to_map_app in Hmap. rewrite foldl_insert_map by done. rewrite N.add_0_l in *.
  destruct (N.ltb_spec (coins_value pre) value) as [Hlt|Hle].
  { destruct Hpost as [->|?]; [|lia]. rewrite <-Hmap, list_to_map_nil, (right_id_L ∅ (∪)). by rewrite map_sum_list. }
  rewrite map_sum_list by done. split_and!; [done|done| | |].
  - rewrite <-Hmap. apply map_union_subseteq_l.
  - intros o out o' out' Hin Ho' Hno. rewrite <-Hmap, lookup_union, Hno, (left_id_L None _) in Ho'.
    apply elem_of_list_to_map in Hin, Ho'; [|done..].
    exact (StronglySorted_app_1_elem_of _ _ _ _ _ Hsort Hin Ho').
  - destruct Hpre as [->|(pre' & [o out] & -> & Hv)]; [by left|right; exists o].
    rewrite fmap_app in Hnd. apply NoDup_app in Hnd as (Hnd1 & Hd & _).
    assert (o ∉ pre'.*1) as Ho by (intros Hi; apply (Hd _ Hi), list_elem_of_here).
    rewrite list_to_map_snoc, delete_insert_id; [by rewrite map_sum_list| |done].
    by apply not_elem_of_list_to_map_1.
Qed.

(** What the transactions of the wallet use of a selection *)
Lemma select_coins_Ok w value total selected :
  par_sort_spec -> select_coins w value = Ok (total, selected) ->
  total = map_sum filled_output_get_value selected /\ value <= total /\ total <= AMOUNT_MAX /\
  selected ⊆ spendable w.
Proof.
  intros Hspec Hs. pose proof (select_coins_spec w value Hspec) as Hall. rewrite Hs in Hall.
  destruct Hall as (Ht & Hle & Hsub & _). split_and!; [done|done| |done].
  unfold select_coins in Hs. res_inv. destruct x as [t sel].
  eapply select_loop_bounded in Hx; [|apply N.le_0_l]. destruct (_ <? value); by simplify_eq.
Qed.
End coins.

(** ** Properties *)

(** Coin selection, on every branch. On success the total is the value of the
    selected coins and covers the value asked for; the coins are unspent outputs
    of the wallet that hold bitcoin and that no pending transaction uses; a coin
    that was left out is worth at least as much as each one that was selected;
    and without one of the coins the selection would not cover the value.
    [NotEnoughFunds] is returned only when all such outputs together do not cover
    the value, and the only other outcome is an overflow of their sum. *)
Theorem select_coins_smallest_first `{Externals} `{WalletExternals} (w : Wallet) (value : Amount) :
  par_sort_spec ->
  match select_coins w value with
  | Ok (total, selected) =>
      total = map_sum filled_output_get_value selected /\ value <= total /\
      selected ⊆ spendable w /\
      (forall o out o' out', selected !! o = Some out -> spendable w !! o' = Some out' ->
        selected !! o' = None -> filled_output_get_value out <= filled_output_get_value out') /\
      (selected = ∅ \/ exists o,
        map_sum filled_output_get_value (delete o selected) < value)
  | Err Wallet_NotEnoughFunds => map_sum filled_output_get_value (spendable w) < value
  | Err e => e = Wallet_AmountOverflow /\
      AMOUNT_MAX < map_sum filled_output_get_value (spendable w)
  | Panic => False
  end.
Proof. apply select_coins_spec. Qed.

(** ** The tables and the seed *)

Section keys.
Context `{Externals} `{WalletExternals}.
Implicit Types (w : Wallet).

Record keys_wf w : Prop := {
  kw_seed : w_seed w = None ->
    w_address_to_index w = ∅ /\ w_index_to_address w = ∅ /\ w_epk_to_index w = ∅ /\
    w_vk_to_index w = ∅;
  kw_address : forall a i, w_address_to_index w !! a = Some i ->
    exists sk, get_tx_signing_key w i = Ok sk /\ address_of_signing_key sk = a;
  kw_index : forall i a, w_index_to_address w !! i = Some a -> is_Some (w_address_to_index w !! a);
  kw_back : forall a i, w_address_to_index w !! a = Some i -> w_index_to_address w !! i = Some a;
  kw_epk : forall epk i, w_epk_to_index w !! epk = Some i ->
    exists secret, get_encryption_secret w i = Ok secret /\ encryption_pubkey_of secret = epk;
  kw_vk : forall vk i, w_vk_to_index w !! vk = Some i ->
    exists sk, get_message_signing_key w i = Ok sk /\ verifying_key_of sk = vk;
}.

(** Every unspent output of the wallet pays one of its addresses. *)
Definition coins_owned w : Prop :=
  forall o out, w_utxos w !! o = Some out -> is_Some (w_address_to_index w !! fo_address out).
Definition wallet_wf w : Prop := keys_wf w /\ coins_owned w.

(** The keys are functions of the seed. *)
Lemma master_seed w w' : w_seed w = w_seed w' -> get_master_xprv w = get_master_xprv w'.
Proof. unfold get_master_xprv. by intros ->. Qed.
Lemma tx_key_seed w w' i :
  w_seed w = w_seed w' -> get_tx_signing_key w i = get_tx_signing_key w' i.
Proof. intros Hs. unfold get_tx_signing_key. by rewrite (master_seed w w'). Qed.
Lemma message_key_seed w w' i :
  w_seed w = w_seed w' -> get_message_signing_key w i = get_message_signing_key w' i.
Proof. intros Hs. unfold get_message_signing_key. by rewrite (master_seed w w'). Qed.
Lemma secret_seed w w' i :
  w_seed w = w_seed w' -> get_encryption_secret w i = get_encryption_secret w' i.
Proof. intros Hs. unfold get_encryption_secret, get_encryption_xesk. by rewrite (master_seed w w'). Qed.

Lemma key_has_seed w i sk : get_tx_signing_key w i = Ok sk -> w_seed w <> None.
Proof. unfold get_tx_signing_key, get_master_xprv. intros ? Hs. rewrite Hs in *. by res_inv. Qed.
Lemma message_key_has_seed w i sk : get_message_signing_key w i = Ok sk -> w_seed w <> None.
Proof. unfold get_message_signing_key, get_master_xprv. intros ? Hs. rewrite Hs in *. by res_inv. Qed.
Lemma secret_has_seed w i secret : get_encryption_secret w i = Ok secret -> w_seed w <> None.
Proof.
  unfold get_encryption_secret, get_encryption_xesk, get_master_xprv. intros ? Hs.
  rewrite Hs in *. by res_inv.
Qed.

(** Writes that leave the seed and the tables of keys alone keep the invariant. *)
Lemma keys_wf_same w w' :
  w_seed w' = w_seed w -> w_address_to_index w' = w_address_to_index w ->
  w_index_to_address w' = w_index_to_address w -> w_epk_to_index w' = w_epk_to_index w ->
  w_vk_to_index w' = w_vk_to_index w -> keys_wf w -> keys_wf w'.
Proof.
  intros Hs Ha Hi He Hv [K1 K2 K3 K6 K4 K5]. split; rewrite ?Hs, ?Ha, ?Hi, ?He, ?Hv.
  - done.
  - intros a i Hl. rewrite (tx_key_seed w' w) by done. by apply K2.
  - done.
  - done.
  - intros e i Hl. rewrite (secret_seed w' w) by done. by apply K4.
  - intros v i Hl. rewrite (message_key_seed w' w) by done. by apply K5.
Qed.

Lemma coins_wf_set utxos stxos w :
  wallet_wf w ->
  (forall o out, utxos !! o = Some out -> is_Some (w_address_to_index w !! fo_address out)) ->
  wallet_wf (set_coins utxos stxos w).
Proof. intros [Hk _] Hu. split; [by eapply keys_wf_same, Hk|done]. Qed.

Lemma new_address_wf w i sk :
  wallet_wf w -> get_tx_signing_key w i = Ok sk ->
  wallet_wf (set_addresses (<[address_of_signing_key sk := i]> (w_address_to_index w))
               (<[i := address_of_signing_key sk]> (w_index_to_address w)) w).
Proof.
  intros [[K1 K2 K3 K6 K4 K5] Hc] Hk. split; [split|]; cbn.
  - intros Hs. by apply key_has_seed in Hk.
  - intros a j [[<- <-]|[_ Ha]]%lookup_insert_Some; [by exists sk|by apply K2].
  - intros j a Hj. destruct (decide (address_of_signing_key sk = a)) as [->|Hne].
    + rewrite lookup_insert_eq. eauto.
    + rewrite lookup_insert_ne by done. apply lookup_insert_Some in Hj as [[_ ?]|[_ ?]]; [done|eauto].
  - intros a j Ha. apply lookup_insert_Some in Ha as [[<- <-]|[Hne Ha]]; [apply lookup_insert_eq|].
    rewrite lookup_insert_ne; [by apply K6|]. intros <-. destruct (K2 _ _ Ha) as (sk' & Hk' & <-).
    congruence.
  - exact K4.
  - exact K5.
  - intros o out Ho. cbn in *. destruct (decide (address_of_signing_key sk = fo_address out)) as [->|Hne].
    + rewrite lookup_insert_eq. eauto.
    + rewrite lookup_insert_ne by done. by eapply Hc.
Qed.

(** ** Every operation keeps the invariant *)

Lemma get_new_address_wf : preserves wallet_wf get_new_address.
Proof.
  intros w Hw. unfold get_new_address, mbind, op_bind, reading, writing, mret, op_ret.
  destruct (get_tx_signing_key w _) as [sk|e|] eqn:Hk; [|done|done]. by apply new_address_wf.
Qed.

Lemma get_new_encryption_key_wf : preserves wallet_wf get_new_encryption_key.
Proof.
  intros w Hw. unfold get_new_encryption_key, mbind, op_bind, reading, writing, mret, op_ret.
  destruct (get_encryption_secret w _) as [sk|e|] eqn:Hk; [|done|done].
  destruct Hw as [[K1 K2 K3 K6 K4 K5] Hc]. split; [split|]; cbn; try done.
  - intros Hs. by apply secret_has_seed in Hk.
  - intros a j [[<- <-]|[_ Ha]]%lookup_insert_Some; [by exists sk|by apply K4].
Qed.

Lemma get_new_verifying_key_wf : preserves wallet_wf get_new_verifying_key.
Proof.
  intros w Hw. unfold get_new_verifying_key, mbind, op_bind, reading, writing, mret, op_ret.
  destruct (get_message_signing_key w _) as [sk|e|] eqn:Hk; [|done|done].
  destruct Hw as [[K1 K2 K3 K6 K4 K5] Hc]. split; [split|]; cbn; try done.
  - intros Hs. by apply message_key_has_seed in Hk.
  - intros a j [[<- <-]|[_ Ha]]%lookup_insert_Some; [by exists sk|by apply K5].
Qed.

Lemma set_seed_wf seed : preserves wallet_wf (set_seed seed).
Proof.
  intros w Hw. unfold set_seed, mbind, op_bind, reading.
  destruct (w_seed w) as [s|] eqn:Hs; [exact Hw|].
  destruct Hw as [[K1 _ _ _ _ _] _]. destruct (K1 Hs) as (_ & _ & He & Hv).
  split; [split|]; cbn; rewrite ?He, ?Hv; done.
Qed.

Lemma set_seed_from_mnemonic_wf m : preserves wallet_wf (set_seed_from_mnemonic m).
Proof. unfold set_seed_from_mnemonic. apply preserves_bind; [apply preserves_lifted|apply set_seed_wf]. Qed.

Lemma set_names_wf r k :
  preserves wallet_wf (writing (fun w => set_names (r w) (k w) w) : wallet_op unit).
Proof. apply preserves_writing. intros w [Hk Hc]. split; [by eapply keys_wf_same, Hk|done]. Qed.

Hint Resolve get_new_address_wf set_names_wf : ops.

Lemma get_receive_address_wf : preserves wallet_wf get_receive_address.
Proof. unfold get_receive_address. preserve. Qed.
Lemma create_regular_transaction_wf fee : preserves wallet_wf (create_regular_transaction fee).
Proof. unfold create_regular_transaction. preserve. Qed.
Lemma create_withdrawal_wf a v m f : preserves wallet_wf (create_withdrawal a v m f).
Proof. unfold create_withdrawal. preserve. Qed.
Lemma create_transfer_wf a v f m : preserves wallet_wf (create_transfer a v f m).
Proof. unfold create_transfer, with_change. preserve. Qed.
Lemma create_transfer_many_wf d f : preserves wallet_wf (create_transfer_many d f).
Proof. unfold create_transfer_many, with_change. preserve. Qed.
Lemma reserve_bitname_wf tx n : preserves wallet_wf (reserve_bitname tx n).
Proof. unfold reserve_bitname, last_output_address. preserve. Qed.
Lemma register_bitname_wf tx n d : preserves wallet_wf (register_bitname tx n d).
Proof. unfold register_bitname, last_output_address. preserve. Qed.
End keys.
