(* ===== verification/WalletSpend.v ===== *)
(** * Transactions of the wallet

    The wallet and the state agree on what a transaction is: what the wallet
    makes and signs, [validate_transaction] of the state accepts, with the fee
    that was asked for. *)

From S2P Require Import Prelude Types Transaction Authorization BitNames State.
From S2P Require Import Wallet WalletCoins.

Section spend.
Context `{Externals} `{WalletExternals}.
Implicit Types (w : Wallet) (s : State) (tx : Transaction).

Lemma map_res_exists {E A B} (f : A -> result E B) l :
  Forall (fun a => exists b, f a = Ok b) l -> exists bs, map_res f l = Ok bs.
Proof.
  induction 1 as [|a l [b Hb] _ [bs IH]]; cbn; [by exists []|]. rewrite Hb. cbn.
  rewrite IH. cbn. eauto.
Qed.

(** The wallet signs for an output that it holds with the key of its address. *)
Lemma authorize_input_Ok w tx rng input out :
  wallet_wf w -> w_utxos w !! input = Some out ->
  exists sk, authorize_input w tx rng input =
      Ok (mkAuthorization (verifying_key_of sk) (sign_tx rng sk tx)) /\
    address_of_signing_key sk = fo_address out.
Proof.
  intros [Hk Hc] Hin. unfold authorize_input. rewrite Hin. cbn.
  destruct (Hc _ _ Hin) as [i Hi]. rewrite Hi. cbn.
  destruct (kw_address _ Hk _ _ Hi) as (sk & Hs & Ha). rewrite Hs. cbn. eauto.
Qed.

Lemma wallet_authorize_Ok w rngs tx spent :
  batch_verify_spec -> sign_spec -> wallet_wf w ->
  Forall2 (fun i o => w_utxos w !! i = Some o) (tx_inputs tx) spent ->
  exists auths, wallet_authorize w rngs tx = Ok (mkAuthorizedTransaction tx auths) /\
    length auths = length spent /\ check_addresses auths spent = Ok tt /\
    verify_authorized_transaction (mkAuthorizedTransaction tx auths) = Ok tt.
Proof.
  intros Hbatch Hsign Hw Hspent. unfold wallet_authorize.
  destruct (map_res_exists (fun '(i, input) => authorize_input w tx (rngs i) input)
    (imap pair (tx_inputs tx))) as [auths Ha].
  { apply Forall_lookup. intros k [i input] Hk.
    apply list_lookup_imap_Some in Hk as (? & Hk & [= -> ->]).
    eapply Forall2_lookup_l in Hspent as (out & _ & Ho); [|exact Hk].
    destruct (authorize_input_Ok w tx (rngs k) _ _ Hw Ho) as (sk & -> & _). eauto. }
  exists auths. rewrite Ha. cbn [mbind result_bind]. apply map_res_Forall2 in Ha.
  assert (forall k auth out, auths !! k = Some auth -> spent !! k = Some out ->
    auth_get_address auth = fo_address out /\ pair_valid (auth, tx_msg_canonical tx)) as Hgood.
  { intros k auth out Hauth Hout.
    eapply Forall2_lookup_r in Hspent as (input & Hi & Ho); [|exact Hout].
    eapply Forall2_lookup_r in Ha as ([i input'] & Hj & Ha); [|exact Hauth].
    apply list_lookup_imap_Some in Hj as (? & Hj & [= -> ->]). simplify_eq.
    destruct (authorize_input_Ok w tx (rngs k) _ _ Hw Ho) as (sk & Heq & Hsk).
    rewrite Heq in Ha. injection Ha as <-. split; [done|]. apply Hsign. }
  apply Forall2_length in Ha as Hlen. rewrite length_imap in Hlen.
  apply Forall2_length in Hspent as Hlen'. split_and!; [done|lia| |].
  - apply check_addresses_Ok, Forall_lookup. intros k [auth out] Hk.
    apply lookup_zip_with_Some in Hk as (? & ? & [= <- <-] & Hauth & Hout). by apply (Hgood k).
  - unfold verify_authorized_transaction. cbn [at_authorizations at_transaction].
    rewrite (proj2 (check_count_Ok _ _ tt)) by lia. cbn [mbind result_bind].
    assert (auths = [] \/ verify_batch ((fun auth => (auth, tx_msg_canonical tx)) <$> auths) = Ok tt)
      as [->|Hb]; [|done|by destruct auths].
    destruct (decide (auths = [])) as [|Hne]; [by left|right].
    apply verify_batch_Ok; [done|]. split; [by destruct auths|].
    apply Forall_fmap, Forall_lookup. intros k a Hk.
    destruct (lookup_lt_is_Some_2 spent k) as [out Hout]; [apply lookup_lt_Some in Hk; lia|].
    by apply (Hgood k a out).
Qed.

(** Without a batch of ICANN names, validation is that of the filled transaction. *)
Lemma wallet_validate w s rngs tx spent f :
  batch_verify_spec -> sign_spec -> wallet_wf w -> batch_icann_data tx = None ->
  Forall2 (fun i o => w_utxos w !! i = Some o) (tx_inputs tx) spent ->
  w_utxos w ⊆ st_utxos s ->
  validate_filled_transaction s (mkFilledTransaction tx spent) = Ok f ->
  exists atx, wallet_authorize w rngs tx = Ok atx /\ at_transaction atx = tx /\
    validate_transaction s atx = Ok f.
Proof.
  intros Hbatch Hsign Hw Hicann Hspent Hsub Hv.
  destruct (wallet_authorize_Ok w rngs tx spent) as (auths & Ha & Hlen & Hadr & Hver); [done..|].
  eexists. split; [exact Ha|]. split; [done|]. unfold validate_transaction. cbn [at_transaction].
  rewrite (proj2 (fill_transaction_Ok s tx (mkFilledTransaction tx spent))).
  2:{ split; [done|]. eapply Forall2_impl; [exact Hspent|]. intros i o Ho.
      cbn in Ho |- *. eapply lookup_weaken; [exact Ho|exact Hsub]. }
  cbn [mbind result_bind at_authorizations]. unfold spent_utxos_requiring_auth.
  cbn [ft_transaction ft_spent_utxos]. rewrite Hicann, Hlen, Nat.eqb_refl. cbn [ensure mbind result_bind].
  by rewrite Hadr, Hver.
Qed.

(** ** Validation of what the wallet builds *)

(** Bitcoin that can be spent, and outputs that carry no name *)
Definition is_coin (o : FilledOutput) : Prop :=
  filled_is_withdrawal (fo_content o) = false /\ filled_is_bitname (fo_content o) = false /\
  filled_is_reservation (fo_content o) = false.
Definition is_payment (o : Output) : Prop :=
  content_is_bitname (out_content o) = false /\ content_is_reservation (out_content o) = false.

Lemma filter_none {A} (P : A -> bool) l : Forall (fun a => P a = false) l -> List.filter P l = [].
Proof. induction 1 as [|a l Ha _ IH]; [done|]. cbn. by rewrite Ha. Qed.
Lemma Forall_zip_snd {A B} (P : B -> Prop) (l : list A) k :
  Forall P k -> Forall (fun p : A * B => P p.2) (zip l k).
Proof.
  intros Hk. revert l. induction Hk as [|b k Hb _ IH]; intros [|a l]; constructor; [done|apply IH].
Qed.

#[local] Ltac kinds := first [done | by intros ? (? & ? & ?) | by intros ? (? & ?)].

Lemma coins_filter (P : Filled -> bool) inputs spent :
  (forall o, is_coin o -> P (fo_content o) = false) -> Forall is_coin spent ->
  List.filter (fun p : OutPoint * FilledOutput => P (fo_content p.2)) (zip inputs spent) = [].
Proof.
  intros HP Hc. apply filter_none, (Forall_zip_snd (fun o => P (fo_content o) = false)).
  eapply Forall_impl; [exact Hc|exact HP].
Qed.
Lemma payments_filter (P : Content -> bool) outputs :
  (forall o, is_payment o -> P (out_content o) = false) -> Forall is_payment outputs ->
  List.filter (fun o => P (out_content o)) outputs = [].
Proof. intros HP Hc. apply filter_none. eapply Forall_impl; [exact Hc|exact HP]. Qed.

(** Coins for payments, and the rest as the fee *)
Lemma payment_validated s tx spent f :
  tx_data tx = None -> Forall is_coin spent -> Forall is_payment (tx_outputs tx) ->
  sum_N (filled_output_get_value <$> spent) <= AMOUNT_MAX ->
  sum_N (filled_output_get_value <$> spent) = sum_N (output_get_value <$> tx_outputs tx) + f ->
  validate_filled_transaction s (mkFilledTransaction tx spent) = Ok f.
Proof.
  intros Hdata Hc Hp Hmax Hsum. apply validate_filled_transaction_Ok.
  split; [| | | |by apply fee_Ok].
  - unfold validate_reservations, spent_reservations, spent_inputs, reservation_outputs, is_reservation,
      is_registration. cbn [ft_transaction ft_spent_utxos]. rewrite Hdata.
    rewrite (coins_filter filled_is_reservation), (payments_filter content_is_reservation) by kinds.
    done.
  - unfold validate_bitnames, spent_bitnames, spent_inputs, bitname_outputs, is_update, batch_icann_data,
      registration_name_hash. cbn [ft_transaction ft_spent_utxos]. rewrite Hdata.
    rewrite (coins_filter filled_is_bitname), (payments_filter content_is_bitname) by kinds.
    done.
  - unfold validate_batch_icann, batch_icann_data. cbn. by rewrite Hdata.
  - unfold spent_inputs. apply (Forall_zip_snd (fun o => filled_is_withdrawal (fo_content o) = false)).
    eapply Forall_impl; [exact Hc|]. by intros o [? _].
Qed.

(** The same with a reservation that is burnt for a name *)
Lemma registration_validated s inputs r spent ro outputs address memo name_hash nonce data f :
  length inputs = length spent -> Forall is_coin spent -> Forall is_payment outputs ->
  filled_reservation_commitment (fo_content ro) = Some (blake3_keyed_hash nonce name_hash) ->
  db_bitnames (st_bitnames s) !! name_hash = None ->
  sum_N (filled_output_get_value <$> spent) <= AMOUNT_MAX ->
  sum_N (filled_output_get_value <$> spent) = sum_N (output_get_value <$> outputs) + f ->
  validate_filled_transaction s
    (mkFilledTransaction
       (mkTransaction (inputs ++ [r]) (outputs ++ [output_new address Content_BitName]) memo
          (Some (TxData_BitNameRegistration name_hash nonce data)))
       (spent ++ [ro])) = Ok f.
Proof.
  intros Hlen Hc Hp Hro Hname Hmax Hsum. apply validate_filled_transaction_Ok.
  assert (exists t c, fo_content ro = Filled_BitNameReservation t c /\ c = blake3_keyed_hash nonce name_hash)
    as (t & c & Hcont & ->).
  { destruct (fo_content ro); try done. cbn in Hro. simplify_eq. eauto. }
  assert (filled_output_get_value ro = 0) as Hro0.
  { unfold filled_output_get_value. by rewrite Hcont. }
  split.
  - unfold validate_reservations, spent_reservations, spent_inputs, reservation_outputs, is_reservation,
      is_registration. cbn [ft_transaction ft_spent_utxos tx_data tx_inputs tx_outputs].
    rewrite zip_with_app by done. rewrite !List.filter_app.
    rewrite (coins_filter filled_is_reservation), (payments_filter content_is_reservation) by kinds.
    cbn. by rewrite Hcont.
  - unfold validate_bitnames, burns_matching_reservation, spent_reservations, spent_bitnames, spent_inputs,
      bitname_outputs, is_update, batch_icann_data, registration_name_hash, implied_reservation_commitment.
    cbn [ft_transaction ft_spent_utxos tx_data tx_inputs tx_outputs].
    rewrite zip_with_app by done. rewrite !List.filter_app.
    rewrite (coins_filter filled_is_reservation), (coins_filter filled_is_bitname),
      (payments_filter content_is_bitname) by kinds.
    unfold try_get_bitname. rewrite Hname. cbn. rewrite Hcont. cbn. rewrite Hcont. cbn.
    by rewrite bool_decide_eq_true_2.
  - done.
  - unfold spent_inputs. apply (Forall_zip_snd (fun o => filled_is_withdrawal (fo_content o) = false)).
    cbn. apply Forall_app. split; [|by rewrite Forall_singleton, Hcont].
    eapply Forall_impl; [exact Hc|]. by intros o [? _].
  - apply fee_Ok. cbn [ft_spent_utxos ft_transaction tx_outputs]. rewrite !fmap_app, !sum_N_app.
    cbn. rewrite !sum_N_cons, Hro0. change (output_get_value (output_new address Content_BitName)) with 0.
    change (sum_N []) with 0. lia.
Qed.

(** ** The transactions of the wallet *)

Lemma selected_inputs w value total coins :
  par_sort_spec -> hashmap_iter_spec -> select_coins w value = Ok (total, coins) ->
  Forall2 (fun i o => w_utxos w !! i = Some o) (hashmap_iter coins).*1 (hashmap_iter coins).*2 /\
  Forall is_coin (hashmap_iter coins).*2 /\
  sum_N (filled_output_get_value <$> (hashmap_iter coins).*2) = total /\
  value <= total /\ total <= AMOUNT_MAX.
Proof.
  intros Hsort Hiter Hs. apply select_coins_Ok in Hs as (-> & Hle & Hmax & Hsub); [|done].
  assert (forall i o, (i, o) ∈ hashmap_iter coins -> spendable w !! i = Some o) as Hin.
  { intros i o. rewrite (Hiter _ coins), elem_of_map_to_list. intros Ho. by eapply lookup_weaken. }
  split_and!; [| | |done|done].
  - induction (hashmap_iter coins) as [|[i o] l IH]; cbn; constructor.
    + eapply map_lookup_filter_Some_1_1, Hin, list_elem_of_here.
    + apply IH. intros ? ? ?. apply Hin. by apply list_elem_of_further.
  - apply Forall_fmap, Forall_forall. intros [i o] Ho%Hin. unfold spendable in Ho.
    apply map_lookup_filter_Some in Ho as [_ Hsk]. cbn in Hsk. unfold skipped in Hsk.
    rewrite !orb_false_iff in Hsk. by destruct Hsk as ((((_ & ?) & ?) & ?) & _).
  - unfold map_sum. rewrite <-(Hiter _ coins), <-list_fmap_compose. done.
Qed.

Lemma get_new_address_utxos U : preserves (fun w => w_utxos w = U) get_new_address.
Proof.
  intros w Hw. unfold get_new_address, mbind, op_bind, reading, writing, mret, op_ret.
  by destruct (get_tx_signing_key w _).
Qed.
Hint Resolve get_new_address_utxos : ops.

(** The requests that make a transaction, and the fee each asks for *)
Inductive WalletRequest : Type :=
| Request_Regular (fee : Amount)
| Request_Withdrawal (main_address : MainAddress) (value main_fee fee : Amount)
| Request_Transfer (address : Address) (value fee : Amount) (memo : option bytes)
| Request_TransferMany (dests : list (Address * Amount)) (fee : Amount).

Definition run_request (r : WalletRequest) : wallet_op Transaction :=
  match r with
  | Request_Regular fee => create_regular_transaction fee
  | Request_Withdrawal main_address value main_fee fee =>
      create_withdrawal main_address value main_fee fee
  | Request_Transfer address value fee memo => create_transfer address value fee memo
  | Request_TransferMany dests fee => create_transfer_many dests fee
  end.
Definition request_fee (r : WalletRequest) : Amount :=
  match r with
  | Request_Regular fee | Request_Withdrawal _ _ _ fee | Request_Transfer _ _ fee _
  | Request_TransferMany _ fee => fee
  end.
(** What is paid to others *)
Definition request_payments (r : WalletRequest) : list Output :=
  match r with
  | Request_Regular _ | Request_Withdrawal _ _ _ _ => []
  | Request_Transfer address value _ memo =>
      [mkOutput address (Content_Bitcoin value) (default [] memo)]
  | Request_TransferMany dests _ => (fun d => output_new d.1 (Content_Bitcoin d.2)) <$> dests
  end.

(** A transaction of coins of the wallet that leaves a fee *)
Record balanced_tx w tx (payments : list Output) (fee : Amount) : Prop := {
  bt_data : tx_data tx = None;
  bt_inputs : exists spent,
    Forall2 (fun i o => w_utxos w !! i = Some o) (tx_inputs tx) spent /\ Forall is_coin spent /\
    sum_N (filled_output_get_value <$> spent) <= AMOUNT_MAX /\
    sum_N (filled_output_get_value <$> spent) = sum_N (output_get_value <$> tx_outputs tx) + fee;
  bt_outputs : Forall is_payment (tx_outputs tx);
  bt_payments : payments `prefix_of` tx_outputs tx;
}.

Lemma amount_sub_Ok (a b c : Amount) :
  amount_sub a b = Ok c :> result WalletError Amount <-> b <= a /\ c = a - b.
Proof.
  unfold amount_sub, amount_checked_sub. destruct (N.leb_spec b a); cbn; split.
  - by intros [= <-].
  - by intros [_ ->].
  - done.
  - intros [? _]. lia.
Qed.
Lemma amount_checked_add_inv (a b c : Amount) :
  ok_or (amount_checked_add a b) Wallet_AmountOverflow = Ok c -> c = a + b /\ a + b <= AMOUNT_MAX.
Proof.
  unfold amount_checked_add. destruct (N.leb_spec (a + b) AMOUNT_MAX); cbn; by intros [= <-].
Qed.

Lemma with_change_Ok outputs change w outputs' w' :
  with_change outputs change w = (Ok outputs', w') ->
  outputs `prefix_of` outputs' /\
  sum_N (output_get_value <$> outputs') = sum_N (output_get_value <$> outputs) + change /\
  (Forall is_payment outputs -> Forall is_payment outputs').
Proof.
  unfold with_change. destruct (N.eqb_spec change 0) as [->|Hne]; intros Hc.
  { op_inv. split_and!; [done|lia|done]. }
  op_inv. split_and!.
  - by apply prefix_app_r.
  - rewrite fmap_app, sum_N_app. cbn. rewrite sum_N_cons. change (sum_N []) with 0. lia.
  - intros Hp. apply Forall_app. split; [done|]. by rewrite Forall_singleton.
Qed.

Hypothesis Hsort : par_sort_spec.
Hypothesis Hiter : hashmap_iter_spec.

Lemma dests_value (dests : list (Address * Amount)) :
  sum_N (output_get_value <$> ((fun d => output_new d.1 (Content_Bitcoin d.2)) <$> dests)) =
  sum_N dests.*2.
Proof. by rewrite <-list_fmap_compose. Qed.

Lemma balanced_new w value total coins tx payments fee :
  select_coins w value = Ok (total, coins) ->
  tx_data tx = None -> tx_inputs tx = (hashmap_iter coins).*1 ->
  total = sum_N (output_get_value <$> tx_outputs tx) + fee -> Forall is_payment (tx_outputs tx) ->
  payments `prefix_of` tx_outputs tx -> balanced_tx w tx payments fee.
Proof.
  intros Hs Hd Hi Ht Ho Hp. apply selected_inputs in Hs as (H2 & Hc & Hsum & _ & Hmax); [|done..].
  split; [done| |done|done]. exists (hashmap_iter coins).*2. rewrite Hi, Hsum.
  split_and!; [done|done|done|by rewrite Ht].
Qed.

Lemma run_request_balanced r w tx w' :
  run_request r w = (Ok tx, w') -> balanced_tx w tx (request_payments r) (request_fee r).
Proof.
  destruct r as [fee|ma value mfee fee|address value fee memo|dests fee]; cbn [run_request request_payments request_fee].
  - unfold create_regular_transaction. intros Hr. op_inv. apply amount_sub_Ok in Ho0 as [Hle ->].
    eapply balanced_new; [done|done|done| |by repeat constructor|apply prefix_nil].
    cbn. rewrite sum_N_cons. change (sum_N []) with 0. unfold output_get_value. cbn. lia.
  - unfold create_withdrawal. intros Hr. op_inv.
    apply amount_checked_add_inv in Ho as [-> Hm1], Ho0 as [-> Hm2].
    apply amount_sub_Ok in Ho2 as [Hl1 ->], Ho3 as [Hl2 ->], Ho4 as [Hl3 ->].
    eapply balanced_new; [done|done|done| |by repeat constructor|apply prefix_nil].
    cbn. rewrite !sum_N_cons. change (sum_N []) with 0.
    unfold output_get_value, content_get_value, withdrawal_get_value, amount_checked_add. cbn.
    rewrite (proj2 (N.leb_le _ _)) by lia. cbn. lia.
  - unfold create_transfer. intros Hr. op_inv. apply amount_checked_add_inv in Ho as [-> Hm].
    apply amount_sub_Ok in Ho1 as [Hl1 ->], Ho2 as [Hl2 ->].
    apply with_change_Ok in Ho3 as (Hpre & Hsum & Hpay).
    eapply balanced_new; [done|done|done| |by apply Hpay; repeat constructor|done].
    cbn [tx_outputs tx_new]. rewrite Hsum. cbn. rewrite sum_N_cons. change (sum_N []) with 0.
    unfold output_get_value. cbn. lia.
  - unfold create_transfer_many. intros Hr. op_inv. apply amount_checked_add_inv in Ho1 as [-> Hm].
    apply ok_or_Ok, checked_sum_Some in Ho0 as [-> Hm'].
    apply amount_sub_Ok in Ho3 as [Hl1 ->], Ho4 as [Hl2 ->].
    apply with_change_Ok in Ho5 as (Hpre & Hsum & Hpay).
    eapply balanced_new; [done|done|done| |apply Hpay|done].
    + cbn [tx_outputs tx_new]. rewrite Hsum, dests_value. lia.
    + apply Forall_fmap, Forall_forall. by intros [].
Qed.

(** Requests change no coins, and keep the wallet well formed. *)
Lemma run_request_utxos r U : preserves (fun w => w_utxos w = U) (run_request r).
Proof.
  destruct r; unfold run_request, create_regular_transaction, create_withdrawal, create_transfer,
    create_transfer_many, with_change; preserve.
Qed.
Lemma run_request_wf r : preserves wallet_wf (run_request r).
Proof.
  destruct r; [apply create_regular_transaction_wf|apply create_withdrawal_wf|
    apply create_transfer_wf|apply create_transfer_many_wf].
Qed.
Lemma run_request_kept r w tx w' :
  run_request r w = (Ok tx, w') -> wallet_wf w -> wallet_wf w' /\ w_utxos w' = w_utxos w.
Proof.
  intros Hr Hw. pose proof (run_request_wf r w Hw) as Hw'.
  pose proof (run_request_utxos r _ w eq_refl) as Hu. by rewrite Hr in *.
Qed.
End spend.

(** ** Properties *)

(** C15 Whatever the wallet is asked to make, a transaction for a fee only, a
    withdrawal or a transfer to one or many addresses, the transaction pays what
    was asked for, the wallet can sign it, and the state accepts it with exactly
    the fee that was asked for, as long as the outputs that the wallet lists are
    unspent in the state. *)
Theorem wallet_transactions_accepted `{Externals} `{WalletExternals} (s : State) (w w' : Wallet)
    (r : WalletRequest) (tx : Transaction) (rngs : nat -> N) :
  par_sort_spec -> hashmap_iter_spec -> batch_verify_spec -> sign_spec ->
  wallet_wf w -> w_utxos w ⊆ st_utxos s -> run_request r w = (Ok tx, w') ->
  request_payments r `prefix_of` tx_outputs tx /\
  exists atx, wallet_authorize w' rngs tx = Ok atx /\ at_transaction atx = tx /\
    validate_transaction s atx = Ok (request_fee r).
Proof.
  intros Hsort Hiter Hbatch Hsign Hw Hsub Hr.
  apply run_request_kept in Hr as Hk; [|done]. destruct Hk as [Hw' Hu].
  apply run_request_balanced in Hr as [Hd (spent & Hin & Hc & Hmax & Hsum) Ho Hp]; [|done..].
  split; [done|]. eapply (wallet_validate w' s rngs tx spent); [done|done|done| | | |].
  - unfold batch_icann_data. by rewrite Hd.
  - by rewrite Hu.
  - by rewrite Hu.
  - by apply payment_validated.
Qed.
