(* ===== verification/WalletNames.v ===== *)
(** * Names and the wallet

    A name that the wallet reserved, it can register later: the search of
    [register_bitname] recomputes the nonce from the key of the reservation's
    address, and what it builds the state accepts. *)

From S2P Require Import Prelude Types Transaction Authorization BitNames State.
From S2P Require Import Wallet WalletCoins WalletSpend.

Section names.
Context `{Externals} `{WalletExternals}.
Implicit Types (w : Wallet) (s : State) (tx : Transaction).

(** ** The search *)

Lemma find_reservation_sound w name_hash utxos o nonce :
  find_reservation w name_hash utxos = Ok (Some (o, nonce)) ->
  exists out, (o, out) ∈ utxos /\
    filled_reservation_commitment (fo_content out) = Some (blake3_keyed_hash nonce name_hash).
Proof.
  induction utxos as [|[o' out'] utxos IH]; cbn [find_reservation]; [done|].
  destruct (filled_reservation_commitment (fo_content out')) as [c|] eqn:Hc.
  2:{ intros (out & ? & ?)%IH. exists out. split; [by apply list_elem_of_further|done]. }
  intros Hf. res_inv. destruct (N.eqb_spec (blake3_keyed_hash (reservation_nonce x name_hash) name_hash) c)
    as [<-|Hne].
  - simplify_eq. exists out'. split; [apply list_elem_of_here|done].
  - apply IH in Hf as (out & ? & ?). exists out. split; [by apply list_elem_of_further|done].
Qed.

Lemma signing_key_for_addr_Ok w a :
  keys_wf w -> is_Some (w_address_to_index w !! a) ->
  exists i sk, w_address_to_index w !! a = Some i /\ get_tx_signing_key w i = Ok sk /\
    get_tx_signing_key_for_addr w a = Ok sk.
Proof.
  intros Hk [i Hi]. destruct (kw_address _ Hk _ _ Hi) as (sk & Hs & Ha). exists i, sk.
  split_and!; [done|done|]. unfold get_tx_signing_key_for_addr. rewrite Hi. cbn. rewrite Hs. cbn.
  by rewrite Ha, N.eqb_refl.
Qed.

(** A reservation with the right commitment is found, or another one that is. *)
Lemma find_reservation_complete w name_hash utxos o out sk :
  wallet_wf w -> (forall o out, (o, out) ∈ utxos -> w_utxos w !! o = Some out) ->
  (o, out) ∈ utxos -> get_tx_signing_key_for_addr w (fo_address out) = Ok sk ->
  filled_reservation_commitment (fo_content out) =
    Some (blake3_keyed_hash (reservation_nonce sk name_hash) name_hash) ->
  exists o nonce, find_reservation w name_hash utxos = Ok (Some (o, nonce)).
Proof.
  intros [Hk Hc] Hall Hin Hsk Hcom.
  induction utxos as [|[o' out'] utxos IH]; [by apply not_elem_of_nil in Hin|]. cbn [find_reservation].
  assert ((o, out) ∈ utxos -> exists o nonce, find_reservation w name_hash utxos = Ok (Some (o, nonce))) as IH'.
  { intros Ht. apply IH; [|done]. intros. by apply Hall, list_elem_of_further. }
  apply elem_of_cons in Hin. destruct (filled_reservation_commitment (fo_content out')) as [c|] eqn:Hc'.
  2:{ apply IH'. destruct Hin as [[= -> ->]|?]; congruence. }
  destruct (signing_key_for_addr_Ok w (fo_address out')) as (i & sk' & _ & _ & Hsk'); [done| |].
  { eapply Hc, Hall, list_elem_of_here. }
  rewrite Hsk'. cbn [mbind result_bind].
  destruct (N.eqb_spec (blake3_keyed_hash (reservation_nonce sk' name_hash) name_hash) c); [eauto|].
  apply IH'. destruct Hin as [[= -> ->]|?]; congruence.
Qed.

(** ** What the two operations leave *)

Lemma set_names_utxos U r k : 
  preserves (fun w => w_utxos w = U) (writing (fun w => set_names (r w) (k w) w) : wallet_op unit).
Proof. by apply preserves_writing. Qed.
Hint Resolve get_new_address_utxos set_names_utxos : ops.
Lemma reserve_bitname_utxos U tx n : preserves (fun w => w_utxos w = U) (reserve_bitname tx n).
Proof. unfold reserve_bitname, last_output_address. preserve. Qed.
Lemma register_bitname_utxos U tx n d : preserves (fun w => w_utxos w = U) (register_bitname tx n d).
Proof. unfold register_bitname, last_output_address. preserve. Qed.

Lemma reserve_bitname_kept tx n w tx' w' :
  reserve_bitname tx n w = (Ok tx', w') -> wallet_wf w -> wallet_wf w' /\ w_utxos w' = w_utxos w.
Proof.
  intros Hr Hw. pose proof (reserve_bitname_wf tx n w Hw) as Hw'.
  pose proof (reserve_bitname_utxos _ tx n w eq_refl) as Hu. by rewrite Hr in *.
Qed.
Lemma register_bitname_kept tx n d w tx' w' :
  register_bitname tx n d w = (Ok tx', w') -> wallet_wf w -> wallet_wf w' /\ w_utxos w' = w_utxos w.
Proof.
  intros Hr Hw. pose proof (register_bitname_wf tx n d w Hw) as Hw'.
  pose proof (register_bitname_utxos _ tx n d w eq_refl) as Hu. by rewrite Hr in *.
Qed.

(** A registration spends one reservation and makes one name. *)
Lemma register_bitname_Ok tx n d w tx' w' :
  hashmap_iter_spec -> register_bitname tx n d w = (Ok tx', w') ->
  tx_data tx = None /\ exists o out nonce address,
    w_utxos w !! o = Some out /\
    filled_reservation_commitment (fo_content out) = Some (blake3_keyed_hash nonce (name_hash_of n)) /\
    tx' = mkTransaction (tx_inputs tx ++ [o]) (tx_outputs tx ++ [output_new address Content_BitName])
            (tx_memo tx) (Some (TxData_BitNameRegistration (name_hash_of n) nonce d)).
Proof.
  intros Hiter Hr. unfold register_bitname in Hr. op_inv.
  apply assert_Ok in Ho. unfold is_regular in Ho. split; [by destruct (tx_data tx)|].
  apply ok_or_Ok in Ho3 as ->. apply find_reservation_sound in Ho1 as (out & Hin & Hc).
  assert (w_utxos w1 = w_utxos w) as Hu.
  { assert (preserves (fun w' => w_utxos w' = w_utxos w) (last_output_address tx)) as Hp
      by (unfold last_output_address; preserve).
    specialize (Hp w eq_refl). by rewrite Ho0 in Hp. }
  rewrite (Hiter _ (w_utxos w1)), elem_of_map_to_list, Hu in Hin. eauto 10.
Qed.

(** The commitment of a reservation comes from the key of its address. *)
Lemma reserve_bitname_Ok tx n w tx' w' :
  reserve_bitname tx n w = (Ok tx', w') ->
  exists address sk, get_tx_signing_key_for_addr w' address = Ok sk /\
    out_address <$> last (reservation_outputs tx') = Some address /\
    reservation_commitment tx' =
      Some (blake3_keyed_hash (reservation_nonce sk (name_hash_of n)) (name_hash_of n)).
Proof.
  intros Hr. unfold reserve_bitname in Hr. op_inv.
  exists x0, x1. split_and!.
  - exact Ho1.
  - destruct (is_reservation tx) eqn:Hres.
    + op_inv. apply fmap_Ok in Ho0 as (o & Hl & ->). apply expect_Ok in Hl.
      assert (is_regular tx = false) as ->.
      { unfold is_reservation, is_regular in *. by destruct (tx_data tx). }
      unfold reservation_outputs in *. cbn. by rewrite Hl.
    + rewrite orb_false_r in Ho. apply assert_Ok in Ho as ->.
      unfold reservation_outputs. cbn. rewrite List.filter_app. cbn. by rewrite last_snoc.
  - done.
Qed.

Hypothesis Hsort : par_sort_spec.
Hypothesis Hiter : hashmap_iter_spec.
Hypothesis Hbatch : batch_verify_spec.
Hypothesis Hsign : sign_spec.

(** A registration on top of a transaction of the wallet is accepted. *)
Lemma registration_accepted s w0 w w' fee tx n d tx' rngs :
  wallet_wf w0 -> w_utxos w0 ⊆ st_utxos s -> create_regular_transaction fee w0 = (Ok tx, w) ->
  db_bitnames (st_bitnames s) !! name_hash_of n = None ->
  register_bitname tx n d w = (Ok tx', w') ->
  exists atx, wallet_authorize w' rngs tx' = Ok atx /\ at_transaction atx = tx' /\
    validate_transaction s atx = Ok fee.
Proof.
  intros Hw0 Hsub Hr Hname Hreg.
  apply (run_request_kept (Request_Regular fee)) in Hr as Hk; [|done]. destruct Hk as [Hw Hu].
  apply (run_request_balanced Hsort Hiter (Request_Regular fee)) in Hr
    as [_ (spent & Hin & Hc & Hmax & Hsum) Ho _].
  apply register_bitname_kept in Hreg as Hk; [|done]. destruct Hk as [Hw' Hu'].
  apply register_bitname_Ok in Hreg as (_ & o & out & nonce & address & Hout & Hcom & ->); [|done].
  eapply (wallet_validate w' s rngs _ (spent ++ [out])); [done|done|done|done| |by rewrite Hu', Hu|].
  - cbn [tx_inputs]. rewrite Hu'. apply Forall2_app; [by rewrite Hu|]. by repeat constructor.
  - apply registration_validated; try done. by eapply Forall2_length.
Qed.

(** The key of an address is the same in a later wallet. *)
Lemma signing_key_for_addr_later w w' a sk :
  w_seed w' = w_seed w -> w_address_to_index w ⊆ w_address_to_index w' ->
  get_tx_signing_key_for_addr w a = Ok sk -> get_tx_signing_key_for_addr w' a = Ok sk.
Proof.
  intros Hs Hsub. unfold get_tx_signing_key_for_addr. intros Hg. res_inv.
  rewrite (lookup_weaken _ _ _ _ Hx Hsub). cbn. rewrite (tx_key_seed w' w), Hx0 by done. cbn.
  by rewrite Hx1.
Qed.

(** The change of a transaction for a fee pays an address of the wallet. *)
Lemma regular_last_output fee w tx w' :
  create_regular_transaction fee w = (Ok tx, w') ->
  tx_data tx = None /\
  exists address, last_output_address tx w' = (Ok address, w').
Proof.
  intros Hr. unfold create_regular_transaction in Hr. op_inv. split; [done|].
  unfold get_new_address in Ho1. op_inv. cbn in *.
  eexists. unfold last_output_address. cbn.
  unfold mbind, op_bind, reading. cbn. rewrite lookup_insert_eq.
  by rewrite bool_decide_eq_true_2 by eauto.
Qed.

Lemma register_reserved w n d tx address o out sk :
  wallet_wf w -> tx_data tx = None -> last_output_address tx w = (Ok address, w) ->
  w_utxos w !! o = Some out -> get_tx_signing_key_for_addr w (fo_address out) = Ok sk ->
  filled_reservation_commitment (fo_content out) =
    Some (blake3_keyed_hash (reservation_nonce sk (name_hash_of n)) (name_hash_of n)) ->
  exists tx' w', register_bitname tx n d w = (Ok tx', w').
Proof.
  intros Hw Hd Hl Ho Hsk Hc. unfold register_bitname.
  destruct (find_reservation_complete w (name_hash_of n) (hashmap_iter (w_utxos w)) o out sk)
    as (o' & nonce & Hf); [done| | |done|done|].
  - intros o' out'. by rewrite (Hiter _ (w_utxos w)), elem_of_map_to_list.
  - by rewrite (Hiter _ (w_utxos w)), elem_of_map_to_list.
  - unfold is_regular. rewrite Hd. unfold mbind, op_bind. cbn [lifted assert_]. rewrite Hl.
    unfold reading. rewrite Hf. cbn. eauto.
Qed.
End names.

(** ** Properties *)

(** C29 Reserving and registering: once the reservation that [reserve_bitname] made is
    an unspent output of the wallet, a later wallet with the same seed registers
    the name on top of a transaction for a fee, and every state in which the
    wallet's outputs are unspent and the name is free accepts the registration
    with that fee. *)
Theorem reserve_then_register `{Externals} `{WalletExternals} (w w1 w2 w3 : Wallet)
    (tx tx1 tx2 : Transaction) (n : string) (d : MutableBitNameData) (fee : Amount)
    (o : OutPoint) (out : FilledOutput) (rngs : nat -> N) :
  par_sort_spec -> hashmap_iter_spec -> batch_verify_spec -> sign_spec ->
  reserve_bitname tx n w = (Ok tx1, w1) ->
  wallet_wf w2 -> w_utxos w2 !! o = Some out ->
  out_address <$> last (reservation_outputs tx1) = Some (fo_address out) ->
  filled_reservation_commitment (fo_content out) = reservation_commitment tx1 ->
  create_regular_transaction fee w2 = (Ok tx2, w3) ->
  w_seed w3 = w_seed w1 -> w_address_to_index w1 ⊆ w_address_to_index w3 ->
  exists tx3 w4, register_bitname tx2 n d w3 = (Ok tx3, w4) /\
    registration_name_hash tx3 = Some (name_hash_of n) /\
    forall s, w_utxos w2 ⊆ st_utxos s -> db_bitnames (st_bitnames s) !! name_hash_of n = None ->
      exists atx, wallet_authorize w4 rngs tx3 = Ok atx /\ at_transaction atx = tx3 /\
        validate_transaction s atx = Ok fee.
Proof.
  intros Hsort Hiter Hbatch Hsign Hres Hw2 Ho Hadr Hcom Htx Hseed Hidx.
  apply reserve_bitname_Ok in Hres as (a & sk & Hsk & Ha & Hc). simplify_eq.
  eapply signing_key_for_addr_later in Hsk; [|exact Hseed|exact Hidx].
  apply (run_request_kept (Request_Regular fee)) in Htx as Hk; [|done]. destruct Hk as [Hw3 Hu].
  apply regular_last_output in Htx as Hlast. destruct Hlast as [Hd [address Hlast]].
  destruct (register_reserved Hiter w3 n d tx2 address o out sk) as (tx3 & w4 & Hreg);
    [done|done|done|by rewrite Hu|done|by rewrite Hcom|].
  exists tx3, w4. split; [done|]. split.
  - apply register_bitname_Ok in Hreg as (_ & ? & ? & ? & ? & _ & _ & ->); done.
  - intros s Hsub Hname. by apply (registration_accepted Hsort Hiter Hbatch Hsign s w2 w3 w4 fee tx2 n d).
Qed.
