(* ===== verification/App.v ===== *)
(** * The application

    [src/app/app.rs]: the wallet follows the node, transactions are signed and
    sent, and blocks are assembled for blind merged mining. The state of the
    application is that of the node and of the wallet, and the list of outputs it
    shows. *)

From S2P Require Import Prelude Types Transaction Rollback BitNames Authorization State Merkle Block.
From S2P Require Import TwoWayPeg Mempool SideTips Lineage Archive ArchiveBodies ArchiveIter MainchainTask.
From S2P Require Import Node NodeTask Wallet.

Record App : Type := mkApp {
  app_node : NodeDb;
  app_wallet : Wallet;
  app_utxos : gmap OutPoint FilledOutput;
}.

Inductive AppError : Type :=
| App_ComputeMerkleRoot (e : Error)
| App_Node (e : NodeError)
| App_RequestMainchainAncestorInfos (block_hash : MainBlockHash)
| App_Wallet (e : WalletError).

Definition app_op : Type -> Type := op App AppError.

Definition set_node (db : NodeDb) (a : App) : App := mkApp db (app_wallet a) (app_utxos a).
Definition set_wallet (w : Wallet) (a : App) : App := mkApp (app_node a) w (app_utxos a).
Definition with_archive (archive : Archive) (db : NodeDb) : NodeDb :=
  mkNodeDb (nd_state db) archive (nd_mempool db).
Definition wallet_step {A} : wallet_op A -> app_op A := zoom app_wallet set_wallet App_Wallet.
Definition archive_read {A} (f : Archive -> result ArchiveError A) : app_op A :=
  reading (fun a => map_err (fun e => App_Node (Node_Archive e)) (f (nd_archive (app_node a)))).

Record BlockTemplate : Type := mkBlockTemplate {
  tpl_bribe : Amount;
  tpl_header : Header;
  tpl_height : u32;
  tpl_body : Body;
  tpl_fees : Amount;
}.

Definition EMPTY_BLOCK_BMM_BRIBE : Amount := 1000.
Definition NUM_TRANSACTIONS : nat := 1000.

(** [Node::get_spent_utxos] *)
Definition get_spent_utxos (s : State) (outpoints : list OutPoint)
  : list (OutPoint * SpentOutput) :=
  omap (fun outpoint => pair outpoint <$> st_stxos s !! outpoint) outpoints.

Section app.
Context `{Externals} `{WorkExternals} `{WalletExternals}.

(** ** The wallet follows the node *)

Definition update_wallet (db : NodeDb) (w : Wallet) : Wallet :=
  let addresses := get_addresses w in
  let utxos := get_utxos_by_addresses (nd_state db) addresses in
  let outpoints := (hashmap_iter (w_utxos w)).*1 in
  let spent := (fun e : OutPoint * SpentOutput => (e.1, so_inpoint e.2)) <$>
                 get_spent_utxos (nd_state db) outpoints in
  let w := put_utxos utxos w in
  let w := spend_utxos spent w in
  set_pending_transactions (take_all (nd_mempool db)) w.

Definition update : app_op unit :=
  writing (fun a =>
    let w := update_wallet (app_node a) (app_wallet a) in mkApp (app_node a) w (w_utxos w)).

(** The list of outputs when the application starts: those that no transaction of
    the pool spends. *)
Definition app_new (db : NodeDb) (w : Wallet) : App :=
  let transactions := take_all (nd_mempool db) in
  let w := set_pending_transactions transactions w in
  mkApp db w (foldl (fun utxos input => delete input utxos) (w_utxos w)
                (concat ((fun tx => tx_inputs (at_transaction tx)) <$> transactions))).

(** ** Sending transactions *)

(** The wallet is updated whatever the node answered. *)
Definition app_broadcast_transaction (tx : AuthorizedTransaction) : app_op AuthorizedTransaction :=
  fun a =>
    let '(res, a) :=
      match broadcast_transaction (app_node a) tx with
      | Ok (db, stored) => (Ok stored, set_node db a)
      | Err e => (Err (App_Node e), a)
      | Panic => (Panic, a)
      end in
    (_ ← update; lifted res) a.

Definition submit_transaction (tx : AuthorizedTransaction) : app_op unit :=
  _ ← app_broadcast_transaction tx;
  mret tt.

Definition sign_and_send (rngs : nat -> N) (tx : Transaction) : app_op unit :=
  authorized_transaction ←
    reading (fun a => map_err App_Wallet (wallet_authorize (app_wallet a) rngs tx));
  submit_transaction authorized_transaction.

(** ** Block templates *)

(** The [find_map] over the ancestors of the tip: the newest one whose mainchain
    parent comes before the common ancestor. *)
Fixpoint find_mining_tip (fuel : nat) (archive : Archive) (last_common : MainBlockHash)
    (block_hash : option BlockHash) : result ArchiveError (option BlockHash) :=
  match fuel with
  | O => Panic
  | S fuel =>
      '(item, next) ← ancestor_headers_next archive block_hash;
      match item with
      | None => Ok None
      | Some (block_hash, header) =>
          if hd_prev_main_hash header =? last_common
          then find_mining_tip fuel archive last_common next
          else
            found ← is_main_descendant archive (hd_prev_main_hash header) last_common;
            if found : bool then Ok (Some block_hash)
            else find_mining_tip fuel archive last_common next
      end
  end.

Section template.
Context (get_block_infos : MainBlockHash -> u32 -> option (list (BlockHeaderInfo * BlockInfo))).
Context (requests : nat).

(** Requesting the mainchain ancestors of a block that is not in the archive *)
Definition request_missing_ancestors (prev_main_hash : MainBlockHash) : app_op unit :=
  known ← reading (fun a =>
    Ok (bool_decide (is_Some (ar_main_header_infos (nd_archive (app_node a)) !! prev_main_hash))));
  if known : bool then mret tt
  else
    '(archive, available) ←
      archive_read (fun archive =>
        request_ancestor_infos get_block_infos requests archive prev_main_hash);
    _ ← writing (fun a => set_node (with_archive archive (app_node a)) a);
    lifted (ensure available (App_RequestMainchainAncestorInfos prev_main_hash)).

(** The block to build on *)
Definition template_parent (prev_main_hash : MainBlockHash) : app_op (option BlockHash) :=
  tip_hash ← reading (fun a => Ok (try_get_tip (nd_state (app_node a))));
  match tip_hash with
  | None => mret None
  | Some tip_hash =>
      tip_header ← archive_read (fun archive => get_header archive tip_hash);
      _ ← request_missing_ancestors prev_main_hash;
      last_common_main_ancestor ← archive_read (fun archive =>
        last_common_main_ancestor archive prev_main_hash (hd_prev_main_hash tip_header));
      if last_common_main_ancestor =? hd_prev_main_hash tip_header then mret (Some tip_hash)
      else archive_read (fun archive =>
        find_mining_tip (S (side_fuel archive tip_hash)) archive last_common_main_ancestor (Some tip_hash))
  end.

(** [txs.into_iter().map(|tx| tx.into())]: the spent outputs are dropped. *)
Definition authorized_of (tx : FilledTransaction * list Authorization) : AuthorizedTransaction :=
  mkAuthorizedTransaction (ft_transaction tx.1) tx.2.

(** A block with the transactions of the pool, its fees paid to the wallet *)
Definition full_template (fee : option Amount) (prev_main_hash : MainBlockHash)
    (prev_side_hash : option BlockHash) : app_op (Amount * Header * Body * Amount) :=
  '(db, txs, tx_fees) ← reading (fun a =>
    map_err App_Node (get_transactions (app_node a) NUM_TRANSACTIONS));
  _ ← writing (set_node db);
  coinbase ←
    (if tx_fees =? 0 then mret []
     else
       address ← wallet_step get_receive_address;
       mret [output_new address (Content_Bitcoin tx_fees)]);
  let coinbase := mkCoinbase [] coinbase in
  merkle_root ← lifted (map_err App_ComputeMerkleRoot (compute_merkle_root coinbase txs.*1));
  let body := body_new (authorized_of <$> txs) coinbase in
  let header := mkHeader merkle_root prev_side_hash prev_main_hash in
  let bribe := match fee with
               | Some fee => fee
               | None => if 0 <? tx_fees then tx_fees else EMPTY_BLOCK_BMM_BRIBE
               end in
  mret (bribe, header, body, tx_fees).

Definition empty_template (prev_main_hash : MainBlockHash) (prev_side_hash : option BlockHash)
  : app_op (Amount * Header * Body * Amount) :=
  let coinbase := mkCoinbase [] [] in
  merkle_root ← lifted (map_err App_ComputeMerkleRoot (compute_merkle_root coinbase []));
  mret (EMPTY_BLOCK_BMM_BRIBE, mkHeader merkle_root prev_side_hash prev_main_hash,
        body_new [] coinbase, 0).

(** [prev_main_hash] is the tip that the mainchain node reports. *)
Definition build_block_template (fee : option Amount) (prev_main_hash : MainBlockHash)
  : app_op BlockTemplate :=
  tip_hash ← reading (fun a => Ok (try_get_tip (nd_state (app_node a))));
  prev_side_hash ← template_parent prev_main_hash;
  '(bribe, header, body, fees) ←
    (if bool_decide (prev_side_hash = tip_hash)
     then full_template fee prev_main_hash prev_side_hash
     else empty_template prev_main_hash prev_side_hash);
  height ←
    match prev_side_hash with
    | None => mret 0
    | Some prev_side_hash =>
        parent ← archive_read (fun archive => archive_get_height archive prev_side_hash);
        mret (u32_add parent 1)
    end;
  mret (mkBlockTemplate bribe header height body fees).
Definition get_block_template : MainBlockHash -> app_op BlockTemplate := build_block_template None.

(** [connect_block]: the wallet is updated when the block became the tip. *)
Definition connect_block (header : Header) (body : Body) (main_block_hash : MainBlockHash)
  : app_op bool := fun a =>
  match submit_block get_block_infos requests (app_node a) main_block_hash header body with
  | (db, Ok accepted) =>
      (_ ← (if accepted : bool then update else mret tt); mret accepted) (set_node db a)
  | (db, Err e) => (Err (App_Node e), set_node db a)
  | (db, Panic) => (Panic, set_node db a)
  end.
End template.
End app.
