(* ===== verification/AppWallet.v ===== *)
(** * The wallet and the state

    What the update of the wallet makes of the state's outputs, and what it
    forgets. *)

From S2P Require Import Prelude Types Transaction Authorization BitNames State Mempool.
From S2P Require Import Node NodeTask Wallet WalletCoins WalletSpend WalletNames App.

Section update.
Context `{Externals} `{WalletExternals}.
Implicit Types (w : Wallet) (db : NodeDb).

Lemma spend_utxo_frame w e :
  spend_utxo w e = set_coins (delete e.1 (w_utxos w)) (w_stxos (spend_utxo w e)) w.
Proof.
  unfold spend_utxo. destruct (w_utxos w !! e.1) eqn:He; [done|].
  rewrite delete_id by done. by destruct w.
Qed.

Lemma spend_utxos_frame l w :
  w_address_to_index (spend_utxos l w) = w_address_to_index w /\
  (forall o, w_utxos (spend_utxos l w) !! o = if decide (o ∈ l.*1) then None else w_utxos w !! o).
Proof.
  unfold spend_utxos. revert w. induction l as [|e l IH]; intros w; cbn [foldl]; [done|].
  destruct (IH (spend_utxo w e)) as [Ha Hu]. rewrite Ha. rewrite spend_utxo_frame in Hu |- *.
  split; [done|]. intros o. rewrite Hu. cbn. destruct (decide (o = e.1)) as [->|Hne].
  - rewrite lookup_delete_eq. rewrite (decide_True (P := e.1 ∈ e.1 :: l.*1)) by apply list_elem_of_here.
    by destruct (decide _).
  - rewrite lookup_delete_ne by done. apply decide_ext. rewrite elem_of_cons. naive_solver.
Qed.

Lemma spend_utxos_wf l w : wallet_wf w -> wallet_wf (spend_utxos l w).
Proof.
  unfold spend_utxos. revert w. induction l as [|e l IH]; intros w Hw; cbn [foldl]; [done|].
  apply IH. rewrite spend_utxo_frame. apply coins_wf_set; [done|].
  intros o out [_ Ho]%lookup_delete_Some. by eapply Hw.
Qed.

Lemma owned_address w a : keys_wf w -> a ∈ get_addresses w <-> is_Some (w_address_to_index w !! a).
Proof.
  intros Hk. unfold get_addresses. rewrite elem_of_map_img. split.
  - intros [i Hi]. by eapply kw_index.
  - intros [i Hi]. exists i. by apply kw_back.
Qed.

Lemma put_utxos_wf s w :
  wallet_wf w -> wallet_wf (put_utxos (get_utxos_by_addresses s (get_addresses w)) w).
Proof.
  intros Hw. apply coins_wf_set; [done|]. intros o out Ho. apply lookup_union_Some_raw in Ho as [Ho|[_ Ho]].
  - apply map_lookup_filter_Some in Ho as [_ Ho]. cbn in Ho. by apply owned_address; [apply Hw|].
  - by eapply Hw.
Qed.

(** The update keeps the invariant of the wallet. *)
Lemma update_wallet_wf db w : wallet_wf w -> wallet_wf (update_wallet db w).
Proof.
  intros Hw. unfold update_wallet. cbn zeta. set (w' := spend_utxos _ _).
  assert (wallet_wf w') as [Hk Hc] by apply spend_utxos_wf, put_utxos_wf, Hw.
  split; [by eapply keys_wf_same, Hk|done].
Qed.

Lemma get_spent_fst s l (g : OutPoint * SpentOutput -> InPoint) o :
  o ∈ ((fun e => (e.1, g e)) <$> get_spent_utxos s l).*1 <-> o ∈ l /\ is_Some (st_stxos s !! o).
Proof.
  rewrite <-list_fmap_compose. change (fst ∘ (fun e => (e.1, g e))) with (@fst OutPoint SpentOutput).
  unfold get_spent_utxos. rewrite list_elem_of_fmap. split.
  - intros ([o' so] & -> & Hin). apply list_elem_of_omap in Hin as (o'' & Hin & Ho). cbn.
    destruct (st_stxos s !! o'') eqn:Hs; cbn in Ho; simplify_eq. eauto.
  - intros [Hin [so Hs]]. exists (o, so). split; [done|]. apply list_elem_of_omap. exists o.
    by rewrite Hs.
Qed.

(** The outputs of the wallet after an update *)
Lemma update_wallet_lookup db w o :
  hashmap_iter_spec ->
  w_utxos (update_wallet db w) !! o =
  if decide (is_Some (w_utxos w !! o) /\ is_Some (st_stxos (nd_state db) !! o)) then None
  else get_utxos_by_addresses (nd_state db) (get_addresses w) !! o ∪ w_utxos w !! o.
Proof.
  intros Hiter. unfold update_wallet. cbn zeta. unfold set_pending_transactions, set_pending_inputs.
  cbn [w_utxos]. rewrite (proj2 (spend_utxos_frame _ _)).
  unfold put_utxos. cbn [w_utxos set_coins]. rewrite lookup_union. apply decide_ext.
  rewrite (get_spent_fst _ _ (fun e => so_inpoint e.2)). apply and_iff_compat_r.
  rewrite (Hiter _ (w_utxos w)). rewrite list_elem_of_fmap. split.
  - intros ([o' out] & -> & Hin%elem_of_map_to_list). cbn. eauto.
  - intros [out Ho]. exists (o, out). split; [done|]. by apply elem_of_map_to_list.
Qed.
End update.

(** ** The wallets that can be reached *)

Section reachable.
Context `{Externals} `{WalletExternals}.

Inductive wallet_reachable : Wallet -> Prop :=
| reach_wallet_new : wallet_reachable wallet_new
| reach_set_seed w seed : wallet_reachable w -> wallet_reachable (set_seed seed w).2
| reach_mnemonic w m : wallet_reachable w -> wallet_reachable (set_seed_from_mnemonic m w).2
| reach_new_address w : wallet_reachable w -> wallet_reachable (get_new_address w).2
| reach_receive_address w : wallet_reachable w -> wallet_reachable (get_receive_address w).2
| reach_last_address w : wallet_reachable w -> wallet_reachable (get_or_generate_last_address w).2
| reach_new_epk w : wallet_reachable w -> wallet_reachable (get_new_encryption_key w).2
| reach_new_vk w : wallet_reachable w -> wallet_reachable (get_new_verifying_key w).2
| reach_request w r : wallet_reachable w -> wallet_reachable (run_request r w).2
| reach_reserve w tx n : wallet_reachable w -> wallet_reachable (reserve_bitname tx n w).2
| reach_register w tx n d : wallet_reachable w -> wallet_reachable (register_bitname tx n d w).2
| reach_update w db : wallet_reachable w -> wallet_reachable (update_wallet db w).

Lemma wallet_new_wf : wallet_wf wallet_new.
Proof. by split; [split|]. Qed.

Lemma get_or_generate_last_address_wf : preserves wallet_wf get_or_generate_last_address.
Proof. unfold get_or_generate_last_address. preserve. apply get_new_address_wf. Qed.

Lemma wallet_reachable_wf w : wallet_reachable w -> wallet_wf w.
Proof.
  induction 1; [apply wallet_new_wf|by apply set_seed_wf|by apply set_seed_from_mnemonic_wf|
    by apply get_new_address_wf|by apply get_receive_address_wf|
    by apply get_or_generate_last_address_wf|by apply get_new_encryption_key_wf|
    by apply get_new_verifying_key_wf|by apply run_request_wf|by apply reserve_bitname_wf|
    by apply register_bitname_wf|by apply update_wallet_wf].
Qed.
End reachable.

(** ** Properties *)

(** C22 The wallet follows the chain: when every output that the wallet lists is known
    to the state, as an unspent output of the same content or as a spent one, then
    after an update the wallet lists exactly the unspent outputs that pay its
    addresses, and no transaction of the pool spends a coin that it may select. *)
Theorem update_wallet_exact `{Externals} `{WalletExternals} (db : NodeDb) (w : Wallet) :
  hashmap_iter_spec -> wallet_wf w ->
  (forall o, is_Some (st_utxos (nd_state db) !! o) -> st_stxos (nd_state db) !! o = None) ->
  (forall o out, w_utxos w !! o = Some out ->
    st_utxos (nd_state db) !! o = Some out \/ is_Some (st_stxos (nd_state db) !! o)) ->
  wallet_wf (update_wallet db w) /\
  w_utxos (update_wallet db w) = get_utxos_by_addresses (nd_state db) (get_addresses w) /\
  forall o out atx, spendable (update_wallet db w) !! o = Some out ->
    atx ∈ take_all (nd_mempool db) -> o ∉ tx_inputs (at_transaction atx).
Proof.
  intros Hiter Hw Hdis Hknown. split; [by apply update_wallet_wf|]. split.
  - apply map_eq. intros o. rewrite update_wallet_lookup by done. unfold get_utxos_by_addresses.
    case_decide as Hd.
    + destruct Hd as [_ [so Hso]]. symmetry. apply map_lookup_filter_None. left.
      destruct (st_utxos (nd_state db) !! o) as [u|] eqn:Hu; [|done]. rewrite Hdis in Hso; [done|eauto].
    + destruct (w_utxos w !! o) as [out|] eqn:Ho; [|by rewrite (right_id_L None _)].
      destruct (Hknown _ _ Ho) as [Hu|Hs]; [|by destruct Hd; eauto].
      rewrite (proj2 (map_lookup_filter_Some _ _ o out)); [done|]. split; [done|].
      apply owned_address; [apply Hw|]. by eapply Hw.
  - intros o out atx [_ Hs]%map_lookup_filter_Some Hin Ho. cbn in Hs. unfold skipped in Hs.
    rewrite !orb_false_iff in Hs. destruct Hs as ((((Hp & _) & _) & _) & _).
    apply bool_decide_eq_false in Hp. apply Hp. unfold update_wallet. cbn.
    apply elem_of_list_to_set, list_elem_of_In, in_concat. exists (tx_inputs (at_transaction atx)).
    split; [|by apply list_elem_of_In]. apply list_elem_of_In, list_elem_of_fmap. eauto.
Qed.

(** An output that a reorganisation removed from the chain, neither unspent nor
    spent in the state, stays in the wallet through every update. It stays
    selectable unless the pool uses it, and no state that lacks it accepts a
    transaction that spends it. *)
Theorem update_wallet_keeps_orphans `{Externals} `{WalletExternals} (db : NodeDb) (w : Wallet)
    (o : OutPoint) (out : FilledOutput) (atx : AuthorizedTransaction) :
  hashmap_iter_spec -> w_utxos w !! o = Some out ->
  st_utxos (nd_state db) !! o = None -> st_stxos (nd_state db) !! o = None ->
  w_utxos (update_wallet db w) !! o = Some out /\
  (o ∈ tx_inputs (at_transaction atx) -> forall f, validate_transaction (nd_state db) atx <> Ok f).
Proof.
  intros Hiter Ho Hu Hs. split.
  - rewrite update_wallet_lookup by done. rewrite decide_False by (rewrite Hs; by intros [_ [? ?]]).
    unfold get_utxos_by_addresses. rewrite (proj2 (map_lookup_filter_None _ _ _)) by (by left).
    by rewrite Ho.
  - intros Hin f Hv. unfold validate_transaction in Hv. res_inv.
    apply fill_transaction_Ok in Hx as [_ Hf]. apply list_elem_of_lookup in Hin as [i Hi].
    eapply Forall2_lookup_l in Hf as (? & _ & Hf); [|exact Hi]. congruence.
Qed.

(** C30 The keys of the wallet: in every wallet that can be reached, the key that is
    derived again for a listed address, message key or encryption key is the one
    it was listed for, so that none of the assertions on derived keys fails; and
    the wallet can sign every transaction whose inputs it lists. *)
Theorem wallet_keys_consistent `{Externals} `{WalletExternals} (w : Wallet) :
  wallet_reachable w ->
  (forall a i, w_address_to_index w !! a = Some i ->
    exists sk, get_tx_signing_key_for_addr w a = Ok sk /\ address_of_signing_key sk = a) /\
  (forall vk i, w_vk_to_index w !! vk = Some i ->
    exists sk, get_message_signing_key_for_vk w vk = Ok sk /\ verifying_key_of sk = vk) /\
  (forall epk i, w_epk_to_index w !! epk = Some i ->
    exists secret, get_encryption_secret_for_epk w epk = Ok secret /\
      encryption_pubkey_of secret = epk) /\
  (forall rngs tx, Forall (fun i => is_Some (w_utxos w !! i)) (tx_inputs tx) ->
    exists atx, wallet_authorize w rngs tx = Ok atx /\ at_transaction atx = tx /\
      length (at_authorizations atx) = length (tx_inputs tx)).
Proof.
  intros Hr. apply wallet_reachable_wf in Hr as Hw. destruct Hw as [Hk Hc]. split_and!.
  - intros a i Ha. destruct (signing_key_for_addr_Ok w a Hk) as (j & sk & Hj & Hs & Hf); [eauto|].
    exists sk. split; [done|]. destruct (kw_address _ Hk _ _ Hj) as (sk' & Hs' & <-). congruence.
  - intros vk i Hv. destruct (kw_vk _ Hk _ _ Hv) as (sk & Hs & <-). exists sk. split; [|done].
    unfold get_message_signing_key_for_vk, try_get_message_signing_key_for_vk. rewrite Hv, Hs. cbn.
    by rewrite N.eqb_refl.
  - intros epk i He. destruct (kw_epk _ Hk _ _ He) as (secret & Hs & <-). exists secret. split; [|done].
    unfold get_encryption_secret_for_epk, get_epk_index. rewrite He. cbn. rewrite Hs. cbn.
    by rewrite N.eqb_refl.
  - intros rngs tx Hin. unfold wallet_authorize.
    destruct (map_res_exists (fun '(i, input) => authorize_input w tx (rngs i) input)
      (imap pair (tx_inputs tx))) as [auths Ha].
    { apply Forall_lookup. intros k [j o] Hj. apply list_lookup_imap_Some in Hj as (? & Hj & [= -> ->]).
      eapply Forall_lookup_1 in Hin as [out Ho]; [|exact Hj].
      destruct (authorize_input_Ok w tx (rngs k) _ _ (conj Hk Hc) Ho) as (sk & -> & _). eauto. }
    rewrite Ha. eexists. split; [done|]. split; [done|]. cbn.
    apply map_res_length in Ha. by rewrite length_imap in Ha.
Qed.

(** [overwrite_seed] clears the tables of addresses and leaves those of the other
    keys: an encryption key that the old seed gave makes the wallet panic unless
    the new seed gives the same key. *)
Theorem overwrite_seed_stale_keys `{Externals} `{WalletExternals} (w : Wallet) (seed : bytes)
    (epk : EncryptionPubKey) (i : u32) (secret : StaticSecret) (ciphertext : bytes) :
  let w' := (overwrite_seed seed w).2 in
  w_epk_to_index w !! epk = Some i -> get_encryption_secret w' i = Ok secret ->
  encryption_pubkey_of secret <> epk -> decrypt_msg w' epk ciphertext = Panic.
Proof.
  intros w' He Hs Hne. unfold decrypt_msg, get_encryption_secret_for_epk, get_epk_index.
  change (w_epk_to_index w') with (w_epk_to_index w). rewrite He. cbn [ok_or mbind result_bind].
  rewrite Hs. cbn [mbind result_bind]. by rewrite (proj2 (N.eqb_neq _ _)).
Qed.
