(* ===== verification/AppTemplate.v ===== *)
(** * Block templates

    The block that the application assembles for mining is one that its own node
    accepts. *)

From S2P Require Import Prelude Types Transaction Rollback BitNames Authorization State Merkle Block.
From S2P Require Import BlockSafety BlockValue TwoWayPeg Mempool Solvency SideTips Lineage Archive ArchiveBodies.
From S2P Require Import ArchiveIter MainchainTask Node NodeTask NodePool Wallet App.

Section template.
Context `{Externals}.
Implicit Types (s : State) (atxs : list AuthorizedTransaction).

(** What [validate_transaction] has checked of the signatures *)
Lemma validate_transaction_Ok s atx f :
  batch_verify_spec -> validate_transaction s atx = Ok f ->
  exists ftx, fill_transaction s (at_transaction atx) = Ok ftx /\ validated s ftx f /\
    spent_utxos_requiring_auth ftx = ft_spent_utxos ftx /\
    length (at_authorizations atx) = length (ft_spent_utxos ftx) /\
    Forall (fun p => auth_get_address p.1 = fo_address p.2)
      (zip (at_authorizations atx) (ft_spent_utxos ftx)) /\
    Forall2 (fun auth msg => pair_valid (auth, msg)) (at_authorizations atx)
      (replicate (length (tx_inputs (at_transaction atx))) (tx_msg_canonical (at_transaction atx))).
Proof.
  intros Hspec Hv. unfold validate_transaction in Hv. res_inv.
  destruct (verify_authorized_transaction atx) as [[]| |] eqn:Hver; [|done|done].
  apply verify_authorized_transaction_Ok in Hver as [Hlen Hsigs]; [|done].
  apply fill_transaction_filled in Hx as Hfill. destruct Hfill as [Hfill Htx]. unfold filled in Hfill.
  rewrite Htx in Hfill. apply Nat.eqb_eq in Hx0. apply check_addresses_Ok in Hx1.
  exists x. split_and!; [done|by apply validate_filled_transaction_Ok| |lia|done|].
  - apply requiring_auth_all. lia.
  - rewrite <-Hlen. by apply Forall2_replicate_r.
Qed.

Lemma sublist_list_filter {A} (P : A -> bool) (l : list A) : List.filter P l `sublist_of` l.
Proof. induction l as [|a l IH]; cbn; [done|]. destruct (P a); by constructor. Qed.
Lemma sublist_concat_fmap {A B} (f : A -> list B) (l k : list A) :
  l `sublist_of` k -> concat (f <$> l) `sublist_of` concat (f <$> k).
Proof.
  induction 1 as [|a l k _ IH|a l k _ IH]; cbn; [done|by apply sublist_app|].
  by apply sublist_inserts_l.
Qed.

Lemma zip_concat {A B} (ls : list (list A)) (ks : list (list B)) :
  Forall2 (fun l k => length l = length k) ls ks ->
  zip (concat ls) (concat ks) = concat (zip_with zip ls ks).
Proof. induction 1 as [|l k ls ks Hl _ IH]; [done|]. cbn. by rewrite zip_with_app, IH by done. Qed.

(** A list of valid transactions without a double spend, as a body *)
Lemma valid_transactions_body s atxs fees : batch_verify_spec ->
  Forall2 (fun f atx => validate_transaction s atx = Ok f) fees atxs ->
  exists ftxs, map_res (fill_transaction s) (at_transaction <$> atxs) = Ok ftxs /\
    Forall2 (validated s) ftxs fees /\
    spent_utxos_requiring_auth <$> ftxs = ft_spent_utxos <$> ftxs /\
    Forall2 (fun l k => length l = length k) (at_authorizations <$> atxs) (ft_spent_utxos <$> ftxs) /\
    Forall (fun p => auth_get_address p.1 = fo_address p.2)
      (concat (zip_with zip (at_authorizations <$> atxs) (ft_spent_utxos <$> ftxs))) /\
    Forall2 (fun auth msg => pair_valid (auth, msg)) (concat (at_authorizations <$> atxs))
      (concat ((fun tx => replicate (length (tx_inputs tx)) (tx_msg_canonical tx)) <$>
                 (at_transaction <$> atxs))).
Proof.
  intros Hspec. induction 1 as [|f atx fees atxs Hv _ (ftxs & Hm & Hval & Hreq & Hlen & Hadr & Hsig)].
  { exists []. by split_and!. }
  apply validate_transaction_Ok in Hv as (ftx & Hf & Hvf & Hr & Hl & Ha & Hs); [|done].
  exists (ftx :: ftxs). cbn. rewrite Hf. cbn. rewrite Hm. cbn. split_and!.
  - done.
  - by constructor.
  - by rewrite Hr, Hreq.
  - by constructor.
  - by apply Forall_app.
  - by apply Forall2_app.
Qed.

Lemma sum_fees_validated s ftxs fees acc :
  Forall2 (validated s) ftxs fees -> acc + sum_N fees <= AMOUNT_MAX ->
  fold_res (fun acc tx => fee ← validate_filled_transaction s tx;
    ok_or (amount_checked_add acc fee) Error_AmountOverflow) ftxs acc = Ok (acc + sum_N fees).
Proof.
  intros Hf. revert acc. induction Hf as [|ftx f ftxs fees Hv _ IH]; intros acc Hm; cbn.
  { unfold sum_N. cbn. by rewrite N.add_0_r. }
  rewrite sum_N_cons in *. apply validate_filled_transaction_Ok in Hv. rewrite Hv. cbn.
  unfold amount_checked_add at 2. rewrite (proj2 (N.leb_le _ _)) by lia. cbn.
  rewrite IH by lia. f_equal. lia.
Qed.

Lemma sum_list_lengths {A B} (ls : list (list A)) (ks : list (list B)) :
  Forall2 (fun l k => length l = length k) ls ks ->
  length (concat ls) = sum_list (length <$> ks).
Proof. induction 1 as [|l k ls ks Hl _ IH]; [done|]. cbn. rewrite length_app. lia. Qed.

Lemma body_prevalidated s header atxs fees coinbase ftxs root cv :
  batch_verify_spec -> borsh_outpoint_spec ->
  Forall2 (fun f atx => validate_transaction s atx = Ok f) fees atxs ->
  NoDup (concat (inputs_of <$> atxs)) ->
  map_res (fill_transaction s) (at_transaction <$> atxs) = Ok ftxs ->
  borsh_body_length (body_new atxs coinbase) <= MAX_SIZE ->
  hd_prev_side_hash header = st_tip s ->
  sum_coinbase (body_new atxs coinbase) = Ok cv -> cv <= sum_N fees -> sum_N fees <= AMOUNT_MAX ->
  compute_merkle_root coinbase ftxs = Ok root -> hd_merkle_root header = root ->
  prevalidate s header (body_new atxs coinbase) =
    Ok (mkPrevalidatedBlock ftxs root (sum_N fees) cv (next_height s)).
Proof.
  intros Hspec Hinj Hv Hnd Hfill Hsize Htip Hcb Hcv Hmax Hroot Hhd.
  destruct (valid_transactions_body s atxs fees Hspec Hv)
    as (ftxs' & Hm & Hval & Hreq & Hlen & Hadr & Hsig). rewrite Hfill in Hm. injection Hm as <-.
  assert (ft_transaction <$> ftxs = at_transaction <$> atxs) as Htxs.
  { apply map_res_Forall2 in Hfill. clear -Hfill. remember (at_transaction <$> atxs) as l eqn:Hl. clear Hl.
    induction Hfill as [|tx ftx l ftxs Hf _ IH]; [done|]. cbn. rewrite IH. f_equal.
    by apply fill_transaction_filled in Hf as [_ ->]. }
  unfold prevalidate. rewrite (proj2 (N.leb_le _ _)) by done. cbn [ensure mbind result_bind].
  unfold try_get_tip. rewrite Htip, bool_decide_eq_true_2 by done. cbn [ensure mbind result_bind].
  rewrite Hcb. cbn [mbind result_bind]. cbn [bd_transactions body_new]. rewrite Hfill.
  cbn [mbind result_bind]. rewrite (proj2 (utxo_double_spent_false ftxs Hinj)).
  2:{ replace ((fun tx => tx_inputs (ft_transaction tx)) <$> ftxs) with (inputs_of <$> atxs); [done|].
      change (fun tx => tx_inputs (ft_transaction tx)) with (tx_inputs ∘ ft_transaction).
      rewrite list_fmap_compose, Htxs, <-list_fmap_compose. done. }
  cbn [negb ensure mbind result_bind]. unfold sum_fees.
  rewrite (sum_fees_validated s ftxs fees 0) by (done || (rewrite N.add_0_l; done)).
  rewrite N.add_0_l. cbn [mbind result_bind]. rewrite (proj2 (N.leb_le _ _)) by done.
  cbn [ensure mbind result_bind bd_coinbase body_new]. rewrite Hroot. cbn [mbind result_bind].
  rewrite Hhd, N.eqb_refl. cbn [ensure mbind result_bind bd_authorizations body_new].
  rewrite Hreq. change (fun t => length (spent_utxos_requiring_auth t)) with
    (length ∘ spent_utxos_requiring_auth). rewrite list_fmap_compose, Hreq.
  rewrite (sum_list_lengths _ _ Hlen), Nat.eqb_refl. cbn [ensure mbind result_bind].
  rewrite (proj2 (check_addresses_Ok _ _ tt)) by (by rewrite zip_concat). cbn [mbind result_bind].
  by rewrite (proj2 (verify_authorizations_Ok (body_new atxs coinbase) Hspec)).
Qed.
End template.

Section app.
Context `{Externals} `{WorkExternals} `{WalletExternals}.
Context (get_block_infos : MainBlockHash -> u32 -> option (list (BlockHeaderInfo * BlockInfo))).
Context (requests : nat).
Implicit Types (a : App).

(** Looking for a block to build on changes at most the archive. *)
Definition same_chain_state (s : State) (m : MemPool) a : Prop :=
  nd_state (app_node a) = s /\ nd_mempool (app_node a) = m.

Lemma template_parent_same s m prev_main :
  preserves (same_chain_state s m) (template_parent get_block_infos requests prev_main).
Proof.
  unfold template_parent, request_missing_ancestors, archive_read. preserve.
  by apply preserves_writing.
Qed.

(** Templates of the tip *)
Lemma full_template_Ok fee prev_main prev_side a bribe header body fees a' :
  batch_verify_spec -> borsh_outpoint_spec ->
  pool_wf (nd_mempool (app_node a)) -> utxo_value (st_utxos (nd_state (app_node a))) <= AMOUNT_MAX ->
  full_template fee prev_main prev_side a = (Ok (bribe, header, body, fees), a') ->
  hd_prev_side_hash header = prev_side /\
  (prev_side = st_tip (nd_state (app_node a)) -> borsh_body_length body <= MAX_SIZE ->
   exists pv, prevalidate (nd_state (app_node a)) header body = Ok pv /\
     pv_total_fees pv = fees /\ pv_coinbase_value pv = fees).
Proof.
  intros Hbatch Hinj Hpool Hmax Hf. unfold full_template in Hf. op_inv.
  injection Hf as -> -> -> ->. split; [done|]. intros Htip Hsize.
  apply map_err_Ok in Ho, Ho2.
  destruct (get_transactions_spec (app_node a) NUM_TRANSACTIONS Hpool Hmax)
    as (db' & txs & fs & Hg & Hfill & Hval & Hnd & Hfm & _). rewrite Ho in Hg. injection Hg as -> -> ->.
  set (atxs := accepted_of _ _) in *. assert (authorized_of <$> txs = atxs) as Hatxs.
  { clear -Hfill. induction Hfill as [|p atx txs atxs Hf _ IH]; [done|]. cbn. rewrite IH. f_equal.
    unfold fill_authorized_transaction in Hf. res_inv. unfold authorized_of. cbn.
    apply fill_transaction_filled in Hx as [_ ->]. by destruct atx. }
  assert (map_res (fill_transaction (nd_state (app_node a))) (at_transaction <$> atxs) = Ok txs.*1) as Hm.
  { apply map_res_Forall2. clear -Hfill. induction Hfill as [|p atx txs atxs Hf _ IH]; [constructor|].
    cbn. constructor; [|done]. unfold fill_authorized_transaction in Hf. by res_inv. }
  rewrite Hatxs in *. eexists. split.
  { eapply (body_prevalidated _ _ atxs fs (mkCoinbase [] x0) txs.*1 x1 (sum_N fs)); try done.
    - eapply sublist_NoDup; [exact Hnd|]. apply sublist_concat_fmap, sublist_list_filter.
    - destruct (N.eqb_spec (sum_N fs) 0) as [He|He]; op_inv; unfold sum_coinbase; cbn; [by rewrite He|].
      unfold amount_checked_add. cbn. unfold output_get_value. cbn.
      by rewrite (proj2 (N.leb_le _ _)) by done. }
  done.
Qed.
End app.

(** ** Properties *)

(** C21 A block template that builds on the node's tip is a block that the node
    accepts: the state prevalidates it, with the fees that the template reports,
    and its coinbase pays out exactly these fees. The size of the body is a
    hypothesis, because the template is limited in its number of transactions
    and not in its size. *)
Theorem block_template_accepted `{Externals} `{WorkExternals} `{WalletExternals}
    (get_block_infos : MainBlockHash -> u32 -> option (list (BlockHeaderInfo * BlockInfo)))
    (requests : nat) (a a' : App) (fee : option Amount) (prev_main_hash : MainBlockHash)
    (t : BlockTemplate) :
  batch_verify_spec -> borsh_outpoint_spec ->
  pool_wf (nd_mempool (app_node a)) -> utxo_value (st_utxos (nd_state (app_node a))) <= AMOUNT_MAX ->
  build_block_template get_block_infos requests fee prev_main_hash a = (Ok t, a') ->
  hd_prev_side_hash (tpl_header t) = st_tip (nd_state (app_node a)) ->
  borsh_body_length (tpl_body t) <= MAX_SIZE ->
  exists pv, prevalidate (nd_state (app_node a)) (tpl_header t) (tpl_body t) = Ok pv /\
    pv_total_fees pv = tpl_fees t /\ pv_coinbase_value pv = tpl_fees t.
Proof.
  intros Hbatch Hinj Hpool Hmax Hb Htip Hsize. unfold build_block_template in Hb. op_inv.
  cbn in *. injection Ho as <-.
  pose proof (template_parent_same get_block_infos requests _ _ prev_main_hash a (conj eq_refl eq_refl)) as [Hs Hm].
  rewrite Ho0 in Hs, Hm. cbn in Hs, Hm. rewrite <-Hs, <-Hm in *.
  case_bool_decide as Hp.
  - destruct (full_template_Ok _ _ _ _ _ _ _ _ _ Hbatch Hinj Hpool Hmax Ho1) as [_ Hpv]. by apply Hpv.
  - unfold empty_template in Ho1. op_inv. injection Ho1 as -> -> -> ->.
    cbn in Htip. unfold try_get_tip in Hp. congruence.
Qed.
