(* ===== verification/WalletSamples.v ===== *)
(** * A sample wallet

    A concrete instance of the third-party code of the wallet, a wallet and a
    state that holds its coins, and the theorems on the wallet and the
    application evaluated on them. *)

From S2P Require Import Prelude Types Transaction Sample Authorization BitNames State Merkle Block.
From S2P Require Import Mempool SideTips Lineage Archive ArchiveSamples MainchainTask Node NodeTask NodePool.
From S2P Require Import Wallet WalletCoins WalletSpend WalletNames App AppWallet AppTemplate.

Module WalletSamples.
#[local] Existing Instance Sample.externals.

Definition key_le {A} (key : A -> N) (a b : A) : Prop := key a <= key b.
#[export] Instance key_le_dec {A} (key : A -> N) : RelDecision (key_le key).
Proof. intros a b. unfold key_le. apply _. Defined.
#[export] Instance key_le_total {A} (key : A -> N) : Total (key_le key).
Proof. intros a b. unfold key_le. lia. Qed.
#[export] Instance key_le_trans {A} (key : A -> N) : Transitive (key_le key).
Proof. intros a b c. unfold key_le. lia. Qed.

(** A master secret is usable when its first byte is odd. *)
#[export] Instance wallet_externals : WalletExternals := {|
  sha256 b := [Sample.hash b];
  from_nonextended_noforce secret chain_code :=
    if N.odd (default 0 (head secret)) then Some (Sample.hash (secret ++ chain_code)) else None;
  xprv_derive x i := Sample.hash [x; i];
  xprv_public x := x;
  extended_secret_key_bytes x := [x];
  from_bytes_mod_order := Sample.hash;
  signing_key_from_scalar n := Some n;
  signing_key_to_scalar_bytes sk := [sk];
  static_secret_from := Sample.hash;
  encryption_pubkey_of s := s;
  bip39_seed s := Some (string_bytes s);
  ecies_decrypt _ b := Some b;
  par_sort_unstable_by_key A key l := merge_sort (key_le key) l;
  hashmap_iter V m := map_to_list m;
|}.

Lemma par_sort : par_sort_spec.
Proof.
  intros A key l. split; [apply merge_sort_Permutation|]. exact (StronglySorted_merge_sort (key_le key) l).
Qed.
Lemma hashmap : hashmap_iter_spec.
Proof. by intros V m. Qed.

(** The wallet of a seed, with two addresses *)
Definition seeded : Wallet := (set_seed [1; 2; 3] wallet_new).2.
Definition one : Wallet := (get_new_address seeded).2.
Definition two : Wallet := (get_new_address one).2.
Definition addr (i : u32) : Address := default 0 (w_index_to_address two !! i).

(** A reservation of a name, made before the state below *)
Definition reserved : result WalletError Transaction * Wallet :=
  reserve_bitname (tx_new [] [output_new (addr 1) (Content_Bitcoin 5)]) "name" two.
Definition reservation : Transaction :=
  match reserved with (Ok tx, _) => tx | _ => tx_new [] [] end.

(** A state with three coins of the wallet, one of another key and the reservation *)
Definition state : State :=
  set_utxos (list_to_map
    [(OutPoint_Regular 1 0, mkFilledOutput (addr 0) (Filled_Bitcoin 1000) []);
     (OutPoint_Regular 2 0, mkFilledOutput (addr 1) (Filled_Bitcoin 300) []);
     (OutPoint_Regular 3 0, mkFilledOutput (addr 1) (Filled_Bitcoin 40) []);
     (OutPoint_Regular 4 0, mkFilledOutput 7 (Filled_Bitcoin 900) []);
     (OutPoint_Regular 5 1, mkFilledOutput (addr 1)
        (Filled_BitNameReservation 5 (default 0 (reservation_commitment reservation))) [])])
    empty_state.
Definition db : NodeDb := mkNodeDb state archive_new empty_pool.
Definition wallet : Wallet := update_wallet db reserved.2.

Lemma wallet_reached : wallet_reachable wallet.
Proof.
  apply reach_update. unfold reserved. apply reach_reserve, reach_new_address, reach_new_address, reach_set_seed.
  constructor.
Qed.
Lemma wallet_is_wf : wallet_wf wallet.
Proof. apply wallet_reachable_wf, wallet_reached. Qed.
Lemma in_state : w_utxos wallet ⊆ st_utxos state.
Proof. apply (bool_decide_unpack _). vm_compute. exact I. Qed.

Definition ok_op {S E A} (r : result E A * S) : bool := is_ok r.1.
Lemma ok_op_Ok {S E A} (r : result E A * S) : ok_op r = true -> exists a w, r = (Ok a, w).
Proof. destruct r as [[a| |] w]; [eauto|done|done]. Qed.

Definition rngs : nat -> N := N.of_nat.
Definition name_data : MutableBitNameData := mkMutableBitNameData None None None None None None.
Definition transfer : WalletRequest := Request_Transfer 7 310 20 None.

(** The node of a pool with a transaction that pays a fee *)
Definition app : App := mkApp NodePoolSamples.db two ∅.
Definition no_infos (_ : MainBlockHash) (_ : u32) : option (list (BlockHeaderInfo * BlockInfo)) := None.
End WalletSamples.
Import WalletSamples.
#[local] Existing Instance Sample.externals.

Lemma select_coins_smallest_first_witness :
  exists total selected, select_coins wallet 320 = Ok (total, selected) /\ 320 <= total /\
    selected ⊆ spendable wallet.
Proof.
  pose proof (select_coins_smallest_first wallet 320 par_sort) as Hs.
  assert (is_ok (select_coins wallet 320) = true) as Hok by (vm_compute; reflexivity).
  apply is_ok_Ok in Hok as [[total selected] He].
  rewrite He in Hs. exists total, selected. destruct Hs as (_ & Hle & Hsub & _). auto.
Defined.

Lemma wallet_transactions_accepted_witness :
  exists tx w' atx, run_request transfer wallet = (Ok tx, w') /\
    wallet_authorize w' rngs tx = Ok atx /\ validate_transaction state atx = Ok 20.
Proof.
  assert (ok_op (run_request transfer wallet) = true) as Hok by (vm_compute; reflexivity).
  apply ok_op_Ok in Hok as (tx & w' & Hr).
  destruct (wallet_transactions_accepted state wallet w' transfer tx rngs par_sort hashmap
    Sample.batch_verify Sample.sign_verifies wallet_is_wf in_state Hr) as (_ & atx & Ha & _ & Hv).
  exists tx, w', atx. auto.
Defined.

Lemma reserve_then_register_witness :
  exists tx2 w3 tx3 w4, create_regular_transaction 50 wallet = (Ok tx2, w3) /\
    register_bitname tx2 "name" name_data w3 = (Ok tx3, w4) /\
    exists atx, wallet_authorize w4 rngs tx3 = Ok atx /\ validate_transaction state atx = Ok 50.
Proof.
  assert (ok_op (create_regular_transaction 50 wallet) = true) as Hok by (vm_compute; reflexivity).
  apply ok_op_Ok in Hok as (tx2 & w3 & Hr).
  destruct (reserve_then_register two reserved.2 wallet w3
    (tx_new [] [output_new (addr 1) (Content_Bitcoin 5)]) reservation tx2 "name" name_data 50
    (OutPoint_Regular 5 1) (mkFilledOutput (addr 1)
        (Filled_BitNameReservation 5 (default 0 (reservation_commitment reservation))) []) rngs
    par_sort hashmap Sample.batch_verify Sample.sign_verifies) as (tx3 & w4 & Hreg & _ & Hacc).
  - vm_compute. reflexivity.
  - exact wallet_is_wf.
  - vm_compute. reflexivity.
  - vm_compute. reflexivity.
  - vm_compute. reflexivity.
  - exact Hr.
  - clear -Hr. vm_compute in Hr. injection Hr as _ <-. vm_compute. reflexivity.
  - clear -Hr. vm_compute in Hr. injection Hr as _ <-. apply (bool_decide_unpack _). vm_compute. exact I.
  - exists tx2, w3, tx3, w4. split; [exact Hr|]. split; [exact Hreg|].
    destruct (Hacc state in_state ltac:(vm_compute; reflexivity)) as (atx & Ha & _ & Hv). eauto.
Defined.

Lemma block_template_accepted_witness :
  exists t a' pv, @build_block_template _ ArchiveSamples.work_externals _ no_infos 0 None 9 app = (Ok t, a') /\
    prevalidate (nd_state (app_node app)) (tpl_header t) (tpl_body t) = Ok pv /\ pv_total_fees pv = tpl_fees t.
Proof.
  assert (ok_op (@build_block_template _ ArchiveSamples.work_externals _ no_infos 0 None 9 app) = true)
    as Hok by (vm_compute; reflexivity).
  apply ok_op_Ok in Hok as (t & a' & Hb).
  destruct (@block_template_accepted _ ArchiveSamples.work_externals _ no_infos 0 app a' None 9 t
    Sample.batch_verify Sample.borsh_outpoint_inj NodePoolSamples.pool_ok
    ltac:(vm_compute; discriminate) Hb) as (pv & Hp & Hf & _).
  - clear -Hb. vm_compute in Hb. injection Hb as <- _. vm_compute. reflexivity.
  - clear -Hb. vm_compute in Hb. injection Hb as <- _. vm_compute. discriminate.
  - exists t, a', pv. auto.
Defined.

Lemma update_wallet_exact_witness :
  w_utxos (update_wallet db two) = get_utxos_by_addresses state (get_addresses two).
Proof.
  apply (update_wallet_exact db two hashmap).
  - apply wallet_reachable_wf, reach_new_address, reach_new_address, reach_set_seed. constructor.
  - intros o _. vm_compute. reflexivity.
  - intros o out Ho. vm_compute in Ho. destruct o; discriminate Ho.
Defined.

Lemma update_wallet_keeps_orphans_witness :
  is_Some (w_utxos (update_wallet (mkNodeDb empty_state archive_new empty_pool) wallet)
             !! OutPoint_Regular 1 0).
Proof.
  eexists. refine (proj1 (update_wallet_keeps_orphans (mkNodeDb empty_state archive_new empty_pool)
    wallet (OutPoint_Regular 1 0) (mkFilledOutput (addr 0) (Filled_Bitcoin 1000) [])
    (mkAuthorizedTransaction (tx_new [OutPoint_Regular 1 0] []) []) hashmap _ _ _));
    vm_compute; reflexivity.
Defined.

Lemma wallet_keys_consistent_witness :
  exists sk, get_tx_signing_key_for_addr wallet (addr 0) = Ok sk /\ address_of_signing_key sk = addr 0.
Proof.
  apply (proj1 (wallet_keys_consistent wallet wallet_reached) (addr 0) 0). vm_compute. reflexivity.
Defined.

Lemma overwrite_seed_stale_keys_witness :
  exists epk w, get_new_encryption_key seeded = (Ok epk, w) /\
    decrypt_msg (overwrite_seed [9] w).2 epk [] = Panic.
Proof.
  assert (ok_op (get_new_encryption_key seeded) = true) as Hok by (vm_compute; reflexivity).
  apply ok_op_Ok in Hok as (epk & w & He).
  exists epk, w. split; [exact He|].
  destruct (is_ok_Ok (get_encryption_secret (overwrite_seed [9] w).2 0)) as [secret Hs].
  { clear -He. vm_compute in He. injection He as _ <-. vm_compute. reflexivity. }
  apply (overwrite_seed_stale_keys w [9] epk 0 secret []).
  - clear -He. vm_compute in He. injection He as <- <-. vm_compute. reflexivity.
  - exact Hs.
  - clear -He Hs. vm_compute in He. injection He as <- <-. vm_compute in Hs. injection Hs as <-. discriminate.
Defined.
