(* ===== verification/PeerMessage.v ===== *)
(** * Messages between peers

    [src/lib/net/peer/message.rs], the data of [src/lib/net/peer/mod.rs], and the queue of
    requests of [src/lib/net/peer/request_queue.rs]: what peers send each other, how a message
    is framed, how much of an answer is read, and which requests are sent once only. *)

From S2P Require Import Prelude Types Transaction Merkle SideTips Lineage Archive.

Notation PeerStateId := Hash (only parsing).

#[export] Instance Tip_countable : Countable Tip.
Proof.
  apply (inj_countable' (fun t => (tip_block_hash t, tip_main_block_hash t)) (fun '(b, m) => mkTip b m)).
  by intros [].
Defined.

(** ** Networks *)

Inductive Network : Type := Betanet | Forknet | Regtest | Signet.
#[export] Instance Network_eq_dec : EqDecision Network.
Proof. solve_decision. Defined.

Definition network_identifier (network : Network) : N :=
  match network with
  | Regtest => 0
  | Signet => 1
  | Forknet => 2
  | Betanet => 4
  end.
(** The four bytes before every message; the network is in the last bits of the last one. *)
Definition MAGIC_BYTES_LEN : nat := 4.
Definition magic_bytes (network : Network) : bytes :=
  [0xcc; 0x19; 0xc2; N.lor 0x80 (network_identifier network)].
(** The bytes that a node uses: those of its configuration, or of its network ([Net::new]) *)
Definition network_magic (magic_bytes_override : option bytes) (network : Network) : bytes :=
  default (magic_bytes network) magic_bytes_override.

(** ** Peer states and messages *)

Record Version : Type := mkVersion {
  ver_major : u64;
  ver_minor : u64;
  ver_patch : u64;
}.
#[export] Instance Version_eq_dec : EqDecision Version.
Proof. solve_decision. Defined.

(** The tip that a peer announces *)
Record TipInfo : Type := mkTipInfo {
  ti_block_height : u32;
  ti_tip : Tip;
  ti_total_work : Work;
}.
#[export] Instance TipInfo_eq_dec : EqDecision TipInfo.
Proof. solve_decision. Defined.

Record PeerState : Type := mkPeerState {
  ps_tip_info : option TipInfo;
  ps_version : Version;
}.
#[export] Instance PeerState_eq_dec : EqDecision PeerState.
Proof. solve_decision. Defined.

(** [#[borsh(skip)]] and [#[serde(skip)]] fields are for the requester only. *)
Record GetBlockRequest : Type := mkGetBlockRequest {
  gb_block_hash : BlockHash;
  gb_descendant_tip : option Tip;
  gb_ancestor : option BlockHash;
  gb_peer_state_id : option PeerStateId;
}.
Record GetHeadersRequest : Type := mkGetHeadersRequest {
  gh_start : gset BlockHash;
  gh_end : BlockHash;
  gh_height : option u32;
  gh_peer_state_id : option PeerStateId;
}.
Inductive Request : Type :=
| Request_GetBlock (request : GetBlockRequest)
| Request_GetHeaders (request : GetHeadersRequest)
| Request_PushTransaction (transaction : AuthorizedTransaction).
Inductive RequestMessage : Type :=
| Message_Heartbeat (peer_state : PeerState)
| Message_Request (request : Request).
Inductive ResponseMessage : Type :=
| Response_Block (header : Header) (body : Body)
| Response_Headers (headers : list Header)
| Response_NoBlock (block_hash : BlockHash)
| Response_NoHeader (block_hash : BlockHash)
| Response_TransactionAccepted (txid : Txid)
| Response_TransactionRejected (txid : Txid).

(** What is hashed of a request *)
Inductive WireRequest : Type :=
| Wire_GetBlock (block_hash : BlockHash)
| Wire_GetHeaders (start : gset BlockHash) (end_ : BlockHash)
| Wire_PushTransaction (transaction : AuthorizedTransaction).
Definition to_wire (request : Request) : WireRequest :=
  match request with
  | Request_GetBlock request => Wire_GetBlock (gb_block_hash request)
  | Request_GetHeaders request => Wire_GetHeaders (gh_start request) (gh_end request)
  | Request_PushTransaction transaction => Wire_PushTransaction transaction
  end.

(** ** Third-party code *)

(** [bincode] for the values of a type: what is written, and a reader that also returns what it did not read *)
Record Bincode (A : Type) : Type := mkBincode {
  bin_write : A -> bytes;
  bin_read : bytes -> option (A * bytes);
}.
Arguments bin_write {A} _ _.
Arguments bin_read {A} _ _.
Definition bincode_ok {A} (c : Bincode A) : Prop := forall x rest, bin_read c (bin_write c x ++ rest) = Some (x, rest).

Class NetExternals : Type := {
  (** [env!(CARGO_PKG_VERSION)] *)
  VERSION : Version;
  borsh_peer_state : PeerState -> bytes;
  borsh_request : WireRequest -> bytes;
  (** The index of a variant, which [serde] counts in the order of declaration, and the fields of the messages *)
  bincode_variant : Bincode u32;
  bincode_peer_state : Bincode PeerState;
  bincode_block_hash : Bincode BlockHash;
  bincode_block_hashes : Bincode (gset BlockHash);
  bincode_transaction : Bincode AuthorizedTransaction;
  bincode_response : ResponseMessage -> bytes;
  bincode_deserialize_response : bytes -> option ResponseMessage;
  (** The order in which a [HashMap] or a [HashSet] is iterated, which is not specified *)
  map_iter : forall {K V : Type} `{Countable K}, gmap K V -> list (K * V);
  set_iter : forall {K : Type} `{Countable K}, gset K -> list K;
}.
(** Documented: what was serialized is deserialized, whatever follows it; an iteration visits every entry once. *)
Record bincode_message_spec `{NetExternals} : Prop := {
  bm_variant : bincode_ok bincode_variant;
  bm_peer_state : bincode_ok bincode_peer_state;
  bm_block_hash : bincode_ok bincode_block_hash;
  bm_block_hashes : bincode_ok bincode_block_hashes;
  bm_transaction : bincode_ok bincode_transaction;
  bm_response r : bincode_deserialize_response (bincode_response r) = Some r;
}.
Definition iter_spec `{NetExternals} : Prop :=
  (forall (K V : Type) (HK : EqDecision K) (HC : Countable K) (m : gmap K V), map_iter m ≡ₚ map_to_list m) /\
  (forall (K : Type) (HK : EqDecision K) (HC : Countable K) (s : gset K), set_iter s ≡ₚ elements s).

(** ** Serialization of requests

    The two sides are written by hand, each with an enumeration of its own: [Repr] of [RequestMessageRef::serialize], here
    [SerRepr], and [Repr] of [RequestMessage::deserialize], here [DeRepr]. *)

Inductive SerRepr : Type :=
| Ser_Heartbeat (heartbeat : PeerState)
| Ser_GetBlock (request : GetBlockRequest)
| Ser_GetHeaders (request : GetHeadersRequest)
| Ser_PushTransaction (transaction : AuthorizedTransaction).
Definition ser_repr (msg : RequestMessage) : SerRepr :=
  match msg with
  | Message_Heartbeat heartbeat => Ser_Heartbeat heartbeat
  | Message_Request request =>
      match request with
      | Request_GetBlock request => Ser_GetBlock request
      | Request_GetHeaders request => Ser_GetHeaders request
      | Request_PushTransaction transaction => Ser_PushTransaction transaction
      end
  end.

Inductive DeRepr : Type :=
| De_Heartbeat (heartbeat : PeerState)
| De_GetBlock (request : GetBlockRequest)
| De_GetHeaders (request : GetHeadersRequest)
| De_PushTransaction (transaction : AuthorizedTransaction).
Definition of_repr (repr : DeRepr) : RequestMessage :=
  match repr with
  | De_Heartbeat heartbeat => Message_Heartbeat heartbeat
  | De_GetBlock request => Message_Request (Request_GetBlock request)
  | De_GetHeaders request => Message_Request (Request_GetHeaders request)
  | De_PushTransaction transaction => Message_Request (Request_PushTransaction transaction)
  end.

Section serialization.
Context `{NetExternals}.

(** [#[derive(Serialize)]]: the index of the variant, then the fields that are not skipped *)
Definition write_repr (repr : SerRepr) : bytes :=
  match repr with
  | Ser_Heartbeat heartbeat => bin_write bincode_variant 0 ++ bin_write bincode_peer_state heartbeat
  | Ser_GetBlock request => bin_write bincode_variant 1 ++ bin_write bincode_block_hash (gb_block_hash request)
  | Ser_GetHeaders request =>
      bin_write bincode_variant 2 ++ bin_write bincode_block_hashes (gh_start request) ++
      bin_write bincode_block_hash (gh_end request)
  | Ser_PushTransaction transaction => bin_write bincode_variant 3 ++ bin_write bincode_transaction transaction
  end.
(** [#[derive(Deserialize)]]: a skipped field is read as its default. [bincode::deserialize] allows bytes after the value. *)
Definition read_repr (b : bytes) : option DeRepr :=
  '(index, b) ← bin_read bincode_variant b;
  match index with
  | 0 => '(heartbeat, _) ← bin_read bincode_peer_state b; Some (De_Heartbeat heartbeat)
  | 1 => '(block_hash, _) ← bin_read bincode_block_hash b;
         Some (De_GetBlock (mkGetBlockRequest block_hash None None None))
  | 2 => '(start, b) ← bin_read bincode_block_hashes b;
         '(end_, _) ← bin_read bincode_block_hash b;
         Some (De_GetHeaders (mkGetHeadersRequest start end_ None None))
  | 3 => '(transaction, _) ← bin_read bincode_transaction b; Some (De_PushTransaction transaction)
  | _ => None
  end.
Definition serialize_message (msg : RequestMessage) : bytes := write_repr (ser_repr msg).
Definition deserialize_message (b : bytes) : option RequestMessage := of_repr <$> read_repr b.
End serialization.

(** ** Limits *)

(** [GetHeadersRequest::read_response_limit] expects the height; [usize] has 64 bits. *)
Definition READ_HEADER_LIMIT : N := 2048.
Definition read_response_limit {E} (request : Request) : result E N :=
  match request with
  | Request_GetBlock _ => Ok (10 * 1024 * 1024)
  | Request_GetHeaders request =>
      height ← expect (gh_height request);
      let limit := (height + 1) * READ_HEADER_LIMIT in
      _ ← assert_ (limit <? 2 ^ 64);
      Ok limit
  | Request_PushTransaction _ => Ok 256
  end.

(** Seconds *)
Definition HEARTBEAT_SEND_INTERVAL : N := 1.
Definition HEARTBEAT_TIMEOUT_INTERVAL : N := 5.
Definition MIN_READ_RESPONSE_TIMEOUT : N := 5.
Definition MIN_READ_RESPONSE_THROUGHPUT : N := 64 * 1024.
Definition response_read_timeout (read_response_limit : N) : N :=
  N.min (MIN_READ_RESPONSE_TIMEOUT + read_response_limit / MIN_READ_RESPONSE_THROUGHPUT) (2 ^ 64 - 1).

(** Tokens per second of the rate limiter, and the tokens that a request takes *)
Definition REQUEST_QUOTA : N := 50000.
Definition request_cost (request : Request) : N :=
  match request with
  | Request_GetBlock _ => 1000
  | Request_GetHeaders _ => 10000
  | Request_PushTransaction _ => 10
  end.

(** ** Framing *)

(** What is distinguished of [quinn::ConnectionError] *)
Inductive QuinnConnectionError : Type :=
| Quinn_ApplicationClosed (error_code : N) (reason : bytes)
| Quinn_TimedOut
| Quinn_OtherConnectionError.
(** [source]: the QUIC error that a read failed with, if it did *)
Inductive ReceiveError : Type :=
| Receive_BadMagic (magic : bytes)
| Receive_Bincode
| Receive_Connection (e : QuinnConnectionError)
| Receive_ReadMagic (source : option QuinnConnectionError)
| Receive_ReadToEnd (source : option QuinnConnectionError)
| Receive_Timeout.

Definition READ_REQUEST_LIMIT : N := 100 * 1024.

(** [read_exact] of the magic bytes, then [read_to_end(limit)], of what the peer wrote *)
Definition read_framed (expected_magic_bytes stream : bytes) (limit : N) : result ReceiveError bytes :=
  _ ← ensure (N.of_nat MAGIC_BYTES_LEN <=? N.of_nat (length stream)) (Receive_ReadMagic None);
  let magic := take MAGIC_BYTES_LEN stream in
  _ ← ensure (bool_decide (magic = expected_magic_bytes)) (Receive_BadMagic magic);
  let msg_bytes := drop MAGIC_BYTES_LEN stream in
  _ ← ensure (N.of_nat (length msg_bytes) <=? limit) (Receive_ReadToEnd None);
  Ok msg_bytes.

Section framing.
Context `{NetExternals}.

(** [message_buf] of [send_heartbeat] and [send_request]; that of [send_response] *)
Definition frame_message (magic : bytes) (msg : RequestMessage) : bytes :=
  magic ++ serialize_message msg.
Definition frame_response (magic : bytes) (response : ResponseMessage) : bytes :=
  magic ++ bincode_response response.

Definition receive_request (magic stream : bytes) : result ReceiveError RequestMessage :=
  msg_bytes ← read_framed magic stream READ_REQUEST_LIMIT;
  ok_or (deserialize_message msg_bytes) Receive_Bincode.
Definition receive_response (magic stream : bytes) (limit : N) : result ReceiveError ResponseMessage :=
  response_bytes ← read_framed magic stream limit;
  ok_or (bincode_deserialize_response response_bytes) Receive_Bincode.
End framing.

(** ** Identifiers *)

Section ids.
Context `{Externals} `{NetExternals}.

(** [PeerStateId::from] *)
Definition peer_state_id (peer_state : PeerState) : PeerStateId := blake3_hash (borsh_peer_state peer_state).
(** [hash(&request)] *)
Definition request_hash (request : Request) : Hash := blake3_hash (borsh_request (to_wire request)).
End ids.

(** ** Properties *)

Lemma magic_bytes_length network : length (magic_bytes network) = MAGIC_BYTES_LEN.
Proof. done. Qed.
Lemma magic_bytes_inj n n' : magic_bytes n = magic_bytes n' -> n = n'.
Proof. by destruct n, n'. Qed.

Lemma read_framed_own magic payload limit :
  length magic = MAGIC_BYTES_LEN -> N.of_nat (length payload) <= limit ->
  read_framed magic (magic ++ payload) limit = Ok payload.
Proof.
  intros Hm Hl. unfold read_framed. rewrite take_app_length', drop_app_length' by done.
  rewrite length_app, bool_decide_true by done. rewrite !(proj2 (N.leb_le _ _)) by lia. done.
Qed.
Lemma read_framed_other magic magic' payload limit :
  length magic' = MAGIC_BYTES_LEN -> magic' <> magic ->
  read_framed magic (magic' ++ payload) limit = Err (Receive_BadMagic magic').
Proof.
  intros Hm Hne. unfold read_framed. rewrite take_app_length' by done.
  rewrite length_app, bool_decide_false by done.
  by rewrite (proj2 (N.leb_le (N.of_nat MAGIC_BYTES_LEN) _)) by lia.
Qed.

(** A request as the other side sees it: without the fields that only the requester uses *)
Definition as_received (msg : RequestMessage) : RequestMessage :=
  match msg with
  | Message_Request (Request_GetBlock request) =>
      Message_Request (Request_GetBlock (mkGetBlockRequest (gb_block_hash request) None None None))
  | Message_Request (Request_GetHeaders request) =>
      Message_Request (Request_GetHeaders (mkGetHeadersRequest (gh_start request) (gh_end request) None None))
  | _ => msg
  end.

(** The two sides agree: variants have one order, and fields are read in the order in which they were written. *)
Lemma deserialize_serialize `{NetExternals} (msg : RequestMessage) (rest : bytes) :
  bincode_message_spec -> deserialize_message (serialize_message msg ++ rest) = Some (as_received msg).
Proof.
  intros [Hv Hp Hb Hs Ht _]. unfold deserialize_message, serialize_message, read_repr.
  destruct msg as [heartbeat|[request|request|transaction]]; cbn [ser_repr write_repr];
    rewrite <-!app_assoc, Hv; cbn [mbind option_bind].
  - by rewrite Hp.
  - by rewrite Hb.
  - rewrite Hs. cbn [mbind option_bind]. by rewrite Hb.
  - by rewrite Ht.
Qed.

(** C38 A request whose encoding is within [READ_REQUEST_LIMIT], and an answer within the limit of its reader,
    arrive as they were sent, but for the fields of a request that only the requester uses, when both nodes use
    the same magic bytes; a node with other magic bytes refuses them. The variants that the hand-written
    serializer and deserializer number, each in its own enumeration, agree for every message. The magic bytes
    are those of the configuration where it has some, of the length of magic bytes, and two different networks
    without them have different ones. Assumed of [bincode]: each field, and the number of a variant, can be read
    back from the front of the bytes, and an answer, whose one enumeration derives both directions, can be
    decoded. *)
Theorem messages_roundtrip `{NetExternals} (magic_override other_override : option bytes) (network other : Network)
    (msg : RequestMessage) (response : ResponseMessage) (limit : N) :
  let magic := network_magic magic_override network in
  let other_magic := network_magic other_override other in
  bincode_message_spec ->
  (forall m, magic_override = Some m -> length m = MAGIC_BYTES_LEN) ->
  N.of_nat (length (serialize_message msg)) <= READ_REQUEST_LIMIT ->
  N.of_nat (length (bincode_response response)) <= limit ->
  receive_request magic (frame_message magic msg) = Ok (as_received msg) /\
  receive_response magic (frame_response magic response) limit = Ok response /\
  (other_magic <> magic ->
    receive_request other_magic (frame_message magic msg) = Err (Receive_BadMagic magic) /\
    receive_response other_magic (frame_response magic response) limit = Err (Receive_BadMagic magic)) /\
  (magic_override = None -> other_override = None -> other <> network -> other_magic <> magic).
Proof.
  intros magic other_magic Hspec Hover Hlm Hlr. unfold receive_request, receive_response, frame_message, frame_response.
  assert (length magic = MAGIC_BYTES_LEN) as Hlen.
  { subst magic. destruct magic_override as [m|]; [by apply Hover|done]. }
  rewrite !read_framed_own by done. cbn [mbind result_bind].
  rewrite <-(app_nil_r (serialize_message msg)) at 1. rewrite deserialize_serialize, bm_response by done.
  split_and!; [done|done| |].
  - intros Hne. by rewrite !read_framed_other by done.
  - intros -> -> Hne ?%magic_bytes_inj. congruence.
Qed.
