(* ===== verification/PeerTask.v ===== *)
(** * The task of a peer connection

    [src/lib/net/peer/task.rs] and [send_request] of [src/lib/net/peer/request_queue.rs]: the tip
    that a peer announces is compared with the node's own, headers and bodies that are missing
    are requested, and the peer's own requests are answered. Channels have unbounded queues whose
    other end is open while the task runs. A task that reads the databases in several read
    transactions reads one value of them here. *)

From S2P Require Import Prelude Types Transaction Authorization State Merkle SideTips Lineage.
From S2P Require Import Archive ArchiveBodies ArchiveIter BetterTip Mempool Node NodeTask PeerMessage.

(** ** State of a connection *)

Inductive BanReason : Type :=
| Ban_BmmVerificationFailed (tip : Tip)
| Ban_IncorrectTotalWork (tip : Tip) (total_work : Work).

(** [blocking_task::TaskError] *)
Inductive TaskError : Type :=
| Task_Archive (e : ArchiveError)
| Task_PeerBan (reason : BanReason).

(** [Conn_Send]: a heartbeat, a request or a response could not be sent, with the QUIC error at
    the end of its sources, if there is one *)
Inductive ConnectionError : Type :=
| Conn_Archive (e : ArchiveError)
| Conn_BlockingTask (e : TaskError)
| Conn_Connection (e : QuinnConnectionError)
| Conn_ForwardResponse (e : ArchiveError)
| Conn_HeartbeatTimeout
| Conn_MissingPeerState (id : PeerStateId)
| Conn_ReceiveRequest (e : ReceiveError)
| Conn_ReceiveResponse (e : ReceiveError)
| Conn_Send (source : option QuinnConnectionError)
| Conn_State (e : Error).

(** What a connection tells the net task *)
Inductive Info : Type :=
| Info_Connected
| Info_Error (e : ConnectionError)
| Info_NeedMainchainAncestors (main_hash : MainBlockHash) (id : PeerStateId)
| Info_NewTipReady (tip : Tip)
| Info_NewTransaction (tx : AuthorizedTransaction)
| Info_Response (response : ResponseMessage) (request : Request).

(** What the net task tells a connection; [false]: the mainchain block was not found *)
Inductive InternalMessage : Type :=
| Internal_BmmVerification (res : bool) (id : PeerStateId)
| Internal_BmmVerificationError
| Internal_ForwardRequest (request : Request)
| Internal_MainchainAncestors (id : PeerStateId)
| Internal_MainchainAncestorsError
| Internal_Headers (id : PeerStateId)
| Internal_BodiesAvailable (id : PeerStateId).

(** The variables of the task and its queues, oldest entry first. A task of the blocking queue is
    a call of [handle_peer_state]; one of the forward queue answers a request for headers. *)
Record PeerConn : Type := mkPeerConn {
  pc_peer_state : option PeerStateId;
  pc_peer_states : gmap PeerStateId PeerState;
  pc_request_hashes : gset Hash;
  pc_requests : list Request;
  pc_heartbeats : list PeerState;
  pc_infos : list Info;
  pc_blocking_tasks : list PeerState;
  pc_forward_tasks : list (gset BlockHash * BlockHash);
  pc_responses : list ResponseMessage;
}.

Definition set_peer_state id (c : PeerConn) : PeerConn :=
  mkPeerConn (Some id) (pc_peer_states c) (pc_request_hashes c) (pc_requests c) (pc_heartbeats c)
    (pc_infos c) (pc_blocking_tasks c) (pc_forward_tasks c) (pc_responses c).
Definition put_peer_state id state (c : PeerConn) : PeerConn :=
  mkPeerConn (pc_peer_state c) (<[id := state]> (pc_peer_states c)) (pc_request_hashes c)
    (pc_requests c) (pc_heartbeats c) (pc_infos c) (pc_blocking_tasks c) (pc_forward_tasks c)
    (pc_responses c).
Definition push_request hashes request (c : PeerConn) : PeerConn :=
  mkPeerConn (pc_peer_state c) (pc_peer_states c) hashes (pc_requests c ++ [request])
    (pc_heartbeats c) (pc_infos c) (pc_blocking_tasks c) (pc_forward_tasks c) (pc_responses c).
Definition push_heartbeat state (c : PeerConn) : PeerConn :=
  mkPeerConn (pc_peer_state c) (pc_peer_states c) (pc_request_hashes c) (pc_requests c)
    (pc_heartbeats c ++ [state]) (pc_infos c) (pc_blocking_tasks c) (pc_forward_tasks c)
    (pc_responses c).
Definition push_info info (c : PeerConn) : PeerConn :=
  mkPeerConn (pc_peer_state c) (pc_peer_states c) (pc_request_hashes c) (pc_requests c)
    (pc_heartbeats c) (pc_infos c ++ [info]) (pc_blocking_tasks c) (pc_forward_tasks c)
    (pc_responses c).
Definition set_blocking_tasks tasks (c : PeerConn) : PeerConn :=
  mkPeerConn (pc_peer_state c) (pc_peer_states c) (pc_request_hashes c) (pc_requests c)
    (pc_heartbeats c) (pc_infos c) tasks (pc_forward_tasks c) (pc_responses c).
Definition set_forward_tasks tasks (c : PeerConn) : PeerConn :=
  mkPeerConn (pc_peer_state c) (pc_peer_states c) (pc_request_hashes c) (pc_requests c)
    (pc_heartbeats c) (pc_infos c) (pc_blocking_tasks c) tasks (pc_responses c).
Definition push_response response (c : PeerConn) : PeerConn :=
  mkPeerConn (pc_peer_state c) (pc_peer_states c) (pc_request_hashes c) (pc_requests c)
    (pc_heartbeats c) (pc_infos c) (pc_blocking_tasks c) (pc_forward_tasks c)
    (pc_responses c ++ [response]).

(** The start of [run] *)
Definition peer_conn_new : PeerConn :=
  mkPeerConn None ∅ ∅ [] [] [Info_Connected] [] [] [].

Section task.
Context `{Externals} `{NetExternals}.
Implicit Types (db : NodeDb) (a : Archive) (c : PeerConn).

(** ** The queue of requests *)

Definition send_request {E} (request : Request) : op PeerConn E bool := fun c =>
  match request with
  | Request_PushTransaction _ => (Ok true, push_request (pc_request_hashes c) request c)
  | _ =>
      let hash := request_hash request in
      if bool_decide (hash ∈ pc_request_hashes c) then (Ok false, c)
      else (Ok true, push_request ({[hash]} ∪ pc_request_hashes c) request c)
  end.

(** ** Comparing the peer's tip *)

(** The first block of [check_peer_tip_and_request_headers]: the mainchain block of the peer's
    tip is an ancestor of the mainchain tip *)
Definition peer_tip_on_mainchain a (peer_tip_info : TipInfo) : result ArchiveError bool :=
  let main_block_hash := tip_main_block_hash (ti_tip peer_tip_info) in
  match ar_main_header_infos a !! main_block_hash with
  | None => Ok false
  | Some _ =>
      match mct_tip_info (sd_mainchain_tip (ar_side_tips a)) with
      | None => Ok false
      | Some side_tips_tip_info =>
          is_main_descendant a main_block_hash (bhi_block_hash side_tips_tip_info)
      end
  end.

(** [HashSet::from_iter(get_block_locator(..))], empty without a tip *)
Definition locator a (tip_info : option TipInfo) : result ArchiveError (gset BlockHash) :=
  match tip_info with
  | Some tip_info => list_to_set <$> get_block_locator a (tip_block_hash (ti_tip tip_info))
  | None => Ok ∅
  end.

(** [Request headers if necessary] *)
Definition request_headers a (tip_info : option TipInfo) (peer_tip_info : TipInfo) (id : PeerStateId)
  : op PeerConn TaskError bool :=
  let block_hash := tip_block_hash (ti_tip peer_tip_info) in
  match ar_headers a !! block_hash with
  | Some _ => mret true
  | None =>
      start ← lifted (map_err Task_Archive (locator a tip_info));
      _ ← send_request (Request_GetHeaders
            (mkGetHeadersRequest start block_hash (Some (ti_block_height peer_tip_info)) (Some id)));
      mret false
  end.

(** [tip_ancestor_height >= Some(peer_tip_info.block_height)] on options *)
Definition option_leb (x y : option N) : bool :=
  match option_compare x y with Gt => false | _ => true end.

(** The comparison of two tips at equal work and height, with headers at hand *)
Definition peer_tie a (tip_info peer_tip_info : TipInfo) : result ArchiveError bool :=
  let tip := ti_tip tip_info in
  let peer_tip := ti_tip peer_tip_info in
  main_ancestor ← last_common_main_ancestor a (tip_main_block_hash tip) (tip_main_block_hash peer_tip);
  main_ancestor_height ← get_main_height a main_ancestor;
  found ← find_ancestor a (ancestor_height_work_before a main_ancestor main_ancestor_height)
    (tip_block_hash tip) (default 0 (archive_try_get_height a (tip_block_hash tip)));
  peer_found ← find_ancestor a (ancestor_height_work_before a main_ancestor main_ancestor_height)
    (tip_block_hash peer_tip) (default 0 (archive_try_get_height a (tip_block_hash peer_tip)));
  Ok (match option_compare (snd <$> found) (snd <$> peer_found),
            option_compare (fst <$> found) (fst <$> peer_found) with
      | (Lt | Eq), Eq => false
      | _, Gt => false
      | Gt, Eq => true
      | _, Lt => true
      end).

(** [Some true]: the peer's tip is better and its headers are at hand; [Some false]: it may be
    better and its headers were requested; [None]: it is not better. *)
Definition check_peer_tip_and_request_headers a (tip_info : option TipInfo) (peer_tip_info : TipInfo)
    (id : PeerStateId) : op PeerConn TaskError (option bool) :=
  on_mainchain ← lifted (map_err Task_Archive (peer_tip_on_mainchain a peer_tip_info));
  match on_mainchain, tip_info with
  | false, _ => mret None
  | true, None => available ← request_headers a None peer_tip_info id; mret (Some available)
  | true, Some tip_info' =>
      let tip := ti_tip tip_info' in
      let peer_tip := ti_tip peer_tip_info in
      let request := available ← request_headers a tip_info peer_tip_info id; mret (Some available) in
      match ti_total_work tip_info' ?= ti_total_work peer_tip_info,
            ti_block_height tip_info' ?= ti_block_height peer_tip_info with
      | (Lt | Eq), Lt => request
      | (Eq | Gt), Gt => mret None
      | Lt, Eq =>
          shared ← lifted (map_err Task_Archive
            (shared_mainchain_lineage a (tip_main_block_hash tip) (tip_main_block_hash peer_tip)));
          match shared with true => mret None | false => request end
      | Gt, Eq =>
          shared ← lifted (map_err Task_Archive
            (shared_mainchain_lineage a (tip_main_block_hash tip) (tip_main_block_hash peer_tip)));
          match shared with false => mret None | true => request end
      | Lt, Gt =>
          tip_ancestor_height ← lifted (map_err Task_Archive
            (main_ancestor ←
               last_common_main_ancestor a (tip_main_block_hash tip) (tip_main_block_hash peer_tip);
             find_ancestor a (ancestor_height_before a main_ancestor) (tip_block_hash tip)
               (default 0 (archive_try_get_height a (tip_block_hash tip)))));
          if option_leb (Some (ti_block_height peer_tip_info)) tip_ancestor_height then mret None
          else request
      | Gt, Lt =>
          available ← request_headers a tip_info peer_tip_info id;
          match available with
          | false => mret (Some false)
          | true =>
              peer_tip_ancestor_height ← lifted (map_err Task_Archive
                (main_ancestor ←
                   last_common_main_ancestor a (tip_main_block_hash tip) (tip_main_block_hash peer_tip);
                 find_ancestor a (ancestor_height_before a main_ancestor) (tip_block_hash peer_tip)
                   (default 0 (archive_try_get_height a (tip_block_hash peer_tip)))));
              if option_leb (Some (ti_block_height tip_info')) peer_tip_ancestor_height
              then mret (Some true) else mret None
          end
      | Eq, Eq =>
          if tip_block_hash peer_tip =? tip_block_hash tip then mret None
          else
            available ← request_headers a tip_info peer_tip_info id;
            match available with
            | false => mret (Some false)
            | true =>
                better ← lifted (map_err Task_Archive (peer_tie a tip_info' peer_tip_info));
                match better with true => mret (Some true) | false => mret None end
            end
      end
  end.

(** ** A peer state *)

(** [tip_info] of [handle_peer_state] and of a heartbeat *)
Definition own_tip_info db : result ArchiveError (option TipInfo) :=
  match try_get_tip (nd_state db) with
  | None => Ok None
  | Some tip =>
      tip_height ← expect (try_get_height (nd_state db));
      bmm_verification ← get_best_main_verification (nd_archive db) tip;
      total_work ← get_total_work (nd_archive db) bmm_verification;
      Ok (Some (mkTipInfo tip_height (mkTip tip bmm_verification) total_work))
  end.

(** The work and the commitment that the peer claims; [None]: the mainchain header is missing *)
Definition check_claims a (peer_tip_info : TipInfo) : result TaskError (option unit) :=
  let tip := ti_tip peer_tip_info in
  match ar_main_header_infos a !! tip_main_block_hash tip with
  | None => Ok None
  | Some _main_header_info =>
      computed_total_work ← map_err Task_Archive (get_total_work a (tip_main_block_hash tip));
      _ ← ensure (ti_total_work peer_tip_info =? computed_total_work)
            (Task_PeerBan (Ban_IncorrectTotalWork tip (ti_total_work peer_tip_info)));
      block_info ← map_err Task_Archive (get_main_block_info a (tip_main_block_hash tip));
      _ ← ensure (bool_decide (bi_bmm_commitment block_info = Some (tip_block_hash tip)))
            (Task_PeerBan (Ban_BmmVerificationFailed tip));
      Ok (Some tt)
  end.

Definition MAX_BLOCK_REQUESTS : nat := 100.

(** The common ancestor of the tips, and the bodies to request *)
Definition bodies_to_request a (tip_info : option TipInfo) (peer_tip : Tip)
  : result ArchiveError (option BlockHash * list BlockHash) :=
  common_ancestor ←
    match tip_info with
    | Some tip_info => last_common_ancestor a (tip_block_hash (ti_tip tip_info)) (tip_block_hash peer_tip)
    | None => Ok None
    end;
  start_height ←
    match common_ancestor with
    | Some common_ancestor => archive_get_height a common_ancestor
    | None => Ok 0
    end;
  missing ← iter_missing_bodies a (tip_block_hash peer_tip) start_height;
  Ok (common_ancestor, take MAX_BLOCK_REQUESTS missing).

Fixpoint request_bodies (peer_state : PeerState) (peer_tip : Tip) (common_ancestor : option BlockHash)
    (missing_bodies : list BlockHash) : op PeerConn TaskError unit :=
  match missing_bodies with
  | [] => mret tt
  | block_hash :: missing_bodies =>
      _ ← send_request (Request_GetBlock
            (mkGetBlockRequest block_hash (Some peer_tip) common_ancestor (Some (peer_state_id peer_state))));
      request_bodies peer_state peer_tip common_ancestor missing_bodies
  end.

Definition handle_peer_state db (peer_state : PeerState) : op PeerConn TaskError unit :=
  let a := nd_archive db in
  match ps_tip_info peer_state with
  | None => mret tt
  | Some peer_tip_info =>
      let peer_tip := ti_tip peer_tip_info in
      tip_info ← lifted (map_err Task_Archive (own_tip_info db));
      checked ← lifted (check_claims a peer_tip_info);
      match checked with
      | None => writing (push_info (Info_NeedMainchainAncestors
                  (tip_main_block_hash peer_tip) (peer_state_id peer_state)))
      | Some _ =>
          better ← check_peer_tip_and_request_headers a tip_info peer_tip_info (peer_state_id peer_state);
          match better with
          | Some false | None => mret tt
          | Some true =>
              _ ← lifted (ensure (bool_decide (try_get_bmm_result a (tip_block_hash peer_tip)
                      (tip_main_block_hash peer_tip) = Some Bmm_Verified))
                    (Task_PeerBan (Ban_BmmVerificationFailed peer_tip)));
              '(common_ancestor, missing_bodies) ←
                lifted (map_err Task_Archive (bodies_to_request a tip_info peer_tip));
              match missing_bodies with
              | [] => writing (push_info (Info_NewTipReady peer_tip))
              | _ => request_bodies peer_state peer_tip common_ancestor missing_bodies
              end
          end
      end
  end.

(** ** Requests of the peer *)

Definition handle_get_block db (block_hash : BlockHash) : op PeerConn ConnectionError unit :=
  writing (push_response
    (match ar_headers (nd_archive db) !! block_hash, ar_bodies (nd_archive db) !! block_hash with
     | Some header, Some body => Response_Block header body
     | _, _ => Response_NoBlock block_hash
     end)).

(** [ancestor_headers(end).take_while(|b| !start.contains(b))], newest first; the height bounds
    the walk. *)
Fixpoint headers_until (fuel : nat) a (start : gset BlockHash) (block_hash : option BlockHash)
  : result ArchiveError (list Header) :=
  '(item, next) ← ancestor_headers_next a block_hash;
  match item, fuel with
  | None, _ => Ok []
  | Some _, O => Panic
  | Some (block_hash, header), S fuel =>
      if bool_decide (block_hash ∈ start) then Ok []
      else headers ← headers_until fuel a start next; Ok (header :: headers)
  end.
(** The closure that [handle_get_headers] spawns *)
Definition headers_response a (start : gset BlockHash) (end_ : BlockHash)
  : result ArchiveError ResponseMessage :=
  match ar_headers a !! end_ with
  | None => Ok (Response_NoHeader end_)
  | Some _ =>
      headers ← headers_until (S (N.to_nat (default 0 (archive_try_get_height a end_)))) a start (Some end_);
      Ok (Response_Headers (reverse headers))
  end.
Definition handle_get_headers (start : gset BlockHash) (end_ : BlockHash) : op PeerConn ConnectionError unit :=
  writing (fun c => set_forward_tasks (pc_forward_tasks c ++ [(start, end_)]) c).

Definition is_no_utxo (err : Error) : bool := match err with Error_NoUtxo _ => true | _ => false end.

Definition handle_push_tx db (tx : AuthorizedTransaction) : op PeerConn ConnectionError unit :=
  let txid := txid (at_transaction tx) in
  match validate_transaction (nd_state db) tx with
  | Err err =>
      _ ← writing (push_response (Response_TransactionRejected txid));
      lifted (if is_no_utxo err then Ok tt else Err (Conn_State err))
  | Panic => lifted Panic
  | Ok _ =>
      _ ← writing (push_response (Response_TransactionAccepted txid));
      writing (push_info (Info_NewTransaction tx))
  end.

(** [blocking_task_queue_tx.unbounded_send(handle_peer_state ..)] *)
Definition queue_peer_state (peer_state : PeerState) : op PeerConn ConnectionError unit :=
  writing (fun c => set_blocking_tasks (pc_blocking_tasks c ++ [peer_state]) c).

Definition handle_peer_request db (request_msg : RequestMessage) : op PeerConn ConnectionError unit :=
  match request_msg with
  | Message_Heartbeat new_peer_state =>
      let new_peer_state_id := peer_state_id new_peer_state in
      _ ← writing (put_peer_state new_peer_state_id new_peer_state);
      current ← reading (fun c => Ok (pc_peer_state c));
      if decide (current = Some new_peer_state_id) then mret tt
      else
        _ ← queue_peer_state new_peer_state;
        writing (set_peer_state new_peer_state_id)
  | Message_Request (Request_GetBlock request) => handle_get_block db (gb_block_hash request)
  | Message_Request (Request_GetHeaders request) => handle_get_headers (gh_start request) (gh_end request)
  | Message_Request (Request_PushTransaction transaction) => handle_push_tx db transaction
  end.

(** ** Messages of the net task *)

Definition resume_peer_state (id : PeerStateId) : op PeerConn ConnectionError unit :=
  peer_state ← reading (fun c => ok_or (pc_peer_states c !! id) (Conn_MissingPeerState id));
  queue_peer_state peer_state.

Definition handle_internal_message (msg : InternalMessage) : op PeerConn ConnectionError unit :=
  match msg with
  | Internal_ForwardRequest request => _ ← send_request request; mret tt
  | Internal_BmmVerification false _ => mret tt
  | Internal_BmmVerification true id => resume_peer_state id
  | Internal_BmmVerificationError => mret tt
  | Internal_MainchainAncestorsError => mret tt
  | Internal_MainchainAncestors id => resume_peer_state id
  | Internal_Headers id => resume_peer_state id
  | Internal_BodiesAvailable id => resume_peer_state id
  end.

(** ** The loop of the task *)

Inductive MailboxItem : Type :=
| Item_InternalMessage (msg : InternalMessage)
| Item_Heartbeat
| Item_PeerRequest (request : RequestMessage)
| Item_PeerResponse (response : result ReceiveError ResponseMessage) (request : Request)
| Item_BlockingTask
| Item_ForwardTask (index : nat).

Definition send_heartbeat db : op PeerConn ConnectionError unit :=
  tip_info ← lifted (map_err Conn_Archive (own_tip_info db));
  writing (push_heartbeat (mkPeerState tip_info VERSION)).

Definition peer_response (response : result ReceiveError ResponseMessage) (request : Request)
  : op PeerConn ConnectionError unit :=
  match response with
  | Ok resp => writing (push_info (Info_Response resp request))
  | Err err => writing (push_info (Info_Error (Conn_ReceiveResponse err)))
  | Panic => lifted Panic
  end.

(** The blocking queue runs its tasks one after the other. *)
Definition run_blocking_task db : op PeerConn ConnectionError unit :=
  tasks ← reading (fun c => Ok (pc_blocking_tasks c));
  match tasks with
  | [] => mret tt
  | peer_state :: tasks =>
      _ ← writing (set_blocking_tasks tasks);
      zoom id (fun c _ => c) Conn_BlockingTask (handle_peer_state db peer_state)
  end.

(** The answers for headers are computed at the same time, and sent as they are ready. *)
Definition run_forward_task db (index : nat) : op PeerConn ConnectionError unit :=
  tasks ← reading (fun c => Ok (pc_forward_tasks c));
  match tasks !! index with
  | None => mret tt
  | Some (start, end_) =>
      _ ← writing (set_forward_tasks (delete index tasks));
      response ← lifted (map_err Conn_ForwardResponse (headers_response (nd_archive db) start end_));
      writing (push_response response)
  end.

(** One turn; the task ends with an error. *)
Definition run_item db (item : MailboxItem) : op PeerConn ConnectionError unit :=
  match item with
  | Item_InternalMessage msg => handle_internal_message msg
  | Item_Heartbeat => send_heartbeat db
  | Item_PeerRequest request => handle_peer_request db request
  | Item_PeerResponse response request => peer_response response request
  | Item_BlockingTask => run_blocking_task db
  | Item_ForwardTask index => run_forward_task db index
  end.
End task.
