(* ===== verification/NetAddress.v ===== *)
(** * Addresses of peers

    [src/types/net.rs], the seeds and [resolve_peer_address] of [src/lib/net/mod.rs]: addresses
    as they are configured, stored and written, and what they resolve to. A string is the
    list of its characters' code points. *)

From S2P Require Import Prelude Types BitNameSeqId PeerMessage.

Notation u16 := N (only parsing).

Definition THIS_SIDECHAIN : N := 2.
Definition DEFAULT_PORT : u16 := 4000 + THIS_SIDECHAIN.

(** ** The standard library's addresses *)

Inductive IpAddr : Type :=
| Ipv4 (bits : N)
| Ipv6 (bits : N).
#[export] Instance IpAddr_eq_dec : EqDecision IpAddr.
Proof. solve_decision. Defined.
Definition is_unspecified (ip : IpAddr) : bool :=
  match ip with Ipv4 bits | Ipv6 bits => bits =? 0 end.

Inductive SocketAddr : Type :=
| SocketAddr_V4 (ip : N) (port : u16)
| SocketAddr_V6 (ip : N) (port : u16) (flowinfo scope_id : u32).
#[export] Instance SocketAddr_eq_dec : EqDecision SocketAddr.
Proof. solve_decision. Defined.
#[export] Instance SocketAddr_countable : Countable SocketAddr.
Proof.
  apply (inj_countable'
    (fun addr => match addr with
       | SocketAddr_V4 ip port => inl (ip, port)
       | SocketAddr_V6 ip port f s => inr (ip, port, f, s) end)
    (fun x => match x with
       | inl (ip, port) => SocketAddr_V4 ip port
       | inr (ip, port, f, s) => SocketAddr_V6 ip port f s end)).
  by intros [].
Defined.

(** [SocketAddr::new] *)
Definition socket_addr (ip : IpAddr) (port : u16) : SocketAddr :=
  match ip with
  | Ipv4 bits => SocketAddr_V4 bits port
  | Ipv6 bits => SocketAddr_V6 bits port 0 0
  end.
Definition socket_ip (addr : SocketAddr) : IpAddr :=
  match addr with SocketAddr_V4 ip _ => Ipv4 ip | SocketAddr_V6 ip _ _ _ => Ipv6 ip end.
Definition socket_port (addr : SocketAddr) : u16 :=
  match addr with SocketAddr_V4 _ port | SocketAddr_V6 _ port _ _ => port end.

(** ** Peer addresses *)

(** [url::Host] *)
Inductive Host : Type :=
| Host_Domain (domain : list N)
| Host_Ipv4 (ip : N)
| Host_Ipv6 (ip : N).
#[export] Instance Host_eq_dec : EqDecision Host.
Proof. solve_decision. Defined.

Record Address : Type := mkAddress {
  addr_host : Host;
  addr_port : u16;
}.
#[export] Instance Address_eq_dec : EqDecision Address.
Proof. solve_decision. Defined.
#[export] Instance Address_countable : Countable Address.
Proof.
  apply (inj_countable'
    (fun a => match addr_host a with
       | Host_Domain d => (inl d, addr_port a)
       | Host_Ipv4 ip => (inr (inl ip), addr_port a)
       | Host_Ipv6 ip => (inr (inr ip), addr_port a) end)
    (fun '(h, port) => match h with
       | inl d => mkAddress (Host_Domain d) port
       | inr (inl ip) => mkAddress (Host_Ipv4 ip) port
       | inr (inr ip) => mkAddress (Host_Ipv6 ip) port end)).
  by intros [[]].
Defined.

(** [impl From<T> for Address] *)
Definition address_of_socket (addr : SocketAddr) : Address :=
  match addr with
  | SocketAddr_V4 ip port => mkAddress (Host_Ipv4 ip) port
  | SocketAddr_V6 ip port _ _ => mkAddress (Host_Ipv6 ip) port
  end.

(** *** Storage *)

(** What is written to the database: an enumeration whose first two variants are those of
    [SocketAddr]. *)
Inductive AddressRepr : Type :=
| Repr_V4 (ip : N) (port : u16)
| Repr_V6 (ip : N) (port : u16) (flowinfo scope_id : u32)
| Repr_Domain (domain : list N) (port : u16).

(** [impl Serialize], and [impl Deserialize], for a format that is not for humans *)
Definition address_serialize (a : Address) : AddressRepr :=
  match addr_host a with
  | Host_Domain domain => Repr_Domain domain (addr_port a)
  | Host_Ipv4 v4 => Repr_V4 v4 (addr_port a)
  | Host_Ipv6 v6 => Repr_V6 v6 (addr_port a) 0 0
  end.
Definition address_deserialize (repr : AddressRepr) : Address :=
  match repr with
  | Repr_V4 ip port => address_of_socket (SocketAddr_V4 ip port)
  | Repr_V6 ip port f s => address_of_socket (SocketAddr_V6 ip port f s)
  | Repr_Domain domain port => mkAddress (Host_Domain domain) port
  end.
(** A key of an older release, which was a [SocketAddr] *)
Definition socket_repr (addr : SocketAddr) : AddressRepr :=
  match addr with
  | SocketAddr_V4 ip port => Repr_V4 ip port
  | SocketAddr_V6 ip port f s => Repr_V6 ip port f s
  end.

(** *** Strings *)

(** The [url] crate: its errors, and a host as a string and back *)
Class UrlExternals : Type := {
  UrlParseError : Type;
  url_InvalidPort : UrlParseError;
  host_display : Host -> list N;
  host_parse : list N -> result UrlParseError Host;
}.

Definition chr_colon : N := 58.
Definition chr_plus : N := 43.
Definition u16_MAX : N := 2 ^ 16 - 1.

(** [str::rsplit_once] *)
Fixpoint rsplit_once (sep : N) (s : list N) : option (list N * list N) :=
  match s with
  | [] => None
  | c :: s =>
      match rsplit_once sep s with
      | Some (prefix, suffix) => Some (c :: prefix, suffix)
      | None => if c =? sep then Some ([], s) else None
      end
  end.

(** [str::parse::<u16>]: digits, after a plus sign or not *)
Definition parse_u16 (s : list N) : option u16 :=
  let digits := match s with c :: rest => if c =? chr_plus then rest else s | [] => [] end in
  if match digits with [] => false | _ => forallb is_ascii_digit digits end then
    let n := parse_digits digits in
    if n <=? u16_MAX then Some n else None
  else None.

Inductive ParsePeerAddress `{UrlExternals} : Type :=
| MissingPort
| Parse (e : UrlParseError).

Section strings.
Context `{UrlExternals}.

(** [impl Display]; a [u16] has at most five digits. *)
Definition address_fmt (a : Address) : list N :=
  host_display (addr_host a) ++ [chr_colon] ++ dec_digits 5 (addr_port a).

(** [impl FromStr] *)
Definition address_from_str (s : list N) : result ParsePeerAddress Address :=
  '(host_str, port) ←
    match rsplit_once chr_colon s with
    | Some (host_str, port) =>
        port ← ok_or (parse_u16 port) (Parse url_InvalidPort); Ok (host_str, port)
    | None => Ok (s, DEFAULT_PORT)
    end;
  host ← map_err Parse (host_parse host_str);
  Ok (mkAddress host port).
End strings.

(** ** Resolved addresses *)

(** [addrs] is a [NonEmpty], its first element apart, in reverse order. *)
Inductive ResolvedAddress : Type :=
| Resolved_Domain (port : u16) (head : IpAddr) (tail : list IpAddr) (domain : list N)
| Resolved_Static (addr : SocketAddr).
#[export] Instance ResolvedAddress_eq_dec : EqDecision ResolvedAddress.
Proof. solve_decision. Defined.

Definition resolved_host (r : ResolvedAddress) : Host :=
  match r with
  | Resolved_Domain _ _ _ domain => Host_Domain domain
  | Resolved_Static (SocketAddr_V4 ip _) => Host_Ipv4 ip
  | Resolved_Static (SocketAddr_V6 ip _ _ _) => Host_Ipv6 ip
  end.
Definition resolved_port (r : ResolvedAddress) : u16 :=
  match r with
  | Resolved_Domain port _ _ _ => port
  | Resolved_Static addr => socket_port addr
  end.
Definition as_peer_address (r : ResolvedAddress) : Address :=
  mkAddress (resolved_host r) (resolved_port r).

(** [NonEmpty::last] *)
Definition first_ip_addr (r : ResolvedAddress) : IpAddr :=
  match r with
  | Resolved_Domain _ head tail _ => default head (last tail)
  | Resolved_Static addr => socket_ip addr
  end.
(** [NonEmpty::pop] takes from the end and leaves the first element. *)
Definition pop_first_ip_addr (r : ResolvedAddress) : IpAddr * option ResolvedAddress :=
  match r with
  | Resolved_Domain port head tail domain =>
      match last tail with
      | Some addr => (addr, Some (Resolved_Domain port head (removelast tail) domain))
      | None => (head, None)
      end
  | Resolved_Static addr => (socket_ip addr, None)
  end.
Definition ip_addrs (r : ResolvedAddress) : list IpAddr :=
  match r with
  | Resolved_Domain _ head tail _ => reverse (head :: tail)
  | Resolved_Static addr => [socket_ip addr]
  end.
(** [impl From<T> for ResolvedAddress] *)
Definition resolved_of_socket (addr : SocketAddr) : ResolvedAddress := Resolved_Static addr.

Inductive ResolvePeerAddress : Type :=
| Resolve_Net
| Resolve_NoIpAddrs (domain : list N).

(** [resolve_peer_address]; the resolver returns the addresses of a domain, or fails. *)
Definition resolve_peer_address (lookup_ip : list N -> option (list IpAddr)) (peer_addr : Address)
  : result ResolvePeerAddress ResolvedAddress :=
  match addr_host peer_addr with
  | Host_Ipv4 ipv4 => Ok (Resolved_Static (SocketAddr_V4 ipv4 (addr_port peer_addr)))
  | Host_Ipv6 ipv6 => Ok (Resolved_Static (SocketAddr_V6 ipv6 (addr_port peer_addr) 0 0))
  | Host_Domain domain =>
      found ← ok_or (lookup_ip domain) Resolve_Net;
      let addrs := List.filter (fun addr => negb (is_unspecified addr)) found in
      match last addrs with
      | Some last_addr =>
          Ok (Resolved_Domain (addr_port peer_addr) last_addr (reverse (removelast addrs)) domain)
      | None => Err (Resolve_NoIpAddrs domain)
      end
  end.

(** ** Lemmas *)

Lemma rsplit_once_last sep s : sep ∉ s -> rsplit_once sep s = None.
Proof.
  induction s as [|c s IH]; [done|]. intros [Hc Hs]%not_elem_of_cons. cbn. rewrite IH by done.
  rewrite (proj2 (N.eqb_neq _ _)); [done|congruence].
Qed.
Lemma rsplit_once_app sep l r : sep ∉ r -> rsplit_once sep (l ++ sep :: r) = Some (l, r).
Proof.
  intros Hr. induction l as [|c l IH]; cbn; [|by rewrite IH].
  by rewrite rsplit_once_last, N.eqb_refl.
Qed.

Lemma dec_digits_ascii fuel n : Forall (fun c => is_ascii_digit c = true) (dec_digits fuel n).
Proof.
  revert n. induction fuel as [|fuel IH]; intros n; [constructor|]. cbn [dec_digits].
  assert (forall d, d < 10 -> is_ascii_digit (chr_0 + d) = true) as Hd.
  { intros d Hd. unfold is_ascii_digit, chr_0. rewrite andb_true_iff, !N.leb_le. lia. }
  destruct (N.ltb_spec n 10) as [Hlt|_]; [by repeat constructor; apply Hd|].
  apply Forall_app. split; [done|]. repeat constructor. by apply Hd, N.mod_upper_bound.
Qed.
Lemma parse_dec_digits fuel n : n < 10 ^ N.of_nat fuel -> parse_digits (dec_digits fuel n) = n.
Proof.
  revert n. induction fuel as [|fuel IH]; intros n Hn; [cbn in *; lia|]. cbn [dec_digits].
  destruct (N.ltb_spec n 10) as [Hlt|Hge].
  - unfold parse_digits. cbn [foldl]. lia.
  - rewrite parse_digits_snoc, IH.
    + rewrite (N.add_comm chr_0), N.add_sub. symmetry. apply N.Div0.div_mod.
    + apply N.Div0.div_lt_upper_bound. by rewrite <-N.pow_succ_r', <-Nat2N.inj_succ.
Qed.

Lemma parse_u16_digits port : port <= u16_MAX -> parse_u16 (dec_digits 5 port) = Some port.
Proof.
  intros Hp. pose proof (dec_digits_ascii 5 port) as Ha. pose proof (parse_dec_digits 5 port) as Hn.
  unfold u16_MAX in Hp. specialize (Hn ltac:(cbn in *; lia)).
  unfold parse_u16. destruct (dec_digits 5 port) as [|c l] eqn:Hd.
  { cbn [dec_digits] in Hd. destruct (port <? 10); [done|]. by apply app_eq_nil in Hd as [_ ?]. }
  pose proof (proj1 (Forall_cons _ _ _) Ha) as [Hc _]. replace (c =? chr_plus) with false.
  2: { symmetry. apply N.eqb_neq. intros Heq. by rewrite Heq in Hc. }
  replace (forallb is_ascii_digit (c :: l)) with true.
  2: { symmetry. apply forallb_forall. intros x Hx%list_elem_of_In. by apply (proj1 (Forall_forall _ _) Ha). }
  rewrite Hn, (proj2 (N.leb_le _ _)); [done|]. exact Hp.
Qed.

Lemma colon_not_digit fuel n : chr_colon ∉ dec_digits fuel n.
Proof. intros Hin. by pose proof (proj1 (Forall_forall _ _) (dec_digits_ascii fuel n) _ Hin). Qed.

Lemma reverse_snoc_last {A} (l : list A) x : last l = Some x -> reverse l = x :: reverse (removelast l).
Proof.
  intros Hl. rewrite last_Some in Hl. destruct Hl as [l' ->]. by rewrite removelast_last, reverse_snoc.
Qed.

(** Taking the first address leaves the others, and the peer's name. *)
Lemma pop_first_ip_addr_spec r :
  match pop_first_ip_addr r with
  | (ip, Some r') => ip_addrs r = ip :: ip_addrs r' /\ as_peer_address r' = as_peer_address r
  | (ip, None) => ip_addrs r = [ip]
  end /\ (pop_first_ip_addr r).1 = first_ip_addr r.
Proof.
  destruct r as [port head tail domain|addr]; [|done]. cbn. destruct (last tail) as [ip|] eqn:Hl; cbn.
  - rewrite !reverse_cons, (reverse_snoc_last tail ip Hl). done.
  - by apply last_None in Hl as ->.
Qed.

(** ** Theorems *)

(** A peer's address that was written is read back: as a string, when the host's own form is read
    back and the port is one, and as a database key, where keys of older releases name the
    same address. *)
Theorem peer_address_roundtrip `{UrlExternals} (a : Address) (addr : SocketAddr) :
  addr_port a <= u16_MAX -> host_parse (host_display (addr_host a)) = Ok (addr_host a) ->
  address_from_str (address_fmt a) = Ok a /\
  address_deserialize (address_serialize a) = a /\
  address_deserialize (socket_repr addr) = address_of_socket addr.
Proof.
  intros Hp Hh. split_and!; [|by destruct a as [[]]|by destruct addr].
  unfold address_from_str, address_fmt. cbn [app]. rewrite rsplit_once_app by apply colon_not_digit.
  cbn [mbind result_bind]. rewrite parse_u16_digits by done. cbn [ok_or mbind result_bind].
  rewrite Hh. by destruct a.
Qed.

Definition chr_rbracket : N := 93.

Lemma rsplit_once_bracket s :
  chr_colon ∈ s -> exists h p, rsplit_once chr_colon (s ++ [chr_rbracket]) = Some (h, p ++ [chr_rbracket]).
Proof.
  induction s as [|c s IH]; [by intros ?%not_elem_of_nil|]. intros Hin. cbn.
  destruct (decide (chr_colon ∈ s)) as [Hs|Hs].
  - destruct (IH Hs) as (h & p & ->). by exists (c :: h), p.
  - apply elem_of_cons in Hin as [<-|?]; [|done]. rewrite rsplit_once_last; [by exists [], s|].
    intros [?|Hb%list_elem_of_singleton]%elem_of_app; done.
Qed.

(** An IPv6 literal without a port is not given the default port, as a domain or an IPv4 address
    is: the colon inside the brackets is taken for the separator of the port. *)
Theorem ipv6_without_port_refused `{UrlExternals} (s : list N) :
  chr_colon ∈ s -> address_from_str (s ++ [chr_rbracket]) = Err (Parse url_InvalidPort).
Proof.
  intros (h & p & Hs)%rsplit_once_bracket. unfold address_from_str. rewrite Hs.
  replace (parse_u16 (p ++ [chr_rbracket])) with (@None N); [done|]. unfold parse_u16.
  assert (forall l, match l ++ [chr_rbracket] with
    | [] => false | _ => forallb is_ascii_digit (l ++ [chr_rbracket]) end = false) as Hd.
  { intros l. rewrite forallb_app. cbn. rewrite andb_false_r. by destruct (l ++ [chr_rbracket]). }
  destruct p as [|c p]; [done|]. cbn [app].
  destruct (c =? chr_plus); [by rewrite Hd|]. specialize (Hd (c :: p)). cbn [app] in Hd. by rewrite Hd.
Qed.

(** The addresses of a resolved peer are those that the resolver gave, in its order, without the
    unspecified ones; there is at least one, and the peer keeps its name. *)
Theorem resolve_peer_address_correct (lookup_ip : list N -> option (list IpAddr)) (a : Address)
    (r : ResolvedAddress) :
  resolve_peer_address lookup_ip a = Ok r ->
  as_peer_address r = a /\ ip_addrs r <> [] /\
  forall domain found, addr_host a = Host_Domain domain -> lookup_ip domain = Some found ->
    ip_addrs r = List.filter (fun addr => negb (is_unspecified addr)) found.
Proof.
  unfold resolve_peer_address. destruct a as [[domain|ip|ip] port]; cbn [addr_host addr_port].
  2, 3: by intros [= <-].
  intros (found & Hf%ok_or_Ok & Hr)%bind_Ok. destruct (last _) as [l|] eqn:Hl; [|done].
  injection Hr as <-. split_and!; [done|by rewrite <-(reverse_involutive []); intros ?%(inj reverse)|].
  intros domain' found' [= <-]. rewrite Hf. intros [= <-]. cbn [ip_addrs].
  by rewrite <-(reverse_snoc_last _ _ Hl), reverse_involutive.
Qed.
