(* ===== verification/Encodings.v ===== *)
(** * Addresses and keys as strings

    [src/types/address.rs] and [src/types/keys.rs]: the strings that users exchange for
    addresses and keys, and what is written by serializers. A string is the list of its
    characters' code points; an address or a key is the list of its bytes where it is encoded.
    The crates for Base58, Bech32, hexadecimal digits and hashes are parameters. *)

From S2P Require Import Prelude Types BitNameSeqId NetAddress.

Notation str := (list N) (only parsing).

Definition chr_s : N := 115.
Definition chr_underscore : N := 95.

(** [str::to_lowercase]. A character that is not ASCII has no lower case among the hexadecimal digits, which
    the result is compared with, so that it is left as it is. *)
Definition to_lowercase (s : str) : str :=
  (fun c => if (65 <=? c) && (c <=? 90) then c + 32 else c) <$> s.
(** [str::strip_prefix] *)
Fixpoint strip_prefix (prefix s : str) : option str :=
  match prefix, s with
  | [], _ => Some s
  | c :: prefix, d :: s => if c =? d then strip_prefix prefix s else None
  | _ :: _, [] => None
  end.
(** [str::starts_with] *)
Definition starts_with (s prefix : str) : bool :=
  match strip_prefix prefix s with Some _ => true | None => false end.

(** ["bn-enc"], ["bn-svk"], ["bn-xpub"], ["bn-xvk"]: the human-readable parts of the kinds of keys *)
Definition str_bn_enc : str := [98; 110; 45; 101; 110; 99].
Definition str_bn_svk : str := [98; 110; 45; 115; 118; 107].
Definition str_bn_xpub : str := [98; 110; 45; 120; 112; 117; 98].
Definition str_bn_xvk : str := [98; 110; 45; 120; 118; 107].

Class EncodingExternals : Type := {
  (** [bitcoin::base58] and its checked form *)
  base58_encode : bytes -> str;
  base58_decode : str -> option bytes;
  base58_encode_check : bytes -> str;
  base58_decode_check : str -> option bytes;
  (** [sha256::Hash::hash] and [const_hex::encode] *)
  sha256 : bytes -> bytes;
  hex_encode : bytes -> str;
  (** [bech32::encode] as Bech32m. [bech32::decode] accepts both variants and either case; a
      human-readable part is compared without its case, so that it is given in lower case. *)
  bech32m_encode_hrp : str -> bytes -> str;
  bech32_decode : str -> option (str * bytes);
  (** [frost_ristretto255::VerifyingKey], its [deserialize], and the bytes of its element *)
  RistrettoKey : Type;
  ristretto_deserialize : bytes -> option RistrettoKey;
  ristretto_bytes : RistrettoKey -> bytes;
  (** [ed25519_bip32::XPrv::from_bytes_verified] *)
  xprv_verified : bytes -> bool;
}.
(** Documented of these crates: decoding inverts encoding, of Bech32m for what is short enough; the alphabet of Base58 has no underscore; a
    hash has 32 bytes; a byte has two hexadecimal digits, in lower case. *)
Record encoding_spec `{EncodingExternals} : Prop := {
  en_base58 b : base58_decode (base58_encode b) = Some b;
  en_base58_check b : base58_decode_check (base58_encode_check b) = Some b;
  en_underscore b : chr_underscore ∉ base58_encode b;
  en_sha256 b : length (sha256 b) = 32%nat;
  en_hex_app b c : hex_encode (b ++ c) = hex_encode b ++ hex_encode c;
  en_hex_length b : length (hex_encode b) = (2 * length b)%nat;
  en_hex_lower b : to_lowercase (hex_encode b) = hex_encode b;
  en_hex_underscore b : chr_underscore ∉ hex_encode b;
  en_bech32m hrp b : hrp ∈ [str_bn_enc; str_bn_svk; str_bn_xpub; str_bn_xvk] -> (length b <= 64)%nat ->
    bech32_decode (bech32m_encode_hrp hrp b) = Some (hrp, b);
  en_ristretto k : ristretto_deserialize (ristretto_bytes k) = Some k;
  en_ristretto_length k : length (ristretto_bytes k) = 32%nat;
}.

(** ** Addresses *)

Inductive ParseAddress : Type :=
| Parse_Bs58
| Parse_MissingDepositChecksum (s : str)
| Parse_MissingDepositPrefix (s : str)
| Parse_WrongDepositChecksum (address checksum : str)
| Parse_WrongLength (length : nat).

Section address.
Context `{EncodingExternals}.
Implicit Types (address : bytes) (s : str).

Definition as_base58 address : str := base58_encode address.
(** ["s{}_"], the number of the sidechain *)
Definition deposit_prefix : str := chr_s :: dec_digits 3 THIS_SIDECHAIN ++ [chr_underscore].
Definition format_for_deposit address : str :=
  let prefix := deposit_prefix ++ as_base58 address ++ [chr_underscore] in
  let prefix_digest := sha256 prefix in
  prefix ++ hex_encode (take 3 prefix_digest).

(** [impl FromStr] *)
Definition sidechain_address_from_str s : result ParseAddress bytes :=
  address ← ok_or (base58_decode s) Parse_Bs58;
  _ ← ensure (length address =? 20)%nat (Parse_WrongLength (length address));
  Ok address.

Definition from_deposit_address s : result ParseAddress bytes :=
  rest ← ok_or (strip_prefix deposit_prefix s) (Parse_MissingDepositPrefix s);
  '(address_str, checksum) ←
    match rsplit_once chr_underscore rest with
    | Some (address_str, (_ :: _) as checksum) => Ok (address_str, checksum)
    | _ => Err (Parse_MissingDepositChecksum s)
    end;
  let digest := sha256 (deposit_prefix ++ address_str ++ [chr_underscore]) in
  _ ← ensure (starts_with (hex_encode digest) (to_lowercase checksum)) (Parse_WrongDepositChecksum s checksum);
  sidechain_address_from_str address_str.
End address.

(** ** Serializers *)

(** What a serializer is given: a string in a format for humans; in others bytes, or a value of a type
    of another crate, which has a serializer of its own *)
Inductive SerdeValue (I : Type) : Type :=
| Serde_Str (s : str)
| Serde_Bytes (b : bytes)
| Serde_Inner (i : I).
Arguments Serde_Str {I} s.
Arguments Serde_Bytes {I} b.
Arguments Serde_Inner {I} i.

Section address_serde.
Context `{EncodingExternals}.
Definition sidechain_address_serialize (is_human_readable : bool) (address : bytes) : SerdeValue Empty_set :=
  if is_human_readable then Serde_Str (as_base58 address) else Serde_Bytes address.
Definition sidechain_address_deserialize (is_human_readable : bool) (v : SerdeValue Empty_set) : option bytes :=
  match is_human_readable, v with
  | true, Serde_Str s => match sidechain_address_from_str s with Ok address => Some address | _ => None end
  | false, Serde_Bytes b => if (length b =? 20)%nat then Some b else None
  | _, _ => None
  end.
End address_serde.

(** ** Keys in Bech32m *)

Inductive Bech32mDecode : Type :=
| Bech32m_Bech32m
| Bech32m_InvalidBytes (bytes : list N)
| Bech32m_WrongHrp (expected decoded : str)
| Bech32m_WrongSize (decoded_len expected_len : nat)
| Bech32m_WrongVariant.

(** What the kinds of keys have in common: the human-readable part, the number of bytes, and the key that
    bytes are; [None]: they are none. *)
Class Bech32mKey (K : Type) : Type := {
  BECH32M_HRP : str;
  BYTE_LEN : nat;
  key_to_bytes : K -> bytes;
  key_of_bytes : bytes -> option K;
}.
Arguments BECH32M_HRP K {_}.
Arguments BYTE_LEN K {_}.

Section bech32m.
Context `{EncodingExternals} {K : Type} `{!Bech32mKey K}.

Definition bech32m_encode (k : K) : str := bech32m_encode_hrp (BECH32M_HRP K) (key_to_bytes k).
Definition bech32m_decode (s : str) : result Bech32mDecode K :=
  '(hrp, data) ← ok_or (bech32_decode s) Bech32m_Bech32m;
  _ ← ensure (bool_decide (hrp = BECH32M_HRP K)) (Bech32m_WrongHrp (BECH32M_HRP K) hrp);
  _ ← ensure (length data =? BYTE_LEN K)%nat (Bech32m_WrongSize (length data) (BYTE_LEN K));
  res ← ok_or (key_of_bytes data) (Bech32m_InvalidBytes data);
  _ ← ensure (bool_decide (s = bech32m_encode res)) Bech32m_WrongVariant;
  Ok res.

(** [DisplayFromStr] in formats for humans, the wrapped key in others *)
Definition bech32m_key_serialize (is_human_readable : bool) (k : K) : SerdeValue K :=
  if is_human_readable then Serde_Str (bech32m_encode k) else Serde_Inner k.
Definition bech32m_key_deserialize (is_human_readable : bool) (v : SerdeValue K) : option K :=
  match is_human_readable, v with
  | true, Serde_Str s => match bech32m_decode s with Ok k => Some k | _ => None end
  | false, Serde_Inner k => Some k
  | _, _ => None
  end.
End bech32m.

(** *** The kinds of keys *)

(** Bytes of a key that is any bytes of a length *)
Definition key_bytes (n : nat) : Type := { b : bytes | (length b =? n)%nat = true }.
Definition to_key_bytes (n : nat) (b : bytes) : option (key_bytes n) :=
  match decide ((length b =? n)%nat = true) with left Hb => Some (exist _ b Hb) | right _ => None end.
Lemma to_key_bytes_proj n (k : key_bytes n) : to_key_bytes n (proj1_sig k) = Some k.
Proof.
  destruct k as [b Hb]. unfold to_key_bytes. cbn. destruct (decide _) as [Hb'|Hn]; [|done].
  do 2 f_equal. apply (Eqdep_dec.UIP_dec Bool.bool_dec).
Qed.

Definition XPUB_SIZE : nat := 64.
Definition XPRV_SIZE : nat := 96.

Record EncryptionPubKey : Type := mkEncryptionPubKey { epk_bytes : key_bytes 32 }.
Record XPubKey : Type := mkXPubKey { xpk_bytes : key_bytes XPUB_SIZE }.
Record XVerifyingKey : Type := mkXVerifyingKey { xvk_bytes : key_bytes XPUB_SIZE }.
Record VerifyingKey `{EncodingExternals} : Type := mkVerifyingKey { vk_key : RistrettoKey }.

#[export] Instance encryption_pubkey_bech32m : Bech32mKey EncryptionPubKey := {|
  BECH32M_HRP := str_bn_enc;
  BYTE_LEN := 32;
  key_to_bytes k := proj1_sig (epk_bytes k);
  key_of_bytes b := mkEncryptionPubKey <$> to_key_bytes 32 b;
|}.
#[export] Instance verifying_key_bech32m `{EncodingExternals} : Bech32mKey VerifyingKey := {|
  BECH32M_HRP := str_bn_svk;
  BYTE_LEN := 32;
  key_to_bytes k := ristretto_bytes (vk_key k);
  key_of_bytes b := mkVerifyingKey _ <$> ristretto_deserialize b;
|}.
#[export] Instance xpubkey_bech32m : Bech32mKey XPubKey := {|
  BECH32M_HRP := str_bn_xpub;
  BYTE_LEN := XPUB_SIZE;
  key_to_bytes k := proj1_sig (xpk_bytes k);
  key_of_bytes b := mkXPubKey <$> to_key_bytes XPUB_SIZE b;
|}.
#[export] Instance xverifying_key_bech32m : Bech32mKey XVerifyingKey := {|
  BECH32M_HRP := str_bn_xvk;
  BYTE_LEN := XPUB_SIZE;
  key_to_bytes k := proj1_sig (xvk_bytes k);
  key_of_bytes b := mkXVerifyingKey <$> to_key_bytes XPUB_SIZE b;
|}.

(** ** Keys in Base58 with a checksum *)

Inductive Base58ckDecode : Type :=
| Base58ck_Decode
| Base58ck_IncorrectPrefix (decoded expected : bytes)
| Base58ck_IncorrectSize (decoded expected : nat)
| Base58ck_TryFrom.

(** [Base58Encoding] *)
Class Base58Encoding (K : Type) : Type := {
  ByteLen : nat;
  B58_DATA_PREFIX : bytes;
  b58_to_bytes : K -> bytes;
  b58_try_from : bytes -> option K;
}.
Arguments ByteLen K {_}.
Arguments B58_DATA_PREFIX K {_}.

(** [Base58EncodingExt] *)
Section base58ck.
Context `{EncodingExternals} {K : Type} `{!Base58Encoding K}.

Definition base58_data (k : K) : bytes := B58_DATA_PREFIX K ++ b58_to_bytes k.
Definition base58ck_encode (k : K) : str := base58_encode_check (base58_data k).
Definition base58ck_decode (s : str) : result Base58ckDecode K :=
  decoded ← ok_or (base58_decode_check s) Base58ck_Decode;
  _ ← ensure (length decoded =? length (B58_DATA_PREFIX K) + ByteLen K)%nat
        (Base58ck_IncorrectSize (length decoded) (length (B58_DATA_PREFIX K) + ByteLen K));
  let prefix := take (length (B58_DATA_PREFIX K)) decoded in
  let payload := drop (length (B58_DATA_PREFIX K)) decoded in
  _ ← ensure (bool_decide (prefix = B58_DATA_PREFIX K)) (Base58ck_IncorrectPrefix prefix (B58_DATA_PREFIX K));
  ok_or (b58_try_from payload) Base58ck_TryFrom.

(** A string in formats for humans, the bytes in others *)
Definition base58_key_serialize (is_human_readable : bool) (k : K) : SerdeValue Empty_set :=
  if is_human_readable then Serde_Str (base58ck_encode k) else Serde_Bytes (b58_to_bytes k).
Definition base58_key_deserialize (is_human_readable : bool) (v : SerdeValue Empty_set) : option K :=
  match is_human_readable, v with
  | true, Serde_Str s => match base58ck_decode s with Ok k => Some k | _ => None end
  | false, Serde_Bytes b => if (length b =? ByteLen K)%nat then b58_try_from b else None
  | _, _ => None
  end.
End base58ck.

(** [XPrv]: bytes that were verified or made by derivation *)
Record XEncryptionSecretKey `{EncodingExternals} : Type := mkXEncryptionSecretKey {
  xesk_bytes : key_bytes XPRV_SIZE;
}.
Definition xesk_try_from `{EncodingExternals} (b : bytes) : option XEncryptionSecretKey :=
  if xprv_verified b then mkXEncryptionSecretKey _ <$> to_key_bytes XPRV_SIZE b else None.

#[export] Instance xpubkey_base58 : Base58Encoding XPubKey := {|
  ByteLen := XPUB_SIZE;
  B58_DATA_PREFIX := [36; 22; 105; 159; 14; 198];
  b58_to_bytes k := proj1_sig (xpk_bytes k);
  b58_try_from b := mkXPubKey <$> to_key_bytes XPUB_SIZE b;
|}.
#[export] Instance xverifying_key_base58 : Base58Encoding XVerifyingKey := {|
  ByteLen := XPUB_SIZE;
  B58_DATA_PREFIX := [159; 72; 113; 145; 75];
  b58_to_bytes k := proj1_sig (xvk_bytes k);
  b58_try_from b := mkXVerifyingKey <$> to_key_bytes XPUB_SIZE b;
|}.
#[export] Instance xencryption_secret_key_base58 `{EncodingExternals} : Base58Encoding XEncryptionSecretKey := {|
  ByteLen := XPRV_SIZE;
  B58_DATA_PREFIX := [121; 123; 68; 62; 183; 59];
  b58_to_bytes k := proj1_sig (xesk_bytes k);
  b58_try_from := xesk_try_from;
|}.

(** ** Lemmas *)

Lemma strip_prefix_app prefix s : strip_prefix prefix (prefix ++ s) = Some s.
Proof. induction prefix as [|c prefix IH]; [done|]. cbn. by rewrite N.eqb_refl. Qed.
Lemma strip_prefix_Some prefix s rest : strip_prefix prefix s = Some rest -> s = prefix ++ rest.
Proof.
  revert s. induction prefix as [|c prefix IH]; intros s; [by intros [= ->]|].
  destruct s as [|d s]; [done|]. cbn. destruct (N.eqb_spec c d) as [->|]; [|done]. intros ?%IH. by subst.
Qed.
Lemma rsplit_once_Some sep s l r : rsplit_once sep s = Some (l, r) -> s = l ++ sep :: r /\ sep ∉ r.
Proof.
  revert l r. induction s as [|c s IH]; intros l r; [done|]. cbn.
  destruct (rsplit_once sep s) as [[l' r']|] eqn:Hs.
  - intros [= <- <-]. destruct (IH l' r' eq_refl) as [-> Hn]. done.
  - destruct (N.eqb_spec c sep) as [->|]; [|done]. intros [= <- <-]. split; [done|].
    intros Hin. clear IH. induction s as [|d s IH]; [by apply not_elem_of_nil in Hin|]. cbn in Hs.
    destruct (rsplit_once sep s) as [[]|] eqn:Hs'; [done|]. destruct (N.eqb_spec d sep) as [->|]; [done|].
    apply elem_of_cons in Hin as [<-|Hin]; [done|]. by apply IH.
Qed.
Lemma to_lowercase_take s n : to_lowercase s = s -> to_lowercase (take n s) = take n s.
Proof. intros Hs. unfold to_lowercase in *. rewrite fmap_take. by rewrite Hs. Qed.

(** *** Laws of the kinds of keys *)

Class Bech32mKeyLaws `{EncodingExternals} (K : Type) `{!Bech32mKey K} : Prop := {
  key_of_to_bytes k : key_of_bytes (key_to_bytes k) = Some k;
  key_to_bytes_length k : length (key_to_bytes k) = BYTE_LEN K;
  key_short : (BYTE_LEN K <= 64)%nat;
  key_hrp : BECH32M_HRP K ∈ [str_bn_enc; str_bn_svk; str_bn_xpub; str_bn_xvk];
}.
Lemma key_bytes_length n (k : key_bytes n) : length (proj1_sig k) = n.
Proof. destruct k as [b Hb]. by apply Nat.eqb_eq. Qed.

#[export] Instance encryption_pubkey_laws `{EncodingExternals} : Bech32mKeyLaws EncryptionPubKey.
Proof. split; [intros [k]; cbn; by rewrite to_key_bytes_proj|intros [k]; apply (key_bytes_length 32)|cbn; unfold XPUB_SIZE; lia|cbn; set_solver]. Qed.
#[export] Instance xpubkey_laws `{EncodingExternals} : Bech32mKeyLaws XPubKey.
Proof. split; [intros [k]; cbn; by rewrite to_key_bytes_proj|intros [k]; apply (key_bytes_length XPUB_SIZE)|cbn; unfold XPUB_SIZE; lia|cbn; set_solver]. Qed.
#[export] Instance xverifying_key_laws `{EncodingExternals} : Bech32mKeyLaws XVerifyingKey.
Proof. split; [intros [k]; cbn; by rewrite to_key_bytes_proj|intros [k]; apply (key_bytes_length XPUB_SIZE)|cbn; unfold XPUB_SIZE; lia|cbn; set_solver]. Qed.
Lemma verifying_key_laws `{EncodingExternals} : encoding_spec -> Bech32mKeyLaws VerifyingKey.
Proof. intros Hs. split; [intros [k]; cbn; by rewrite en_ristretto|intros [k]; by apply en_ristretto_length|cbn; lia|cbn; set_solver]. Qed.

Class Base58EncodingLaws `{EncodingExternals} (K : Type) `{!Base58Encoding K} (valid : K -> Prop) : Prop := {
  b58_try_from_to_bytes k : valid k -> b58_try_from (b58_to_bytes k) = Some k;
  b58_to_bytes_length k : length (b58_to_bytes k) = ByteLen K;
}.
Definition any_key {K} (_ : K) : Prop := True.
#[export] Instance xpubkey_base58_laws `{EncodingExternals} : Base58EncodingLaws XPubKey any_key.
Proof. split; intros [k]; [cbn; by rewrite to_key_bytes_proj|apply (key_bytes_length XPUB_SIZE)]. Qed.
#[export] Instance xverifying_key_base58_laws `{EncodingExternals} : Base58EncodingLaws XVerifyingKey any_key.
Proof. split; intros [k]; [cbn; by rewrite to_key_bytes_proj|apply (key_bytes_length XPUB_SIZE)]. Qed.
(** A secret key whose bits were set as derivation sets them *)
#[export] Instance xencryption_secret_key_base58_laws `{EncodingExternals} :
  Base58EncodingLaws XEncryptionSecretKey (fun k => xprv_verified (proj1_sig (xesk_bytes k)) = true).
Proof.
  split; intros [k]; [|apply (key_bytes_length XPRV_SIZE)]. cbn. intros Hv. unfold xesk_try_from.
  by rewrite Hv, to_key_bytes_proj.
Qed.

(** ** Theorems *)

(** A deposit address is accepted exactly when it is the prefix of this sidechain, the Base58 form of
    20 bytes, and a checksum: any digits, at least one, in either case, that the digest of what
    is before them starts with. What [format_for_deposit] writes is of this form. *)
Theorem deposit_address_exact `{EncodingExternals} (s : str) (address : bytes) :
  encoding_spec ->
  (from_deposit_address s = Ok address <->
   exists address_str checksum,
     s = deposit_prefix ++ address_str ++ chr_underscore :: checksum /\ chr_underscore ∉ checksum /\ checksum <> [] /\
     starts_with (hex_encode (sha256 (deposit_prefix ++ address_str ++ [chr_underscore]))) (to_lowercase checksum) = true /\
     base58_decode address_str = Some address /\ length address = 20%nat) /\
  (length address = 20%nat -> from_deposit_address (format_for_deposit address) = Ok address).
Proof.
  intros Hs.
  assert (forall address_str checksum, chr_underscore ∉ checksum -> checksum <> [] ->
    starts_with (hex_encode (sha256 (deposit_prefix ++ address_str ++ [chr_underscore]))) (to_lowercase checksum) = true ->
    base58_decode address_str = Some address -> length address = 20%nat ->
    from_deposit_address (deposit_prefix ++ address_str ++ chr_underscore :: checksum) = Ok address) as Hok.
  { intros address_str checksum Hn Hne Hd Hb Hl. unfold from_deposit_address. rewrite strip_prefix_app.
    cbn [ok_or mbind result_bind]. rewrite rsplit_once_app by done. destruct checksum as [|c checksum]; [done|].
    cbn [mbind result_bind]. rewrite Hd. cbn [ensure mbind result_bind]. unfold sidechain_address_from_str.
    rewrite Hb. cbn [ok_or mbind result_bind]. by rewrite (proj2 (Nat.eqb_eq _ _) Hl). }
  split; [split|].
  - unfold from_deposit_address. intros (rest & Hr%ok_or_Ok%strip_prefix_Some & Hf)%bind_Ok.
    apply bind_Ok in Hf as ([address_str checksum] & Hsplit & Hf).
    destruct (rsplit_once chr_underscore rest) as [[l [|c r]]|] eqn:Hrs; [done| |done]. injection Hsplit as <- <-.
    apply rsplit_once_Some in Hrs as [-> Hn]. apply bind_Ok in Hf as ([] & Hd%ensure_Ok & Hf).
    unfold sidechain_address_from_str in Hf. apply bind_Ok in Hf as (b & Hb%ok_or_Ok & Hf).
    apply bind_Ok in Hf as ([] & Hl%ensure_Ok%Nat.eqb_eq & [= <-]). exists l, (c :: r). by split_and!.
  - intros (address_str & checksum & -> & Hn & Hne & Hd & Hb & Hl). by apply Hok.
  - intros Hl. unfold format_for_deposit. rewrite <-!app_assoc. cbn [app].
    set (digest := sha256 _). apply Hok; [by apply en_hex_underscore| | |by apply en_base58|done].
    + intros He%(f_equal length). rewrite en_hex_length, length_take in He by done. unfold digest in He.
      rewrite en_sha256 in He by done. done.
    + rewrite en_hex_lower by done. unfold starts_with.
      pose proof (en_hex_app Hs (take 3 digest) (drop 3 digest)) as Hx. rewrite take_drop in Hx.
      unfold digest, as_base58 in Hx |- *. by rewrite Hx, strip_prefix_app.
Qed.

(** Every key has exactly one string: the one it is encoded as is decoded to it, and no other
    string is, be it in the other variant of Bech32 or in upper case. It is refused where a key of
    another kind is expected. *)
Theorem bech32m_canonical `{EncodingExternals} {K L : Type} `{!Bech32mKey K} `{!Bech32mKeyLaws K} `{!Bech32mKey L}
    (s : str) (k : K) :
  encoding_spec ->
  (bech32m_decode s = Ok k <-> s = bech32m_encode k) /\
  bech32m_key_deserialize true (bech32m_key_serialize true k) = Some k /\
  (BECH32M_HRP K <> BECH32M_HRP L ->
   bech32m_decode (K := L) (bech32m_encode k) = Err (Bech32m_WrongHrp (BECH32M_HRP L) (BECH32M_HRP K))).
Proof.
  intros Hs. assert (bech32_decode (bech32m_encode k) = Some (BECH32M_HRP K, key_to_bytes k)) as Hdec.
  { apply en_bech32m; [done|apply key_hrp|]. rewrite key_to_bytes_length. apply key_short. }
  assert (bech32m_decode (bech32m_encode k) = Ok k) as Hrt.
  { unfold bech32m_decode. rewrite Hdec. cbn [ok_or mbind result_bind].
    rewrite bool_decide_true by done. cbn [ensure mbind result_bind]. rewrite key_to_bytes_length, Nat.eqb_refl.
    cbn [ensure mbind result_bind]. rewrite key_of_to_bytes. cbn [ok_or mbind result_bind].
    by rewrite bool_decide_true. }
  split_and!.
  - split; [|by intros ->]. unfold bech32m_decode. intros Hd. apply bind_Ok in Hd as ([hrp data] & _ & Hd).
    res_inv. by apply bool_decide_eq_true in Hx2.
  - cbn. by rewrite Hrt.
  - intros Hne. unfold bech32m_decode. rewrite Hdec. cbn [ok_or mbind result_bind].
    by rewrite bool_decide_false.
Qed.

(** A key in Base58 with a checksum is read back, from strings and from bytes, and is refused
    where a key of a kind with another prefix or another length is expected. *)
Theorem base58ck_roundtrip `{EncodingExternals} {K L : Type} `{!Base58Encoding K} (valid : K -> Prop)
    `{!Base58EncodingLaws K valid} `{!Base58Encoding L} (k : K) (human : bool) :
  encoding_spec -> valid k ->
  base58ck_decode (base58ck_encode k) = Ok k /\
  base58_key_deserialize human (base58_key_serialize human k) = Some k /\
  (take (length (B58_DATA_PREFIX L)) (base58_data k) <> B58_DATA_PREFIX L ->
   forall l, base58ck_decode (K := L) (base58ck_encode k) <> Ok l).
Proof.
  intros Hs Hv. assert (base58ck_decode (base58ck_encode k) = Ok k) as Hrt.
  { unfold base58ck_decode, base58ck_encode, base58_data. rewrite en_base58_check by done. cbn [ok_or mbind result_bind].
    rewrite length_app, (b58_to_bytes_length k), Nat.eqb_refl. cbn [ensure mbind result_bind].
    rewrite take_app_length, drop_app_length, bool_decide_true by done. cbn [ensure mbind result_bind].
    by rewrite b58_try_from_to_bytes. }
  split_and!; [done| |].
  - destruct human; cbn; [by rewrite Hrt|]. by rewrite (b58_to_bytes_length k), Nat.eqb_refl, b58_try_from_to_bytes.
  - intros Hne l Hd. unfold base58ck_decode, base58ck_encode in Hd. rewrite en_base58_check in Hd by done.
    cbn [ok_or mbind result_bind] in Hd. apply bind_Ok in Hd as ([] & _ & Hd).
    apply bind_Ok in Hd as ([] & Hp%ensure_Ok%bool_decide_eq_true & _). done.
Qed.
