(* ===== verification/Derivation.v ===== *)
(** * Derivation paths from bytes

    [src/lib/wallet/util.rs]: child indexes of derivation paths read off byte strings, 31 bits each so that none sets the
    hardened bit, and the derivation of public keys along a path. *)

From S2P Require Import Prelude Types Wallet.

(** ** Machine integers *)

(** [<<] on [u8] and on [u32], which drops the bits beyond the width *)
Definition u8_shl (x k : N) : N := N.shiftl x k mod 2 ^ 8.
Definition u32_shl (x k : N) : N := N.shiftl x k mod 2 ^ 32.

(** ** Paths *)

Definition child_indexes_from_bytes8 (b0 b1 b2 b3 b4 b5 b6 b7 : N) : list u32 :=
  let c0 := le_value [b0; b1; b2; N.land b3 127] in
  let c1 := le_value [N.lor (N.shiftr b3 7) (u8_shl b4 1);
                      N.lor (N.shiftr b4 7) (u8_shl b5 1);
                      N.lor (N.shiftr b5 7) (u8_shl b6 1);
                      N.lor (N.shiftr b6 7) (N.land (u8_shl b7 1) 127)] in
  let c2 := le_value [N.shiftr b7 6; 0; 0; 0] in
  [c0; c1; c2].

(** The body of the loop over the 32 bytes: byte [idx] goes to the word that holds its first bit, and what does not fit
    there to the next word. *)
Definition place_byte (bytes : bytes) (res : list u32) (idx : nat) : list u32 :=
  let byte := bytes !!! idx in
  let bit_start := (idx * 8)%nat in
  let u32_idx_lo := (bit_start / 31)%nat in
  let bit_offset_lo := (bit_start mod 31)%nat in
  let bits_in_current := Nat.min 8 (31 - bit_offset_lo) in
  if (u32_idx_lo <? 9)%nat then
    let mask := u32_shl 1 (N.of_nat bits_in_current) - 1 in
    let bits_to_place := N.land byte mask in
    let res := <[u32_idx_lo := N.lor (res !!! u32_idx_lo)
                                     (u32_shl bits_to_place (N.of_nat bit_offset_lo))]> res in
    let remaining_bits := (8 - bits_in_current)%nat in
    if ((0 <? remaining_bits) && (u32_idx_lo + 1 <? 9))%nat then
      let remaining_byte_bits := N.shiftr byte (N.of_nat bits_in_current) in
      <[(u32_idx_lo + 1)%nat := N.lor (res !!! (u32_idx_lo + 1)%nat) remaining_byte_bits]> res
    else res
  else res.
Definition child_indexes_from_bytes32 (bytes : bytes) : list u32 :=
  foldl (place_byte bytes) (replicate 9 0) (seq 0 32).

Definition derivation_path_from_bytes8 (b0 b1 b2 b3 b4 b5 b6 b7 : N) (hardened : bool) : list ChildNumber :=
  let indexes := child_indexes_from_bytes8 b0 b1 b2 b3 b4 b5 b6 b7 in
  if hardened then Hardened <$> indexes else Normal <$> indexes.
Definition derivation_path_from_bytes32 (bytes : bytes) (hardened : bool) : list ChildNumber :=
  let indexes := child_indexes_from_bytes32 bytes in
  if hardened then Hardened <$> indexes else Normal <$> indexes.

(** The two unit tests of the file *)
Example child_indexes_8 :
  child_indexes_from_bytes8 0 1 2 0xcc 4 5 6 0xaa = [0x4c020100; 0x540c0a09; 0x00000002].
Proof. reflexivity. Qed.
Example child_indexes_32 :
  child_indexes_from_bytes32 (N.of_nat <$> seq 0 32) =
  [0x03020100; 0x0e0c0a08; 0x2c282420; 0x78706860; 0x31211100; 0x62c2a282; 0x46864605; 0x0f0e8e0d; 0x0000001f].
Proof. vm_compute. reflexivity. Qed.

(** ** What the indexes are

    The reference: the digits in base [2 ^ 31] of the number that the bytes spell. *)
Definition digit31 (v : N) (j : nat) : N := (v / 2 ^ (31 * N.of_nat j)) mod 2 ^ 31.
Definition digits31 (k : nat) (v : N) : list N := digit31 v <$> seq 0 k.
(** The number with given digits *)
Definition of_digits31 (ds : list N) : N := foldr (fun d v => d + 2 ^ 31 * v) 0 ds.

Lemma digit31_bound v j : digit31 v j < 2 ^ 31.
Proof. by apply N.mod_lt. Qed.
Lemma testbit_digit31 v j i :
  N.testbit (digit31 v j) i = (i <? 31) && N.testbit v (31 * N.of_nat j + i).
Proof.
  unfold digit31. destruct (N.ltb_spec i 31).
  - rewrite N.mod_pow2_bits_low, N.div_pow2_bits by done. cbn. f_equal. lia.
  - by rewrite N.mod_pow2_bits_high.
Qed.

Lemma digits31_S k v : digits31 (S k) v = v mod 2 ^ 31 :: digits31 k (v / 2 ^ 31).
Proof.
  unfold digits31. cbn [seq fmap list_fmap]. rewrite <-fmap_S_seq, <-list_fmap_compose. f_equal.
  - unfold digit31. cbn -[N.pow]. by rewrite N.div_1_r.
  - apply list_fmap_ext. intros _ j _. unfold digit31. cbn [compose].
    rewrite N.Div0.div_div, <-N.pow_add_r. do 3 f_equal. lia.
Qed.
Lemma of_digits31_digits k v : of_digits31 (digits31 k v) = v mod 2 ^ (31 * N.of_nat k).
Proof.
  revert v. induction k as [|k IH]; intros v.
  - cbn. by rewrite N.mod_1_r.
  - rewrite digits31_S. cbn -[N.pow N.modulo N.div N.mul N.of_nat digits31]. fold (of_digits31 (digits31 k (v / 2 ^ 31))).
    rewrite IH. replace (31 * N.of_nat (S k)) with (31 + 31 * N.of_nat k) by lia.
    rewrite N.pow_add_r, N.Div0.mod_mul_r. done.
Qed.
(** Numbers below [2 ^ 31] are the digits of the number they make. *)
Lemma digits31_of ds : Forall (fun d => d < 2 ^ 31) ds -> digits31 (length ds) (of_digits31 ds) = ds.
Proof.
  induction 1 as [|d ds Hd _ IH]; [done|]. cbn [length of_digits31 foldr]. fold (of_digits31 ds).
  rewrite digits31_S, (N.mul_comm (2 ^ 31)), N.Div0.mod_add, N.div_add by done.
  rewrite N.mod_small, N.div_small by done. by rewrite N.add_0_l, IH.
Qed.

(** ** Eight bytes *)

(** A carry of one bit below seven bits of the next byte *)
Lemma lor_carry (a b : N) : is_byte a -> is_byte b ->
  N.lor (N.shiftr a 7) (u8_shl b 1) = a / 128 + 2 * (b mod 128).
Proof.
  intros Ha Hb. unfold u8_shl. rewrite N.shiftr_div_pow2, N.shiftl_mul_pow2.
  replace ((b * 2 ^ 1) mod 2 ^ 8) with ((b mod 128) * 2 ^ 1)
    by (rewrite (N.mul_comm b (2 ^ 1)), (N.mul_comm (b mod 128)); symmetry; apply (N.Div0.mul_mod_distr_l b 128 2)).
  assert (a / 2 ^ 7 < 2 ^ 1) by (apply N.Div0.div_lt_upper_bound; lia).
  transitivity (a / 2 ^ 7 + b mod 128 * 2 ^ 1); [|change (2 ^ 7) with 128; lia].
  apply N.bits_inj. intros i. rewrite N.lor_spec, testbit_add_high by done.
  destruct (N.ltb_spec i 1).
  - rewrite N.mul_pow2_bits_low by done. apply orb_false_r.
  - rewrite (testbit_above (a / 2 ^ 7) 1) by done. by rewrite N.mul_pow2_bits_high.
Qed.

Lemma shl_mask (b : N) : is_byte b -> N.land (u8_shl b 1) 127 = u8_shl (b mod 64) 1.
Proof.
  intros Hb. apply N.eqb_eq.
  by apply (byte_cases (fun b => N.land (u8_shl b 1) 127 =? u8_shl (b mod 64) 1)).
Qed.

(** The parts of 31, 31 and 2 bits add up to the number. *)
Lemma child_indexes8_sum b0 b1 b2 b3 b4 b5 b6 b7 : Forall (fun b => is_byte b) [b0; b1; b2; b3; b4; b5; b6; b7] ->
  of_digits31 (child_indexes_from_bytes8 b0 b1 b2 b3 b4 b5 b6 b7) = le_value [b0; b1; b2; b3; b4; b5; b6; b7] /\
  Forall (fun d => d < 2 ^ 31) (child_indexes_from_bytes8 b0 b1 b2 b3 b4 b5 b6 b7).
Proof.
  rewrite !Forall_cons. intros (H0 & H1 & H2 & H3 & H4 & H5 & H6 & H7 & _).
  unfold child_indexes_from_bytes8. rewrite shl_mask by done.
  assert (b7 mod 64 < 64) by by apply N.mod_lt.
  rewrite !lor_carry, (N.mod_small (b7 mod 64)) by lia.
  change 127 with (N.ones 7). rewrite N.land_ones, N.shiftr_div_pow2.
  change (2 ^ 7) with 128. change (2 ^ 6) with 64. change (2 ^ 31) with 2147483648.
  repeat match goal with |- context [?x mod ?m] =>
    let q := fresh "q" in let r := fresh "r" in
    pose proof (N.div_mod x m ltac:(done)); pose proof (N.mod_lt x m ltac:(done));
    set (q := x / m) in *; set (r := x mod m) in *; clearbody q r
  end.
  unfold of_digits31. cbn -[N.mul N.add]. rewrite !Forall_cons, Forall_nil. lia.
Qed.

(** ** Thirty-two bytes *)

Section place_byte.
Context (bytes : bytes) (Hbytes : Forall (fun b => is_byte b) bytes).

Lemma le_value_take (n : nat) b : bytes !! n = Some b ->
  le_value (take n bytes) < 2 ^ (8 * N.of_nat n) /\ is_byte b /\
  le_value (take (S n) bytes) = le_value (take n bytes) + b * 2 ^ (8 * N.of_nat n).
Proof.
  intros Hb. rewrite <-pow256.
  assert (length (take n bytes) = n) as Hn by (apply lookup_lt_Some in Hb; rewrite length_take; lia).
  repeat split.
  - rewrite <-Hn at 2. by apply le_value_bound, Forall_take.
  - by apply (Forall_lookup_1 _ _ _ _ Hbytes Hb).
  - erewrite take_S_r by done. by rewrite le_value_snoc, Hn.
Qed.

(** The part of a byte that the word with its first bit takes *)
Lemma placed_bits (b i : N) (off : nat) : is_byte b -> (off < 31)%nat ->
  let k := N.of_nat (Nat.min 8 (31 - off)) in
  N.testbit (u32_shl (N.land b (u32_shl 1 k - 1)) (N.of_nat off)) i =
  (i <? 31) && (N.of_nat off <=? i) && N.testbit b (i - N.of_nat off).
Proof.
  intros Hb Hoff k. assert (Hk : k <= 8) by lia.
  assert (u32_shl 1 k - 1 = N.ones k) as ->.
  { unfold u32_shl, N.ones. rewrite N.mod_small; [lia|]. rewrite N.shiftl_1_l. apply N.pow_lt_mono_r; lia. }
  unfold u32_shl. destruct (N.lt_ge_cases i 32) as [Hi|Hi].
  - rewrite N.mod_pow2_bits_low by done. destruct (N.leb_spec (N.of_nat off) i) as [Ho|Ho].
    + rewrite N.shiftl_spec_high' by done. rewrite N.land_spec, andb_true_r.
      destruct (N.lt_ge_cases (i - N.of_nat off) k).
      * rewrite N.ones_spec_low, andb_true_r by done. rewrite (proj2 (N.ltb_lt i 31)) by lia. done.
      * rewrite N.ones_spec_high, andb_false_r by done.
        destruct (N.ltb_spec i 31); [|done]. symmetry. apply (testbit_above _ 8); [done|lia].
    + rewrite N.shiftl_spec_low by done. by rewrite andb_false_r.
  - rewrite N.mod_pow2_bits_high by done. by rewrite (proj2 (N.ltb_ge i 31)) by lia.
Qed.

(** The bits of byte [n] in word [j] *)
Definition added_bit (n : nat) (b : N) (j : nat) (i : N) : bool :=
  (i <? 31) && (8 * N.of_nat n <=? 31 * N.of_nat j + i) &&
  N.testbit b (31 * N.of_nat j + i - 8 * N.of_nat n).

Lemma digit31_step (n : nat) (b v w : N) (j : nat) : v < 2 ^ (8 * N.of_nat n) ->
  (forall i, N.testbit w i = added_bit n b j i) ->
  N.lor (digit31 v j) w = digit31 (v + b * 2 ^ (8 * N.of_nat n)) j.
Proof.
  intros Hv Hw. apply N.bits_inj. intros i.
  rewrite N.lor_spec, !testbit_digit31, testbit_add_high, Hw by done. unfold added_bit.
  destruct (i <? 31); [|done]. cbn [andb].
  destruct (N.ltb_spec (31 * N.of_nat j + i) (8 * N.of_nat n)) as [Hlt|Hge].
  - rewrite (proj2 (N.leb_gt _ _)) by done. apply orb_false_r.
  - rewrite (testbit_above v (8 * N.of_nat n)) by done. by rewrite (proj2 (N.leb_le _ _)).
Qed.
Lemma digit31_untouched (n : nat) (b v : N) (j : nat) : v < 2 ^ (8 * N.of_nat n) -> 
  (forall i, added_bit n b j i = false) -> digit31 (v + b * 2 ^ (8 * N.of_nat n)) j = digit31 v j.
Proof.
  intros Hv Hn. rewrite <-(digit31_step n b v 0 j), N.lor_0_r; [done|done|].
  intros i. by rewrite Hn, N.bits_0.
Qed.

Lemma lookup_digits31 k v j : digits31 k v !! j = if decide (j < k)%nat then Some (digit31 v j) else None.
Proof.
  unfold digits31. rewrite list_lookup_fmap. case_decide.
  - by rewrite lookup_seq_lt.
  - by rewrite lookup_seq_ge by lia.
Qed.
Lemma lookup_total_digits31 k v j : (j < k)%nat -> digits31 k v !!! j = digit31 v j.
Proof. intros Hj. apply list_lookup_total_correct. by rewrite lookup_digits31, decide_True. Qed.

Lemma digits31_eq k v l :
  length l = k -> (forall j, (j < k)%nat -> l !!! j = digit31 v j) -> l = digits31 k v.
Proof.
  intros Hl Hj. apply list_eq. intros j. rewrite lookup_digits31. case_decide as Hlt.
  - rewrite <-Hj by done. apply list_lookup_lookup_total_lt. lia.
  - apply lookup_ge_None. lia.
Qed.

Section step.
Context (n lo off : nat) (b : N).
Context (Hb : is_byte b) (Hn : (n * 8 = 31 * lo + off)%nat) (Hoff : (off < 31)%nat).

Lemma added_first i :
  N.testbit (u32_shl (N.land b (u32_shl 1 (N.of_nat (Nat.min 8 (31 - off))) - 1)) (N.of_nat off)) i =
  added_bit n b lo i.
Proof.
  rewrite placed_bits by done. unfold added_bit.
  replace (31 * N.of_nat lo + i - 8 * N.of_nat n) with (i - N.of_nat off) by lia.
  do 2 f_equal. apply Bool.eq_iff_eq_true. rewrite !N.leb_le. lia.
Qed.
Lemma added_next i : (0 < 8 - Nat.min 8 (31 - off))%nat ->
  N.testbit (N.shiftr b (N.of_nat (Nat.min 8 (31 - off)))) i = added_bit n b (lo + 1) i.
Proof.
  intros Hr. rewrite N.shiftr_spec'. unfold added_bit.
  rewrite (proj2 (N.leb_le _ _)) by lia. rewrite andb_true_r.
  replace (31 * N.of_nat (lo + 1) + i - 8 * N.of_nat n) with (i + N.of_nat (Nat.min 8 (31 - off))) by lia.
  destruct (N.ltb_spec i 31); [done|]. apply (testbit_above _ 8); [done|lia].
Qed.
Lemma added_other j i : j <> lo -> (j <> lo + 1 \/ 8 - Nat.min 8 (31 - off) = 0)%nat -> added_bit n b j i = false.
Proof.
  intros Hlo Hnext. unfold added_bit. destruct (N.ltb_spec i 31); [|done].
  destruct (N.leb_spec (8 * N.of_nat n) (31 * N.of_nat j + i)); [|done].
  apply (testbit_above _ 8); [done|]. lia.
Qed.
End step.

(** Word [j] after word [lo] was written: the byte changes no other word. *)
Ltac update_word j lo :=
  destruct (decide (j = lo)) as [->|];
    [by rewrite list_lookup_total_insert_eq|];
  rewrite list_lookup_total_insert_ne, lookup_total_digits31 by (done || by symmetry);
  symmetry; apply digit31_untouched; [done|]; intros; eapply added_other; eauto; lia.

Lemma place_byte_digits (n : nat) b : (n < 32)%nat -> bytes !! n = Some b ->
  place_byte bytes (digits31 9 (le_value (take n bytes))) n = digits31 9 (le_value (take (S n) bytes)).
Proof.
  intros Hn Hlook. destruct (le_value_take n b Hlook) as (Hv & Hb & ->).
  unfold place_byte. rewrite (list_lookup_total_correct _ _ _ Hlook).
  pose proof (Nat.div_mod_eq (n * 8) 31) as Hdm. pose proof (Nat.mod_upper_bound (n * 8) 31 ltac:(done)) as Hoff.
  assert (n * 8 / 31 < 9)%nat as Hlo by (apply Nat.Div0.div_lt_upper_bound; lia).
  set (lo := (n * 8 / 31)%nat) in *. set (off := ((n * 8) mod 31)%nat) in *. clearbody lo off.
  rewrite (proj2 (Nat.ltb_lt _ _) Hlo), lookup_total_digits31 by done.
  rewrite (digit31_step n b) by (done || by intros; apply added_first).
  destruct (Nat.ltb_spec 0 (8 - Nat.min 8 (31 - off))) as [Hr|Hr]; cbn [andb];
    [destruct (Nat.ltb_spec (lo + 1) 9) as [H9|H9]|].
  - rewrite list_lookup_total_insert_ne, lookup_total_digits31 by lia.
    rewrite (digit31_step n b) by (done || by intros; eapply added_next).
    apply digits31_eq; [by rewrite !length_insert|]. intros j Hj.
    destruct (decide (j = lo + 1)%nat) as [->|Hj1]; [by rewrite list_lookup_total_insert_eq by (by rewrite length_insert)|].
    rewrite list_lookup_total_insert_ne by (by symmetry). update_word j lo.
  - apply digits31_eq; [by rewrite !length_insert|]. intros j Hj. update_word j lo.
  - apply digits31_eq; [by rewrite !length_insert|]. intros j Hj. update_word j lo.
Qed.
End place_byte.

(** The child indexes of 32 bytes are the nine digits in base [2 ^ 31] of the number that the bytes spell: every bit of
    the bytes is in exactly one index, and no index sets the bit of hardened children. *)
Theorem child_indexes32_digits (bytes : bytes) : length bytes = 32%nat -> Forall (fun b => is_byte b) bytes ->
  child_indexes_from_bytes32 bytes = digits31 9 (le_value bytes).
Proof.
  intros Hlen Hbytes.
  assert (forall n, (n <= 32)%nat -> foldl (place_byte bytes) (replicate 9 0) (seq 0 n) = digits31 9 (le_value (take n bytes)))
    as Hloop.
  { intros n. induction n as [|n IH]; intros Hn; [done|].
    rewrite seq_S, foldl_app, IH by lia. cbn [foldl Nat.add].
    destruct (lookup_lt_is_Some_2 bytes n) as [b Hb]; [lia|]. by eapply place_byte_digits. }
  unfold child_indexes_from_bytes32. rewrite Hloop by done. by rewrite take_ge by lia.
Qed.
(** The same for 8 bytes and three indexes. *)
Theorem child_indexes8_digits b0 b1 b2 b3 b4 b5 b6 b7 : Forall (fun b => is_byte b) [b0; b1; b2; b3; b4; b5; b6; b7] ->
  child_indexes_from_bytes8 b0 b1 b2 b3 b4 b5 b6 b7 = digits31 3 (le_value [b0; b1; b2; b3; b4; b5; b6; b7]).
Proof.
  intros Hb. destruct (child_indexes8_sum _ _ _ _ _ _ _ _ Hb) as [<- Hd]. by rewrite <-(digits31_of _ Hd) at 1.
Qed.

(** ** Paths lose nothing *)

Definition child_index (c : ChildNumber) : u32 := match c with Normal index | Hardened index => index end.

Lemma le_value_inj bs bs' : length bs = length bs' -> Forall (fun b => is_byte b) bs -> Forall (fun b => is_byte b) bs' ->
  le_value bs = le_value bs' -> bs = bs'.
Proof. intros Hl Hb Hb' Hv. by rewrite <-(le_bytes_value bs), <-(le_bytes_value bs'), Hl, Hv. Qed.

(** Two strings of 32 bytes with one path are equal, and every step of a path asks for the kind of child that it was
    made for: the conversion to the numbers that keys are derived with keeps the index and marks hardened children only. *)
Theorem derivation_path32_faithful (bytes bytes' : bytes) (hardened hardened' : bool) :
  length bytes = 32%nat -> length bytes' = 32%nat ->
  Forall (fun b => is_byte b) bytes -> Forall (fun b => is_byte b) bytes' ->
  derivation_path_from_bytes32 bytes hardened = derivation_path_from_bytes32 bytes' hardened' ->
  bytes = bytes' /\ hardened = hardened' /\
  Forall (fun c => child_number_u32 c = child_index c + if hardened then 2 ^ 31 else 0)
    (derivation_path_from_bytes32 bytes hardened).
Proof.
  intros Hl Hl' Hb Hb'. unfold derivation_path_from_bytes32. rewrite !child_indexes32_digits by done. intros Heq.
  assert (digits31 9 (le_value bytes) = digits31 9 (le_value bytes') /\ hardened = hardened') as [Hd ->].
  { destruct hardened, hardened'; [|done|done|];
      (split; [|done]); eapply list_fmap_eq_inj; try exact Heq; by intros ?? [= ?]. }
  split; [|split; [done|]].
  - apply le_value_inj; [by rewrite Hl|done|done|].
    apply (f_equal of_digits31) in Hd. rewrite !of_digits31_digits in Hd.
    rewrite !N.mod_small in Hd; [done|..]; eapply N.lt_le_trans; try by apply le_value_bound.
    all: rewrite ?Hl, ?Hl'; by vm_compute.
  - assert (Forall (fun d => N.lor d (2 ^ 31) = d + 2 ^ 31) (digits31 9 (le_value bytes))) as Hlor.
    { apply Forall_fmap, Forall_true. intros j. cbn.
      pose proof (digit31_bound (le_value bytes) j). by apply lor_pow2. }
    destruct hardened'; apply Forall_fmap; eapply Forall_impl; try exact Hlor; cbn; intros; lia.
Qed.

(** ** Public keys *)

(** [ed25519_bip32::DerivationError] *)
Inductive DerivationError : Type := InvalidAddition | ExpectedSoftDerivation.
(** [XPub::derive] of [ed25519_bip32] *)
Class XPubExternals : Type := xpub_derive : XPub -> u32 -> result DerivationError XPub.

(** Its documented behaviour: a public key derives the public keys of the children that are not hardened, and no
    hardened one. *)
Record xpub_spec `{WalletExternals} `{XPubExternals} : Prop := {
  xs_soft x i : i < 2 ^ 31 -> xpub_derive (xprv_public x) i = Ok (xprv_public (xprv_derive x i));
  xs_hard x i : 2 ^ 31 <= i -> xpub_derive x i = Err ExpectedSoftDerivation;
}.

Definition derive_xpub `{XPubExternals} (xpub : XPub) (path : list ChildNumber) : result DerivationError XPub :=
  fold_res (fun xpub child_number => xpub_derive xpub (child_number_u32 child_number)) path xpub.

Definition soft (c : ChildNumber) : Prop := child_number_u32 c < 2 ^ 31.

Section derive_xpub.
Context `{Externals} `{WalletExternals} `{XPubExternals} (Hspec : xpub_spec).

(** Deriving public keys commutes with deriving secret keys along paths without hardened steps. *)
Lemma derive_xpub_soft (x : XPrv) path : Forall soft path ->
  derive_xpub (xprv_public x) path = Ok (xprv_public (derive_xprv x path)).
Proof.
  intros Hp. revert x. induction Hp as [|c path Hc _ IH]; intros x; [done|].
  unfold derive_xpub. cbn. rewrite xs_soft by done. cbn. apply IH.
Qed.
(** The master verifying key that the wallet hands out derives the public key of every index below [2 ^ 31], as the
    wallet derives the secret one, and nothing of the indexes beyond. *)
Theorem master_xvk_derives (w : Wallet) (xvk : XPub) (index : u32) : get_master_xvk w = Ok xvk ->
  exists master, get_master_xprv w = Ok master /\
    derive_xpub xvk [Normal index] =
    if index <? 2 ^ 31 then Ok (xprv_public (derive_xprv master (derivation_path (TxSigning index))))
    else Err ExpectedSoftDerivation.
Proof.
  unfold get_master_xvk, get_master_xsk. intros Hx.
  destruct (get_master_xprv w) as [master|e|] eqn:Hm; [|discriminate|discriminate].
  cbn in Hx. injection Hx as <-. exists master. split; [done|].
  destruct (N.ltb_spec index (2 ^ 31)) as [Hi|Hi].
  - rewrite derive_xpub_soft by (by repeat constructor). unfold derive_xprv. cbn [derivation_path].
    by rewrite foldl_app.
  - unfold derive_xpub. cbn. by rewrite xs_hard.
Qed.
End derive_xpub.
