(* ===== verification/OutPointKey.v ===== *)
(** * Keys of outpoints

    [OutPointKey] of [src/types/transaction/mod.rs]: the 37 bytes under which the databases store an outpoint, how they are
    written, read back and compared. The encoding itself is derived by [borsh] and is a parameter; [Borsh] below has the
    format that the crate documents. *)

From S2P Require Import Prelude Types.

Definition OUTPOINT_KEY_SIZE : nat := 37.

(** An outpoint as it is at run time: a txid of 32 bytes and a [u32]. *)
Definition outpoint_fits (o : OutPoint) : bool :=
  match o with
  | OutPoint_Regular t v | OutPoint_Coinbase t v | OutPoint_Deposit t v => (t <? 2 ^ 256) && (v <? 2 ^ 32)
  end.

(** Errors of reading and writing; [UnexpectedEof] and unknown variants are [InvalidData] for [borsh]. *)
Inductive IoError : Type := WriteZero | InvalidData.

(** The encoder of outpoints, and the decoder, which also returns what it did not read *)
Class BorshOutPoint : Type := {
  borsh_serialize : OutPoint -> bytes;
  borsh_deserialize_reader : bytes -> result IoError (OutPoint * bytes);
}.
(** What [borsh] documents: an encoding is decoded to what was encoded, whatever follows it; there is one
    encoding for each value; enumerations have a byte for the variant, integers and arrays have a fixed width. *)
Record borsh_spec `{BorshOutPoint} : Prop := {
  bo_decode o rest : outpoint_fits o = true -> borsh_deserialize_reader (borsh_serialize o ++ rest) = Ok (o, rest);
  bo_canonical bs o rest : Forall (fun b => is_byte b) bs -> borsh_deserialize_reader bs = Ok (o, rest) ->
    outpoint_fits o = true /\ bs = borsh_serialize o ++ rest;
  bo_length o : outpoint_fits o = true -> length (borsh_serialize o) = OUTPOINT_KEY_SIZE;
  bo_bytes o : Forall (fun b => is_byte b) (borsh_serialize o);
}.

(** ** Operations *)

(** [write_all] to a [Cursor] over a fixed buffer that was filled with zeros *)
Definition write_all (buffer bs : bytes) : result IoError bytes :=
  if (length bs <=? length buffer)%nat then Ok (bs ++ drop (length bs) buffer) else Err WriteZero.

Section outpoint_key.
Context `{BorshOutPoint}.

Definition OutPointKey : Type := bytes.

Definition to_outpoint (key : OutPointKey) : result IoError OutPoint :=
  match borsh_deserialize_reader key with Ok (o, _) => Ok o | _ => Panic end.
Definition from_outpoint (op : OutPoint) : result IoError OutPointKey :=
  match write_all (replicate OUTPOINT_KEY_SIZE 0) (borsh_serialize op) with Ok key => Ok key | _ => Panic end.
Definition key_cmp (a b : OutPointKey) : comparison :=
  if bytes_ltb a b then Lt else if bytes_ltb b a then Gt else Eq.

(** [BytesEncode] and [BytesDecode], through which the databases read and write keys *)
Inductive KeyDecodeError : Type := KeyLength | KeyInvalid (e : IoError).
Definition bytes_encode (item : OutPointKey) : result KeyDecodeError bytes := Ok item.
Definition bytes_decode (bs : bytes) : result KeyDecodeError OutPointKey :=
  if negb (length bs =? OUTPOINT_KEY_SIZE)%nat then Err KeyLength else
  match borsh_deserialize_reader bs with
  | Ok _ => Ok bs
  | Err e => Err (KeyInvalid e)
  | Panic => Panic
  end.

(** ** Round trips *)

Section keys.
Context (Hspec : borsh_spec).

(** Writing an outpoint to a key fills the key. *)
Lemma from_outpoint_ok o : outpoint_fits o = true -> from_outpoint o = Ok (borsh_serialize o).
Proof.
  intros Ho. unfold from_outpoint, write_all. rewrite length_replicate, bo_length by done. cbn [Nat.leb].
  rewrite Nat.leb_refl, drop_ge by (by rewrite length_replicate). by rewrite app_nil_r.
Qed.
Lemma to_outpoint_ok o : outpoint_fits o = true -> to_outpoint (borsh_serialize o) = Ok o.
Proof. intros Ho. unfold to_outpoint. rewrite <-(app_nil_r (borsh_serialize o)). by rewrite bo_decode. Qed.

(** Every outpoint has a key, the key is read back from a database, and it names that outpoint. *)
Theorem outpoint_key_roundtrip (o : OutPoint) : outpoint_fits o = true ->
  exists key, from_outpoint o = Ok key /\ length key = OUTPOINT_KEY_SIZE /\
    (bytes_encode key ≫= bytes_decode) = Ok key /\ to_outpoint key = Ok o.
Proof.
  intros Ho. exists (borsh_serialize o). rewrite from_outpoint_ok, to_outpoint_ok, bo_length by done.
  do 2 (split; [done|]). split; [|done]. cbn. unfold bytes_decode. rewrite bo_length by done. cbn [negb Nat.eqb].
  rewrite <-(app_nil_r (borsh_serialize o)) at 1. by rewrite bo_decode.
Qed.

(** The keys that a database accepts are those of outpoints: reading bytes either fails or gives the key of exactly one
    outpoint, so that taking the outpoint of a stored key does not panic. *)
Theorem bytes_decode_exact (bs key : bytes) : Forall (fun b => is_byte b) bs ->
  bytes_decode bs = Ok key <-> key = bs /\ exists o, outpoint_fits o = true /\ from_outpoint o = Ok key /\ to_outpoint key = Ok o.
Proof.
  intros Hbs. unfold bytes_decode. split.
  - destruct (Nat.eqb_spec (length bs) OUTPOINT_KEY_SIZE) as [Hlen|]; [|done]. cbn [negb].
    destruct (borsh_deserialize_reader bs) as [[o rest]|e|] eqn:Hd; [|discriminate|discriminate]. intros [= <-].
    split; [done|]. exists o. destruct (bo_canonical Hspec _ _ _ Hbs Hd) as [Ho ->].
    rewrite length_app, bo_length in Hlen by done.
    destruct rest as [|? rest]; [|cbn in Hlen; unfold OUTPOINT_KEY_SIZE in Hlen; lia]. rewrite app_nil_r.
    split; [done|]. split; [by apply from_outpoint_ok|by apply to_outpoint_ok].
  - intros (-> & o & Ho & Hfrom & _). rewrite from_outpoint_ok in Hfrom by done. injection Hfrom as <-.
    rewrite bo_length by done. cbn [negb Nat.eqb]. rewrite <-(app_nil_r (borsh_serialize o)) at 1. by rewrite bo_decode.
Qed.

(** Distinct outpoints have distinct keys, and keys are in a linear order. *)
Lemma from_outpoint_inj o o' key : outpoint_fits o = true -> outpoint_fits o' = true ->
  from_outpoint o = Ok key -> from_outpoint o' = Ok key -> o = o'.
Proof.
  intros Ho Ho'. rewrite !from_outpoint_ok by done. intros [= <-] [= Heq].
  apply (f_equal to_outpoint) in Heq. rewrite !to_outpoint_ok in Heq by done. by injection Heq.
Qed.
Lemma key_cmp_eq a b : key_cmp a b = Eq <-> a = b.
Proof.
  unfold key_cmp. split; [|intros ->; by rewrite bytes_ltb_irrefl].
  destruct (bytes_ltb a b) eqn:?; [done|]. destruct (bytes_ltb b a) eqn:?; [done|]. intros _. by apply bytes_ltb_total.
Qed.
End keys.
End outpoint_key.

(** ** The format *)

Module Borsh.
Definition key_tag (o : OutPoint) : N :=
  match o with OutPoint_Regular _ _ => 0 | OutPoint_Coinbase _ _ => 1 | OutPoint_Deposit _ _ => 2 end.
Definition key_txid (o : OutPoint) : N :=
  match o with OutPoint_Regular t _ | OutPoint_Coinbase t _ | OutPoint_Deposit t _ => t end.
Definition key_vout (o : OutPoint) : u32 :=
  match o with OutPoint_Regular _ v | OutPoint_Coinbase _ v | OutPoint_Deposit _ v => v end.
(** A byte for the variant, the bytes of the txid in their order, the output number with its least significant byte first *)
Definition format (o : OutPoint) : bytes :=
  key_tag o :: be_bytes 32 (key_txid o) ++ le_bytes 4 (key_vout o).
Definition of_tag (tag : N) : option (N -> u32 -> OutPoint) :=
  match tag with
  | 0 => Some OutPoint_Regular | 1 => Some OutPoint_Coinbase | 2 => Some OutPoint_Deposit | _ => None
  end.
Definition read_format (bs : bytes) : result IoError (OutPoint * bytes) :=
  match bs with
  | [] => Err InvalidData
  | tag :: bs =>
      match of_tag tag with
      | None => Err InvalidData
      | Some variant =>
          if (length bs <? 36)%nat then Err InvalidData
          else Ok (variant (be_value (take 32 bs)) (le_value (take 4 (drop 32 bs))), drop 36 bs)
      end
  end.
#[export] Instance borsh : BorshOutPoint := {| borsh_serialize := format; borsh_deserialize_reader := read_format |}.

Lemma fits_bounds o : outpoint_fits o = true -> key_txid o < 256 ^ 32 /\ key_vout o < 256 ^ 4.
Proof. destruct o; cbn -[N.pow]; rewrite andb_true_iff, !N.ltb_lt; done. Qed.
Lemma of_tag_Some tag variant t v : of_tag tag = Some variant ->
  key_tag (variant t v) = tag /\ key_txid (variant t v) = t /\ key_vout (variant t v) = v /\
  outpoint_fits (variant t v) = (t <? 2 ^ 256) && (v <? 2 ^ 32).
Proof.
  unfold of_tag. destruct tag as [|[p|[p|p|]|]]; intros Hv; try discriminate Hv; by injection Hv as <-.
Qed.
Lemma of_tag_outpoint o : exists variant,
  of_tag (key_tag o) = Some variant /\ variant (key_txid o) (key_vout o) = o.
Proof. destruct o; eexists; done. Qed.

(** The format has the properties that the theorems rely on. *)
Lemma borsh_ok : borsh_spec.
Proof.
  assert (forall o rest, outpoint_fits o = true -> read_format (format o ++ rest) = Ok (o, rest)) as Hdec.
  { intros o rest Ho. destruct (fits_bounds o Ho) as [Ht Hv].
    destruct (of_tag_outpoint o) as (variant & Htag & Heq).
    unfold read_format, format. cbn [app]. rewrite Htag, <-app_assoc, !length_app, length_be_bytes, length_le_bytes.
    cbn -[N.pow take drop be_bytes le_bytes].
    rewrite take_app_length' by (by rewrite length_be_bytes).
    rewrite (drop_app_length' _ _ 32) by (by rewrite length_be_bytes).
    rewrite take_app_length' by (by rewrite length_le_bytes).
    rewrite app_assoc, drop_app_length' by (by rewrite length_app, length_be_bytes, length_le_bytes).
    rewrite be_value_bytes, le_value_bytes, !N.mod_small by done. by rewrite Heq. }
  split; [exact Hdec|..].
  - intros bs o rest Hbs Hd. cbn in Hd. unfold read_format in Hd. destruct bs as [|tag bs]; [done|].
    destruct (of_tag tag) as [variant|] eqn:Hvar; [|done].
    destruct (Nat.ltb_spec (length bs) 36) as [|Hlen]; [done|]. injection Hd as <- <-.
    apply Forall_cons in Hbs as [_ Hbs].
    assert (Forall (fun b => is_byte b) (take 32 bs)) as Hb1 by by apply Forall_take.
    assert (Forall (fun b => is_byte b) (take 4 (drop 32 bs))) as Hb2 by by apply Forall_take, Forall_drop.
    pose proof (be_value_bound _ Hb1) as Ht. pose proof (le_value_bound _ Hb2) as Hv.
    pose proof (be_bytes_value _ Hb1) as Et. pose proof (le_bytes_value _ Hb2) as Ev.
    rewrite length_take_le in Ht, Et by lia. rewrite length_take_le in Hv, Ev by (rewrite length_drop; lia).
    destruct (of_tag_Some _ _ (be_value (take 32 bs)) (le_value (take 4 (drop 32 bs))) Hvar) as (E1 & E2 & E3 & ->).
    split; [by rewrite andb_true_iff, !N.ltb_lt|].
    cbn [borsh_serialize borsh]. unfold format. rewrite E1, E2, E3, Et, Ev. cbn [app]. f_equal.
    rewrite <-app_assoc. change 36%nat with (32 + 4)%nat. by rewrite <-drop_drop, !take_drop.
  - intros o _. cbn [borsh_serialize borsh]. unfold format. cbn [length]. by rewrite length_app, length_be_bytes, length_le_bytes.
  - intros o. cbn [borsh_serialize borsh]. unfold format. constructor; [by destruct o|]. apply Forall_app.
    split; [apply be_bytes_are_bytes|apply le_bytes_are_bytes].
Qed.

(** Keys are ordered by variant, then txid, then the bytes of the output number from the least significant one on. *)
Theorem key_order (o o' : OutPoint) (key key' : bytes) : outpoint_fits o = true -> outpoint_fits o' = true ->
  from_outpoint o = Ok key -> from_outpoint o' = Ok key' ->
  bytes_ltb key key' =
    (key_tag o <? key_tag o') ||
    ((key_tag o =? key_tag o') &&
     ((key_txid o <? key_txid o') ||
      ((key_txid o =? key_txid o') &&
       bytes_ltb (le_bytes 4 (key_vout o)) (le_bytes 4 (key_vout o'))))).
Proof.
  intros Ho Ho'. rewrite !(from_outpoint_ok borsh_ok) by done. intros [= <-] [= <-].
  destruct (fits_bounds o Ho) as [Ht _], (fits_bounds o' Ho') as [Ht' _].
  cbn [borsh_serialize borsh]. unfold format. cbn [bytes_ltb]. do 2 f_equal.
  rewrite bytes_ltb_app, bytes_ltb_be by (done || by rewrite !length_be_bytes). do 2 f_equal.
  apply Bool.eq_iff_eq_true. rewrite bool_decide_eq_true, N.eqb_eq. split; [|by intros ->].
  intros He. apply (f_equal be_value) in He. by rewrite !be_value_bytes, !N.mod_small in He.
Qed.

(** So the order in which a database lists the outputs of a transaction is not the order of [OutPoint], which compares
    the output numbers: output 256 comes before output 1. *)
Example key_order_of_vouts : exists key1 key256,
  from_outpoint (OutPoint_Regular 7 1) = Ok key1 /\ from_outpoint (OutPoint_Regular 7 256) = Ok key256 /\
  key_cmp key256 key1 = Lt /\ outpoint_leb (OutPoint_Regular 7 1) (OutPoint_Regular 7 256) = true.
Proof. do 2 eexists. repeat split; vm_compute; reflexivity. Qed.
End Borsh.
