(* ===== verification/Proto.v ===== *)
(** * Messages of the mainchain node

    [src/lib/types/proto.rs]: the conversions of the messages that the mainchain node sends
    into the types of the sidechain, and the clients of its services. The
    messages are generated from files of a submodule: they are the records whose fields the
    conversions take apart, and every field that the source treats as optional is an
    [option]. The crates for hexadecimal digits and for the encodings of [bitcoin] and [borsh],
    and the services, are parameters. *)

From S2P Require Import Prelude Types BitNameSeqId SideTips NetAddress Encodings.
From S2P Require Import State TwoWayPeg PegRollback MainchainTask.

(** ** Messages *)

(** The messages that errors name *)
Inductive Message : Type :=
| Msg_ConsensusHex | Msg_Hex | Msg_ReverseHex
| Msg_BlockNotFoundError | Msg_OptionalCommitment | Msg_Commitment
| Msg_OutPoint | Msg_DepositOutput | Msg_Deposit
| Msg_WithdrawalBundleEventEvent | Msg_WithdrawalBundleEvent
| Msg_BlockInfoEvent | Msg_BlockInfo | Msg_Info | Msg_ResponseItem | Msg_BlockHeaderInfo
| Msg_ConnectBlock | Msg_DisconnectBlock | Msg_SubscribeEvent | Msg_SubscribeEventsResponse
| Msg_GetBlockHeaderInfoResponse | Msg_GetBlockInfoResponse | Msg_GetBmmHStarCommitmentResponse
| Msg_GetChainInfoResponse | Msg_GetChainTipResponse
| Msg_CreateBmmCriticalDataTransactionResponse | Msg_CreateDepositTransactionResponse
| Msg_CreateNewAddressResponse.

(** [ConsensusHex], [Hex], [ReverseHex]. Which of them a field is, is up to the files of the submodule: a field
    may be any of them here. *)
Inductive HexMessage : Type :=
| ConsensusHex (hex : option str)
| Hex (hex : option str)
| ReverseHex (hex : option str).

Module generated.
Record OutPointMsg : Type := mkOutPoint { txid : option HexMessage; vout : option u32 }.
(** [address] is a [Hex], whose bytes are decoded *)
Record deposit_Output : Type := mkdeposit_Output { address : option (option str); value_sats : option u64 }.
Record DepositMsg : Type := mkDeposit {
  sequence_number : option u64; outpoint : option OutPointMsg; output : option deposit_Output }.
Inductive withdrawal_bundle_event_Event : Type :=
| Failed
| Submitted
| Succeeded (sequence_number : option u64) (transaction : option bytes).
(** [m6id], and [event] with its own field [event] *)
Record WithdrawalBundleEventMsg : Type := mkWithdrawalBundleEvent {
  m6id : option HexMessage; wbe_event : option (option withdrawal_bundle_event_Event) }.
Inductive block_info_Event : Type :=
| Event_Deposit (deposit : DepositMsg)
| Event_WithdrawalBundle (bundle_event : WithdrawalBundleEventMsg).
Record BlockInfoMsg : Type := mkBlockInfo {
  bmm_commitment : option HexMessage; events : list (option block_info_Event) }.
Record BlockHeaderInfoMsg : Type := mkBlockHeaderInfo {
  block_hash : option HexMessage; prev_block_hash : option HexMessage;
  height : u32; work : option HexMessage; timestamp : u64 }.
(** [get_block_info_response::Info] *)
Record InfoMsg : Type := mkInfo { header_info : option BlockHeaderInfoMsg; block_info : option BlockInfoMsg }.
(** [get_two_way_peg_data_response::ResponseItem] *)
Record ResponseItem : Type := mkResponseItem {
  ri_block_header_info : option BlockHeaderInfoMsg; ri_block_info : option BlockInfoMsg }.
(** [subscribe_events_response::event::Event], with the fields of [ConnectBlock] and [DisconnectBlock] *)
Inductive subscribe_Event : Type :=
| ConnectBlock (header_info : option BlockHeaderInfoMsg) (block_info : option BlockInfoMsg)
| DisconnectBlock (block_hash : option HexMessage).
(** [get_bmm_h_star_commitment_response::Commitment]; an [OptionalCommitment] is its field *)
Record Commitment : Type := mkCommitment {
  commitment : option HexMessage; ancestor_commitments : list (option HexMessage) }.
Inductive bmm_Result : Type :=
| BlockNotFound (block_hash : option HexMessage)
| Result_Commitment (commitment : Commitment).
Inductive NetworkMsg : Type := Unknown | Unspecified | Mainnet | Regtest | Signet | Testnet.
End generated.

(** [bitcoin::Network] *)
Inductive BitcoinNetwork : Type := Network_Bitcoin | Network_Regtest | Network_Signet | Network_Testnet.
Record ChainInfo : Type := mkChainInfo { ci_network : BitcoinNetwork }.

(** ** Other crates *)

Class ProtoExternals : Type := {
  (** [tonic::Status] *)
  Status : Type;
  (** [prost::Name::full_name], and the constant [NAME] *)
  full_name : Message -> str;
  message_NAME : Message -> str;
  (** The generated [as_str_name], and the tags of the variants *)
  network_as_str_name : generated.NetworkMsg -> str;
  network_try_from : Z -> option generated.NetworkMsg;
  (** [const_hex::decode] *)
  hex_decode : str -> option bytes;
  (** [bitcoin::consensus] for arrays and hashes of 32 bytes, as bytes and as hexadecimal digits *)
  consensus_serialize : Hash -> bytes;
  consensus_deserialize : bytes -> option Hash;
  consensus_serialize_hex : Hash -> str;
  consensus_deserialize_hex : str -> option Hash;
  (** [borsh::BorshDeserialize::try_from_slice] for arrays of 32 bytes *)
  borsh_deserialize : bytes -> option Hash;
  (** [bitcoin::Work::from_le_bytes], [to_le_bytes] *)
  work_from_le_bytes : Hash -> Work;
  work_to_le_bytes : Work -> Hash;
  (** [serde_json::to_string] *)
  json_header_info : BlockHeaderInfo -> str;
  json_info : BlockHeaderInfo * BlockInfo -> str;
  (** [LinkedHashMap::from_iter]: its entries in order *)
  linked_from_iter : list (MainBlockHash * BlockInfo) -> list (MainBlockHash * BlockInfo);
  (** [bitcoin::Address::from_str], unchecked, and its [to_string] *)
  main_address_from_str : str -> option MainAddress;
  main_address_to_string : MainAddress -> str;
}.
(** Documented of these crates: decoding inverts encoding, and a linked map of different keys has them in the order of insertion. *)
Record proto_spec `{EncodingExternals, ProtoExternals} : Prop := {
  ps_hex b : Forall (fun x => x < 256) b -> hex_decode (hex_encode b) = Some b;
  ps_bytes h : Forall (fun x => x < 256) (consensus_serialize h);
  ps_consensus h : consensus_deserialize (consensus_serialize h) = Some h;
  ps_consensus_hex h : consensus_deserialize_hex (consensus_serialize_hex h) = Some h;
  ps_work w : work_from_le_bytes (work_to_le_bytes w) = w;
  ps_linked l : NoDup l.*1 -> linked_from_iter l = l;
}.

(** ** Errors *)

Inductive ProtoError `{ProtoExternals} : Type :=
| Proto_Grpc (status : Status)
| Proto_InvalidEnumVariant (field_name : string) (message_name : str) (variant_name : str)
| Proto_InvalidFieldValue (field_name : string) (message_name : str) (value : str)
| Proto_InvalidRepeatedValue (field_name : string) (message_name : str) (value : str)
| Proto_MissingField (field_name : string) (message_name : str)
| Proto_UnknownEnumTag (field_name : string) (message_name : str) (tag : Z).

Section errors.
Context `{ProtoExternals}.
Implicit Types (message : Message) (field_name : string).
Definition invalid_enum_variant message field_name (variant_name : str) : ProtoError :=
  Proto_InvalidEnumVariant field_name (full_name message) variant_name.
Definition invalid_field_value message field_name (value : str) : ProtoError :=
  Proto_InvalidFieldValue field_name (full_name message) value.
Definition invalid_repeated_value message field_name (value : str) : ProtoError :=
  Proto_InvalidRepeatedValue field_name (full_name message) value.
Definition missing_field message field_name : ProtoError := Proto_MissingField field_name (full_name message).
(** [field.ok_or_else(|| missing_field)?] *)
Definition require {A} (field : option A) message field_name : result ProtoError A :=
  ok_or field (missing_field message field_name).
(** [optional.map(f).transpose()?] *)
Definition transpose {A B} (f : A -> result ProtoError B) (field : option A) : result ProtoError (option B) :=
  match field with None => Ok None | Some a => Some <$> f a end.
End errors.

(** ** [std::str::from_utf8] *)

(** A byte that continues a character, between two bounds *)
Definition utf8_cont (lo hi b : N) : bool := (lo <=? b) && (b <=? hi).
Fixpoint from_utf8 (b : bytes) : option str :=
  match b with
  | [] => Some []
  | b0 :: r =>
      if b0 <? 128 then cons b0 <$> from_utf8 r
      else if utf8_cont 194 223 b0 then
        match r with
        | b1 :: r =>
            if utf8_cont 128 191 b1
            then cons ((b0 - 192) * 64 + (b1 - 128)) <$> from_utf8 r
            else None
        | _ => None
        end
      else if utf8_cont 224 239 b0 then
        match r with
        | b1 :: b2 :: r =>
            (** neither a longer form than needed nor a surrogate *)
            if utf8_cont (if b0 =? 224 then 160 else 128) (if b0 =? 237 then 159 else 191) b1 &&
               utf8_cont 128 191 b2
            then cons ((b0 - 224) * 4096 + (b1 - 128) * 64 + (b2 - 128)) <$> from_utf8 r
            else None
        | _ => None
        end
      else if utf8_cont 240 244 b0 then
        match r with
        | b1 :: b2 :: b3 :: r =>
            (** neither a longer form than needed nor beyond the last character *)
            if utf8_cont (if b0 =? 240 then 144 else 128) (if b0 =? 244 then 143 else 191) b1 &&
               utf8_cont 128 191 b2 && utf8_cont 128 191 b3
            then cons ((b0 - 240) * 262144 + (b1 - 128) * 4096 + (b2 - 128) * 64 + (b3 - 128)) <$> from_utf8 r
            else None
        | _ => None
        end
      else None
  end.
Lemma from_utf8_ascii s : Forall (fun c => c < 128) s -> from_utf8 s = Some s.
Proof.
  induction 1 as [|c s Hc _ IH]; [done|]. cbn [from_utf8]. rewrite (proj2 (N.ltb_lt _ _) Hc), IH. done.
Qed.

(** ** Hexadecimal digits *)

Section hex.
Context `{EncodingExternals, ProtoExternals}.

(** [ConsensusHex::decode], [Hex::decode], [ReverseHex::decode], for arrays and hashes of 32 bytes *)
Definition decode (message : Message) (field_name : string) (m : HexMessage) : result ProtoError Hash :=
  match m with
  | ConsensusHex hex =>
      hex ← require hex Msg_ConsensusHex "hex";
      ok_or (consensus_deserialize_hex hex) (invalid_field_value message field_name hex)
  | Hex hex =>
      hex ← require hex Msg_Hex "hex";
      bytes ← ok_or (hex_decode hex) (invalid_field_value message field_name hex);
      ok_or (borsh_deserialize bytes) (invalid_field_value message field_name hex)
  | ReverseHex hex =>
      hex ← require hex Msg_ReverseHex "hex";
      bytes ← ok_or (hex_decode hex) (invalid_field_value message field_name hex);
      let bytes := reverse bytes in
      ok_or (consensus_deserialize bytes) (invalid_field_value message field_name hex)
  end.
(** [Hex::decode_bytes] *)
Definition decode_bytes (message : Message) (field_name : string) (hex : option str) : result ProtoError bytes :=
  hex ← require hex Msg_Hex "hex";
  ok_or (hex_decode hex) (invalid_field_value message field_name hex).

Definition ConsensusHex_encode (value : Hash) : HexMessage := ConsensusHex (Some (consensus_serialize_hex value)).
Definition Hex_encode (value : bytes) : HexMessage := Hex (Some (hex_encode value)).
Definition ReverseHex_encode (value : Hash) : HexMessage :=
  let bytes := reverse (consensus_serialize value) in
  ReverseHex (Some (hex_encode bytes)).

(** A field that must be there, decoded *)
Definition decode_field (message : Message) (field_name : string) (field : option HexMessage)
  : result ProtoError Hash :=
  m ← require field message field_name; decode message field_name m.
End hex.

(** ** Conversions *)

(** The number that the bytes of an array spell *)
Definition array_of_bytes (b : bytes) : N := foldl (fun n x => 256 * n + x) 0 b.

Section conversions.
Context `{EncodingExternals, ProtoExternals}.

Definition network_decode (network : generated.NetworkMsg) (message : Message) (field_name : string)
  : result ProtoError BitcoinNetwork :=
  match network with
  | generated.Unknown | generated.Unspecified =>
      Err (invalid_enum_variant message field_name (network_as_str_name network))
  | generated.Mainnet => Ok Network_Bitcoin
  | generated.Regtest => Ok Network_Regtest
  | generated.Signet => Ok Network_Signet
  | generated.Testnet => Ok Network_Testnet
  end.

(** [BlockNotFoundError] *)
Definition block_not_found_try_from (block_hash : option HexMessage) : result ProtoError MainBlockHash :=
  decode_field Msg_BlockNotFoundError "block_hash" block_hash.
Definition optional_commitment_try_from (commitment : option HexMessage) : result ProtoError (option BlockHash) :=
  match commitment with
  | None => Ok None
  | Some commitment => Some <$> decode Msg_OptionalCommitment "commitment" commitment
  end.
(** [NonEmpty<Option<BlockHash>>]: the head and the tail *)
Definition commitment_try_from (c : generated.Commitment)
  : result ProtoError (option BlockHash * list (option BlockHash)) :=
  commitment ← transpose (decode Msg_Commitment "commitment") (generated.commitment c);
  ancestor_commitments ← map_res optional_commitment_try_from (generated.ancestor_commitments c);
  Ok (commitment, ancestor_commitments).
Definition bmm_result_try_from (res : generated.bmm_Result)
  : result ProtoError (MainBlockHash + option BlockHash * list (option BlockHash)) :=
  match res with
  | generated.BlockNotFound err => inl <$> block_not_found_try_from err
  | generated.Result_Commitment commitment => inr <$> commitment_try_from commitment
  end.

Definition outpoint_try_from (o : generated.OutPointMsg) : result ProtoError (Hash * u32) :=
  txid ← decode_field Msg_OutPoint "txid" (generated.txid o);
  vout ← require (generated.vout o) Msg_OutPoint "vout";
  Ok (txid, vout).

(** The ['address] block after the bytes of the address are known *)
Definition ALL_ZEROS : N := 0.
Definition deposit_address (address_bytes : bytes) : N :=
  match from_utf8 address_bytes with
  | None => ALL_ZEROS
  | Some address_utf8 =>
      match from_deposit_address address_utf8 with
      | Ok address => array_of_bytes address
      | _ =>
          match sidechain_address_from_str address_utf8 with
          | Ok address => array_of_bytes address
          | _ => ALL_ZEROS
          end
      end
  end.
Definition filled_output_try_from (o : generated.deposit_Output) : result ProtoError FilledOutput :=
  hex ← require (generated.address o) Msg_DepositOutput "address";
  address_bytes ← decode_bytes Msg_DepositOutput "address" hex;
  let address := deposit_address address_bytes in
  value ← require (generated.value_sats o) Msg_DepositOutput "value_sats";
  Ok (mkFilledOutput address (Filled_Bitcoin value) []).

Definition deposit_try_from (d : generated.DepositMsg) : result ProtoError Deposit :=
  sequence_number ← require (generated.sequence_number d) Msg_Deposit "sequence_number";
  outpoint ← require (generated.outpoint d) Msg_Deposit "outpoint";
  output ← require (generated.output d) Msg_Deposit "output";
  outpoint ← outpoint_try_from outpoint;
  output ← filled_output_try_from output;
  Ok (mkDeposit sequence_number outpoint output).

Definition bundle_event_status_from (event : generated.withdrawal_bundle_event_Event) : WithdrawalBundleEventStatus :=
  match event with
  | generated.Failed => Event_Failed
  | generated.Submitted => Event_Submitted
  | generated.Succeeded _ _ => Event_Confirmed
  end.
Definition bundle_event_status_try_from (event : option generated.withdrawal_bundle_event_Event)
  : result ProtoError WithdrawalBundleEventStatus :=
  bundle_event_status_from <$> require event Msg_WithdrawalBundleEventEvent "event".
Definition bundle_event_try_from (e : generated.WithdrawalBundleEventMsg) : result ProtoError WithdrawalBundleEvent :=
  m6id ← decode_field Msg_WithdrawalBundleEvent "m6id" (generated.m6id e);
  event ← require (generated.wbe_event e) Msg_WithdrawalBundleEvent "event";
  status ← bundle_event_status_try_from event;
  Ok (mkWithdrawalBundleEvent m6id status).

Definition block_event_of (event : generated.block_info_Event) : result ProtoError BlockEvent :=
  match event with
  | generated.Event_Deposit deposit => BlockEvent_Deposit <$> deposit_try_from deposit
  | generated.Event_WithdrawalBundle bundle_event =>
      BlockEvent_WithdrawalBundle <$> bundle_event_try_from bundle_event
  end.
Definition block_event_try_from (event : option generated.block_info_Event) : result ProtoError BlockEvent :=
  event ← require event Msg_BlockInfoEvent "event"; block_event_of event.

Definition block_info_try_from (b : generated.BlockInfoMsg) : result ProtoError BlockInfo :=
  bmm_commitment ← transpose (decode Msg_BlockInfo "bmm_commitment") (generated.bmm_commitment b);
  events ← map_res block_event_try_from (generated.events b);
  Ok (mkBlockInfo bmm_commitment events).

Definition header_info_try_from (h : generated.BlockHeaderInfoMsg) : result ProtoError BlockHeaderInfo :=
  block_hash ← decode_field Msg_BlockHeaderInfo "block_hash" (generated.block_hash h);
  prev_block_hash ← decode_field Msg_BlockHeaderInfo "prev_block_hash" (generated.prev_block_hash h);
  work ← work_from_le_bytes <$> decode_field Msg_BlockHeaderInfo "work" (generated.work h);
  Ok (mkBlockHeaderInfo block_hash prev_block_hash (generated.height h) work).

Definition info_try_from (i : generated.InfoMsg) : result ProtoError (BlockHeaderInfo * BlockInfo) :=
  header_info ← require (generated.header_info i) Msg_Info "header_info";
  header_info ← header_info_try_from header_info;
  block_info ← require (generated.block_info i) Msg_Info "block_info";
  block_info ← block_info_try_from block_info;
  Ok (header_info, block_info).

Definition response_item_try_from (item : generated.ResponseItem) : result ProtoError (MainBlockHash * BlockInfo) :=
  block_header_info ← require (generated.ri_block_header_info item) Msg_ResponseItem "block_header_info";
  header_info ← header_info_try_from block_header_info;
  block_info ← require (generated.ri_block_info item) Msg_ResponseItem "block_info";
  block_info ← block_info_try_from block_info;
  Ok (bhi_block_hash header_info, block_info).
(** [GetTwoWayPegDataResponse] *)
Definition two_way_peg_data_try_from (blocks : list generated.ResponseItem) : result ProtoError TwoWayPegData :=
  block_info ← map_res response_item_try_from blocks;
  Ok (mkTwoWayPegData (linked_from_iter block_info)).

Definition event_of (event : generated.subscribe_Event) : result ProtoError MainchainBlockEvent :=
  match event with
  | generated.ConnectBlock header_info block_info =>
      header_info ← require header_info Msg_ConnectBlock "header_info";
      block_info ← require block_info Msg_ConnectBlock "block_info";
      header_info ← header_info_try_from header_info;
      block_info ← block_info_try_from block_info;
      Ok (ConnectBlock header_info block_info)
  | generated.DisconnectBlock block_hash =>
      block_hash ← decode_field Msg_DisconnectBlock "disconnect_block" block_hash;
      Ok (DisconnectBlock block_hash)
  end.
Definition subscribe_event_try_from (event : option generated.subscribe_Event)
  : result ProtoError MainchainBlockEvent :=
  event ← require event Msg_SubscribeEvent "event"; event_of event.
(** [SubscribeEventsResponse] *)
Definition event_try_from (event : option (option generated.subscribe_Event))
  : result ProtoError MainchainBlockEvent :=
  event ← require event Msg_SubscribeEventsResponse "event"; subscribe_event_try_from event.
End conversions.

(** ** Events of blocks *)

Definition block_info_deposits (b : BlockInfo) : list Deposit :=
  omap (fun event => match event with BlockEvent_Deposit d => Some d | BlockEvent_WithdrawalBundle _ => None end)
    (bi_events b).
Definition block_info_bundle_events (b : BlockInfo) : list WithdrawalBundleEvent :=
  omap (fun event => match event with BlockEvent_WithdrawalBundle e => Some e | BlockEvent_Deposit _ => None end)
    (bi_events b).
(** [TwoWayPegData::deposits], [into_deposits]: of the blocks that have some *)
Definition twp_deposits (data : TwoWayPegData) : list (MainBlockHash * list Deposit) :=
  omap (fun b : MainBlockHash * BlockInfo =>
    match block_info_deposits b.2 with [] => None | deposits => Some (b.1, deposits) end) (twp_block_info data).
Definition twp_bundle_events (data : TwoWayPegData) : list (MainBlockHash * WithdrawalBundleEvent) :=
  concat ((fun b : MainBlockHash * BlockInfo => pair b.1 <$> block_info_bundle_events b.2) <$> twp_block_info data).
Definition latest_deposit_block_hash (data : TwoWayPegData) : option MainBlockHash :=
  fst <$> last (twp_deposits data).
Definition latest_withdrawal_bundle_event_block_hash (data : TwoWayPegData) : option MainBlockHash :=
  fst <$> last (twp_bundle_events data).

(** ** Clients *)

(** Calls of a service change the world outside: a call takes the world to an answer and the world after. *)
Notation grpc W A := (op W ProtoError A).
Section steps.
Context {S E A B : Type} (c : op S E A) (k : A -> op S E B).
Lemma op_step_Ok w a w' : c w = (Ok a, w') -> (c ≫= k) w = k a w'.
Proof. intros Hc. unfold mbind, op_bind. by rewrite Hc. Qed.
Lemma op_step_Err w e w' : c w = (Err e, w') -> (c ≫= k) w = (Err e, w').
Proof. intros Hc. unfold mbind, op_bind. by rewrite Hc. Qed.
Lemma op_step_Panic w w' : c w = (Panic, w') -> (c ≫= k) w = (Panic, w').
Proof. intros Hc. unfold mbind, op_bind. by rewrite Hc. Qed.
End steps.

Module request.
Record GetBlockHeaderInfo : Type := mkGetBlockHeaderInfo {
  gh_block_hash : option HexMessage; gh_max_ancestors : option u32 }.
(** [GetBlockInfoRequest], [GetBmmHStarCommitmentRequest] *)
Record GetBlockInfo : Type := mkGetBlockInfo {
  gb_block_hash : option HexMessage; gb_sidechain_id : option u32; gb_max_ancestors : option u32 }.
Record GetTwoWayPegData : Type := mkGetTwoWayPegData {
  gt_sidechain_id : option u32; gt_start_block_hash : option HexMessage; gt_end_block_hash : option HexMessage }.
Record CreateBmmCriticalDataTransaction : Type := mkCreateBmmCriticalDataTransaction {
  cb_sidechain_id : option u32; cb_value_sats : option u64; cb_height : option u32;
  cb_critical_hash : option HexMessage; cb_prev_bytes : option HexMessage }.
Record CreateDepositTransaction : Type := mkCreateDepositTransaction {
  cd_sidechain_id : option u32; cd_address : option str; cd_value_sats : option u64; cd_fee_sats : option u64 }.
Record ProposeWithdrawalBundle : Type := mkProposeWithdrawalBundle {
  pw_sidechain_id : option u32; pw_transaction : option bytes }.
Record GenerateToAddress : Type := mkGenerateToAddress { ga_blocks : option u32; ga_address : str }.
End request.

(** The services of the mainchain node: each call answers with a message or a status. A stream of events is
    asked for the next item; [None]: it is closed. *)
Class MainchainServices `{ProtoExternals} (W : Type) : Type := {
  EventStream : Type;
  svc_get_block_header_info : request.GetBlockHeaderInfo -> W -> (Status + list generated.BlockHeaderInfoMsg) * W;
  svc_get_block_info : request.GetBlockInfo -> W -> (Status + list generated.InfoMsg) * W;
  svc_get_bmm_h_star_commitment : request.GetBlockInfo -> W -> (Status + option generated.bmm_Result) * W;
  (** the network of [GetChainInfoResponse] *)
  svc_get_chain_info : W -> (Status + Z) * W;
  svc_get_chain_tip : W -> (Status + option generated.BlockHeaderInfoMsg) * W;
  svc_get_two_way_peg_data : request.GetTwoWayPegData -> W -> (Status + list generated.ResponseItem) * W;
  svc_subscribe_events : u32 -> W -> (Status + EventStream) * W;
  svc_next : EventStream -> W -> option (Status + option (option generated.subscribe_Event)) * W;
  svc_create_bmm_critical_data_transaction :
    request.CreateBmmCriticalDataTransaction -> W -> (Status + option HexMessage) * W;
  svc_create_deposit_transaction : request.CreateDepositTransaction -> W -> (Status + option HexMessage) * W;
  svc_create_new_address : W -> (Status + str) * W;
  svc_propose_withdrawal_bundle : request.ProposeWithdrawalBundle -> W -> (Status + unit) * W;
  svc_generate_to_address : request.GenerateToAddress -> W -> (Status + unit) * W;
}.

Section clients.
Context `{EncodingExternals, ProtoExternals} {W : Type} `{!MainchainServices W}.

(** [call(request).await?.into_inner()] *)
Definition unary {A} (call : W -> (Status + A) * W) : grpc W A := fun w =>
  match call w with
  | (inl status, w) => (Err (Proto_Grpc status), w)
  | (inr response, w) => (Ok response, w)
  end.

(** *** [ValidatorClient] *)

Definition get_block_header_info (block_hash : MainBlockHash) : grpc W (option BlockHeaderInfo) :=
  header_infos ← unary (svc_get_block_header_info
    (request.mkGetBlockHeaderInfo (Some (ReverseHex_encode block_hash)) (Some 0)));
  match header_infos with
  | [] => mret None
  | header_info :: _ => header_info ← lifted (header_info_try_from header_info); mret (Some header_info)
  end.

(** The check that ancestors are sequential; the error is made from the first item that is not *)
Fixpoint check_sequential {A} (header : A -> BlockHeaderInfo) (err : A -> ProtoError)
    (expected_block_hash : MainBlockHash) (tail : list A) : result ProtoError unit :=
  match tail with
  | [] => Ok tt
  | info :: tail =>
      if bhi_block_hash (header info) =? expected_block_hash
      then check_sequential header err (bhi_prev_block_hash (header info)) tail
      else Err (err info)
  end.

Definition get_block_header_infos (block_hash : MainBlockHash) (max_ancestors : u32)
  : grpc W (option (list BlockHeaderInfo)) :=
  header_infos ← unary (svc_get_block_header_info
    (request.mkGetBlockHeaderInfo (Some (ReverseHex_encode block_hash)) (Some max_ancestors)));
  header_infos ← lifted (map_res header_info_try_from header_infos);
  match header_infos with
  | [] => mret None
  | head :: tail =>
      _ ← lifted (check_sequential id
        (fun info => invalid_repeated_value Msg_GetBlockHeaderInfoResponse "header_infos" (json_header_info info))
        (bhi_prev_block_hash head) tail);
      mret (Some (head :: tail))
  end.

(** [NonEmpty] lists of infos, newest first *)
Definition get_block_infos (block_hash : MainBlockHash) (max_ancestors : u32)
  : grpc W (option (list (BlockHeaderInfo * BlockInfo))) :=
  infos ← unary (svc_get_block_info
    (request.mkGetBlockInfo (Some (ReverseHex_encode block_hash)) (Some THIS_SIDECHAIN) (Some max_ancestors)));
  infos ← lifted (map_res info_try_from infos);
  match infos with
  | [] => mret None
  | head :: tail =>
      _ ← lifted (check_sequential fst
        (fun info => invalid_repeated_value Msg_GetBlockInfoResponse "infos" (json_info info))
        (bhi_prev_block_hash head.1) tail);
      mret (Some (head :: tail))
  end.

Definition get_bmm_hstar_commitments (block_hash : MainBlockHash) (max_ancestors : u32)
  : grpc W (MainBlockHash + option BlockHash * list (option BlockHash)) :=
  result ← unary (svc_get_bmm_h_star_commitment
    (request.mkGetBlockInfo (Some (ReverseHex_encode block_hash)) (Some THIS_SIDECHAIN) (Some max_ancestors)));
  result ← lifted (require result Msg_GetBmmHStarCommitmentResponse "result");
  lifted (bmm_result_try_from result).

Definition get_chain_info : grpc W ChainInfo :=
  network ← unary svc_get_chain_info;
  variant ← lifted (ok_or (network_try_from network)
    (Proto_UnknownEnumTag "network" (message_NAME Msg_GetChainInfoResponse) network));
  network ← lifted (network_decode variant Msg_GetChainInfoResponse "network");
  mret (mkChainInfo network).

Definition get_chain_tip : grpc W BlockHeaderInfo :=
  block_header_info ← unary svc_get_chain_tip;
  block_header_info ← lifted (require block_header_info Msg_GetChainTipResponse "block_header_info");
  lifted (header_info_try_from block_header_info).

Definition get_two_way_peg_data (start_block_hash : option MainBlockHash) (end_block_hash : MainBlockHash)
  : grpc W TwoWayPegData :=
  blocks ← unary (svc_get_two_way_peg_data
    (request.mkGetTwoWayPegData (Some THIS_SIDECHAIN) (ReverseHex_encode <$> start_block_hash)
       (Some (ReverseHex_encode end_block_hash))));
  lifted (two_way_peg_data_try_from blocks).

Definition subscribe_events : grpc W EventStream := unary (svc_subscribe_events THIS_SIDECHAIN).
(** The next item of the mapped stream *)
Definition event_stream_next (events : EventStream) (w : W) : option (result ProtoError MainchainBlockEvent) * W :=
  match svc_next events w with
  | (None, w) => (None, w)
  | (Some (inl status), w) => (Some (Err (Proto_Grpc status)), w)
  | (Some (inr event), w) => (Some (event_try_from event), w)
  end.

(** *** [WalletClient], [BlockProducerClient], [MiningClient] *)

Definition create_bmm_critical_data_tx (value_sats : u64) (height : u32) (critical_hash : Hash)
    (prev_bytes : MainBlockHash) : grpc W Hash :=
  txid ← unary (svc_create_bmm_critical_data_transaction
    (request.mkCreateBmmCriticalDataTransaction (Some THIS_SIDECHAIN) (Some value_sats) (Some height)
       (Some (ConsensusHex_encode critical_hash)) (Some (ReverseHex_encode prev_bytes))));
  lifted (decode_field Msg_CreateBmmCriticalDataTransactionResponse "txid" txid).

Definition create_deposit_tx (address : bytes) (value_sats fee_sats : u64) : grpc W Hash :=
  txid ← unary (svc_create_deposit_transaction
    (request.mkCreateDepositTransaction (Some THIS_SIDECHAIN) (Some (as_base58 address)) (Some value_sats)
       (Some fee_sats)));
  lifted (decode_field Msg_CreateDepositTransactionResponse "txid" txid).

Definition create_new_address : grpc W MainAddress :=
  address ← unary svc_create_new_address;
  lifted (ok_or (main_address_from_str address)
    (invalid_field_value Msg_CreateNewAddressResponse "address" address)).

(** [transaction]: the bytes that [bitcoin::consensus::serialize] gives *)
Definition propose_withdrawal_bundle (transaction : bytes) : grpc W unit :=
  unary (svc_propose_withdrawal_bundle (request.mkProposeWithdrawalBundle (Some THIS_SIDECHAIN) (Some transaction))).

Definition generate_to_address (blocks : u32) (address : MainAddress) : grpc W unit :=
  unary (svc_generate_to_address (request.mkGenerateToAddress (Some blocks) (main_address_to_string address))).
End clients.

(** ** Lemmas *)

(** Newest first, each block after the one whose parent it is *)
Fixpoint linked_below (expected : MainBlockHash) (l : list BlockHeaderInfo) : Prop :=
  match l with
  | [] => True
  | x :: l => bhi_block_hash x = expected /\ linked_below (bhi_prev_block_hash x) l
  end.
Definition linked (l : list BlockHeaderInfo) : Prop :=
  match l with [] => True | x :: l => linked_below (bhi_prev_block_hash x) l end.

Lemma check_sequential_Ok `{ProtoExternals} {A} (header : A -> BlockHeaderInfo) err tail : forall expected,
  check_sequential header err expected tail = Ok tt <-> linked_below expected (header <$> tail).
Proof.
  induction tail as [|x tail IH]; intros expected; [done|]. cbn [check_sequential fmap list_fmap linked_below].
  destruct (N.eqb_spec (bhi_block_hash (header x)) expected); [|naive_solver]. rewrite IH. naive_solver.
Qed.
(** Either all are sequential, or the error is made from the first that is not. *)
Lemma check_sequential_cases `{ProtoExternals} {A} (header : A -> BlockHeaderInfo) err tail : forall expected,
  (check_sequential header err expected tail = Ok tt /\ linked_below expected (header <$> tail)) \/
  exists pre x post, tail = pre ++ x :: post /\ linked_below expected (header <$> pre) /\
    ~ linked_below expected (header <$> (pre ++ [x])) /\ check_sequential header err expected tail = Err (err x).
Proof.
  induction tail as [|x tail IH]; intros expected; [by left|]. cbn [check_sequential].
  destruct (N.eqb_spec (bhi_block_hash (header x)) expected) as [<-|Hne].
  - destruct (IH (bhi_prev_block_hash (header x))) as [[Hc Hl]|(pre & y & post & -> & Hl & Hn & Hc)]; [by left|].
    right. exists (x :: pre), y, post. split_and!; [done|done| |done]. cbn. intros [_ ?]. done.
  - right. exists [], x, tail. split_and!; [done|done| |done]. cbn. intros [? _]. done.
Qed.

Section codec.
Context `{EncodingExternals, ProtoExternals}.

Lemma decode_ReverseHex_encode message field_name h :
  proto_spec -> decode message field_name (ReverseHex_encode h) = Ok h.
Proof.
  intros Hs. unfold decode, ReverseHex_encode, require. cbn [ok_or mbind result_bind].
  rewrite ps_hex by (done || by apply Forall_reverse, ps_bytes). cbn [ok_or mbind result_bind].
  by rewrite reverse_involutive, ps_consensus.
Qed.
Lemma decode_ConsensusHex_encode message field_name h :
  proto_spec -> decode message field_name (ConsensusHex_encode h) = Ok h.
Proof.
  intros Hs. unfold decode, ConsensusHex_encode, require. cbn [ok_or mbind result_bind]. by rewrite ps_consensus_hex.
Qed.
Lemma decode_field_Some message field_name m :
  decode_field message field_name (Some m) = decode message field_name m.
Proof. done. Qed.

(** The message of a header, as the mainchain node writes it *)
Definition header_message (info : BlockHeaderInfo) : generated.BlockHeaderInfoMsg :=
  generated.mkBlockHeaderInfo (Some (ReverseHex_encode (bhi_block_hash info)))
    (Some (ReverseHex_encode (bhi_prev_block_hash info))) (bhi_height info)
    (Some (ConsensusHex_encode (work_to_le_bytes (bhi_work info)))) 0.
Lemma header_message_read info : proto_spec -> header_info_try_from (header_message info) = Ok info.
Proof.
  intros Hs. unfold header_info_try_from, header_message. cbn [generated.block_hash generated.prev_block_hash
    generated.work generated.height]. rewrite !decode_field_Some, !decode_ReverseHex_encode by done.
  cbn [mbind result_bind]. rewrite decode_ConsensusHex_encode by done. cbn [fmap result_fmap mbind result_bind].
  rewrite ps_work by done. by destruct info.
Qed.
End codec.

(** The characters of the two encodings are ASCII. *)
Record ascii_spec `{EncodingExternals} : Prop := {
  as_base58_ascii b : Forall (fun c => c < 128) (base58_encode b);
  as_hex_ascii b : Forall (fun c => c < 128) (hex_encode b);
}.

Section addresses.
Context `{EncodingExternals}.
Lemma sidechain_address_from_str_Ok s a :
  sidechain_address_from_str s = Ok a <-> base58_decode s = Some a /\ length a = 20%nat.
Proof.
  unfold sidechain_address_from_str. destruct (base58_decode s) as [b|]; [|naive_solver].
  cbn [ok_or mbind result_bind]. destruct (Nat.eqb_spec (length b) 20) as [Hb|Hb]; cbn; naive_solver.
Qed.
Lemma format_for_deposit_ascii a : ascii_spec -> Forall (fun c => c < 128) (format_for_deposit a).
Proof.
  intros [Hb Hh]. unfold format_for_deposit, deposit_prefix, as_base58.
  rewrite !Forall_app, Forall_cons, Forall_app, !Forall_singleton. split_and!; try done.
  eapply Forall_impl; [apply dec_digits_ascii|]. intros c. unfold is_ascii_digit. cbn.
  rewrite andb_true_iff, !N.leb_le. lia.
Qed.
Lemma from_deposit_address_parts s a :
  encoding_spec -> from_deposit_address s = Ok a -> chr_underscore ∈ s /\ length a = 20%nat.
Proof.
  intros Hs He. apply (deposit_address_exact s a Hs) in He as (x & c & -> & _ & _ & _ & _ & Hl).
  split; [|done]. unfold deposit_prefix. set_solver.
Qed.
End addresses.

(** *** Events *)

Lemma last_deposit_app l k d : last_deposit (l ++ k) d = last_deposit k (last_deposit l d).
Proof. apply foldl_app. Qed.
Lemma last_bundle_event_app l k d : last_bundle_event (l ++ k) d = last_bundle_event k (last_bundle_event l d).
Proof. apply foldl_app. Qed.
Lemma last_deposit_fmap b l d :
  last_deposit (pair b <$> l) d =
    match omap (fun e => match e with BlockEvent_Deposit x => Some x | BlockEvent_WithdrawalBundle _ => None end) l with
    | [] => d
    | _ => Some b
    end.
Proof.
  revert d. induction l as [|[x|x] l IH]; intros d; [done| |].
  - change (last_deposit (pair b <$> l) (Some b) = Some b). rewrite IH. by destruct (omap _ l).
  - apply IH.
Qed.
Lemma last_bundle_event_fmap b l d :
  last_bundle_event (pair b <$> l) d =
    match omap (fun e => match e with BlockEvent_WithdrawalBundle x => Some x | BlockEvent_Deposit _ => None end) l with
    | [] => d
    | _ => Some b
    end.
Proof.
  revert d. induction l as [|[x|x] l IH]; intros d; [done| |].
  - apply IH.
  - change (last_bundle_event (pair b <$> l) (Some b) = Some b). rewrite IH. by destruct (omap _ l).
Qed.

(** ** Theorems *)

(** A message of a header is read as the header it was written from, and the two forms of hexadecimal digits
    as the hash. A field that is missing is an error, as are digits that no hash is written as. *)
Theorem header_info_roundtrip `{EncodingExternals, ProtoExternals} (info : BlockHeaderInfo) (message : Message)
    (field_name : string) (h : Hash) (hex : str) :
  proto_spec ->
  header_info_try_from (header_message info) = Ok info /\
  decode message field_name (ReverseHex_encode h) = Ok h /\
  decode message field_name (ConsensusHex_encode h) = Ok h /\
  decode_field message field_name None = Err (missing_field message field_name) /\
  (hex_decode hex = None ->
   decode message field_name (ReverseHex (Some hex)) = Err (invalid_field_value message field_name hex)).
Proof.
  intros Hs. split_and!; [by apply header_message_read|by apply decode_ReverseHex_encode|
    by apply decode_ConsensusHex_encode|done|]. intros Hx. cbn. by rewrite Hx.
Qed.

(** The two forms of an address are read as the address. *)
Lemma deposit_address_named `{EncodingExternals} (a : bytes) :
  encoding_spec -> ascii_spec -> length a = 20%nat ->
  deposit_address (format_for_deposit a) = array_of_bytes a /\ deposit_address (as_base58 a) = array_of_bytes a.
Proof.
  intros Hs Ha Hl. pose proof (proj2 (deposit_address_exact (format_for_deposit a) a Hs) Hl) as Hf. split.
  - unfold deposit_address. rewrite from_utf8_ascii by (by apply format_for_deposit_ascii). by rewrite Hf.
  - unfold deposit_address, as_base58. rewrite from_utf8_ascii by (by apply as_base58_ascii).
    rewrite (proj2 (sidechain_address_from_str_Ok (base58_encode a) a)) by (by rewrite en_base58).
    destruct (from_deposit_address (base58_encode a)) as [a'| |] eqn:He; [|done..].
    exfalso. apply (en_underscore Hs a). by apply (from_deposit_address_parts _ _ Hs) in He as [? _].
Qed.

(** Which deposits are read, and what the credited output is *)
Lemma filled_output_read `{EncodingExternals, ProtoExternals} (o : generated.deposit_Output) (fo : FilledOutput) :
  filled_output_try_from o = Ok fo <->
  exists hex b v, generated.address o = Some (Some hex) /\ hex_decode hex = Some b /\
    generated.value_sats o = Some v /\ fo = mkFilledOutput (deposit_address b) (Filled_Bitcoin v) [].
Proof.
  unfold filled_output_try_from, decode_bytes, require. split.
  - intros Ho. res_inv. naive_solver.
  - intros (hex & b & v & -> & Hb & -> & ->). cbn [ok_or mbind result_bind]. by rewrite Hb.
Qed.

(** C27 A deposit whose bytes name an address, in the form for deposits or bare, is credited to this address
    with the value of the deposit and no memo. And only such a deposit is credited to an address other than that
    of zeros: it has its value, and its bytes, given in hexadecimal digits, are the text of that address. Base58
    and hexadecimal decoding are assumed to invert encoding, and their digits to be ASCII. *)
Theorem deposit_credited `{EncodingExternals, ProtoExternals} :
  encoding_spec -> ascii_spec ->
  (forall o hex b v a, generated.address o = Some (Some hex) -> hex_decode hex = Some b -> generated.value_sats o = Some v ->
    length a = 20%nat -> b = format_for_deposit a \/ b = as_base58 a ->
    filled_output_try_from o = Ok (mkFilledOutput (array_of_bytes a) (Filled_Bitcoin v) [])) /\
  (forall o fo, filled_output_try_from o = Ok fo -> fo_address fo <> ALL_ZEROS ->
    exists hex b v s a, generated.address o = Some (Some hex) /\ hex_decode hex = Some b /\ generated.value_sats o = Some v /\
      from_utf8 b = Some s /\ length a = 20%nat /\ (from_deposit_address s = Ok a \/ sidechain_address_from_str s = Ok a) /\
      fo = mkFilledOutput (array_of_bytes a) (Filled_Bitcoin v) []).
Proof.
  intros Hs Ha. split.
  - intros o hex b v a Hhex Hb Hv Hl Hform. apply filled_output_read. exists hex, b, v. split_and!; try done.
    destruct (deposit_address_named a Hs Ha Hl) as [H1' H2']. by destruct Hform as [-> | ->]; rewrite ?H1', ?H2'.
  - intros o fo (hex & b & v & Hhex & Hb & Hv & ->)%filled_output_read Hnz. cbn in Hnz.
    exists hex, b, v. unfold deposit_address in *. destruct (from_utf8 b) as [s|]; [|done].
    destruct (from_deposit_address s) as [a| |] eqn:He.
    { exists s, a. destruct (from_deposit_address_parts _ _ Hs He). naive_solver. }
    all: destruct (sidechain_address_from_str s) as [a| |] eqn:Hf; [|done..].
    all: exists s, a; apply sidechain_address_from_str_Ok in Hf as Hf'; naive_solver.
Qed.

(** A deposit whose bytes are not the text of an address is not ignored: it is credited to the address of zeros. *)
Theorem deposit_unnamed_to_zeros `{EncodingExternals, ProtoExternals} (o : generated.deposit_Output) hex b v :
  generated.address o = Some (Some hex) -> hex_decode hex = Some b -> generated.value_sats o = Some v -> from_utf8 b = None ->
  filled_output_try_from o = Ok (mkFilledOutput ALL_ZEROS (Filled_Bitcoin v) []).
Proof.
  intros Hhex Hb Hv Hu. apply filled_output_read. exists hex, b, v. split_and!; try done. unfold deposit_address. by rewrite Hu.
Qed.

(** What the client returns for a block and its ancestors is what the mainchain node sent, each block the parent of the
    one before it. It is an error, made from the first item that is not, when they are not sequential, and of the first item
    that cannot be read; that the first block is the one asked for is not checked. *)
Theorem get_block_infos_exact `{EncodingExternals, ProtoExternals} {W} `{!MainchainServices W} (block_hash : MainBlockHash)
    (max_ancestors : u32) (w w' : W) (infos : list generated.InfoMsg) :
  svc_get_block_info (request.mkGetBlockInfo (Some (ReverseHex_encode block_hash)) (Some THIS_SIDECHAIN)
    (Some max_ancestors)) w = (inr infos, w') ->
  match map_res info_try_from infos with
  | Ok [] => get_block_infos block_hash max_ancestors w = (Ok None, w') /\ infos = []
  | Ok l =>
      (linked l.*1 /\ get_block_infos block_hash max_ancestors w = (Ok (Some l), w')) \/
      (exists pre x post, l = pre ++ x :: post /\ linked pre.*1 /\ ~ linked (pre ++ [x]).*1 /\
        get_block_infos block_hash max_ancestors w =
          (Err (invalid_repeated_value Msg_GetBlockInfoResponse "infos" (json_info x)), w'))
  | r => get_block_infos block_hash max_ancestors w = ((fun _ => None) <$> r, w')
  end.
Proof.
  intros Hc. assert (unary (svc_get_block_info (request.mkGetBlockInfo (Some (ReverseHex_encode block_hash))
    (Some THIS_SIDECHAIN) (Some max_ancestors))) w = (Ok infos, w')) as Hu by (unfold unary; by rewrite Hc).
  destruct (map_res info_try_from infos) as [[|head tail]|e|] eqn:Hm; unfold get_block_infos;
    erewrite (op_step_Ok _ _ _ _ _ Hu).
  - split; [|apply map_res_length in Hm; by destruct infos].
    by rewrite (op_step_Ok _ _ w' [] w') by (unfold lifted; by rewrite Hm).
  - rewrite (op_step_Ok _ _ w' (head :: tail) w') by (unfold lifted; by rewrite Hm).
    destruct (check_sequential_cases fst (fun info => invalid_repeated_value Msg_GetBlockInfoResponse "infos"
      (json_info info)) tail (bhi_prev_block_hash head.1)) as [[Hk Hl]|(pre & x & post & -> & Hl & Hn & Hk)].
    + left. split; [done|]. by rewrite (op_step_Ok _ _ w' tt w') by (unfold lifted; by rewrite Hk).
    + right. exists (head :: pre), x, post. split_and!; [done..|].
      eapply op_step_Err. unfold lifted. by rewrite Hk.
  - apply op_step_Err. unfold lifted. by rewrite Hm.
  - apply op_step_Panic. unfold lifted. by rewrite Hm.
Qed.

(** The block of the last deposit, and of the last event of a withdrawal bundle, are those that connecting the data notes. *)
Theorem latest_event_blocks (h : u32) (data : TwoWayPegData) (acc acc' : PegAcc) :
  pa_latest_deposit acc = None -> pa_latest_bundle_event acc = None ->
  fold_res (connect_2wpd_event h) (peg_events data) acc = Ok acc' ->
  latest_deposit_block_hash data = pa_latest_deposit acc' /\
  latest_withdrawal_bundle_event_block_hash data = pa_latest_bundle_event acc'.
Proof.
  intros Hd Hb Hf. apply connect_events_latest in Hf as [-> ->]. rewrite Hd, Hb. clear.
  unfold latest_deposit_block_hash, latest_withdrawal_bundle_event_block_hash, twp_deposits, twp_bundle_events, peg_events.
  destruct data as [l]. cbn [twp_block_info]. induction l as [|[b i] l [IHd IHb]] using rev_ind; [done|].
  rewrite omap_app, !fmap_app, !concat_app. cbn [fmap list_fmap concat fst snd]. rewrite !app_nil_r.
  change (list_fmap _ _ (fun e => (b, e)) (bi_events i)) with (pair b <$> bi_events i).
  rewrite last_deposit_app, last_bundle_event_app, last_deposit_fmap, last_bundle_event_fmap, <-IHd, <-IHb.
  unfold block_info_deposits, block_info_bundle_events. cbn [omap list_omap fst snd]. split.
  - destruct (omap _ (bi_events i)); [by rewrite app_nil_r|]. by rewrite last_snoc.
  - destruct (omap _ (bi_events i)) as [|x k]; [by rewrite app_nil_r|].
    rewrite last_app. destruct (last (pair b <$> x :: k)) as [[b' e]|] eqn:He; [|by apply last_None in He].
    apply last_Some_elem_of in He. apply list_elem_of_fmap in He as (y & [= -> ->] & _). done.
Qed.
