(* ===== verification/Net.v ===== *)
(** * The table of peers

    [src/lib/net/mod.rs], the handle of a connection of [src/lib/net/peer/mod.rs] and the
    classes of errors of [src/lib/net/peer/error.rs]: which peers are known and connected, how
    peers are dialled, and how messages and transactions reach their connections. The QUIC
    endpoint and the resolver are parameters. *)

From S2P Require Import Prelude Types Transaction PeerMessage PeerTask NetAddress.

(** ** Errors of a connection *)

(** The QUIC error at the end of the chain of sources *)
Definition receive_source (err : ReceiveError) : option QuinnConnectionError :=
  match err with
  | Receive_Connection e => Some e
  | Receive_ReadMagic source | Receive_ReadToEnd source => source
  | _ => None
  end.
Definition quinn_source (err : ConnectionError) : option QuinnConnectionError :=
  match err with
  | Conn_Connection e => Some e
  | Conn_ReceiveRequest e | Conn_ReceiveResponse e => receive_source e
  | Conn_Send source => source
  | _ => None
  end.

(** [b"already connected"] *)
Definition already_connected : bytes :=
  [97; 108; 114; 101; 97; 100; 121; 32; 99; 111; 110; 110; 101; 99; 116; 101; 100].
Definition is_duplicate_connection (err : ConnectionError) : bool :=
  match quinn_source err with
  | Some (Quinn_ApplicationClosed error_code reason) =>
      (error_code =? 1) && bool_decide (reason = already_connected)
  | _ => false
  end.
Definition is_connect_timeout (err : ConnectionError) : bool :=
  match err with Conn_Connection Quinn_TimedOut => true | _ => false end.
Definition receive_is_bad_magic (err : ReceiveError) : bool :=
  match err with Receive_BadMagic _ => true | _ => false end.
Definition is_bad_magic (err : ConnectionError) : bool :=
  match err with
  | Conn_ReceiveRequest e | Conn_ReceiveResponse e => receive_is_bad_magic e
  | _ => false
  end.

(** ** The table *)

Inductive PeerConnectionStatus : Type := Connecting | Connected.
#[export] Instance PeerConnectionStatus_eq_dec : EqDecision PeerConnectionStatus.
Proof. solve_decision. Defined.

(** The queue to the task of the connection, oldest message first, whether the task is there to
    receive, and the address of its context *)
Record ConnectionHandle : Type := mkConnectionHandle {
  ch_received_msg_successfully : bool;
  ch_status : PeerConnectionStatus;
  ch_internal_messages : list InternalMessage;
  ch_open : bool;
  ch_resolved_address : ResolvedAddress;
}.
(** [peer::connect] and [peer::handle] *)
Definition peer_connect (resolved_address : ResolvedAddress) : ConnectionHandle :=
  mkConnectionHandle false Connecting [] true resolved_address.
Definition peer_handle (resolved_address : ResolvedAddress) : ConnectionHandle :=
  mkConnectionHandle false Connected [] true resolved_address.

Definition queue_message (message : InternalMessage) (h : ConnectionHandle) : ConnectionHandle :=
  mkConnectionHandle (ch_received_msg_successfully h) (ch_status h)
    (ch_internal_messages h ++ [message]) (ch_open h) (ch_resolved_address h).

Record Net : Type := mkNet {
  net_active_peers : gmap SocketAddr ConnectionHandle;
  net_known_peers : gset Address;
}.
Definition set_active_peers (peers : gmap SocketAddr ConnectionHandle) (n : Net) : Net :=
  mkNet peers (net_known_peers n).
Definition set_known_peers (peers : gset Address) (n : Net) : Net :=
  mkNet (net_active_peers n) peers.

Definition add_active_peer (addr : SocketAddr) (handle : ConnectionHandle) : op Net SocketAddr unit :=
  fun n =>
    match net_active_peers n !! addr with
    | Some _ => (Err addr, n)
    | None => (Ok tt, set_active_peers (<[addr := handle]> (net_active_peers n)) n)
    end.
Definition remove_active_peer (addr : SocketAddr) (n : Net) : Net :=
  set_active_peers (delete addr (net_active_peers n)) n.
Definition try_with_active_peer_connection {T} (addr : SocketAddr) (f : ConnectionHandle -> T) (n : Net)
  : option T :=
  f <$> net_active_peers n !! addr.

(** [push_internal_message]: whether it was pushed *)
Definition push_internal_message (message : InternalMessage) (addr : SocketAddr) (n : Net) : Net * bool :=
  match net_active_peers n !! addr with
  | None => (n, false)
  | Some handle =>
      if ch_open handle
      then (set_active_peers (<[addr := queue_message message handle]> (net_active_peers n)) n, true)
      else (n, false)
  end.

(** ** Seeds and known peers *)

Definition str_seed_beta : list N :=
  [115; 101; 101; 100; 46; 98; 101; 116; 97; 46; 101; 99; 97; 115; 104; 46; 101; 117; 46; 99; 111; 109].
(** [Ipv4Addr::new] *)
Definition ipv4 (a b c d : N) : N := a * 2 ^ 24 + b * 2 ^ 16 + c * 2 ^ 8 + d.
Definition SIGNET_SEED_PEER_ADDRS : list Address :=
  [mkAddress (Host_Ipv4 (ipv4 172 105 148 135)) DEFAULT_PORT;
   mkAddress (Host_Ipv4 (ipv4 95 217 243 12)) DEFAULT_PORT].
Definition BETANET_SEED_PEER_ADDRS : list Address :=
  [mkAddress (Host_Domain str_seed_beta) DEFAULT_PORT].
Definition FORKNET_SEED_PEER_ADDRS : list Address :=
  [mkAddress (Host_Ipv4 (ipv4 157 180 8 224)) DEFAULT_PORT].
Definition seed_peer_addrs (network : Network) : list Address :=
  match network with
  | Betanet => BETANET_SEED_PEER_ADDRS
  | Forknet => FORKNET_SEED_PEER_ADDRS
  | Regtest => []
  | Signet => SIGNET_SEED_PEER_ADDRS
  end.
Definition ensure_seed_peers (network : Network) (known_peers : gset Address) : gset Address :=
  foldl (fun known_peers seed =>
           if bool_decide (seed ∈ known_peers) then known_peers else {[seed]} ∪ known_peers)
    known_peers (seed_peer_addrs network).
(** What [Net::new] writes to the table of known peers *)
Definition net_new (network : Network) (add_peers known_peers : gset Address) : Net :=
  mkNet ∅ (ensure_seed_peers network known_peers ∪ add_peers).
Definition forget_peer (peer_address : Address) (n : Net) : Net * bool :=
  (set_known_peers (net_known_peers n ∖ {[peer_address]}) n, bool_decide (peer_address ∈ net_known_peers n)).

Definition is_active_peer (resolved_addr : ResolvedAddress) (n : Net) : bool :=
  existsb (fun ip_addr =>
      bool_decide (is_Some (net_active_peers n !! socket_addr ip_addr (resolved_port resolved_addr))))
    (ip_addrs resolved_addr).

(** ** Dialling *)

(** What is distinguished of [quinn::ConnectError] *)
Inductive QuinnConnectError : Type :=
| Quinn_InvalidRemoteAddress (addr : SocketAddr)
| Quinn_OtherConnectError.

Inductive ConnectPeerError : Type :=
| Connect_AlreadyConnected (addr : SocketAddr)
| Connect_QuinnConnect (e : QuinnConnectError)
| Connect_UnspecifiedPeerIP (ip : IpAddr).
Inductive DialError : Type :=
| Dial_ConnectPeer (e : ConnectPeerError)
| Dial_DnsResolve (e : ResolvePeerAddress).

(** The endpoint's [connect], with its error if any, the resolver, and the order of the database of known peers *)
Class DialExternals : Type := {
  server_connect : SocketAddr -> list N -> option QuinnConnectError;
  lookup_ip : list N -> option (list IpAddr);
  known_peers_keys : gset Address -> list Address;
}.
(** Documented: an iteration over a database visits every key once. *)
Definition known_peers_keys_spec `{DialExternals} : Prop :=
  forall known_peers, known_peers_keys known_peers ≡ₚ elements known_peers.

Definition str_localhost : list N := [108; 111; 99; 97; 108; 104; 111; 115; 116].

Section dial.
Context `{DialExternals}.

(** The first address that is connected already *)
Definition connected_addr (resolved_addr : ResolvedAddress) (n : Net) : option SocketAddr :=
  List.find (fun addr => bool_decide (is_Some (net_active_peers n !! addr)))
    ((fun ip_addr => socket_addr ip_addr (resolved_port resolved_addr)) <$> ip_addrs resolved_addr).

Definition server_name (resolved_addr : ResolvedAddress) : list N :=
  match resolved_host resolved_addr with Host_Domain domain => domain | _ => str_localhost end.

(** The [loop] of [connect_peer]; each turn drops an address. *)
Fixpoint connect_loop (fuel : nat) (resolved_addr : ResolvedAddress)
  : result ConnectPeerError (SocketAddr * ResolvedAddress) :=
  match fuel with
  | O => Panic
  | S fuel =>
      let addr := socket_addr (first_ip_addr resolved_addr) (resolved_port resolved_addr) in
      if is_unspecified (socket_ip addr) then Err (Connect_UnspecifiedPeerIP (socket_ip addr))
      else
        match server_connect addr (server_name resolved_addr) with
        | None => Ok (addr, resolved_addr)
        | Some (Quinn_InvalidRemoteAddress bad as err) =>
            match pop_first_ip_addr resolved_addr with
            | (_, Some next_addr) => connect_loop fuel next_addr
            | (_, None) => Err (Connect_QuinnConnect err)
            end
        | Some err => Err (Connect_QuinnConnect err)
        end
  end.

(** The peer is known from now on, whatever comes of it. *)
Definition connect_peer (resolved_addr : ResolvedAddress) : op Net ConnectPeerError unit :=
  _ ← writing (fun n => set_known_peers ({[as_peer_address resolved_addr]} ∪ net_known_peers n) n);
  connected ← reading (fun n => Ok (connected_addr resolved_addr n));
  match connected with
  | Some addr => lifted (Err (Connect_AlreadyConnected addr))
  | None =>
      '(addr, resolved_addr) ← lifted (connect_loop (length (ip_addrs resolved_addr)) resolved_addr);
      zoom (fun n => n) (fun n _ => n) Connect_AlreadyConnected
        (add_active_peer addr (peer_connect resolved_addr))
  end.

(** [dial_known_peer]: whether a connection was started *)
Definition dial_known_peer (peer_addr : Address) : op Net DialError bool :=
  resolved_peer_addr ← lifted (map_err Dial_DnsResolve (resolve_peer_address lookup_ip peer_addr));
  active ← reading (fun n => Ok (is_active_peer resolved_peer_addr n));
  match active with
  | true => mret false
  | false =>
      _ ← zoom (fun n => n) (fun n _ => n) Dial_ConnectPeer (connect_peer resolved_peer_addr);
      mret true
  end.

(** [dial_known_peers]: how many connections were started; an error is logged. *)
Definition dial_step (acc : Net * N) (peer_addr : Address) : Net * N :=
  let '(n, dialed) := acc in
  match dial_known_peer peer_addr n with
  | (Ok true, n) => (n, dialed + 1)
  | (_, n) => (n, dialed)
  end.
Definition dial_known_peers (n : Net) : Net * N :=
  foldl dial_step (n, 0) (known_peers_keys (net_known_peers n)).

(** *** Dialling again *)

(** The variables of [redial_known_peers], times in seconds, and one turn of its loop, after the
    sleep *)
Record Redial : Type := mkRedial {
  rd_delay : N;
  rd_no_peers_at_last_check : bool;
}.
Definition redial_new (min_delay : N) : Redial := mkRedial min_delay false.
Definition redial_turn (min_delay max_delay : N) (r : Redial) (n : Net) : Redial * Net :=
  if negb (size (net_active_peers n) =? 0)%nat then (mkRedial min_delay false, n)
  else if negb (rd_no_peers_at_last_check r) then (mkRedial (rd_delay r) true, n)
  else
    let '(n, _) := dial_known_peers n in
    (mkRedial (N.min (2 * rd_delay r) max_delay) (rd_no_peers_at_last_check r), n).

(** ** Incoming connections *)

Inductive AcceptConnectionError : Type :=
| Accept_AlreadyConnected (addr : SocketAddr)
| Accept_Connection (remote_address : SocketAddr)
| Accept_ServerEndpointClosed.

(** What the endpoint reports: a connection may have been closed already. *)
Inductive Incoming : Type :=
| Incoming_EndpointClosed
| Incoming_Failed (remote_address : SocketAddr)
| Incoming_Connection (addr : SocketAddr) (closed : bool).

Definition accept_incoming (incoming : Incoming) : op Net AcceptConnectionError (option SocketAddr) :=
  match incoming with
  | Incoming_EndpointClosed => lifted (Err Accept_ServerEndpointClosed)
  | Incoming_Failed remote_address => lifted (Err (Accept_Connection remote_address))
  | Incoming_Connection addr closed =>
      peered ← reading (fun n => Ok (bool_decide (is_Some (net_active_peers n !! addr))));
      (* a duplicate is closed by this side *)
      if closed || peered then mret None
      else
        _ ← zoom (fun n => n) (fun n _ => n) Accept_AlreadyConnected
              (add_active_peer addr (peer_handle (resolved_of_socket addr)));
        mret (Some addr)
  end.
End dial.

(** ** Relaying *)

Section relay.
Context `{NetExternals}.

Definition push_skips (target : option SocketAddr) (exclude : gset SocketAddr) (address : SocketAddr)
    (peer : ConnectionHandle) : bool :=
  match target with Some target => negb (bool_decide (target = address)) | None => false end
  || bool_decide (address ∈ exclude) || bool_decide (ch_status peer = Connecting).

(** [push_tx]: how many peers it was pushed to; the first peer that cannot take it ends it. *)
Fixpoint push_tx_loop (target : option SocketAddr) (exclude : gset SocketAddr)
    (tx : AuthorizedTransaction) (peers : list (SocketAddr * ConnectionHandle)) (peer_count : N)
  : op Net SocketAddr N :=
  match peers with
  | [] => mret peer_count
  | (address, peer) :: peers =>
      if push_skips target exclude address peer then push_tx_loop target exclude tx peers peer_count
      else if ch_open peer then
        _ ← writing (fun n => (push_internal_message
              (Internal_ForwardRequest (Request_PushTransaction tx)) address n).1);
        push_tx_loop target exclude tx peers (peer_count + 1)
      else lifted (Err address)
  end.
Definition push_tx (target : option SocketAddr) (exclude : gset SocketAddr) (tx : AuthorizedTransaction)
  : op Net SocketAddr N :=
  fun n => push_tx_loop target exclude tx (map_iter (net_active_peers n)) 0 n.

(** [relay_transaction] of [src/lib/node/net_task.rs]: without the peers that could not take it, until
    the others could. *)
Fixpoint relay_loop (fuel : nat) (target : option SocketAddr) (exclude : gset SocketAddr)
    (transaction : AuthorizedTransaction) (n : Net) : result SocketAddr Net :=
  match fuel with
  | O => Panic
  | S fuel =>
      match push_tx target exclude transaction n with
      | (Ok _, n) => Ok n
      | (Err address, n) => relay_loop fuel target ({[address]} ∪ exclude) transaction n
      | (Panic, _) => Panic
      end
  end.
Definition relay_transaction (target : option SocketAddr) (exclude : gset SocketAddr)
    (transaction : AuthorizedTransaction) (n : Net) : result SocketAddr Net :=
  relay_loop (S (size (net_active_peers n))) target exclude transaction n.

(** The peers as they are reported *)
Record Peer : Type := mkPeer {
  peer_address : SocketAddr;
  peer_status : PeerConnectionStatus;
}.
Definition get_active_peers (n : Net) : list Peer :=
  (fun '(addr, conn_handle) => mkPeer addr (ch_status conn_handle)) <$> map_iter (net_active_peers n).
End relay.

(** ** What relaying delivers *)

(** A handle with more copies of a transaction in its queue *)
Definition push_copies (tx : AuthorizedTransaction) (copies : nat) (h : ConnectionHandle) : ConnectionHandle :=
  mkConnectionHandle (ch_received_msg_successfully h) (ch_status h)
    (ch_internal_messages h ++ replicate copies (Internal_ForwardRequest (Request_PushTransaction tx)))
    (ch_open h) (ch_resolved_address h).

(** The peers that should get a transaction and cannot take it *)
Definition closed_peers (target : option SocketAddr) (exclude : gset SocketAddr) (n : Net) : gset SocketAddr :=
  dom (filter (fun p : SocketAddr * ConnectionHandle =>
    push_skips target exclude p.1 p.2 = false /\ ch_open p.2 = false) (net_active_peers n)).

Section delivery.
Context `{NetExternals} (target : option SocketAddr) (tx : AuthorizedTransaction).
Implicit Types (n : Net) (exclude : gset SocketAddr) (h : ConnectionHandle).

Lemma push_copies_0 h : push_copies tx 0 h = h.
Proof. destruct h. unfold push_copies. cbn. by rewrite app_nil_r. Qed.
Lemma push_copies_add i j h : push_copies tx i (push_copies tx j h) = push_copies tx (j + i) h.
Proof. unfold push_copies. cbn. by rewrite replicate_add, app_assoc. Qed.
Lemma push_skips_copies exclude addr i h :
  push_skips target exclude addr (push_copies tx i h) = push_skips target exclude addr h.
Proof. done. Qed.

(** Every handle gets a number of copies that [ok] allows. *)
Definition delivered (ok : SocketAddr -> ConnectionHandle -> nat -> Prop) n n' : Prop :=
  net_known_peers n' = net_known_peers n /\
  forall addr,
    match net_active_peers n !! addr with
    | None => net_active_peers n' !! addr = None
    | Some h => exists copies, net_active_peers n' !! addr = Some (push_copies tx copies h) /\ ok addr h copies
    end.

Lemma delivered_refl (ok : SocketAddr -> ConnectionHandle -> nat -> Prop) n :
  (forall addr h, net_active_peers n !! addr = Some h -> ok addr h 0%nat) -> delivered ok n n.
Proof.
  intros Hok. split; [done|]. intros addr. destruct (net_active_peers n !! addr) as [h|] eqn:Hh; [|done].
  exists 0%nat. rewrite push_copies_0. auto.
Qed.
Lemma delivered_trans (ok1 ok2 ok3 : SocketAddr -> ConnectionHandle -> nat -> Prop) n n1 n2 :
  (forall addr h i j, net_active_peers n !! addr = Some h -> ok1 addr h i -> ok2 addr (push_copies tx i h) j ->
    ok3 addr h (i + j)%nat) ->
  delivered ok1 n n1 -> delivered ok2 n1 n2 -> delivered ok3 n n2.
Proof.
  intros Hok [Hk1 H1] [Hk2 H2]. split; [congruence|]. intros addr. specialize (H1 addr). specialize (H2 addr).
  destruct (net_active_peers n !! addr) as [h|] eqn:Hh; [|by rewrite H1 in H2].
  destruct H1 as (i & Hi & Hoki). rewrite Hi in H2. destruct H2 as (j & Hj & Hokj).
  exists (i + j)%nat. rewrite Hj, push_copies_add. eauto.
Qed.

Lemma push_one_delivered n address peer :
  net_active_peers n !! address = Some peer -> ch_open peer = true ->
  delivered (fun addr _ copies => copies = if decide (addr = address) then 1%nat else 0%nat) n
    (push_internal_message (Internal_ForwardRequest (Request_PushTransaction tx)) address n).1.
Proof.
  intros Hp Ho. unfold push_internal_message. rewrite Hp, Ho. split; [done|]. intros addr. cbn.
  destruct (decide (addr = address)) as [->|Hne].
  - rewrite Hp, lookup_insert_eq. by exists 1%nat.
  - rewrite lookup_insert_ne by done. destruct (net_active_peers n !! addr) as [h|]; [|done].
    exists 0%nat. by rewrite push_copies_0.
Qed.

(** One copy for each peer that was reached, and for all of them when no error ended the loop *)
Definition round_ok exclude (l : list (SocketAddr * ConnectionHandle)) (complete : bool)
    (addr : SocketAddr) h (copies : nat) : Prop :=
  (copies = 0%nat /\ ~ (complete = true /\ addr ∈ l.*1 /\ push_skips target exclude addr h = false /\ ch_open h = true)) \/
  (copies = 1%nat /\ addr ∈ l.*1 /\ push_skips target exclude addr h = false /\ ch_open h = true).

Definition round_result exclude n (r : result SocketAddr N) : Prop :=
  match r with
  | Ok _ => True
  | Err addr => exists h, net_active_peers n !! addr = Some h /\ push_skips target exclude addr h = false /\ ch_open h = false
  | Panic => False
  end.
Definition is_complete (r : result SocketAddr N) : bool := match r with Ok _ => true | _ => false end.

Lemma push_tx_loop_spec exclude l : forall c n,
  NoDup l.*1 -> (forall addr h, (addr, h) ∈ l -> net_active_peers n !! addr = Some h) ->
  exists r n', push_tx_loop target exclude tx l c n = (r, n') /\ round_result exclude n r /\
    delivered (round_ok exclude l (is_complete r)) n n'.
Proof.
  induction l as [|[address peer] l IH]; intros c n Hnd Hl.
  { exists (Ok c), n. split_and!; [done|done|]. apply delivered_refl. intros addr h _. left. split; [done|].
    intros (_ & Hin & _). by apply not_elem_of_nil in Hin. }
  cbn [fmap list_fmap fst] in Hnd. apply NoDup_cons in Hnd as [Hni Hnd].
  assert (net_active_peers n !! address = Some peer) as Hp by (apply Hl, list_elem_of_here).
  assert (forall addr h, (addr, h) ∈ l -> net_active_peers n !! addr = Some h) as Hl'.
  { intros addr h Hin. apply Hl. by apply list_elem_of_further. }
  cbn [push_tx_loop]. destruct (push_skips target exclude address peer) eqn:Hs.
  - destruct (IH c n Hnd Hl') as (r & n' & Hr & Hres & Hd). exists r, n'. split_and!; [done|done|].
    eapply (delivered_trans (fun _ _ copies => copies = 0%nat)); [|by apply delivered_refl|exact Hd].
    intros addr h i j Hh -> Hj. rewrite push_copies_0 in Hj. destruct Hj as [[-> Hn]|(-> & Hin & He)].
    + left. split; [done|]. intros (Hc & [Heq|Hin]%elem_of_cons & He & Ho).
      * cbn in Heq. subst addr. congruence.
      * by apply Hn.
    + right. split_and!; [done|by apply list_elem_of_further|by apply He|by apply He].
  - destruct (ch_open peer) eqn:Ho.
    + pose proof (push_one_delivered n address peer Hp Ho) as Hd1.
      set (n1 := (push_internal_message _ address n).1) in *.
      destruct (IH (c + 1) n1 Hnd) as (r & n' & Hr & Hres & Hd).
      { intros addr h Hin. assert (addr <> address) as Hne.
        { intros ->. apply Hni, list_elem_of_fmap. by exists (address, h). }
        pose proof (proj2 Hd1 addr) as Ha. rewrite (Hl' addr h Hin), decide_False in Ha by done.
        destruct Ha as (copies & Ha & ->). by rewrite Ha, push_copies_0. }
      exists r, n'. split_and!; [exact Hr| |].
      * destruct r as [| addr|]; [done| |done]. destruct Hres as (h & Hh & He).
        pose proof (proj2 Hd1 addr) as Ha. destruct (net_active_peers n !! addr) as [h0|] eqn:H0; [|congruence].
        destruct Ha as (copies & Ha & _). rewrite Hh in Ha. injection Ha as ->. exists h0. split; [done|exact He].
      * eapply delivered_trans; [|exact Hd1|exact Hd]. intros addr h i j Hh -> Hj.
        destruct (decide (addr = address)) as [->|Hne].
        { rewrite Hp in Hh. injection Hh as <-. destruct Hj as [[-> _]|(_ & Hin & _)]; [|done].
          right. split_and!; [done|apply list_elem_of_here|done|done]. }
        destruct Hj as [[-> Hn]|(-> & Hin & He)].
        -- left. split; [done|]. intros (Hc & [Heq|Hin]%elem_of_cons & He); [by subst addr|]. by apply Hn.
        -- right. split_and!; [done|by apply list_elem_of_further|by apply He|by apply He].
    + exists (Err address), n. split_and!; [done|by exists peer|]. apply delivered_refl.
      intros addr h _. left. split; [done|]. by intros [? _].
Qed.

Lemma push_tx_spec exclude n :
  iter_spec ->
  exists r n', push_tx target exclude tx n = (r, n') /\ round_result exclude n r /\
    delivered (round_ok exclude (map_to_list (net_active_peers n)) (is_complete r)) n n'.
Proof.
  intros [Hm _]. specialize (Hm SocketAddr ConnectionHandle _ _ (net_active_peers n)).
  destruct (push_tx_loop_spec exclude (map_iter (net_active_peers n)) 0 n) as (r & n' & Hr & Hres & Hk & Hd).
  - rewrite Hm. apply NoDup_fst_map_to_list.
  - intros addr h Hin. apply elem_of_map_to_list. by rewrite <-Hm.
  - exists r, n'. split_and!; [done|done|]. split; [done|]. intros addr. specialize (Hd addr).
    destruct (net_active_peers n !! addr) as [h|]; [|done]. destruct Hd as (copies & Ha & Hok).
    exists copies. split; [done|]. unfold round_ok in *. by rewrite Hm in Hok.
Qed.

Lemma push_skips_insert exclude address addr h :
  addr <> address -> push_skips target ({[address]} ∪ exclude) addr h = push_skips target exclude addr h.
Proof.
  intros Hne. unfold push_skips. f_equal. f_equal. apply bool_decide_ext. set_solver.
Qed.

Lemma elem_of_closed_peers exclude n addr :
  addr ∈ closed_peers target exclude n <->
  exists h, net_active_peers n !! addr = Some h /\ push_skips target exclude addr h = false /\ ch_open h = false.
Proof.
  unfold closed_peers. rewrite elem_of_dom. unfold is_Some. by setoid_rewrite map_lookup_filter_Some.
Qed.

Lemma closed_peers_next ok exclude address n n1 :
  address ∈ closed_peers target exclude n -> delivered ok n n1 ->
  closed_peers target ({[address]} ∪ exclude) n1 = closed_peers target exclude n ∖ {[address]}.
Proof.
  intros Hc [_ Hd]. apply leibniz_equiv. intros addr. rewrite elem_of_difference, elem_of_singleton, !elem_of_closed_peers.
  specialize (Hd addr). split.
  - intros (h1 & Hh1 & Hs & Ho). destruct (net_active_peers n !! addr) as [h|]; [|congruence].
    destruct Hd as (copies & Hd & _). rewrite Hd in Hh1. injection Hh1 as <-. rewrite push_skips_copies in Hs.
    assert (addr <> address) as Hne.
    { intros ->. unfold push_skips in Hs. rewrite (bool_decide_true (address ∈ _)) in Hs by set_solver.
      by rewrite orb_true_r in Hs. }
    split; [|done]. exists h. rewrite push_skips_insert in Hs by done. by split_and!.
  - intros [(h & Hh & Hs & Ho) Hne]. rewrite Hh in Hd. destruct Hd as (copies & Hd & _).
    exists (push_copies tx copies h). rewrite push_skips_copies, push_skips_insert by done. by split_and!.
Qed.

Definition relay_ok exclude (closed : nat) (addr : SocketAddr) h (copies : nat) : Prop :=
  if push_skips target exclude addr h || negb (ch_open h) then copies = 0%nat
  else (1 <= copies <= 1 + closed)%nat.

Lemma relay_loop_spec (Hiter : iter_spec) fuel : forall exclude n,
  (size (closed_peers target exclude n) < fuel)%nat ->
  exists n', relay_loop fuel target exclude tx n = Ok n' /\
    delivered (relay_ok exclude (size (closed_peers target exclude n))) n n'.
Proof.
  induction fuel as [|fuel IH]; intros exclude n Hfuel; [lia|].
  cbn [relay_loop]. destruct (push_tx_spec exclude n Hiter) as (r & n1 & -> & Hres & Hd).
  assert (forall addr h, net_active_peers n !! addr = Some h -> addr ∈ (map_to_list (net_active_peers n)).*1) as Hin.
  { intros addr h Hh. apply list_elem_of_fmap. exists (addr, h). split; [done|]. by apply elem_of_map_to_list. }
  destruct r as [c|address|]; [| |done].
  - exists n1. split; [done|]. split; [apply Hd|]. intros addr. destruct Hd as [_ Hd]. specialize (Hd addr).
    destruct (net_active_peers n !! addr) as [h|] eqn:Hh; [|done]. destruct Hd as (copies & Ha & Hok).
    exists copies. split; [done|]. unfold relay_ok. specialize (Hin addr h Hh).
    destruct Hok as [[-> Hn]|(-> & _ & -> & ->)]; [|cbn; lia].
    destruct (push_skips _ _ _ _) eqn:Hs; [done|]. destruct (ch_open h) eqn:Ho; [|done].
    exfalso. apply Hn. by split_and!.
  - assert (address ∈ closed_peers target exclude n) as Hc by by apply elem_of_closed_peers.
    pose proof (closed_peers_next _ exclude address n n1 Hc Hd) as Hnext.
    assert (size (closed_peers target ({[address]} ∪ exclude) n1) < size (closed_peers target exclude n))%nat as Hlt.
    { rewrite Hnext. apply subset_size. set_solver. }
    destruct (IH ({[address]} ∪ exclude) n1) as (n' & -> & Hd'); [lia|]. exists n'. split; [done|].
    eapply delivered_trans; [|exact Hd|exact Hd']. intros addr h i j Hh Hi Hj. unfold relay_ok in *.
    rewrite push_skips_copies in Hj. change (ch_open (push_copies tx i h)) with (ch_open h) in Hj.
    destruct (decide (addr = address)) as [->|Hne].
    + destruct Hres as (h' & Hh' & Hs & Ho). rewrite Hh in Hh'. injection Hh' as <-.
      rewrite Ho, orb_true_r in Hj |- *. destruct Hi as [[-> _]|(_ & _ & _ & ?)]; [lia|congruence].
    + rewrite push_skips_insert in Hj by done. destruct Hi as [[-> _]|(-> & _ & Hs & Ho)].
      * destruct (_ || _); lia.
      * rewrite Hs, Ho in *. cbn in *. lia.
Qed.
End delivery.

(** C26 A transaction that is relayed reaches, after finitely many attempts, every connected peer that it
    is meant for and whose task is running, and no other peer. A peer gets one copy, and
    one more at most for each connection whose task has ended. *)
Theorem relay_transaction_delivers `{NetExternals} (target : option SocketAddr) (exclude : gset SocketAddr)
    (tx : AuthorizedTransaction) (n : Net) :
  iter_spec ->
  exists n', relay_transaction target exclude tx n = Ok n' /\ net_known_peers n' = net_known_peers n /\
    forall addr, match net_active_peers n !! addr with
      | None => net_active_peers n' !! addr = None
      | Some h => exists copies, net_active_peers n' !! addr = Some (push_copies tx copies h) /\
          if push_skips target exclude addr h || negb (ch_open h) then copies = 0%nat
          else (1 <= copies <= 1 + size (closed_peers target exclude n))%nat
      end.
Proof.
  intros Hiter. unfold relay_transaction.
  destruct (relay_loop_spec target tx Hiter (S (size (net_active_peers n))) exclude n) as (n' & Hr & Hk & Hd).
  - unfold closed_peers. rewrite size_dom. pose proof (map_size_filter (M := gmap SocketAddr)
      (fun p : SocketAddr * ConnectionHandle => push_skips target exclude p.1 p.2 = false /\ ch_open p.2 = false)
      (net_active_peers n)). lia.
  - by exists n'.
Qed.

(** ** Which address is dialled *)

Section dialled.
Context `{DialExternals}.
Implicit Types (r : ResolvedAddress) (n : Net).

(** The address that is dialled, and what is left of the peer's addresses *)
Definition dials r (addr : SocketAddr) r' : Prop :=
  as_peer_address r' = as_peer_address r /\
  exists skipped ip others,
    ip_addrs r = skipped ++ ip :: others /\ ip_addrs r' = ip :: others /\
    addr = socket_addr ip (resolved_port r) /\ is_unspecified ip = false /\
    server_connect addr (server_name r) = None /\
    Forall (fun ip => exists bad, server_connect (socket_addr ip (resolved_port r)) (server_name r) =
      Some (Quinn_InvalidRemoteAddress bad)) skipped.

Lemma socket_addr_ip ip port : socket_ip (socket_addr ip port) = ip.
Proof. by destruct ip. Qed.
Lemma ip_addrs_first r : exists others, ip_addrs r = first_ip_addr r :: others.
Proof.
  destruct (pop_first_ip_addr_spec r) as [Hp <-]. destruct (pop_first_ip_addr r) as [ip [r'|]];
    [destruct Hp as [-> _]|rewrite Hp]; by eexists.
Qed.

Lemma connect_loop_spec fuel : forall r, (length (ip_addrs r) <= fuel)%nat ->
  match connect_loop fuel r with
  | Ok (addr, r') => dials r addr r'
  | Err _ => True
  | Panic => False
  end.
Proof.
  induction fuel as [|fuel IH]; intros r Hf; destruct (ip_addrs_first r) as [others Hothers].
  { rewrite Hothers in Hf. cbn in Hf. lia. }
  cbn [connect_loop]. rewrite socket_addr_ip. destruct (is_unspecified _) eqn:Hu; [done|].
  destruct (server_connect _ _) as [[bad|]|] eqn:Hc; [|done|].
  - destruct (pop_first_ip_addr_spec r) as [Hp Hfst]. destruct (pop_first_ip_addr r) as [ip [r'|]]; [|done].
    cbn in Hfst. subst ip. destruct Hp as [Hips Hname]. specialize (IH r').
    rewrite Hips in Hf. cbn in Hf. specialize (IH ltac:(lia)).
    destruct (connect_loop fuel r') as [[addr r'']| |]; [|done|done].
    destruct IH as (Hn & skipped & ip & rest & Hsk & Hr'' & Haddr & Hns & Hok & Hall).
    unfold as_peer_address in Hname. injection Hname as Hhost Hport.
    assert (server_name r' = server_name r) as Hsn by (unfold server_name; by rewrite Hhost).
    rewrite Hport, Hsn in *. split; [unfold as_peer_address in *; congruence|].
    exists (first_ip_addr r :: skipped), ip, rest. rewrite Hips, Hsk. split_and!; try done.
    constructor; [by exists bad|done].
  - split; [done|]. exists [], (first_ip_addr r), others. by split_and!.
Qed.

Lemma connected_addr_None r n ip :
  connected_addr r n = None -> ip ∈ ip_addrs r ->
  net_active_peers n !! socket_addr ip (resolved_port r) = None.
Proof.
  intros Hf Hin. pose proof (List.find_none _ _ Hf (socket_addr ip (resolved_port r))) as Hn.
  cbn beta in Hn. rewrite bool_decide_eq_false in Hn.
  destruct (net_active_peers n !! _) eqn:Hl; [|done]. exfalso. apply Hn; [|by eexists].
  apply list_elem_of_In, list_elem_of_fmap. by exists ip.
Qed.
End dialled.

(** Dialling a peer makes it known, and starts at most one connection: to the first of the peer's
    addresses that the endpoint can use, when none of them is connected yet. *)
Theorem connect_peer_correct `{DialExternals} (r : ResolvedAddress) (n n' : Net)
    (res : result ConnectPeerError unit) :
  connect_peer r n = (res, n') ->
  net_known_peers n' = {[as_peer_address r]} ∪ net_known_peers n /\
  match res with
  | Ok _ => (forall ip, ip ∈ ip_addrs r -> net_active_peers n !! socket_addr ip (resolved_port r) = None) /\
      exists addr r', dials r addr r' /\ net_active_peers n' = <[addr := peer_connect r']> (net_active_peers n)
  | Err _ => net_active_peers n' = net_active_peers n
  | Panic => False
  end.
Proof.
  unfold connect_peer, mbind, op_bind, writing, reading, lifted, zoom.
  set (n1 := set_known_peers _ n). destruct (connected_addr r n1) as [addr|] eqn:Hc; [by intros [= <- <-]|].
  pose proof (connect_loop_spec _ r (le_n _)) as Hl.
  destruct (connect_loop _ r) as [[addr r']|e|]; [|by intros [= <- <-]|done].
  pose proof Hl as (_ & skipped & ip & others & Hips & _ & -> & _).
  unfold add_active_peer. rewrite (connected_addr_None r n1 ip Hc).
  2: { rewrite Hips. set_solver. }
  intros [= <- <-]. split; [done|]. split; [intros ip' Hin; by apply (connected_addr_None r n1)|].
  by exists (socket_addr ip (resolved_port r)), r'.
Qed.

(** ** Dialling again *)

Section redial.
Context `{DialExternals}.
Implicit Types (r : ResolvedAddress) (n : Net) (peer : Address).

(** The endpoint can dial one of the peer's addresses. *)
Definition dialable peer r : Prop :=
  resolve_peer_address lookup_ip peer = Ok r /\
  exists addr r', connect_loop (length (ip_addrs r)) r = Ok (addr, r').

Lemma is_active_peer_true r n :
  is_active_peer r n = true <->
  exists ip, ip ∈ ip_addrs r /\ is_Some (net_active_peers n !! socket_addr ip (resolved_port r)).
Proof.
  unfold is_active_peer. rewrite existsb_exists. split; intros (ip & Hin & Ha); exists ip;
    (split; [by apply list_elem_of_In|]); by rewrite bool_decide_eq_true in *.
Qed.
Lemma is_active_peer_mono r n n' :
  net_active_peers n ⊆ net_active_peers n' -> is_active_peer r n = true -> is_active_peer r n' = true.
Proof.
  intros Hsub (ip & Hin & h & Hh)%is_active_peer_true. apply is_active_peer_true. exists ip.
  split; [done|]. exists h. by eapply lookup_weaken.
Qed.

Lemma connect_peer_grows r n : net_active_peers n ⊆ net_active_peers (connect_peer r n).2.
Proof.
  destruct (connect_peer r n) as [res n'] eqn:Hc. destruct (connect_peer_correct r n n' res Hc) as [_ Hr]. cbn [snd].
  destruct res as [[]| |]; [|by rewrite Hr|done]. destruct Hr as [Hnone (addr & r' & Hd & ->)].
  destruct Hd as (_ & skipped & ip & others & Hips & _ & -> & _).
  apply insert_subseteq, Hnone. rewrite Hips. set_solver.
Qed.
Lemma dial_known_peer_grows peer n : net_active_peers n ⊆ net_active_peers (dial_known_peer peer n).2.
Proof.
  unfold dial_known_peer, mbind, op_bind, lifted, reading, zoom, mret, op_ret.
  destruct (resolve_peer_address lookup_ip peer) as [r| |]; [|done..]. cbn [map_err].
  destruct (is_active_peer r n); [done|]. pose proof (connect_peer_grows r n) as Hg.
  by destruct (connect_peer r n) as [[]].
Qed.
Lemma dial_step_grows acc peer : net_active_peers acc.1 ⊆ net_active_peers (dial_step acc peer).1.
Proof.
  destruct acc as [n c]. cbn. pose proof (dial_known_peer_grows peer n) as Hg.
  by destruct (dial_known_peer peer n) as [[[]| |]].
Qed.
Lemma dial_steps_grow l : forall acc, net_active_peers acc.1 ⊆ net_active_peers (foldl dial_step acc l).1.
Proof.
  induction l as [|peer l IH]; intros acc; [done|]. cbn [foldl].
  etransitivity; [apply (dial_step_grows acc peer)|apply IH].
Qed.

Lemma dial_step_active acc peer r : dialable peer r -> is_active_peer r (dial_step acc peer).1 = true.
Proof.
  intros [Hres (addr & r' & Hl)]. destruct acc as [n c]. cbn. unfold dial_known_peer, mbind, op_bind, lifted, reading, zoom.
  rewrite Hres. cbn [map_err]. destruct (is_active_peer r n) eqn:Ha; [done|].
  unfold connect_peer, mbind, op_bind, writing, reading, lifted. set (n1 := set_known_peers _ n).
  assert (forall ip, ip ∈ ip_addrs r -> net_active_peers n1 !! socket_addr ip (resolved_port r) = None) as Hnone.
  { intros ip Hin. destruct (net_active_peers n1 !! _) as [h|] eqn:Hh; [|done].
    rewrite (proj2 (is_active_peer_true r n)) in Ha; [done|]. exists ip. split; [done|]. by exists h. }
  assert (connected_addr r n1 = None) as ->.
  { destruct (connected_addr r n1) as [addr0|] eqn:Hc; [|done]. apply List.find_some in Hc as [Hin [h Hh]%bool_decide_eq_true].
    apply list_elem_of_In, list_elem_of_fmap in Hin as (ip & -> & Hin). by rewrite Hnone in Hh. }
  pose proof (connect_loop_spec _ r (le_n _)) as Hd. rewrite Hl in Hd |- *.
  destruct Hd as (_ & skipped & ip & others & Hips & _ & -> & _).
  assert (ip ∈ ip_addrs r) as Hin by (rewrite Hips; set_solver).
  unfold zoom, add_active_peer. rewrite (Hnone ip Hin). cbn. apply is_active_peer_true. exists ip.
  split; [done|]. cbn. rewrite lookup_insert_eq. by eexists.
Qed.

Lemma dial_known_peers_active n peer r :
  known_peers_keys_spec -> peer ∈ net_known_peers n -> dialable peer r ->
  is_active_peer r (dial_known_peers n).1 = true.
Proof.
  intros Hspec Hin Hd. unfold dial_known_peers.
  assert (peer ∈ known_peers_keys (net_known_peers n)) as (l1 & l2 & ->)%list_elem_of_split.
  { rewrite (Hspec (net_known_peers n)). by apply elem_of_elements. }
  rewrite foldl_app. cbn [foldl]. eapply is_active_peer_mono; [apply dial_steps_grow|]. by apply dial_step_active.
Qed.

Lemma redial_turn_cases min_delay max_delay rd n :
  net_active_peers n = ∅ ->
  redial_turn min_delay max_delay rd n =
    if rd_no_peers_at_last_check rd
    then (mkRedial (N.min (2 * rd_delay rd) max_delay) true, (dial_known_peers n).1)
    else (mkRedial (rd_delay rd) true, n).
Proof.
  intros He. unfold redial_turn. rewrite He. replace (size ∅) with 0%nat by done. cbn [Nat.eqb negb].
  destruct (rd_no_peers_at_last_check rd); [|done]. cbn [negb]. by destruct (dial_known_peers n).
Qed.
Lemma redial_turn_keeps min_delay max_delay rd n r :
  is_active_peer r n = true -> (redial_turn min_delay max_delay rd n).2 = n.
Proof.
  intros (ip & _ & h & Hh)%is_active_peer_true. unfold redial_turn.
  destruct (size (net_active_peers n)) as [|s] eqn:Hs; [|done].
  apply map_size_empty_inv in Hs. by rewrite Hs, lookup_empty in Hh.
Qed.
End redial.

(** A node that has lost all of its connections dials every known peer again within two turns of its
    loop: each one that resolves to an address that the endpoint can dial has a connection then. The
    wait between turns never exceeds the longest one. *)
Theorem redial_known_peers_reconnects `{DialExternals} (min_delay max_delay : N) (rd : Redial) (n : Net) :
  known_peers_keys_spec -> net_active_peers n = ∅ -> min_delay <= max_delay -> rd_delay rd <= max_delay ->
  exists rd1 n1 rd2 n2,
    redial_turn min_delay max_delay rd n = (rd1, n1) /\ redial_turn min_delay max_delay rd1 n1 = (rd2, n2) /\
    rd_delay rd1 <= max_delay /\ rd_delay rd2 <= max_delay /\
    forall peer r, peer ∈ net_known_peers n -> dialable peer r -> is_active_peer r n2 = true.
Proof.
  intros Hspec He Hmin Hrd. destruct (redial_turn min_delay max_delay rd n) as [rd1 n1] eqn:H1.
  destruct (redial_turn min_delay max_delay rd1 n1) as [rd2 n2] eqn:H2. exists rd1, n1, rd2, n2.
  assert (forall rd n rd' n', redial_turn min_delay max_delay rd n = (rd', n') -> rd_delay rd <= max_delay ->
    rd_delay rd' <= max_delay) as Hdelay.
  { intros rd' n' rd'' n'' Ht Hle. unfold redial_turn in Ht. destruct (dial_known_peers n') as [nd c].
    repeat case_match; simplify_eq; cbn; lia. }
  split_and!; [done|done|by eapply Hdelay|by eapply Hdelay; [|eapply Hdelay]|].
  intros peer r Hin Hd. rewrite redial_turn_cases in H1 by done.
  destruct (rd_no_peers_at_last_check rd) eqn:Hc; injection H1 as <- <-.
  - pose proof (dial_known_peers_active n peer r Hspec Hin Hd) as Ha.
    pose proof (redial_turn_keeps min_delay max_delay (mkRedial (N.min (2 * rd_delay rd) max_delay) true) _ r Ha) as Hk.
    rewrite H2 in Hk. cbn in Hk. by subst n2.
  - rewrite redial_turn_cases in H2 by done. injection H2 as <- <-. by eapply dial_known_peers_active.
Qed.
