(* ===== verification/NetTask.v ===== *)
(** * The net task

    [src/lib/node/net_task.rs]: the task of the node that owns the databases and the table of
    peers. It stores the headers and the bodies that connections have received, remembers which
    tips wait for which bodies, switches to tips that are ready, forwards requests to the task
    that follows the mainchain, and relays transactions. A turn of its loop handles one message. *)

From S2P Require Import Prelude Types Transaction Authorization State Merkle SideTips Lineage.
From S2P Require Import Archive ArchiveBodies ArchiveIter BetterTip Mempool Node NodeTask.
From S2P Require Import PeerMessage PeerTask NetAddress Net.

(** ** State *)

(** [mainchain_task::Request] *)
Inductive MainchainRequest : Type :=
| AncestorInfos (block_hash : MainBlockHash).
#[export] Instance MainchainRequest_eq_dec : EqDecision MainchainRequest.
Proof. solve_decision. Defined.
#[export] Instance MainchainRequest_countable : Countable MainchainRequest.
Proof. apply (inj_countable' (fun '(AncestorInfos h) => h) AncestorInfos). by intros []. Defined.
(** [mainchain_task::Response]; [None]: the task reports an error. *)
Inductive MainchainResponse : Type :=
| Response_AncestorInfos (block_hash : MainBlockHash) (res : option bool).
Definition request_of_response (response : MainchainResponse) : MainchainRequest :=
  match response with Response_AncestorInfos block_hash _ => AncestorInfos block_hash end.

Inductive NetTaskError : Type :=
| NetTask_Node (e : NodeError)
| NetTask_PeerInfoRxClosed
| NetTask_RedialKnownPeers.

(** The databases and the table of peers of the context, the variables of [run], and its channels,
    oldest message first: tips to switch to, requests to forward, requests that the
    mainchain task has, and peers to connect to again. *)
Record NetTask : Type := mkNetTask {
  nt_db : NodeDb;
  nt_net : Net;
  nt_descendant_tips : gmap BlockHash (gmap Tip (gset SocketAddr));
  nt_request_sources : gmap MainchainRequest (gset (SocketAddr * PeerStateId));
  nt_new_tip_ready : list (Tip * option SocketAddr);
  nt_forward_requests : list (MainchainRequest * SocketAddr * PeerStateId);
  nt_mainchain_requests : list MainchainRequest;
  nt_reconnects : list ResolvedAddress;
}.

Definition put_db db (t : NetTask) : NetTask :=
  mkNetTask db (nt_net t) (nt_descendant_tips t) (nt_request_sources t) (nt_new_tip_ready t)
    (nt_forward_requests t) (nt_mainchain_requests t) (nt_reconnects t).
Definition put_archive a (t : NetTask) : NetTask :=
  put_db (mkNodeDb (nd_state (nt_db t)) a (nd_mempool (nt_db t))) t.
Definition on_net (f : Net -> Net) (t : NetTask) : NetTask :=
  mkNetTask (nt_db t) (f (nt_net t)) (nt_descendant_tips t) (nt_request_sources t) (nt_new_tip_ready t)
    (nt_forward_requests t) (nt_mainchain_requests t) (nt_reconnects t).
Definition put_descendant_tips tips (t : NetTask) : NetTask :=
  mkNetTask (nt_db t) (nt_net t) tips (nt_request_sources t) (nt_new_tip_ready t)
    (nt_forward_requests t) (nt_mainchain_requests t) (nt_reconnects t).
Definition put_request_sources sources (t : NetTask) : NetTask :=
  mkNetTask (nt_db t) (nt_net t) (nt_descendant_tips t) sources (nt_new_tip_ready t)
    (nt_forward_requests t) (nt_mainchain_requests t) (nt_reconnects t).
Definition send_new_tip_ready messages (t : NetTask) : NetTask :=
  mkNetTask (nt_db t) (nt_net t) (nt_descendant_tips t) (nt_request_sources t)
    (nt_new_tip_ready t ++ messages) (nt_forward_requests t) (nt_mainchain_requests t) (nt_reconnects t).
Definition send_forward_request request (t : NetTask) : NetTask :=
  mkNetTask (nt_db t) (nt_net t) (nt_descendant_tips t) (nt_request_sources t) (nt_new_tip_ready t)
    (nt_forward_requests t ++ [request]) (nt_mainchain_requests t) (nt_reconnects t).
Definition send_mainchain_request request (t : NetTask) : NetTask :=
  mkNetTask (nt_db t) (nt_net t) (nt_descendant_tips t) (nt_request_sources t) (nt_new_tip_ready t)
    (nt_forward_requests t) (nt_mainchain_requests t ++ [request]) (nt_reconnects t).
Definition spawn_reconnect resolved (t : NetTask) : NetTask :=
  mkNetTask (nt_db t) (nt_net t) (nt_descendant_tips t) (nt_request_sources t) (nt_new_tip_ready t)
    (nt_forward_requests t) (nt_mainchain_requests t) (nt_reconnects t ++ [resolved]).

(** The delays of [redial_known_peers], in seconds *)
Definition MIN_DELAY : N := 60.
Definition MAX_DELAY : N := 600.

(** The start of [run] *)
Definition net_task_new (db : NodeDb) (net : Net) : NetTask := mkNetTask db net ∅ ∅ [] [] [] [].

Section net_task.
Context `{Externals} `{WorkExternals} `{NetExternals} `{DialExternals}.
Implicit Types (t : NetTask) (a : Archive) (addr : SocketAddr).

Definition reading_archive : op NetTask NetTaskError Archive :=
  reading (fun t => Ok (nd_archive (nt_db t))).
Definition node_result {A} (r : result NodeError A) : op NetTask NetTaskError A :=
  lifted (map_err NetTask_Node r).
Definition archive_result {A} (r : result ArchiveError A) : op NetTask NetTaskError A :=
  node_result (map_err Node_Archive r).
Definition remove_peer addr : op NetTask NetTaskError unit :=
  writing (on_net (remove_active_peer addr)).
Definition push_message (message : InternalMessage) addr : op NetTask NetTaskError unit :=
  writing (on_net (fun n => (push_internal_message message addr n).1)).

(** ** Bodies *)

(** [descendant_tips.entry(..).or_default().entry(..).or_default().extend(..)] *)
Definition wait_for_body (missing_body : BlockHash) (descendant_tip : Tip) (sources : gset SocketAddr) t : NetTask :=
  let tips := default ∅ (nt_descendant_tips t !! missing_body) in
  put_descendant_tips
    (<[missing_body := <[descendant_tip := default ∅ (tips !! descendant_tip) ∪ sources]> tips]>
       (nt_descendant_tips t)) t.

Definition store_body (block_hash : BlockHash) (body : Body) : op NetTask NetTaskError unit :=
  a ← reading_archive;
  a ← archive_result (put_body a block_hash body);
  writing (put_archive a).

(** [.map_or(0, |height| height + 1)] *)
Definition height_after_ancestor (ancestor_height : option u32) : u32 :=
  match ancestor_height with Some height => u32_add height 1 | None => 0 end.
Definition ancestor_height a (ancestor : option BlockHash) : result ArchiveError (option u32) :=
  match ancestor with
  | Some ancestor => Some <$> archive_get_height a ancestor
  | None => Ok None
  end.

(** The first block: the connection is told when no body is missing up to the block. Every error of
    the iterator comes before its first item. *)
Definition notify_bodies (block_hash : BlockHash) (descendant_tip : Tip) (ancestor : option BlockHash)
    (id : PeerStateId) addr : op NetTask NetTaskError unit :=
  a ← reading_archive;
  height ← archive_result (ancestor_height a ancestor);
  missing ← archive_result (iter_missing_bodies a block_hash (height_after_ancestor height));
  match head missing with
  | Some earliest_missing_body => writing (wait_for_body earliest_missing_body descendant_tip {[addr]})
  | None => push_message (Internal_BodiesAvailable id) addr
  end.

(** [get_bmm_results(..).find_map(..)]: the mainchain block that commits to the block on the branch of
    the descendant *)
Fixpoint find_verification a (main_descendant : MainBlockHash)
    (bmm_results : list (MainBlockHash * BmmResult)) : result ArchiveError (option MainBlockHash) :=
  match bmm_results with
  | [] => Ok None
  | (main_block_hash, Bmm_Failed) :: bmm_results => find_verification a main_descendant bmm_results
  | (main_block_hash, Bmm_Verified) :: bmm_results =>
      descendant ← is_main_descendant a main_block_hash main_descendant;
      match descendant with
      | true => Ok (Some main_block_hash)
      | false => find_verification a main_descendant bmm_results
      end
  end.

(** The tip to switch to for a descendant tip that waited, and its sources that wait again *)
Definition next_tip a (tip : option Tip) (descendant_tip : Tip) (sources : gset SocketAddr)
  : op NetTask NetTaskError (option Tip) :=
  common_ancestor ←
    match tip with
    | Some tip => archive_result (last_common_ancestor a (tip_block_hash descendant_tip) (tip_block_hash tip))
    | None => mret None
    end;
  height ← archive_result (ancestor_height a common_ancestor);
  missing ← archive_result
    (iter_missing_bodies a (tip_block_hash descendant_tip) (height_after_ancestor height));
  match head missing with
  | Some earliest_missing_body =>
      _ ← writing (wait_for_body earliest_missing_body descendant_tip sources);
      header ← archive_result (get_header a earliest_missing_body);
      match hd_prev_side_hash header with
      | Some tip_hash => next ← node_result (tip_of a tip_hash); mret (Some next)
      | None => mret None
      end
  | None => mret (Some descendant_tip)
  end.

(** One turn of the loop over the descendant tips *)
Definition check_descendant_tip (tip : option Tip) (descendant_tip : Tip) (sources : gset SocketAddr)
  : op NetTask NetTaskError unit :=
  a ← reading_archive;
  next ← next_tip a tip descendant_tip sources;
  match next with
  | None => mret tt
  | Some next =>
      ready ← match tip with Some tip => node_result (is_better a tip next) | None => mret true end;
      match ready with
      | false => mret tt
      | true => writing (send_new_tip_ready ((fun addr => (next, Some addr)) <$> set_iter sources))
      end
  end.
Fixpoint check_descendant_tips (tip : option Tip) (tips : list (Tip * gset SocketAddr))
  : op NetTask NetTaskError unit :=
  match tips with
  | [] => mret tt
  | (descendant_tip, sources) :: tips =>
      _ ← check_descendant_tip tip descendant_tip sources;
      check_descendant_tips tip tips
  end.

(** The second block: new tips that can be applied *)
Definition apply_new_tips (block_hash : BlockHash) (header : Header) (descendant_tip : Tip) addr
  : op NetTask NetTaskError unit :=
  tip ← reading (fun t => map_err NetTask_Node (current_tip (nt_db t)));
  a ← reading_archive;
  verification ← archive_result (find_verification a (tip_main_block_hash descendant_tip)
    (map_iter (get_bmm_results a block_hash)));
  main_block_hash ← lifted (expect verification);
  _ ← (if bool_decide (hd_prev_side_hash header = tip_block_hash <$> tip)
       then writing (send_new_tip_ready [(mkTip block_hash main_block_hash, Some addr)])
       else mret tt);
  block_descendant_tips ← reading (fun t => Ok (nt_descendant_tips t !! block_hash));
  match block_descendant_tips with
  | None => mret tt
  | Some block_descendant_tips =>
      _ ← writing (fun t => put_descendant_tips (delete block_hash (nt_descendant_tips t)) t);
      check_descendant_tips tip (map_iter block_descendant_tips)
  end.

Definition handle_block (block_hash : BlockHash) (descendant_tip : Tip) (ancestor : option BlockHash)
    (id : PeerStateId) addr (header : Header) (body : Body) : op NetTask NetTaskError unit :=
  if negb (header_hash header =? block_hash) then remove_peer addr
  else
    _ ← store_body block_hash body;
    _ ← notify_bodies block_hash descendant_tip ancestor id addr;
    apply_new_tips block_hash header descendant_tip addr.

(** ** Responses *)

(** Headers: checked, then stored in one write transaction *)
Definition handle_headers_response (start : gset BlockHash) (end_ : BlockHash) (height : u32)
    (id : PeerStateId) addr (headers : list Header) : op NetTask NetTaskError unit :=
  a ← reading_archive;
  '(a, accepted) ← archive_result (handle_headers a (mkHeadersRequest start end_ height) headers);
  match accepted with
  | false => remove_peer addr
  | true => _ ← writing (put_archive a); push_message (Internal_Headers id) addr
  end.

Definition handle_response addr (resp : ResponseMessage) (req : Request) : op NetTask NetTaskError unit :=
  match req, resp with
  | Request_GetBlock (mkGetBlockRequest block_hash (Some descendant_tip) ancestor (Some peer_state_id)),
    Response_Block header body =>
      handle_block block_hash descendant_tip ancestor peer_state_id addr header body
  | Request_GetBlock (mkGetBlockRequest req_block_hash (Some _) _ (Some _)), Response_NoBlock resp_block_hash =>
      if req_block_hash =? resp_block_hash then mret tt else remove_peer addr
  | Request_GetHeaders (mkGetHeadersRequest start end_ (Some height) (Some peer_state_id)),
    Response_Headers headers => handle_headers_response start end_ height peer_state_id addr headers
  | Request_GetHeaders request, Response_NoHeader block_hash =>
      if gh_end request =? block_hash then mret tt else remove_peer addr
  | Request_PushTransaction _, Response_TransactionAccepted _ => mret tt
  | Request_PushTransaction _, Response_TransactionRejected _ => mret tt
  | _, _ => remove_peer addr
  end.

(** ** The mainchain task *)

(** The message to a connection that waits for ancestors *)
Definition ancestors_message (res : option bool) (id : PeerStateId) : InternalMessage :=
  match res with
  | Some true => Internal_MainchainAncestors id
  | Some false | None => Internal_MainchainAncestorsError
  end.
Definition handle_mainchain_task_response (response : MainchainResponse) : op NetTask NetTaskError unit :=
  match response with
  | Response_AncestorInfos _ res =>
      let request := request_of_response response in
      sources ← reading (fun t => Ok (nt_request_sources t !! request));
      match sources with
      | None => mret tt
      | Some sources =>
          _ ← writing (fun t => put_request_sources (delete request (nt_request_sources t)) t);
          writing (on_net (fun n =>
            foldl (fun n '(addr, id) => (push_internal_message (ancestors_message res id) addr n).1)
              n (set_iter sources)))
      end
  end.

(** ** Turns of the loop *)

(** A part of a turn that changes the databases only *)
Definition on_db {A} (f : NodeDb -> NodeDb * result NodeError A) : op NetTask NetTaskError A :=
  fun t => let '(db, r) := f (nt_db t) in (map_err NetTask_Node r, put_db db t).

(** The loop of [relay_mempool] after the pool is cleaned, and [relay_transaction] *)
Definition relay_one (target : option SocketAddr) (exclude : gset SocketAddr) (tx : AuthorizedTransaction)
  : op NetTask NetTaskError unit :=
  n ← reading (fun t => match relay_transaction target exclude tx (nt_net t) with
                        | Ok n => Ok n | Err _ | Panic => Panic end);
  writing (on_net (fun _ => n)).
Fixpoint relay_all (target : option SocketAddr) (transactions : list AuthorizedTransaction)
  : op NetTask NetTaskError unit :=
  match transactions with
  | [] => mret tt
  | tx :: transactions => _ ← relay_one target ∅ tx; relay_all target transactions
  end.
Definition relay_pool (target : option SocketAddr) : op NetTask NetTaskError unit :=
  '(db, valid) ← reading (fun t => map_err NetTask_Node (relay_mempool (nt_db t)));
  _ ← writing (put_db db);
  relay_all target valid.

(** [MailboxItem::PeerInfo] with an error: the connection is removed, and dialled again when that may
    help. *)
Definition handle_peer_error addr (err : ConnectionError) (resolved_peer_addr : ResolvedAddress)
  : op NetTask NetTaskError unit :=
  match err with
  | Conn_HeartbeatTimeout =>
      received ← reading (fun t => Ok (try_with_active_peer_connection addr ch_received_msg_successfully (nt_net t)));
      match received with
      | None => mret tt
      | Some received_msg_successfully =>
          _ ← remove_peer addr;
          match received_msg_successfully with
          | false => mret tt
          | true => writing (spawn_reconnect resolved_peer_addr)
          end
      end
  | _ =>
      _ ← remove_peer addr;
      _ ← (if is_duplicate_connection err || is_connect_timeout err
           then writing (spawn_reconnect resolved_peer_addr)
           else
             match is_bad_magic err, pop_first_ip_addr resolved_peer_addr with
             | false, (_, Some next_addr) => writing (spawn_reconnect next_addr)
             | _, _ => mret tt
             end);
      if is_bad_magic err
      then writing (on_net (fun n => (forget_peer (as_peer_address resolved_peer_addr) n).1))
      else mret tt
  end.

(** [PeerConnectionInfo]; an error comes with the address of the connection's context. *)
Definition handle_peer_info addr (resolved_peer_addr : ResolvedAddress) (peer_info : Info)
  : op NetTask NetTaskError unit :=
  match peer_info with
  | Info_Error err => handle_peer_error addr err resolved_peer_addr
  | Info_NeedMainchainAncestors main_hash peer_state_id =>
      writing (send_forward_request (AncestorInfos main_hash, addr, peer_state_id))
  | Info_NewTipReady new_tip => writing (send_new_tip_ready [(new_tip, Some addr)])
  | Info_Connected => relay_pool (Some addr)
  | Info_NewTransaction new_tx =>
      relayed ← on_db (fun db => let '(db, relayed) := new_transaction db new_tx in (db, Ok relayed));
      match relayed with
      | true => relay_one None {[addr]} new_tx
      | false => mret tt
      end
  | Info_Response resp req => handle_response addr resp req
  end.

(** [MailboxItem::ForwardMainchainTaskRequest]; [accepted]: the mainchain task is running. *)
Definition forward_mainchain_task_request (accepted : bool) (request : MainchainRequest) addr (id : PeerStateId)
  : op NetTask NetTaskError unit :=
  match accepted with
  | false => mret tt
  | true =>
      _ ← writing (send_mainchain_request request);
      writing (fun t => put_request_sources
        (<[request := default ∅ (nt_request_sources t !! request) ∪ {[(addr, id)]}]> (nt_request_sources t)) t)
  end.

(** The reorganisation, and what becomes of the peer that sent the tip *)
Definition handle_new_tip_ready (new_tip : Tip) (source : option SocketAddr) : op NetTask NetTaskError unit :=
  reorg ← on_db (fun db => new_tip_ready db new_tip);
  match ro_drop_peer reorg, source with
  | true, Some addr => remove_peer addr
  | _, _ => mret tt
  end.

Inductive NetMailboxItem : Type :=
| Mail_AcceptConnection (incoming : Incoming)
| Mail_ForwardMainchainTaskRequest (accepted : bool) (request : MainchainRequest) (addr : SocketAddr) (id : PeerStateId)
| Mail_MainchainBlockEvent
| Mail_MainchainTaskResponse (response : MainchainResponse)
| Mail_NewTipReady (new_tip : Tip) (addr : option SocketAddr)
| Mail_PeerInfoClosed
| Mail_PeerClosed (addr : SocketAddr)
| Mail_PeerInfo (addr : SocketAddr) (resolved_peer_addr : ResolvedAddress) (info : Info)
| Mail_ReconnectPeer (resolved_peer_address : ResolvedAddress)
| Mail_RedialKnownPeers
| Mail_RelayTransactions.

(** One turn of [run]; an error ends the task. *)
Definition run_mail (item : NetMailboxItem) : op NetTask NetTaskError unit :=
  match item with
  | Mail_RelayTransactions => relay_pool None
  | Mail_AcceptConnection incoming => writing (on_net (fun n => (accept_incoming incoming n).2))
  | Mail_ForwardMainchainTaskRequest accepted request addr id =>
      forward_mainchain_task_request accepted request addr id
  | Mail_MainchainBlockEvent => on_db handle_mainchain_block_event
  | Mail_MainchainTaskResponse response => handle_mainchain_task_response response
  | Mail_NewTipReady new_tip addr => handle_new_tip_ready new_tip addr
  | Mail_PeerInfoClosed => lifted (Err NetTask_PeerInfoRxClosed)
  | Mail_PeerClosed addr => remove_peer addr
  | Mail_PeerInfo addr resolved_peer_addr info => handle_peer_info addr resolved_peer_addr info
  | Mail_ReconnectPeer resolved => writing (on_net (fun n => (connect_peer resolved n).2))
  | Mail_RedialKnownPeers => lifted (Err NetTask_RedialKnownPeers)
  end.
(** [run]: message after message until one fails *)
Fixpoint run_mails (items : list NetMailboxItem) : op NetTask NetTaskError unit :=
  match items with
  | [] => mret tt
  | item :: items => _ ← run_mail item; run_mails items
  end.
End net_task.
