(* ===== verification/NodeQueries.v ===== *)
(** * Queries of the node

    The queries of [src/lib/node/mod.rs] that put answers of several components together: the block
    at a height of the current chain, the events of a block, and transactions from the archive or
    the pool. Sending a transaction, with what the network makes of it. *)

From S2P Require Import Prelude Types Transaction Authorization State Merkle SideTips Lineage.
From S2P Require Import Archive ArchiveTree ArchiveWf ArchiveBodies TipsWf ArchiveQueries ArchiveIter.
From S2P Require Import Mempool Node NodeTask PeerMessage PeerTask NetAddress Net.

(** What [Error] of the node has beside [NodeError] *)
Inductive QueryError : Type :=
| Query_Node (e : NodeError)
| Query_MissingTransaction (txid : Txid)
| Query_NotInCurrentChain (block_hash : BlockHash)
| Query_SendTransaction (address : SocketAddr).

Definition archive_answer {A} (r : result ArchiveError A) : result QueryError A :=
  map_err (fun e => Query_Node (Node_Archive e)) r.
Definition state_answer {A} (r : result Error A) : result QueryError A :=
  map_err (fun e => Query_Node (Node_State e)) r.

Section queries.
Context `{Externals}.
Implicit Types (db : NodeDb) (a : Archive).

(** [ancestors(tip).nth(n)] *)
Definition ancestors_nth a (tip : BlockHash) (n : nat) : result ArchiveError (option BlockHash) :=
  items ← ancestor_headers_take a (S n) (Some tip);
  Ok (items.*1 !! n).

(** [try_get_block_hash_read] *)
Definition try_get_block_hash db (height : u32) : result QueryError (option BlockHash) :=
  match try_get_tip (nd_state db), try_get_height (nd_state db) with
  | Some tip, Some tip_height =>
      if height <=? tip_height
      then archive_answer (ancestors_nth (nd_archive db) tip (N.to_nat (tip_height - height)))
      else Ok None
  | _, _ => Ok None
  end.

Definition node_get_block_index_events db (block_hash : BlockHash) : result QueryError BlockIndexEvents :=
  height ← archive_answer (archive_get_height (nd_archive db) block_hash);
  at_height ← try_get_block_hash db height;
  _ ← ensure (bool_decide (at_height = Some block_hash)) (Query_NotInCurrentChain block_hash);
  Ok (get_block_index_events (nd_state db) height).

(** The mainchain blocks that commit to a block, verified *)
Definition get_bmm_inclusions a (block_hash : BlockHash) : gset MainBlockHash :=
  dom (filter (fun p : MainBlockHash * BmmResult => p.2 = Bmm_Verified) (get_bmm_results a block_hash)).

(** ** Transactions *)

(** A [BTreeMap] in the order of its keys, and its first entry *)
Definition inclusion_le (x y : BlockHash * u32) : Prop := x.1 <= y.1.
#[export] Instance inclusion_le_dec : RelDecision inclusion_le.
Proof. intros x y. unfold inclusion_le. apply _. Defined.
Definition in_key_order (m : gmap BlockHash u32) : list (BlockHash * u32) :=
  merge_sort inclusion_le (map_to_list m).
Definition first_key_value (m : gmap BlockHash u32) : option (BlockHash * u32) := head (in_key_order m).

Definition try_get_transaction db (txid : Txid) : result QueryError (option Transaction) :=
  match first_key_value (get_tx_inclusions (nd_archive db) txid) with
  | Some (block_hash, txin) =>
      body ← archive_answer (get_body (nd_archive db) block_hash);
      tx ← expect (bd_transactions body !! N.to_nat txin);
      Ok (Some tx)
  | None => Ok (at_transaction <$> mp_transactions (nd_mempool db) !! txid)
  end.

Definition get_authorized_transaction db (txid : Txid) : result QueryError (option AuthorizedTransaction) :=
  match mp_transactions (nd_mempool db) !! txid with
  | Some transaction => Ok (Some transaction)
  | None =>
      match first_key_value (get_tx_inclusions (nd_archive db) txid) with
      | None => Ok None
      | Some (block_hash, index) =>
          body ← archive_answer (get_body (nd_archive db) block_hash);
          transactions ← expect (authorized_transactions body);
          Ok (transactions !! N.to_nat index)
      end
  end.

(** [find] over the inclusions, in the order of their blocks: the first on the current chain *)
Fixpoint find_included db (inclusions : list (BlockHash * u32)) : result ArchiveError (option (BlockHash * u32)) :=
  match inclusions with
  | [] => Ok None
  | (block_hash, idx) :: inclusions =>
      found ← match try_get_tip (nd_state db) with
              | Some tip => is_descendant (nd_archive db) block_hash tip
              | None => Ok true
              end;
      match found with
      | true => Ok (Some (block_hash, idx))
      | false => find_included db inclusions
      end
  end.

(** The filled transaction, its authorizations and its position; no position: it is in the pool. *)
Definition try_get_filled_transaction db (txid : Txid)
  : result QueryError (option (FilledTransaction * list Authorization * option (BlockHash * u32))) :=
  included ← archive_answer (find_included db (in_key_order (get_tx_inclusions (nd_archive db) txid)));
  match included with
  | Some (block_hash, idx) =>
      body ← archive_answer (get_body (nd_archive db) block_hash);
      auth_txs ← expect (authorized_transactions body);
      auth_tx ← expect (auth_txs !! N.to_nat idx);
      filled_tx ← state_answer (fill_transaction_from_stxos (nd_state db) (at_transaction auth_tx));
      Ok (Some (filled_tx, at_authorizations auth_tx, Some (block_hash, idx)))
  | None =>
      match mp_transactions (nd_mempool db) !! txid with
      | None => Ok None
      | Some auth_tx =>
          match fill_authorized_transaction (nd_state db) auth_tx with
          | Ok (filled_tx, authorizations) => Ok (Some (filled_tx, authorizations, None))
          | Err (Error_NoUtxo _) => Ok None
          | Err e => Err (Query_Node (Node_State e))
          | Panic => Panic
          end
      end
  end.

(** ** Sending *)

(** The databases and the table of peers *)
Definition remove_from_mempool db (txid : Txid) : result QueryError NodeDb :=
  mempool ← expect (delete_tx (nd_mempool db) txid);
  Ok (mkNodeDb (nd_state db) (nd_archive db) mempool).
End queries.

Section sending.
Context `{Externals} `{NetExternals}.

(** [broadcast_transaction]: the pool is committed before the peers are told. *)
Definition node_broadcast_transaction (transaction : AuthorizedTransaction)
  : op (NodeDb * Net) QueryError (Txid * N) :=
  fun w =>
    match broadcast_transaction w.1 transaction with
    | Err e => (Err (Query_Node e), w)
    | Panic => (Panic, w)
    | Ok (db, transaction) =>
        match push_tx None ∅ transaction w.2 with
        | (Ok peer_count, n) => (Ok (txid (at_transaction transaction), peer_count), (db, n))
        | (Err address, n) => (Err (Query_SendTransaction address), (db, n))
        | (Panic, n) => (Panic, (db, n))
        end
    end.
Definition rebroadcast_transaction (txid : Txid) : op (NodeDb * Net) QueryError (Txid * N) :=
  fun w =>
    match mp_transactions (nd_mempool w.1) !! txid with
    | None => (Err (Query_MissingTransaction txid), w)
    | Some transaction => node_broadcast_transaction transaction w
    end.
End sending.

(** ** The block at a height *)

Lemma ancestors_nth_Ok a b k n :
  archive_wf a -> archive_try_get_height a b = Some k -> (n <= N.to_nat k)%nat ->
  ancestors_nth a b n = Ok (ancestor_at (ix_parent (side_index a)) n b).
Proof.
  intros Hw Hk Hn. unfold ancestors_nth. rewrite (ancestor_headers_take_Ok a (aw_side _ Hw) (S n) b k Hk) by lia.
  cbn [mbind result_bind]. f_equal. rewrite list_lookup_fmap, list_lookup_fmap, lookup_seq_lt by lia. cbn.
  unfold item_of. cbn. replace (N.to_nat (k - (k - N.of_nat n))) with n by lia.
  destruct (ancestor_at_Some (index_tree _ (aw_side _ Hw)) n b k Hk) as (c & Hc & _); [lia|]. by rewrite Hc.
Qed.

(** The query for a height answers with the block of the current chain that has it, and with nothing
    above the tip. Events are answered for the blocks of the current chain, and for no others. *)
Theorem try_get_block_hash_correct `{Externals} (db : NodeDb) (tip : BlockHash) (k h : u32) (b : BlockHash) :
  archive_wf (nd_archive db) -> try_get_tip (nd_state db) = Some tip -> try_get_height (nd_state db) = Some k ->
  archive_try_get_height (nd_archive db) tip = Some k ->
  (try_get_block_hash db h = Ok (Some b) <->
   ancestor (ix_parent (side_index (nd_archive db))) b tip /\ archive_try_get_height (nd_archive db) b = Some h) /\
  (k < h -> try_get_block_hash db h = Ok None) /\
  (forall events, node_get_block_index_events db b = Ok events ->
   ancestor (ix_parent (side_index (nd_archive db))) b tip).
Proof.
  intros Hw Ht Hh Hk. pose proof (index_tree _ (aw_side _ Hw)) as T.
  assert (forall h b, try_get_block_hash db h = Ok (Some b) <->
    ancestor (ix_parent (side_index (nd_archive db))) b tip /\ archive_try_get_height (nd_archive db) b = Some h) as Hiff.
  { clear h b. intros h b. unfold try_get_block_hash. rewrite Ht, Hh. destruct (N.leb_spec h k) as [Hle|Hgt].
    - rewrite (ancestors_nth_Ok _ tip k _ Hw Hk) by lia. unfold archive_answer. cbn [map_err]. split.
      + intros [= Ha]. destruct (ancestor_at_Some T (N.to_nat (k - h)) tip k Hk) as (c & Hc & Hkc); [lia|].
        rewrite Ha in Hc. injection Hc as <-. split; [by exists (N.to_nat (k - h))|].
        cbn in Hkc. replace (k - N.of_nat (N.to_nat (k - h))) with h in Hkc by lia. exact Hkc.
      + intros [(kb & Hle' & Hkb & Hat)%(ancestor_spec T _ _ k Hk) Hb]. change (archive_try_get_height (nd_archive db) b = Some kb) in Hkb.
        assert (kb = h) as -> by congruence. by rewrite Hat.
    - split; [done|]. intros [(kb & Hle & Hkb & _)%(ancestor_spec T _ _ k Hk) Hb].
      change (archive_try_get_height (nd_archive db) b = Some kb) in Hkb. assert (kb = h) as -> by congruence. lia. }
  split_and!; [apply Hiff| |].
  - intros Hlt. unfold try_get_block_hash. rewrite Ht, Hh. by rewrite (proj2 (N.leb_gt _ _) Hlt).
  - intros events Hev. unfold node_get_block_index_events in Hev. apply bind_Ok in Hev as (kb & _ & Hev).
    apply bind_Ok in Hev as (at_height & Ha & Hev). apply bind_Ok in Hev as ([] & He%ensure_Ok%bool_decide_eq_true & _).
    subst at_height. by apply Hiff in Ha as [? _].
Qed.

(** ** The index of transactions *)

(** Every entry of the index names a transaction of a stored body, and every transaction of a stored
    body has an entry. *)
Record inclusions_ok `{Externals} (a : Archive) : Prop := {
  io_sound t b i : get_tx_inclusions a t !! b = Some i ->
    exists body tx, ar_bodies a !! b = Some body /\ bd_transactions body !! N.to_nat i = Some tx /\ txid tx = t;
  io_complete b body tx : ar_bodies a !! b = Some body -> tx ∈ bd_transactions body ->
    is_Some (get_tx_inclusions a (txid tx) !! b);
}.

Section index.
Context `{Externals}.
Implicit Types (a : Archive) (b : BlockHash).

Lemma put_inclusion_lookup b a i tx t c :
  get_tx_inclusions (put_inclusion b a (i, tx)) t !! c =
  if decide (txid tx = t /\ b = c) then Some i else get_tx_inclusions a t !! c.
Proof.
  unfold put_inclusion, get_tx_inclusions. cbn [fst snd ar_txid_to_inclusions put_inclusions].
  destruct (decide (txid tx = t)) as [<-|Hne].
  - rewrite lookup_insert_eq. cbn [from_option id]. destruct (decide (b = c)) as [<-|Hbc].
    + by rewrite lookup_insert_eq, decide_True.
    + rewrite lookup_insert_ne by done. rewrite decide_False; [done|]. by intros [_ ?].
  - rewrite lookup_insert_ne by done. rewrite decide_False; [done|]. by intros [? _].
Qed.

Lemma put_inclusions_lookup b l : forall a t c,
  get_tx_inclusions (foldl (put_inclusion b) a l) t !! c =
  if decide (b = c) then
    match last (List.filter (fun p => txid p.2 =? t) l) with
    | Some p => Some p.1
    | None => get_tx_inclusions a t !! c
    end
  else get_tx_inclusions a t !! c.
Proof.
  induction l as [|[i tx] l IH] using rev_ind; intros a t c; [by destruct (decide _)|].
  rewrite foldl_app. cbn [foldl]. rewrite put_inclusion_lookup, IH, List.filter_app. cbn [List.filter snd].
  destruct (N.eqb_spec (txid tx) t) as [<-|Hne]; destruct (decide (b = c)) as [<-|Hbc].
  - rewrite decide_True by done. by rewrite last_snoc.
  - rewrite decide_False; [done|]. by intros [_ ?].
  - rewrite decide_False by (by intros [? _]). by rewrite app_nil_r.
  - rewrite decide_False; [done|]. by intros [? _].
Qed.

Lemma enumerate_elem {A} (l : list A) i x :
  N.of_nat (length l) <= 2 ^ 32 -> (i, x) ∈ enumerate l -> l !! N.to_nat i = Some x.
Proof.
  intros Hl Hin. unfold enumerate in Hin. apply elem_of_lookup_imap in Hin as (j & y & [= -> <-] & Hj).
  pose proof (lookup_lt_Some _ _ _ Hj). rewrite N.mod_small by lia. by rewrite Nat2N.id.
Qed.

Lemma body_stored_inclusions a b body :
  ar_bodies a !! b = None -> N.of_nat (length (bd_transactions body)) <= 2 ^ 32 ->
  inclusions_ok a -> inclusions_ok (body_stored a b body).
Proof.
  intros Hnone Hlen [Hs Hc].
  assert (ar_bodies (body_stored a b body) = <[b := body]> (ar_bodies a)) as Hb
    by (by destruct (body_stored_frame a b body) as [f ->]).
  split.
  - intros t c i Hi. unfold body_stored in Hi. rewrite put_inclusions_lookup in Hi. rewrite Hb.
    destruct (decide (b = c)) as [<-|Hbc].
    + rewrite lookup_insert_eq. destruct (last _) as [p|] eqn:Hlast.
      * injection Hi as <-. apply last_Some_elem_of, list_elem_of_In, List.filter_In in Hlast as [Hin Ht].
        destruct p as [i tx]. apply list_elem_of_In in Hin. exists body, tx. split_and!; [done| |by apply N.eqb_eq].
        by apply enumerate_elem.
      * destruct (Hs t b i Hi) as (body' & ? & Hb' & _). congruence.
    + rewrite lookup_insert_ne by done. by apply Hs.
  - intros c body' tx Hbody Hin. unfold body_stored. rewrite put_inclusions_lookup. rewrite Hb in Hbody.
    destruct (decide (b = c)) as [<-|Hbc].
    + rewrite lookup_insert_eq in Hbody. injection Hbody as <-.
      destruct (last _) as [p|] eqn:Hlast; [by eexists|exfalso]. apply last_None in Hlast.
      apply list_elem_of_lookup in Hin as [j Hj]. assert ((N.of_nat j mod 2 ^ 32, tx) ∈ enumerate (bd_transactions body)) as He.
      { unfold enumerate. apply elem_of_lookup_imap. by exists j, tx. }
      apply list_elem_of_In in He. assert (In (N.of_nat j mod 2 ^ 32, tx) []) as []. rewrite <-Hlast.
      apply List.filter_In. split; [done|]. apply N.eqb_refl.
    + rewrite lookup_insert_ne in Hbody by done. by eapply Hc.
Qed.

Lemma delete_inclusion_lookup b a tx t c :
  get_tx_inclusions (delete_inclusion b a tx) t !! c =
  if decide (txid tx = t /\ b = c) then None else get_tx_inclusions a t !! c.
Proof.
  unfold delete_inclusion. set (m := delete b (get_tx_inclusions a (txid tx))).
  assert (default ∅ (ar_txid_to_inclusions
    (if decide (m = ∅) then put_inclusions (delete (txid tx)) a else put_inclusions <[txid tx := m]> a) !! t) =
    if decide (txid tx = t) then m else get_tx_inclusions a t) as Hd.
  { unfold get_tx_inclusions. destruct (decide (m = ∅)) as [->|Hm]; cbn [ar_txid_to_inclusions put_inclusions];
      destruct (decide (txid tx = t)) as [<-|Hne].
    - by rewrite lookup_delete_eq.
    - by rewrite lookup_delete_ne.
    - by rewrite lookup_insert_eq.
    - by rewrite lookup_insert_ne. }
  unfold get_tx_inclusions at 1. rewrite Hd. destruct (decide (txid tx = t)) as [<-|Hne].
  - unfold m. destruct (decide (b = c)) as [<-|Hbc].
    + by rewrite lookup_delete_eq, decide_True.
    + rewrite lookup_delete_ne by done. rewrite decide_False; [done|]. by intros [_ ?].
  - rewrite decide_False; [done|]. by intros [? _].
Qed.
Lemma delete_inclusions_lookup b l : forall a t c,
  get_tx_inclusions (foldl (delete_inclusion b) a l) t !! c =
  if decide (b = c /\ t ∈ txid <$> l) then None else get_tx_inclusions a t !! c.
Proof.
  induction l as [|tx l IH]; intros a t c.
  { rewrite decide_False; [done|]. by intros [_ ?%not_elem_of_nil]. }
  cbn [foldl]. rewrite IH, delete_inclusion_lookup. cbn [fmap list_fmap].
  destruct (decide (b = c /\ t ∈ txid <$> l)) as [[<- Hin]|Hn].
  - rewrite decide_True; [done|]. split; [done|]. by apply list_elem_of_further.
  - destruct (decide (txid tx = t /\ b = c)) as [[<- <-]|Hn'].
    + rewrite decide_True; [done|]. split; [done|]. apply list_elem_of_here.
    + rewrite decide_False; [done|]. intros [<- [->|Hin]%elem_of_cons]; [by apply Hn'|by apply Hn].
Qed.

Lemma body_removed_inclusions a b body :
  ar_bodies a !! b = Some body -> inclusions_ok a ->
  inclusions_ok (foldl (delete_inclusion b) (put_bodies (delete b) a) (bd_transactions body)).
Proof.
  intros Hbody [Hs Hc].
  assert (ar_bodies (foldl (delete_inclusion b) (put_bodies (delete b) a) (bd_transactions body)) =
    delete b (ar_bodies a)) as Hb
    by (by destruct (delete_inclusion_frame b (bd_transactions body) (put_bodies (delete b) a)) as [f ->]).
  split.
  - intros t c i. rewrite delete_inclusions_lookup, Hb. destruct (decide _) as [|Hn]; [done|]. intros Hi.
    destruct (Hs t c i Hi) as (body' & tx & Hb' & Htx & Ht). exists body', tx. split_and!; [|done|done].
    rewrite lookup_delete_ne; [done|]. intros <-. rewrite Hbody in Hb'. injection Hb' as <-. apply Hn.
    split; [done|]. apply list_elem_of_fmap. exists tx. split; [done|]. by eapply list_elem_of_lookup_2.
  - intros c body' tx. rewrite Hb, delete_inclusions_lookup. destruct (decide (b = c)) as [<-|Hbc].
    { by rewrite lookup_delete_eq. }
    rewrite lookup_delete_ne by done. intros Hb' Hin. rewrite decide_False by (by intros [? _]). by eapply Hc.
Qed.
End index.

Lemma disconnect_tips_same fuel : forall q a a', disconnect_tips_loop fuel q a = Ok a' -> same_archive a a'.
Proof.
  induction fuel as [|fuel IH]; intros [|b q] a a' Hl; cbn [disconnect_tips_loop] in Hl;
    try done; try (by injection Hl as <-).
  destruct (_ !! b) as [i|]; [|by eapply IH]. apply bind_Ok in Hl as (s & _ & Hl).
  apply IH in Hl. etransitivity; [|exact Hl]. by eexists.
Qed.

(** The index of transactions stays exact when a body is stored for a block that has none, and when a
    stored body is deleted. *)
Theorem transaction_index_kept `{Externals} (a a' : Archive) (b : BlockHash) (body : Body) :
  inclusions_ok a ->
  (ar_bodies a !! b = None -> N.of_nat (length (bd_transactions body)) <= 2 ^ 32 ->
   put_body a b body = Ok a' -> inclusions_ok a') /\
  (ar_bodies a !! b = Some body -> delete_body a b body = Ok a' -> inclusions_ok a').
Proof.
  intros Hok. split.
  - intros Hn Hl [t ->]%put_body_same. pose proof (body_stored_inclusions a b body Hn Hl Hok) as [Hs Hc]. by split.
  - intros Hb Hd. unfold delete_body in Hd. apply disconnect_tips_same in Hd as [t ->].
    pose proof (body_removed_inclusions a b body Hb Hok) as [Hs Hc]. by split.
Qed.

Section lookup.
Context `{Externals}.

Lemma in_key_order_elem m p : p ∈ in_key_order m <-> m !! p.1 = Some p.2.
Proof.
  unfold in_key_order. rewrite merge_sort_Permutation. destruct p as [b i]. by rewrite elem_of_map_to_list.
Qed.
Lemma first_key_value_Some m b i : first_key_value m = Some (b, i) -> m !! b = Some i.
Proof.
  unfold first_key_value. intros Hh. apply (in_key_order_elem m (b, i)). by apply head_Some_elem_of.
Qed.
Lemma first_key_value_None m : first_key_value m = None -> m = ∅.
Proof.
  unfold first_key_value. intros Hh%head_None. apply map_eq. intros b. rewrite lookup_empty.
  destruct (m !! b) as [i|] eqn:Hb; [|done]. apply (in_key_order_elem m (b, i)) in Hb. rewrite Hh in Hb.
  by apply not_elem_of_nil in Hb.
Qed.
End lookup.

(** With an exact index, looking a transaction up by its id never fails: the answer is a transaction
    with that id, and there is none only when no stored body and not the pool has one. *)
Theorem try_get_transaction_correct `{Externals} (db : NodeDb) (t : Txid) :
  inclusions_ok (nd_archive db) -> pool_wf (nd_mempool db) ->
  exists r, try_get_transaction db t = Ok r /\
    match r with
    | Some tx => txid tx = t
    | None => mp_transactions (nd_mempool db) !! t = None /\
        forall b body tx, ar_bodies (nd_archive db) !! b = Some body -> tx ∈ bd_transactions body -> txid tx <> t
    end.
Proof.
  intros [Hs Hc] Hp. unfold try_get_transaction.
  destruct (first_key_value (get_tx_inclusions (nd_archive db) t)) as [[b i]|] eqn:Hf.
  - apply first_key_value_Some in Hf. destruct (Hs t b i Hf) as (body & tx & Hb & Htx & Ht).
    unfold get_body. rewrite Hb. cbn [ok_or archive_answer map_err mbind result_bind].
    rewrite Htx. cbn [expect mbind result_bind]. by exists (Some tx).
  - apply first_key_value_None in Hf. eexists. split; [done|].
    destruct (mp_transactions (nd_mempool db) !! t) as [atx|] eqn:Hm; cbn; [by apply (pw_txid _ Hp)|].
    split; [done|]. intros b body tx Hb Hin <-. destruct (Hc b body tx Hb Hin) as [i Hi].
    by rewrite Hf, lookup_empty in Hi.
Qed.

(** A second body for a block leaves the entries of the first in the index: when the second one is
    shorter, looking up a transaction of the first panics. *)
Theorem second_body_lookup_panics `{Externals} (db : NodeDb) (a' : Archive) (b : BlockHash) (body : Body) (t : Txid) (i : u32) :
  get_tx_inclusions (nd_archive db) t = {[b := i]} ->
  (length (bd_transactions body) <= N.to_nat i)%nat -> t ∉ txid <$> bd_transactions body ->
  put_body (nd_archive db) b body = Ok a' ->
  try_get_transaction (mkNodeDb (nd_state db) a' (nd_mempool db)) t = Panic.
Proof.
  intros Hi Hlen Hn Hp. unfold try_get_transaction. cbn [nd_archive].
  assert (get_tx_inclusions a' t = {[b := i]}) as ->.
  { apply put_body_same in Hp as [s ->]. rewrite <-Hi. apply map_eq. intros c. 
    change (get_tx_inclusions (body_stored (nd_archive db) b body) t !! c = get_tx_inclusions (nd_archive db) t !! c).
    unfold body_stored. rewrite put_inclusions_lookup. destruct (decide (b = c)) as [<-|]; [|done].
    destruct (last _) as [[j tx]|] eqn:Hl; [exfalso|done].
    apply last_Some_elem_of, list_elem_of_In, List.filter_In in Hl as [Hin Ht%N.eqb_eq]. cbn in Ht.
    apply Hn. apply list_elem_of_fmap. exists tx. split; [done|]. apply list_elem_of_In in Hin.
    unfold enumerate in Hin. apply elem_of_lookup_imap in Hin as (n & y & [= _ <-] & Hy). by eapply list_elem_of_lookup_2. }
  assert (first_key_value {[b := i]} = Some (b, i)) as ->.
  { unfold first_key_value, in_key_order. by rewrite map_to_list_singleton. }
  pose proof (put_body_stored _ _ _ _ Hp) as Hb. unfold get_body. rewrite Hb, lookup_insert_eq.
  cbn. by rewrite (lookup_ge_None_2 _ _ Hlen).
Qed.

Lemma push_tx_complete_open `{NetExternals} target exclude tx n c n' addr :
  iter_spec -> push_tx target exclude tx n = (Ok c, n') -> addr ∉ closed_peers target exclude n.
Proof.
  intros [Hm _] Hp (h & Hh & Hs & Ho)%elem_of_closed_peers. unfold push_tx in Hp.
  assert ((addr, h) ∈ map_iter (net_active_peers n)) as Hin.
  { rewrite (Hm _ _ _ _ (net_active_peers n)). by apply elem_of_map_to_list. }
  assert (forall l c0 n0, push_tx_loop target exclude tx l c0 n0 = (Ok c, n') -> (addr, h) ∈ l -> False) as Hl;
    [|by eapply Hl].
  clear Hp Hin. intros l. induction l as [|[address peer] l IH]; intros c0 n0 Hp Hin; [by apply not_elem_of_nil in Hin|].
  cbn [push_tx_loop] in Hp. apply elem_of_cons in Hin as [[= -> ->]|Hin].
  - by rewrite Hs, Ho in Hp.
  - destruct (push_skips target exclude address peer); [by eapply IH|]. destruct (ch_open peer); [|done].
    unfold mbind, op_bind, writing in Hp. by eapply IH.
Qed.

(** A connection that has ended makes sending a transaction fail after the transaction is in the pool:
    the caller is told of an error, and whether the other peers are told depends on the order of
    the table. *)
Theorem broadcast_fails_after_store `{Externals} `{NetExternals} (db : NodeDb) (n : Net) (tx : AuthorizedTransaction)
    (m : MemPool) (f : _) :
  iter_spec -> validate_transaction (nd_state db) tx = Ok f ->
  mp_transactions (nd_mempool db) !! txid (at_transaction tx) = None -> put (nd_mempool db) tx = Ok m ->
  closed_peers None ∅ n <> ∅ ->
  exists addr n', node_broadcast_transaction tx (db, n) =
    (Err (Query_SendTransaction addr), (mkNodeDb (nd_state db) (nd_archive db) m, n')) /\
    mp_transactions m !! txid (at_transaction tx) = Some tx.
Proof.
  intros Hiter Hv Hn Hp Hc. unfold node_broadcast_transaction, broadcast_transaction. cbn [fst snd].
  rewrite Hv. cbn [map_err mbind result_bind]. rewrite Hn, Hp. cbn [map_err mbind result_bind].
  destruct (push_tx_spec None tx ∅ n Hiter) as (r & n' & Hr & Hres & Hd). rewrite Hr.
  destruct r as [c|addr|]; [|exists addr, n'; split; [done|]|done].
  - exfalso. apply Hc. apply leibniz_equiv. intros addr. split; [|by intros ?%not_elem_of_empty].
    intros Hin. exfalso. eapply push_tx_complete_open; [exact Hiter|exact Hr|exact Hin].
  - unfold put in Hp. res_inv. apply lookup_insert_eq.
Qed.
