(* ===== verification/PeerBodies.v ===== *)
(** * Tips that are ready

    What is known of a tip when the task of a connection reports it as ready: its header and the
    bodies of its branch are stored, and it is verified on the node's mainchain. *)

From S2P Require Import Prelude Types Transaction Authorization State Merkle SideTips Lineage.
From S2P Require Import Archive ArchiveTree ArchiveWf ArchiveBodies ArchiveQueries ArchiveIter.
From S2P Require Import BetterTip NodeTask PeerMessage PeerTask.

(** ** The choice between tips

    The comparison of [check_peer_tip_and_request_headers] is the one of [Archive::better_tip] as
    long as the peer tells the truth about its tip. *)

Lemma option_compare_antisym (x y : option N) : option_compare x y = CompOpp (option_compare y x).
Proof. destruct x, y; cbn; try done. apply N.compare_antisym. Qed.

(** What is announced of a tip is what the archive has. *)
Record announced (a : Archive) (tip_info : TipInfo) : Prop := {
  an_height : archive_try_get_height a (tip_block_hash (ti_tip tip_info)) = Some (ti_block_height tip_info);
  an_work : ar_total_work a !! tip_main_block_hash (ti_tip tip_info) = Some (ti_total_work tip_info);
}.

(** The answer to a peer whose headers are at hand, from the node's own choice *)
Definition peer_is_better (peer_tip : Tip) (better : option Tip) : option bool :=
  if decide (better = Some peer_tip) then Some true else None.

Section tip.
Context `{Externals} `{NetExternals}.
Context (a : Archive) (tip_info peer_tip_info : TipInfo) (psid : PeerStateId).
Context (Htip : announced a tip_info) (Hpeer : announced a peer_tip_info).
Context (Hheader : is_Some (ar_headers a !! tip_block_hash (ti_tip peer_tip_info))).
Implicit Types (c : PeerConn).

Lemma request_headers_known own c :
  request_headers a own peer_tip_info psid c = (Ok true, c).
Proof. unfold request_headers. destruct Hheader as [h Hh]. by rewrite Hh. Qed.

Lemma request_headers_bind {B} own (k : bool -> op PeerConn TaskError B) c :
  (request_headers a own peer_tip_info psid ≫= k) c = k true c.
Proof. unfold mbind, op_bind. by rewrite request_headers_known. Qed.

Lemma peer_is_better_own :
  ti_tip tip_info <> ti_tip peer_tip_info ->
  peer_is_better (ti_tip peer_tip_info) (Some (ti_tip tip_info)) = None.
Proof. intros Hne. unfold peer_is_better. rewrite decide_False; [done|]. congruence. Qed.
Lemma peer_is_better_peer : peer_is_better (ti_tip peer_tip_info) (Some (ti_tip peer_tip_info)) = Some true.
Proof. unfold peer_is_better. by rewrite decide_True. Qed.

(** At equal work and height *)
Lemma peer_tie_better :
  tip_block_hash (ti_tip tip_info) <> tip_block_hash (ti_tip peer_tip_info) ->
  (better ← better_tip_tie a (ti_tip tip_info) (ti_tip peer_tip_info)
     (ti_block_height tip_info) (ti_block_height peer_tip_info);
   Ok (peer_is_better (ti_tip peer_tip_info) better) : result ArchiveError (option bool)) =
  (better ← peer_tie a tip_info peer_tip_info;
   Ok (if better : bool then Some true else None) : result ArchiveError (option bool)).
Proof.
  intros Hne. assert (ti_tip tip_info <> ti_tip peer_tip_info) as Hne' by congruence.
  unfold better_tip_tie, peer_tie. rewrite (proj2 (N.eqb_neq _ _) Hne).
  rewrite (an_height _ _ Htip), (an_height _ _ Hpeer). cbn [default from_option id].
  destruct (last_common_main_ancestor _ _ _) as [m| |]; cbn [mbind result_bind]; [|done..].
  destruct (get_main_height a m) as [k| |]; cbn [mbind result_bind]; [|done..].
  destruct (find_ancestor a _ (tip_block_hash (ti_tip tip_info)) _) as [f0| |]; cbn [mbind result_bind]; [|done..].
  destruct (find_ancestor a _ (tip_block_hash (ti_tip peer_tip_info)) _) as [f1| |]; cbn [mbind result_bind]; [|done..].
  f_equal. destruct (option_compare (snd <$> f0) _), (option_compare (fst <$> f0) _);
    auto using peer_is_better_own, peer_is_better_peer.
Qed.
End tip.

(** A result of an operation that changes nothing *)
Lemma op_lifted_bind {S E A B} (r : result E A) (k : A -> op S E B) (w : S) :
  (lifted r ≫= k) w = match r with Ok x => k x w | Err e => (Err e, w) | Panic => (Panic, w) end.
Proof. by destruct r. Qed.

(** The two sides of a branch, once its queries have been read *)
Ltac tip_answer Hreq :=
  cbn [CompOpp mbind result_bind map_err];
  rewrite ?Hreq, ?peer_is_better_peer, ?peer_is_better_own by done; done.

(** When a peer announces the height and the work that its tip has, the header of the tip is known,
    its mainchain block is on the node's mainchain and both tips are above the first block, the
    connection takes the peer's tip to be better exactly when the archive prefers it to the
    node's tip, fails as the archive does, and requests nothing. *)
Theorem check_peer_tip_is_better_tip `{Externals} `{NetExternals} (a : Archive)
    (tip_info peer_tip_info : TipInfo) (psid : PeerStateId) (c : PeerConn) :
  announced a tip_info -> announced a peer_tip_info ->
  ti_block_height tip_info <> 0 -> ti_block_height peer_tip_info <> 0 ->
  is_Some (ar_headers a !! tip_block_hash (ti_tip peer_tip_info)) ->
  peer_tip_on_mainchain a peer_tip_info = Ok true ->
  check_peer_tip_and_request_headers a (Some tip_info) peer_tip_info psid c =
    (map_err Task_Archive
       (better ← better_tip a (ti_tip tip_info) (ti_tip peer_tip_info);
        Ok (peer_is_better (ti_tip peer_tip_info) better) : result ArchiveError (option bool)), c).
Proof.
  intros Htip Hpeer Hz Hz' Hh Hm. unfold check_peer_tip_and_request_headers, better_tip. rewrite Hm.
  rewrite op_lifted_bind. cbn [map_err].
  assert (forall own c, (available ← request_headers a own peer_tip_info psid; mret (Some available)) c =
    (Ok (Some true), c)) as Hreq.
  { intros own c'. by rewrite request_headers_bind. }
  destruct (decide (ti_tip tip_info = ti_tip peer_tip_info)) as [Heq|Hne].
  { pose proof (an_height _ _ Htip) as H1. rewrite Heq, (an_height _ _ Hpeer) in H1. injection H1 as H1.
    pose proof (an_work _ _ Htip) as H2. rewrite Heq, (an_work _ _ Hpeer) in H2. injection H2 as H2.
    rewrite H1, H2, !N.compare_refl, Heq, N.eqb_refl. unfold peer_is_better. cbn. by rewrite decide_False. }
  unfold archive_get_height, get_total_work.
  rewrite (an_height _ _ Htip), (an_height _ _ Hpeer), (an_work _ _ Htip), (an_work _ _ Hpeer).
  cbn [ok_or mbind result_bind].
  rewrite (proj2 (N.eqb_neq _ _) Hz), (proj2 (N.eqb_neq _ _) Hz'). cbn [andb].
  destruct (N.compare_spec (ti_total_work tip_info) (ti_total_work peer_tip_info)) as [Hw|Hw|Hw],
    (N.compare_spec (ti_block_height tip_info) (ti_block_height peer_tip_info)) as [Hb|Hb|Hb];
    try solve [tip_answer Hreq].
  - destruct (N.eqb_spec (tip_block_hash (ti_tip peer_tip_info)) (tip_block_hash (ti_tip tip_info))) as [He|Hn].
    + unfold better_tip_tie. rewrite He, N.eqb_refl. cbn [mbind result_bind map_err].
      by rewrite peer_is_better_own.
    + rewrite peer_tie_better by congruence. rewrite request_headers_bind, op_lifted_bind by done.
      by destruct (peer_tie a tip_info peer_tip_info) as [[]| |].
  - rewrite op_lifted_bind. destruct (shared_mainchain_lineage _ _ _) as [[]| |]; tip_answer Hreq.
  - rewrite op_lifted_bind. cbn [default from_option id].
    destruct (last_common_main_ancestor _ _ _) as [m| |]; cbn [mbind result_bind map_err]; [|done..].
    destruct (find_ancestor _ _ _ _) as [f| |]; cbn [mbind result_bind map_err]; [|done..].
    unfold option_leb. rewrite option_compare_antisym.
    destruct (option_compare f _); tip_answer Hreq.
  - rewrite op_lifted_bind. destruct (shared_mainchain_lineage _ _ _) as [[]| |]; tip_answer Hreq.
  - rewrite request_headers_bind, op_lifted_bind by done. cbn [default from_option id].
    destruct (last_common_main_ancestor _ _ _) as [m| |]; cbn [mbind result_bind map_err]; [|done..].
    destruct (find_ancestor _ _ _ _) as [f| |]; cbn [mbind result_bind map_err]; [|done..].
    unfold option_leb. rewrite option_compare_antisym.
    destruct (option_compare f _); tip_answer Hreq.
Qed.

(** ** Missing bodies *)

(** The first element that a filter keeps *)
Lemma filter_head {A} (f : A -> bool) l x r :
  List.filter f l = x :: r ->
  exists i, l !! i = Some x /\ f x = true /\ forall j y, (j < i)%nat -> l !! j = Some y -> f y = false.
Proof.
  induction l as [|y l IH]; [done|]. cbn. destruct (f y) eqn:Hy.
  - intros [= -> _]. exists 0%nat. split_and!; [done|done|lia].
  - intros (i & Hi & Hx & Hlt)%IH. exists (S i). split_and!; [done|done|].
    intros [|j] z Hj Hz; [by injection Hz as <-|]. apply (Hlt j); [lia|done].
Qed.
Lemma filter_empty {A} (f : A -> bool) l i x : List.filter f l = [] -> l !! i = Some x -> f x = false.
Proof.
  revert i. induction l as [|y l IH]; intros i; [done|]. cbn. destruct (f y) eqn:Hy; [done|].
  intros Hf. destruct i; [by intros [= <-]|]. by apply IH.
Qed.

Lemma missing_body_false a b : missing_body a b = false <-> is_Some (ar_bodies a !! b).
Proof.
  unfold missing_body, contains_body. rewrite negb_false_iff. apply bool_decide_eq_true.
Qed.

Section missing.
Context (a : Archive) (Hw : index_wf (side_index a)).
Let par := ix_parent (side_index a).
Context (b : BlockHash) (k s : u32) (Hb : archive_try_get_height a b = Some k) (Hs : s <= k + 1).

(** The blocks of a branch at the heights from [s] on *)
Let branch : list BlockHash := (items_from (item_of a b k) s (N.to_nat (k + 1 - s))).*1.

Lemma iter_missing_bodies_eq : iter_missing_bodies a b s = Ok (List.filter (missing_body a) branch).
Proof. unfold iter_missing_bodies. by rewrite (ancestors_rev_Ok a Hw b k s Hb Hs). Qed.

Lemma branch_lookup i c :
  branch !! i = Some c <->
  s + N.of_nat i <= k /\ archive_try_get_height a c = Some (s + N.of_nat i) /\ ancestor par c b.
Proof.
  unfold branch, items_from. rewrite <-list_fmap_compose, list_lookup_fmap_Some.
  setoid_rewrite lookup_seq. pose proof (index_tree _ Hw) as T. split.
  - intros (j & -> & -> & Hi). cbn [Nat.add compose]. unfold item_of. cbn [fst].
    destruct (ancestor_at_Some T (N.to_nat (k - (s + N.of_nat i))) b k Hb) as (c & Hc & Hk); [lia|].
    unfold par. rewrite Hc. cbn. split_and!; [lia| |by eexists].
    unfold ix_height in Hk. cbn in Hk. unfold archive_try_get_height. rewrite Hk. f_equal. lia.
  - intros (Hle & Hk & Hanc). exists i. split_and!; [|done|lia]. cbn [compose]. unfold item_of. cbn [fst].
    apply (ancestor_spec T _ _ k Hb) in Hanc as (kc & Hkc & Hc & Ha). unfold ix_height in Hc. cbn in Hc.
    unfold archive_try_get_height in Hk. rewrite Hk in Hc. injection Hc as <-. unfold par in Ha. by rewrite Ha.
Qed.

(** The bodies that are missing *)
Lemma missing_elem l c :
  iter_missing_bodies a b s = Ok l ->
  c ∈ l <-> ancestor par c b /\ (exists kc, archive_try_get_height a c = Some kc /\ s <= kc) /\ ar_bodies a !! c = None.
Proof.
  rewrite iter_missing_bodies_eq. intros [= <-]. rewrite list_elem_of_In, List.filter_In, <-list_elem_of_In, list_elem_of_lookup.
  assert (missing_body a c = true <-> ar_bodies a !! c = None) as ->.
  { rewrite eq_None_not_Some, <-missing_body_false. by destruct (missing_body a c). }
  setoid_rewrite branch_lookup. split.
  - intros [(i & Hle & Hk & Hanc) Hm]. split_and!; [done| |done]. exists (s + N.of_nat i). split; [done|lia].
  - intros (Hanc & (kc & Hk & Hle) & Hm). split; [|done]. exists (N.to_nat (kc - s)).
    replace (s + N.of_nat (N.to_nat (kc - s))) with kc by lia. split_and!; [|done|done].
    exact (ancestor_le (index_tree _ Hw) c b kc k Hk Hb Hanc).
Qed.

(** No body is missing *)
Lemma no_missing_bodies c kc :
  iter_missing_bodies a b s = Ok [] -> ancestor par c b -> archive_try_get_height a c = Some kc -> s <= kc ->
  is_Some (ar_bodies a !! c).
Proof.
  rewrite iter_missing_bodies_eq. intros [= Hf] Hanc Hk Hle. apply missing_body_false.
  assert (kc <= k) as Hkc by exact (ancestor_le (index_tree _ Hw) c b kc k Hk Hb Hanc).
  apply (filter_empty _ branch (N.to_nat (kc - s)) c Hf), branch_lookup.
  replace (s + N.of_nat (N.to_nat (kc - s))) with kc by lia. done.
Qed.

(** The earliest missing body *)
Lemma earliest_missing_body c rest :
  iter_missing_bodies a b s = Ok (c :: rest) ->
  exists kc, s <= kc /\ archive_try_get_height a c = Some kc /\ ancestor par c b /\ ar_bodies a !! c = None /\
    forall c' kc', ancestor par c' b -> archive_try_get_height a c' = Some kc' -> s <= kc' -> kc' < kc ->
      is_Some (ar_bodies a !! c').
Proof.
  rewrite iter_missing_bodies_eq. intros [= (i & Hi & Hm & Hlt)%filter_head].
  pose proof Hi as (Hle & Hk & Hanc)%branch_lookup. exists (s + N.of_nat i).
  split_and!; [lia|done|done| |].
  - apply eq_None_not_Some. intros Hs'%missing_body_false. congruence.
  - intros c' kc' Hanc' Hk' Hs' Hlt'. apply missing_body_false, (Hlt (N.to_nat (kc' - s))); [lia|].
    apply branch_lookup. replace (s + N.of_nat (N.to_nat (kc' - s))) with kc' by lia.
    split_and!; [lia|done|done].
Qed.
End missing.

(** ** Tips *)

(** Every block of the branch of [b] that is not on the branch of [own] has its body. *)
Definition bodies_available (a : Archive) (own : option BlockHash) (b : BlockHash) : Prop :=
  forall c, ancestor (ix_parent (side_index a)) c b ->
    (forall t, own = Some t -> ~ ancestor (ix_parent (side_index a)) c t) ->
    is_Some (ar_bodies a !! c).

Record tip_available (a : Archive) (own : option BlockHash) (tip : Tip) : Prop := {
  ta_header : is_Some (ar_headers a !! tip_block_hash tip);
  ta_verified : try_get_bmm_result a (tip_block_hash tip) (tip_main_block_hash tip) = Some Bmm_Verified;
  ta_mainchain : exists main_tip, mct_tip_info (sd_mainchain_tip (ar_side_tips a)) = Some main_tip /\
    ancestor (ix_parent (main_index a)) (tip_main_block_hash tip) (bhi_block_hash main_tip);
  ta_bodies : bodies_available a own (tip_block_hash tip);
}.

Section available.
Context (a : Archive) (Hw : archive_wf a).
Let par := ix_parent (side_index a).

(** The blocks above the common ancestor are those that are not on the other branch. *)
Lemma bodies_available_from own b k s :
  archive_try_get_height a b = Some k -> s <= k + 1 ->
  match own with
  | Some t => exists r, match r with
      | Some c => last_common par t b c /\ exists kc, archive_try_get_height a c = Some kc /\ s <= kc + 1
      | None => s = 0
      end
  | None => s = 0
  end ->
  iter_missing_bodies a b s = Ok [] -> bodies_available a own b.
Proof.
  intros Hb Hs Hown Hm c Hanc Hnot. pose proof (index_tree _ (aw_side _ Hw)) as T.
  pose proof Hanc as (kc & _ & Hkc & _)%(ancestor_spec T _ _ k Hb).
  apply (no_missing_bodies a (aw_side _ Hw) b k s Hb Hs c kc Hm Hanc Hkc).
  destruct own as [t|]; [|lia]. destruct Hown as [[c0|] Hr]; [|lia].
  destruct Hr as ([Hl Hrr Hlast] & kc0 & Hkc0 & Hle). destruct (decide (kc <= kc0)) as [Hge|]; [|lia].
  exfalso. apply (Hnot t eq_refl). eapply ancestor_trans; [|exact Hl].
  by apply (ancestor_below T c0 c b k kc0 kc Hb Hkc0 Hkc Hge).
Qed.

(** The heights that [last_common_ancestor] has read *)
Lemma last_common_heights b0 b1 r :
  last_common_ancestor a b0 b1 = Ok r ->
  exists k0 k1, archive_try_get_height a b0 = Some k0 /\ archive_try_get_height a b1 = Some k1.
Proof.
  unfold last_common_ancestor, equalize. intros (x & Hx & _)%bind_Ok.
  apply bind_Ok in Hx as (k0 & Hk0%ok_or_Ok & Hx). apply bind_Ok in Hx as (k1 & Hk1%ok_or_Ok & _). eauto.
Qed.

Lemma bodies_to_request_none (own : option TipInfo) peer_tip anc :
  (forall t k, own = Some t -> archive_try_get_height a (tip_block_hash (ti_tip t)) = Some k -> k < 2 ^ 31) ->
  is_Some (ar_headers a !! tip_block_hash peer_tip) ->
  bodies_to_request a own peer_tip = Ok (anc, []) ->
  bodies_available a ((fun t => tip_block_hash (ti_tip t)) <$> own) (tip_block_hash peer_tip).
Proof.
  intros Hmax Hh Hr. unfold bodies_to_request in Hr.
  apply bind_Ok in Hr as (anc' & Hanc & Hr). apply bind_Ok in Hr as (s & Hs & Hr).
  apply bind_Ok in Hr as (l & Hl & [= -> Hnil]).
  assert (l = []) as -> by (by destruct l). clear Hnil. pose proof (aw_side _ Hw) as Hi.
  destruct (iw_dom _ Hi (tip_block_hash peer_tip)) as [[k Hk] _].
  { cbn. rewrite lookup_fmap. destruct Hh as [h ->]. by eexists. }
  cbn in Hk. pose proof (index_tree _ Hi) as T. destruct own as [t|].
  - destruct (last_common_heights _ _ _ Hanc) as (k0 & k1 & Hk0 & Hk1).
    destruct (last_common_ancestor_Ok a _ _ k0 k1 Hi Hk0 Hk1) as (r & Hr & Hlast).
    { specialize (Hmax t k0 eq_refl Hk0). lia. }
    rewrite Hanc in Hr. injection Hr as <-. destruct anc as [c|].
    + apply ok_or_Ok in Hs. assert (s <= k) as Hle.
      { eapply (ancestor_le T c); [exact Hs|exact Hk|apply Hlast]. }
      apply (bodies_available_from _ _ k s); [done|lia| |done]. exists (Some c). split; [done|].
      exists s. split; [done|lia].
    + injection Hs as <-. apply (bodies_available_from _ _ k 0); [done|lia| |done]. by exists None.
  - injection Hanc as <-. injection Hs as <-. by apply (bodies_available_from _ _ k 0); [|lia| |].
Qed.
End available.

(** ** What the task reports *)

Section report.
Context `{Externals} `{NetExternals}.
Implicit Types (a : Archive) (c : PeerConn) (db : NodeDb).

(** A request leaves everything but the queue of requests and its hashes. *)
Lemma send_request_frame {E} (P : PeerConn -> Prop) request :
  (forall c hashes, P c -> P (push_request hashes request c)) ->
  preserves (E := E) P (send_request request).
Proof. intros HP c Hc. unfold send_request. destruct request; try case_bool_decide; cbn; auto. Qed.

Lemma request_headers_true a own peer_tip_info id c c' :
  request_headers a own peer_tip_info id c = (Ok true, c') ->
  c' = c /\ is_Some (ar_headers a !! tip_block_hash (ti_tip peer_tip_info)).
Proof.
  unfold request_headers. destruct (ar_headers a !! _) eqn:Hh; intros Hr; op_inv; done.
Qed.
Lemma request_headers_infos a own peer_tip_info id infos :
  preserves (fun c => pc_infos c = infos) (request_headers a own peer_tip_info id).
Proof.
  unfold request_headers. preserve. by apply send_request_frame.
Qed.
Hint Resolve request_headers_infos : ops.

Lemma check_peer_tip_infos a own peer_tip_info id infos :
  preserves (fun c => pc_infos c = infos) (check_peer_tip_and_request_headers a own peer_tip_info id).
Proof. unfold check_peer_tip_and_request_headers. preserve. Qed.

(** The peer's tip is taken to be better without its headers being requested. *)
Lemma check_peer_tip_true a own peer_tip_info id c c' :
  check_peer_tip_and_request_headers a own peer_tip_info id c = (Ok (Some true), c') ->
  c' = c /\ peer_tip_on_mainchain a peer_tip_info = Ok true /\
  is_Some (ar_headers a !! tip_block_hash (ti_tip peer_tip_info)).
Proof.
  unfold check_peer_tip_and_request_headers. intros Hc. op_inv. apply map_err_Ok in Ho.
  destruct x; op_inv; try done. rewrite Ho.
  destruct own as [own|]; op_inv; simplify_eq; repeat (case_match; op_inv; simplify_eq); try done;
    match goal with
    | Hr : request_headers _ _ _ _ _ = (Ok true, _) |- _ => apply request_headers_true in Hr as [-> ?]; done
    end.
Qed.

Lemma own_tip_info_block db own :
  own_tip_info db = Ok own -> (fun t => tip_block_hash (ti_tip t)) <$> own = try_get_tip (nd_state db).
Proof.
  unfold own_tip_info. destruct (try_get_tip (nd_state db)) as [t|]; [|by intros [= <-]].
  intros (h & _ & Hr)%bind_Ok. apply bind_Ok in Hr as (m & _ & Hr). by apply bind_Ok in Hr as (w & _ & [= <-]).
Qed.

Lemma request_bodies_infos peer_state peer_tip anc missing infos :
  preserves (fun c => pc_infos c = infos) (request_bodies peer_state peer_tip anc missing).
Proof.
  induction missing as [|b missing IH]; cbn; [apply preserves_ret|].
  apply preserves_bind; [by apply send_request_frame|intros _; exact IH].
Qed.

(** The tip that a run of [handle_peer_state] reports, if any *)
Lemma handle_peer_state_infos db peer_state c r c' :
  handle_peer_state db peer_state c = (r, c') ->
  pc_infos c' = pc_infos c \/
  (exists m, pc_infos c' = pc_infos c ++ [Info_NeedMainchainAncestors m (peer_state_id peer_state)]) \/
  exists peer_tip_info own anc, ps_tip_info peer_state = Some peer_tip_info /\
    own_tip_info db = Ok own /\
    pc_infos c' = pc_infos c ++ [Info_NewTipReady (ti_tip peer_tip_info)] /\
    peer_tip_on_mainchain (nd_archive db) peer_tip_info = Ok true /\
    is_Some (ar_headers (nd_archive db) !! tip_block_hash (ti_tip peer_tip_info)) /\
    try_get_bmm_result (nd_archive db) (tip_block_hash (ti_tip peer_tip_info))
      (tip_main_block_hash (ti_tip peer_tip_info)) = Some Bmm_Verified /\
    bodies_to_request (nd_archive db) own (ti_tip peer_tip_info) = Ok (anc, []).
Proof.
  unfold handle_peer_state. destruct (ps_tip_info peer_state) as [ti|]; [|intros [= <- <-]; by left].
  rewrite op_lifted_bind. destruct (own_tip_info db) as [own| |] eqn:Hown; cbn [map_err];
    [|intros [= <- <-]; by left..].
  rewrite op_lifted_bind. destruct (check_claims _ ti) as [[[]|]| |]; [| |intros [= <- <-]; by left..].
  2: { unfold writing. intros [= <- <-]. right; left. by eexists. }
  pose proof (check_peer_tip_infos (nd_archive db) own ti (peer_state_id peer_state) (pc_infos c) c eq_refl) as Hi.
  unfold mbind at 1, op_bind at 1.
  destruct (check_peer_tip_and_request_headers _ own ti _ c) as [[[[]|]| |] c1] eqn:Hc; cbn [snd] in Hi;
    [|intros [= <- <-]; by left..].
  apply check_peer_tip_true in Hc as (-> & Hm & Hh). rewrite op_lifted_bind.
  case_bool_decide as Hv; [|intros [= <- <-]; by left]. cbn [ensure].
  rewrite op_lifted_bind. destruct (bodies_to_request _ own _) as [[anc missing]| |] eqn:Hb; cbn [map_err];
    [|intros [= <- <-]; by left..].
  destruct missing as [|b missing].
  - unfold writing. intros [= <- <-]. right; right. exists ti, own, anc. by split_and!.
  - intros Hr. left.
    pose proof (request_bodies_infos peer_state (ti_tip ti) anc (b :: missing) (pc_infos c) c eq_refl) as Hr'.
    by rewrite Hr in Hr'.
Qed.
End report.

(** C17 The task of a connection reports a tip as ready only when the node can switch to it: the tip's
    header is stored, it is verified at a block of the node's mainchain, and of its branch every
    block that is not on the branch of the node's own tip has its body. *)
Theorem new_tip_ready_available `{Externals} `{NetExternals} (db : NodeDb) (peer_state : PeerState)
    (c c' : PeerConn) (r : result TaskError unit) (tip : Tip) :
  archive_wf (nd_archive db) ->
  (forall t k, try_get_tip (nd_state db) = Some t -> archive_try_get_height (nd_archive db) t = Some k ->
    k < 2 ^ 31) ->
  handle_peer_state db peer_state c = (r, c') ->
  Info_NewTipReady tip ∈ pc_infos c' -> Info_NewTipReady tip ∉ pc_infos c ->
  ti_tip <$> ps_tip_info peer_state = Some tip /\
  tip_available (nd_archive db) (try_get_tip (nd_state db)) tip.
Proof.
  intros Hw Hmax Hh Hin Hnew.
  destruct (handle_peer_state_infos db peer_state c r c' Hh)
    as [Heq|[[m Heq]|(ti & own & anc & Hti & Hown & Heq & Hm & Hhd & Hv & Hb)]]; rewrite Heq in Hin.
  - done.
  - apply elem_of_app in Hin as [?|?%list_elem_of_singleton]; done.
  - apply elem_of_app in Hin as [?|[= ->]%list_elem_of_singleton]; [done|].
    rewrite Hti. split; [done|]. pose proof (own_tip_info_block db own Hown) as Hblock.
    split; [done|done| |].
    + unfold peer_tip_on_mainchain in Hm. destruct (ar_main_header_infos _ !! _); [|done].
      destruct (mct_tip_info _) as [info|]; [|done]. exists info. split; [done|].
      by apply (is_main_descendant_Ok _ _ _ _ (aw_main _ Hw) Hm).
    + rewrite <-Hblock. eapply bodies_to_request_none; [done| |done|exact Hb].
      intros t k -> Hk. by apply (Hmax (tip_block_hash (ti_tip t)) k).
Qed.
