(* ===== verification/PeerSync.v ===== *)
(** * Headers between two nodes

    A node that asks a peer for headers, the peer's answer from its own archive, and the node
    that checks and stores it: [check_peer_tip_and_request_headers] and [handle_get_headers] of
    [src/lib/net/peer/task.rs], [handle_response] of [src/lib/node/net_task.rs]. *)

From S2P Require Import Prelude Types Transaction Authorization State Merkle SideTips Lineage.
From S2P Require Import Archive ArchiveTree ArchiveWf ArchiveBodies TipsWf ArchiveQueries ArchiveIter.
From S2P Require Import BetterTip NodeTask HeadersSync PeerMessage PeerTask PeerBodies.

(** ** Storing a header succeeds *)

(** The mainchain parent of a header is known, with all that follows it. *)
Definition main_ready (a : Archive) (header : Header) : Prop :=
  exists s, ar_main_successors a !! hd_prev_main_hash header = Some s /\
    forall m, m ∈ s -> is_Some (ar_main_block_infos a !! m) /\ is_Some (ar_main_header_infos a !! m).

Lemma fold_insert_total {E V} (f : N -> result E V) l (m : gmap N V) :
  (forall k, k ∈ l -> exists v, f k = Ok v) ->
  exists m', fold_res (fun m k => v ← f k; Ok (<[k := v]> m)) l m = Ok m'.
Proof.
  revert m. induction l as [|k l IH]; intros m Hf; [by eexists|]. cbn [fold_res].
  destruct (Hf k) as [v ->]; [apply list_elem_of_here|]. cbn [mbind result_bind]. apply IH.
  intros k' Hk'. apply Hf. by apply list_elem_of_further.
Qed.

Section total.
Context `{Externals}.
Implicit Types (a : Archive) (header : Header).

Lemma main_height_known a m :
  index_wf (main_index a) -> is_Some (ar_main_header_infos a !! m) ->
  exists k, ar_main_block_hash_to_height a !! m = Some k.
Proof.
  intros Hw [info Hi]. destruct (iw_dom _ Hw m) as [[k Hk] _]; [|by exists k].
  cbn. rewrite lookup_fmap, Hi. by eexists.
Qed.

Lemma is_main_descendant_total a x y :
  index_wf (main_index a) -> is_Some (ar_main_header_infos a !! x) -> is_Some (ar_main_header_infos a !! y) ->
  exists r, is_main_descendant a x y = Ok r.
Proof.
  intros Hw (kx & Hx)%(main_height_known a x Hw) (ky & Hy)%(main_height_known a y Hw).
  destruct (descends_Ok (main_lineage_ok a Hw) x y kx ky) as (r & Hr & _); [done|done|]. by exists r.
Qed.

Lemma any_verified_ancestor_total a l m :
  index_wf (main_index a) -> is_Some (ar_main_header_infos a !! m) ->
  (forall m' r, (m', r) ∈ l -> r = Bmm_Verified -> is_Some (ar_main_header_infos a !! m')) ->
  exists r, any_verified_ancestor a l m = Ok r.
Proof.
  intros Hw Hm. induction l as [|[m' r] l IH]; intros Hl; [by eexists|]. cbn. unfold verified_ancestor.
  assert (exists r', any_verified_ancestor a l m = Ok r') as [r' Hr'].
  { apply IH. intros m0 r0 Hin. apply Hl. by apply list_elem_of_further. }
  destruct (decide (r = Bmm_Verified)) as [Hr|Hr]; [|cbn; rewrite Hr'; by eexists].
  destruct (is_main_descendant_total a m' m Hw) as [[] Hd]; [apply (Hl m' r (list_elem_of_here _ _) Hr)|done|..];
    rewrite Hd; cbn; [by eexists|by exists r'].
Qed.

Lemma bmm_result_at_total a header b m :
  archive_wf a -> is_Some (ar_main_block_infos a !! m) -> is_Some (ar_main_header_infos a !! m) ->
  exists r, bmm_result_at a header b m = Ok r.
Proof.
  intros Hw [info Hi] Hm. pose proof Hm as [mh Hmh]. unfold bmm_result_at, get_main_block_info. rewrite Hi.
  cbn [ok_or mbind result_bind]. destruct (bi_bmm_commitment info) as [c|]; [|by eexists].
  destruct (negb (c =? b)); [by eexists|]. unfold get_main_header_info. rewrite Hmh.
  cbn [ok_or mbind result_bind]. destruct (negb _); [by eexists|].
  destruct (hd_prev_side_hash header) as [p|]; [|by eexists].
  destruct (any_verified_ancestor_total a (map_to_list (get_bmm_results a p)) m (aw_main _ Hw) Hm) as [r ->].
  - intros m' r Hin%elem_of_map_to_list ->. destruct (aw_verified _ Hw p m' Hin) as (? & ? & mh' & Hbk).
    exists mh'. apply (bk_main_header _ _ _ _ _ _ Hbk).
  - by eexists.
Qed.

Lemma exponential_total a header k :
  archive_wf a -> insertable (side_index a) (header_hash header) (hd_prev_side_hash header) k ->
  forall s1 s2, exists l, exponential_of (get_nth_ancestor (put_successors s2 (put_successors s1
    (put_headers <[header_hash header := header]> (put_heights <[header_hash header := k]> a)))))
    k (hd_prev_side_hash header) = Ok l.
Proof.
  intros Hw Hi s1 s2. set (nth := get_nth_ancestor _).
  assert (forall b n k (c : N), ix_heights (side_index a) !! b = Some k ->
    ancestor_at (ix_parent (side_index a)) (N.to_nat n) b = Some c -> nth b n = Ok c) as Hnth.
  { intros b n kb c. apply reads_nth; [apply (aw_side _ Hw)|]. apply side_reads; cbn; [|rewrite fmap_insert|done].
    + apply insert_subseteq_same. by apply (insertable_height _ _ _ _ (aw_side _ Hw) Hi).
    + apply insert_subseteq_same. apply (in_same _ _ _ _ Hi). }
  destruct (hd_prev_side_hash header) as [p|] eqn:Hp.
  - destruct (in_parent _ _ _ _ Hi p eq_refl) as (k' & Hk' & ->).
    destruct (exponential_of_Ok nth _ (aw_side _ Hw) Hnth p k' Hk' (in_bound _ _ _ _ Hi)) as (l & Hl & _).
    by exists l.
  - rewrite (in_root _ _ _ _ Hi eq_refl). by exists [].
Qed.

(** Storing a header comes to its mainchain parent. *)
Lemma put_header_indexed a header base :
  archive_wf a -> header_storable a header -> height_after a (hd_prev_side_hash header) = Some base ->
  is_Some (ar_successors a !! hd_prev_side_hash header) ->
  exists a1, archive_wf a1 /\ ar_main_block_infos a1 = ar_main_block_infos a /\
    ar_main_header_infos a1 = ar_main_header_infos a /\
    put_header a header =
      (main_blocks ← get_main_successors a (hd_prev_main_hash header);
       bmm_results ← fold_res (fun bmm_results main_block =>
           bmm_result ← bmm_result_at a1 header (header_hash header) main_block;
           Ok (<[main_block := bmm_result]> bmm_results))
         (elements main_blocks) (get_bmm_results a1 (header_hash header));
       Ok (put_bmm_results <[header_hash header := bmm_results]> a1)).
Proof.
  intros Hw Hst Hb [ps Hps]. unfold put_header.
  assert (exists k, (match hd_prev_side_hash header with
      | None => Ok 0
      | Some parent => parent_height ← ok_or (archive_try_get_height a parent) Archive_InvalidPrevSideHash;
          Ok (u32_add parent_height 1)
      end : result ArchiveError u32) = Ok k /\
    match hd_prev_side_hash header with
    | None => k = 0
    | Some p => exists kp, ar_block_hash_to_height a !! p = Some kp /\ k = u32_add kp 1
    end) as (k & -> & Hk).
  { destruct (hd_prev_side_hash header) as [p|]; [|by exists 0]. cbn in Hb. unfold archive_try_get_height.
    destruct (ar_block_hash_to_height a !! p) as [kp|]; [|done]. by exists (u32_add kp 1); split; [|exists kp]. }
  cbn [mbind result_bind]. unfold get_successors at 1. cbn [ar_successors put_headers put_heights].
  rewrite Hps. cbn [mbind result_bind].
  pose proof (header_insertable _ _ _ (aw_side _ Hw) Hst Hk) as Hi.
  match goal with |- exists a1, _ /\ _ /\ _ /\ (exponential_of (get_nth_ancestor (put_successors ?s2 (put_successors ?s1 _))) _ _ ≫= _) = _ =>
    destruct (exponential_total a header k Hw Hi s1 s2) as [l Hl] end.
  rewrite Hl. cbn [mbind result_bind]. unfold get_main_successors at 1.
  cbn [ar_main_successors put_exponential put_successors put_headers put_heights].
  match goal with |- context [fold_res (fun _ _ => bmm_result_at ?x _ _ _ ≫= _)] => exists x end.
  split_and!; [by eapply header_indexed_wf|done|done|done].
Qed.

Lemma put_header_total a header base :
  archive_wf a -> header_storable a header -> height_after a (hd_prev_side_hash header) = Some base ->
  is_Some (ar_successors a !! hd_prev_side_hash header) -> main_ready a header ->
  exists a', put_header a header = Ok a'.
Proof.
  intros Hw Hst Hb Hps (ms & Hms & Hready).
  destruct (put_header_indexed a header base Hw Hst Hb Hps) as (a1 & Hw1 & Hi1 & Hh1 & ->).
  unfold get_main_successors. rewrite Hms. cbn [ok_or mbind result_bind].
  destruct (fold_insert_total (bmm_result_at a1 header (header_hash header)) (elements ms)
    (get_bmm_results a1 (header_hash header))) as [results ->]; [|by eexists].
  intros m Hm%elem_of_elements. by apply bmm_result_at_total; [done|rewrite ?Hi1, ?Hh1; apply Hready..].
Qed.

(** *** All headers of an answer *)

(** What storing a header needs of the rest of the archive *)
Record archive_ready (a : Archive) : Prop := {
  rd_wf : archive_wf a;
  rd_successors : successors_ok a;
  rd_first : is_Some (ar_successors a !! None);
}.

Lemma successors_known a prev base :
  archive_ready a -> height_after a prev = Some base -> is_Some (ar_successors a !! prev).
Proof.
  intros [Hw Hs Hn] Hb. destruct prev as [p|]; [|done]. cbn in Hb.
  destruct (ar_block_hash_to_height a !! p) as [k|] eqn:Hk; [|done].
  destruct (height_known_header a p k Hw Hk) as [h Hh]. by apply (Hs p h).
Qed.

Lemma put_header_keeps_main a header a' :
  put_header a header = Ok a' ->
  ar_main_successors a' = ar_main_successors a /\ ar_main_block_infos a' = ar_main_block_infos a /\
  ar_main_header_infos a' = ar_main_header_infos a /\
  (is_Some (ar_successors a !! None) -> is_Some (ar_successors a' !! None)).
Proof.
  intros (k & l & ps & s1 & s2 & mb & results & _ & (old & Hold & _) & _ & _ & ->)%put_header_Ok.
  split_and!; try done. intros [s Hs]. cbn.
  destruct (decide (hd_prev_side_hash header = None)) as [->|Hne].
  - rewrite lookup_insert_ne by done. rewrite lookup_insert_eq. by eexists.
  - rewrite !lookup_insert_ne by done. by exists s.
Qed.

Lemma main_ready_put a header a' header' :
  put_header a header = Ok a' -> main_ready a header' -> main_ready a' header'.
Proof.
  intros (H1 & H2 & H3 & _)%put_header_keeps_main (s & Hs & Hm). exists s. rewrite H1, H2, H3. done.
Qed.

Lemma store_headers_total a0 headers : forall a prev base,
  archive_ready a -> no_collision a headers -> sequential a0 prev headers = true ->
  height_after a prev = Some base -> base + N.of_nat (length headers) <= u32_MAX + 1 ->
  Forall (main_ready a) headers -> exists a', store_headers a headers = Ok a'.
Proof.
  induction headers as [|header headers IH]; intros a prev base Hr Hnc Hseq Hb Hlen Hm; [by eexists|].
  cbn [sequential] in Hseq. rewrite !andb_true_iff in Hseq. destruct Hseq as [[Hp%bool_decide_eq_true _] Hseq].
  subst prev. cbn [length] in Hlen. apply Forall_cons in Hm as [Hm1 Hm]. cbn [store_headers].
  pose proof (rd_wf _ Hr) as Hw.
  destruct (proj1 Hnc header (list_elem_of_here _ _)) as [Hn|Hs].
  - rewrite Hn, bool_decide_false by (by intros []).
    assert (header_storable a header) as Hst.
    { split; [by left|]. intros p k Hpp Hk. rewrite Hpp in Hb. cbn in Hb. rewrite Hk in Hb.
      injection Hb as <-. lia. }
    destruct (put_header_total a header base Hw Hst Hb (successors_known _ _ _ Hr Hb) Hm1) as [a1 Hp].
    assert (exists a', store_headers a1 headers = Ok a') as [a' Ha'].
    { destruct (put_new_header a header a1 base Hw Hn Hb ltac:(lia) Hp) as (Hw1 & _ & Hh & Hk).
      apply (IH a1 (Some (header_hash header)) (base + 1)).
      - split; [done|eapply put_header_successors; [apply Hr|exact Hp]|]. apply (put_header_keeps_main _ _ _ Hp), Hr.
      - eapply no_collision_next; [done|by right].
      - done.
      - cbn. by rewrite Hk.
      - lia.
      - eapply Forall_impl; [exact Hm|]. intros h. by apply main_ready_put with header. }
    destruct (hd_prev_side_hash header) as [p|]; [|rewrite Hp; by exists a'].
    cbn in Hb. destruct (ar_block_hash_to_height a !! p) as [k|] eqn:Hk; [|done].
    rewrite bool_decide_true by (by eapply height_known_header). rewrite Hp. by exists a'.
  - rewrite Hs, bool_decide_true by (by eexists). apply (IH a (Some (header_hash header)) (base + 1)); try done.
    + eapply no_collision_next; [done|by left].
    + cbn. by rewrite (stored_header_height a header Hw Hs), Hb.
    + lia.
Qed.
End total.

(** C37 Headers that a peer sends, in answer to a request that starts from stored blocks: the net task does not
    stop on an error. The answer is refused, and nothing is stored; or it is taken, and then every header is
    stored, none of them was invalidated before, the archive is well-formed, and the block that was asked for
    has the announced height. The archive is well-formed, the mainchain blocks that the headers build on are
    known with their successors (otherwise the task can stop: [unknown_main_parent_stops_task]), no two headers,
    sent or stored, have one hash, and heights stay within [u32]. *)
Theorem handle_headers_sound `{Externals} (a : Archive) (req : HeadersRequest) (headers : list Header) :
  archive_ready a -> no_collision a headers -> Forall (main_ready a) headers ->
  (forall b, b ∈ hr_start req -> exists k, archive_try_get_height a b = Some k /\
    k + N.of_nat (length headers) <= u32_MAX) ->
  N.of_nat (length headers) <= u32_MAX ->
  exists a' taken, handle_headers a req headers = Ok (a', taken) /\ archive_wf a' /\
    (taken = false -> a' = a) /\
    (taken = true ->
      Forall (fun h => invalidated_block a (header_hash h) = false /\ ar_headers a' !! header_hash h = Some h) headers /\
      archive_try_get_height a' (hr_end req) = Some (hr_height req)).
Proof.
  intros Hr Hnc Hm Hstart Hlen. pose proof (rd_wf _ Hr) as Hw. unfold handle_headers.
  assert (exists valid, check_headers a req headers = Ok valid) as [valid Hc].
  { unfold check_headers. destruct headers as [|first rest]; [by eexists|]. destruct (last _); [|by eexists].
    destruct (negb _); [by eexists|]. destruct (hd_prev_side_hash first) as [p|]; [|by eexists].
    case_bool_decide as Hin; [|by eexists]. destruct (Hstart p Hin) as (k & Hk & _).
    unfold archive_get_height. rewrite Hk. by eexists. }
  rewrite Hc. cbn [mbind result_bind]. destruct valid; [|by exists a, false].
  destruct (check_headers_true a req headers) as (prev & base & end_header & Hlast & Hend & Hb & Hbl & Hbh & Hseq);
    [|done|done|].
  { intros b k Hin Hk. destruct (Hstart b Hin) as (k' & Hk' & Hle). unfold archive_try_get_height in Hk'. congruence. }
  destruct (store_headers_total a headers a prev base Hr Hnc Hseq Hb Hbl Hm) as [a' Hst]. rewrite Hst.
  destruct (store_headers_Ok a headers a prev base a' Hw Hnc Hseq Hb Hbl Hst) as (Hw1 & _ & Hall).
  exists a', true. split_and!; [done|done|done|]. intros _. pose proof (sequential_valid a headers prev Hseq) as Hv. split.
  - apply Forall_lookup. intros i h Hi. split; [by apply (Forall_lookup_1 _ _ _ _ Hv Hi)|by apply (Hall i h)].
  - rewrite last_lookup in Hlast. destruct (Hall _ _ Hlast) as [_ Hk]. unfold archive_try_get_height.
    rewrite <-Hend, Hk. f_equal. assert (1 <= length headers)%nat by (destruct headers; [done|cbn; lia]). lia.
Qed.

(** ** The answer of the peer *)

(** Blocks are stored under the hash of their header. *)
Definition headers_hashed `{Externals} (a : Archive) : Prop :=
  forall b header, ar_headers a !! b = Some header -> header_hash header = b.

(** Two archives have the same header for the same block. *)
Definition headers_agree (a b : Archive) : Prop := forall x h h',
  ar_headers a !! x = Some h -> ar_headers b !! x = Some h' -> h = h'.

Section answer.
Context `{Externals}.
Implicit Types (headers : list Header).

Lemma sequential_snoc a header headers : forall prev,
  sequential a prev (headers ++ [header]) =
    sequential a prev headers &&
    bool_decide (hd_prev_side_hash header =
      match last headers with Some h => Some (header_hash h) | None => prev end) &&
    negb (invalidated_block a (header_hash header)).
Proof.
  induction headers as [|h headers IH]; intros prev; cbn [app sequential]; [by rewrite andb_true_r|].
  rewrite IH, last_cons, !andb_assoc. by destruct (last headers).
Qed.

(** The heights of the two archives are the same. *)
Lemma heights_agree a b : index_wf (side_index a) -> index_wf (side_index b) -> headers_agree a b ->
  forall n x ka kb, N.to_nat ka = n -> archive_try_get_height a x = Some ka ->
  archive_try_get_height b x = Some kb -> ka = kb.
Proof.
  intros Ha Hb Hag. induction n as [n IH] using lt_wf_ind. intros x ka kb Hn Hka Hkb.
  destruct (iw_dom _ Ha x) as [_ [pa Hpa]]; [by exists ka|]. destruct (iw_dom _ Hb x) as [_ [pb Hpb]]; [by exists kb|].
  assert (pa = pb) as <-.
  { cbn in Hpa, Hpb. rewrite lookup_fmap in Hpa, Hpb.
    destruct (ar_headers a !! x) as [h|] eqn:Hh; [|done]. destruct (ar_headers b !! x) as [h'|] eqn:Hh'; [|done].
    injection Hpa as <-. injection Hpb as <-. by rewrite (Hag x h h' Hh Hh'). }
  unfold archive_try_get_height in *. destruct pa as [p|].
  - destruct (iw_parent _ Ha x p Hpa) as (ka' & Hpka & Hxa). destruct (iw_parent _ Hb x p Hpb) as (kb' & Hpkb & Hxb).
    cbn in Hxa, Hxb. rewrite Hka in Hxa. rewrite Hkb in Hxb. simplify_eq. f_equal.
    by apply (IH (N.to_nat ka') ltac:(lia) p ka' kb').
  - pose proof (iw_root _ Ha x Hpa) as Hxa. pose proof (iw_root _ Hb x Hpb) as Hxb. cbn in Hxa, Hxb. congruence.
Qed.

Section walk.
Context (a b : Archive) (Hw : index_wf (side_index b)) (Hhash : headers_hashed b) (start : gset BlockHash).
Let par := ix_parent (side_index b).

(** What the walk from a block of height [k] collects, oldest first *)
Record walked (c : BlockHash) (k : u32) headers : Prop := {
  wk_last : last headers = ar_headers b !! c;
  wk_headers h : h ∈ headers -> exists x, ancestor par x c /\ ar_headers b !! x = Some h;
  wk_first : exists first, head headers = Some first /\
    sequential a (hd_prev_side_hash first) headers = true /\
    match hd_prev_side_hash first with
    | None => N.of_nat (length headers) = k + 1
    | Some p => p ∈ start /\ exists kp, archive_try_get_height b p = Some kp /\
        kp + N.of_nat (length headers) = k
    end;
}.

Lemma headers_until_Ok fuel : forall c k,
  archive_try_get_height b c = Some k -> (N.to_nat k < fuel)%nat -> c ∉ start ->
  (forall x, ancestor par x c -> invalidated_block a x = false) ->
  exists headers, headers_until fuel b start (Some c) = Ok (reverse headers) /\ walked c k headers.
Proof.
  induction fuel as [|fuel IH]; intros c k Hk Hf Hc Hinv; [lia|].
  destruct (known_header b Hw c k Hk) as [header Hh]. cbn [headers_until ancestor_headers_next].
  unfold get_header. rewrite Hh. cbn [ok_or mbind result_bind]. rewrite bool_decide_false by done.
  assert (invalidated_block a (header_hash header) = false) as Hi.
  { rewrite (Hhash c header Hh). apply Hinv, ancestor_refl. }
  destruct (hd_prev_side_hash header) as [p|] eqn:Hp.
  - destruct (iw_parent _ Hw c p) as (kp & Hkp & Hkc); [cbn; by rewrite lookup_fmap, Hh; cbn; rewrite Hp|].
    cbn in Hkp, Hkc. unfold archive_try_get_height in Hk. rewrite Hk in Hkc. injection Hkc as ->.
    assert (ancestor par p c) as Hanc.
    { exists 1%nat. cbn. assert (par c = Some p) as ->; [|done].
      by apply ix_parent_Some; cbn; rewrite lookup_fmap, Hh; cbn; rewrite Hp. }
    destruct (decide (p ∈ start)) as [Hin|Hout].
    + destruct fuel as [|fuel]; [lia|]. destruct (known_header b Hw p kp Hkp) as [ph Hph].
      cbn [headers_until ancestor_headers_next]. unfold get_header. rewrite Hph. cbn [ok_or mbind result_bind].
      rewrite bool_decide_true by done. cbn. exists [header]. split; [done|]. split.
      * by rewrite Hh.
      * intros h ->%list_elem_of_singleton. exists c. split; [apply ancestor_refl|done].
      * exists header. rewrite Hp. split_and!; [done| |done|exists kp; by split].
        cbn. rewrite Hp, bool_decide_true, Hi by done. done.
    + destruct (IH p kp Hkp ltac:(lia) Hout) as (headers & -> & [Hl Hall (first & Hfirst & Hseq & Hlen)]).
      { intros x Hx. apply Hinv. by eapply ancestor_trans. }
      cbn [mbind result_bind]. exists (headers ++ [header]). rewrite reverse_snoc. split; [done|]. split.
      * by rewrite last_snoc, Hh.
      * intros h [Hin| ->%list_elem_of_singleton]%elem_of_app.
        -- destruct (Hall h Hin) as (x & Hx & Hxh). exists x. split; [by eapply ancestor_trans|done].
        -- exists c. split; [apply ancestor_refl|done].
      * exists first. destruct headers as [|f0 headers']; [done|]. injection Hfirst as ->.
        split_and!; [done| |].
        -- rewrite sequential_snoc, Hseq, Hl, Hi. destruct (known_header b Hw p kp Hkp) as [ph Hph].
           rewrite Hph, (Hhash p ph Hph), Hp. by rewrite bool_decide_true.
        -- rewrite length_app. cbn [length] in *. destruct (hd_prev_side_hash first); [|lia].
           destruct Hlen as (? & kp' & ? & ?). split; [done|]. exists kp'. split; [done|lia].
  - assert (k = 0) as ->.
    { enough (Some k = Some 0) by congruence. rewrite <-Hk. apply (iw_root _ Hw). cbn.
      by rewrite lookup_fmap, Hh; cbn; rewrite Hp. }
    assert (headers_until fuel b start None = Ok []) as -> by (by destruct fuel).
    cbn. exists [header]. split; [done|]. split.
    + by rewrite Hh.
    + intros h ->%list_elem_of_singleton. exists c. split; [apply ancestor_refl|done].
    + exists header. rewrite Hp. split_and!; [done| |done]. cbn. by rewrite Hp, bool_decide_true, Hi by done.
Qed.
End walk.

(** The locator names blocks that are stored. *)
Lemma locator_stored a own start :
  index_wf (side_index a) -> locator a own = Ok start ->
  forall x, x ∈ start -> exists k, archive_try_get_height a x = Some k.
Proof.
  intros Hw Hl x Hx. destruct own as [own|]; [|by injection Hl as <-; apply elem_of_empty in Hx].
  apply fmap_Ok in Hl as (l & Hl & ->). apply elem_of_list_to_set in Hx. unfold get_block_locator in Hl.
  set (t := tip_block_hash (ti_tip own)) in *.
  apply bind_Ok in Hl as (header & Hh%ok_or_Ok & Hl). apply bind_Ok in Hl as (res & Hres%ok_or_Ok & [= <-]).
  destruct (iw_dom _ Hw t) as [[k Hk] _]; [cbn; rewrite lookup_fmap, Hh; by eexists|].
  destruct (iw_exponential _ Hw t k Hk) as (l' & Hl' & Hok). cbn in Hl'. rewrite Hres in Hl'. injection Hl' as <-.
  assert (x ∈ res \/ hd_prev_side_hash header = Some x) as [Hin|Hp].
  { destruct (hd_prev_side_hash header) as [p|]; [|by left].
    rewrite reverse_snoc, reverse_involutive in Hx. apply elem_of_cons in Hx as [->|Hx]; auto. }
  - apply list_elem_of_lookup in Hin as [i Hi]. rewrite Hok in Hi.
    apply (ancestor_at_height (index_tree _ Hw) _ _ _ _ Hk) in Hi as [_ Hi]. by eexists.
  - destruct (iw_parent _ Hw t x) as (kx & Hkx & _); [cbn; by rewrite lookup_fmap, Hh; cbn; rewrite Hp|].
    by exists kx.
Qed.

(** A walk that starts at a known block passes the checks. *)
Lemma walked_accepted a b start c k headers :
  index_wf (side_index a) -> index_wf (side_index b) -> headers_hashed b -> headers_agree a b ->
  (forall x, x ∈ start -> exists kx, archive_try_get_height a x = Some kx) ->
  archive_try_get_height b c = Some k -> walked a b start c k headers ->
  check_headers a (mkHeadersRequest start c k) headers = Ok true /\
  exists prev base, sequential a prev headers = true /\ height_after a prev = Some base /\
    base + N.of_nat (length headers) = k + 1.
Proof.
  intros Ha Hb Hhash Hag Hst Hk [Hl Hall (first & Hfirst & Hseq & Hlen)].
  pose proof (iw_bound _ Hb c k Hk) as Hmax. destruct (known_header b Hb c k Hk) as [header Hh].
  destruct headers as [|f headers]; [done|]. injection Hfirst as ->. unfold check_headers.
  rewrite Hl, Hh, (Hhash c header Hh). cbn [hr_end hr_start hr_height]. rewrite N.eqb_refl. cbn [negb].
  destruct (hd_prev_side_hash first) as [p|].
  - destruct Hlen as (Hin & kp & Hkp & Hlen). destruct (Hst p Hin) as [ka Hka].
    assert (ka = kp) as -> by (by eapply (heights_agree a b Ha Hb Hag)).
    rewrite bool_decide_true by done. unfold archive_get_height. rewrite Hka. cbn [ok_or mbind result_bind].
    rewrite N.mod_small by (unfold u32_MAX in Hmax; lia). rewrite u32_add_small by lia.
    rewrite Hlen, N.eqb_refl, Hseq. split; [done|]. exists (Some p), (kp + 1). cbn.
    unfold archive_try_get_height in Hka. rewrite Hka. split_and!; [done|done|]. cbn [length] in *. lia.
  - rewrite Hlen. assert (u32_sub ((k + 1) mod 2 ^ 32) 1 = k) as ->.
    { unfold u32_sub. unfold u32_MAX in Hmax. destruct (decide (k + 1 = 2 ^ 32)) as [He|Hne].
      - rewrite He, N.Div0.mod_same, N.mod_small by lia. lia.
      - rewrite (N.mod_small (k + 1)) by lia. replace (k + 1 + 2 ^ 32 - 1) with (k + 1 * 2 ^ 32) by lia.
        rewrite N.Div0.mod_add. apply N.mod_small. lia. }
    rewrite N.eqb_refl, Hseq. split; [done|]. exists None, 0. split_and!; [done|done|lia].
Qed.
Lemma walked_no_collision a b start c k headers :
  headers_hashed b -> headers_agree a b -> walked a b start c k headers -> no_collision a headers.
Proof.
  intros Hhash Hag [_ Hall _]. split.
  - intros h (x & _ & Hx)%Hall. rewrite (Hhash x h Hx). destruct (ar_headers a !! x) as [h'|] eqn:Hh'; [right|by left].
    by rewrite (Hag x h' h Hh' Hx).
  - intros h h' (x & _ & Hx)%Hall (x' & _ & Hx')%Hall. rewrite (Hhash x h Hx), (Hhash x' h' Hx'). congruence.
Qed.
End answer.

(** ** The exchange *)

(** C13 A node that asks a peer for the headers up to the tip that the peer announced gets an answer that it
    accepts and stores in full, and then knows the tip at the announced height. This is when the announced
    height is the true one, both archives are well-formed and have the same header for the same hash, no block
    of the branch was invalidated by the node, and the mainchain blocks that the headers build on are known to
    the node with their successors. *)
Theorem headers_exchange `{Externals} `{NetExternals} (a b : Archive) (own : option TipInfo)
    (peer_tip_info : TipInfo) (psid : PeerStateId) (c c' : PeerConn) :
  let tip := tip_block_hash (ti_tip peer_tip_info) in
  archive_ready a -> archive_wf b -> headers_hashed b -> headers_agree a b ->
  archive_try_get_height b tip = Some (ti_block_height peer_tip_info) ->
  (forall x h, ancestor (ix_parent (side_index b)) x tip -> ar_headers b !! x = Some h ->
    invalidated_block a x = false /\ main_ready a h) ->
  request_headers a own peer_tip_info psid c = (Ok false, c') ->
  exists start headers a',
    locator a own = Ok start /\
    headers_response b start tip = Ok (Response_Headers headers) /\
    handle_headers a (mkHeadersRequest start tip (ti_block_height peer_tip_info)) headers = Ok (a', true) /\
    archive_wf a' /\ Forall (fun h => ar_headers a' !! header_hash h = Some h) headers /\
    archive_try_get_height a' tip = Some (ti_block_height peer_tip_info).
Proof.
  intros tip Hr Hb Hhash Hag Hk Hbranch Hreq. set (k := ti_block_height peer_tip_info) in *.
  pose proof (aw_side _ (rd_wf _ Hr)) as Ha. pose proof (aw_side _ Hb) as Hbs. unfold request_headers in Hreq.
  fold tip in Hreq. destruct (ar_headers a !! tip) as [?|] eqn:Hn; [done|].
  op_inv. apply map_err_Ok in Ho. rename x into start.
  pose proof (locator_stored a own start Ha Ho) as Hst. assert (tip ∉ start) as Hout.
  { intros Hin. destruct (Hst tip Hin) as [ka Hka]. destruct (known_header a Ha tip ka Hka) as [h Hh]. congruence. }
  destruct (headers_until_Ok a b Hbs Hhash start (S (N.to_nat k)) tip k Hk ltac:(lia) Hout) as (headers & Hwalk & W).
  { intros x Hx. pose proof Hx as (kx & _ & Hkx & _)%(ancestor_spec (index_tree _ Hbs) _ _ _ Hk).
    destruct (known_header b Hbs x kx Hkx) as [h Hh]. by apply (Hbranch x h). }
  destruct (walked_accepted a b start tip k headers Ha Hbs Hhash Hag Hst Hk W) as (Hc & prev & base & Hseq & Hbase & Hlen).
  pose proof (walked_no_collision _ _ _ _ _ _ Hhash Hag W) as Hnc. pose proof (iw_bound _ Hbs tip k Hk) as Hmax.
  destruct (store_headers_total a headers a prev base Hr Hnc Hseq Hbase ltac:(lia)) as [a' Hs].
  { apply Forall_forall. intros h (x & Hx & Hh)%(wk_headers _ _ _ _ _ _ W). by apply (Hbranch x h). }
  destruct (store_headers_Ok a headers a prev base a' (rd_wf _ Hr) Hnc Hseq Hbase ltac:(lia) Hs) as (Hw' & _ & Hall).
  exists start, headers, a'. split_and!; [done| | |done| |].
  - unfold headers_response. destruct (known_header b Hbs tip k Hk) as [h Hh]. rewrite Hh, Hk.
    change (default 0 (Some k)) with k. by rewrite Hwalk; cbn; rewrite reverse_involutive.
  - unfold handle_headers. rewrite Hc. cbn [mbind result_bind]. by rewrite Hs.
  - apply Forall_lookup. intros i h Hi. by apply (Hall i h).
  - pose proof (wk_last _ _ _ _ _ _ W) as Hl. destruct (known_header b Hbs tip k Hk) as [h Hh]. rewrite Hh in Hl.
    rewrite last_lookup in Hl. destruct (Hall _ _ Hl) as [_ Hkt]. rewrite (Hhash tip h Hh) in Hkt.
    unfold archive_try_get_height. rewrite Hkt. f_equal.
    assert (length headers <> 0)%nat by (intros He; rewrite He in Hl; by destruct headers). lia.
Qed.
