(* ===== verification/BodyTotal.v ===== *)
(** * Storing a body succeeds

    [put_body] of [src/lib/archive/mod.rs] stores a body for every known header without an error, and
    its work list ends: what the archive needs for that holds in every reachable archive. *)

From S2P Require Import Prelude Types Transaction Merkle Sample SideTips Lineage Archive.
From S2P Require Import ArchiveTree ArchiveWf ArchiveBodies TipsWf ArchiveQueries PeerSync.

(** ** Tables that are complete *)

(** The successors of a block are headers that name it as their parent. *)
Definition successors_exact (a : Archive) : Prop := forall p s c,
  ar_successors a !! Some p = Some s -> c ∈ s ->
  exists header, ar_headers a !! c = Some header /\ hd_prev_side_hash header = Some p.
(** The work up to every mainchain block is known. *)
Definition works_known (a : Archive) : Prop := forall m,
  is_Some (ar_main_header_infos a !! m) -> is_Some (ar_total_work a !! m).

Record archive_full (a : Archive) : Prop := {
  af_wf : archive_wf a;
  af_successors : successors_ok a;
  af_exact : successors_exact a;
  af_works : works_known a;
}.

(** What an operation that leaves the chains alone keeps *)
Lemma full_same a a' :
  same_chain a a' -> ar_total_work a' = ar_total_work a -> archive_full a -> archive_full a'.
Proof.
  intros Hc Hwk [Hw Hs He Hk]. split.
  - by eapply same_chain_wf.
  - by eapply same_chain_successors.
  - intros p s c. rewrite (sc_successors _ _ Hc), (sc_headers _ _ Hc). apply He.
  - intros m. rewrite (sc_main_headers _ _ Hc), Hwk. apply Hk.
Qed.

Section full.
Context `{Externals} `{WorkExternals}.

Lemma put_header_exact a header a' :
  header_storable a header -> successors_exact a -> put_header a header = Ok a' -> successors_exact a'.
Proof.
  intros [Hst _] He (k & l & ps & s1 & s2 & mb & results & _ & (old & Hold & ->) & _ & _ & ->)%put_header_Ok.
  intros p s c Hs Hc. cbn in Hs |- *. set (b := header_hash header) in *. set (prev := hd_prev_side_hash header) in *.
  assert (forall q s c, (<[prev := {[b]} ∪ old]> (ar_successors a)) !! Some q = Some s -> c ∈ s ->
    (c = b /\ prev = Some q) \/ exists h, ar_headers a !! c = Some h /\ hd_prev_side_hash h = Some q) as Hmid.
  { intros q s' c'. destruct (decide (prev = Some q)) as [Hp|Hp].
    - rewrite Hp, lookup_insert_eq. intros [= <-] [->%elem_of_singleton|Hin]%elem_of_union; [by left|].
      right. rewrite Hp in Hold. by eapply He.
    - rewrite lookup_insert_ne by done. intros Hq Hin. right. by eapply He. }
  assert ((c = b /\ prev = Some p) \/ exists h, ar_headers a !! c = Some h /\ hd_prev_side_hash h = Some p) as [[-> Hp]|(h & Hh & Hp)].
  { destruct (decide (Some b = Some p)) as [[= <-]|Hbp].
    - rewrite lookup_insert_eq in Hs. injection Hs as <-.
      destruct (<[prev := {[b]} ∪ old]> (ar_successors a) !! Some b) as [s0|] eqn:Hs0; cbn in Hc; [|set_solver].
      by eapply Hmid.
    - rewrite lookup_insert_ne in Hs by done. by eapply Hmid. }
  - exists header. by rewrite lookup_insert_eq.
  - destruct (decide (b = c)) as [<-|Hne].
    + exists header. rewrite lookup_insert_eq. split; [done|]. destruct Hst as [?|?]; congruence.
    + exists h. by rewrite lookup_insert_ne.
Qed.

Lemma put_header_full a header a' :
  header_storable a header -> archive_full a -> put_header a header = Ok a' -> archive_full a'.
Proof.
  intros Hst [Hw Hs He Hk] Hp. split.
  - by eapply put_header_wf.
  - by eapply put_header_successors.
  - by eapply put_header_exact.
  - apply put_header_Ok in Hp as (k & l & ps & s1 & s2 & mb & results & _ & _ & _ & _ & ->). exact Hk.
Qed.

Lemma put_main_header_info_full a info a' :
  main_header_storable a info -> archive_full a -> put_main_header_info a info = Ok a' -> archive_full a'.
Proof.
  intros Hst [Hw Hs He Hk] Hp. pose proof (put_main_header_info_wf _ _ _ Hw Hst Hp) as Hw'.
  unfold put_main_header_info in Hp. apply bind_Ok in Hp as (_ & _ & Hp).
  apply bind_Ok in Hp as (k & _ & Hp). apply bind_Ok in Hp as (w & _ & Hp).
  apply bind_Ok in Hp as (ps & _ & Hp). apply bind_Ok in Hp as (l & _ & [= <-]).
  split; [done|exact Hs|exact He|]. intros m. cbn. destruct (decide (bhi_block_hash info = m)) as [<-|Hne].
  - rewrite !lookup_insert_eq. by intros _; eexists.
  - rewrite !lookup_insert_ne by done. apply Hk.
Qed.

Lemma put_main_block_info_full a m info a' :
  info_storable a m info -> archive_full a -> put_main_block_info a m info = Ok a' -> archive_full a'.
Proof.
  intros Hst [Hw Hs He Hk] Hp. pose proof (put_main_block_info_wf _ _ _ _ Hw Hst Hp) as Hw'.
  unfold put_main_block_info in Hp. apply bind_Ok in Hp as (mh & _ & Hp). apply bind_Ok in Hp as (u & _ & Hp).
  destruct (bi_bmm_commitment info) as [c|]; [|injection Hp as <-; by split].
  destruct (ar_headers _ !! c) as [h|]; [|injection Hp as <-; by split].
  apply bind_Ok in Hp as (r & _ & [= <-]). by split.
Qed.

Lemma archive_new_full : archive_full archive_new.
Proof.
  split; [apply archive_new_wf|..].
  - intros b h Hh. cbn in Hh. by rewrite lookup_empty in Hh.
  - intros p s c Hs Hc. cbn in Hs. by apply lookup_singleton_Some in Hs as [? _].
  - intros m [i Hi]. cbn in Hi. by rewrite lookup_empty in Hi.
Qed.

Lemma delete_body_work a b body a' : delete_body a b body = Ok a' -> ar_total_work a' = ar_total_work a.
Proof.
  unfold delete_body. destruct (delete_inclusion_frame b (bd_transactions body) (put_bodies (delete b) a)) as [f ->].
  change (ar_total_work a) with (ar_total_work (put_inclusions f (put_bodies (delete b) a))).
  generalize (put_inclusions f (put_bodies (delete b) a)). intros a0. generalize (disconnect_fuel a0) [b].
  intros fuel. revert a0. induction fuel as [|fuel IH]; intros a0 [|c q] Hd; cbn [disconnect_tips_loop] in Hd;
    try done; try (by injection Hd as <-).
  destruct (sd_sidechain_tips (ar_side_tips a0) !! c); [|by eapply IH].
  apply bind_Ok in Hd as (succ & _ & Hd). by apply IH in Hd.
Qed.

Lemma archive_reachable_full a : archive_reachable a -> archive_full a.
Proof.
  induction 1 as [|a a' _ IH Hs]; [apply archive_new_full|].
  destruct Hs as [header a1 Hst Hp|info a1 Hst Hp|m info a1 Hst Hp|b body a1 Hp|b body a1 Hp|info c t Hp|info c t Hp].
  - by eapply put_header_full.
  - by eapply put_main_header_info_full.
  - by eapply put_main_block_info_full.
  - eapply full_same; [by eapply put_body_chain| |done]. apply put_body_same in Hp as [t ->]. cbn.
    by destruct (body_stored_frame a b body) as [f ->].
  - eapply full_same; [by eapply delete_body_chain|by eapply delete_body_work|done].
  - by eapply full_same; [apply same_chain_tips| |].
  - by eapply full_same; [apply same_chain_tips| |].
Qed.
End full.

(** ** Connecting tips succeeds *)

Section connecting.
Context (mt : MainBlockHash).

(** The archive while side tips are connected at a known mainchain block *)
Record connecting (a : Archive) : Prop := {
  cg_full : archive_full a;
  cg_tip : is_Some (ar_main_header_infos a !! mt);
}.
Lemma connecting_same a a' : same_archive a a' -> connecting a -> connecting a'.
Proof. intros [t ->] [Hf Ht]. split; [|done]. by eapply full_same; [apply same_chain_tips| |]. Qed.

Lemma connect_result_total b header acc m r :
  connecting acc.1 -> (r = Bmm_Verified -> is_Some (ar_main_header_infos acc.1 !! m)) ->
  exists acc', connect_result mt b header acc (m, r) = Ok acc' /\ same_archive acc.1 acc'.1.
Proof.
  destruct acc as [a c]. intros [Hf Ht] Hm. cbn [fst] in *. unfold connect_result.
  destruct r; [|by eexists]. specialize (Hm eq_refl).
  destruct (parent_connected a header) eqn:Hp; cbn [negb]; [|by eexists].
  destruct (is_main_descendant_total a m mt (aw_main _ (af_wf _ Hf)) Hm Ht) as [d Hd]. rewrite Hd.
  cbn [mbind result_bind]. destruct d; [|by eexists].
  destruct (af_works _ Hf m Hm) as [w Hw]. unfold get_total_work. rewrite Hw. cbn [ok_or mbind result_bind].
  unfold connect_sidechain_tip. cbn [shd_prev_side_hash header_data].
  pose proof (proj1 (parent_connected_true a header) Hp) as Hparent.
  assert (exists h, match hd_prev_side_hash header with
    | Some parent_hash => match sd_sidechain_tips (ar_side_tips a) !! parent_hash with
        | None => Err (MissingSidechainParent parent_hash)
        | Some parent_info => Ok (u32_saturating_succ (sti_sidechain_height parent_info)) end
    | None => Ok 0 end = Ok h) as [h ->].
  { destruct (hd_prev_side_hash header) as [p|]; [|by eexists]. destruct (Hparent p eq_refl) as [i Hi].
    rewrite Hi. by eexists. }
  cbn [mbind result_bind]. destruct (sd_sidechain_tips (ar_side_tips a) !! b); eexists; (split; [done|]); by eexists.
Qed.

Lemma connect_results_total b header l : forall acc,
  connecting acc.1 -> (forall m r, (m, r) ∈ l -> r = Bmm_Verified -> is_Some (ar_main_header_infos acc.1 !! m)) ->
  exists acc', fold_res (connect_result mt b header) l acc = Ok acc'.
Proof.
  induction l as [|[m r] l IH]; intros acc Hc Hl; [by eexists|]. cbn [fold_res].
  destruct (connect_result_total b header acc m r Hc) as (acc1 & -> & Hs); [apply Hl, list_elem_of_here|].
  cbn [mbind result_bind]. apply IH; [by eapply connecting_same|]. intros m' r' Hin Hr.
  destruct Hs as [t Ht]. rewrite Ht. by apply (Hl m' r' (list_elem_of_further _ _ _ Hin)).
Qed.

(** A block that is connected brings its successors to the queue. *)
Lemma update_side_tips_total b header a :
  connecting a -> ar_headers a !! b = Some header ->
  exists a' q, update_side_tips mt b header a = Ok (a', q) /\ NoDup q /\
    forall c, c ∈ q -> exists h, ar_headers a !! c = Some h /\ hd_prev_side_hash h = Some b.
Proof.
  intros Hc Hh. unfold update_side_tips. pose proof (cg_full _ Hc) as Hf.
  destruct (connect_results_total b header (map_to_list (get_bmm_results a b)) (a, false)) as [[a' c] Hr]; [done| |].
  { intros m r Hin%elem_of_map_to_list ->. destruct (aw_verified _ (af_wf _ Hf) b m Hin) as (h & i & mh & Hb).
    eexists. apply Hb. }
  rewrite Hr. cbn [mbind result_bind]. pose proof (connect_results_same _ _ _ _ _ _ _ _ Hr) as [t Ht].
  destruct c; [|exists a', []; split_and!; [done|constructor|by intros ? ?%not_elem_of_nil]].
  destruct (af_successors _ Hf b header Hh) as [[s Hs] _].
  assert (get_successors a' (Some b) = Ok s) as ->.
  { unfold get_successors. rewrite Ht. cbn. by rewrite Hs. }
  exists a', (elements s). split_and!; [done|apply NoDup_elements|]. intros x Hx%elem_of_elements.
  by apply (af_exact _ Hf b s).
Qed.

Section loop.
Context (headers : gmap BlockHash Header) (b : BlockHash).

(** The blocks that the loop has seen, and those that are left: each is the child of the first block or of
    one that was seen, so that none comes twice. *)
Record seen_once (vis q : list BlockHash) : Prop := {
  so_nodup : NoDup (vis ++ q);
  so_first : b ∉ vis ++ q;
  so_parent c : c ∈ vis ++ q -> exists h p, headers !! c = Some h /\ hd_prev_side_hash h = Some p /\ (p = b \/ p ∈ vis);
}.

Lemma seen_once_length vis q : seen_once vis q -> (length vis + length q <= size headers)%nat.
Proof.
  intros [Hnd _ Hp]. rewrite <-length_app, <-size_dom, <-(size_list_to_set (C := gset BlockHash) _ Hnd).
  apply subseteq_size. intros c Hc%elem_of_list_to_set. destruct (Hp c Hc) as (h & p & Hh & _).
  apply elem_of_dom. by eexists.
Qed.

Lemma seen_once_skip vis c q : seen_once vis (c :: q) -> seen_once (vis ++ [c]) q.
Proof.
  intros [Hnd Hf Hp]. split; rewrite <-?app_assoc; [done|done|]. intros x Hx.
  assert (x ∈ vis ++ c :: q) as Hx' by set_solver. destruct (Hp x Hx') as (h & p & Hh & Hpp & Hor). exists h, p.
  split_and!; [done|done|]. destruct Hor; [by left|right; set_solver].
Qed.

(** No block is its own grandchild: the parent of the first block is not among the others. *)
Lemma seen_once_next vis c q successors :
  seen_once vis (c :: q) -> NoDup successors ->
  (forall x, x ∈ successors -> exists h, headers !! x = Some h /\ hd_prev_side_hash h = Some c) ->
  b ∉ successors -> seen_once (vis ++ [c]) (q ++ successors).
Proof.
  intros Hs Hnds Hsucc Hb. pose proof (seen_once_skip _ _ _ Hs) as [Hnd Hf Hp].
  split.
  - rewrite app_assoc. apply NoDup_app. split_and!; [done| |done]. intros x Hx Hxs.
    destruct (Hsucc x Hxs) as (h & Hh & Hc).
    destruct (so_parent _ _ Hs x) as (h' & p & Hh' & Hp' & Hor).
    { set_solver. }
    rewrite Hh in Hh'. injection Hh' as <-. rewrite Hc in Hp'. injection Hp' as <-.
    destruct Hor as [->|Hin].
    + apply (so_first _ _ Hs). set_solver.
    + apply (so_nodup _ _) , NoDup_app in Hs as (_ & Hdis & _). apply (Hdis c Hin). set_solver.
  - rewrite app_assoc. intros [?|?]%elem_of_app; done.
  - intros x. rewrite app_assoc. intros [Hx|Hx]%elem_of_app.
    + destruct (Hp x Hx) as (h & p & ?). eauto.
    + destruct (Hsucc x Hx) as (h & Hh & Hc). exists h, c. split_and!; [done|done|right; set_solver].
Qed.

(** The blocks of the loop are higher than the first one. *)
Definition higher (a : Archive) (kb : u32) (l : list BlockHash) : Prop :=
  forall c, c ∈ l -> exists k, archive_try_get_height a c = Some k /\ kb < k.

Lemma child_height a c x h k :
  index_wf (side_index a) -> ar_headers a !! x = Some h -> hd_prev_side_hash h = Some c ->
  archive_try_get_height a c = Some k -> archive_try_get_height a x = Some (k + 1).
Proof.
  intros Hw Hx Hp Hk. destruct (iw_dom _ Hw x) as [[kx Hkx] _]; [cbn; rewrite lookup_fmap, Hx; by eexists|].
  destruct (ancestor_at_height (index_tree _ Hw) 1 x kx c Hkx) as [Hle Hc].
  { cbn [ancestor_at]. unfold ix_parent. cbn. rewrite lookup_fmap, Hx. cbn. by rewrite Hp. }
  unfold ix_height in Hc. cbn in Hc, Hkx. unfold archive_try_get_height in *. rewrite Hk in Hc. injection Hc as ->.
  rewrite Hkx. f_equal. lia.
Qed.

Lemma update_loop_total kb fuel : forall vis q a,
  connecting a -> ar_headers a = headers -> archive_try_get_height a b = Some kb ->
  seen_once vis q -> higher a kb (vis ++ q) -> (size headers <= length vis + fuel)%nat ->
  exists a', update_side_tips_loop fuel mt q a = Ok a'.
Proof.
  induction fuel as [|fuel IH]; intros vis [|c q] a Hc Hh Hkb Hs Hk Hfuel; cbn [update_side_tips_loop]; try by eexists.
  { pose proof (seen_once_length _ _ Hs) as Hlen. cbn in Hlen. lia. }
  assert (higher a kb ((vis ++ [c]) ++ q)) as Hk' by (intros x Hx; apply Hk; set_solver).
  assert (size headers <= length (vis ++ [c]) + fuel)%nat as Hf' by (rewrite length_app; cbn; lia).
  destruct (contains_body a c); cbn [negb]; [|by apply (IH (vis ++ [c])); [..|apply seen_once_skip| |]].
  destruct (so_parent _ _ Hs c) as (h & p & Hch & Hp & _); [set_solver|]. rewrite <-Hh in Hch.
  unfold get_header. rewrite Hch. cbn [ok_or mbind result_bind].
  destruct (update_side_tips_total c h a Hc Hch) as (a1 & succ & Hu & Hnd & Hsucc). rewrite Hu. cbn [mbind result_bind].
  pose proof (update_side_tips_same _ _ _ _ _ _ Hu) as Hsame. pose proof Hsame as [t Ht].
  destruct (Hk c) as (kc & Hkc & Hlt); [set_solver|]. pose proof (aw_side _ (af_wf _ (cg_full _ Hc))) as Hw.
  assert (forall x, x ∈ succ -> archive_try_get_height a x = Some (kc + 1)) as Hkx.
  { intros x (hx & Hx & Hpx)%Hsucc. by eapply child_height. }
  apply (IH (vis ++ [c])); [by eapply connecting_same|by rewrite Ht|by rewrite Ht| | |done].
  - apply seen_once_next; [done|done|by rewrite <-Hh|]. intros Hb%Hkx. rewrite Hkb in Hb. injection Hb as ->. lia.
  - rewrite Ht. rewrite app_assoc. intros x [Hx|Hx]%elem_of_app; [by apply Hk'|].
    exists (kc + 1). split; [by apply Hkx|lia].
Qed.
End loop.
End connecting.

Lemma put_body_total `{Externals} a b body :
  archive_full a -> is_Some (ar_main_header_infos a !! main_tip_block_hash (sd_mainchain_tip (ar_side_tips a))) ->
  is_Some (ar_headers a !! b) -> exists a', put_body a b body = Ok a'.
Proof.
  intros Hf Hm [header Hh]. unfold put_body, get_header. rewrite Hh. cbn [ok_or mbind result_bind].
  fold (body_stored a b body). destruct (body_stored_frame a b body) as [f Hs]. rewrite Hs. set (a0 := put_inclusions _ _).
  set (mt := main_tip_block_hash _) in *.
  assert (connecting mt a0) as Hc by (split; [by eapply full_same; [..|exact Hf]|done]).
  destruct (update_side_tips_total mt b header a0 Hc Hh) as (a1 & q & Hu & Hnd & Hq). rewrite Hu. cbn [mbind result_bind].
  pose proof (update_side_tips_same _ _ _ _ _ _ Hu) as Hsame. pose proof Hsame as [t Ht].
  pose proof (aw_side _ (af_wf _ Hf)) as Hw.
  destruct (iw_dom _ Hw b) as [[kb Hkb] _]; [cbn; rewrite lookup_fmap, Hh; by eexists|]. cbn in Hkb.
  assert (forall x, x ∈ q -> archive_try_get_height a0 x = Some (kb + 1)) as Hkx.
  { intros x (hx & Hx & Hpx)%Hq. eapply (child_height a0); [exact Hw|done|done|exact Hkb]. }
  apply (update_loop_total mt (ar_headers a0) b kb _ []); [by eapply connecting_same|by rewrite Ht|by rewrite Ht| | |].
  - split; [done| |].
    + intros Hb%Hkx. unfold archive_try_get_height in Hb. cbn in Hb. rewrite Hkb in Hb. injection Hb as ?. lia.
    + intros c (h & Hch & Hp)%Hq. exists h, b. by split_and!; [| |left].
  - rewrite Ht. intros x Hx. exists (kb + 1). split; [by apply Hkx|lia].
  - rewrite Ht. cbn. lia.
Qed.
