(* ===== verification/MainchainRun.v ===== *)
(** * The mainchain task as it runs

    [src/lib/node/mainchain_task.rs]: the task with its client, its channels and the progress that
    it shows. It subscribes to the events of the mainchain node, fetches and stores the blocks that
    are missing, brings the side tips to the mainchain's tip, and then handles events and
    requests; when it stops it is started again. What it does to the archive is in [MainchainTask]. *)

From S2P Require Import Prelude Types Transaction Merkle Sample SideTips Lineage Archive.
From S2P Require Import ArchiveTree ArchiveWf ArchiveBodies TipsWf ArchiveQueries ArchiveIter.
From S2P Require Import MainchainTask Encodings Proto NetTask PeerSync BodyTotal.

(** ** The progress of the start-up *)

Inductive MainchainSyncPhase : Type := Phase_Idle | Phase_Headers | Phase_Writing | Phase_State.
Record MainchainSyncProgress : Type := mkProgress {
  sp_phase : MainchainSyncPhase;
  sp_done : u32;
  sp_total : u32;
  sp_tip_height : u32;
}.
Definition progress_default : MainchainSyncProgress := mkProgress Phase_Idle 0 0 0.

(** [SyncProgress]: what each operation writes to the shared cell *)
Definition fetched_headers (tip_height : u32) (next_height : option u32) (_ : MainchainSyncProgress)
  : MainchainSyncProgress :=
  mkProgress Phase_Headers (u32_sub tip_height (default 0 next_height)) tip_height tip_height.
Definition start_writing (tip_height total : u32) (_ : MainchainSyncProgress) : MainchainSyncProgress :=
  mkProgress Phase_Writing 0 total tip_height.
Definition wrote_headers (headers : u32) (p : MainchainSyncProgress) : MainchainSyncProgress :=
  mkProgress (sp_phase p) (u32_add (sp_done p) headers) (sp_total p) (sp_tip_height p).
Definition start_state (tip_height total : u32) (_ : MainchainSyncProgress) : MainchainSyncProgress :=
  mkProgress Phase_State 0 total tip_height.
Definition progress_connected (blocks : u32) (p : MainchainSyncProgress) : MainchainSyncProgress :=
  mkProgress (sp_phase p) (u32_add (sp_done p) blocks) (sp_total p) (sp_tip_height p).
Definition set_idle (_ : MainchainSyncProgress) : MainchainSyncProgress := progress_default.

(** ** State *)

(** [Event] *)
Inductive TaskEvent : Type :=
| TaskEvent_Block (event : MainchainBlockEvent)
| TaskEvent_Response (response : MainchainResponse).

(** The fields of [MainchainTask] and the world of its client. The cell of the progress is read by others at any
    time: [tk_seen] has every value it had, oldest first. [tk_events] is what was sent on [event_tx], [tk_listening] whether
    its receiver is there; a oneshot sender has a number, [tk_answers] has what was sent on it, and [tk_dropped] those
    whose receiver is gone. *)
Record MainchainTask (W : Type) : Type := mkMainchainTask {
  tk_world : W;
  tk_archive : Archive;
  tk_progress : MainchainSyncProgress;
  tk_seen : list MainchainSyncProgress;
  tk_events : list TaskEvent;
  tk_listening : bool;
  tk_answers : gmap N MainchainResponse;
  tk_dropped : gset N;
}.
Arguments mkMainchainTask {W} _ _ _ _ _ _ _ _.
Arguments tk_world {W} _.
Arguments tk_archive {W} _.
Arguments tk_progress {W} _.
Arguments tk_seen {W} _.
Arguments tk_events {W} _.
Arguments tk_listening {W} _.
Arguments tk_answers {W} _.
Arguments tk_dropped {W} _.

(** The errors of [node/error.rs], but for those of the database environment *)
Inductive RequestAncestorInfosError `{ProtoExternals} : Type :=
| RequestInfos_Archive (e : ArchiveError)
| RequestInfos_Mainchain (e : ProtoError).
Inductive SyncSideTipsToTipError : Type :=
| SyncTips_Archive (e : ArchiveError)
| SyncTips_SendEvent.
Inductive HandleBlockEventError : Type :=
| BlockEvent_Archive (e : ArchiveError)
| BlockEvent_SendEvent.
Inductive MainchainTaskError `{ProtoExternals} : Type :=
| Task_AncestorInfoUnavailable (tip : MainBlockHash)
| Task_HandleBlockEvent (e : HandleBlockEventError)
| Task_Mainchain (e : ProtoError)
| Task_RequestAncestorInfos (tip : MainBlockHash) (e : RequestAncestorInfosError)
| Task_SendEvent
| Task_SendResponseOneshot
| Task_SyncSideTipsToTip (tip : MainBlockHash) (e : SyncSideTipsToTipError).

Section state.
Context {W : Type}.
Implicit Types (t : MainchainTask W).

Definition put_world (w : W) t : MainchainTask W :=
  mkMainchainTask w (tk_archive t) (tk_progress t) (tk_seen t) (tk_events t) (tk_listening t) (tk_answers t) (tk_dropped t).
(** A write transaction that is committed *)
Definition commit (a : Archive) t : MainchainTask W :=
  mkMainchainTask (tk_world t) a (tk_progress t) (tk_seen t) (tk_events t) (tk_listening t) (tk_answers t) (tk_dropped t).
Definition show_progress (f : MainchainSyncProgress -> MainchainSyncProgress) t : MainchainTask W :=
  mkMainchainTask (tk_world t) (tk_archive t) (f (tk_progress t)) (tk_seen t ++ [f (tk_progress t)]) (tk_events t)
    (tk_listening t) (tk_answers t) (tk_dropped t).
Definition push_event (e : TaskEvent) t : MainchainTask W :=
  mkMainchainTask (tk_world t) (tk_archive t) (tk_progress t) (tk_seen t) (tk_events t ++ [e]) (tk_listening t)
    (tk_answers t) (tk_dropped t).
Definition push_answer (tx : N) (response : MainchainResponse) t : MainchainTask W :=
  mkMainchainTask (tk_world t) (tk_archive t) (tk_progress t) (tk_seen t) (tk_events t) (tk_listening t)
    (<[tx := response]> (tk_answers t)) (tk_dropped t).

Definition progress {E} (f : MainchainSyncProgress -> MainchainSyncProgress) : op (MainchainTask W) E unit :=
  writing (show_progress f).
(** [event_tx.unbounded_send(event)] *)
Definition send_event {E} (err : E) (e : TaskEvent) : op (MainchainTask W) E unit :=
  _ ← reading (fun t => ensure (tk_listening t) err); writing (push_event e).
Fixpoint send_events {E} (err : E) (events : list MainchainBlockEvent) : op (MainchainTask W) E unit :=
  match events with
  | [] => mret tt
  | event :: events => _ ← send_event err (TaskEvent_Block event); send_events err events
  end.
(** A call of the client *)
Definition calling {E F A} (err : E -> F) (c : op W E A) : op (MainchainTask W) F A := zoom tk_world put_world err c.
End state.

(** [u32::checked_sub] *)
Definition u32_checked_sub (a b : u32) : option u32 := if b <=? a then Some (a - b) else None.

(** ** The task *)

Section task.
Context `{EncodingExternals, ProtoExternals, WorkExternals} {W : Type} `{!MainchainServices W}.
Notation task E A := (op (MainchainTask W) E A).

(** [tokio::select!], biased: whether an event, or the end of the stream, comes before the answer of the other call *)
Class EventRace : Type := event_first : EventStream -> W -> bool * W.

(** The [loop]: until no event comes between two answers with the same tip *)
Fixpoint subscribe_block_events `{!EventRace} (fuel : nat) : grpc W (MainBlockHash * EventStream) :=
  match fuel with
  | O => lifted Panic
  | S fuel =>
      chain_tip ← get_chain_tip;
      events ← subscribe_events;
      first ← (fun w => let '(first, w) := event_first events w in (Ok first, w));
      if (first : bool) then subscribe_block_events fuel
      else
        new_chain_tip ← get_chain_tip;
        if bhi_block_hash chain_tip =? bhi_block_hash new_chain_tip
        then mret (bhi_block_hash chain_tip, events)
        else subscribe_block_events fuel
  end.

Fixpoint fetch_infos (fuel : nat) (current_block_hash : MainBlockHash) (block_infos : list (BlockHeaderInfo * BlockInfo))
  : task RequestAncestorInfosError (option (list (BlockHeaderInfo * BlockInfo))) :=
  match fuel with
  | O => lifted Panic
  | S fuel =>
      resp ← calling RequestInfos_Mainchain (get_block_infos current_block_hash (BATCH_REQUEST_SIZE - 1));
      match resp with
      | None => mret None
      | Some block_infos_resp =>
          current ← lifted (expect (last block_infos_resp));
          let current_block_hash := bhi_prev_block_hash current.1 in
          let current_height := u32_checked_sub (bhi_height current.1) 1 in
          let block_infos := block_infos ++ block_infos_resp in
          first ← lifted (expect (head block_infos));
          _ ← progress (fetched_headers (bhi_height first.1) current_height);
          known ← reading (fun t => Ok (main_known (tk_archive t) current_block_hash));
          if (known : bool) then mret (Some block_infos)
          else fetch_infos fuel current_block_hash block_infos
      end
  end.

(** The writes of one transaction, each shown in the progress *)
Fixpoint write_infos (block_infos : list (BlockHeaderInfo * BlockInfo)) (a : Archive)
  : task RequestAncestorInfosError Archive :=
  match block_infos with
  | [] => mret a
  | infos :: block_infos =>
      a ← lifted (map_err RequestInfos_Archive (store_infos a infos));
      _ ← progress (wrote_headers 1);
      write_infos block_infos a
  end.

Definition request_infos (fuel : nat) (block_hash : MainBlockHash) : task RequestAncestorInfosError bool :=
  known ← reading (fun t => Ok (main_known (tk_archive t) block_hash));
  if (known : bool) then mret true
  else
    fetched ← fetch_infos fuel block_hash [];
    match fetched with
    | None => mret false
    | Some block_infos =>
        first ← lifted (expect (head block_infos));
        let tip_height := bhi_height first.1 in
        _ ← progress (start_writing tip_height (N.of_nat (length block_infos) mod 2 ^ 32));
        a ← reading (fun t => Ok (tk_archive t));
        a ← write_infos (reverse block_infos) a;
        _ ← writing (commit a);
        mret true
    end.

(** The second loop of [sync_side_tips_to_tip], a batch each turn *)
Fixpoint connect_batches (fuel : nat) (mainchain_tip : MainBlockHash)
    (acc : Archive * option BlockHeaderInfo * list MainchainBlockEvent)
  : task SyncSideTipsToTipError (Archive * option BlockHeaderInfo * list MainchainBlockEvent) :=
  let '(a, side_tips_tip_info, _) := acc in
  if extract_tip side_tips_tip_info =? mainchain_tip then mret acc
  else
    match fuel with
    | O => lifted Panic
    | S fuel =>
        let start_height :=
          match side_tips_tip_info with None => 0 | Some info => u32_add (bhi_height info) 1 end in
        main_header_infos ← lifted (map_err SyncTips_Archive (main_rev_take BATCH_SIZE a mainchain_tip start_height));
        acc ← lifted (map_err SyncTips_Archive (fold_res sync_connect main_header_infos acc));
        _ ← progress (progress_connected (N.of_nat (length main_header_infos) mod 2 ^ 32));
        connect_batches fuel mainchain_tip acc
    end.

Definition sync_to_tip (mainchain_tip : MainBlockHash) : task SyncSideTipsToTipError unit :=
  '(a, side_tips_tip_info, events) ← reading (fun t =>
     map_err SyncTips_Archive (disconnect_to_common (tk_archive t) mainchain_tip));
  _ ← match ar_main_header_infos a !! mainchain_tip with
      | Some tip_info =>
          let start_height :=
            match side_tips_tip_info with None => 0 | Some info => u32_add (bhi_height info) 1 end in
          progress (start_state (bhi_height tip_info) (u32_sub (u32_add (bhi_height tip_info) 1) start_height))
      | None => mret tt
      end;
  '(a, _, events) ← connect_batches (sync_fuel a mainchain_tip) mainchain_tip (a, side_tips_tip_info, events);
  _ ← writing (commit a);
  send_events SyncTips_SendEvent events.

(** [handle_block_event], with the commit and the event that is passed on *)
Definition follow_block_event (event : MainchainBlockEvent) : task HandleBlockEventError unit :=
  a ← reading (fun t => map_err BlockEvent_Archive (handle_block_event (tk_archive t) event));
  _ ← writing (commit a);
  send_event BlockEvent_SendEvent (TaskEvent_Block event).

(** The result that a response carries *)
Definition response_result {E} (r : result E bool) : option bool := match r with Ok b => Some b | _ => None end.
Definition handle_request (fuel : nat) (request : MainchainRequest) (response_tx : option N)
  : task MainchainTaskError unit :=
  match request with
  | AncestorInfos main_block_hash => fun t =>
      match request_infos fuel main_block_hash t with
      | (Panic, t) => (Panic, t)
      | (res, t) =>
          let t := show_progress set_idle t in
          let response := Response_AncestorInfos main_block_hash (response_result res) in
          match response_tx with
          | Some tx =>
              if decide (tx ∈ tk_dropped t) then (Err Task_SendResponseOneshot, t)
              else (Ok tt, push_answer tx response t)
          | None => send_event Task_SendEvent (TaskEvent_Response response) t
          end
      end
  end.

Inductive MainchainMailboxItem : Type :=
| Mailbox_BlockEvent (event : result ProtoError MainchainBlockEvent)
| Mailbox_Request (request : MainchainRequest) (response_tx : option N).
Definition handle_item (fuel : nat) (item : MainchainMailboxItem) : task MainchainTaskError unit :=
  match item with
  | Mailbox_BlockEvent event =>
      event ← lifted (map_err Task_Mainchain event);
      zoom id (fun t _ => t) Task_HandleBlockEvent (follow_block_event event)
  | Mailbox_Request request response_tx => handle_request fuel request response_tx
  end.
(** [while let Some(item)]: the items of the two streams, as they come *)
Fixpoint handle_items (fuel : nat) (mailbox : list MainchainMailboxItem) : task MainchainTaskError unit :=
  match mailbox with
  | [] => mret tt
  | item :: mailbox => _ ← handle_item fuel item; handle_items fuel mailbox
  end.

(** [run_once] up to the mailbox *)
Definition start_up `{!EventRace} (fuel : nat) : task MainchainTaskError (MainBlockHash * EventStream) :=
  '(best_main_tip, events) ← calling Task_Mainchain (subscribe_block_events fuel);
  available ← zoom id (fun t _ => t) (Task_RequestAncestorInfos best_main_tip) (request_infos fuel best_main_tip);
  _ ← lifted (ensure available (Task_AncestorInfoUnavailable best_main_tip));
  _ ← zoom id (fun t _ => t) (Task_SyncSideTipsToTip best_main_tip) (sync_to_tip best_main_tip);
  _ ← progress set_idle;
  mret (best_main_tip, events).
Definition run_once `{!EventRace} (fuel : nat) (mailbox : list MainchainMailboxItem) : task MainchainTaskError unit :=
  _ ← start_up fuel; handle_items fuel mailbox.
(** [run]: the task is started again after it stops; the items that come each time *)
Fixpoint task_run `{!EventRace} (fuel : nat) (mailboxes : list (list MainchainMailboxItem)) (t : MainchainTask W) : MainchainTask W :=
  match mailboxes with
  | [] => t
  | mailbox :: mailboxes =>
      let t := (run_once fuel mailbox t).2 in
      task_run fuel mailboxes (show_progress set_idle t)
  end.
End task.
