(* ===== verification/MainchainSync.v ===== *)
(** * The mainchain task follows the mainchain

    [src/lib/node/mainchain_task.rs]: when the mainchain node answers with the blocks of its chain,
    the start of the task ends with all of them stored and the side tips at the tip of the chain, and the progress that it
    shows on the way never passes its total. *)

From S2P Require Import Prelude Types Transaction Merkle Sample SideTips Lineage Archive.
From S2P Require Import ArchiveTree ArchiveWf ArchiveBodies TipsWf ArchiveQueries ArchiveIter.
From S2P Require Import MainchainTask NetAddress Encodings Proto NetTask PeerSync BodyTotal MainchainRun.

(** ** Storing mainchain blocks succeeds *)

(** The tables of mainchain blocks are complete, and there is a header for every body. *)
Record main_complete (a : Archive) : Prop := {
  sy_ready : MainchainTask.main_ready a;
  sy_works : works_known a;
  sy_successors m : m = all_zeros \/ is_Some (ar_main_header_infos a !! m) -> is_Some (ar_main_successors a !! m);
  sy_bodies b : contains_body a b = true -> is_Some (ar_headers a !! b);
}.

(** A block whose parent is stored, itself new or stored already *)
Record storable_next (a : Archive) (hi : BlockHeaderInfo) (bi : BlockInfo) : Prop := {
  sn_hash : bhi_block_hash hi <> all_zeros;
  sn_same : ar_main_header_infos a !! bhi_block_hash hi = None \/
    ar_main_header_infos a !! bhi_block_hash hi = Some hi;
  sn_info : info_storable a (bhi_block_hash hi) bi;
  sn_parent : if bhi_prev_block_hash hi =? all_zeros then bhi_height hi = 0 else
    exists hp, ar_main_header_infos a !! bhi_prev_block_hash hi = Some hp /\ bhi_height hi = bhi_height hp + 1;
  sn_bound : bhi_height hi <= u32_MAX;
}.

Section store.
Context `{WorkExternals}.

Lemma main_exponential_total a a1 info k :
  archive_wf a -> insertable (main_index a) (bhi_block_hash info) (main_parent info) k ->
  ar_main_block_hash_to_height a1 = <[bhi_block_hash info := k]> (ar_main_block_hash_to_height a) ->
  ar_main_header_infos a1 = <[bhi_block_hash info := info]> (ar_main_header_infos a) ->
  ar_exponential_main_ancestors a1 = ar_exponential_main_ancestors a ->
  exists l, exponential_of (get_nth_main_ancestor a1) k (Some (bhi_prev_block_hash info)) = Ok l.
Proof.
  intros Hw Hi Hkh Hmh Hex. pose proof (aw_main _ Hw) as Hm.
  assert (forall b n k (c : N), ix_heights (main_index a) !! b = Some k ->
    ancestor_at (ix_parent (main_index a)) (N.to_nat n) b = Some c -> get_nth_main_ancestor a1 b n = Ok c) as Hnth.
  { intros b n kb c. apply reads_nth; [done|]. apply main_reads; cbn; [rewrite Hkh|rewrite Hmh, fmap_insert|by rewrite Hex].
    - apply insert_subseteq_same. by apply (insertable_height _ _ _ _ Hm Hi).
    - apply insert_subseteq_same. apply (in_same _ _ _ _ Hi). }
  unfold main_parent in Hi. destruct (N.eqb_spec (bhi_prev_block_hash info) all_zeros) as [Hz|Hz].
  - rewrite (in_root _ _ _ _ Hi eq_refl). by exists [].
  - destruct (in_parent _ _ _ _ Hi _ eq_refl) as (k' & Hk' & ->).
    destruct (exponential_of_Ok _ _ Hm Hnth _ k' Hk' (in_bound _ _ _ _ Hi)) as (l & Hl & _). by exists l.
Qed.

(** What storing the header of a block leaves *)
Lemma put_main_header_info_total a hi bi :
  main_complete a -> storable_next a hi bi -> exists a',
    put_main_header_info a hi = Ok a' /\ archive_wf a' /\ works_known a' /\
    (forall m, m = all_zeros \/ is_Some (ar_main_header_infos a' !! m) -> is_Some (ar_main_successors a' !! m)) /\
    ar_main_header_infos a' = <[bhi_block_hash hi := hi]> (ar_main_header_infos a) /\
    ar_main_block_hash_to_height a' = <[bhi_block_hash hi := bhi_height hi]> (ar_main_block_hash_to_height a) /\
    ar_main_block_infos a' = ar_main_block_infos a /\ ar_headers a' = ar_headers a /\ ar_bodies a' = ar_bodies a /\
    ar_bmm_results a' = ar_bmm_results a /\ ar_side_tips a' = ar_side_tips a.
Proof.
  intros [Hr Hwk Hsu _] [Hz Hs _ Hp Hbd]. pose proof (mr_wf _ Hr) as Hw.
  assert (exists k, (if bhi_prev_block_hash hi =? all_zeros then Ok 0
    else prev_height ← get_main_height a (bhi_prev_block_hash hi); Ok (u32_add prev_height 1)) = Ok k /\
    k = bhi_height hi /\ main_header_storable a hi /\
    (if bhi_prev_block_hash hi =? all_zeros then k = 0 else
      exists kp, ar_main_block_hash_to_height a !! bhi_prev_block_hash hi = Some kp /\ k = u32_add kp 1)) as (k & Hk & Hkh & Hst & Hk').
  { destruct (N.eqb_spec (bhi_prev_block_hash hi) all_zeros) as [Hpz|Hpz].
    - exists 0. split_and!; [done|done| |done]. split; [done|]. intros kp. rewrite Hpz.
      intros Hkp. destruct (main_known_info a Hr all_zeros kp Hkp) as (x & Hx & _).
      by apply (mr_info _ Hr) in Hx as [? _].
    - destruct Hp as (hp & Hhp & Hh). destruct (mr_info _ Hr _ _ Hhp) as (_ & _ & Hkp & _).
      unfold get_main_height. rewrite Hkp. cbn [ok_or mbind result_bind]. rewrite u32_add_small by lia.
      exists (bhi_height hp + 1). split_and!; [done|done| |].
      + split; [done|]. intros kp. rewrite Hkp. intros [= <-]. lia.
      + exists (bhi_height hp). split; [done|]. rewrite u32_add_small; lia. }
  pose proof (main_insertable _ _ _ (aw_main _ Hw) Hst Hk') as Hi.
  assert (bool_decide (is_Some (ar_main_header_infos a !! bhi_prev_block_hash hi)) ||
    (bhi_prev_block_hash hi =? all_zeros) = true) as Hknown.
  { destruct (bhi_prev_block_hash hi =? all_zeros); [by rewrite orb_true_r|]. destruct Hp as (hp & Hhp & _).
    rewrite orb_false_r. apply bool_decide_eq_true. by eexists. }
  assert (exists w, (if negb (bhi_prev_block_hash hi =? all_zeros) then
      prev_work ← get_total_work a (bhi_prev_block_hash hi); Ok (work_add prev_work (bhi_work hi))
    else Ok (bhi_work hi)) = Ok w) as [w Hw'].
  { destruct (bhi_prev_block_hash hi =? all_zeros); [by eexists|]. cbn [negb]. destruct Hp as (hp & Hhp & _).
    destruct (Hwk (bhi_prev_block_hash hi)) as [pw Hpw]; [by eexists|]. unfold get_total_work. rewrite Hpw. by eexists. }
  destruct (Hsu (bhi_prev_block_hash hi)) as [ps Hps].
  { destruct (N.eqb_spec (bhi_prev_block_hash hi) all_zeros); [by left|]. destruct Hp as (hp & Hhp & _). right. by eexists. }
  assert (exists a', put_main_header_info a hi = Ok a') as [a' Ha'].
  { unfold put_main_header_info. rewrite Hknown, Hk, Hw'. cbn [ensure mbind result_bind].
    unfold get_main_successors. cbn [ar_main_successors put_total_work put_main_header_infos put_main_heights].
    rewrite Hps. cbn [ok_or mbind result_bind].
    match goal with |- context [exponential_of (get_nth_main_ancestor ?x)] =>
      destruct (main_exponential_total a x hi k Hw Hi) as [l ->]; [done..|] end. by eexists. }
  exists a'. pose proof (put_main_header_info_wf _ _ _ Hw Hst Ha') as Hw1. split; [done|]. split; [done|].
  unfold put_main_header_info in Ha'. rewrite Hknown, Hk, Hw' in Ha'. cbn [ensure mbind result_bind] in Ha'.
  unfold get_main_successors in Ha'. cbn [ar_main_successors put_total_work put_main_header_infos put_main_heights] in Ha'.
  rewrite Hps in Ha'. cbn [ok_or mbind result_bind] in Ha'. apply bind_Ok in Ha' as (l & _ & [= <-]).
  split_and!; try done; cbn.
  - intros m. cbn. destruct (decide (bhi_block_hash hi = m)) as [<-|Hne].
    + rewrite !lookup_insert_eq. by intros _; eexists.
    + rewrite !lookup_insert_ne by done. apply Hwk.
  - intros m Hm. destruct (decide (bhi_block_hash hi = m)) as [<-|Hne]; [rewrite lookup_insert_eq; by eexists|].
    rewrite lookup_insert_ne by done. destruct (decide (bhi_prev_block_hash hi = m)) as [<-|Hne'];
      [rewrite lookup_insert_eq; by eexists|]. rewrite lookup_insert_ne by done. apply Hsu.
    rewrite lookup_insert_ne in Hm by done. done.
  - by rewrite Hkh.
Qed.

(** Storing the information of a block whose header and whose parent's information are stored *)
Lemma put_main_block_info_total a hi bi :
  archive_wf a -> ar_main_header_infos a !! bhi_block_hash hi = Some hi ->
  (bhi_prev_block_hash hi <> all_zeros -> is_Some (ar_main_block_infos a !! bhi_prev_block_hash hi)) ->
  exists a', put_main_block_info a (bhi_block_hash hi) bi = Ok a' /\
    ar_main_block_hash_to_height a' = ar_main_block_hash_to_height a /\ ar_total_work a' = ar_total_work a /\
    ar_main_successors a' = ar_main_successors a /\ ar_headers a' = ar_headers a /\
    (forall b m, is_Some (get_bmm_results a b !! m) -> is_Some (get_bmm_results a' b !! m)) /\
    forall side, bi_bmm_commitment bi = Some side -> is_Some (ar_headers a !! side) ->
      is_Some (get_bmm_results a' side !! bhi_block_hash hi).
Proof.
  intros Hw Hm Hpar. set (m := bhi_block_hash hi) in *. set (a1 := put_main_block_infos <[m := bi]> a).
  unfold put_main_block_info, get_main_header_info. rewrite Hm. cbn [ok_or mbind result_bind].
  assert ((if negb (bhi_prev_block_hash hi =? all_zeros)
    then _ ← get_main_block_info a (bhi_prev_block_hash hi); Ok tt else Ok tt) = Ok tt) as ->.
  { destruct (N.eqb_spec (bhi_prev_block_hash hi) all_zeros) as [|Hz]; [done|].
    destruct (Hpar Hz) as [bp Hbp]. cbn [negb]. unfold get_main_block_info. by rewrite Hbp. }
  cbn [mbind result_bind]. fold a1. destruct (bi_bmm_commitment bi) as [c|]; [|exists a1; split_and!; try done].
  change (ar_headers a1) with (ar_headers a). destruct (ar_headers a !! c) as [h|] eqn:Hc.
  2: { exists a1. split_and!; try done. intros side [= <-]. rewrite Hc. by intros []. }
  assert (exists r, (if negb (hd_prev_main_hash h =? bhi_prev_block_hash hi) then Ok Bmm_Failed
    else match hd_prev_side_hash h with
      | Some parent => verified ← any_verified_ancestor a1 (map_to_list (get_bmm_results a1 parent)) m;
          Ok (bmm_result_of verified)
      | None => Ok Bmm_Verified end) = Ok r) as [r ->].
  { destruct (negb _); [by eexists|]. destruct (hd_prev_side_hash h) as [p|]; [|by eexists].
    destruct (any_verified_ancestor_total a1 (map_to_list (get_bmm_results a1 p)) m (aw_main _ Hw)) as [r ->];
      [by eexists| |by eexists].
    intros m' r Hin%elem_of_map_to_list ->. destruct (aw_verified _ Hw p m' Hin) as (? & ? & mh' & Hbk).
    exists mh'. apply (bk_main_header _ _ _ _ _ _ Hbk). }
  cbn [mbind result_bind]. eexists. split_and!; [reflexivity|done..| |].
  - intros b m' Hb. rewrite lookup_results. case_decide as Heq; [subst c|done].
    destruct (decide (m = m')) as [<-|Hne]; [rewrite lookup_insert_eq; by eexists|by rewrite lookup_insert_ne].
  - intros side [= <-] _. rewrite lookup_results. case_decide; [|done]. rewrite lookup_insert_eq. by eexists.
Qed.

(** Storing a block succeeds and keeps the tables complete. *)
Lemma store_infos_total a hi bi :
  main_complete a -> storable_next a hi bi -> exists a',
    store_infos a (hi, bi) = Ok a' /\ main_complete a' /\
    ar_main_header_infos a' = <[bhi_block_hash hi := hi]> (ar_main_header_infos a) /\
    ar_main_block_infos a' = <[bhi_block_hash hi := bi]> (ar_main_block_infos a) /\ ar_side_tips a' = ar_side_tips a.
Proof.
  intros Hsy Hst. destruct (put_main_header_info_total a hi bi Hsy Hst)
    as (a1 & Hp & Hw1 & Hwk1 & Hsu1 & Hmh & Hkh & Hbi & Hhd & Hbd & Hbr & Hsd).
  destruct Hsy as [Hr Hwk Hsu Hbody]. destruct Hst as [Hz Hs Hinfo Hpar Hbound].
  assert (get_bmm_results a1 = get_bmm_results a) as Hres by (unfold get_bmm_results; by rewrite Hbr).
  destruct (put_main_block_info_total a1 hi bi Hw1) as (a' & Hput & Hk' & Hwk' & Hsu' & Hhd' & Hres' & Hcommit).
  { rewrite Hmh. apply lookup_insert_eq. }
  { intros Hpz. rewrite (proj2 (N.eqb_neq _ _) Hpz) in Hpar. destruct Hpar as (hp & Hhp & _).
    rewrite Hbi. by apply (mr_info _ Hr) in Hhp as (_ & _ & _ & ?). }
  rewrite Hres in Hres'. rewrite Hhd in Hcommit, Hhd'. set (m := bhi_block_hash hi) in *.
  assert (store_infos a (hi, bi) = Ok a') as Hstore by (unfold store_infos; cbn [fst snd]; fold m; by rewrite Hp).
  assert (info_storable a1 m bi) as Hinfo1 by (unfold info_storable; by rewrite Hbi).
  pose proof (put_main_block_info_wf _ _ _ _ Hw1 Hinfo1 Hput) as Hw'.
  destruct (store_infos_Ok _ _ _ _ Hstore) as (Hmh' & Hbi' & Hbd' & Hsd'). fold m in Hmh', Hbi'.
  exists a'. split_and!; [done| |done|done|done]. split.
  - split; [done| |].
    + intros m' info. rewrite Hmh', Hk', Hkh, Hbi'. destruct (decide (m = m')) as [<-|Hne].
      * rewrite !lookup_insert_eq. intros [= <-]. split_and!; [done|done|done|by eexists].
      * rewrite !lookup_insert_ne by done. apply (mr_info _ Hr).
    + intros m' info side Hm' Hc Hb. unfold contains_body in Hb. rewrite Hbd' in Hb. fold (contains_body a side) in Hb.
      rewrite Hhd'. split; [by apply Hbody|]. rewrite Hbi' in Hm'. destruct (decide (m = m')) as [<-|Hne].
      * rewrite lookup_insert_eq in Hm'. injection Hm' as <-. apply Hcommit; [done|by apply Hbody].
      * rewrite lookup_insert_ne in Hm' by done. apply Hres'. by apply (mr_commitment _ Hr m' info side).
  - intros m'. rewrite Hwk', Hmh', <-Hmh. apply Hwk1.
  - intros m'. rewrite Hsu', Hmh', <-Hmh. apply Hsu1.
  - intros b. unfold contains_body. rewrite Hbd', Hhd'. apply Hbody.
Qed.
End store.

(** ** The chain of the mainchain node *)

(** The blocks that the mainchain node knows, by hash *)
Definition MainBlocks : Type := MainBlockHash -> option (BlockHeaderInfo * BlockInfo).

(** Every block has its own hash and follows its parent, down to a first block; heights are those of a chain
    that could be mined. *)
Record blocks_ok (ch : MainBlocks) : Prop := {
  bo_hash m hi bi : ch m = Some (hi, bi) -> bhi_block_hash hi = m /\ m <> all_zeros;
  bo_parent m hi bi : ch m = Some (hi, bi) ->
    if bhi_prev_block_hash hi =? all_zeros then bhi_height hi = 0 else
    exists hp bp, ch (bhi_prev_block_hash hi) = Some (hp, bp) /\ bhi_height hi = bhi_height hp + 1;
  bo_bound m hi bi : ch m = Some (hi, bi) -> bhi_height hi < 2 ^ 31;
}.
(** A block and its ancestors, at most [n], newest first *)
Fixpoint blocks_from (ch : MainBlocks) (n : nat) (m : MainBlockHash) : list (BlockHeaderInfo * BlockInfo) :=
  match n with
  | O => []
  | S n =>
      match ch m with
      | None => []
      | Some b => b :: blocks_from ch n (bhi_prev_block_hash b.1)
      end
  end.
(** The mainchain node answers with the block that is asked for and the ancestors that are asked for, as far as there are. *)
Definition serves_chain `{EncodingExternals, ProtoExternals} {W} `{!MainchainServices W} (ch : MainBlocks) : Prop :=
  forall m n w, exists infos w',
    svc_get_block_info (request.mkGetBlockInfo (Some (ReverseHex_encode m)) (Some THIS_SIDECHAIN) (Some n)) w =
      (inr infos, w') /\
    map_res info_try_from infos = Ok (blocks_from ch (S (N.to_nat n)) m).
(** What is stored are blocks of the mainchain node. *)
Definition agrees (a : Archive) (ch : MainBlocks) : Prop := forall m hi,
  ar_main_header_infos a !! m = Some hi -> exists bi, ch m = Some (hi, bi) /\ ar_main_block_infos a !! m = Some bi.
(** A block's information is only stored with its header. *)
Definition infos_have_headers (a : Archive) : Prop := forall m,
  is_Some (ar_main_block_infos a !! m) -> is_Some (ar_main_header_infos a !! m).

Section blocks.
Context (ch : MainBlocks) (Hch : blocks_ok ch).

Lemma blocks_from_zero n : blocks_from ch n all_zeros = [].
Proof.
  destruct n as [|n]; [done|]. cbn [blocks_from]. destruct (ch all_zeros) as [[hi bi]|] eqn:Hz; [|done].
  by apply (bo_hash _ Hch) in Hz as [_ ?].
Qed.
Lemma blocks_from_linked n m : linked (blocks_from ch n m).*1.
Proof.
  destruct n as [|n]; [done|]. cbn [blocks_from]. destruct (ch m) as [b|]; [|done].
  rewrite fmap_cons. cbn [linked]. generalize (bhi_prev_block_hash b.1). clear m b.
  induction n as [|n IH]; intros m; [done|]. cbn [blocks_from]. destruct (ch m) as [[hi bi]|] eqn:Hm; [|done].
  rewrite fmap_cons. cbn [linked_below fst]. split; [by apply (bo_hash _ Hch) in Hm as [? _]|apply IH].
Qed.
(** The last block of a batch: the batch is full or ends with the first block. *)
Lemma blocks_from_last n : forall m hi bi, ch m = Some (hi, bi) ->
  exists lh li, last (blocks_from ch (S n) m) = Some (lh, li) /\ ch (bhi_block_hash lh) = Some (lh, li) /\
    (bhi_prev_block_hash lh = all_zeros \/
     length (blocks_from ch (S n) m) = S n /\ bhi_height hi = bhi_height lh + N.of_nat n).
Proof.
  induction n as [|n IH]; intros m hi bi Hm; pose proof (bo_hash _ Hch _ _ _ Hm) as [Hh _].
  { cbn [blocks_from]. rewrite Hm. exists hi, bi. rewrite Hh. split_and!; [done|done|]. right. split; [done|]. change (N.of_nat 0) with 0. lia. }
  change (blocks_from ch (S (S n)) m) with (match ch m with None => [] | Some b => b :: blocks_from ch (S n) (bhi_prev_block_hash b.1) end).
  rewrite Hm. cbn [fst]. pose proof (bo_parent _ Hch _ _ _ Hm) as Hp.
  destruct (N.eqb_spec (bhi_prev_block_hash hi) all_zeros) as [Hz|Hz].
  - exists hi, bi. rewrite Hz, blocks_from_zero, Hh. cbn. split_and!; [done|done|by left].
  - destruct Hp as (hp & bp & Hp & Hht). destruct (IH _ _ _ Hp) as (lh & li & Hl & Hc & Hd). exists lh, li.
    split_and!; [|done|].
    + rewrite last_cons, Hl. done.
    + destruct Hd as [?|[Hlen Hd]]; [by left|]. right. cbn [length]. rewrite Hlen. split; [done|lia].
Qed.
(** A full batch continues with the ancestors of its last block. *)
Lemma blocks_from_app n k : forall m lh li,
  length (blocks_from ch n m) = n -> last (blocks_from ch n m) = Some (lh, li) ->
  blocks_from ch n m ++ blocks_from ch k (bhi_prev_block_hash lh) = blocks_from ch (n + k) m.
Proof.
  induction n as [|n IH]; intros m lh li Hlen Hl; [done|]. cbn [blocks_from Nat.add] in *.
  destruct (ch m) as [[hi bi]|]; [|done]. cbn [length] in Hlen. injection Hlen as Hlen. cbn [app fst] in *. f_equal.
  destruct n as [|n]; [cbn in Hl; by injection Hl as -> ->|].
  rewrite last_cons in Hl. destruct (last (blocks_from ch (S n) (bhi_prev_block_hash hi))) as [[lh' li']|] eqn:Hl'.
  - injection Hl as -> ->. by eapply IH.
  - apply last_None in Hl'. rewrite Hl' in Hlen. done.
Qed.
Lemma blocks_from_length n m : (length (blocks_from ch n m) <= n)%nat.
Proof.
  revert m. induction n as [|n IH]; intros m; cbn [blocks_from]; [done|]. destruct (ch m) as [b|]; cbn [length]; [|lia].
  specialize (IH (bhi_prev_block_hash b.1)). lia.
Qed.
Lemma blocks_from_height n : forall m hi bi, ch m = Some (hi, bi) ->
  N.of_nat (length (blocks_from ch n m)) <= bhi_height hi + 1 /\
  forall lh li, last (blocks_from ch n m) = Some (lh, li) -> bhi_height lh <= bhi_height hi.
Proof.
  induction n as [|n IH]; intros m hi bi Hm; cbn [blocks_from];
    [split; [cbn [length]; lia|done]|]. rewrite Hm. cbn [fst length].
  pose proof (bo_parent _ Hch _ _ _ Hm) as Hp. destruct (N.eqb_spec (bhi_prev_block_hash hi) all_zeros) as [Hz|Hz].
  - rewrite Hz, blocks_from_zero. cbn [length last]. split; [lia|]. intros ?? [= <- <-]. lia.
  - destruct Hp as (hp & bp & Hp & Hht). destruct (IH _ _ _ Hp) as [IHl IHh]. split; [lia|]. intros lh li.
    rewrite last_cons. destruct (last (blocks_from ch n (bhi_prev_block_hash hi))) as [[lh' li']|] eqn:Hl.
    + intros [= -> ->]. specialize (IHh _ _ eq_refl). lia.
    + intros [= -> ->]. lia.
Qed.

Context `{EncodingExternals, ProtoExternals} {W : Type} `{!MainchainServices W} (Hserves : serves_chain (W := W) ch).
(** The client reads the answer of the mainchain node. *)
Lemma get_block_infos_served m n (w : W) hi bi :
  ch m = Some (hi, bi) -> exists w', get_block_infos m n w = (Ok (Some (blocks_from ch (S (N.to_nat n)) m)), w').
Proof.
  intros Hm. destruct (Hserves m n w) as (infos & w' & Hcall & Hread). exists w'. unfold get_block_infos.
  rewrite (op_step_Ok _ _ w infos w') by (unfold unary; by rewrite Hcall).
  rewrite (op_step_Ok _ _ w' (blocks_from ch (S (N.to_nat n)) m) w') by (unfold lifted; by rewrite Hread).
  pose proof (blocks_from_linked (S (N.to_nat n)) m) as Hl. revert Hl. cbn [blocks_from]. rewrite Hm. intros Hl.
  rewrite (op_step_Ok _ _ w' tt w'); [done|]. unfold lifted. f_equal. by apply check_sequential_Ok.
Qed.
End blocks.

(** ** Steps that only show progress *)

Definition progress_ok (p : MainchainSyncProgress) : Prop := sp_done p <= sp_total p.
(** Nothing but the world and the progress has changed, and no progress that was shown passed its total. *)
Definition only_shows {W} (t t' : MainchainTask W) : Prop :=
  tk_archive t' = tk_archive t /\ tk_events t' = tk_events t /\ tk_listening t' = tk_listening t /\
  tk_answers t' = tk_answers t /\ tk_dropped t' = tk_dropped t /\
  exists shown, tk_seen t' = tk_seen t ++ shown /\ Forall progress_ok shown.
#[export] Instance only_shows_preorder W : PreOrder (@only_shows W).
Proof.
  split.
  - intros t. split_and!; try done. exists []. by rewrite app_nil_r.
  - intros t1 t2 t3 (A1 & E1 & L1 & N1 & D1 & s1 & S1 & F1) (A2 & E2 & L2 & N2 & D2 & s2 & S2 & F2).
    split_and!; try congruence. exists (s1 ++ s2). rewrite S2, S1, app_assoc. split; [done|]. by apply Forall_app.
Qed.
Lemma only_shows_progress {W} (f : MainchainSyncProgress -> MainchainSyncProgress) (t : MainchainTask W) :
  progress_ok (f (tk_progress t)) -> only_shows t (show_progress f t).
Proof. intros Hp. split_and!; try done. exists [f (tk_progress t)]. split; [done|]. by constructor. Qed.
Lemma only_shows_world {W} (w : W) (t : MainchainTask W) : only_shows t (put_world w t).
Proof. split_and!; try done. exists []. by rewrite app_nil_r. Qed.
Lemma calling_step {W E F A} (err : E -> F) (c : op W E A) (t : MainchainTask W) a w' :
  c (tk_world t) = (Ok a, w') -> calling err c t = (Ok a, put_world w' t).
Proof. intros Hc. unfold calling, zoom. by rewrite Hc. Qed.
Lemma fetched_headers_ok tip_height (lh : BlockHeaderInfo) p :
  bhi_height lh <= tip_height -> tip_height <= u32_MAX ->
  progress_ok (fetched_headers tip_height (u32_checked_sub (bhi_height lh) 1) p).
Proof.
  intros Hl Ht. unfold progress_ok, fetched_headers, u32_checked_sub. cbn [sp_done sp_total].
  destruct (1 <=? bhi_height lh); cbn [default from_option id]; rewrite u32_sub_small by lia; lia.
Qed.

Lemma batch_fuel h h' fuel :
  h = h' + BATCH_REQUEST_SIZE -> (N.to_nat (h / BATCH_REQUEST_SIZE) < S fuel)%nat ->
  (N.to_nat (h' / BATCH_REQUEST_SIZE) < fuel)%nat.
Proof.
  intros ->. replace (h' + BATCH_REQUEST_SIZE) with (h' + 1 * BATCH_REQUEST_SIZE) by lia.
  rewrite N.div_add by done. generalize (h' / BATCH_REQUEST_SIZE). intros q. lia.
Qed.

Section follow.
Context `{EncodingExternals, ProtoExternals, WorkExternals} {W : Type} `{!MainchainServices W}.
Context (ch : MainBlocks) (Hch : blocks_ok ch) (Hserves : serves_chain (W := W) ch).
Implicit Types (t : MainchainTask W).

(** *** Fetching *)

Lemma fetch_infos_Ok fuel : forall m hi bi top th ti n acc t,
  ch m = Some (hi, bi) -> ch top = Some (th, ti) -> bhi_height hi <= bhi_height th ->
  (forall k, acc ++ blocks_from ch k m = blocks_from ch (n + k) top) ->
  (N.to_nat (bhi_height hi / BATCH_REQUEST_SIZE) < fuel)%nat ->
  exists n' t' lh li, fetch_infos fuel m acc t = (Ok (Some (blocks_from ch (S n') top)), t') /\ only_shows t t' /\
    last (blocks_from ch (S n') top) = Some (lh, li) /\ main_known (tk_archive t) (bhi_prev_block_hash lh) = true.
Proof.
  induction fuel as [|fuel IH]; intros m hi bi top th ti n acc t Hm Htop Hle Hacc Hf;
    [by apply Nat.nlt_0_r in Hf|]. cbn [fetch_infos].
  set (b := N.to_nat (BATCH_REQUEST_SIZE - 1)).
  destruct (get_block_infos_served ch Hch Hserves m (BATCH_REQUEST_SIZE - 1) (tk_world t) hi bi Hm) as [w' Hg]. fold b in Hg.
  rewrite (op_step_Ok _ _ t _ _ (calling_step RequestInfos_Mainchain _ t _ w' Hg)).
  set (t1 := put_world w' t). assert (only_shows t t1) as Ht1 by apply only_shows_world.
  destruct (blocks_from_last ch Hch b m hi bi Hm) as (lh & li & Hl & Hlh & Hfull).
  rewrite (op_step_Ok _ _ t1 (lh, li) t1) by (unfold lifted; by rewrite Hl). cbn [fst].
  assert (acc ++ blocks_from ch (S b) m = blocks_from ch (S (n + b)) top) as Heq
    by (rewrite Hacc; f_equal; lia). rewrite Heq.
  rewrite (op_step_Ok _ _ t1 (th, ti) t1) by (cbn [blocks_from]; by rewrite Htop). cbn [fst].
  assert (last (blocks_from ch (S (n + b)) top) = Some (lh, li)) as Hl' by (by rewrite <-Heq, last_app, Hl).
  set (f := fetched_headers (bhi_height th) (u32_checked_sub (bhi_height lh) 1)).
  rewrite (op_step_Ok _ _ t1 tt (show_progress f t1)) by done.
  assert (only_shows t (show_progress f t1)) as Ht2.
  { etransitivity; [exact Ht1|]. apply only_shows_progress, fetched_headers_ok.
    - apply (proj2 (blocks_from_height ch Hch (S (n + b)) top th ti Htop) lh li Hl').
    - apply (bo_bound _ Hch) in Htop. unfold u32_MAX. lia. }
  rewrite (op_step_Ok _ _ (show_progress f t1) (main_known (tk_archive t) (bhi_prev_block_hash lh)) (show_progress f t1)) by done.
  destruct (main_known (tk_archive t) (bhi_prev_block_hash lh)) eqn:Hk.
  { exists (n + b)%nat, (show_progress f t1), lh, li. by split_and!. }
  assert (bhi_prev_block_hash lh <> all_zeros) as Hpz by (intros Hz; unfold main_known in Hk; rewrite Hz in Hk; done).
  destruct Hfull as [?|[Hlen Hht]]; [done|].
  pose proof (bo_parent _ Hch _ _ _ Hlh) as Hp. rewrite (proj2 (N.eqb_neq _ _) Hpz) in Hp.
  destruct Hp as (hp & bp & Hp & Hhp).
  assert (bhi_height hi = bhi_height hp + BATCH_REQUEST_SIZE) as Hdrop by (unfold b, BATCH_REQUEST_SIZE in *; lia).
  destruct (IH (bhi_prev_block_hash lh) hp bp top th ti (S (n + b)) (blocks_from ch (S (n + b)) top) (show_progress f t1))
    as (n' & t' & lh' & li' & Hfe & Hs & Hlast & Hkn); [done|done|lia| | |].
  - intros k. rewrite <-Heq, <-app_assoc, (blocks_from_app ch (S b) k m lh li Hlen Hl), Hacc. f_equal. lia.
  - apply (batch_fuel _ _ _ Hdrop Hf).
  - exists n', t', lh', li'. split_and!; [done|by etransitivity|done|]. by destruct Ht2 as [<- _].
Qed.

(** *** Storing *)

(** The archive has blocks of the mainchain node only, and its tables are complete. *)
Record follows_chain (a : Archive) : Prop := {
  fo_synced : main_complete a;
  fo_agrees : agrees a ch;
  fo_infos : infos_have_headers a;
}.

Lemma follows_storable a m hi bi :
  follows_chain a -> ch m = Some (hi, bi) -> main_known a (bhi_prev_block_hash hi) = true -> storable_next a hi bi.
Proof.
  intros [Hsy Hag Hih] Hm Hk. destruct (bo_hash _ Hch _ _ _ Hm) as [Hh Hz]. subst m. split; [done|..].
  - destruct (ar_main_header_infos a !! bhi_block_hash hi) as [x|] eqn:Hx; [|by left].
    apply Hag in Hx as (y & Hx & _). right. congruence.
  - unfold info_storable. destruct (ar_main_block_infos a !! bhi_block_hash hi) as [x|] eqn:Hx; [|by left].
    destruct (Hih (bhi_block_hash hi)) as [y Hy]; [by eexists|]. apply Hag in Hy as (z & Hz' & Hz''). right. congruence.
  - pose proof (bo_parent _ Hch _ _ _ Hm) as Hp. destruct (bhi_prev_block_hash hi =? all_zeros) eqn:Hpz; [done|].
    destruct Hp as (hp & bp & Hp & Hht). unfold main_known in Hk. rewrite Hpz in Hk. cbn [orb] in Hk.
    apply bool_decide_eq_true in Hk as [x Hx]. pose proof Hx as (y & Hy & _)%Hag. exists x. split; [done|]. congruence.
  - apply (bo_bound _ Hch) in Hm. unfold u32_MAX. lia.
Qed.

Lemma store_block a m hi bi :
  follows_chain a -> ch m = Some (hi, bi) -> main_known a (bhi_prev_block_hash hi) = true -> exists a',
    store_infos a (hi, bi) = Ok a' /\ follows_chain a' /\ ar_side_tips a' = ar_side_tips a /\
    ar_main_header_infos a ⊆ ar_main_header_infos a' /\ ar_main_block_infos a ⊆ ar_main_block_infos a' /\
    ar_main_header_infos a' !! m = Some hi.
Proof.
  intros Hf Hm Hk. pose proof (follows_storable _ _ _ _ Hf Hm Hk) as Hst. destruct (bo_hash _ Hch _ _ _ Hm) as [<- _].
  destruct (store_infos_total a hi bi (fo_synced _ Hf) Hst) as (a' & Hs & Hsy & Hmh & Hbi & Hsd). exists a'.
  split_and!; [done| |done|rewrite Hmh; apply insert_subseteq_same, Hst|rewrite Hbi; apply insert_subseteq_same, Hst|
    rewrite Hmh; apply lookup_insert_eq].
  split; [done|..].
  - intros m x. rewrite Hmh, Hbi. destruct (decide (bhi_block_hash hi = m)) as [<-|Hne].
    + rewrite !lookup_insert_eq. intros [= <-]. by exists bi.
    + rewrite !lookup_insert_ne by done. apply (fo_agrees _ Hf).
  - intros m. rewrite Hmh, Hbi. destruct (decide (bhi_block_hash hi = m)) as [<-|Hne].
    + rewrite !lookup_insert_eq. by intros _; eexists.
    + rewrite !lookup_insert_ne by done. apply (fo_infos _ Hf).
Qed.

(** Oldest first, the blocks of a chain whose last one follows a known block are all stored. *)
Lemma store_blocks n : forall top th ti lh li a,
  follows_chain a -> ch top = Some (th, ti) -> last (blocks_from ch (S n) top) = Some (lh, li) ->
  main_known a (bhi_prev_block_hash lh) = true -> exists a',
    fold_res store_infos (reverse (blocks_from ch (S n) top)) a = Ok a' /\ follows_chain a' /\
    ar_side_tips a' = ar_side_tips a /\ ar_main_header_infos a ⊆ ar_main_header_infos a' /\
    ar_main_block_infos a ⊆ ar_main_block_infos a' /\ ar_main_header_infos a' !! top = Some th.
Proof.
  induction n as [|n IH]; intros top th ti lh li a Hf Htop Hl Hk.
  { cbn [blocks_from] in *. rewrite Htop in *. cbn in Hl. injection Hl as <- <-.
    destruct (store_block a top th ti Hf Htop Hk) as (a' & Hs & ?). exists a'.
    change (reverse [(th, ti)]) with [(th, ti)]. cbn [fold_res]. by rewrite Hs. }
  change (blocks_from ch (S (S n)) top) with
    (match ch top with None => [] | Some b => b :: blocks_from ch (S n) (bhi_prev_block_hash b.1) end) in *.
  rewrite Htop in *. cbn [fst] in *. rewrite reverse_cons, fold_res_app. rewrite last_cons in Hl.
  destruct (last (blocks_from ch (S n) (bhi_prev_block_hash th))) as [[lh' li']|] eqn:Hl'.
  - injection Hl as -> ->. destruct (ch (bhi_prev_block_hash th)) as [[hp bp]|] eqn:Hp.
    2: { cbn [blocks_from] in Hl'. by rewrite Hp in Hl'. }
    destruct (IH _ hp bp lh li a Hf Hp Hl' Hk) as (a1 & -> & Hf1 & Hsd1 & Hm1 & Hb1 & Hs1). cbn [mbind result_bind].
    destruct (store_block a1 top th ti Hf1 Htop) as (a' & Hs & Hf' & Hsd' & Hm' & Hb' & Hs').
    { unfold main_known. rewrite bool_decide_true by (by eexists). apply orb_true_r. }
    exists a'. cbn [fold_res]. rewrite Hs. cbn [mbind result_bind].
    split_and!; [done|done|congruence|by etransitivity|by etransitivity|done].
  - injection Hl as <- <-. apply last_None in Hl' as ->. change (reverse []) with (@nil (BlockHeaderInfo * BlockInfo)).
    cbn [fold_res mbind result_bind].
    destruct (store_block a top th ti Hf Htop Hk) as (a' & Hs & ?). exists a'.
    cbn [fold_res]. by rewrite Hs.
Qed.

Lemma write_infos_Ok l : forall a a' t,
  fold_res store_infos l a = Ok a' -> sp_done (tk_progress t) + N.of_nat (length l) <= sp_total (tk_progress t) ->
  sp_total (tk_progress t) <= u32_MAX -> exists t', write_infos l a t = (Ok a', t') /\ only_shows t t' /\
    tk_progress t' = mkProgress (sp_phase (tk_progress t)) (sp_done (tk_progress t) + N.of_nat (length l))
      (sp_total (tk_progress t)) (sp_tip_height (tk_progress t)).
Proof.
  induction l as [|x l IH]; intros a a' t Hfold Hd Ht; cbn [fold_res length] in *.
  { injection Hfold as <-. exists t. split_and!; [done|done|]. destruct (tk_progress t). cbn. f_equal. lia. }
  apply bind_Ok in Hfold as (a1 & Hs & Hfold). cbn [write_infos].
  rewrite (op_step_Ok _ _ t a1 t) by (unfold lifted; by rewrite Hs).
  rewrite (op_step_Ok _ _ t tt (show_progress (wrote_headers 1) t)) by done.
  assert (wrote_headers 1 (tk_progress t) = mkProgress (sp_phase (tk_progress t)) (sp_done (tk_progress t) + 1)
    (sp_total (tk_progress t)) (sp_tip_height (tk_progress t))) as Hw
    by (unfold wrote_headers; rewrite u32_add_small by lia; done).
  destruct (IH a1 a' (show_progress (wrote_headers 1) t) Hfold) as (t' & -> & Hsh & Hp).
  { cbn [tk_progress show_progress]. rewrite Hw. cbn. lia. }
  { cbn [tk_progress show_progress]. rewrite Hw. done. }
  exists t'. split_and!; [done| |].
  - etransitivity; [|exact Hsh]. apply only_shows_progress. rewrite Hw. unfold progress_ok. cbn. lia.
  - rewrite Hp. cbn [tk_progress show_progress]. rewrite Hw. cbn. f_equal. lia.
Qed.

(** Nothing but the world, the progress and the archive has changed. *)
Definition only_stores (t t' : MainchainTask W) : Prop := only_shows t (commit (tk_archive t) t').
Lemma only_stores_shows t t' : only_shows t t' -> only_stores t t'.
Proof. intros (A & E & L & N & D & S). by split_and!. Qed.
Lemma only_stores_trans t1 t2 t3 : only_stores t1 t2 -> only_stores t2 t3 -> only_stores t1 t3.
Proof.
  intros (_ & E1 & L1 & N1 & D1 & s1 & S1 & F1) (_ & E2 & L2 & N2 & D2 & s2 & S2 & F2). cbn in *.
  split_and!; cbn; try congruence. exists (s1 ++ s2). cbn. rewrite S2, S1, app_assoc. split; [done|]. by apply Forall_app.
Qed.

(** A block of the mainchain node is fetched with all of its ancestors that are missing, and they are stored. *)
Lemma request_infos_Ok fuel m hi bi t :
  follows_chain (tk_archive t) -> ch m = Some (hi, bi) ->
  (N.to_nat (bhi_height hi / BATCH_REQUEST_SIZE) < fuel)%nat ->
  exists t', request_infos fuel m t = (Ok true, t') /\ only_stores t t' /\ follows_chain (tk_archive t') /\
    ar_side_tips (tk_archive t') = ar_side_tips (tk_archive t) /\
    ar_main_header_infos (tk_archive t) ⊆ ar_main_header_infos (tk_archive t') /\
    ar_main_block_infos (tk_archive t) ⊆ ar_main_block_infos (tk_archive t') /\
    ar_main_header_infos (tk_archive t') !! m = Some hi.
Proof.
  intros Hf Hm Hfuel. unfold request_infos.
  rewrite (op_step_Ok _ _ t (main_known (tk_archive t) m) t) by done.
  destruct (main_known (tk_archive t) m) eqn:Hk.
  { exists t. split_and!; [done|by apply only_stores_shows|done..|].
    unfold main_known in Hk. rewrite (proj2 (N.eqb_neq _ _)) in Hk by (by apply (bo_hash _ Hch) in Hm as [_ ?]).
    apply bool_decide_eq_true in Hk as [x Hx]. pose proof Hx as (y & Hy & _)%(fo_agrees _ Hf). congruence. }
  destruct (fetch_infos_Ok fuel m hi bi m hi bi 0 [] t) as (n & t1 & lh & li & Hfe & Hs1 & Hl & Hkl); [done..|].
  rewrite (op_step_Ok _ _ t _ t1 Hfe).
  rewrite (op_step_Ok _ _ t1 (hi, bi) t1) by (cbn [blocks_from]; by rewrite Hm). cbn [fst].
  set (l := blocks_from ch (S n) m) in *.
  assert (N.of_nat (length l) < 2 ^ 32) as Hlen.
  { pose proof (proj1 (blocks_from_height ch Hch (S n) m hi bi Hm)) as Hbl. pose proof (bo_bound _ Hch _ _ _ Hm).
    fold l in Hbl. lia. }
  rewrite N.mod_small by done. set (f := start_writing (bhi_height hi) (N.of_nat (length l))).
  rewrite (op_step_Ok _ _ t1 tt (show_progress f t1)) by done.
  rewrite (op_step_Ok _ _ (show_progress f t1) (tk_archive t) (show_progress f t1))
    by (destruct Hs1 as [Ha _]; unfold reading; cbn; by rewrite Ha).
  destruct (store_blocks n m hi bi lh li (tk_archive t) Hf Hm Hl Hkl) as (a' & Hst & Hf' & Hsd & Hmh & Hbi & Htop).
  destruct (write_infos_Ok (reverse l) (tk_archive t) a' (show_progress f t1) Hst) as (t2 & Hw & Hs2 & _).
  { unfold f. cbn [tk_progress show_progress start_writing sp_done sp_total]. rewrite length_reverse. lia. }
  { unfold f, u32_MAX. cbn [tk_progress show_progress start_writing sp_total]. lia. }
  rewrite (op_step_Ok _ _ (show_progress f t1) a' t2 Hw).
  rewrite (op_step_Ok _ _ t2 tt (commit a' t2)) by done. exists (commit a' t2).
  split_and!; [done| |done..]. assert (only_shows t t2) as Hs.
  { etransitivity; [exact Hs1|]. etransitivity; [|exact Hs2]. apply only_shows_progress. unfold progress_ok. cbn. lia. }
  destruct Hs as (A & E & L & N & D & S). by split_and!.
Qed.
End follow.

(** *** Moving the side tips *)

Section move.
Context `{WorkExternals} {W : Type}.
Implicit Types (t : MainchainTask W).

Lemma sync_connect_length l : forall acc acc',
  fold_res sync_connect l acc = Ok acc' -> length acc'.2 = (length acc.2 + length l)%nat.
Proof.
  induction l as [|hi l IH]; intros acc acc' Hfold; cbn [fold_res] in Hfold.
  { injection Hfold as <-. cbn [length]. lia. }
  apply bind_Ok in Hfold as (acc1 & Hc & Hfold). rewrite (IH _ _ Hfold).
  destruct acc as [[a ti] ev]. unfold sync_connect in Hc. apply bind_Ok in Hc as (bi & _ & Hc).
  apply bind_Ok in Hc as (a1 & _ & [= <-]). cbn [snd]. rewrite length_app. cbn [length]. lia.
Qed.

(** The loop with the progress does what the loop without does. *)
Lemma connect_batches_Ok fuel b : forall acc acc' t,
  connect_to_loop fuel b acc = Ok acc' ->
  (length acc.2 <= length acc'.2)%nat /\
  (sp_done (tk_progress t) + N.of_nat (length acc'.2 - length acc.2) <= sp_total (tk_progress t) ->
   sp_total (tk_progress t) <= u32_MAX ->
   exists t', connect_batches fuel b acc t = (Ok acc', t') /\ only_shows t t' /\
     tk_progress t' = mkProgress (sp_phase (tk_progress t))
       (sp_done (tk_progress t) + N.of_nat (length acc'.2 - length acc.2))
       (sp_total (tk_progress t)) (sp_tip_height (tk_progress t))).
Proof.
  induction fuel as [|fuel IH]; intros [[a ti] ev] acc' t; cbn [connect_to_loop connect_batches];
    destruct (extract_tip ti =? b); try done.
  1, 2: intros [= <-]; split; [done|]; intros _ _; exists t; rewrite Nat.sub_diag; split_and!; [done|done|];
    destruct (tk_progress t); cbn; f_equal; lia.
  set (start := match ti with None => 0 | Some info => _ end).
  intros (l & Hl & Hc)%bind_Ok. apply bind_Ok in Hc as (acc1 & Hfold & Hc). pose proof (sync_connect_length _ _ _ Hfold) as Hlen.
  cbn [snd] in *. set (f := progress_connected (N.of_nat (length l) mod 2 ^ 32)).
  destruct (IH acc1 acc' (show_progress f t) Hc) as [Hle IH']. split; [lia|]. intros Hd Ht.
  assert (f (tk_progress t) = mkProgress (sp_phase (tk_progress t)) (sp_done (tk_progress t) + N.of_nat (length l))
    (sp_total (tk_progress t)) (sp_tip_height (tk_progress t))) as Hf.
  { unfold f, progress_connected. rewrite N.mod_small by (unfold u32_MAX in *; lia). rewrite u32_add_small by lia. done. }
  destruct IH' as (t' & Hr & Hs & Hp).
  { cbn [tk_progress show_progress]. rewrite Hf. cbn. lia. }
  { cbn [tk_progress show_progress]. by rewrite Hf. }
  exists t'. rewrite (op_step_Ok _ _ t l t) by (unfold lifted; by rewrite Hl).
  rewrite (op_step_Ok _ _ t acc1 t) by (unfold lifted; by rewrite Hfold).
  rewrite (op_step_Ok _ _ t tt (show_progress f t)) by done. split_and!; [done| |].
  - etransitivity; [|exact Hs]. apply only_shows_progress. rewrite Hf. unfold progress_ok. cbn. lia.
  - rewrite Hp. cbn [tk_progress show_progress]. rewrite Hf. cbn. f_equal. lia.
Qed.

Lemma send_events_Ok {E} (err : E) l : forall t, tk_listening t = true -> exists t',
  send_events err l t = (Ok tt, t') /\ tk_archive t' = tk_archive t /\ tk_progress t' = tk_progress t /\
  tk_seen t' = tk_seen t /\ tk_events t' = tk_events t ++ (TaskEvent_Block <$> l) /\ tk_listening t' = true.
Proof.
  induction l as [|e l IH]; intros t Hl; cbn [send_events].
  { exists t. by rewrite app_nil_r. }
  rewrite (op_step_Ok _ _ t tt (push_event (TaskEvent_Block e) t)).
  - destruct (IH (push_event (TaskEvent_Block e) t) Hl) as (t' & -> & Ha & Hp & Hs & He & Hl').
    exists t'. split_and!; [done..| |done]. rewrite He. cbn. by rewrite <-app_assoc.
  - unfold send_event. rewrite (op_step_Ok _ _ t tt t); [done|]. unfold reading. by rewrite Hl.
Qed.
End move.

(** *** From the archive to the chain *)

Definition chain_parent (ch : MainBlocks) (m : MainBlockHash) : option MainBlockHash :=
  match ch m with Some (hi, _) => main_parent hi | None => None end.

Lemma main_par_stored a m hi :
  ar_main_header_infos a !! m = Some hi -> ix_parent (main_index a) m = main_parent hi.
Proof. intros Hm. unfold ix_parent. cbn. by rewrite lookup_fmap, Hm. Qed.
(** The parent of a stored block is stored. *)
Lemma main_parent_stored a m hi p :
  MainchainTask.main_ready a -> ar_main_header_infos a !! m = Some hi -> main_parent hi = Some p ->
  is_Some (ar_main_header_infos a !! p).
Proof.
  intros Hr Hm Hp. destruct (iw_parent _ (aw_main _ (mr_wf _ Hr)) m p) as (k & Hk & _).
  { cbn. by rewrite lookup_fmap, Hm; cbn; rewrite Hp. }
  destruct (main_known_info a Hr p k Hk) as (x & Hx & _). by eexists.
Qed.
Lemma main_stored_height a m hi :
  MainchainTask.main_ready a -> ar_main_header_infos a !! m = Some hi ->
  ar_main_block_hash_to_height a !! m = Some (bhi_height hi).
Proof. intros Hr Hm. by apply (mr_info _ Hr) in Hm as (_ & _ & ? & _). Qed.

Section chain.
Context (ch : MainBlocks) (a : Archive) (Hf : follows_chain ch a).
Let Hr := sy_ready _ (fo_synced _ _ Hf).

Lemma chain_ancestor_at n : forall m, is_Some (ar_main_header_infos a !! m) ->
  ancestor_at (ix_parent (main_index a)) n m = ancestor_at (chain_parent ch) n m.
Proof.
  induction n as [|n IH]; intros m [hi Hm]; [done|]. cbn [ancestor_at]. rewrite (main_par_stored a m hi Hm).
  pose proof Hm as (bi & Hc & _)%(fo_agrees _ _ Hf).
  assert (chain_parent ch m = main_parent hi) as -> by (unfold chain_parent; by rewrite Hc).
  destruct (main_parent hi) as [p|] eqn:Hp; [|done]. cbn [mbind option_bind]. apply IH. by eapply main_parent_stored.
Qed.
Lemma chain_ancestor x m : is_Some (ar_main_header_infos a !! m) ->
  ancestor (ix_parent (main_index a)) x m <-> ancestor (chain_parent ch) x m.
Proof. intros Hm. unfold ancestor. by setoid_rewrite (fun n => chain_ancestor_at n m Hm). Qed.
Lemma chain_last_common b tip c :
  is_Some (ar_main_header_infos a !! b) -> is_Some (ar_main_header_infos a !! tip) -> is_Some (ar_main_header_infos a !! c) ->
  last_common (chain_parent ch) b tip c -> last_common (ix_parent (main_index a)) b tip c.
Proof.
  intros Hb Ht Hc [Hl Hrt Hlast]. split; [by apply chain_ancestor|by apply chain_ancestor|].
  intros x Hx Hy. apply chain_ancestor; [done|]. apply Hlast; by apply chain_ancestor.
Qed.
End chain.

(** More blocks change nothing below a stored one. *)
Section grown.
Context (a a' : Archive) (Hr : MainchainTask.main_ready a).
Context (Hmh : ar_main_header_infos a ⊆ ar_main_header_infos a') (Hbi : ar_main_block_infos a ⊆ ar_main_block_infos a').

Lemma grown_ancestor_at n : forall m x, is_Some (ar_main_header_infos a !! m) ->
  ancestor_at (ix_parent (main_index a)) n m = Some x -> ancestor_at (ix_parent (main_index a')) n m = Some x.
Proof.
  induction n as [|n IH]; intros m x [hi Hm]; [done|]. cbn [ancestor_at].
  rewrite (main_par_stored a m hi Hm), (main_par_stored a' m hi (lookup_weaken _ _ _ _ Hm Hmh)).
  destruct (main_parent hi) as [p|] eqn:Hp; [|done]. cbn [mbind option_bind]. apply IH. by eapply main_parent_stored.
Qed.
Lemma grown_item tip kt h :
  ar_main_block_hash_to_height a !! tip = Some kt -> h <= kt -> main_item a' tip kt h = main_item a tip kt h.
Proof.
  intros Ht Hh. destruct (main_item_spec a Hr tip kt h Ht Hh) as (Hi & _ & Ha).
  destruct (main_known_info a Hr tip kt Ht) as (ti & Hti & _). unfold main_item at 1.
  rewrite (grown_ancestor_at _ _ _ (mk_is_Some _ _ Hti) Ha). cbn [from_option id].
  by rewrite (lookup_weaken _ _ _ _ Hi Hmh).
Qed.
Lemma grown_block_info tip kt h :
  ar_main_block_hash_to_height a !! tip = Some kt -> h <= kt -> block_info_at a' tip kt h = block_info_at a tip kt h.
Proof.
  intros Ht Hh. unfold block_info_at. rewrite (grown_item tip kt h Ht Hh).
  destruct (main_item_spec a Hr tip kt h Ht Hh) as (Hi & _ & _).
  destruct (mr_info _ Hr _ _ Hi) as (_ & _ & _ & [bi Hb]). by rewrite Hb, (lookup_weaken _ _ _ _ Hb Hbi).
Qed.
End grown.

(** The side tips can be moved to a block of the mainchain node's chain: they are at no block yet, or at a stored one
    from which the last common ancestor is reached by disconnecting blocks. *)
Definition can_move (ch : MainBlocks) (a : Archive) (b : MainBlockHash) : Prop :=
  match mct_tip_info (sd_mainchain_tip (ar_side_tips a)) with
  | None => True
  | Some tip =>
      ar_main_header_infos a !! bhi_block_hash tip = Some tip /\
      exists c hc, ar_main_header_infos a !! c = Some hc /\
        last_common (chain_parent ch) b (bhi_block_hash tip) c /\
        forall h, bhi_height hc < h <= bhi_height tip ->
          disconnectable (ar_side_tips a) (bhi_block_hash (main_item a (bhi_block_hash tip) (bhi_height tip) h))
            (block_info_at a (bhi_block_hash tip) (bhi_height tip) h)
  end.

Lemma can_move_forks ch a a' b hb tip c hc :
  blocks_ok ch -> MainchainTask.main_ready a -> follows_chain ch a' ->
  ar_side_tips a' = ar_side_tips a -> ar_main_header_infos a ⊆ ar_main_header_infos a' ->
  ar_main_block_infos a ⊆ ar_main_block_infos a' -> ar_main_header_infos a' !! b = Some hb ->
  ar_main_header_infos a !! bhi_block_hash tip = Some tip -> ar_main_header_infos a !! c = Some hc ->
  last_common (chain_parent ch) b (bhi_block_hash tip) c ->
  (forall h, bhi_height hc < h <= bhi_height tip ->
    disconnectable (ar_side_tips a) (bhi_block_hash (main_item a (bhi_block_hash tip) (bhi_height tip) h))
      (block_info_at a (bhi_block_hash tip) (bhi_height tip) h)) ->
  forks_at a' b (bhi_height hb) tip c (bhi_height hc).
Proof.
  intros Hch Hr Hf Hsd Hmh Hbi Hb Ht Hc Hlc Hd. pose proof (sy_ready _ (fo_synced _ _ Hf)) as Hr'.
  pose proof (lookup_weaken _ _ _ _ Ht Hmh) as Ht'. pose proof (lookup_weaken _ _ _ _ Hc Hmh) as Hc'. split.
  - done.
  - by apply main_stored_height.
  - eapply chain_last_common; [exact Hf|by eexists..|done].
  - apply (fo_agrees _ _ Hf) in Hb as (bi & Hb & _). apply (bo_bound _ Hch) in Hb. lia.
  - intros h Hh. pose proof (main_stored_height a _ _ Hr Ht) as Htk.
    rewrite Hsd, (grown_item a a' Hr Hmh _ _ h Htk), (grown_block_info a a' Hr Hmh Hbi _ _ h Htk) by lia. by apply Hd.
Qed.

(** *** The start of the task *)

Section start.
Context `{WorkExternals} {W : Type}.
Implicit Types (t : MainchainTask W).

Lemma connect_events_length a b k start : length (connect_events a b k start) = N.to_nat (k + 1 - start).
Proof. unfold connect_events, items_from. by rewrite !length_fmap, length_seq. Qed.

(** The height to start from, and how many blocks there are from there on *)
Lemma state_total a b k ti start :
  MainchainTask.main_ready a -> ar_main_block_hash_to_height a !! b = Some k -> k < 2 ^ 31 ->
  next_to_connect a b k ti start -> start <= k + 1 ->
  u32_sub (u32_add k 1) (match ti with None => 0 | Some info => u32_add (bhi_height info) 1 end) = k + 1 - start.
Proof.
  intros Hr Hb Hk Hn Hs. assert (match ti with None => 0 | Some info => u32_add (bhi_height info) 1 end = start) as ->.
  { destruct ti as [info|]; cbn in Hn; [|done]. destruct Hn as [Hn ->].
    destruct (main_item_spec a Hr b k (start - 1) Hb ltac:(lia)) as (_ & -> & _).
    rewrite u32_add_small by (unfold u32_MAX; lia). lia. }
  rewrite u32_add_small by (unfold u32_MAX; lia). rewrite u32_sub_small by (unfold u32_MAX; lia). done.
Qed.

(** From where the first loop ends, the blocks up to the tip are connected and all events are sent. *)
Lemma sync_to_tip_Ok b hb ti start ev a1 t :
  MainchainTask.main_ready (tk_archive t) -> ar_main_header_infos (tk_archive t) !! b = Some hb -> bhi_height hb < 2 ^ 31 ->
  disconnect_to_common (tk_archive t) b = Ok (a1, ti, ev) -> same_archive (tk_archive t) a1 ->
  mct_tip_info (sd_mainchain_tip (ar_side_tips a1)) = ti ->
  next_to_connect (tk_archive t) b (bhi_height hb) ti start -> start <= bhi_height hb + 1 -> tk_listening t = true ->
  exists t', sync_to_tip b t = (Ok tt, t') /\ same_archive (tk_archive t) (tk_archive t') /\
    main_tip_block_hash (sd_mainchain_tip (ar_side_tips (tk_archive t'))) = b /\
    tk_events t' = tk_events t ++ (TaskEvent_Block <$> ev ++ connect_events (tk_archive t) b (bhi_height hb) start) /\
    (exists shown, tk_seen t' = tk_seen t ++ shown /\ Forall progress_ok shown) /\
    tk_progress t' = mkProgress Phase_State (bhi_height hb + 1 - start) (bhi_height hb + 1 - start) (bhi_height hb).
Proof.
  intros Hr Hb Hk Hdis Hs1 Hti Hn Hstart Hlisten. pose proof (main_stored_height _ _ _ Hr Hb) as Hbk.
  destruct (sync_connects (tk_archive t) Hr b (bhi_height hb) Hbk a1 ti start ev Hs1 Hti Hn Hstart)
    as (a' & Hcon & Hs' & Hti').
  unfold sync_to_tip. rewrite (op_step_Ok _ _ t (a1, ti, ev) t) by (unfold reading; by rewrite Hdis).
  assert (ar_main_header_infos a1 !! b = Some hb) as -> by (by destruct Hs1 as [? ->]).
  rewrite (state_total _ b _ ti start Hr Hbk Hk Hn Hstart). set (n := bhi_height hb + 1 - start).
  set (f := start_state (bhi_height hb) n). rewrite (op_step_Ok _ _ t tt (show_progress f t)) by done.
  destruct (connect_batches_Ok (sync_fuel a1 b) b _ _ (show_progress f t) Hcon) as [_ Hbatch].
  cbn [snd] in Hbatch. rewrite length_app, connect_events_length, Nat.add_sub' in Hbatch.
  destruct Hbatch as (t1 & Hb1 & Hsh & Hp1).
  { unfold f. cbn [tk_progress show_progress start_state sp_done sp_total]. unfold n. lia. }
  { unfold f, u32_MAX. cbn [tk_progress show_progress start_state sp_total]. unfold n. lia. }
  rewrite (op_step_Ok _ _ (show_progress f t) _ t1 Hb1). rewrite (op_step_Ok _ _ t1 tt (commit a' t1)) by done.
  assert (only_shows t t1) as (A & E & L & _ & _ & S).
  { etransitivity; [|exact Hsh]. apply only_shows_progress. unfold progress_ok, f. cbn. apply N.le_0_l. }
  destruct (send_events_Ok SyncTips_SendEvent (ev ++ connect_events (tk_archive t) b (bhi_height hb) start) (commit a' t1))
    as (t' & -> & Ha' & Hp' & Hsn & He & _); [cbn; congruence|].
  exists t'. split_and!; [done|..].
  - by rewrite Ha'.
  - rewrite Ha'. cbn. unfold main_tip_block_hash. rewrite Hti'. by apply item_last.
  - rewrite He. cbn. by rewrite E.
  - rewrite Hsn. exact S.
  - rewrite Hp'. cbn [tk_progress commit]. rewrite Hp1. unfold f, n. cbn [tk_progress show_progress start_state sp_phase sp_done
      sp_total sp_tip_height]. f_equal. lia.
Qed.
End start.

Lemma zoom_step {S E F A} (err : E -> F) (c : op S E A) (s : S) a s' :
  c s = (Ok a, s') -> zoom id (fun t _ => t) err c s = (Ok a, s').
Proof. intros Hc. unfold zoom, id. by rewrite Hc. Qed.
Lemma same_archive_follows ch a a' : same_archive a a' -> follows_chain ch a -> follows_chain ch a'.
Proof.
  intros Hs [[Hr Hwk Hsu Hb] Hag Hih]. pose proof (same_archive_ready _ _ Hs Hr) as Hr'. destruct Hs as [t ->].
  split; [|exact Hag|exact Hih]. split; [exact Hr'|exact Hwk|exact Hsu|exact Hb].
Qed.

(** What the first loop of the sync leaves, and the events it makes *)
Lemma can_move_starts `{WorkExternals} ch a a' b hb :
  blocks_ok ch -> MainchainTask.main_ready a -> follows_chain ch a' -> can_move ch a b ->
  ar_side_tips a' = ar_side_tips a -> ar_main_header_infos a ⊆ ar_main_header_infos a' ->
  ar_main_block_infos a ⊆ ar_main_block_infos a' -> ar_main_header_infos a' !! b = Some hb ->
  exists a1 ti ev start,
    disconnect_to_common a' b = Ok (a1, ti, ev) /\ same_archive a' a1 /\
    mct_tip_info (sd_mainchain_tip (ar_side_tips a1)) = ti /\ next_to_connect a' b (bhi_height hb) ti start /\
    start <= bhi_height hb + 1 /\
    match mct_tip_info (sd_mainchain_tip (ar_side_tips a)) with
    | None => start = 0 /\ ev = []
    | Some tip => exists c hc, ar_main_header_infos a !! c = Some hc /\
        last_common (chain_parent ch) b (bhi_block_hash tip) c /\ start = bhi_height hc + 1 /\
        ev = disconnect_events a' (bhi_block_hash tip) (bhi_height tip) start
    end.
Proof.
  intros Hch Hr Hf Hm Hsd Hmh Hbi Hb. pose proof (sy_ready _ (fo_synced _ _ Hf)) as Hr'.
  pose proof (main_stored_height _ _ _ Hr' Hb) as Hbk. unfold can_move in Hm.
  destruct (mct_tip_info (sd_mainchain_tip (ar_side_tips a))) as [tip|] eqn:Htip.
  - destruct Hm as (Ht & c & hc & Hc & Hlc & Hd).
    pose proof (can_move_forks ch a a' b hb tip c hc Hch Hr Hf Hsd Hmh Hbi Hb Ht Hc Hlc Hd) as Hfork.
    destruct (disconnect_to_common_Ok a' b (bhi_height hb) tip c (bhi_height hc) Hr' Hbk) as (Hkc & a1 & Hdis & Hs & Hti);
      [by rewrite Hsd|done|].
    eexists a1, _, _, (bhi_height hc + 1). split_and!; [exact Hdis|done|done| |lia|by exists c, hc].
    cbn. split; [lia|]. f_equal. lia.
  - exists a', None, [], 0. split_and!; try done; [|by rewrite Hsd|apply N.le_0_l].
    apply disconnect_to_common_none. by rewrite Hsd.
Qed.

(** C12 The start of the mainchain task brings the node to the tip that the mainchain node has: every block of
    that chain that was missing is fetched, in batches, checked and stored, oldest first, and the side tips are
    moved, over the last common ancestor, to the tip. The events of all blocks that were disconnected and
    connected are sent, in order, and the progress that others saw on the way never passed its total and ends
    idle. The conditions: the mainchain node serves one well-formed tree of blocks, the archive is complete and
    has blocks of this tree only, the node has no mainchain tip yet or one whose last common ancestor with the
    reported tip is stored and from which every block down to that ancestor can be disconnected ([can_move]: the
    side blocks that they commit to are known), someone listens to the events, and there are enough requests.
    Without [can_move] start-up can fail: [unknown_commitment_stuck]. *)
Theorem start_up_follows_mainchain `{EncodingExternals, ProtoExternals, WorkExternals} {W : Type} `{!MainchainServices W}
    `{!EventRace} (ch : MainBlocks) (fuel : nat) (t : MainchainTask W) (b : MainBlockHash) (events : EventStream) (w' : W)
    (hb : BlockHeaderInfo) (ib : BlockInfo) :
  blocks_ok ch -> serves_chain (W := W) ch -> follows_chain ch (tk_archive t) -> tk_listening t = true ->
  subscribe_block_events fuel (tk_world t) = (Ok (b, events), w') -> ch b = Some (hb, ib) ->
  can_move ch (tk_archive t) b -> (N.to_nat (bhi_height hb / BATCH_REQUEST_SIZE) < fuel)%nat ->
  exists t' start ev, start_up fuel t = (Ok (b, events), t') /\ follows_chain ch (tk_archive t') /\
    ar_main_header_infos (tk_archive t') !! b = Some hb /\
    main_tip_block_hash (sd_mainchain_tip (ar_side_tips (tk_archive t'))) = b /\
    tk_events t' = tk_events t ++ (TaskEvent_Block <$> ev ++ connect_events (tk_archive t') b (bhi_height hb) start) /\
    match mct_tip_info (sd_mainchain_tip (ar_side_tips (tk_archive t))) with
    | None => start = 0 /\ ev = []
    | Some tip => exists c hc, ar_main_header_infos (tk_archive t) !! c = Some hc /\
        last_common (chain_parent ch) b (bhi_block_hash tip) c /\ start = bhi_height hc + 1 /\
        ev = disconnect_events (tk_archive t') (bhi_block_hash tip) (bhi_height tip) start
    end /\
    tk_progress t' = progress_default /\
    exists shown, tk_seen t' = tk_seen t ++ shown /\ Forall progress_ok shown.
Proof.
  intros Hch Hserves Hf Hl Hsub Hb Hm Hfuel. unfold start_up.
  rewrite (op_step_Ok _ _ t _ _ (calling_step Task_Mainchain _ t _ w' Hsub)). set (t0 := put_world w' t).
  destruct (request_infos_Ok ch Hch Hserves fuel b hb ib t0) as (t1 & Hreq & Hst & Hf1 & Hsd & Hmh & Hbi & Hb1); [done..|].
  rewrite (op_step_Ok _ _ t0 true t1 (zoom_step _ _ _ _ _ Hreq)). rewrite (op_step_Ok _ _ t1 tt t1) by done.
  destruct (can_move_starts ch (tk_archive t) (tk_archive t1) b hb Hch (sy_ready _ (fo_synced _ _ Hf)) Hf1 Hm Hsd Hmh Hbi Hb1)
    as (a1 & ti & ev & start & Hdis & Hs1 & Hti & Hn & Hstart & Hev).
  destruct Hst as (_ & E1 & L1 & _ & _ & s1 & S1 & F1). cbn [tk_events tk_listening tk_seen commit put_world t0] in E1, L1, S1.
  destruct (sync_to_tip_Ok b hb ti start ev a1 t1) as (t2 & Hsync & Hs2 & Htip & E2 & (s2 & S2 & F2) & _);
    [apply Hf1|done|by apply (bo_bound _ Hch) in Hb|done..|by rewrite L1|].
  rewrite (op_step_Ok _ _ t1 tt t2 (zoom_step _ _ _ _ _ Hsync)).
  rewrite (op_step_Ok _ _ t2 tt (show_progress set_idle t2)) by done.
  exists (show_progress set_idle t2), start, ev. cbn [tk_archive tk_events tk_progress tk_seen show_progress].
  split; [done|]. split; [by eapply same_archive_follows|]. split; [by destruct Hs2 as [? ->]|]. split; [done|].
  split; [rewrite E2, E1; by destruct Hs2 as [? ->]|]. split.
  { revert Hev. destruct (mct_tip_info (sd_mainchain_tip (ar_side_tips (tk_archive t)))) as [tip|]; [|done].
    intros (c & hc & Hc & Hlc & -> & ->). exists c, hc.
    split_and!; [done..|]. by destruct Hs2 as [? ->]. }
  split; [done|]. exists (s1 ++ s2 ++ [progress_default]). rewrite S2, S1, <-!app_assoc.
  split; [reflexivity|].
  rewrite !Forall_app. split_and!; [done|done|]. apply Forall_singleton. unfold progress_ok. cbn. lia.
Qed.

(** ** Whatever the mainchain node answers *)

Section any_answer.
Context `{EncodingExternals, ProtoExternals, WorkExternals} {W : Type} `{!MainchainServices W}.
Implicit Types (t : MainchainTask W).

(** The channels are as they were. *)
Definition same_channels (t0 t : MainchainTask W) : Prop :=
  tk_events t = tk_events t0 /\ tk_listening t = tk_listening t0 /\ tk_answers t = tk_answers t0 /\ tk_dropped t = tk_dropped t0.
Definition same_tips (t0 t : MainchainTask W) : Prop :=
  ar_side_tips (tk_archive t) = ar_side_tips (tk_archive t0).

Lemma calling_channels {E F A} (err : E -> F) (c : op W E A) t0 : preserves (same_channels t0) (calling err c).
Proof. intros t Ht. unfold calling, zoom. by destruct (c (tk_world t)). Qed.
Lemma calling_archive {E F A} (err : E -> F) (c : op W E A) a0 : preserves (fun t => tk_archive t = a0) (calling err c).
Proof. intros t Ht. unfold calling, zoom. by destruct (c (tk_world t)). Qed.

(** What the fetching and the writing keep: anything that a call and a shown progress keep *)
Lemma fetch_infos_preserves (P : MainchainTask W -> Prop) :
  (forall f t, P t -> P (show_progress f t)) -> (forall w t, P t -> P (put_world w t)) ->
  forall fuel m acc, preserves P (fetch_infos fuel m acc).
Proof.
  intros Hp Hw fuel. induction fuel as [|fuel IH]; intros m acc; cbn [fetch_infos]; [apply preserves_lifted|].
  apply preserves_bind.
  { intros t Ht. unfold calling, zoom. destruct (get_block_infos m (BATCH_REQUEST_SIZE - 1) (tk_world t)). by apply Hw. }
  intros [resp|]; [|apply preserves_ret]. apply preserves_bind; [apply preserves_lifted|]. intros current.
  apply preserves_bind; [apply preserves_lifted|]. intros first. apply preserves_bind; [intros t; apply Hp|]. intros _.
  apply preserves_bind; [apply preserves_reading|]. intros []; [apply preserves_ret|apply IH].
Qed.
Lemma write_infos_preserves (P : MainchainTask W -> Prop) :
  (forall f t, P t -> P (show_progress f t)) -> forall l a, preserves P (write_infos l a).
Proof.
  intros Hp l. induction l as [|x l IH]; intros a; cbn [write_infos]; [apply preserves_ret|].
  apply preserves_bind; [apply preserves_lifted|]. intros a1. apply preserves_bind; [intros t; apply Hp|]. intros _. apply IH.
Qed.
Lemma request_infos_channels fuel m t0 : preserves (same_channels t0) (request_infos fuel m).
Proof.
  unfold request_infos. apply preserves_bind; [apply preserves_reading|]. intros []; [apply preserves_ret|].
  apply preserves_bind; [by apply fetch_infos_preserves|]. intros [l|]; [|apply preserves_ret].
  apply preserves_bind; [apply preserves_lifted|]. intros first. apply preserves_bind; [by apply preserves_writing|]. intros _.
  apply preserves_bind; [apply preserves_reading|]. intros a. apply preserves_bind; [by apply write_infos_preserves|]. intros a'.
  apply preserves_bind; [by apply preserves_writing|]. intros _. apply preserves_ret.
Qed.
Lemma write_infos_tips l : forall a t a' t',
  write_infos l a t = (Ok a', t') -> ar_side_tips a' = ar_side_tips a.
Proof.
  induction l as [|[hi bi] l IH]; intros a t a' t' Hw; cbn [write_infos] in Hw; [by injection Hw as <- <-|].
  apply op_bind_Ok in Hw as (a1 & t1 & (Hs%map_err_Ok & ->)%lifted_Ok & Hw). apply op_bind_Ok in Hw as (u & t2 & _ & Hw).
  rewrite (IH _ _ _ _ Hw). by apply store_infos_Ok in Hs as (_ & _ & _ & ?).
Qed.
(** The blocks that are fetched leave the side tips alone. *)
Lemma request_infos_tips fuel m t0 : preserves (same_tips t0) (request_infos fuel m).
Proof.
  unfold request_infos. apply preserves_bind; [apply preserves_reading|]. intros []; [apply preserves_ret|].
  apply preserves_bind; [by apply fetch_infos_preserves|]. intros [l|]; [|apply preserves_ret].
  apply preserves_bind; [apply preserves_lifted|]. intros first. apply preserves_bind; [by apply preserves_writing|]. intros _.
  apply preserves_bind_value; [apply preserves_reading|]. intros t a t' Ht [= <- <-] _. revert t Ht.
  intros t Ht. unfold mbind, op_bind. pose proof (write_infos_preserves (same_tips t0) (fun _ _ H => H) (reverse l)
    (tk_archive t) t Ht) as Hw. destruct (write_infos (reverse l) (tk_archive t) t) as [[a'|e|] t1] eqn:Hwr; [|done..].
  apply write_infos_tips in Hwr. unfold same_tips in *. cbn. congruence.
Qed.
Lemma connect_batches_archive fuel b : forall acc t, tk_archive (connect_batches fuel b acc t).2 = tk_archive t /\
  forall acc' t', connect_batches fuel b acc t = (Ok acc', t') -> connect_to_loop fuel b acc = Ok acc'.
Proof.
  induction fuel as [|fuel IH]; intros [[a ti] ev] t; cbn [connect_batches connect_to_loop];
    destruct (extract_tip ti =? b); [by split; [|intros ?? [= <- <-]]|done|by split; [|intros ?? [= <- <-]]|].
  unfold mbind, op_bind, lifted, result_bind. set (start := match ti with None => 0 | Some info => _ end).
  destruct (main_rev_take BATCH_SIZE a b start) as [l|e|]; cbn [map_err]; [|done..].
  destruct (fold_res sync_connect l (a, ti, ev)) as [acc1|e|]; cbn [map_err]; [|done..].
  cbn [progress writing]. set (t1 := show_progress _ t). destruct (IH acc1 t1) as [Ha Hr]. split; [by rewrite Ha|done].
Qed.
Lemma send_events_archive {E} (err : E) l : forall t, tk_archive (send_events err l t).2 = tk_archive t.
Proof.
  induction l as [|e l IH]; intros t; cbn [send_events]; [done|]. unfold mbind, op_bind, send_event, reading, mbind, op_bind.
  destruct (tk_listening t); cbn [ensure]; [|done]. cbn [writing]. by rewrite IH.
Qed.
(** The sync commits all of its moves or none. *)
Lemma sync_to_tip_atomic b t :
  tk_archive (sync_to_tip b t).2 = tk_archive t \/
  exists events, sync_side_tips_to_tip (tk_archive t) b = Ok (tk_archive (sync_to_tip b t).2, events).
Proof.
  unfold sync_to_tip, sync_side_tips_to_tip.
  destruct (disconnect_to_common (tk_archive t) b) as [[[a ti] ev]|e|] eqn:Hd.
  2: { left. by rewrite (op_step_Err _ _ t (SyncTips_Archive e) t) by (unfold reading; by rewrite Hd). }
  2: { left. by rewrite (op_step_Panic _ _ t t) by (unfold reading; by rewrite Hd). }
  rewrite (op_step_Ok _ _ t (a, ti, ev) t) by (unfold reading; by rewrite Hd). cbn [mbind result_bind].
  match goal with |- context [(?c ≫= _) t] => set (c0 := c) end.
  assert (exists t1, c0 t = (Ok tt, t1) /\ tk_archive t1 = tk_archive t) as (t1 & Hc & Ha1)
    by (unfold c0; destruct (ar_main_header_infos a !! b); by eexists).
  rewrite (op_step_Ok _ _ t tt t1 Hc).
  destruct (connect_batches_archive (sync_fuel a b) b (a, ti, ev) t1) as [Ha2 Hr].
  destruct (connect_batches (sync_fuel a b) b (a, ti, ev) t1) as [[[[a' ti'] ev']|e|] t2] eqn:Hb; cbn [snd] in Ha2.
  - right. exists ev'. rewrite (op_step_Ok _ _ t1 _ t2 Hb), (op_step_Ok _ _ t2 tt (commit a' t2)) by done.
    rewrite (Hr _ _ eq_refl). cbn [mbind result_bind]. by rewrite send_events_archive.
  - left. rewrite (op_step_Err _ _ t1 _ t2 Hb). cbn. congruence.
  - left. rewrite (op_step_Panic _ _ t1 t2 Hb). cbn. congruence.
Qed.
End any_answer.

(** The tip that the subscription returns was the mainchain's tip before and after it, and no event came in between: the
    events after it are all in the stream. *)
Theorem subscribed_at_tip `{EncodingExternals, ProtoExternals} {W : Type} `{!MainchainServices W} `{!EventRace}
    (fuel : nat) (w w' : W) (tip : MainBlockHash) (events : EventStream) :
  subscribe_block_events fuel w = (Ok (tip, events), w') ->
  exists w0 w1 w2 w3 h h', get_chain_tip w0 = (Ok h, w1) /\ subscribe_events w1 = (Ok events, w2) /\
    event_first events w2 = (false, w3) /\ get_chain_tip w3 = (Ok h', w') /\
    bhi_block_hash h = tip /\ bhi_block_hash h' = tip.
Proof.
  revert w. induction fuel as [|fuel IH]; intros w Hs; cbn [subscribe_block_events] in Hs; [done|].
  apply op_bind_Ok in Hs as (h & w1 & Hh & Hs). apply op_bind_Ok in Hs as (ev & w2 & Hev & Hs).
  apply op_bind_Ok in Hs as (first & w3 & Hfi & Hs). destruct (event_first ev w2) as [fi w3'] eqn:Hrace.
  injection Hfi as -> ->. destruct first; [by apply IH in Hs|].
  apply op_bind_Ok in Hs as (h' & w4 & Hh' & Hs).
  destruct (N.eqb_spec (bhi_block_hash h) (bhi_block_hash h')) as [Heq|]; [|by apply IH in Hs].
  apply op_ret_Ok in Hs as [[= -> ->] ->]. by exists w, w1, w2, w3, h, h'.
Qed.

(** Every request is answered once, for the block that it names, whatever the mainchain node does: on its own channel when it has one
    and the other end is there, else among the events. An error of the mainchain node is an answer too, and does not stop the task. *)
Theorem request_answered `{EncodingExternals, ProtoExternals, WorkExternals} {W : Type} `{!MainchainServices W}
    (fuel : nat) (m : MainBlockHash) (response_tx : option N) (t : MainchainTask W) :
  (request_infos fuel m t).1 <> Panic ->
  let res := response_result (request_infos fuel m t).1 in
  let answer := Response_AncestorInfos m res in
  let '(r, t') := handle_request fuel (AncestorInfos m) response_tx t in
  request_of_response answer = AncestorInfos m /\ tk_progress t' = progress_default /\ same_tips t t' /\
  match response_tx with
  | Some tx =>
      tk_events t' = tk_events t /\
      if decide (tx ∈ tk_dropped t) then r = Err Task_SendResponseOneshot /\ tk_answers t' = tk_answers t
      else r = Ok tt /\ tk_answers t' = <[tx := answer]> (tk_answers t)
  | None =>
      tk_answers t' = tk_answers t /\
      if tk_listening t then r = Ok tt /\ tk_events t' = tk_events t ++ [TaskEvent_Response answer]
      else r = Err Task_SendEvent /\ tk_events t' = tk_events t
  end.
Proof.
  intros Hnp. cbn [handle_request]. pose proof (request_infos_channels fuel m t t) as Hc.
  destruct Hc as (He & Hl & Ha & Hd); [done|]. pose proof (request_infos_tips fuel m t t eq_refl) as Ht.
  destruct (request_infos fuel m t) as [res t1]. cbn [fst snd] in *.
  destruct response_tx as [tx|]; [|unfold send_event, mbind, op_bind, reading; cbn [tk_listening show_progress]; rewrite Hl].
  - cbn [tk_dropped show_progress]. rewrite Hd. destruct res as [b|e|]; [..|done].
    all: cbn zeta; destruct (decide (tx ∈ tk_dropped t)); cbn; split_and!; try done; by rewrite Ha.
  - destruct res as [b|e|]; [..|done]. all: cbn zeta; destruct (tk_listening t); cbn; split_and!; try done; by rewrite He.
Qed.

(** However the start of the task ends, the side tips are those from before, or those after the move to the tip was complete. *)
Theorem start_up_atomic `{EncodingExternals, ProtoExternals, WorkExternals} {W : Type} `{!MainchainServices W} `{!EventRace}
    (fuel : nat) (t : MainchainTask W) :
  let t' := (start_up fuel t).2 in
  same_tips t t' \/
  exists a b events, ar_side_tips a = ar_side_tips (tk_archive t) /\
    sync_side_tips_to_tip a b = Ok (tk_archive t', events).
Proof.
  intros t'. assert (t' = (start_up fuel t).2) as Ht' by done. clearbody t'. revert Ht'.
  unfold start_up. unfold mbind at 1, op_bind at 1.
  pose proof (calling_archive Task_Mainchain (subscribe_block_events fuel) (tk_archive t) t eq_refl) as Hc.
  destruct (calling Task_Mainchain (subscribe_block_events fuel) t) as [[[b events]|e|] t1];
    cbn [snd] in Hc |- *; [|intros ->; left; unfold same_tips; by rewrite Hc..].
  unfold mbind at 1, op_bind at 1, zoom at 1, id at 1.
  assert (same_tips t t1) as Ht1 by (unfold same_tips; by rewrite Hc).
  pose proof (request_infos_tips fuel b t t1 Ht1) as Ht2. destruct (request_infos fuel b t1) as [[available|e|] t2];
    cbn [snd map_err] in Ht2 |- *; [|intros ->; by left..].
  unfold mbind at 1, op_bind at 1, lifted at 1. destruct available; cbn [ensure]; [|intros ->; by left].
  unfold mbind at 1, op_bind at 1, zoom at 1, id at 1.
  pose proof (sync_to_tip_atomic b t2) as Hs. destruct (sync_to_tip b t2) as [[[]|e|] t3]; cbn [snd map_err] in Hs |- *.
  all: intros ->; destruct Hs as [Hs|(evs & Hs)]; [left; change (same_tips t t3); unfold same_tips in *; congruence|right].
  all: exists (tk_archive t2), b, evs; split; [exact Ht2|exact Hs].
Qed.
