(* ===== verification/PeerInvariant.v ===== *)
(** * The invariant of a peer connection

    Every identifier that a connection gives out names a peer state that it remembers, and its
    queue holds no request for a block or for headers twice. *)

From S2P Require Import Prelude Types Transaction Authorization State Merkle SideTips Lineage.
From S2P Require Import Archive NodeTask PeerMessage PeerTask PeerBodies.

Section conn.
Context `{Externals} `{NetExternals}.
Implicit Types (c : PeerConn) (db : NodeDb).

(** ** Invariant *)

Definition known c (id : PeerStateId) : Prop := is_Some (pc_peer_states c !! id).

Definition is_push (request : Request) : bool :=
  match request with Request_PushTransaction _ => true | _ => false end.

(** The identifier in a request, and what the requester needs of it *)
Definition request_id (request : Request) : option PeerStateId :=
  match request with
  | Request_GetBlock request => gb_peer_state_id request
  | Request_GetHeaders request => gh_peer_state_id request
  | Request_PushTransaction _ => None
  end.
Definition request_ok c (request : Request) : Prop :=
  (is_push request = false -> exists id, request_id request = Some id /\ known c id) /\
  match request with
  | Request_GetBlock request => is_Some (gb_descendant_tip request)
  | Request_GetHeaders request => exists height, gh_height request = Some height /\ height <= u32_MAX
  | Request_PushTransaction _ => True
  end.
Definition info_ok c (info : Info) : Prop :=
  match info with
  | Info_NeedMainchainAncestors _ id => known c id
  | Info_Response _ request => request_ok c request
  | _ => True
  end.
(** A height is a [u32]. *)
Definition state_ok (peer_state : PeerState) : Prop :=
  forall tip_info, ps_tip_info peer_state = Some tip_info -> ti_block_height tip_info <= u32_MAX.

(** The hashes of the requests that are sent once *)
Definition sent_once c : list Hash :=
  request_hash <$> List.filter (fun r => negb (is_push r)) (pc_requests c).

Record conn_wf c : Prop := {
  cw_states id peer_state : pc_peer_states c !! id = Some peer_state ->
    id = peer_state_id peer_state /\ state_ok peer_state;
  cw_tasks peer_state : peer_state ∈ pc_blocking_tasks c ->
    known c (peer_state_id peer_state) /\ state_ok peer_state;
  cw_requests request : request ∈ pc_requests c -> request_ok c request;
  cw_infos info : info ∈ pc_infos c -> info_ok c info;
  cw_hashes hash : hash ∈ sent_once c -> hash ∈ pc_request_hashes c;
  cw_once : NoDup (sent_once c);
}.

Lemma peer_conn_new_wf : conn_wf peer_conn_new.
Proof.
  split; cbn; try (intros ? ?%not_elem_of_nil; done).
  - intros id ps. by rewrite lookup_empty.
  - intros info ->%list_elem_of_singleton. done.
  - constructor.
Qed.

(** ** Steps *)

(** The peer states are remembered as long as the connection lives. *)
Lemma known_mono c c' id : pc_peer_states c ⊆ pc_peer_states c' -> known c id -> known c' id.
Proof. intros Hs [ps Hps]. exists ps. by eapply lookup_weaken. Qed.
Lemma request_ok_mono c c' request :
  pc_peer_states c ⊆ pc_peer_states c' -> request_ok c request -> request_ok c' request.
Proof.
  intros Hs [Hid Hr]. split; [|done]. intros (id & Hi & Hk)%Hid. exists id. split; [done|].
  by eapply known_mono.
Qed.
Lemma info_ok_mono c c' info :
  pc_peer_states c ⊆ pc_peer_states c' -> info_ok c info -> info_ok c' info.
Proof. destruct info; cbn; eauto using known_mono, request_ok_mono. Qed.

(** A state with the same table of peer states, more infos and other tasks *)
Lemma conn_wf_frame c c' infos :
  pc_peer_states c' = pc_peer_states c -> pc_requests c' = pc_requests c ->
  pc_request_hashes c' = pc_request_hashes c -> pc_infos c' = pc_infos c ++ infos ->
  (forall ps, ps ∈ pc_blocking_tasks c' -> known c (peer_state_id ps) /\ state_ok ps) ->
  Forall (info_ok c) infos -> conn_wf c -> conn_wf c'.
Proof.
  intros Hs Hr Hh Hi Ht Hf [H1 H2 H3 H4 H5 H6].
  assert (forall id, known c id -> known c' id) as Hk by (intros id; apply known_mono; by rewrite Hs).
  split; unfold sent_once; rewrite ?Hs, ?Hr, ?Hh, ?Hi; try done.
  - intros ps Hps. destruct (Ht ps Hps). auto.
  - intros request Hin. apply (request_ok_mono c); [by rewrite Hs|by apply H3].
  - intros info Hin. apply (info_ok_mono c); [by rewrite Hs|]. apply elem_of_app in Hin as [Hin|Hin]; [by apply H4|].
    rewrite Forall_forall in Hf. by apply Hf.
Qed.

Lemma push_info_wf c info : conn_wf c -> info_ok c info -> conn_wf (push_info info c).
Proof. intros Hw Hi. apply (conn_wf_frame c _ [info]); try done; [apply Hw|by constructor]. Qed.
(** What does not touch the tables and queues of the invariant *)
Lemma conn_wf_same c c' :
  pc_peer_states c' = pc_peer_states c -> pc_requests c' = pc_requests c ->
  pc_request_hashes c' = pc_request_hashes c -> pc_infos c' = pc_infos c ->
  pc_blocking_tasks c' = pc_blocking_tasks c -> conn_wf c -> conn_wf c'.
Proof.
  intros Hs Hr Hh Hi Ht Hw. apply (conn_wf_frame c c' []); rewrite ?app_nil_r, ?Ht; try done. apply Hw.
Qed.
Lemma set_blocking_tasks_wf c l :
  conn_wf c -> (forall ps, ps ∈ l -> known c (peer_state_id ps) /\ state_ok ps) -> conn_wf (set_blocking_tasks l c).
Proof. intros Hw Hl. apply (conn_wf_frame c _ []); try done; by rewrite app_nil_r. Qed.

Lemma put_peer_state_wf c ps :
  conn_wf c -> state_ok ps -> conn_wf (put_peer_state (peer_state_id ps) ps c).
Proof.
  intros [H1 H2 H3 H4 H5 H6] Hps.
  assert (forall id, known c id -> known (put_peer_state (peer_state_id ps) ps c) id) as Hk.
  { intros id [x Hx]. unfold known. cbn. destruct (decide (peer_state_id ps = id)) as [->|Hne].
    - rewrite lookup_insert_eq. by eexists.
    - rewrite lookup_insert_ne by done. by exists x. }
  assert (forall r, request_ok c r -> request_ok (put_peer_state (peer_state_id ps) ps c) r) as Hrk.
  { intros r [Hid Hr]. split; [|done]. intros (id & Hi & Hki)%Hid. exists id. auto. }
  split; cbn; try done.
  - intros id ps'. rewrite lookup_insert_Some. intros [[<- <-]|[_ Hx]]; [done|by apply H1].
  - intros ps' Hin. destruct (H2 ps' Hin). auto.
  - auto.
  - intros info Hin%H4. destruct info; cbn in *; auto.
Qed.

(** A request is queued, or was queued before. *)
Lemma send_request_wf {E} request c :
  conn_wf c -> request_ok c request ->
  conn_wf (send_request (E := E) request c).2 /\
  pc_peer_states (send_request (E := E) request c).2 = pc_peer_states c.
Proof.
  intros Hw Hr. unfold send_request.
  assert (forall hashes, (is_push request = false -> request_hash request ∉ sent_once c) ->
    (forall h, h ∈ sent_once c \/ is_push request = false /\ h = request_hash request -> h ∈ hashes) ->
    conn_wf (push_request hashes request c)) as Hpush.
  { intros hashes Hnew Hh. destruct Hw as [H1 H2 H3 H4 H5 H6].
    assert (sent_once (push_request hashes request c) =
      sent_once c ++ (if is_push request then [] else [request_hash request])) as Hso.
    { unfold sent_once. cbn. rewrite List.filter_app, fmap_app. cbn. by destruct (is_push request). }
    split; cbn [pc_requests pc_infos pc_blocking_tasks pc_peer_states pc_request_hashes push_request]; try done.
    - intros r [Hin| ->%list_elem_of_singleton]%elem_of_app; [by apply H3|done].
    - intros h. rewrite Hso, elem_of_app. intros [?|Hx]; apply Hh; [by left|right].
      destruct (is_push request); [by apply not_elem_of_nil in Hx|by apply list_elem_of_singleton in Hx].
    - rewrite Hso. apply NoDup_app. split_and!; [done| |destruct (is_push request); [constructor|apply NoDup_singleton]].
      intros h Hin Hx. destruct (is_push request) eqn:Hp; [by apply not_elem_of_nil in Hx|].
      apply list_elem_of_singleton in Hx as ->. by apply (Hnew eq_refl). }
  pose proof (cw_hashes _ Hw) as Hh.
  destruct request; try (case_bool_decide as Hin; [done|]); split; try done; cbn [snd]; apply Hpush; try done.
  - intros _ Hs. by apply Hin, Hh.
  - intros h [Hs|[_ ->]]; set_solver.
  - intros _ Hs. by apply Hin, Hh.
  - intros h [Hs|[_ ->]]; set_solver.
  - intros h [Hs|[Hc _]]; [by apply Hh|done].
Qed.

(** Operations on behalf of a peer state that is remembered *)
Definition serving (peer_state : PeerState) c : Prop :=
  conn_wf c /\ known c (peer_state_id peer_state) /\ state_ok peer_state.

Lemma send_request_serving {E} ps request :
  (forall c, known c (peer_state_id ps) -> state_ok ps -> request_ok c request) ->
  preserves (serving ps) (send_request (E := E) request).
Proof.
  intros Hr c (Hw & Hk & Hs). destruct (send_request_wf (E := E) request c Hw (Hr c Hk Hs)) as [Hw' Heq].
  split_and!; [done| |done]. unfold known. by rewrite Heq.
Qed.

Lemma request_headers_serving a own peer_tip_info ps :
  ps_tip_info ps = Some peer_tip_info ->
  preserves (serving ps) (request_headers a own peer_tip_info (peer_state_id ps)).
Proof.
  intros Hti. unfold request_headers. preserve. apply send_request_serving. intros c Hk Hs. split.
  - intros _. by exists (peer_state_id ps).
  - exists (ti_block_height peer_tip_info). split; [done|by apply Hs].
Qed.

Lemma check_peer_tip_serving a own peer_tip_info ps :
  ps_tip_info ps = Some peer_tip_info ->
  preserves (serving ps) (check_peer_tip_and_request_headers a own peer_tip_info (peer_state_id ps)).
Proof.
  intros Hti. pose proof (fun own => request_headers_serving a own peer_tip_info ps Hti) as Hr.
  unfold check_peer_tip_and_request_headers. preserve.
Qed.

Lemma request_bodies_serving ps peer_tip anc missing :
  preserves (serving ps) (request_bodies ps peer_tip anc missing).
Proof.
  induction missing as [|b missing IH]; cbn; [apply preserves_ret|]. apply preserves_bind; [|intros _; exact IH].
  apply send_request_serving. intros c Hk _. split; [|by eexists]. intros _. by exists (peer_state_id ps).
Qed.

Lemma handle_peer_state_serving db ps : preserves (serving ps) (handle_peer_state db ps).
Proof.
  unfold handle_peer_state. destruct (ps_tip_info ps) as [ti|] eqn:Hti; [|apply preserves_ret].
  pose proof (fun a own => check_peer_tip_serving a own ti ps Hti) as Hc.
  pose proof (fun tip anc l => request_bodies_serving ps tip anc l) as Hb. preserve; try apply preserves_writing.
  - intros c (Hw & Hk & Hs). split_and!; [by apply push_info_wf|done|done].
  - intros c (Hw & Hk & Hs). split_and!; [by apply push_info_wf|done|done].
Qed.

(** ** Runs of a connection *)

(** The identifiers that the net task has from this connection *)
Definition issued c (id : PeerStateId) : Prop :=
  (exists main_hash, Info_NeedMainchainAncestors main_hash id ∈ pc_infos c) \/
  (exists response request, Info_Response response request ∈ pc_infos c /\ request_id request = Some id).

(** What may arrive: the net task forwards transactions and returns identifiers that it was given,
    and an answer belongs to a request that was sent. *)
Definition item_ok c (item : MailboxItem) : Prop :=
  match item with
  | Item_InternalMessage (Internal_ForwardRequest request) => is_push request = true
  | Item_InternalMessage (Internal_BmmVerification _ id | Internal_MainchainAncestors id
      | Internal_Headers id | Internal_BodiesAvailable id) => issued c id
  | Item_PeerRequest (Message_Heartbeat peer_state) => state_ok peer_state
  | Item_PeerResponse _ request => request ∈ pc_requests c
  | _ => True
  end.

Inductive conn_reachable : PeerConn -> Prop :=
| conn_new : conn_reachable peer_conn_new
| conn_step db item c c' :
    conn_reachable c -> item_ok c item -> run_item db item c = (Ok tt, c') -> conn_reachable c'.

Lemma issued_known c id : conn_wf c -> issued c id -> known c id.
Proof.
  intros Hw [[m Hin]|(response & request & Hin & Hid)]; apply (cw_infos _ Hw) in Hin; cbn in Hin; [done|].
  destruct Hin as [Hr _]. destruct (is_push request) eqn:Hp; [by destruct request|].
  destruct (Hr eq_refl) as (id' & Hid' & Hk). congruence.
Qed.

Lemma queue_peer_state_wf ps : forall c,
  conn_wf c -> known c (peer_state_id ps) -> state_ok ps -> conn_wf (queue_peer_state ps c).2.
Proof.
  intros c Hw Hk Hs. apply set_blocking_tasks_wf; [done|].
  intros ps' [Hin| ->%list_elem_of_singleton]%elem_of_app; [by apply (cw_tasks _ Hw)|done].
Qed.

Lemma resume_peer_state_wf c id :
  conn_wf c -> known c id ->
  exists ps, pc_peer_states c !! id = Some ps /\ resume_peer_state id c = queue_peer_state ps c /\
    conn_wf (resume_peer_state id c).2.
Proof.
  intros Hw [ps Hps]. destruct (cw_states _ Hw id ps Hps) as [Hid Hs].
  exists ps. unfold resume_peer_state, mbind, op_bind, reading. rewrite Hps. cbn [ok_or].
  split_and!; [done|done|]. apply queue_peer_state_wf; [done| |done]. rewrite <-Hid. by eexists.
Qed.

Lemma handle_internal_message_wf c msg :
  conn_wf c -> item_ok c (Item_InternalMessage msg) -> conn_wf (handle_internal_message msg c).2.
Proof.
  intros Hw Hok. assert (forall id, issued c id -> conn_wf (resume_peer_state id c).2) as Hres.
  { intros id Hid. by destruct (resume_peer_state_wf c id Hw (issued_known c id Hw Hid)) as (ps & _ & _ & ?). }
  destruct msg as [[] id| |request|id| |id|id]; cbn in Hok |- *; auto.
  destruct (send_request_wf (E := ConnectionError) request c Hw) as [Hw' _].
  - destruct request; try done.
  - revert Hw'. unfold mbind, op_bind. by destruct (send_request request c) as [[]].
Qed.

Lemma handle_peer_request_wf db c msg :
  conn_wf c -> item_ok c (Item_PeerRequest msg) -> conn_wf (handle_peer_request db msg c).2.
Proof.
  intros Hw Hok. destruct msg as [ps|[request|request|tx]].
  - cbn [handle_peer_request]. unfold mbind, op_bind, writing, reading. cbn [fst snd].
    assert (conn_wf (put_peer_state (peer_state_id ps) ps c)) as Hw' by (by apply put_peer_state_wf).
    assert (known (put_peer_state (peer_state_id ps) ps c) (peer_state_id ps)) as Hk.
    { unfold known. cbn. rewrite lookup_insert_eq. by eexists. }
    destruct (decide _); [done|]. pose proof (queue_peer_state_wf ps _ Hw' Hk Hok) as Hq.
    revert Hq. unfold queue_peer_state, writing. cbn [fst snd]. intros Hq.
    eapply conn_wf_same; [..|exact Hq]; done.
  - by apply (conn_wf_same c).
  - by apply (conn_wf_same c).
  - cbn. unfold handle_push_tx. destruct (validate_transaction _ tx) as [fee|e|]; [..|done];
      unfold mbind, op_bind, writing, lifted; cbn [fst snd].
    + apply push_info_wf; [|done]. by apply (conn_wf_same c).
    + destruct (is_no_utxo e); by apply (conn_wf_same c).
Qed.

Lemma run_item_wf db item c : conn_wf c -> item_ok c item -> conn_wf (run_item db item c).2.
Proof.
  intros Hw Hok. destruct item as [msg| |msg|response request| |index]; cbn [run_item].
  - by apply handle_internal_message_wf.
  - unfold send_heartbeat. rewrite op_lifted_bind. destruct (map_err _ _); [|done..]. by apply (conn_wf_same c).
  - by apply handle_peer_request_wf.
  - unfold peer_response. destruct response; [|by apply push_info_wf|done].
    apply push_info_wf; [done|]. by apply (cw_requests _ Hw).
  - unfold run_blocking_task, mbind, op_bind, reading. destruct (pc_blocking_tasks c) as [|ps tasks] eqn:Ht; [done|].
    unfold writing, zoom, id. destruct (cw_tasks _ Hw ps) as [Hk Hs]; [rewrite Ht; apply list_elem_of_here|].
    assert (conn_wf (set_blocking_tasks tasks c)) as Hw'.
    { apply set_blocking_tasks_wf; [done|]. intros ps' Hin. apply (cw_tasks _ Hw). rewrite Ht.
      by apply list_elem_of_further. }
    pose proof (handle_peer_state_serving db ps _ (conj Hw' (conj Hk Hs))) as (Hw'' & _).
    by destruct (handle_peer_state db ps (set_blocking_tasks tasks c)) as [[] c1].
  - unfold run_forward_task, mbind, op_bind, reading. destruct (pc_forward_tasks c !! index) as [[start end_]|]; [|done].
    unfold writing, lifted. destruct (map_err _ _); by apply (conn_wf_same c).
Qed.
End conn.

Lemma conn_reachable_wf `{Externals} `{NetExternals} c : conn_reachable c -> conn_wf c.
Proof.
  induction 1 as [|db item c c' _ IH Hok Hr]; [apply peer_conn_new_wf|].
  pose proof (run_item_wf db item c IH Hok) as Hw. by rewrite Hr in Hw.
Qed.

Lemma run_item_not_missing `{Externals} `{NetExternals} db item c id c' :
  conn_wf c -> item_ok c item -> run_item db item c <> (Err (Conn_MissingPeerState id), c').
Proof.
  intros Hw Hok Hr. assert (forall psid, issued c psid -> resume_peer_state psid c <> (Err (Conn_MissingPeerState id), c')) as Hres.
  { intros psid Hid. by destruct (resume_peer_state_wf c psid Hw (issued_known c psid Hw Hid)) as (ps & _ & -> & _). }
  destruct item as [msg| |msg|response request| |index]; cbn [run_item] in Hr.
  - destruct msg as [[] psid| |request|psid| |psid|psid]; cbn in Hok, Hr; try done; try by apply (Hres psid).
    unfold mbind, op_bind, send_request in Hr. destruct request; try done; by case_bool_decide.
  - unfold send_heartbeat in Hr. rewrite op_lifted_bind in Hr. by destruct (own_tip_info db).
  - destruct msg as [ps|[request|request|tx]]; cbn in Hr; try done.
    + unfold mbind, op_bind, writing, reading in Hr. cbn in Hr. by destruct (decide _).
    + unfold handle_push_tx in Hr. destruct (validate_transaction _ tx) as [fee|e|]; try done.
      unfold mbind, op_bind, writing, lifted in Hr. by destruct (is_no_utxo e).
  - unfold peer_response in Hr. by destruct response.
  - unfold run_blocking_task, mbind, op_bind, reading in Hr. destruct (pc_blocking_tasks c) as [|ps tasks]; [done|].
    unfold writing, zoom in Hr. by destruct (handle_peer_state db ps _) as [[] c1].
  - unfold run_forward_task, mbind, op_bind, reading in Hr.
    destruct (pc_forward_tasks c !! index) as [[start end_]|]; [|done]. unfold writing, lifted in Hr.
    by destruct (headers_response _ start end_).
Qed.

(** C25 In every state that a connection reaches, no message ends it for a peer state that it has forgotten,
    every queued request has a limit for its answer, and no request for a block or for headers is queued twice.
    This is for what arrives in order ([item_ok]): the net task returns only identifiers that this connection
    gave it and forwards only transactions, and an answer belongs to a request that was sent.
    [stale_answer_ends_connection] is a run in which the net task does not keep to this. *)
Theorem connection_invariant `{Externals} `{NetExternals} (c : PeerConn) :
  conn_reachable c ->
  (forall db item id c', item_ok c item -> run_item db item c <> (Err (Conn_MissingPeerState id), c')) /\
  (forall request, request ∈ pc_requests c -> exists limit, read_response_limit (E := ConnectionError) request = Ok limit) /\
  NoDup (sent_once c).
Proof.
  intros Hr. pose proof (conn_reachable_wf c Hr) as Hw. split_and!.
  - intros db item id c'. by apply run_item_not_missing.
  - intros request Hin. destruct (cw_requests _ Hw request Hin) as [_ Hok].
    destruct request as [request|request|tx]; [by eexists| |by eexists].
    destruct Hok as (height & Hh & Hle). cbn. rewrite Hh. cbn [expect mbind result_bind].
    rewrite (proj2 (N.ltb_lt _ _)); [by eexists|]. unfold u32_MAX, READ_HEADER_LIMIT in *. lia.
  - apply (cw_once _ Hw).
Qed.

(** A request for a block that was sent is not sent again on behalf of another peer state or
    tip: the hash leaves out what only the requester uses. *)
Theorem block_requested_once `{Externals} `{NetExternals} (c : PeerConn) (block_hash : BlockHash)
    (tip tip' : option Tip) (anc anc' : option BlockHash) (id id' : option PeerStateId) :
  conn_reachable c ->
  Request_GetBlock (mkGetBlockRequest block_hash tip anc id) ∈ pc_requests c ->
  send_request (E := TaskError) (Request_GetBlock (mkGetBlockRequest block_hash tip' anc' id')) c = (Ok false, c).
Proof.
  intros Hr Hin. pose proof (conn_reachable_wf c Hr) as Hw. unfold send_request.
  rewrite bool_decide_true; [done|]. apply (cw_hashes _ Hw), list_elem_of_fmap.
  exists (Request_GetBlock (mkGetBlockRequest block_hash tip anc id)). split; [done|].
  apply list_elem_of_In, List.filter_In. split; [by apply list_elem_of_In|done].
Qed.
