(* ===== verification/NetBodies.v ===== *)
(** * Bodies from peers

    [handle_response] of [src/lib/node/net_task.rs] for blocks: the tips that wait for a body are those
    that lack it, and a tip that is sent on as ready has the bodies of its branch. *)

From S2P Require Import Prelude Types Transaction Authorization State Merkle SideTips Lineage.
From S2P Require Import Archive ArchiveTree ArchiveWf ArchiveBodies TipsWf ArchiveQueries ArchiveIter.
From S2P Require Import BetterTip NodeTask PeerMessage PeerTask PeerBodies PeerSync.
From S2P Require Import NetAddress Net NetTask.

(** ** Verifications *)

Definition tip_verified (a : Archive) (tip : Tip) : Prop :=
  try_get_bmm_result a (tip_block_hash tip) (tip_main_block_hash tip) = Some Bmm_Verified.

Lemma tip_of_verified a b tip : tip_of a b = Ok tip -> tip_block_hash tip = b /\ tip_verified a tip.
Proof.
  unfold tip_of, get_best_main_verification, try_get_best_main_verification.
  intros (m & Hm%map_err_Ok & [= <-])%bind_Ok. split; [done|].
  apply bind_Ok in Hm as (best & Hb & Hm). apply bind_Ok in Hb as (found & Hf & [= <-]).
  apply ok_or_Ok in Hm. destruct found as [[w m']|]; [|done]. injection Hm as ->.
  apply (fold_res_inv _ (fun best => match best with
    | Some (_, m) => get_bmm_results a b !! m = Some Bmm_Verified | None => True end)) in Hf; [done| |done].
  intros best m0 best' Hin Hbest (w0 & _ & [= <-])%bind_Ok.
  apply list_elem_of_fmap in Hin as ([m1 r] & -> & Hin%elem_of_map_to_list).
  apply map_lookup_filter_Some in Hin as [Hin Hr]. cbn in *. subst r.
  destruct best as [[key ?]|]; [destruct (_ <? _)|]; done.
Qed.

Section verification.
Context (a : Archive) (Hw : archive_wf a).

Lemma verified_known b m : get_bmm_results a b !! m = Some Bmm_Verified -> is_Some (ar_main_header_infos a !! m).
Proof. intros (h & info & mh & Hb)%(aw_verified _ Hw). eexists. apply Hb. Qed.

Lemma find_verification_sound main l m :
  find_verification a main l = Ok (Some m) -> (m, Bmm_Verified) ∈ l.
Proof.
  induction l as [|[m0 []] l IH]; cbn [find_verification]; [done| |].
  - intros (d & _ & Hd)%bind_Ok. destruct d; [injection Hd as ->; apply list_elem_of_here|].
    apply list_elem_of_further. by apply IH.
  - intros ?%IH. by apply list_elem_of_further.
Qed.

Lemma find_verification_total main l m :
  is_Some (ar_main_header_infos a !! main) ->
  (forall m0, (m0, Bmm_Verified) ∈ l -> is_Some (ar_main_header_infos a !! m0)) ->
  (m, Bmm_Verified) ∈ l -> ancestor (ix_parent (main_index a)) m main ->
  exists m', find_verification a main l = Ok (Some m').
Proof.
  intros Hmain. induction l as [|[m0 r] l IH]; intros Hl Hin Ha; [by apply not_elem_of_nil in Hin|].
  assert (forall m1, (m1, Bmm_Verified) ∈ l -> is_Some (ar_main_header_infos a !! m1)) as Hl'.
  { intros m1 H1. apply Hl. by apply list_elem_of_further. }
  cbn [find_verification]. destruct r.
  - destruct (is_main_descendant_total a m0 main (aw_main _ Hw)) as [d Hd]; [apply Hl, list_elem_of_here|done|].
    rewrite Hd. cbn. destruct d; [by eexists|]. apply IH; try done.
    apply elem_of_cons in Hin as [[= <-]|?]; [|done].
    exfalso. by assert (false = true) by by apply (is_main_descendant_Ok a m main false (aw_main _ Hw) Hd).
  - apply IH; try done. apply elem_of_cons in Hin as [?|?]; done.
Qed.
End verification.

(** The mainchain block that [apply_new_tips] unwraps is found, when the block is on the branch of a
    verified tip. *)
Lemma verification_found `{NetExternals} (Hiter : iter_spec) a b (tip : Tip) :
  archive_wf a -> tip_verified a tip -> ancestor (ix_parent (side_index a)) b (tip_block_hash tip) ->
  exists m, find_verification a (tip_main_block_hash tip) (map_iter (get_bmm_results a b)) = Ok (Some m) /\
    tip_verified a (mkTip b m).
Proof.
  intros Hw Hv [k Hb]. destruct (verified_ancestor_at a Hw k _ _ _ Hv Hb) as (m & Hm & Ha).
  assert (forall m0 r, (m0, r) ∈ map_iter (get_bmm_results a b) <-> get_bmm_results a b !! m0 = Some r) as Hin.
  { intros m0 r. rewrite (proj1 Hiter _ _ _ _ (get_bmm_results a b)). apply elem_of_map_to_list. }
  destruct (find_verification_total a Hw (tip_main_block_hash tip) (map_iter (get_bmm_results a b)) m)
    as [m' Hm']; try done.
  - by apply (verified_known a Hw (tip_block_hash tip)).
  - intros m0 H0%Hin. by apply (verified_known a Hw b).
  - by apply Hin.
  - exists m'. split; [done|]. by apply Hin, (find_verification_sound a (tip_main_block_hash tip)).
Qed.

(** ** Branches above a common ancestor *)

Section above.
Context (a : Archive) (Hw : archive_wf a).
Let par := ix_parent (side_index a).
Context (Hsmall : forall b k, archive_try_get_height a b = Some k -> k < 2 ^ 31).

(** The height from which the bodies of the branch of [b] are looked for, as far as [own] is concerned *)
Definition searched_from (own : option BlockHash) (b : BlockHash) (s : u32) : Prop :=
  forall c kc, ancestor par c b -> (forall t, own = Some t -> ~ ancestor par c t) ->
    archive_try_get_height a c = Some kc -> s <= kc.

Lemma u32_add_height b k : archive_try_get_height a b = Some k -> u32_add k 1 = k + 1.
Proof. intros Hk%Hsmall. apply u32_add_small. unfold u32_MAX. lia. Qed.

Lemma height_after_small b anc h k :
  archive_try_get_height a b = Some k -> (forall c, anc = Some c -> ancestor par c b) ->
  ancestor_height a anc = Ok h -> height_after_ancestor h <= k + 1.
Proof.
  intros Hk Hanc. destruct anc as [c|]; cbn; [|intros [= <-]; cbn; lia].
  intros (kc & Hkc%ok_or_Ok & ->)%fmap_Ok. cbn. rewrite (u32_add_height c kc Hkc).
  pose proof (ancestor_le (index_tree _ (aw_side _ Hw)) c b kc k Hkc Hk (Hanc c eq_refl)). lia.
Qed.

Lemma common_searched_from (own : option BlockHash) b k anc h :
  archive_try_get_height a b = Some k ->
  match own with
  | Some t => last_common_ancestor a b t = Ok anc
  | None => anc = None
  end ->
  ancestor_height a anc = Ok h ->
  searched_from own b (height_after_ancestor h) /\ forall c, anc = Some c -> ancestor par c b.
Proof.
  intros Hk Hown Hh. pose proof (index_tree _ (aw_side _ Hw)) as T. destruct own as [t|].
  2: { subst anc. injection Hh as <-. split; [|done]. intros c kc _ _ _. cbn. lia. }
  destruct (last_common_heights a _ _ _ Hown) as (k0 & kt & Hk0 & Hkt).
  destruct (last_common_ancestor_Ok a b t k0 kt (aw_side _ Hw) Hk0 Hkt) as (r & Hr & Hlast).
  { pose proof (Hsmall b k0 Hk0). lia. }
  rewrite Hown in Hr. injection Hr as <-. destruct anc as [c0|].
  - cbn in Hh. apply fmap_Ok in Hh as (kc0 & Hkc0%ok_or_Ok & ->). split; [|by intros c [= <-]; apply Hlast].
    intros c kc Hc Hnot Hkc. cbn. rewrite (u32_add_height c0 kc0 Hkc0).
    destruct (decide (kc <= kc0)) as [Hle|]; [|lia]. exfalso. apply (Hnot t eq_refl).
    eapply ancestor_trans; [|apply Hlast].
    apply (ancestor_below T c0 c b k kc0 kc Hk Hkc0 Hkc Hle); [apply Hlast|done].
  - injection Hh as <-. split; [|done]. intros c kc _ _ _. cbn. lia.
Qed.

(** No body is missing, or those below the earliest missing one are there. *)
Lemma searched_available own b k s :
  archive_try_get_height a b = Some k -> s <= k + 1 -> searched_from own b s ->
  iter_missing_bodies a b s = Ok [] -> bodies_available a own b.
Proof.
  intros Hk Hs Hf Hm c Hc Hnot.
  pose proof Hc as (kc & _ & Hkc & _)%(ancestor_spec (index_tree _ (aw_side _ Hw)) _ _ k Hk).
  apply (no_missing_bodies a (aw_side _ Hw) b k s Hk Hs c kc Hm Hc Hkc). by apply (Hf c).
Qed.
Lemma searched_available_below own b k s e rest p header :
  archive_try_get_height a b = Some k -> s <= k + 1 -> searched_from own b s ->
  iter_missing_bodies a b s = Ok (e :: rest) ->
  ar_headers a !! e = Some header -> hd_prev_side_hash header = Some p -> bodies_available a own p.
Proof.
  intros Hk Hs Hf Hm Hh Hp. pose proof (index_tree _ (aw_side _ Hw)) as T.
  destruct (earliest_missing_body a (aw_side _ Hw) b k s Hk Hs e rest Hm) as (ke & Hse & Hke & Hanc & _ & Hbelow).
  assert (par e = Some p) as Hpar by (unfold par, ix_parent; cbn; by rewrite lookup_fmap, Hh).
  assert (ancestor par p e) as Hpe by (exists 1%nat; cbn [ancestor_at]; by rewrite Hpar).
  intros c Hc Hnot. assert (ancestor par c b) as Hcb by (eapply ancestor_trans; [|exact Hanc]; by eapply ancestor_trans).
  pose proof Hcb as (kc & _ & Hkc & _)%(ancestor_spec T _ _ k Hk).
  apply (Hbelow c kc Hcb Hkc); [by apply (Hf c)|].
  pose proof Hpe as (kp & _ & Hkp & _)%(ancestor_spec T _ _ ke Hke).
  pose proof (ancestor_le T c p kc kp Hkc Hkp Hc). destruct (ancestor_at_height T 1 e ke p Hke) as [? Hkp'].
  { cbn [ancestor_at]. unfold par in Hpar. by rewrite Hpar. }
  rewrite Hkp in Hkp'. injection Hkp' as ->. lia.
Qed.
End above.

(** ** The handler *)

(** The tips that wait for a body lack it, are verified and build on its block. [except]: a body that
    has just been stored *)
Definition waiting (a : Archive) (except : option BlockHash)
    (descendant_tips : gmap BlockHash (gmap Tip (gset SocketAddr))) : Prop :=
  forall key tips tip sources, descendant_tips !! key = Some tips -> tips !! tip = Some sources ->
    (Some key <> except -> ar_bodies a !! key = None) /\
    tip_verified a tip /\ ancestor (ix_parent (side_index a)) key (tip_block_hash tip).

(** A tip that the node can switch to from its own *)
Record tip_ready_at (a : Archive) (own : option BlockHash) (tip : Tip) : Prop := {
  tr_verified : tip_verified a tip;
  tr_bodies : bodies_available a own (tip_block_hash tip);
}.

(** A tip that a peer announced waits for the body of [key]. *)
Definition waits (descendant_tips : gmap BlockHash (gmap Tip (gset SocketAddr))) (key : BlockHash) (tip : Tip)
    (addr : SocketAddr) : Prop :=
  exists tips sources, descendant_tips !! key = Some tips /\ tips !! tip = Some sources /\ addr ∈ sources.

Lemma waits_wait_for_body t key tip sources addr :
  addr ∈ sources -> waits (nt_descendant_tips (wait_for_body key tip sources t)) key tip addr.
Proof.
  intros Ha. eexists _, _. cbn. rewrite lookup_insert_eq. split; [done|]. rewrite lookup_insert_eq. split; [done|set_solver].
Qed.
(** A tip that waits keeps waiting when another one is added. *)
Lemma waits_mono t key tip sources key' tip' addr :
  waits (nt_descendant_tips t) key' tip' addr ->
  waits (nt_descendant_tips (wait_for_body key tip sources t)) key' tip' addr.
Proof.
  intros (tips & src & Hk & Ht & Ha). unfold waits. cbn. destruct (decide (key' = key)) as [->|Hne].
  - rewrite lookup_insert_eq, Hk. cbn [default]. destruct (decide (tip' = tip)) as [->|Hnt].
    + exists (<[tip:=default ∅ (tips !! tip) ∪ sources]> tips), (src ∪ sources). split; [done|].
      rewrite lookup_insert_eq, Ht. split; [done|set_solver].
    + exists (<[tip:=default ∅ (tips !! tip) ∪ sources]> tips), src. by rewrite lookup_insert_ne.
  - exists tips, src. by rewrite lookup_insert_ne.
Qed.

Section handler.
Context `{Externals} `{WorkExternals} `{NetExternals}.
Context (db : NodeDb).
Let a := nd_archive db.
Let own := try_get_tip (nd_state db).
Context (Hw : archive_wf a) (Hsmall : forall b k, archive_try_get_height a b = Some k -> k < 2 ^ 31).
Context (sent : list (Tip * option SocketAddr)).

(** The state of the task while it handles a block: what it has sent is ready. *)
Record handling (except : option BlockHash) (t : NetTask) : Prop := {
  ha_db : nt_db t = db;
  ha_waiting : waiting a except (nt_descendant_tips t);
  ha_ready : exists messages, nt_new_tip_ready t = sent ++ messages /\
    forall tip source, (tip, source) ∈ messages -> tip_ready_at a own tip;
}.

Lemma current_tip_own tip : current_tip db = Ok tip -> tip_block_hash <$> tip = own.
Proof.
  unfold current_tip. fold own. destruct own as [tp|]; [|by intros [= <-]].
  intros (tp' & Ho & ->)%fmap_Ok. cbn. by destruct (tip_of_verified _ _ _ Ho) as [-> _].
Qed.

Lemma verified_height tip : tip_verified a tip -> exists k, archive_try_get_height a (tip_block_hash tip) = Some k.
Proof.
  intros (h & info & mh & Hb)%(aw_verified _ Hw). destruct (iw_dom _ (aw_side _ Hw) (tip_block_hash tip)) as [[k Hk] _].
  { cbn. rewrite lookup_fmap, (bk_header _ _ _ _ _ _ Hb). by eexists. }
  by exists k.
Qed.

Lemma handling_send except t messages :
  handling except t -> (forall tip source, (tip, source) ∈ messages -> tip_ready_at a own tip) ->
  handling except (send_new_tip_ready messages t).
Proof.
  intros [Hdb Hwt (m & Hm & Hr)] Hnew. split; [done|done|]. exists (m ++ messages). cbn. rewrite Hm, app_assoc.
  split; [done|]. intros tip source [Hin|Hin]%elem_of_app; eauto.
Qed.

Lemma handling_wait except t key tip sources :
  handling except t -> ar_bodies a !! key = None -> tip_verified a tip ->
  ancestor (ix_parent (side_index a)) key (tip_block_hash tip) ->
  handling except (wait_for_body key tip sources t).
Proof.
  intros [Hdb Hwt Hr] Hm Hv Ha. split; [done| |done]. intros key' tips tip' sources' Hk Ht. cbn in Hk.
  destruct (decide (key' = key)) as [->|Hne].
  - rewrite lookup_insert_eq in Hk. injection Hk as <-. destruct (decide (tip' = tip)) as [->|Hnt].
    + by split_and!.
    + rewrite lookup_insert_ne in Ht by done. destruct (nt_descendant_tips t !! key) as [tips|] eqn:Hk;
        cbn [default] in Ht; [by apply (Hwt key tips tip' sources')|]. by rewrite lookup_empty in Ht.
  - rewrite lookup_insert_ne in Hk by done. by apply (Hwt key' tips tip' sources').
Qed.

(** The connection is told, or its tip waits. *)
Lemma notify_bodies_handling except t t' b tip anc id addr :
  handling except t -> tip_verified a tip -> ancestor (ix_parent (side_index a)) b (tip_block_hash tip) ->
  (forall c, anc = Some c -> ancestor (ix_parent (side_index a)) c b) ->
  notify_bodies b tip anc id addr t = (Ok tt, t') -> handling except t'.
Proof.
  intros Ht Hv Hb Hanc Hn. unfold notify_bodies, reading_archive in Hn. op_inv.
  unfold archive_result, node_result in *. op_inv. repeat res_step. subst x. rewrite (ha_db _ _ Ht) in *. fold a in Ho0, Ho1.
  destruct (verified_height tip Hv) as [kt Hkt].
  pose proof Hb as (kb & _ & Hkb & _)%(ancestor_spec (index_tree _ (aw_side _ Hw)) _ _ kt Hkt).
  destruct x1 as [|e rest]; cbn [head] in Hn; op_inv.
  - unfold push_message in Hn. op_inv. destruct Ht as [Hdb Hwt Hr]. by split.
  - assert (height_after_ancestor x0 <= kb + 1) as Hs by by eapply height_after_small.
    destruct (earliest_missing_body a (aw_side _ Hw) b kb _ Hkb Hs e rest Ho1) as (ke & _ & _ & He & Hm & _).
    apply handling_wait; try done. by eapply ancestor_trans.
Qed.

Section tips.
Context (tip : option Tip) (Htip : tip_block_hash <$> tip = own).

Lemma next_tip_handling t t' dt sources r :
  handling None t -> tip_verified a dt -> next_tip a tip dt sources t = (Ok r, t') ->
  handling None t' /\ forall next, r = Some next -> tip_ready_at a own next.
Proof.
  intros Ht Hv Hn. unfold next_tip in Hn. op_inv. rename x into anc, x0 into h, x1 into missing.
  unfold archive_result, node_result in *. op_inv. repeat res_step.
  destruct (verified_height dt Hv) as [k Hk].
  assert (w = t /\ match own with Some t => last_common_ancestor a (tip_block_hash dt) t = Ok anc | None => anc = None end)
    as [-> Hanc].
  { destruct tip as [tp|]; cbn in Htip; rewrite <-Htip; op_inv; [|done]. by do 2 apply map_err_Ok in Ho. }
  destruct (common_searched_from a Hw Hsmall own (tip_block_hash dt) k anc h Hk Hanc Ho0) as [Hf Hle].
  assert (height_after_ancestor h <= k + 1) as Hs by by eapply height_after_small.
  destruct missing as [|e rest]; cbn [head] in Hn; op_inv.
  - split; [done|]. intros next [= <-]. split; [done|]. by eapply searched_available.
  - repeat res_step.
    destruct (earliest_missing_body a (aw_side _ Hw) _ k _ Hk Hs e rest Ho1) as (ke & _ & _ & He & Hm & _).
    assert (handling None (wait_for_body e dt sources t)) as Ht' by by apply handling_wait.
    destruct (hd_prev_side_hash x0) as [p|] eqn:Hp; op_inv; [|done]. repeat res_step. split; [done|].
    intros next [= <-]. destruct (tip_of_verified a p x1 Ho2) as [Hb Hvx]. split; [done|]. rewrite Hb.
    apply ok_or_Ok in Ho3. by eapply searched_available_below.
Qed.

Lemma check_descendant_tip_handling t t' dt sources :
  handling None t -> tip_verified a dt -> check_descendant_tip tip dt sources t = (Ok tt, t') -> handling None t'.
Proof.
  intros Ht Hv Hc. unfold check_descendant_tip, reading_archive in Hc. op_inv. injection Ho as <-.
  rewrite (ha_db _ _ Ht) in Ho0, Hc. fold a in Ho0, Hc.
  destruct (next_tip_handling _ _ _ _ _ Ht Hv Ho0) as [Hw1 Hr]. destruct x0 as [next|]; op_inv; [|done].
  assert (w = w0) as ->.
  { destruct tip; unfold node_result in Ho; by op_inv. }
  destruct x; op_inv; [|done]. apply handling_send; [done|].
  intros tp source (src & [= -> ->] & _)%list_elem_of_fmap. by apply Hr.
Qed.

Lemma check_descendant_tips_handling tips : forall t t',
  handling None t -> Forall (fun p => tip_verified a p.1) tips ->
  check_descendant_tips tip tips t = (Ok tt, t') -> handling None t'.
Proof.
  induction tips as [|[dt sources] tips IH]; intros t t' Ht Hall Hc; cbn [check_descendant_tips] in Hc; op_inv; [done|].
  apply Forall_cons in Hall as [Hv Hall]. destruct x. eapply IH; [|done|exact Hc].
  by eapply check_descendant_tip_handling.
Qed.
End tips.

(** A verified block on top of the node's own tip *)
Lemma extension_ready b m header :
  tip_verified a (mkTip b m) -> ar_headers a !! b = Some header -> hd_prev_side_hash header = own ->
  is_Some (ar_bodies a !! b) -> tip_ready_at a own (mkTip b m).
Proof.
  intros Hv Hh Hp Hbody. split; [done|]. intros c [n Hc] Hnot. cbn [tip_block_hash] in *.
  destruct n as [|n]; cbn [ancestor_at] in Hc; [by injection Hc as <-|].
  assert (ix_parent (side_index a) b = own) as Hpar by (unfold ix_parent; cbn; by rewrite lookup_fmap, Hh).
  rewrite Hpar in Hc. destruct own as [t|]; [|done]. exfalso. apply (Hnot t eq_refl). by exists n.
Qed.

(** The steps of [apply_new_tips]: a block on top of the node's own tip is sent on, and then the tips that waited for
    the block are checked, out of the table. *)
Lemma apply_new_tips_steps (Hiter : iter_spec) t t' b header dt addr :
  handling (Some b) t -> tip_verified a dt -> ancestor (ix_parent (side_index a)) b (tip_block_hash dt) ->
  ar_headers a !! b = Some header -> is_Some (ar_bodies a !! b) ->
  apply_new_tips b header dt addr t = (Ok tt, t') ->
  exists tip t1, current_tip db = Ok tip /\ handling None t1 /\
    nt_descendant_tips t1 = delete b (nt_descendant_tips t) /\
    match nt_descendant_tips t !! b with
    | None => t' = t1
    | Some tips => Forall (fun p => tip_verified a p.1) (map_iter tips) /\
        check_descendant_tips tip (map_iter tips) t1 = (Ok tt, t')
    end.
Proof.
  intros Ht Hv Hb Hh Hbody Hn. unfold apply_new_tips, reading_archive in Hn. op_inv. injection Ho0 as <-.
  rewrite (ha_db _ _ Ht) in *. apply map_err_Ok in Ho. fold a in Ho1. pose proof (current_tip_own x Ho) as Hown.
  unfold archive_result, node_result in Ho1. op_inv. do 2 apply map_err_Ok in Ho1.
  destruct (verification_found Hiter a b dt Hw Hv Hb) as (m & Hm & Hvm). rewrite Hm in Ho1. injection Ho1 as <-.
  apply expect_Ok in Ho2. injection Ho2 as <-.
  assert (handling (Some b) w3 /\ nt_descendant_tips w3 = nt_descendant_tips t) as [Ht4 Htable].
  { case_bool_decide as Hp; op_inv; [|done]. split; [|done]. apply handling_send; [done|].
    intros tp source [= -> ->]%list_elem_of_singleton. eapply extension_ready; [done|done|congruence|done]. }
  injection Ho4 as <-. assert (forall t0, nt_db t0 = db -> nt_new_tip_ready t0 = nt_new_tip_ready w3 ->
    nt_descendant_tips t0 = delete b (nt_descendant_tips w3) -> handling None t0) as Hdel.
  { intros t0 Hdb Hrd Hdt. destruct Ht4 as [Hdb4 Hwt4 Hr4]. split; [done| |by rewrite Hrd].
    rewrite Hdt. intros key tips tip sources [Hne Hk]%lookup_delete_Some Htp.
    destruct (Hwt4 key tips tip sources Hk Htp) as (H1' & H2' & H3'). split_and!; [|done|done].
    intros _. apply H1'. congruence. }
  exists x. destruct (nt_descendant_tips w3 !! b) as [tips|] eqn:Hk; op_inv.
  - exists (put_descendant_tips (delete b (nt_descendant_tips w3)) w3).
    split; [done|]. split; [by apply Hdel; [apply (ha_db _ _ Ht4)|..]|]. rewrite <-Htable, Hk. split; [done|]. split; [|exact Hn].
    apply Forall_forall. intros [tp sources] Hin. rewrite (proj1 Hiter _ _ _ _ tips) in Hin.
    apply elem_of_map_to_list in Hin. by apply (ha_waiting _ _ Ht4 b tips tp sources).
  - exists w3. split; [done|]. split; [by apply Hdel; [apply (ha_db _ _ Ht4)| |rewrite delete_id]|].
    rewrite <-Htable, Hk. split; [|done]. by rewrite delete_id.
Qed.

Lemma apply_new_tips_handling (Hiter : iter_spec) t t' b header dt addr :
  handling (Some b) t -> tip_verified a dt -> ancestor (ix_parent (side_index a)) b (tip_block_hash dt) ->
  ar_headers a !! b = Some header -> is_Some (ar_bodies a !! b) ->
  apply_new_tips b header dt addr t = (Ok tt, t') -> handling None t'.
Proof.
  intros Ht Hv Hb Hh Hbody Hn.
  destruct (apply_new_tips_steps Hiter _ _ _ _ _ _ Ht Hv Hb Hh Hbody Hn) as (tip & t1 & Htip & Ht1 & _ & Hc).
  destruct (nt_descendant_tips t !! b) as [tips|]; [|by subst]. destruct Hc as [Hall Hc].
  by eapply (check_descendant_tips_handling tip (current_tip_own tip Htip)).
Qed.
End handler.

(** ** No tip is lost *)

(** The table and the messages grow. *)
Record grows (t t' : NetTask) : Prop := {
  gr_waits key tip addr : waits (nt_descendant_tips t) key tip addr -> waits (nt_descendant_tips t') key tip addr;
  gr_ready : exists messages, nt_new_tip_ready t' = nt_new_tip_ready t ++ messages;
}.
#[export] Instance grows_preorder : PreOrder grows.
Proof.
  split.
  - intros t. split; [done|]. exists []. by rewrite app_nil_r.
  - intros t1 t2 t3 [W1 [m1 R1]] [W2 [m2 R2]]. split; [eauto|]. exists (m1 ++ m2). by rewrite R2, R1, app_assoc.
Qed.
Lemma grows_wait t key tip sources : grows t (wait_for_body key tip sources t).
Proof. split; [intros; by apply waits_mono|]. exists []. by rewrite app_nil_r. Qed.
Lemma grows_send t messages : grows t (send_new_tip_ready messages t).
Proof. split; [done|]. by exists messages. Qed.

Section kept.
Context `{Externals} `{WorkExternals} `{NetExternals}.
Context (Hiter : iter_spec) (db : NodeDb).
Let a := nd_archive db.
Let own := try_get_tip (nd_state db).
Context (Hw : archive_wf a) (Hsmall : forall b k, archive_try_get_height a b = Some k -> k < 2 ^ 31).
Context (sent : list (Tip * option SocketAddr)).
Context (tip : option Tip) (Htip : current_tip db = Ok tip).

(** A tip of a peer still waits, or it is complete, and then it was sent on unless it is not better. *)
Definition accounted (t : NetTask) (dt : Tip) (addr : SocketAddr) : Prop :=
  (exists key, waits (nt_descendant_tips t) key dt addr) \/
  bodies_available a own (tip_block_hash dt) /\
    ((exists messages, nt_new_tip_ready t = sent ++ messages /\ (dt, Some addr) ∈ messages) \/
     exists tip, current_tip db = Ok (Some tip) /\ better_tip a tip dt <> Ok (Some dt)).

Lemma accounted_grows t t' dt addr : grows t t' -> accounted t dt addr -> accounted t' dt addr.
Proof.
  intros [Hg [m Hm]] [[key Hk]|[Hb [(m' & Hr & Hin)|Hn]]]; [left; eauto|right; split; [done|]..]; [left|by right].
  exists (m' ++ m). rewrite Hm, Hr, app_assoc. split; [done|]. apply elem_of_app. by left.
Qed.

Lemma check_descendant_tip_grows t0 dt sources : preserves (grows t0) (check_descendant_tip tip dt sources).
Proof.
  unfold check_descendant_tip, next_tip, reading_archive, archive_result, node_result.
  preserve; apply preserves_writing; intros t1 Ht1; (etransitivity; [exact Ht1|]); [apply grows_wait|apply grows_send].
Qed.

Lemma check_descendant_tip_accounts t t' dt sources addr :
  handling db sent None t -> tip_verified a dt -> addr ∈ sources ->
  check_descendant_tip tip dt sources t = (Ok tt, t') -> accounted t' dt addr.
Proof.
  intros Ht Hv Hin Hc. unfold check_descendant_tip, reading_archive in Hc. op_inv. injection Ho as <-.
  rewrite (ha_db _ _ _ _ Ht) in Ho0, Hc. fold a in Ho0, Hc. rename x0 into next.
  rename w0 into t1. pose proof Ho0 as Hn.
  apply (next_tip_handling db Hw Hsmall sent tip (current_tip_own db tip Htip)) in Hn as [[_ _ (m & Hm & _)] Hready]; [|done|done].
  assert ((exists key, waits (nt_descendant_tips t1) key dt addr) \/ next = Some dt) as Hnext.
  { unfold next_tip in Ho0. op_inv. destruct x1 as [|e rest]; cbn [head] in Ho0; op_inv; [by right|].
    left. exists e. unfold archive_result, node_result in *. op_inv.
    match goal with Hx : match hd_prev_side_hash ?h with _ => _ end _ = _ |- _ => destruct (hd_prev_side_hash h) end;
      op_inv; by apply waits_wait_for_body. }
  assert (forall next ready t2, (match tip with
    | Some tip => node_result (is_better a tip next) | None => mret true end : op NetTask NetTaskError bool) t1 = (Ok ready, t2) -> t2 = t1) as Hsame.
  { intros nx ready t2 Hr. destruct tip; unfold node_result in Hr; by op_inv. }
  destruct Hnext as [[key Hk]| ->].
  { left. exists key. destruct next as [next|]; op_inv; [|done]. apply Hsame in Ho as ->. destruct x; by op_inv. }
  op_inv. right. split; [by apply (Hready dt)|]. apply Hsame in Ho as Heq. subst. destruct x; op_inv.
  - left. exists (m ++ ((fun addr => (dt, Some addr)) <$> set_iter sources)). cbn. rewrite Hm, app_assoc. split; [done|].
    apply elem_of_app. right. apply list_elem_of_fmap. exists addr. split; [done|].
    rewrite (proj2 Hiter _ _ _ sources). by apply elem_of_elements.
  - right. destruct tip as [tp|]; [|by op_inv]. exists tp. split; [done|].
    unfold node_result, lifted in Ho. injection Ho as Ho. apply map_err_Ok in Ho. unfold is_better in Ho.
    intros Hb. rewrite Hb in Ho. cbn in Ho. by rewrite bool_decide_true in Ho.
Qed.

Lemma check_descendant_tips_grows t0 tips : preserves (grows t0) (check_descendant_tips tip tips).
Proof.
  induction tips as [|[d s] tips IH]; cbn [check_descendant_tips]; [apply preserves_ret|].
  apply preserves_bind; [apply check_descendant_tip_grows|intros _; exact IH].
Qed.

Lemma check_descendant_tips_accounts tips : forall t t' dt sources addr,
  handling db sent None t -> Forall (fun p => tip_verified a p.1) tips ->
  (dt, sources) ∈ tips -> addr ∈ sources ->
  check_descendant_tips tip tips t = (Ok tt, t') -> accounted t' dt addr.
Proof.
  induction tips as [|[dt0 src0] tips IH]; intros t t' dt sources addr Ht Hall Hin Ha Hc; [by apply not_elem_of_nil in Hin|].
  cbn [check_descendant_tips] in Hc. op_inv. destruct x. apply Forall_cons in Hall as [Hv Hall].
  pose proof (check_descendant_tip_handling db Hw Hsmall sent tip (current_tip_own db tip Htip) t w dt0 src0 Ht Hv Ho) as Ht1.
  apply elem_of_cons in Hin as [[= -> ->]|Hin]; [|by eapply IH].
  eapply accounted_grows; [|by eapply (check_descendant_tip_accounts t w)].
  pose proof (check_descendant_tips_grows w tips w (reflexivity w)) as Hp. by rewrite Hc in Hp.
Qed.

End kept.

(** Every tip that waited before the new tips are looked for is accounted for. *)
Lemma apply_new_tips_accounts `{Externals} `{WorkExternals} `{NetExternals} (Hiter : iter_spec) db sent t t' b header dt addr
    key dt0 src :
  archive_wf (nd_archive db) -> (forall b k, archive_try_get_height (nd_archive db) b = Some k -> k < 2 ^ 31) ->
  handling db sent (Some b) t -> tip_verified (nd_archive db) dt ->
  ancestor (ix_parent (side_index (nd_archive db))) b (tip_block_hash dt) ->
  ar_headers (nd_archive db) !! b = Some header -> is_Some (ar_bodies (nd_archive db) !! b) ->
  apply_new_tips b header dt addr t = (Ok tt, t') ->
  waits (nt_descendant_tips t) key dt0 src -> accounted db sent t' dt0 src.
Proof.
  intros Hw Hsmall Ht Hv Hb Hh Hbody Hn (tips & sources & Hk & Htp & Hsrc).
  destruct (apply_new_tips_steps db Hw sent Hiter _ _ _ _ _ _ Ht Hv Hb Hh Hbody Hn) as (tip & t1 & Htip & Ht1 & Htable & Hc).
  destruct (decide (key = b)) as [->|Hne].
  - rewrite Hk in Hc. destruct Hc as [Hall Hc].
    eapply (check_descendant_tips_accounts Hiter db Hw Hsmall sent tip Htip); [exact Ht1|exact Hall| |exact Hsrc|exact Hc].
    rewrite (proj1 Hiter _ _ _ _ tips). by apply elem_of_map_to_list.
  - assert (accounted db sent t1 dt0 src) as Hac.
    { left. exists key, tips, sources. by rewrite Htable, lookup_delete_ne. }
    destruct (nt_descendant_tips t !! b) as [tips'|]; [|by subst]. destruct Hc as [_ Hc].
    eapply accounted_grows; [|exact Hac].
    pose proof (check_descendant_tips_grows db tip Htip t1 (map_iter tips') t1 (reflexivity t1)) as Hg. by rewrite Hc in Hg.
Qed.

Section databases.
Context `{Externals} `{WorkExternals} `{NetExternals}.
Implicit Types (t : NetTask).

Lemma check_descendant_tips_db db tip tips :
  preserves (fun t => nt_db t = db) (check_descendant_tips tip tips).
Proof.
  induction tips as [|[dt sources] tips IH]; cbn [check_descendant_tips]; [apply preserves_ret|].
  apply preserves_bind; [|intros _; exact IH]. unfold check_descendant_tip, next_tip, reading_archive.
  unfold archive_result, node_result. preserve; by apply preserves_writing.
Qed.

(** Of the databases, [handle_block] changes the body only. *)
Lemma handle_block_db t t' b tip anc id addr header body :
  header_hash header = b -> handle_block b tip anc id addr header body t = (Ok tt, t') ->
  exists a', put_body (nd_archive (nt_db t)) b body = Ok a' /\ nt_db t' = nt_db (put_archive a' t).
Proof.
  intros <- Hr. unfold handle_block in Hr. rewrite N.eqb_refl in Hr. cbn [negb] in Hr. op_inv.
  unfold store_body, reading_archive, archive_result, node_result in Ho. op_inv. injection Ho1 as <-.
  do 2 apply map_err_Ok in Ho2. exists x2. split; [done|].
  assert (preserves (fun t0 => nt_db t0 = nt_db (put_archive x2 t))
    (_ ← notify_bodies (header_hash header) tip anc id addr; apply_new_tips (header_hash header) header tip addr)) as Hpres.
  { pose proof (check_descendant_tips_db (nt_db (put_archive x2 t))) as Htips.
    unfold notify_bodies, apply_new_tips, reading_archive, archive_result, node_result, push_message.
    preserve; by apply preserves_writing. }
  specialize (Hpres (put_archive x2 t) eq_refl). unfold mbind, op_bind in Hpres. rewrite Ho0 in Hpres.
  by rewrite Hr in Hpres.
Qed.

End databases.

(** A request for a body, as [handle_peer_state] makes it *)
Record block_request_ok (a : Archive) (b : BlockHash) (tip : Tip) (anc : option BlockHash) : Prop := {
  br_verified : tip_verified a tip;
  br_branch : ancestor (ix_parent (side_index a)) b (tip_block_hash tip);
  br_ancestor c : anc = Some c -> ancestor (ix_parent (side_index a)) c b;
}.

(** C18 What a block that a peer sends for a request, and that is handled without an error, does to the tips
    that wait for bodies. In the table every tip is verified, builds on the block that it waits for, and the
    block's body is missing; this is kept. No tip is lost: a tip of a peer that waited waits again, for this or
    another body, or it has the body of each block of its branch that is not on the branch of the node's own
    tip, and then it is sent on as ready, for that peer, unless it is not better than the node's own tip. And
    every tip that is sent on is verified and has those bodies. The archive is well-formed with heights below
    2^31 and has no other header under the hash of the one that was sent, and the request is one that the
    connection makes for a verified tip. *)
Theorem block_response_ready `{Externals} `{WorkExternals} `{NetExternals} (t t' : NetTask) (addr : SocketAddr)
    (header : Header) (body : Body) (b : BlockHash) (tip : Tip) (anc : option BlockHash) (id : PeerStateId) :
  iter_spec -> archive_wf (nd_archive (nt_db t)) ->
  (forall c k, archive_try_get_height (nd_archive (nt_db t)) c = Some k -> k < 2 ^ 31) ->
  (forall h, ar_headers (nd_archive (nt_db t)) !! header_hash header = Some h -> h = header) ->
  waiting (nd_archive (nt_db t)) None (nt_descendant_tips t) ->
  block_request_ok (nd_archive (nt_db t)) b tip anc ->
  handle_response addr (Response_Block header body) (Request_GetBlock (mkGetBlockRequest b (Some tip) anc (Some id))) t
    = (Ok tt, t') ->
  archive_wf (nd_archive (nt_db t')) /\ nd_state (nt_db t') = nd_state (nt_db t) /\
  waiting (nd_archive (nt_db t')) None (nt_descendant_tips t') /\
  (forall key dt src, waits (nt_descendant_tips t) key dt src ->
    accounted (nt_db t') (nt_new_tip_ready t) t' dt src) /\
  exists messages, nt_new_tip_ready t' = nt_new_tip_ready t ++ messages /\
    forall tip source, (tip, source) ∈ messages ->
      tip_ready_at (nd_archive (nt_db t')) (try_get_tip (nd_state (nt_db t))) tip.
Proof.
  intros Hiter Hw Hsmall Hcol Hwait Hreq Hr. cbn [handle_response] in Hr. unfold handle_block in Hr.
  destruct (N.eqb_spec (header_hash header) b) as [<-|Hne]; cbn [negb] in Hr.
  2: { unfold remove_peer in Hr. op_inv. split_and!; [done|done|done|intros key dt src Hk; left; by exists key|].
       exists []. rewrite app_nil_r.
       split; [done|]. by intros ? ? ?%not_elem_of_nil. }
  unfold store_body, reading_archive, archive_result, node_result in Hr. op_inv. injection Ho1 as <-.
  do 2 apply map_err_Ok in Ho2. rename Ho2 into Hp. destruct x, x0.
  pose proof (put_body_chain _ _ _ _ Hp) as Hsame. pose proof (put_body_stored _ _ _ _ Hp) as Hbodies.
  pose proof (same_chain_wf _ _ Hsame Hw) as Hw'.
  set (db := nt_db (put_archive x2 t)) in *. change x2 with (nd_archive db) in Hsame, Hbodies, Hw'.
  destruct Hsame as [Hside Hmain Hheaders _ _ Hresults _].
  assert (forall c, archive_try_get_height (nd_archive db) c = archive_try_get_height (nd_archive (nt_db t)) c) as Hheight.
  { intros c. change (ix_height (side_index (nd_archive db)) c = ix_height (side_index (nd_archive (nt_db t))) c).
    by rewrite Hside. }
  assert (forall tip, tip_verified (nd_archive db) tip <-> tip_verified (nd_archive (nt_db t)) tip) as Hver.
  { intros tp. unfold tip_verified, try_get_bmm_result, get_bmm_results. by rewrite Hresults. }
  assert (ar_headers (nd_archive db) !! header_hash header = Some header) as Hh.
  { rewrite Hheaders. unfold put_body in Hp. apply bind_Ok in Hp as (h & Hh%ok_or_Ok & _).
    by rewrite Hh, (Hcol h Hh). }
  destruct Hreq as [Hv Hb Hanc]. rewrite <-Hside in Hb, Hanc. apply Hver in Hv.
  assert (handling db (nt_new_tip_ready t) (Some (header_hash header)) (put_archive x2 t)) as Ht.
  { split; [done| |exists []; split; [by rewrite app_nil_r|by intros ? ? ?%not_elem_of_nil]].
    intros key tips tp sources Hk Htp. destruct (Hwait key tips tp sources Hk Htp) as (Hm & Hvt & Ha).
    rewrite Hside. split_and!; [|by apply Hver|done]. intros Hne. rewrite Hbodies, lookup_insert_ne by congruence.
    by apply Hm. }
  assert (forall c k, archive_try_get_height (nd_archive db) c = Some k -> k < 2 ^ 31) as Hsmall'
    by (intros c k; rewrite Hheight; apply Hsmall).
  assert (grows (put_archive x2 t) w0) as Hgrow.
  { assert (preserves (grows (put_archive x2 t)) (notify_bodies (header_hash header) tip anc id addr)) as Hp'.
    { unfold notify_bodies, reading_archive, archive_result, node_result, push_message.
      preserve; apply preserves_writing; intros t1 Ht1; (etransitivity; [exact Ht1|]);
        [apply grows_wait|by split; [|exists []; rewrite app_nil_r]]. }
    specialize (Hp' _ (reflexivity _)). by rewrite Ho0 in Hp'. }
  apply (notify_bodies_handling db Hw' Hsmall' _ _ _ _ _ _ _ _ _ Ht Hv Hb Hanc) in Ho0.
  assert (forall key dt src, waits (nt_descendant_tips t) key dt src -> accounted db (nt_new_tip_ready t) t' dt src) as Hkept.
  { intros key dt src Hk. apply (gr_waits _ _ Hgrow key dt src) in Hk.
    apply (apply_new_tips_accounts Hiter db (nt_new_tip_ready t) _ _ _ _ _ _ key dt src Hw' Hsmall' Ho0 Hv Hb Hh) in Hr;
      [done|by rewrite Hbodies, lookup_insert_eq|done]. }
  apply (apply_new_tips_handling db Hw' Hsmall' (nt_new_tip_ready t) Hiter) in Hr; [|done|done|done|done|by rewrite Hbodies, lookup_insert_eq].
  destruct Hr as [Hdb Hwt Hrd]. rewrite Hdb. by split_and!.
Qed.
