(* ===== verification/TipTotal.v ===== *)
(** * Comparing tips succeeds

    [better_tip] of [src/lib/archive/mod.rs] returns an answer for every two verified tips of an archive
    whose mainchain blocks have a common root. *)

From S2P Require Import Prelude Types Transaction Merkle Sample SideTips Lineage Archive.
From S2P Require Import ArchiveTree ArchiveWf ArchiveBodies TipsWf ArchiveQueries ArchiveIter BetterTip.
From S2P Require Import NodeTask PeerSync BodyTotal NetBodies.

(** The mainchain blocks are those of one chain of work: any two have an ancestor in common, and no
    sidechain block is committed to by the first of them. *)
Record main_rooted (a : Archive) : Prop := {
  mr_common m0 m1 : is_Some (ar_main_header_infos a !! m0) -> is_Some (ar_main_header_infos a !! m1) ->
    exists c, ancestor (ix_parent (main_index a)) c m0 /\ ancestor (ix_parent (main_index a)) c m1;
  mr_small m k : ar_main_block_hash_to_height a !! m = Some k -> k < 2 ^ 31;
  mr_parent b header m : get_bmm_results a b !! m = Some Bmm_Verified -> ar_headers a !! b = Some header ->
    is_Some (ar_main_header_infos a !! hd_prev_main_hash header);
}.

Section total.
Context (a : Archive) (Hf : archive_full a) (Hroot : main_rooted a).
Let side := ix_parent (side_index a).
Let main := ix_parent (main_index a).
Let Hw := af_wf _ Hf.

Definition verified_somewhere (b : BlockHash) : Prop :=
  exists m, get_bmm_results a b !! m = Some Bmm_Verified.

Lemma verified_branch b c : verified_somewhere b -> ancestor side c b -> verified_somewhere c.
Proof. intros [m Hm] [n Hn]. destruct (verified_ancestor_at a Hw n b m c Hm Hn) as (m' & Hm' & _). by exists m'. Qed.
Lemma verified_header b : verified_somewhere b ->
  exists header k, ar_headers a !! b = Some header /\ archive_try_get_height a b = Some k /\
    is_Some (ar_main_header_infos a !! hd_prev_main_hash header).
Proof.
  intros [m Hm]. destruct (aw_verified _ Hw b m Hm) as (h & i & mh & Hb).
  pose proof (bk_header _ _ _ _ _ _ Hb) as Hh.
  destruct (iw_dom _ (aw_side _ Hw) b) as [[k Hk] _]; [cbn; rewrite lookup_fmap, Hh; by eexists|].
  exists h, k. split_and!; [done|done|]. by eapply mr_parent.
Qed.

Lemma find_map_total {B} (f : BlockHash -> result ArchiveError (option B)) fuel : forall b k,
  archive_try_get_height a b = Some k -> verified_somewhere b -> (N.to_nat k < fuel)%nat ->
  (forall c, verified_somewhere c -> exists r, f c = Ok r) ->
  exists r, ancestors_find_map a f fuel (Some b) = Ok r.
Proof.
  induction fuel as [|fuel IH]; intros b k Hk Hv Hfuel Hft; [lia|].
  destruct (verified_header b Hv) as (h & k' & Hh & _). cbn [ancestors_find_map ancestor_headers_next].
  unfold get_header. rewrite Hh. cbn [ok_or mbind result_bind]. destruct (Hft b Hv) as [[x|] Hx]; rewrite Hx; cbn [mbind result_bind];
    [by eexists|].
  destruct (hd_prev_side_hash h) as [p|] eqn:Hp; [|destruct fuel; by eexists].
  assert (ancestor side p b) as Hpb.
  { exists 1%nat. cbn [ancestor_at]. unfold side, ix_parent. cbn. rewrite lookup_fmap, Hh. cbn. by rewrite Hp. }
  pose proof Hpb as (kp & Hle & Hkp & Hat)%(ancestor_spec (index_tree _ (aw_side _ Hw)) _ _ k Hk).
  apply (IH p kp Hkp); [by eapply verified_branch| |done].
  pose proof (child_height a p b h kp (aw_side _ Hw) Hh Hp Hkp) as Hk'. rewrite Hk in Hk'. injection Hk' as ->. lia.
Qed.

Section closures.
Context (anc : MainBlockHash) (ka : u32) (Hka : ar_main_block_hash_to_height a !! anc = Some ka).

Lemma main_known_of_height m k : ar_main_block_hash_to_height a !! m = Some k -> is_Some (ar_main_header_infos a !! m).
Proof.
  intros Hk. destruct (iw_dom _ (aw_main _ Hw) m) as [_ Hd]. destruct Hd as [x Hx]; [by eexists|].
  cbn in Hx. rewrite lookup_fmap in Hx. destruct (ar_main_header_infos a !! m); [by eexists|done].
Qed.

Lemma committed_before_total c header :
  verified_somewhere c -> ar_headers a !! c = Some header ->
  exists r, committed_before a anc header = Ok r /\
    (r = true -> exists kp, ar_main_block_hash_to_height a !! hd_prev_main_hash header = Some kp /\ kp < ka).
Proof.
  intros Hv Hh. destruct (verified_header c Hv) as (h & k & Hh' & _ & Hm). rewrite Hh in Hh'. injection Hh' as <-.
  destruct (main_height_known a _ (aw_main _ Hw) Hm) as [kp Hkp].
  destruct (is_main_descendant_total a (hd_prev_main_hash header) anc (aw_main _ Hw) Hm) as [d Hd];
    [by eapply main_known_of_height|].
  unfold committed_before. rewrite Hd. cbn [mbind result_bind]. eexists. split; [done|].
  rewrite andb_true_iff, negb_true_iff, N.eqb_neq. intros [-> Hne]. exists kp. split; [done|].
  pose proof (proj1 (is_main_descendant_Ok _ _ _ _ (aw_main _ Hw) Hd) eq_refl) as Hanc.
  pose proof (ancestor_le (index_tree _ (aw_main _ Hw)) _ _ kp ka Hkp Hka Hanc) as Hle.
  destruct (N.eq_dec kp ka) as [->|]; [|lia]. exfalso. apply Hne.
  apply (ancestor_unique (index_tree _ (aw_main _ Hw)) _ anc anc ka ka); [done|done|done|done|apply ancestor_refl].
Qed.

Lemma height_before_total c : verified_somewhere c -> exists r, ancestor_height_before a anc c = Ok r.
Proof.
  intros Hv. destruct (verified_header c Hv) as (h & k & Hh & Hk & _). unfold ancestor_height_before, get_header.
  rewrite Hh. cbn [ok_or mbind result_bind]. destruct (committed_before_total c h Hv Hh) as ([] & -> & _);
    cbn [mbind result_bind]; [|by eexists]. unfold archive_get_height. rewrite Hk. by eexists.
Qed.

Lemma height_work_before_total c : verified_somewhere c -> exists r, ancestor_height_work_before a anc ka c = Ok r.
Proof.
  intros Hv. destruct (verified_header c Hv) as (h & k & Hh & Hk & _). unfold ancestor_height_work_before, get_header.
  rewrite Hh. cbn [ok_or mbind result_bind]. destruct (committed_before_total c h Hv Hh) as ([] & -> & Hb);
    cbn [mbind result_bind]; [|by eexists]. destruct (Hb eq_refl) as (kp & Hkp & Hlt).
  unfold archive_get_height, get_main_height. rewrite Hk, Hkp. cbn [ok_or mbind result_bind].
  pose proof (mr_small _ Hroot anc ka Hka) as Hsmall.
  rewrite u32_add_small, u32_sub_small by (unfold u32_MAX; lia).
  destruct (nth_ancestor_Ok (main_lineage_ok a (aw_main _ Hw)) anc (ka - (kp + 1)) ka Hka ltac:(lia)) as (x & Hx & _ & Hkx).
  unfold get_nth_main_ancestor. rewrite Hx. cbn [mbind result_bind].
  destruct (af_works _ Hf x) as [w Hwx]; [by eapply main_known_of_height|].
  unfold get_total_work. rewrite Hwx. by eexists.
Qed.
End closures.

(** Two verified tips are compared. *)
Lemma better_tip_total tip0 tip1 : tip_verified a tip0 -> tip_verified a tip1 -> exists r, better_tip a tip0 tip1 = Ok r.
Proof.
  intros Hv0 Hv1. unfold better_tip. destruct (decide (tip0 = tip1)); [by eexists|].
  assert (forall tip, tip_verified a tip -> exists k km w, archive_try_get_height a (tip_block_hash tip) = Some k /\
    ar_main_block_hash_to_height a !! tip_main_block_hash tip = Some km /\
    ar_total_work a !! tip_main_block_hash tip = Some w /\ verified_somewhere (tip_block_hash tip)) as Hinfo.
  { intros tip Hv. destruct (verified_header (tip_block_hash tip)) as (h & k & _ & Hk & _); [by eexists|].
    pose proof (verified_known a Hw _ _ Hv) as Hm. destruct (main_height_known a _ (aw_main _ Hw) Hm) as [km Hkm].
    destruct (af_works _ Hf _ Hm) as [w Hwm]. exists k, km, w. split_and!; [done|done|done|by eexists]. }
  destruct (Hinfo tip0 Hv0) as (k0 & m0 & w0 & Hk0 & Hm0 & Hw0 & Hs0).
  destruct (Hinfo tip1 Hv1) as (k1 & m1 & w1 & Hk1 & Hm1 & Hw1 & Hs1).
  unfold archive_get_height. rewrite Hk0, Hk1. cbn [ok_or mbind result_bind].
  destruct (_ && _); [by eexists|]. destruct (k0 =? 0); [by eexists|]. destruct (k1 =? 0); [by eexists|].
  unfold get_total_work. rewrite Hw0, Hw1. cbn [ok_or mbind result_bind].
  destruct (mr_common _ Hroot _ _ (verified_known a Hw _ _ Hv0) (verified_known a Hw _ _ Hv1)) as (c & Hc0 & Hc1).
  destruct (shared_lineage_Ok a (aw_main _ Hw) _ _ m0 m1 Hm0 Hm1) as (sh & Hsh & _).
  destruct (last_common_main_Ok a (aw_main _ Hw) _ _ m0 m1 Hm0 Hm1 c) as (anc & Hanc & [Hl Hr _]);
    [pose proof (mr_small _ Hroot _ _ Hm0); lia|done|done|].
  pose proof Hl as (ka & _ & Hka & _)%(ancestor_spec (index_tree _ (aw_main _ Hw)) _ _ m0 Hm0).
  assert (forall b k, archive_try_get_height a b = Some k -> verified_somewhere b ->
    exists r, find_ancestor a (ancestor_height_before a anc) b k = Ok r) as Hfind.
  { intros b k Hk Hv. apply (find_map_total _ _ b k Hk Hv); [lia|]. intros x. by apply (height_before_total anc ka Hka). }
  assert (forall b k, archive_try_get_height a b = Some k -> verified_somewhere b ->
    exists r, find_ancestor a (ancestor_height_work_before a anc ka) b k = Ok r) as Hfind'.
  { intros b k Hk Hv. apply (find_map_total _ _ b k Hk Hv); [lia|]. intros x. by apply (height_work_before_total anc ka Hka). }
  rewrite Hsh, Hanc. cbn [mbind result_bind].
  destruct (Hfind _ _ Hk0 Hs0) as [f0 ->]. destruct (Hfind _ _ Hk1 Hs1) as [f1 ->]. cbn [mbind result_bind].
  destruct (w0 ?= w1), (k0 ?= k1); try (by eexists); try (by destruct sh; eexists); try (by case_match; eexists).
  unfold better_tip_tie. destruct (_ =? _); [by eexists|]. rewrite Hanc. cbn [mbind result_bind].
  unfold get_main_height. unfold ix_height in Hka. cbn in Hka. rewrite Hka. cbn [ok_or mbind result_bind].
  destruct (Hfind' _ _ Hk0 Hs0) as [g0 ->]. destruct (Hfind' _ _ Hk1 Hs1) as [g1 ->]. by eexists.
Qed.

(** A block that is verified somewhere has a best verification. *)
Lemma tip_of_total b : verified_somewhere b -> exists tip, tip_of a b = Ok tip.
Proof.
  intros [m Hm]. unfold tip_of, get_best_main_verification, try_get_best_main_verification.
  set (l := (map_to_list _).*1).
  assert (forall m, m ∈ l -> is_Some (ar_main_header_infos a !! m)) as Hl.
  { intros m0 Hin. apply list_elem_of_fmap in Hin as ([m1 r] & -> & Hin%elem_of_map_to_list).
    apply map_lookup_filter_Some in Hin as [Hin Hr]. cbn in *. subst r. by apply (verified_known a Hw b). }
  assert (l <> []) as Hne.
  { intros Hnil. assert (m ∈ l) as Hin; [|by rewrite Hnil in Hin; apply not_elem_of_nil in Hin].
    apply list_elem_of_fmap. exists (m, Bmm_Verified). split; [done|]. apply elem_of_map_to_list.
    by apply map_lookup_filter_Some. }
  set (step := fun (best : option (N * N)) (main_hash : N) => _).
  assert (forall best, exists best', fold_res (E := ArchiveError) step l best = Ok best' /\ (is_Some best \/ l <> [] -> is_Some best')) as Hfold.
  { clear Hne. revert Hl. induction l as [|x l IH]; intros Hl best.
    - exists best. split; [done|]. intros [?|?]; done.
    - cbn [fold_res]. destruct (af_works _ Hf x (Hl x (list_elem_of_here _ _))) as [w Hwx].
      set (best1 := match best with Some (key, _) => if w <? key then best else Some (w, x) | None => Some (w, x) end).
      assert (step best x = Ok best1) as -> by (unfold step, get_total_work; by rewrite Hwx).
      cbn [mbind result_bind]. destruct (IH (fun y Hy => Hl y (list_elem_of_further _ _ _ Hy)) best1) as (best' & -> & Hb).
      exists best'. split; [done|]. intros _. apply Hb. left. unfold best1. destruct best as [[key ?]|]; [destruct (_ <? _)|]; by eexists. }
  destruct (Hfold None) as (best & -> & Hb). destruct (Hb (or_intror Hne)) as [[w m'] ->]. by eexists.
Qed.
End total.
