(* ===== verification/NetExchange.v ===== *)
(** * Bodies between two nodes

    The answers to requests for bodies are handled without an error by [handle_response] of
    [src/lib/node/net_task.rs], in any order, and with the last one the connection learns that no
    body is missing. *)

From S2P Require Import Prelude Types Transaction Authorization State Merkle SideTips Lineage.
From S2P Require Import Archive ArchiveTree ArchiveWf ArchiveBodies TipsWf ArchiveQueries ArchiveIter.
From S2P Require Import BetterTip Mempool Node NodeTask PeerMessage PeerTask PeerBodies PeerSync.
From S2P Require Import BodyTotal NetAddress Net NetTask NetBodies TipTotal.

(** ** The task while it receives bodies *)

Record task_ok (t : NetTask) : Prop := {
  to_full : archive_full (nd_archive (nt_db t));
  to_root : main_rooted (nd_archive (nt_db t));
  to_tips : side_tips_ok (nd_archive (nt_db t));
  to_main : is_Some (ar_main_header_infos (nd_archive (nt_db t)) !!
    main_tip_block_hash (sd_mainchain_tip (ar_side_tips (nd_archive (nt_db t)))));
  to_small c k : archive_try_get_height (nd_archive (nt_db t)) c = Some k -> k < 2 ^ 31;
  to_own b : try_get_tip (nd_state (nt_db t)) = Some b -> verified_somewhere (nd_archive (nt_db t)) b;
  to_waiting : waiting (nd_archive (nt_db t)) None (nt_descendant_tips t);
}.

Section totals.
Context `{Externals} `{WorkExternals} `{NetExternals}.
Implicit Types (t : NetTask).

Lemma op_reading_bind {S E A B} (f : S -> result E A) (k : A -> op S E B) (w : S) :
  (reading f ≫= k) w = match f w with Ok x => k x w | Err e => (Err e, w) | Panic => (Panic, w) end.
Proof. unfold mbind, op_bind, reading. by destruct (f w). Qed.
Lemma op_writing_bind {S E B} (f : S -> S) (k : unit -> op S E B) (w : S) :
  (writing f ≫= k) w = k tt (f w).
Proof. done. Qed.
Lemma op_total_bind {S E A B} (c : op S E A) (k : A -> op S E B) (w : S) a w1 :
  c w = (Ok a, w1) -> (c ≫= k) w = k a w1.
Proof. unfold mbind, op_bind. by intros ->. Qed.

Section reads.
Context (db : NodeDb).
Let a := nd_archive db.
Context (Hf : archive_full a) (Hroot : main_rooted a).
Context (Hsmall : forall c k, archive_try_get_height a c = Some k -> k < 2 ^ 31).
Let Hw := af_wf _ Hf.
Let T := index_tree _ (aw_side _ Hw).

Lemma ancestor_height_total anc b k :
  archive_try_get_height a b = Some k ->
  (forall c, anc = Some c -> ancestor (ix_parent (side_index a)) c b) ->
  exists h, ancestor_height a anc = Ok h /\ height_after_ancestor h <= k + 1.
Proof.
  intros Hk Hanc. destruct anc as [c|].
  - pose proof (Hanc c eq_refl) as (kc & _ & Hkc & _)%(ancestor_spec T _ _ k Hk).
    exists (Some kc). assert (ancestor_height a (Some c) = Ok (Some kc)) as Hh.
    { cbn. unfold archive_get_height, archive_try_get_height. unfold ix_height in Hkc. cbn in Hkc. by rewrite Hkc. }
    split; [done|]. by eapply height_after_small.
  - exists None. split; [done|]. cbn. lia.
Qed.

Lemma missing_total b k s :
  archive_try_get_height a b = Some k -> s <= k + 1 -> exists missing, iter_missing_bodies a b s = Ok missing.
Proof. intros Hk Hs. rewrite (iter_missing_bodies_eq a (aw_side _ Hw) b k s Hk Hs). by eexists. Qed.

(** The connection is told when nothing is missing. *)
Lemma notify_bodies_total t b tip anc id addr :
  nt_db t = db -> tip_verified a tip -> ancestor (ix_parent (side_index a)) b (tip_block_hash tip) ->
  (forall c, anc = Some c -> ancestor (ix_parent (side_index a)) c b) ->
  exists t', notify_bodies b tip anc id addr t = (Ok tt, t') /\
    ((forall c, ancestor (ix_parent (side_index a)) c b ->
        (forall x, anc = Some x -> ~ ancestor (ix_parent (side_index a)) c x) -> is_Some (ar_bodies a !! c)) ->
     t' = on_net (fun n => (push_internal_message (Internal_BodiesAvailable id) addr n).1) t).
Proof.
  intros Hdb Hv Hb Hanc. destruct (verified_height db Hw tip Hv) as [kt Hkt].
  pose proof Hb as (kb & _ & Hkb & _)%(ancestor_spec T _ _ kt Hkt).
  destruct (ancestor_height_total anc b kb Hkb Hanc) as (h & Hh & Hs).
  destruct (missing_total b kb _ Hkb Hs) as [missing Hm].
  unfold notify_bodies, reading_archive, archive_result, node_result. rewrite op_reading_bind, Hdb. fold a.
  rewrite op_lifted_bind, Hh. cbn [map_err]. rewrite op_lifted_bind, Hm. cbn [map_err].
  destruct missing as [|e rest]; cbn [head]; [by eexists|]. eexists. split; [done|]. intros Hall. exfalso.
  destruct (earliest_missing_body a (aw_side _ Hw) b kb _ Hkb Hs e rest Hm) as (ke & Hle & Hke & He & Hnone & _).
  destruct (Hall e He) as [x Hx]; [|congruence]. intros x -> Hex. cbn in Hh.
  apply fmap_Ok in Hh as (kx & Hkx%ok_or_Ok & ->). cbn in Hle.
  rewrite (u32_add_height a Hsmall x kx Hkx) in Hle.
  pose proof (ancestor_le T e x ke kx Hke Hkx Hex). lia.
Qed.

Lemma next_tip_total t tip dt sources :
  nt_db t = db -> tip_verified a dt -> (forall tp, tip = Some tp -> tip_verified a tp) ->
  exists next t', next_tip a tip dt sources t = (Ok next, t') /\ nt_db t' = db /\
    forall tp, next = Some tp -> tip_verified a tp.
Proof.
  intros Hdb Hv Htip. destruct (verified_height db Hw dt Hv) as [k Hk].
  assert (exists anc, (match tip with
      | Some tip => archive_result (last_common_ancestor a (tip_block_hash dt) (tip_block_hash tip))
      | None => mret None end) t = (Ok anc, t) /\
    forall c, anc = Some c -> ancestor (ix_parent (side_index a)) c (tip_block_hash dt)) as (anc & Hanc & Hle).
  { destruct tip as [tp|]; [|by exists None]. destruct (verified_height db Hw tp (Htip tp eq_refl)) as [kt Hkt].
    destruct (last_common_ancestor_Ok a _ _ k kt (aw_side _ Hw) Hk Hkt) as (r & Hr & Hlast).
    { pose proof (Hsmall _ k Hk). lia. }
    exists r. unfold archive_result, node_result, lifted. rewrite Hr. split; [done|]. intros c ->. apply Hlast. }
  unfold next_tip. rewrite (op_total_bind _ _ _ _ _ Hanc).
  destruct (ancestor_height_total anc _ k Hk Hle) as (h & Hh & Hs).
  destruct (missing_total _ k _ Hk Hs) as [missing Hm].
  unfold archive_result, node_result. rewrite op_lifted_bind, Hh. cbn [map_err].
  rewrite op_lifted_bind, Hm. cbn [map_err]. destruct missing as [|e rest]; cbn [head].
  { eexists _, _. split_and!; [done|done|]. by intros tp [= <-]. }
  destruct (earliest_missing_body a (aw_side _ Hw) _ k _ Hk Hs e rest Hm) as (ke & _ & Hke & He & _).
  assert (verified_somewhere a e) as Hve by (eapply verified_branch; [done|by eexists|done]).
  destruct (verified_header a Hf Hroot e Hve) as (header & _ & Hhe & _).
  rewrite op_writing_bind, op_lifted_bind. unfold get_header. rewrite Hhe. cbn [ok_or map_err].
  destruct (hd_prev_side_hash header) as [p|] eqn:Hp; [|eexists _, _; by split_and!].
  assert (verified_somewhere a p) as Hvp.
  { eapply (verified_branch a Hf e); [done|]. exists 1%nat. cbn [ancestor_at]. unfold ix_parent. cbn.
    rewrite lookup_fmap, Hhe. cbn. by rewrite Hp. }
  destruct (tip_of_total a Hf p Hvp) as [tp Htp]. rewrite op_lifted_bind, Htp. cbn [map_err].
  eexists _, _. split_and!; [done|done|]. intros tp' [= <-]. by apply (tip_of_verified a p tp).
Qed.

Lemma check_descendant_tips_total tip tips : forall t,
  nt_db t = db -> (forall tp, tip = Some tp -> tip_verified a tp) -> Forall (fun p => tip_verified a p.1) tips ->
  exists t', check_descendant_tips tip tips t = (Ok tt, t').
Proof.
  induction tips as [|[dt sources] tips IH]; intros t Hdb Htip Hall; [by eexists|].
  apply Forall_cons in Hall as [Hv Hall]. cbn [check_descendant_tips].
  assert (exists t1, check_descendant_tip tip dt sources t = (Ok tt, t1) /\ nt_db t1 = db) as (t1 & Ht1 & Hdb1).
  { unfold check_descendant_tip, reading_archive. rewrite op_reading_bind, Hdb. fold a.
    destruct (next_tip_total t tip dt sources Hdb Hv Htip) as (next & t1 & Hn & Hdb1 & Hvn).
    rewrite (op_total_bind _ _ _ _ _ Hn). destruct next as [next|]; [|by eexists].
    assert (exists ready, (match tip with Some tip => node_result (is_better a tip next) | None => mret true end) t1 =
      (Ok ready, t1)) as [ready Hready].
    { destruct tip as [tp|]; [|by eexists].
      destruct (better_tip_total a Hf Hroot tp next (Htip tp eq_refl) (Hvn next eq_refl)) as [r Hr].
      unfold node_result, is_better, lifted. rewrite Hr. by eexists. }
    rewrite (op_total_bind _ _ _ _ _ Hready). destruct ready; by eexists. }
  rewrite (op_total_bind _ _ _ _ _ Ht1). by apply IH.
Qed.

Lemma apply_new_tips_total (Hiter : iter_spec) t b header dt addr :
  nt_db t = db -> (forall x, try_get_tip (nd_state db) = Some x -> verified_somewhere a x) ->
  waiting a (Some b) (nt_descendant_tips t) ->
  tip_verified a dt -> ancestor (ix_parent (side_index a)) b (tip_block_hash dt) ->
  exists t', apply_new_tips b header dt addr t = (Ok tt, t').
Proof.
  intros Hdb Hown Hwait Hv Hb. unfold apply_new_tips, reading_archive. rewrite op_reading_bind, Hdb.
  assert (exists tip, current_tip db = Ok tip /\ forall tp, tip = Some tp -> tip_verified a tp) as (tip & Htip & Hvt).
  { unfold current_tip. destruct (try_get_tip (nd_state db)) as [x|]; [|by exists None].
    destruct (tip_of_total a Hf x (Hown x eq_refl)) as [tp Htp]. fold a. rewrite Htp. exists (Some tp).
    split; [done|]. intros tp' [= <-]. by apply (tip_of_verified a x tp). }
  rewrite Htip. cbn [map_err]. rewrite op_reading_bind, Hdb. fold a.
  destruct (verification_found Hiter a b dt Hw Hv Hb) as (m & Hm & _).
  unfold archive_result, node_result. rewrite op_lifted_bind, Hm. cbn [map_err]. rewrite op_lifted_bind. cbn [expect].
  match goal with |- exists t', (?c ≫= _) t = _ => assert (exists t1, c t = (Ok tt, t1) /\ nt_db t1 = db /\
    nt_descendant_tips t1 = nt_descendant_tips t) as (t1 & Ht1 & Hdb1 & Hdt1) end.
  { case_bool_decide; by eexists. }
  rewrite (op_total_bind _ _ _ _ _ Ht1), op_reading_bind, Hdt1.
  destruct (nt_descendant_tips t !! b) as [tips|] eqn:Htips; [|by eexists]. rewrite op_writing_bind.
  apply check_descendant_tips_total; [done|done|]. apply Forall_forall. intros [tp sources] Hin.
  rewrite (proj1 Hiter _ _ _ _ tips) in Hin. apply elem_of_map_to_list in Hin. by apply (Hwait b tips tp sources).
Qed.
End reads.
End totals.

(** ** One answer *)

(** An archive that differs in its bodies, its index of transactions and its side tips *)
Definition same_but_bodies (a a' : Archive) : Prop :=
  exists g f t, a' = put_side_tips t (put_inclusions f (put_bodies g a)).
#[export] Instance same_but_bodies_preorder : PreOrder same_but_bodies.
Proof.
  split.
  - intros a. exists (fun b => b), (fun i => i), (ar_side_tips a). by destruct a.
  - intros a b c (g & f & t & ->) (g' & f' & t' & ->). by exists (fun b => g' (g b)), (fun i => f' (f i)), t'.
Qed.
Lemma put_body_but_bodies `{Externals} a b body a' : put_body a b body = Ok a' -> same_but_bodies a a'.
Proof.
  intros [t ->]%put_body_same. destruct (body_stored_frame a b body) as [f ->]. by exists <[b := body]>, f, t.
Qed.

(** The connection at an address takes messages. *)
Definition serves (t : NetTask) (addr : SocketAddr) : Prop :=
  exists h, net_active_peers (nt_net t) !! addr = Some h /\ ch_open h = true.

Section answer.
Context `{Externals} `{WorkExternals} `{NetExternals} (Hiter : iter_spec).
Implicit Types (t : NetTask).

Lemma apply_new_tips_net b header dt addr n :
  preserves (fun t => nt_net t = n) (apply_new_tips b header dt addr).
Proof.
  assert (forall tip tips, preserves (fun t => nt_net t = n) (check_descendant_tips tip tips)) as Htips.
  { intros tip tips. induction tips as [|[tp sources] tips IH]; cbn [check_descendant_tips]; [apply preserves_ret|].
    apply preserves_bind; [|intros _; exact IH]. unfold check_descendant_tip, next_tip, reading_archive.
    unfold archive_result, node_result. preserve; by apply preserves_writing. }
  unfold apply_new_tips, reading_archive, archive_result, node_result. preserve; by apply preserves_writing.
Qed.

Lemma notify_bodies_serves b tip anc id addr addr' :
  preserves (fun t => serves t addr') (notify_bodies b tip anc id addr).
Proof.
  unfold notify_bodies, reading_archive, archive_result, node_result, push_message. preserve; apply preserves_writing; [done|].
  intros t (h & Hh & Ho). unfold serves. cbn. unfold push_internal_message.
  destruct (net_active_peers (nt_net t) !! addr) as [h0|] eqn:Hh0; [destruct (ch_open h0) eqn:Ho0|]; cbn; [|by exists h..].
  destruct (decide (addr = addr')) as [->|Hne].
  - rewrite lookup_insert_eq. by exists (queue_message (Internal_BodiesAvailable id) h0).
  - rewrite lookup_insert_ne by done. by exists h.
Qed.

Lemma task_ok_next t t' a' :
  task_ok t -> same_but_bodies (nd_archive (nt_db t)) a' -> side_tips_ok a' ->
  sd_mainchain_tip (ar_side_tips a') = sd_mainchain_tip (ar_side_tips (nd_archive (nt_db t))) ->
  nt_db t' = nt_db (put_archive a' t) -> waiting a' None (nt_descendant_tips t') -> task_ok t'.
Proof.
  intros [Hf [Hc Hs Hp] Ht Hm Hsm Ho Hwt] (g & f & s & ->) Ht' Hmt Hdb Hwait.
  split; rewrite Hdb; cbn [nt_db put_archive put_db nd_archive nd_state]; try done.
  - eapply full_same; [..|exact Hf]; done.
  - by rewrite Hmt.
Qed.

(** A body that was requested is stored, and the task is ready for the next answer. *)
Lemma handle_block_total t tip anc id addr header body :
  task_ok t -> block_request_ok (nd_archive (nt_db t)) (header_hash header) tip anc ->
  ar_headers (nd_archive (nt_db t)) !! header_hash header = Some header -> serves t addr ->
  exists t', handle_block (header_hash header) tip anc id addr header body t = (Ok tt, t') /\
    task_ok t' /\ serves t' addr /\ nd_state (nt_db t') = nd_state (nt_db t) /\
    same_but_bodies (nd_archive (nt_db t)) (nd_archive (nt_db t')) /\
    ar_bodies (nd_archive (nt_db t')) = <[header_hash header := body]> (ar_bodies (nd_archive (nt_db t))) /\
    ((forall c, ancestor (ix_parent (side_index (nd_archive (nt_db t')))) c (header_hash header) ->
        (forall x, anc = Some x -> ~ ancestor (ix_parent (side_index (nd_archive (nt_db t')))) c x) ->
        is_Some (ar_bodies (nd_archive (nt_db t')) !! c)) ->
     exists h, net_active_peers (nt_net t') !! addr = Some h /\ Internal_BodiesAvailable id ∈ ch_internal_messages h).
Proof.
  intros Hok Hreq Hh Hsv. set (b := header_hash header) in *. pose proof Hok as [Hf Hroot Htips Hm Hsm Hown Hwait].
  destruct (put_body_total _ b body Hf Hm) as [a' Hp]; [by eexists|].
  pose proof (put_body_but_bodies _ _ _ _ Hp) as Hsame. pose proof (put_body_stored _ _ _ _ Hp) as Hbody.
  destruct (put_body_tips _ _ _ _ (af_wf _ Hf) Htips Hp) as (Htips' & Hg & _).
  assert (sd_mainchain_tip (ar_side_tips a') = sd_mainchain_tip (ar_side_tips (nd_archive (nt_db t)))) as Hmt.
  { rewrite (tg_main _ _ Hg). by destruct (body_stored_frame (nd_archive (nt_db t)) b body) as [f ->]. }
  set (t1 := put_archive a' t).
  assert (waiting a' (Some b) (nt_descendant_tips t1)) as Hwait1.
  { intros key tips tp sources Hk Htp. destruct (Hwait key tips tp sources Hk Htp) as (Hmk & Hv & Ha).
    destruct Hsame as (g & f & s & Ha'). split_and!; [|by rewrite Ha'|by rewrite Ha'].
    intros Hne. rewrite Hbody, lookup_insert_ne by congruence. by apply Hmk. }
  assert (archive_full a' /\ main_rooted a' /\ (forall c k, archive_try_get_height a' c = Some k -> k < 2 ^ 31) /\
    (forall x, try_get_tip (nd_state (nt_db t)) = Some x -> verified_somewhere a' x) /\
    block_request_ok a' b tip anc /\ (ar_headers a' !! b = Some header)) as (Hf' & Hroot' & Hsm' & Hown' & [Hv Hb Hanc] & Hh').
  { destruct Hsame as (g & f & s & ->). split_and!; [eapply full_same; [..|exact Hf]; done|by destruct Hroot|exact Hsm|exact Hown|by destruct Hreq|done]. }
  destruct (notify_bodies_total (nt_db t1) Hf' Hsm' t1 b tip anc id addr eq_refl Hv Hb Hanc) as (t2 & Hn & Hpush).
  assert (handling (nt_db t1) (nt_new_tip_ready t) (Some b) t1) as Hh1.
  { split; [done|done|]. exists []. split; [by rewrite app_nil_r|by intros ? ? ?%not_elem_of_nil]. }
  pose proof (notify_bodies_handling (nt_db t1) (af_wf _ Hf') Hsm' _ _ _ _ _ _ _ _ _ Hh1 Hv Hb Hanc Hn) as Hh2.
  destruct (apply_new_tips_total (nt_db t1) Hf' Hroot' Hsm' Hiter t2 b header tip addr) as [t3 Hap];
    [apply Hh2|done|apply Hh2|done|done|].
  assert (handle_block b tip anc id addr header body t = (Ok tt, t3)) as Hrun.
  { unfold handle_block. fold b. rewrite N.eqb_refl. cbn [negb].
    rewrite (op_total_bind _ _ t tt t1); [by rewrite (op_total_bind _ _ _ _ _ Hn)|].
    unfold store_body, reading_archive, archive_result, node_result. rewrite op_reading_bind, op_lifted_bind, Hp. done. }
  exists t3. split; [done|]. destruct (handle_block_db _ _ _ _ _ _ _ _ _ eq_refl Hrun) as (a1 & Hp1 & Hdb3).
  fold b in Hp1. rewrite Hp in Hp1. injection Hp1 as <-.
  pose proof (apply_new_tips_net b header tip addr (nt_net t2) t2 eq_refl) as Hnet. rewrite Hap in Hnet. cbn [snd] in Hnet.
  assert (serves t2 addr) as Hsv2.
  { pose proof (notify_bodies_serves b tip anc id addr addr t1 Hsv) as Hsv2. by rewrite Hn in Hsv2. }
  assert (handling (nt_db t1) (nt_new_tip_ready t) None t3) as Hh3.
  { eapply (apply_new_tips_handling (nt_db t1) (af_wf _ Hf') Hsm' _ Hiter); [exact Hh2|done|done|done| |exact Hap].
    cbn. rewrite Hbody, lookup_insert_eq. by eexists. }
  split_and!.
  - eapply task_ok_next; [exact Hok|exact Hsame|done|done|done|]. apply Hh3.
  - unfold serves. by rewrite Hnet.
  - by rewrite Hdb3.
  - by rewrite Hdb3.
  - by rewrite Hdb3.
  - rewrite Hdb3. intros Hall. specialize (Hpush Hall). destruct Hsv as (h & Hhh & Ho).
    rewrite Hnet, Hpush. cbn. unfold push_internal_message. rewrite Hhh, Ho. cbn. rewrite lookup_insert_eq.
    eexists. split; [done|]. cbn. apply elem_of_app. right. apply list_elem_of_here.
Qed.
End answer.

(** ** All answers *)

(** The message of the connection for a block of the peer *)
Definition block_mail `{Externals} (addr : SocketAddr) (resolved : ResolvedAddress) (tip : Tip) (anc : option BlockHash)
    (id : PeerStateId) (block : Header * Body) : NetMailboxItem :=
  Mail_PeerInfo addr resolved (Info_Response (Response_Block block.1 block.2)
    (Request_GetBlock (mkGetBlockRequest (header_hash block.1) (Some tip) anc (Some id)))).

Section exchange.
Context `{Externals} `{WorkExternals} `{NetExternals} `{DialExternals} (Hiter : iter_spec).
Context (addr : SocketAddr) (resolved : ResolvedAddress) (tip : Tip) (anc : option BlockHash) (id : PeerStateId).
Implicit Types (t : NetTask).
Notation mail := (block_mail addr resolved tip anc id).

Lemma run_mails_app l1 l2 t t1 :
  run_mails l1 t = (Ok tt, t1) -> run_mails (l1 ++ l2) t = run_mails l2 t1.
Proof.
  revert t. induction l1 as [|item l1 IH]; intros t Hr; cbn [run_mails app] in *; [by injection Hr as <-|].
  apply op_bind_Ok in Hr as ([] & w & Hm & Hr). rewrite (op_total_bind _ _ _ _ _ Hm). by apply IH.
Qed.

Definition requested (a : Archive) (block : Header * Body) : Prop :=
  ar_headers a !! header_hash block.1 = Some block.1 /\ block_request_ok a (header_hash block.1) tip anc.
Lemma requested_same a a' block : same_but_bodies a a' -> requested a block -> requested a' block.
Proof. by intros (g & f & s & ->) [Hh [Hv Hb Ha]]. Qed.

Lemma run_blocks_total blocks : forall t,
  task_ok t -> serves t addr -> Forall (requested (nd_archive (nt_db t))) blocks ->
  exists t', run_mails (mail <$> blocks) t = (Ok tt, t') /\ task_ok t' /\ serves t' addr /\
    same_but_bodies (nd_archive (nt_db t)) (nd_archive (nt_db t')) /\
    (forall c, is_Some (ar_bodies (nd_archive (nt_db t)) !! c) \/ c ∈ (fun p => header_hash p.1) <$> blocks ->
      is_Some (ar_bodies (nd_archive (nt_db t')) !! c)).
Proof.
  induction blocks as [|[header body] blocks IH]; intros t Hok Hsv Hall.
  { exists t. split_and!; [done|done|done|reflexivity|]. intros c [?|?%not_elem_of_nil]; done. }
  apply Forall_cons in Hall as [[Hh Hreq] Hall]. cbn [fst] in *.
  destruct (handle_block_total Hiter t tip anc id addr header body Hok Hreq Hh Hsv)
    as (t1 & Hr1 & Hok1 & Hsv1 & _ & Hs1 & Hb1 & _).
  destruct (IH t1 Hok1 Hsv1) as (t2 & Hr2 & Hok2 & Hsv2 & Hs2 & Hb2).
  { eapply Forall_impl; [exact Hall|]. intros p. by apply requested_same. }
  exists t2. cbn [fmap list_fmap]. split_and!; [|done|done|by etransitivity|].
  - cbn [run_mails]. by rewrite (op_total_bind (run_mail (mail (header, body))) _ t tt t1 Hr1).
  - intros c Hc. apply Hb2. rewrite Hb1. destruct (decide (c = header_hash header)) as [->|Hne].
    + left. rewrite lookup_insert_eq. by eexists.
    + rewrite lookup_insert_ne by done. destruct Hc as [?|[?|?]%elem_of_cons]; [by left|done|by right].
Qed.

(** What the bodies that are missing have in common with the tip *)
Lemma bodies_to_request_spec a (own : option TipInfo) missing :
  archive_wf a -> (forall c k, archive_try_get_height a c = Some k -> k < 2 ^ 31) -> tip_verified a tip ->
  bodies_to_request a own tip = Ok (anc, missing) -> (length missing < MAX_BLOCK_REQUESTS)%nat ->
  (forall c, anc = Some c -> ancestor (ix_parent (side_index a)) c (tip_block_hash tip)) /\
  (forall c, c ∈ missing -> ancestor (ix_parent (side_index a)) c (tip_block_hash tip) /\
    forall x, anc = Some x -> ancestor (ix_parent (side_index a)) x c) /\
  (forall c, ancestor (ix_parent (side_index a)) c (tip_block_hash tip) ->
    (forall x, anc = Some x -> ~ ancestor (ix_parent (side_index a)) c x) -> ar_bodies a !! c = None -> c ∈ missing) /\
  forall g f s, (forall c, is_Some (ar_bodies a !! c) \/ c ∈ missing -> is_Some (g (ar_bodies a) !! c)) ->
    bodies_to_request (put_side_tips s (put_inclusions f (put_bodies g a))) own tip = Ok (anc, []).
Proof.
  intros Hw Hsm Hv Hr Hlen. pose proof (index_tree _ (aw_side _ Hw)) as T. unfold bodies_to_request in Hr.
  apply bind_Ok in Hr as (anc' & Hanc & Hr). apply bind_Ok in Hr as (s & Hs & Hr). apply bind_Ok in Hr as (all & Hm & [= -> Htake]).
  assert (all = missing) as ->.
  { rewrite <-Htake, length_take in Hlen. rewrite <-Htake. symmetry. apply take_ge. lia. }
  destruct (iw_dom _ (aw_side _ Hw) (tip_block_hash tip)) as [[k Hk] _].
  { destruct (aw_verified _ Hw _ _ Hv) as (h & i & mh & Hb). cbn. rewrite lookup_fmap, (bk_header _ _ _ _ _ _ Hb). by eexists. }
  cbn in Hk.
  assert (forall c, anc = Some c -> ancestor (ix_parent (side_index a)) c (tip_block_hash tip)) as Hup.
  { intros c ->. destruct own as [o|]; [|done]. destruct (last_common_heights a _ _ _ Hanc) as (k0 & k1 & Hk0 & Hk1).
    destruct (last_common_ancestor_Ok a _ _ k0 k1 (aw_side _ Hw) Hk0 Hk1) as (r & Hr & Hlast); [pose proof (Hsm _ _ Hk0); lia|].
    rewrite Hanc in Hr. injection Hr as <-. apply Hlast. }
  assert (s <= k + 1) as Hle.
  { destruct anc as [c|]; [|injection Hs as <-; lia]. apply ok_or_Ok in Hs.
    pose proof (ancestor_le T c _ s k Hs Hk (Hup c eq_refl)). lia. }
  pose proof (missing_elem a (aw_side _ Hw) _ k s Hk Hle missing) as Hel. split_and!; [done|..].
  - intros c Hc. apply (Hel c Hm) in Hc as (Ha & (kc & Hkc & Hsc) & _). split; [done|]. intros x ->.
    apply ok_or_Ok in Hs. apply (ancestor_below T c x _ k kc s Hk Hkc Hs Hsc); [done|by apply Hup].
  - intros c Ha Hnot Hn. apply (Hel c Hm). pose proof Ha as (kc & _ & Hkc & _)%(ancestor_spec T _ _ k Hk).
    split_and!; [done| |done]. exists kc. split; [done|]. destruct anc as [x|]; [|injection Hs as <-; lia].
    apply ok_or_Ok in Hs. destruct (decide (kc <= s)) as [Hkle|]; [|lia]. exfalso. apply (Hnot x eq_refl).
    by apply (ancestor_below T x c _ k s kc Hk Hs Hkc Hkle); [apply Hup|].
  - intros g f st Hg. set (a' := put_side_tips st (put_inclusions f (put_bodies g a))). unfold bodies_to_request.
    change (last_common_ancestor a') with (last_common_ancestor a). change (archive_get_height a') with (archive_get_height a).
    rewrite Hanc. cbn [mbind result_bind]. rewrite Hs. cbn [mbind result_bind].
    assert (iter_missing_bodies a' (tip_block_hash tip) s = Ok []) as ->; [|done].
    assert (index_wf (side_index a')) as Hw' by exact (aw_side _ Hw).
    pose proof (iter_missing_bodies_eq a' Hw' (tip_block_hash tip) k s Hk Hle) as Heq.
    destruct (iter_missing_bodies a' (tip_block_hash tip) s) as [l| |] eqn:Hl; [|done..]. f_equal.
    destruct l as [|c l]; [done|]. exfalso.
    assert (c ∈ c :: l) as (Ha & Hkc & Hn)%(missing_elem a' Hw' _ k s Hk Hle _ c Hl) by apply list_elem_of_here.
    destruct (Hg c) as [x Hx]; [|cbn in Hn; congruence].
    destruct (ar_bodies a !! c) eqn:Hc; [left; by eexists|right]. by apply (Hel c Hm).
Qed.
End exchange.

(** C14 Bodies that a peer sends arrive: when the net task has handled the answers to the requests for the
    missing bodies of a verified tip, in whatever order they came and whatever tips waited for them, it has
    stopped on no error, nothing is left to request for the tip, and the connection has been told so. There is
    at least one missing body and there are fewer than [MAX_BLOCK_REQUESTS], that is 100, so that all of them
    are requested at once; the answers are for the missing blocks with the headers that are stored; the task is
    in order ([task_ok]), and the connection takes messages. *)
Theorem bodies_exchange `{Externals} `{WorkExternals} `{NetExternals} `{DialExternals} (t : NetTask)
    (addr : SocketAddr) (resolved : ResolvedAddress) (own : option TipInfo) (tip : Tip) (anc : option BlockHash)
    (id : PeerStateId) (missing : list BlockHash) (blocks : list (Header * Body)) :
  iter_spec -> task_ok t -> serves t addr -> tip_verified (nd_archive (nt_db t)) tip ->
  bodies_to_request (nd_archive (nt_db t)) own tip = Ok (anc, missing) ->
  missing <> [] -> (length missing < MAX_BLOCK_REQUESTS)%nat ->
  (fun block => header_hash block.1) <$> blocks ≡ₚ missing ->
  (forall block, block ∈ blocks -> ar_headers (nd_archive (nt_db t)) !! header_hash block.1 = Some block.1) ->
  exists t', run_mails (block_mail addr resolved tip anc id <$> blocks) t = (Ok tt, t') /\
    bodies_to_request (nd_archive (nt_db t')) own tip = Ok (anc, []) /\
    exists h, net_active_peers (nt_net t') !! addr = Some h /\ Internal_BodiesAvailable id ∈ ch_internal_messages h.
Proof.
  intros Hiter Hok Hsv Hv Hreq Hne Hlen Hperm Hstored. set (a := nd_archive (nt_db t)) in *.
  destruct (bodies_to_request_spec tip anc a own missing (af_wf _ (to_full _ Hok)) (to_small _ Hok) Hv Hreq Hlen)
    as (Hup & Hin & Hout & Hdone).
  assert (Forall (requested tip anc a) blocks) as Hall.
  { apply Forall_forall. intros block Hblock. split; [by apply Hstored|].
    destruct (Hin (header_hash block.1)) as [Hb Ha]; [|by split].
    rewrite <-Hperm. apply list_elem_of_fmap. by exists block. }
  destruct blocks as [|[header body] blocks _] using rev_ind.
  { destruct Hne. by apply Permutation_nil_l in Hperm. }
  apply Forall_app in Hall as [Hall [[Hh Hr] _]%Forall_cons].
  destruct (run_blocks_total Hiter addr resolved tip anc id blocks t Hok Hsv Hall) as (t1 & Hr1 & Hok1 & Hsv1 & Hs1 & Hb1).
  destruct (requested_same tip anc a (nd_archive (nt_db t1)) (header, body) Hs1) as [Hh1 Hreq1]; [by split|].
  destruct (handle_block_total Hiter t1 tip anc id addr header body Hok1 Hreq1 Hh1 Hsv1)
    as (t2 & Hr2 & Hok2 & Hsv2 & _ & Hs2 & Hb2 & Htold).
  assert (forall c, is_Some (ar_bodies a !! c) \/ c ∈ missing -> is_Some (ar_bodies (nd_archive (nt_db t2)) !! c)) as Hpresent.
  { intros c Hc. rewrite Hb2. destruct (decide (c = header_hash header)) as [->|Hnc]; [rewrite lookup_insert_eq; by eexists|].
    rewrite lookup_insert_ne by done. apply Hb1. destruct Hc as [?|Hc]; [by left|right].
    rewrite <-Hperm, fmap_app in Hc. apply elem_of_app in Hc as [?|Hc%list_elem_of_singleton]; done. }
  exists t2. pose proof (transitivity Hs1 Hs2) as (g & f & s & Ha2). split_and!.
  - rewrite fmap_app, (run_mails_app _ _ _ _ Hr1). cbn [fmap list_fmap run_mails].
    by rewrite (op_total_bind (run_mail (block_mail addr resolved tip anc id (header, body))) _ t1 tt t2 Hr2).
  - rewrite Ha2. apply Hdone. intros c Hc. specialize (Hpresent c Hc). by rewrite Ha2 in Hpresent.
  - apply Htold. rewrite Ha2. intros c Hc Hnot. rewrite <-Ha2. apply Hpresent.
    destruct (ar_bodies a !! c) as [x|] eqn:Hcb; [left; by eexists|right].
    apply Hout; [|done|done]. eapply ancestor_trans; [exact Hc|]. apply Hr.
Qed.
