(* ===== verification/NetFaults.v ===== *)
(** * What a peer can make the net task do

    Runs of the net task of [src/lib/node/net_task.rs] that the checks on a peer's messages do not
    exclude: a header that ends the task, a body that replaces the body of a connected block, and
    messages about a connection that reach the next connection with the same address. *)

From S2P Require Import Prelude Types Transaction Authorization State Merkle Block TwoWayPeg SideTips.
From S2P Require Import Lineage Archive ArchiveTree ArchiveWf ArchiveBodies TipsWf ArchiveQueries ArchiveIter.
From S2P Require Import BetterTip Mempool Node NodeTask HeadersSync PeerMessage PeerTask PeerSync.
From S2P Require Import NetAddress Net NetTask NetBodies.

Section faults.
Context `{Externals} `{WorkExternals} `{NetExternals} `{DialExternals}.
Implicit Types (t : NetTask) (a : Archive).

(** ** Headers *)

Lemma check_single_header a start height header :
  height_after a (hd_prev_side_hash header) = Some height -> height <= u32_MAX ->
  invalidated_block a (header_hash header) = false ->
  (forall p, hd_prev_side_hash header = Some p -> p ∈ start) ->
  check_headers a (mkHeadersRequest start (header_hash header) height) [header] = Ok true.
Proof.
  intros Hh Hmax Hinv Hstart. unfold check_headers. cbn [last hr_start hr_end hr_height].
  rewrite N.eqb_refl. cbn [negb sequential length].
  rewrite (bool_decide_true (hd_prev_side_hash header = hd_prev_side_hash header)) by done. rewrite Hinv.
  destruct (hd_prev_side_hash header) as [p|]; cbn [height_after] in Hh.
  - rewrite bool_decide_true by by apply Hstart. unfold archive_get_height, archive_try_get_height.
    destruct (ar_block_hash_to_height a !! p) as [k|]; [|done]. injection Hh as <-. cbn [ok_or mbind result_bind].
    change (N.of_nat 1 mod 2 ^ 32) with 1. by rewrite u32_add_small, N.eqb_refl.
  - by injection Hh as <-.
Qed.

Lemma store_unknown_main a header height :
  archive_ready a -> height_after a (hd_prev_side_hash header) = Some height -> height <= u32_MAX ->
  ar_headers a !! header_hash header = None -> ar_main_successors a !! hd_prev_main_hash header = None ->
  store_headers a [header] = Err (Archive_NoMainBlockHash (hd_prev_main_hash header)).
Proof.
  intros Hr Hh Hmax Hn Hm. pose proof (rd_wf _ Hr) as Hw.
  assert (put_header a header = Err (Archive_NoMainBlockHash (hd_prev_main_hash header))) as Hp.
  { destruct (put_header_indexed a header height Hw) as (a1 & _ & _ & _ & ->); try done.
    - split; [by left|]. intros p k Hp Hk. rewrite Hp in Hh. cbn in Hh. rewrite Hk in Hh. by injection Hh as <-.
    - by eapply successors_known.
    - unfold get_main_successors. by rewrite Hm. }
  cbn [store_headers]. rewrite Hn, bool_decide_false by (by intros []). rewrite Hp.
  destruct (hd_prev_side_hash header) as [p|]; [|done].
  cbn in Hh. destruct (ar_block_hash_to_height a !! p) as [k|] eqn:Hk; [|done].
  by rewrite bool_decide_true by (by eapply height_known_header).
Qed.
End faults.

(** A peer ends the net task of a node with one header. The header is the one that was requested and
    passes every check, but names a mainchain block that the node does not know as its
    mainchain parent: storing it fails, the error leaves [handle_response] and [run], and no later
    message is handled. *)
Theorem unknown_main_parent_stops_task `{Externals} `{WorkExternals} `{NetExternals} `{DialExternals}
    (t : NetTask) (addr : SocketAddr) (resolved : ResolvedAddress) (start : gset BlockHash) (height : u32)
    (id : PeerStateId) (header : Header) (later : list NetMailboxItem) :
  archive_ready (nd_archive (nt_db t)) ->
  height_after (nd_archive (nt_db t)) (hd_prev_side_hash header) = Some height -> height <= u32_MAX ->
  ar_headers (nd_archive (nt_db t)) !! header_hash header = None ->
  invalidated_block (nd_archive (nt_db t)) (header_hash header) = false ->
  (forall p, hd_prev_side_hash header = Some p -> p ∈ start) ->
  ar_main_successors (nd_archive (nt_db t)) !! hd_prev_main_hash header = None ->
  run_mails (Mail_PeerInfo addr resolved (Info_Response (Response_Headers [header])
      (Request_GetHeaders (mkGetHeadersRequest start (header_hash header) (Some height) (Some id)))) :: later) t =
    (Err (NetTask_Node (Node_Archive (Archive_NoMainBlockHash (hd_prev_main_hash header)))), t).
Proof.
  intros Hr Hh Hmax Hn Hinv Hstart Hm. cbn [run_mails run_mail handle_peer_info handle_response].
  unfold handle_headers_response, reading_archive, archive_result, node_result, reading, lifted, mbind, op_bind.
  unfold handle_headers. rewrite (check_single_header _ start height header Hh Hmax Hinv Hstart).
  cbn [mbind result_bind]. by rewrite (store_unknown_main _ header height Hr Hh Hmax Hn Hm).
Qed.

(** ** Bodies *)

Section bodies.
Context `{Externals} `{WorkExternals} `{NetExternals}.
Implicit Types (t : NetTask) (a : Archive).

(** A body without transactions whose root is not the header's cannot be disconnected. *)
Lemma disconnect_tip_empty_body s s' header body :
  bd_transactions body = [] -> compute_merkle_root (bd_coinbase body) [] <> Ok (hd_merkle_root header) ->
  disconnect_tip s header body <> Ok s'.
Proof.
  intros Ht Hroot Hd. unfold disconnect_tip in Hd. rewrite Ht in Hd. res_inv.
  apply N.eqb_eq in Hx4. subst x3. apply Hroot. exact Hx3.
Qed.
End bodies.

(** C39 A peer can leave a node unable to disconnect its tip. A body without transactions, whose Merkle root is
    not the one in the header of the tip, in an answer to a request for the block of the tip that is handled
    without an error, is stored over the connected one without a look at its Merkle root, also when another peer
    has answered before: from then on [disconnect_tip_], and with it every reorganisation that goes below the
    tip, fails. *)
Theorem late_body_wedges_tip `{Externals} `{WorkExternals} `{NetExternals} (t t' : NetTask) (addr : SocketAddr)
    (header : Header) (body : Body) (tip : Tip) (anc : option BlockHash) (id : PeerStateId) :
  try_get_tip (nd_state (nt_db t)) = Some (header_hash header) ->
  ar_headers (nd_archive (nt_db t)) !! header_hash header = Some header ->
  bd_transactions body = [] -> compute_merkle_root (bd_coinbase body) [] <> Ok (hd_merkle_root header) ->
  handle_response addr (Response_Block header body)
    (Request_GetBlock (mkGetBlockRequest (header_hash header) (Some tip) anc (Some id))) t = (Ok tt, t') ->
  get_body (nd_archive (nt_db t')) (header_hash header) = Ok body /\
  forall db', disconnect_tip_ (nt_db t') <> Ok db'.
Proof.
  intros Htip Hh Htx Hroot Hr. cbn [handle_response] in Hr.
  destruct (handle_block_db _ _ _ _ _ _ _ _ _ eq_refl Hr) as (a' & Hp & Hdb).
  pose proof (put_body_stored _ _ _ _ Hp) as Hb. pose proof (sc_headers _ _ (put_body_chain _ _ _ _ Hp)) as Hhd.
  rewrite Hdb. cbn [nt_db put_archive put_db].
  assert (get_body a' (header_hash header) = Ok body) as Hget.
  { unfold get_body. by rewrite Hb, lookup_insert_eq. }
  split; [done|]. intros db' Hd. unfold disconnect_tip_ in Hd.
  cbn [nd_state nd_archive nd_mempool] in Hd. rewrite Htip in Hd.
  unfold get_header in Hd. cbn [ok_or mbind result_bind] in Hd. rewrite Hhd, Hh, Hget in Hd.
  cbn [ok_or map_err mbind result_bind] in Hd. repeat (apply bind_Ok in Hd as (? & ? & Hd)).
  match goal with Hx : map_err Node_State (disconnect_tip _ _ _) = Ok _ |- _ => apply map_err_Ok in Hx end.
  by eapply disconnect_tip_empty_body.
Qed.

(** ** Connections with one address *)

Lemma peer_error_removed `{NetExternals} addr err resolved t :
  exists t', handle_peer_error addr err resolved t = (Ok tt, t') /\ net_active_peers (nt_net t') !! addr = None.
Proof.
  unfold handle_peer_error, mbind, op_bind, mret, op_ret, remove_peer, reading, writing, try_with_active_peer_connection.
  assert (err = Conn_HeartbeatTimeout \/ err <> Conn_HeartbeatTimeout) as [->|Hne]
    by (destruct err; (by left) || by right).
  - destruct (net_active_peers (nt_net t) !! addr) as [h|] eqn:Hh; cbn; [|by exists t].
    destruct (ch_received_msg_successfully h); eexists; (split; [done|]); cbn; apply lookup_delete_eq.
  - destruct err; try done; repeat (case_match; simplify_eq); eexists; (split; [done|]); cbn; apply lookup_delete_eq.
Qed.

(** A connection that ends with an error is reported twice, with the error and with the end of its
    channel. When the peer connects again in between, the second report closes the new connection:
    connections are told apart by their addresses only. *)
Theorem stale_close_drops_connection `{Externals} `{WorkExternals} `{NetExternals} `{DialExternals}
    (t : NetTask) (addr : SocketAddr) (resolved : ResolvedAddress) (err : ConnectionError) :
  exists t1 t2,
    run_mails [Mail_PeerInfo addr resolved (Info_Error err);
               Mail_AcceptConnection (Incoming_Connection addr false)] t = (Ok tt, t1) /\
    net_active_peers (nt_net t1) !! addr = Some (peer_handle (resolved_of_socket addr)) /\
    run_mail (Mail_PeerClosed addr) t1 = (Ok tt, t2) /\ net_active_peers (nt_net t2) !! addr = None.
Proof.
  destruct (peer_error_removed addr err resolved t) as (t0 & Ht0 & Hnone).
  cbn [run_mails run_mail handle_peer_info]. unfold mbind at 1, op_bind at 1. rewrite Ht0.
  eexists _, _. split_and!; [reflexivity| |reflexivity|cbn; apply lookup_delete_eq].
  cbn. unfold accept_incoming, reading, mbind, op_bind. rewrite Hnone. cbn.
  unfold zoom, add_active_peer. rewrite Hnone. cbn. apply lookup_insert_eq.
Qed.

(** A handle with more messages in its queue *)
Definition queue_messages (messages : list InternalMessage) (h : ConnectionHandle) : ConnectionHandle :=
  mkConnectionHandle (ch_received_msg_successfully h) (ch_status h) (ch_internal_messages h ++ messages)
    (ch_open h) (ch_resolved_address h).

(** The messages of a list of recipients that are for one address *)
Definition messages_for (message : PeerStateId -> InternalMessage) (addr : SocketAddr)
    (sources : list (SocketAddr * PeerStateId)) : list InternalMessage :=
  (fun p => message p.2) <$> List.filter (fun p => bool_decide (p.1 = addr)) sources.

Lemma push_all_lookup (message : PeerStateId -> InternalMessage) addr sources : forall n,
  net_active_peers (foldl (fun n '(addr, id) => (push_internal_message (message id) addr n).1) n sources) !! addr =
  (fun h => if ch_open h then queue_messages (messages_for message addr sources) h else h) <$> net_active_peers n !! addr.
Proof.
  induction sources as [|[addr' id] sources IH]; intros n.
  - cbn. destruct (net_active_peers n !! addr) as [h|]; [|done]. cbn. f_equal.
    unfold queue_messages. rewrite app_nil_r. by destruct h as [? ? ? [] ?].
  - cbn [foldl]. rewrite IH. unfold push_internal_message, messages_for. cbn [List.filter fst].
    destruct (net_active_peers n !! addr') as [h'|] eqn:Hh'; [destruct (ch_open h') eqn:Ho|]; cbn [fst net_active_peers set_active_peers];
      case_bool_decide as Heq; try subst addr'; rewrite ?lookup_insert_eq, ?lookup_insert_ne, ?Hh' by done; try done; cbn.
    + rewrite Ho. f_equal. unfold queue_messages, queue_message. cbn. by rewrite <-app_assoc.
    + by rewrite Ho.
Qed.

(** An answer of the mainchain task goes to every connection that asked, once for each peer state that
    asked, and the question is forgotten; other connections and the databases are left alone. *)
Theorem ancestors_answered `{Externals} `{WorkExternals} `{NetExternals} (t : NetTask) (main_hash : MainBlockHash)
    (res : option bool) (sources : gset (SocketAddr * PeerStateId)) :
  iter_spec -> nt_request_sources t !! AncestorInfos main_hash = Some sources ->
  exists t', handle_mainchain_task_response (Response_AncestorInfos main_hash res) t = (Ok tt, t') /\
    nt_db t' = nt_db t /\ nt_request_sources t' = delete (AncestorInfos main_hash) (nt_request_sources t) /\
    forall addr h, net_active_peers (nt_net t) !! addr = Some h ->
      exists ids, NoDup ids /\ (forall id, id ∈ ids <-> (addr, id) ∈ sources) /\
        net_active_peers (nt_net t') !! addr =
          Some (if ch_open h then queue_messages (ancestors_message res <$> ids) h else h).
Proof.
  intros [_ Hset] Hs. unfold handle_mainchain_task_response, mbind, op_bind, reading, writing. cbn [request_of_response].
  rewrite Hs. eexists. split; [done|]. split_and!; [done|done|]. intros addr h Hh. cbn [nt_net on_net put_request_sources].
  set (l := List.filter (fun p : SocketAddr * PeerStateId => bool_decide (p.1 = addr)) (set_iter sources)).
  assert (NoDup (set_iter sources)) as Hnd by (rewrite (Hset _ _ _ sources); apply NoDup_elements).
  assert (forall p, p ∈ l <-> p.1 = addr /\ p ∈ sources) as Hl.
  { intros p. unfold l. rewrite list_elem_of_In, List.filter_In, <-list_elem_of_In, (Hset _ _ _ sources), elem_of_elements.
    rewrite bool_decide_eq_true. tauto. }
  exists l.*2. split_and!.
  - apply NoDup_fmap_2_strong.
    + intros [a1 i1] [a2 i2] [Ha1 _]%Hl [Ha2 _]%Hl Heq. cbn in *. congruence.
    + apply NoDup_ListNoDup, List.NoDup_filter. by apply NoDup_ListNoDup.
  - intros id. rewrite list_elem_of_fmap. split.
    + intros ([a1 i1] & -> & [Ha1 Hin]%Hl). cbn in *. by subst a1.
    + intros Hin. exists (addr, id). split; [done|]. by apply Hl.
  - rewrite (push_all_lookup (ancestors_message res)), Hh. cbn. unfold messages_for. fold l.
    by rewrite <-list_fmap_compose.
Qed.

(** An answer that comes after the peer has connected again ends the new connection, which does not
    know the peer state that asked. *)
Theorem stale_answer_ends_connection `{Externals} `{WorkExternals} `{NetExternals} (t t' : NetTask)
    (main_hash : MainBlockHash) (sources : gset (SocketAddr * PeerStateId)) (addr : SocketAddr)
    (id : PeerStateId) (db : NodeDb) :
  iter_spec -> nt_request_sources t !! AncestorInfos main_hash = Some sources -> (addr, id) ∈ sources ->
  net_active_peers (nt_net t) !! addr = Some (peer_handle (resolved_of_socket addr)) ->
  handle_mainchain_task_response (Response_AncestorInfos main_hash (Some true)) t = (Ok tt, t') ->
  (exists h, net_active_peers (nt_net t') !! addr = Some h /\ Internal_MainchainAncestors id ∈ ch_internal_messages h) /\
  run_item db (Item_InternalMessage (Internal_MainchainAncestors id)) peer_conn_new =
    (Err (Conn_MissingPeerState id), peer_conn_new).
Proof.
  intros [_ Hset] Hs Hin Hh Hr. split; [|done].
  unfold handle_mainchain_task_response, mbind, op_bind, reading, writing in Hr. cbn [request_of_response] in Hr.
  rewrite Hs in Hr. injection Hr as <-. cbn [nt_net on_net put_request_sources].
  rewrite (push_all_lookup (ancestors_message (Some true))), Hh. eexists. split; [done|]. cbn.
  unfold messages_for. apply list_elem_of_fmap. exists (addr, id). split; [done|].
  apply list_elem_of_In, List.filter_In. split; [|by apply bool_decide_eq_true].
  by apply list_elem_of_In; rewrite (Hset _ _ _ sources), elem_of_elements.
Qed.
