(* ===== verification/PeerSamples.v ===== *)
(** * Samples of the network

    A concrete instance of [NetExternals], and the theorems on messages and connections at
    concrete inputs. *)

From S2P Require Import Prelude Types Transaction Authorization Sample State Merkle Mempool SideTips.
From S2P Require Import Lineage Archive ArchiveTree ArchiveWf ArchiveBodies TipsWf ArchiveQueries.
From S2P Require Import ArchiveSamples BetterTip NodeTask HeadersSync PeerMessage PeerTask PeerBodies.
From S2P Require Import PeerSync PeerInvariant.

(** ** Encodings *)

Ltac encoded f g := refine (inj_countable' f g _); by intros [].

Module Codec.
#[export] Instance WithdrawalContent_countable : Countable WithdrawalContent.
Proof. encoded (fun w => (wc_value w, wc_main_fee w, wc_main_address w)) (fun '(v, f, a) => mkWithdrawalContent v f a). Defined.
#[export] Instance Content_countable : Countable Content.
Proof.
  encoded (fun c => match c with
    | Content_Bitcoin v => inl (inl v) | Content_BitName => inl (inr false)
    | Content_BitNameReservation => inl (inr true) | Content_Withdrawal w => inr w end)
   (fun x => match x with
    | inl (inl v) => Content_Bitcoin v | inl (inr false) => Content_BitName
    | inl (inr true) => Content_BitNameReservation | inr w => Content_Withdrawal w end).
Defined.
#[export] Instance Output_countable : Countable Output.
Proof. encoded (fun o => (out_address o, out_content o, out_memo o)) (fun '(a, c, m) => mkOutput a c m). Defined.
#[export] Instance MutableBitNameData_eq_dec : EqDecision MutableBitNameData.
Proof. solve_decision. Defined.
#[export] Instance MutableBitNameData_countable : Countable MutableBitNameData.
Proof.
  encoded (fun m => (mbd_commitment m, mbd_socket_addr_v4 m, mbd_socket_addr_v6 m,
      mbd_encryption_pubkey m, mbd_signing_pubkey m, mbd_paymail_fee_sats m))
    (fun '(a, b, c, d, e, f) => mkMutableBitNameData a b c d e f).
Defined.
#[export] Instance Update_eq_dec : EqDecision (Update N).
Proof. solve_decision. Defined.
#[export] Instance Update_countable : Countable (Update N).
Proof.
  encoded (fun u : Update N => match u in Update _ with Delete => inl false | Retain => inl true | Set_ v => inr v end)
    (fun x => match x return Update N with inl false => Delete | inl true => Retain | inr v => Set_ v end).
Defined.
#[export] Instance BitNameDataUpdates_eq_dec : EqDecision BitNameDataUpdates.
Proof. solve_decision. Defined.
#[export] Instance BitNameDataUpdates_countable : Countable BitNameDataUpdates.
Proof.
  encoded (fun m => (upd_commitment m, upd_socket_addr_v4 m, upd_socket_addr_v6 m,
      upd_encryption_pubkey m, upd_signing_pubkey m, upd_paymail_fee_sats m))
    (fun '(a, b, c, d, e, f) => mkBitNameDataUpdates a b c d e f).
Defined.
#[export] Instance BatchIcann_eq_dec : EqDecision BatchIcannRegistrationData.
Proof. solve_decision. Defined.
#[export] Instance BatchIcann_countable : Countable BatchIcannRegistrationData.
Proof. encoded (fun b => (bi_plain_names b, bi_signature b)) (fun '(n, s) => mkBatchIcann n s). Defined.
#[export] Instance TxData_eq_dec : EqDecision TxData.
Proof. solve_decision. Defined.
#[export] Instance TxData_countable : Countable TxData.
Proof.
  encoded (fun d => match d with
    | TxData_BitNameReservation c => inl (inl c)
    | TxData_BitNameRegistration n r m => inl (inr (n, r, m))
    | TxData_BitNameUpdate u => inr (inl u) | TxData_BatchIcann b => inr (inr b) end)
   (fun x => match x with
    | inl (inl c) => TxData_BitNameReservation c
    | inl (inr (n, r, m)) => TxData_BitNameRegistration n r m
    | inr (inl u) => TxData_BitNameUpdate u | inr (inr b) => TxData_BatchIcann b end).
Defined.
#[export] Instance Transaction_eq_dec : EqDecision Transaction.
Proof. solve_decision. Defined.
#[export] Instance Transaction_countable : Countable Transaction.
Proof.
  encoded (fun t => (tx_inputs t, tx_outputs t, tx_memo t, tx_data t)) (fun '(i, o, m, d) => mkTransaction i o m d).
Defined.
#[export] Instance Authorization_eq_dec : EqDecision Authorization.
Proof. solve_decision. Defined.
#[export] Instance Authorization_countable : Countable Authorization.
Proof. encoded (fun a => (auth_verifying_key a, auth_signature a)) (fun '(k, s) => mkAuthorization k s). Defined.
#[export] Instance AuthorizedTransaction_eq_dec : EqDecision AuthorizedTransaction.
Proof. solve_decision. Defined.
#[export] Instance AuthorizedTransaction_countable : Countable AuthorizedTransaction.
Proof. encoded (fun t => (at_transaction t, at_authorizations t)) (fun '(t, a) => mkAuthorizedTransaction t a). Defined.
#[export] Instance Header_eq_dec : EqDecision Header.
Proof. solve_decision. Defined.
#[export] Instance Header_countable : Countable Header.
Proof. encoded (fun h => (hd_merkle_root h, hd_prev_side_hash h, hd_prev_main_hash h)) (fun '(r, s, m) => mkHeader r s m). Defined.
#[export] Instance Coinbase_eq_dec : EqDecision Coinbase.
Proof. solve_decision. Defined.
#[export] Instance Coinbase_countable : Countable Coinbase.
Proof. encoded (fun c => (cb_memo c, cb_outputs c)) (fun '(m, o) => mkCoinbase m o). Defined.
#[export] Instance Body_eq_dec : EqDecision Body.
Proof. solve_decision. Defined.
#[export] Instance Body_countable : Countable Body.
Proof.
  encoded (fun b => (bd_coinbase b, bd_transactions b, bd_authorizations b)) (fun '(c, t, a) => mkBody c t a).
Defined.
#[export] Instance Version_countable : Countable Version.
Proof. encoded (fun v => (ver_major v, ver_minor v, ver_patch v)) (fun '(a, b, c) => mkVersion a b c). Defined.
#[export] Instance TipInfo_countable : Countable TipInfo.
Proof. encoded (fun t => (ti_block_height t, ti_tip t, ti_total_work t)) (fun '(h, t, w) => mkTipInfo h t w). Defined.
#[export] Instance PeerState_countable : Countable PeerState.
Proof. encoded (fun p => (ps_tip_info p, ps_version p)) (fun '(t, v) => mkPeerState t v). Defined.
#[export] Instance WireRequest_eq_dec : EqDecision WireRequest.
Proof. solve_decision. Defined.
#[export] Instance WireRequest_countable : Countable WireRequest.
Proof.
  encoded (fun r => match r with
    | Wire_GetBlock b => inl (inl b) | Wire_GetHeaders s e => inl (inr (s, e))
    | Wire_PushTransaction t => inr t end)
   (fun x => match x with
    | inl (inl b) => Wire_GetBlock b | inl (inr (s, e)) => Wire_GetHeaders s e
    | inr t => Wire_PushTransaction t end).
Defined.
#[export] Instance ResponseMessage_eq_dec : EqDecision ResponseMessage.
Proof. solve_decision. Defined.
#[export] Instance ResponseMessage_countable : Countable ResponseMessage.
Proof.
  encoded (fun r => match r with
    | Response_Block h b => inl (inl (h, b)) | Response_Headers l => inl (inr l)
    | Response_NoBlock b => inr (inl (inl b)) | Response_NoHeader b => inr (inl (inr b))
    | Response_TransactionAccepted t => inr (inr (inl t)) | Response_TransactionRejected t => inr (inr (inr t)) end)
   (fun x => match x with
    | inl (inl (h, b)) => Response_Block h b | inl (inr l) => Response_Headers l
    | inr (inl (inl b)) => Response_NoBlock b | inr (inl (inr b)) => Response_NoHeader b
    | inr (inr (inl t)) => Response_TransactionAccepted t | inr (inr (inr t)) => Response_TransactionRejected t end).
Defined.

(** A value as one number *)
Definition enc {A} `{Countable A} (x : A) : bytes := [Npos (encode x)].
Definition dec {A} `{Countable A} (b : bytes) : option A :=
  match b with [Npos p] => decode p | _ => None end.
Lemma dec_enc {A} `{Countable A} (x : A) : dec (enc x) = Some x.
Proof. cbn. apply decode_encode. Qed.

Definition codec {A} `{Countable A} : Bincode A := mkBincode A enc (fun b =>
  match b with Npos p :: rest => x ← decode p; Some (x, rest) | _ => None end).
Lemma codec_ok {A} `{Countable A} : bincode_ok (codec (A := A)).
Proof. intros x rest. cbn. by rewrite decode_encode. Qed.

#[export] Instance net_externals : NetExternals := {|
  VERSION := mkVersion 0 1 0;
  borsh_peer_state := enc;
  borsh_request := enc;
  bincode_variant := codec;
  bincode_peer_state := codec;
  bincode_block_hash := codec;
  bincode_block_hashes := codec;
  bincode_transaction := codec;
  bincode_response := enc;
  bincode_deserialize_response := dec;
  map_iter _ _ _ _ m := map_to_list m;
  set_iter _ _ _ s := elements s;
|}.
Lemma bincode_roundtrips : bincode_message_spec.
Proof. split; [apply codec_ok..|]. intros x. apply dec_enc. Qed.
Lemma iterations : iter_spec.
Proof. done. Qed.
End Codec.

Module PeerSamples.
#[export] Existing Instance Sample.externals.
#[export] Existing Instance ArchiveSamples.work_externals.
#[export] Existing Instance Codec.net_externals.
#[local] Existing Instance Codec.Header_eq_dec.
#[local] Notation archive := ArchiveSamples.archive.

Definition peer_state_of (height : u32) (b : BlockHash) (m : MainBlockHash) (w : Work) : PeerState :=
  mkPeerState (Some (mkTipInfo height (mkTip b m) w)) VERSION.

(** *** Two nodes: one knows the first block, the other one all three *)

Definition node : Archive := HeadersSamples.archive.
Definition main_ready_atb (a : Archive) (h : Header) : bool :=
  match ar_main_successors a !! hd_prev_main_hash h with
  | Some s => forallb (fun m => negb (ArchiveSamples.absent (ar_main_block_infos a !! m)) &&
      negb (ArchiveSamples.absent (ar_main_header_infos a !! m))) (elements s)
  | None => false
  end.
Lemma main_ready_atb_sound a h : main_ready_atb a h = true -> main_ready a h.
Proof.
  unfold main_ready_atb, main_ready. destruct (ar_main_successors a !! _) as [s|]; [|done]. rewrite forallb_forall.
  intros Hf. exists s. split; [done|]. intros m Hm%elem_of_elements%list_elem_of_In. specialize (Hf m Hm).
  apply andb_true_iff in Hf as [H1 H2]. destruct (ar_main_block_infos a !! m), (ar_main_header_infos a !! m);
    try done; split; by eexists.
Qed.
Lemma node_ready : archive_ready node.
Proof.
  split; [exact HeadersSamples.headers_archive_wf| |vm_compute; by eexists].
  apply ArchiveSamples.successors_okb_sound. vm_compute. reflexivity.
Qed.
Lemma peer_headers_hashed : headers_hashed archive.
Proof.
  assert (map_Forall (fun b h => header_hash h = b) (ar_headers archive)) as Hf
    by (apply (bool_decide_unpack _); vm_compute; exact I). exact Hf.
Qed.
Lemma node_headers_agree : headers_agree node archive.
Proof.
  assert (map_Forall (fun b h => ar_headers archive !! b = Some h) (ar_headers node)) as Hf
    by (apply (bool_decide_unpack _); vm_compute; exact I).
  intros b h h' Hh Hh'. pose proof (eq_trans (eq_sym (Hf b h Hh)) Hh') as He. by injection He.
Qed.
Lemma branch_storable b h :
  ar_headers archive !! b = Some h -> invalidated_block node b = false /\ main_ready node h.
Proof.
  assert (map_Forall (fun b h => invalidated_block node b = false /\ main_ready_atb node h = true) (ar_headers archive)) as Hf
    by (apply (bool_decide_unpack _); vm_compute; exact I).
  intros Hh. destruct (Hf b h Hh) as [H1 H2]. split; [exact H1|by apply main_ready_atb_sound].
Qed.

(** *** A connection *)

(** A peer announces the second block; the node knows the headers but no body. *)
Definition announcement : PeerState := peer_state_of 1 ArchiveSamples.block1 103 30.
Definition synced_db : NodeDb := mkNodeDb empty_state ArchiveSamples.synced empty_pool.
Definition asked : PeerConn :=
  (run_item synced_db Item_BlockingTask
    (run_item synced_db (Item_PeerRequest (Message_Heartbeat announcement)) peer_conn_new).2).2.
Lemma asked_reachable : conn_reachable asked.
Proof.
  unfold asked. eapply (conn_step synced_db Item_BlockingTask).
  - eapply (conn_step synced_db (Item_PeerRequest (Message_Heartbeat announcement))); [apply conn_new| |].
    + intros ti [= <-]. vm_compute. discriminate.
    + vm_compute. reflexivity.
  - exact I.
  - vm_compute. reflexivity.
Qed.

(** The first block with its body *)
Definition body_db : NodeDb := mkNodeDb empty_state ArchiveSamples.with_body empty_pool.
Lemma with_body_wf : archive_wf ArchiveSamples.with_body.
Proof.
  destruct (is_ok_Ok (put_body ArchiveSamples.synced ArchiveSamples.block0 ArchiveSamples.body))
    as [a1 Ha1]; [vm_compute; reflexivity|].
  assert (ArchiveSamples.with_body = a1) as -> by (unfold ArchiveSamples.with_body; rewrite Ha1; reflexivity).
  exact (proj1 (put_body_wf_tips _ _ _ _ ArchiveSamples.synced_wf ArchiveSamples.synced_tips Ha1)).
Qed.
End PeerSamples.

Lemma messages_roundtrip_witness :
  let msg := Message_Request (Request_GetHeaders (mkGetHeadersRequest {[4]} 7 (Some 2) (Some 3))) in
  @receive_request Codec.net_externals (magic_bytes Regtest) (@frame_message Codec.net_externals (magic_bytes Regtest) msg)
    = Ok (Message_Request (Request_GetHeaders (mkGetHeadersRequest {[4]} 7 None None))) /\
  @receive_request Codec.net_externals [1; 2; 3; 4] (@frame_message Codec.net_externals (magic_bytes Regtest) msg)
    = Err (Receive_BadMagic (magic_bytes Regtest)).
Proof.
  intros msg.
  destruct (@messages_roundtrip Codec.net_externals None (Some [1; 2; 3; 4]) Regtest Signet msg (Response_NoBlock 7) 256
    Codec.bincode_roundtrips) as (Hok & _ & Hbad & _).
  - discriminate.
  - vm_compute. discriminate.
  - vm_compute. discriminate.
  - split; [exact Hok|]. apply Hbad. discriminate.
Defined.

Lemma headers_exchange_witness :
  exists start headers a',
    @headers_response ArchiveSamples.archive start ArchiveSamples.block1 = Ok (Response_Headers headers) /\
    @handle_headers Sample.externals PeerSamples.node
      (mkHeadersRequest start ArchiveSamples.block1 1) headers = Ok (a', true) /\
    archive_try_get_height a' ArchiveSamples.block1 = Some 1.
Proof.
  destruct (@headers_exchange Sample.externals Codec.net_externals PeerSamples.node ArchiveSamples.archive None
    (mkTipInfo 1 (mkTip ArchiveSamples.block1 103) 30) 5 peer_conn_new
    (@request_headers Sample.externals Codec.net_externals PeerSamples.node None
      (mkTipInfo 1 (mkTip ArchiveSamples.block1 103) 30) 5 peer_conn_new).2
    PeerSamples.node_ready (archive_reachable_wf _ ArchiveSamples.archive_ok)
    PeerSamples.peer_headers_hashed PeerSamples.node_headers_agree)
    as (start & headers & a' & _ & Hresp & Hh & _ & _ & Hk).
  - vm_compute. reflexivity.
  - intros x h _ Hx. exact (PeerSamples.branch_storable x h Hx).
  - vm_compute. reflexivity.
  - exists start, headers, a'. split; [exact Hresp|split; [exact Hh|exact Hk]].
Defined.

Lemma handle_headers_sound_witness :
  exists a', @handle_headers Sample.externals PeerSamples.node HeadersSamples.req [ArchiveSamples.header1] = Ok (a', true) /\
    archive_wf a' /\ archive_try_get_height a' ArchiveSamples.block1 = Some 1.
Proof.
  destruct (@handle_headers_sound Sample.externals PeerSamples.node HeadersSamples.req [ArchiveSamples.header1]
    PeerSamples.node_ready) as (a' & taken & Hh & Hw & _ & Hk).
  - split.
    + intros h ->%list_elem_of_singleton. left. vm_compute. reflexivity.
    + intros h h' ->%list_elem_of_singleton ->%list_elem_of_singleton _. reflexivity.
  - repeat constructor. apply PeerSamples.main_ready_atb_sound. vm_compute. reflexivity.
  - intros b Hb. unfold HeadersSamples.req in Hb. simpl in Hb. apply elem_of_singleton in Hb as ->.
    exists 0. split; [vm_compute; reflexivity|vm_compute; discriminate].
  - vm_compute. discriminate.
  - assert (snd <$> @handle_headers Sample.externals PeerSamples.node HeadersSamples.req [ArchiveSamples.header1] = Ok true)
      as Ht by (vm_compute; reflexivity).
    rewrite Hh in Ht. injection Ht as ->. exists a'. split; [exact Hh|split; [exact Hw|]].
    exact (proj2 (Hk eq_refl)).
Defined.

Lemma check_peer_tip_is_better_tip_witness :
  @check_peer_tip_and_request_headers Sample.externals Codec.net_externals ArchiveSamples.synced
    (Some (mkTipInfo 1 (mkTip ArchiveSamples.block2 104) 40))
    (mkTipInfo 1 (mkTip ArchiveSamples.block1 103) 30) 5 peer_conn_new = (Ok (Some true), peer_conn_new).
Proof.
  rewrite (@check_peer_tip_is_better_tip Sample.externals Codec.net_externals).
  - vm_compute. reflexivity.
  - split; vm_compute; reflexivity.
  - split; vm_compute; reflexivity.
  - vm_compute. discriminate.
  - vm_compute. discriminate.
  - vm_compute. eexists. reflexivity.
  - vm_compute. reflexivity.
Defined.

Lemma new_tip_ready_available_witness :
  tip_available ArchiveSamples.with_body None (mkTip ArchiveSamples.block0 102).
Proof.
  apply (@new_tip_ready_available Sample.externals Codec.net_externals PeerSamples.body_db
    (PeerSamples.peer_state_of 0 ArchiveSamples.block0 102 20) peer_conn_new
    (@handle_peer_state Sample.externals Codec.net_externals PeerSamples.body_db
      (PeerSamples.peer_state_of 0 ArchiveSamples.block0 102 20) peer_conn_new).2
    (@handle_peer_state Sample.externals Codec.net_externals PeerSamples.body_db
      (PeerSamples.peer_state_of 0 ArchiveSamples.block0 102 20) peer_conn_new).1).
  - exact PeerSamples.with_body_wf.
  - intros t k Ht. vm_compute in Ht. discriminate Ht.
  - vm_compute. reflexivity.
  - vm_compute. right. left.
  - vm_compute. intros Hin. inversion Hin as [|? ? ? Hin']. inversion Hin'.
Defined.

Lemma connection_invariant_witness :
  length (pc_requests PeerSamples.asked) = 2%nat /\
  NoDup (@sent_once Sample.externals Codec.net_externals PeerSamples.asked).
Proof.
  split; [vm_compute; reflexivity|].
  apply (@connection_invariant Sample.externals Codec.net_externals PeerSamples.asked PeerSamples.asked_reachable).
Defined.

Lemma block_requested_once_witness :
  exists id, @send_request Sample.externals Codec.net_externals TaskError
    (Request_GetBlock (mkGetBlockRequest ArchiveSamples.block0 None None id)) PeerSamples.asked =
    (Ok false, PeerSamples.asked).
Proof.
  exists (Some 77).
  apply (@block_requested_once Sample.externals Codec.net_externals PeerSamples.asked ArchiveSamples.block0
    (Some (mkTip ArchiveSamples.block1 103)) None None None
    (Some (@peer_state_id Sample.externals Codec.net_externals PeerSamples.announcement)) (Some 77)
    PeerSamples.asked_reachable).
  vm_compute. left.
Defined.
