(* ===== verification/NetSamples.v ===== *)
(** * Samples of the net task

    A node with the sample archive and one connected peer, and the theorems on the net task, the table
    of peers and their addresses at concrete inputs. *)

From S2P Require Import Prelude Types Transaction Authorization Sample State Merkle SideTips Lineage.
From S2P Require Import Archive ArchiveTree ArchiveWf ArchiveBodies TipsWf ArchiveQueries ArchiveSamples.
From S2P Require Import BetterTip Mempool Node NodeTask HeadersSync PeerMessage PeerTask PeerBodies.
From S2P Require Import PeerSync BodyTotal NetAddress Net NetTask NetBodies TipTotal NetExchange NetFaults.
From S2P Require Import PeerSamples Encodings NodeQueries.

Module NetSamples.
Lemma pair_snd {A B} (p : A * B) x : p.1 = x -> p = (x, p.2).
Proof. by destruct p; cbn; intros ->. Qed.

#[export] Existing Instance Sample.externals.
#[export] Existing Instance ArchiveSamples.work_externals.
#[export] Existing Instance Codec.net_externals.

(** An endpoint that refuses the address 127.0.0.1, a resolver that knows two addresses for every
    name, and the order of the keys *)
#[export] Instance dial_externals : DialExternals := {|
  server_connect addr _ :=
    if bool_decide (socket_ip addr = Ipv4 (ipv4 127 0 0 1)) then Some (Quinn_InvalidRemoteAddress addr) else None;
  lookup_ip _ := Some [Ipv4 (ipv4 127 0 0 1); Ipv4 0; Ipv4 (ipv4 10 0 0 7)];
  known_peers_keys := elements;
|}.
(** Hosts are written by a code of one number. *)
#[export] Instance Host_countable : Countable Host.
Proof.
  apply (inj_countable'
    (fun h => match h with Host_Domain d => inl d | Host_Ipv4 ip => inr (inl ip) | Host_Ipv6 ip => inr (inr ip) end)
    (fun x => match x with inl d => Host_Domain d | inr (inl ip) => Host_Ipv4 ip | inr (inr ip) => Host_Ipv6 ip end)).
  by intros [].
Defined.
#[export] Instance url_externals : UrlExternals := {|
  UrlParseError := unit;
  url_InvalidPort := tt;
  host_display := Codec.enc;
  host_parse s := ok_or (Codec.dec s) tt;
|}.

(** ** The sample archive has what the net task needs *)

Notation synced := ArchiveSamples.synced.

Lemma synced_full : archive_full synced.
Proof.
  apply (full_same ArchiveSamples.archive).
  - exact (ArchiveSamples.main_synced_chain ArchiveSamples.archive).
  - vm_compute. reflexivity.
  - exact (archive_reachable_full _ ArchiveSamples.archive_ok).
Qed.

Definition below_root (m : MainBlockHash) : bool :=
  existsb (fun n => bool_decide (ancestor_at (ix_parent (main_index synced)) n m = Some 101)) (seq 0 5).
Lemma synced_root : main_rooted synced.
Proof.
  assert (map_Forall (fun m _ => below_root m = true) (ar_main_header_infos synced)) as Hroot
    by (apply (bool_decide_unpack _); vm_compute; exact I).
  assert (forall m, is_Some (ar_main_header_infos synced !! m) -> ancestor (ix_parent (main_index synced)) 101 m) as Hanc.
  { intros m [i Hi]. specialize (Hroot m i Hi). apply existsb_exists in Hroot as (n & _ & Hn).
    apply bool_decide_eq_true in Hn. by exists n. }
  split.
  - intros m0 m1 H0 H1. exists 101. split; by apply Hanc.
  - assert (map_Forall (fun _ k => k < 2 ^ 31) (ar_main_block_hash_to_height synced)) as Hf
      by (apply (bool_decide_unpack _); vm_compute; exact I). exact Hf.
  - assert (map_Forall (fun _ h => is_Some (ar_main_header_infos synced !! hd_prev_main_hash h)) (ar_headers synced)) as Hf
      by (apply (bool_decide_unpack _); vm_compute; exact I).
    intros b header m _ Hh. exact (Hf b header Hh).
Qed.
Lemma synced_small : forall c k, archive_try_get_height synced c = Some k -> k < 2 ^ 31.
Proof.
  assert (map_Forall (fun _ k => k < 2 ^ 31) (ar_block_hash_to_height synced)) as Hf
    by (apply (bool_decide_unpack _); vm_compute; exact I). exact Hf.
Qed.

(** ** A node with one connection *)

Definition peer_addr : SocketAddr := SocketAddr_V4 (ipv4 10 0 0 7) DEFAULT_PORT.
Definition one_peer : Net :=
  mkNet {[peer_addr := peer_handle (resolved_of_socket peer_addr)]} ∅.
Definition task : NetTask := net_task_new PeerSamples.synced_db one_peer.
Definition tip1 : Tip := mkTip ArchiveSamples.block1 103.

Lemma waiting_empty a except : waiting a except ∅.
Proof. intros key tips tip sources Hk. by rewrite lookup_empty in Hk. Qed.
Lemma task_is_ok : task_ok task.
Proof.
  split.
  - exact synced_full.
  - exact synced_root.
  - exact ArchiveSamples.synced_tips.
  - vm_compute. by eexists.
  - exact synced_small.
  - intros b Hb. vm_compute in Hb. discriminate Hb.
  - apply waiting_empty.
Qed.
Lemma task_serves : serves task peer_addr.
Proof. exists (peer_handle (resolved_of_socket peer_addr)). split; vm_compute; reflexivity. Qed.

(** The blocks of the announced branch, the child first *)
Definition empty_body : Body := mkBody (mkCoinbase [] []) [] [].
Definition blocks : list (Header * Body) :=
  [(ArchiveSamples.header1, empty_body); (ArchiveSamples.header0, ArchiveSamples.body)].

(** The answer to the request for the first block on behalf of itself *)
Definition tip0 : Tip := mkTip ArchiveSamples.block0 102.
Definition answer (t : NetTask) (body : Body) : result NetTaskError unit * NetTask :=
  handle_response peer_addr (Response_Block ArchiveSamples.header0 body)
    (Request_GetBlock (mkGetBlockRequest ArchiveSamples.block0 (Some tip0) None (Some 5))) t.
Lemma answer_ok : answer task ArchiveSamples.body = (Ok tt, (answer task ArchiveSamples.body).2).
Proof. apply pair_snd. vm_compute. reflexivity. Qed.

(** The first block is the node's tip. *)
Definition tip_task : NetTask :=
  net_task_new (mkNodeDb (set_tip (Some ArchiveSamples.block0) (Some 0) empty_state) synced empty_pool) one_peer.
Lemma tip_answer_ok : answer tip_task empty_body = (Ok tt, (answer tip_task empty_body).2).
Proof. apply pair_snd. vm_compute. reflexivity. Qed.

(** A peer whose task has ended before one that is connected *)
Definition gone_addr : SocketAddr := SocketAddr_V4 (ipv4 10 0 0 6) DEFAULT_PORT.
Definition two_peers : Net :=
  mkNet {[gone_addr := mkConnectionHandle true Connected [] false (resolved_of_socket gone_addr);
          peer_addr := peer_handle (resolved_of_socket peer_addr)]} ∅.
Definition relayed : AuthorizedTransaction := mkAuthorizedTransaction (mkTransaction [] [] [] None) [].

(** The tip of the first block, which another peer announced, waits for the body. *)
Definition waiting_task : NetTask := wait_for_body ArchiveSamples.block0 tip0 {[gone_addr]} task.
Lemma waiting_task_ok : waiting (nd_archive (nt_db waiting_task)) None (nt_descendant_tips waiting_task).
Proof.
  intros key tips tip sources Hk Ht.
  assert (nt_descendant_tips waiting_task = {[ArchiveSamples.block0 := {[tip0 := {[gone_addr]}]}]}) as Hd
    by (vm_compute; reflexivity).
  rewrite Hd in Hk. apply lookup_singleton_Some in Hk as [<- <-]. apply lookup_singleton_Some in Ht as [<- _].
  split; [vm_compute; reflexivity|split; [vm_compute; reflexivity|exists 0%nat; vm_compute; reflexivity]].
Qed.

(** A header on top of the sample branch that names an unknown mainchain block *)
Definition stray_header : Header := mkHeader 9 (Some ArchiveSamples.block1) 999.
Lemma synced_ready : archive_ready synced.
Proof.
  split; [exact ArchiveSamples.synced_wf| |vm_compute; by eexists].
  apply ArchiveSamples.successors_okb_sound. vm_compute. reflexivity.
Qed.

(** A seed with two addresses, of which the first cannot be dialled *)
Definition seed : ResolvedAddress :=
  Resolved_Domain DEFAULT_PORT (Ipv4 (ipv4 10 0 0 7)) [Ipv4 (ipv4 127 0 0 1)] str_seed_beta.
End NetSamples.

Lemma bodies_exchange_witness :
  exists t', @run_mails Sample.externals ArchiveSamples.work_externals Codec.net_externals NetSamples.dial_externals
      (@block_mail Sample.externals NetSamples.peer_addr (resolved_of_socket NetSamples.peer_addr) NetSamples.tip1 None 5
        <$> NetSamples.blocks) NetSamples.task = (Ok tt, t') /\
    bodies_to_request (nd_archive (nt_db t')) None NetSamples.tip1 = Ok (None, []).
Proof.
  destruct (@bodies_exchange Sample.externals ArchiveSamples.work_externals Codec.net_externals NetSamples.dial_externals
    NetSamples.task NetSamples.peer_addr (resolved_of_socket NetSamples.peer_addr) None NetSamples.tip1 None 5
    [ArchiveSamples.block0; ArchiveSamples.block1] NetSamples.blocks Codec.iterations NetSamples.task_is_ok
    NetSamples.task_serves) as (t' & Hr & Hb & _).
  - vm_compute. reflexivity.
  - vm_compute. reflexivity.
  - discriminate.
  - vm_compute. lia.
  - vm_compute. apply perm_swap.
  - intros block Hin. apply list_elem_of_In in Hin. destruct Hin as [<-|[<-|[]]]; vm_compute; reflexivity.
  - exists t'. split; [exact Hr|exact Hb].
Defined.

Lemma block_response_ready_witness :
  waits (nt_descendant_tips NetSamples.waiting_task) ArchiveSamples.block0 NetSamples.tip0 NetSamples.gone_addr /\
  accounted
    (nt_db (NetSamples.answer NetSamples.waiting_task ArchiveSamples.body).2)
    [] (NetSamples.answer NetSamples.waiting_task ArchiveSamples.body).2 NetSamples.tip0 NetSamples.gone_addr /\
  tip_ready_at (nd_archive (nt_db (NetSamples.answer NetSamples.waiting_task ArchiveSamples.body).2)) None NetSamples.tip0.
Proof.
  assert (waits (nt_descendant_tips NetSamples.waiting_task) ArchiveSamples.block0 NetSamples.tip0 NetSamples.gone_addr)
    as Hwaits by (apply waits_wait_for_body; set_solver).
  destruct (@block_response_ready Sample.externals ArchiveSamples.work_externals Codec.net_externals
    NetSamples.waiting_task (NetSamples.answer NetSamples.waiting_task ArchiveSamples.body).2 NetSamples.peer_addr
    ArchiveSamples.header0 ArchiveSamples.body ArchiveSamples.block0
    NetSamples.tip0 None 5 Codec.iterations ArchiveSamples.synced_wf NetSamples.synced_small)
    as (_ & _ & _ & Hacc & messages & Hm & Hready).
  - intros h Hh. vm_compute in Hh. injection Hh as <-. vm_compute. reflexivity.
  - apply NetSamples.waiting_task_ok.
  - split; [vm_compute; reflexivity|exists 0%nat; vm_compute; reflexivity|intros c Hc; discriminate Hc].
  - apply NetSamples.pair_snd. vm_compute. reflexivity.
  - split; [exact Hwaits|]. split; [exact (Hacc _ _ _ Hwaits)|].
    apply (Hready _ (Some NetSamples.gone_addr)).
    assert (bool_decide ((NetSamples.tip0, Some NetSamples.gone_addr) ∈
      nt_new_tip_ready (NetSamples.answer NetSamples.waiting_task ArchiveSamples.body).2) = true) as Hin
      by (vm_compute; reflexivity).
    apply bool_decide_eq_true in Hin. rewrite Hm in Hin. exact Hin.
Defined.

Lemma late_body_wedges_tip_witness :
  get_body (nd_archive (nt_db (NetSamples.answer NetSamples.tip_task NetSamples.empty_body).2)) ArchiveSamples.block0 =
    Ok NetSamples.empty_body /\
  forall db', @disconnect_tip_ Sample.externals
    (nt_db (NetSamples.answer NetSamples.tip_task NetSamples.empty_body).2) <> Ok db'.
Proof.
  apply (@late_body_wedges_tip Sample.externals ArchiveSamples.work_externals Codec.net_externals
    NetSamples.tip_task (NetSamples.answer NetSamples.tip_task NetSamples.empty_body).2 NetSamples.peer_addr
    ArchiveSamples.header0 NetSamples.empty_body NetSamples.tip0 None 5).
  - vm_compute. reflexivity.
  - vm_compute. reflexivity.
  - reflexivity.
  - vm_compute. discriminate.
  - exact NetSamples.tip_answer_ok.
Defined.

Lemma relay_transaction_delivers_witness :
  exists n', @relay_transaction Codec.net_externals None ∅ NetSamples.relayed NetSamples.two_peers = Ok n' /\
    exists copies, net_active_peers n' !! NetSamples.peer_addr =
      Some (push_copies NetSamples.relayed copies (peer_handle (resolved_of_socket NetSamples.peer_addr))) /\
      (1 <= copies <= 2)%nat.
Proof.
  destruct (@relay_transaction_delivers Codec.net_externals None ∅ NetSamples.relayed NetSamples.two_peers
    Codec.iterations) as (n' & Hr & _ & Hd).
  exists n'. split; [exact Hr|]. exact (Hd NetSamples.peer_addr).
Defined.

Lemma unknown_main_parent_stops_task_witness :
  (@run_mails Sample.externals ArchiveSamples.work_externals Codec.net_externals NetSamples.dial_externals
    [Mail_PeerInfo NetSamples.peer_addr (resolved_of_socket NetSamples.peer_addr)
      (Info_Response (Response_Headers [NetSamples.stray_header])
        (Request_GetHeaders (mkGetHeadersRequest {[ArchiveSamples.block1]}
          (@header_hash Sample.externals NetSamples.stray_header) (Some 2) (Some 5))));
     Mail_AcceptConnection Incoming_EndpointClosed] NetSamples.task).1 =
  Err (NetTask_Node (Node_Archive (Archive_NoMainBlockHash 999))).
Proof.
  rewrite (@unknown_main_parent_stops_task Sample.externals ArchiveSamples.work_externals Codec.net_externals
    NetSamples.dial_externals NetSamples.task NetSamples.peer_addr (resolved_of_socket NetSamples.peer_addr)
    {[ArchiveSamples.block1]} 2 5 NetSamples.stray_header [Mail_AcceptConnection Incoming_EndpointClosed]).
  - reflexivity.
  - exact NetSamples.synced_ready.
  - vm_compute. reflexivity.
  - vm_compute. discriminate.
  - vm_compute. reflexivity.
  - vm_compute. reflexivity.
  - intros p Hp. injection Hp as <-. apply elem_of_singleton. reflexivity.
  - vm_compute. reflexivity.
Defined.

Lemma peer_address_roundtrip_witness :
  @address_from_str NetSamples.url_externals
    (@address_fmt NetSamples.url_externals (mkAddress (Host_Domain str_seed_beta) 65535)) =
    Ok (mkAddress (Host_Domain str_seed_beta) 65535).
Proof.
  apply (@peer_address_roundtrip NetSamples.url_externals (mkAddress (Host_Domain str_seed_beta) 65535)
    NetSamples.peer_addr).
  - vm_compute. discriminate.
  - cbn [NetSamples.url_externals host_parse host_display]. rewrite Codec.dec_enc. reflexivity.
Defined.

Lemma connect_peer_correct_witness :
  exists addr r', @dials NetSamples.dial_externals NetSamples.seed addr r' /\
    net_active_peers (@connect_peer NetSamples.dial_externals NetSamples.seed (mkNet ∅ ∅)).2 =
      <[addr := peer_connect r']> ∅.
Proof.
  apply (@connect_peer_correct NetSamples.dial_externals NetSamples.seed (mkNet ∅ ∅)
    (@connect_peer NetSamples.dial_externals NetSamples.seed (mkNet ∅ ∅)).2 (Ok tt)).
  vm_compute. reflexivity.
Defined.

Lemma resolve_peer_address_correct_witness :
  ip_addrs (Resolved_Domain DEFAULT_PORT (Ipv4 (ipv4 10 0 0 7)) [Ipv4 (ipv4 127 0 0 1)] str_seed_beta) <> [].
Proof.
  apply (@resolve_peer_address_correct (@lookup_ip NetSamples.dial_externals)
    (mkAddress (Host_Domain str_seed_beta) DEFAULT_PORT)). vm_compute. reflexivity.
Defined.

Lemma redial_known_peers_reconnects_witness :
  @is_active_peer NetSamples.seed
    (@redial_turn NetSamples.dial_externals MIN_DELAY MAX_DELAY (mkRedial MIN_DELAY true)
      (@redial_turn NetSamples.dial_externals MIN_DELAY MAX_DELAY (redial_new MIN_DELAY)
        (net_new Betanet ∅ ∅)).2).2 = true.
Proof.
  destruct (@redial_known_peers_reconnects NetSamples.dial_externals MIN_DELAY MAX_DELAY (redial_new MIN_DELAY)
    (net_new Betanet ∅ ∅)) as (rd1 & n1 & rd2 & n2 & H1 & H2 & _ & _ & Hd).
  - intros known. reflexivity.
  - reflexivity.
  - vm_compute. discriminate.
  - vm_compute. discriminate.
  - assert (rd1 = mkRedial MIN_DELAY true) as Hrd.
    { vm_compute in H1. injection H1 as <- <-. vm_compute. reflexivity. }
    rewrite H1. cbn [snd]. rewrite <-Hrd, H2. cbn [snd].
    apply (Hd (mkAddress (Host_Domain str_seed_beta) DEFAULT_PORT) NetSamples.seed).
    + apply (bool_decide_unpack _). vm_compute. exact I.
    + split; [vm_compute; reflexivity|]. eexists _, _. vm_compute. reflexivity.
Defined.

Lemma second_body_lookup_panics_witness :
  exists a', @put_body Sample.externals ArchiveSamples.with_body ArchiveSamples.block0 NetSamples.empty_body = Ok a' /\
    @try_get_transaction (mkNodeDb empty_state a' empty_pool)
      (@txid Sample.externals (mkTransaction [] [] [] None)) = Panic.
Proof.
  destruct (is_ok_Ok (@put_body Sample.externals ArchiveSamples.with_body ArchiveSamples.block0 NetSamples.empty_body))
    as [a' Ha']; [vm_compute; reflexivity|]. exists a'. split; [exact Ha'|].
  apply (@second_body_lookup_panics Sample.externals PeerSamples.body_db a' ArchiveSamples.block0 NetSamples.empty_body _ 0).
  - apply (bool_decide_unpack _). vm_compute. exact I.
  - vm_compute. lia.
  - apply not_elem_of_nil.
  - exact Ha'.
Defined.

(** ** Strings *)

Module EncodingSamples.
(** Codes in which every character but the digits of a byte is a large number *)
#[export] Instance encoding_externals : EncodingExternals := {|
  base58_encode b := (fun x => x + 1000) <$> b;
  base58_decode s := Some ((fun x => x - 1000) <$> s);
  base58_encode_check b := b;
  base58_decode_check s := Some s;
  sha256 b := replicate 32 (N.of_nat (length b));
  hex_encode b := mjoin ((fun x => [48; 1000 + x]) <$> b);
  bech32m_encode_hrp hrp b := N.of_nat (length hrp) :: hrp ++ b;
  bech32_decode s := match s with
    | n :: s => Some (take (N.to_nat n) s, drop (N.to_nat n) s)
    | [] => None end;
  RistrettoKey := key_bytes 32;
  ristretto_deserialize := to_key_bytes 32;
  ristretto_bytes := proj1_sig;
  xprv_verified _ := true;
|}.
Lemma large_digits b (P : N -> Prop) : P 48 -> (forall x, P (1000 + x)) -> Forall P (hex_encode b).
Proof. intros H0 H1. cbn. induction b as [|x b IH]; cbn; repeat constructor; auto. Qed.
Lemma encodings : encoding_spec.
Proof.
  split.
  - intros b. cbn. f_equal. rewrite <-list_fmap_compose. rewrite <-(list_fmap_id b) at 2. apply list_fmap_ext.
    intros _ x _. cbn. lia.
  - done.
  - intros b (x & Hx & _)%list_elem_of_fmap. unfold chr_underscore in Hx. lia.
  - intros b. apply length_replicate.
  - intros b c. cbn. by rewrite fmap_app, join_app.
  - intros b. induction b as [|x b IH]; [done|].
    change (S (S (length (hex_encode b))) = (2 * S (length b))%nat). rewrite IH. lia.
  - intros b. unfold to_lowercase. rewrite <-(list_fmap_id (hex_encode b)) at 2.
    apply Forall_fmap_ext_1. apply (large_digits b); [done|]. intros x.
    assert (1000 + x <=? 90 = false) as -> by (apply N.leb_gt; lia). by rewrite andb_false_r.
  - intros b Hin. assert (Forall (fun c => c <> chr_underscore) (hex_encode b)) as Hf.
    { apply large_digits; [done|]. intros x. unfold chr_underscore. lia. }
    by apply (proj1 (Forall_forall _ _) Hf _ Hin).
  - intros hrp b _ _. cbn. rewrite Nat2N.id. by rewrite take_app_length, drop_app_length.
  - apply to_key_bytes_proj.
  - intros k. apply (key_bytes_length 32).
Qed.
Definition zero_key : XPubKey := mkXPubKey (exist _ (replicate 64 0) eq_refl).
End EncodingSamples.

Lemma deposit_address_exact_witness :
  @from_deposit_address EncodingSamples.encoding_externals
    (@format_for_deposit EncodingSamples.encoding_externals (replicate 20 7)) = Ok (replicate 20 7).
Proof.
  apply (@deposit_address_exact EncodingSamples.encoding_externals [] (replicate 20 7) EncodingSamples.encodings).
  reflexivity.
Defined.

Lemma bech32m_canonical_witness :
  @bech32m_decode EncodingSamples.encoding_externals XPubKey _
    (@bech32m_encode EncodingSamples.encoding_externals XPubKey _ EncodingSamples.zero_key) =
    Ok EncodingSamples.zero_key.
Proof.
  apply (@bech32m_canonical EncodingSamples.encoding_externals XPubKey XVerifyingKey _ _ _ _ EncodingSamples.zero_key
    EncodingSamples.encodings). reflexivity.
Defined.

Lemma base58ck_roundtrip_witness :
  forall l, @base58ck_decode EncodingSamples.encoding_externals XVerifyingKey _
    (@base58ck_encode EncodingSamples.encoding_externals XPubKey _ EncodingSamples.zero_key) <> Ok l.
Proof.
  apply (@base58ck_roundtrip EncodingSamples.encoding_externals XPubKey XVerifyingKey _ _ _ _ EncodingSamples.zero_key
    true EncodingSamples.encodings I). vm_compute. discriminate.
Defined.
