(* ===== verification/Paymail.v ===== *)
(** * Paymail

    [get_paymail] of [src/app/app.rs]: the outputs of the wallet that carry a memo and pay the fee that a
    BitName at their address asked for while the wallet owned it. *)

From S2P Require Import Prelude Types Transaction Rollback BitNames State Merkle SideTips Lineage.
From S2P Require Import Archive ArchiveTree ArchiveWf Node NodeTask NodeQueries Wallet App.

#[export] Instance InPoint_countable : Countable InPoint.
Proof.
  refine (inj_countable'
    (fun i => match i with InPoint_Regular txid vin => inl (txid, vin) | InPoint_Withdrawal m6id => inr m6id end)
    (fun s => match s with inl (txid, vin) => InPoint_Regular txid vin | inr m6id => InPoint_Withdrawal m6id end) _).
  by intros [].
Defined.

(** [std::ops::Range<u32>], and the set of the ownership periods at each address. Only a minimum over a
    set is taken, so that a list stands for it. *)
Record Range : Type := mkRange { rg_start : u32; rg_end : u32 }.
Definition range_contains (r : Range) (height : u32) : bool :=
  (rg_start r <=? height) && (height <? rg_end r).
Notation OwnershipPeriods := (gmap Address (list (BitNameView * Range))).
Definition U32_MAX : u32 := 2 ^ 32 - 1.

Section paymail.
Context `{Externals} `{WalletExternals}.
Implicit Types (db : NodeDb) (tip : BlockHash).

(** [find] over the blocks that include a transaction, in the order of the map *)
Fixpoint find_on_branch (a : Archive) tip (blocks : list BlockHash) : result ArchiveError (option BlockHash) :=
  match blocks with
  | [] => Ok None
  | block_hash :: blocks =>
      found ← is_descendant a block_hash tip;
      if found : bool then Ok (Some block_hash) else find_on_branch a tip blocks
  end.

(** The height at which the branch of a tip includes a transaction *)
Definition tx_block_height (a : Archive) tip (txid : Txid) : result ArchiveError (option u32) :=
  block_hash ← find_on_branch a tip (in_key_order (get_tx_inclusions a txid)).*1;
  match block_hash with
  | None => Ok None
  | Some block_hash => height ← archive_get_height a block_hash; Ok (Some height)
  end.

(** [collect] into a map *)
Definition collect_map `{Countable K} {V} (l : list (K * V)) : gmap K V :=
  foldl (fun m e => <[e.1 := e.2]> m) ∅ l.

Definition outpoint_txid (outpoint : OutPoint) : option (OutPoint * Txid) :=
  match outpoint with OutPoint_Regular txid _ => Some (outpoint, txid) | _ => None end.

Definition outpoints_to_block_heights (a : Archive) tip (utxos : gmap OutPoint FilledOutput)
    (bitname_stxos : gmap OutPoint SpentOutput) : result ArchiveError (gmap OutPoint (option u32)) :=
  entries ← map_res (fun e : OutPoint * Txid => height ← tx_block_height a tip e.2; Ok (e.1, height))
              (omap outpoint_txid ((hashmap_iter utxos).*1 ++ (hashmap_iter bitname_stxos).*1));
  Ok (collect_map entries).

Definition inpoints_to_block_heights (a : Archive) tip (bitname_stxos : gmap OutPoint SpentOutput)
  : result ArchiveError (gmap InPoint (option u32)) :=
  entries ← map_res (fun spent_output =>
      txid ← match so_inpoint spent_output with InPoint_Regular txid _ => Ok txid | _ => Panic end;
      height ← tx_block_height a tip txid;
      Ok (so_inpoint spent_output, height))
    (hashmap_iter bitname_stxos).*2;
  Ok (collect_map entries).

(** [.entry(address).or_default().insert(period)] *)
Definition add_ownership (address : Address) (period : BitNameView * Range) (owned : OwnershipPeriods) : OwnershipPeriods :=
  <[address := period :: default [] (owned !! address)]> owned.

Definition node_bitname_data {A} (r : result BitNameError A) : result AppError A :=
  map_err (fun e => App_Node (Node_State (Error_BitName e))) r.

Section populate.
Context (db : NodeDb) (heights : gmap OutPoint (option u32)) (spent_heights : gmap InPoint (option u32)).

Definition populate_owned (owned : OwnershipPeriods) (e : OutPoint * FilledOutput) : result AppError OwnershipPeriods :=
  let '(outpoint, output) := e in
  match filled_bitname (fo_content output) with
  | None => Ok owned
  | Some bitname =>
      bitname_data ← node_bitname_data (get_current_bitname_data (st_bitnames (nd_state db)) bitname);
      height ← expect (heights !! outpoint);
      match height with
      | None => Ok owned
      | Some height => Ok (add_ownership (fo_address output) (bitname_data, mkRange height U32_MAX) owned)
      end
  end.

Definition populate_spent (owned : OwnershipPeriods) (e : OutPoint * SpentOutput) : result AppError OwnershipPeriods :=
  let '(outpoint, output) := e in
  match filled_bitname (fo_content (so_output output)) with
  | None => Ok owned
  | Some bitname =>
      acquired ← expect (heights !! outpoint);
      match acquired with
      | None => Ok owned
      | Some acquired_height =>
          spent_height ← expect (spent_heights !! so_inpoint output);
          bitname_data ← node_bitname_data
            (get_bitname_data_at_block_height (st_bitnames (nd_state db)) bitname acquired_height);
          Ok (add_ownership (fo_address (so_output output))
                (bitname_data, mkRange acquired_height (default U32_MAX spent_height)) owned)
      end
  end.

(** [min] over an iterator *)
Definition iter_min (l : list u64) : option u64 :=
  match l with [] => None | fee :: l => Some (foldl N.min fee l) end.

Definition period_fee (height : u32) (period : BitNameView * Range) : option u64 :=
  if range_contains period.2 height then mbd_paymail_fee_sats (bv_mutable_data period.1) else None.

(** The closure of [retain] *)
Definition is_paymail (owned : OwnershipPeriods) (outpoint : OutPoint) (output : FilledOutput) : result AppError bool :=
  if decide (fo_memo output = []) then Ok false
  else match owned !! fo_address output with
       | None => Ok false
       | Some periods =>
           height ← expect (heights !! outpoint);
           match height with
           | None => Ok false
           | Some height =>
               match iter_min (omap (period_fee height) periods) with
               | None => Ok false
               | Some min_fee => Ok (min_fee <=? filled_output_get_value output)
               end
           end
       end.
End populate.

(** [utxos.retain(f)] *)
Definition retain_entry (f : OutPoint -> FilledOutput -> result AppError bool) (utxos : gmap OutPoint FilledOutput)
    (e : OutPoint * FilledOutput) : result AppError (gmap OutPoint FilledOutput) :=
  keep ← f e.1 e.2;
  Ok (if keep : bool then utxos else delete e.1 utxos).

(** [inbox_whitelist.contains(bitname)] for the name of an output *)
Definition whitelisted (whitelist : option (gset BitName)) (output : FilledOutput) : bool :=
  match whitelist with
  | None => true
  | Some whitelist =>
      match filled_bitname (fo_content output) with
      | None => false
      | Some bitname => bool_decide (bitname ∈ whitelist)
      end
  end.

Definition inbox_utxos (whitelist : option (gset BitName)) (w : Wallet) : gmap OutPoint FilledOutput :=
  filter (fun e => whitelisted whitelist e.2 = true) (get_bitnames w).
Definition inbox_stxos (whitelist : option (gset BitName)) (w : Wallet) : gmap OutPoint SpentOutput :=
  filter (fun e => whitelisted whitelist (so_output e.2) = true) (get_spent_bitnames w).

Definition app_archive {A} (r : result ArchiveError A) : result AppError A :=
  map_err (fun e => App_Node (Node_Archive e)) r.

Definition get_paymail (app : App) (inbox_whitelist : option (gset BitName))
  : result AppError (gmap OutPoint FilledOutput) :=
  let db := app_node app in
  let utxos := w_utxos (app_wallet app) in
  let bitname_utxos := inbox_utxos inbox_whitelist (app_wallet app) in
  let bitname_stxos := inbox_stxos inbox_whitelist (app_wallet app) in
  match try_get_tip (nd_state db) with
  | None => Ok ∅
  | Some tip =>
      heights ← app_archive (outpoints_to_block_heights (nd_archive db) tip utxos bitname_stxos);
      spent_heights ← app_archive (inpoints_to_block_heights (nd_archive db) tip bitname_stxos);
      owned ← fold_res (populate_owned db heights) (hashmap_iter bitname_utxos) ∅;
      owned ← fold_res (populate_spent db heights spent_heights) (hashmap_iter bitname_stxos) owned;
      fold_res (retain_entry (is_paymail heights owned)) (hashmap_iter utxos) utxos
  end.
End paymail.

(** ** Folds of the model *)

Lemma map_res_pure {E A B} (f : A -> result E B) (g : A -> B) l :
  (forall x, x ∈ l -> f x = Ok (g x)) -> map_res f l = Ok (g <$> l).
Proof.
  induction l as [|x l IH]; intros Hf; [done|]. cbn [map_res]. rewrite Hf by apply list_elem_of_here.
  cbn [mbind result_bind]. rewrite IH; [done|]. intros y Hy. apply Hf. by apply list_elem_of_further.
Qed.
Lemma fold_res_pure {E S A} (f : S -> A -> result E S) (g : S -> A -> S) l : forall s,
  (forall s x, x ∈ l -> f s x = Ok (g s x)) -> fold_res f l s = Ok (foldl g s l).
Proof.
  induction l as [|x l IH]; intros s Hf; [done|]. cbn [fold_res]. rewrite Hf by apply list_elem_of_here.
  cbn [mbind result_bind]. apply IH. intros t y Hy. apply Hf. by apply list_elem_of_further.
Qed.
Lemma fold_res_panics {E S A} (f : S -> A -> result E S) l : forall s,
  (forall s x, x ∈ l -> (exists s', f s x = Ok s') \/ f s x = Panic) -> (exists x, x ∈ l /\ forall s, f s x = Panic) ->
  fold_res f l s = Panic.
Proof.
  induction l as [|x l IH]; intros s Hf (y & Hy & Hp); [by apply not_elem_of_nil in Hy|].
  cbn [fold_res]. apply elem_of_cons in Hy as [->|Hy]; [by rewrite Hp|].
  destruct (Hf s x (list_elem_of_here _ _)) as [[s' ->]| ->]; [|done]. cbn [mbind result_bind]. apply IH.
  - intros t z Hz. apply Hf. by apply list_elem_of_further.
  - by exists y.
Qed.

Lemma collect_map_snoc `{Countable K} {V} (l : list (K * V)) e :
  collect_map (l ++ [e]) = <[e.1 := e.2]> (collect_map l).
Proof. unfold collect_map. by rewrite foldl_app. Qed.
Lemma collect_map_lookup `{Countable K} {V} (l : list (K * V)) k v :
  (forall k v v', (k, v) ∈ l -> (k, v') ∈ l -> v = v') -> collect_map l !! k = Some v <-> (k, v) ∈ l.
Proof.
  induction l as [|[k' v'] l IH] using rev_ind; intros Hu.
  { unfold collect_map. cbn. rewrite lookup_empty. split; [done|]. by intros ?%not_elem_of_nil. }
  rewrite collect_map_snoc. cbn [fst snd].
  assert (forall k v v', (k, v) ∈ l -> (k, v') ∈ l -> v = v') as Hu' by (intros; eapply Hu; apply elem_of_app; eauto).
  specialize (IH Hu'). rewrite elem_of_app, list_elem_of_singleton. destruct (decide (k' = k)) as [->|Hne].
  - rewrite lookup_insert_eq. split; [intros [= ->]; by right|]. intros [Hin|[= ->]]; [|done]. f_equal.
    apply (Hu k); apply elem_of_app; [right; by apply list_elem_of_singleton|by left].
  - rewrite lookup_insert_ne by done. rewrite IH. split; [by left|]. by intros [?|[= -> ->]].
Qed.

Lemma iter_min_le l v : (exists m, iter_min l = Some m /\ m <= v) <-> exists fee, fee ∈ l /\ fee <= v.
Proof.
  destruct l as [|x l]; cbn [iter_min].
  { split; [by intros (? & ? & ?)|]. by intros (? & ?%not_elem_of_nil & ?). }
  assert (forall l x, foldl N.min x l <= v <-> exists fee, fee ∈ x :: l /\ fee <= v) as Hmin.
  { clear x l. induction l as [|y l IH]; intros x; cbn [foldl].
    - split; [intros ?; exists x; split; [apply list_elem_of_here|done]|].
      intros (fee & ->%list_elem_of_singleton & ?). done.
    - rewrite IH. split.
      + intros (fee & [->|Hin]%elem_of_cons & Hle).
        * destruct (N.min_spec x y) as [[_ Hm]|[_ Hm]]; rewrite Hm in Hle; [exists x|exists y]; (split; [|done]); set_solver.
        * exists fee. split; [set_solver|done].
      + intros (fee & [->|[->|Hin]%elem_of_cons]%elem_of_cons & Hle).
        * exists (N.min x y). split; [apply list_elem_of_here|lia].
        * exists (N.min x y). split; [apply list_elem_of_here|lia].
        * exists fee. split; [by apply list_elem_of_further|done]. }
  rewrite <-Hmin. split; [by intros (? & [= <-] & ?)|]. intros ?. by eexists.
Qed.

Definition periods_at (owned : OwnershipPeriods) (address : Address) : list (BitNameView * Range) :=
  default [] (owned !! address).
Lemma add_ownership_at address p owned a q :
  q ∈ periods_at (add_ownership address p owned) a <-> (a = address /\ q = p) \/ q ∈ periods_at owned a.
Proof.
  unfold add_ownership, periods_at. destruct (decide (address = a)) as [->|Hne].
  - rewrite lookup_insert_eq. cbn [default from_option id]. rewrite elem_of_cons. naive_solver.
  - rewrite lookup_insert_ne by done. naive_solver.
Qed.

Lemma add_all_at l : forall owned a q,
  q ∈ periods_at (foldl (fun owned e => match e with Some e => add_ownership e.1 e.2 owned | None => owned end) owned l) a <->
  Some (a, q) ∈ l \/ q ∈ periods_at owned a.
Proof.
  induction l as [|[[b p]|] l IH]; intros owned a q; cbn [foldl].
  - rewrite elem_of_nil. naive_solver.
  - rewrite IH, add_ownership_at, elem_of_cons. cbn [fst snd]. naive_solver.
  - rewrite IH, elem_of_cons. naive_solver.
Qed.

Lemma add_all_nonempty l : forall owned (a : Address),
  owned !! a <> Some [] ->
  foldl (fun owned e => match e with Some e => add_ownership e.1 e.2 owned | None => owned end) owned l !! a <> Some [].
Proof.
  induction l as [|[[b p]|] l IH]; intros owned a Hne; cbn [foldl]; [done| |by apply IH]. apply IH. unfold add_ownership. cbn [fst snd].
  destruct (decide (b = a)) as [->|Hb]; [by rewrite lookup_insert_eq|]. by rewrite lookup_insert_ne.
Qed.

(** [retain]: the entries for which the closure answers true *)
Lemma retain_lookup (f : OutPoint -> FilledOutput -> result AppError bool) (P : OutPoint -> FilledOutput -> Prop) l : forall m,
  (forall o out, (o, out) ∈ l -> exists r, f o out = Ok r /\ (r = true <-> P o out)) ->
  exists m', fold_res (retain_entry f) l m = Ok m' /\
    forall o v, m' !! o = Some v <-> m !! o = Some v /\ forall out, (o, out) ∈ l -> P o out.
Proof.
  induction l as [|[o out] l IH]; intros m Hf.
  { exists m. split; [done|]. intros o v. split; [|by intros [? _]]. intros ?. split; [done|]. by intros out ?%not_elem_of_nil. }
  cbn [fold_res]. destruct (Hf o out (list_elem_of_here _ _)) as (r & Hr & HP). assert (retain_entry f m (o, out) = Ok (if r then m else delete o m)) as -> by (unfold retain_entry; cbn [fst snd]; by rewrite Hr).
  cbn [mbind result_bind]. destruct (IH (if r then m else delete o m)) as (m' & Hm & Hl); [intros o' out' Hin; apply Hf; by apply list_elem_of_further|].
  exists m'. split; [exact Hm|]. intros o' v. rewrite Hl. destruct r.
  - split.
    + intros [Hv Hall]. split; [done|]. intros out' [[= -> ->]|Hin]%elem_of_cons; [by apply HP|by apply Hall].
    + intros [Hv Hall]. split; [done|]. intros out' Hin. apply Hall. by apply list_elem_of_further.
  - destruct (decide (o = o')) as [<-|Hne].
    + rewrite lookup_delete_eq. split; [by intros [? _]|]. intros [_ Hall]. pose proof (Hall out (list_elem_of_here _ _)) as Hp.
      by apply HP in Hp.
    + rewrite lookup_delete_ne by done. split; intros [Hv Hall]; (split; [done|]); intros out' Hin.
      * apply elem_of_cons in Hin as [[= -> ->]|Hin]; [done|by apply Hall].
      * apply Hall. by apply list_elem_of_further.
Qed.

Lemma foldl_fmap {A B S} (f : S -> B -> S) (g : A -> B) l : forall s, foldl f s (g <$> l) = foldl (fun s a => f s (g a)) s l.
Proof. induction l as [|x l IH]; intros s; [done|]. cbn. by rewrite IH. Qed.

(** ** What paymail is *)

Section spec.
Context `{Externals} `{WalletExternals}.
Context (app : App) (tip : BlockHash) (whitelist : option (gset BitName)).
#[local] Notation db := (app_node app).
#[local] Notation a := (nd_archive db).
#[local] Notation names := (st_bitnames (nd_state db)).

(** The height at which the branch of the tip includes the transaction of an output, or its spending *)
Definition confirmed_txid (txid : Txid) (height : u32) : Prop :=
  exists block, is_Some (get_tx_inclusions a txid !! block) /\
    ancestor (ix_parent (side_index a)) block tip /\ archive_try_get_height a block = Some height.
Definition confirmed (outpoint : OutPoint) (height : u32) : Prop :=
  exists txid vout, outpoint = OutPoint_Regular txid vout /\ confirmed_txid txid height.

(** The end of the ownership of a name that a transaction has spent; it may not be included yet. *)
Definition owned_until (txid : Txid) (height : u32) : Prop :=
  confirmed_txid txid height \/ (height = U32_MAX /\ forall spent, ~ confirmed_txid txid spent).

(** A BitName asks a fee for paymail to an address at a height: the wallet owns it, or owned it then. *)
Inductive asks (address : Address) (height : u32) (fee : u64) : Prop :=
| asks_owned outpoint output bitname view acquired :
    inbox_utxos whitelist (app_wallet app) !! outpoint = Some output -> fo_address output = address ->
    filled_bitname (fo_content output) = Some bitname -> get_current_bitname_data names bitname = Ok view ->
    confirmed outpoint acquired -> acquired <= height < U32_MAX ->
    mbd_paymail_fee_sats (bv_mutable_data view) = Some fee -> asks address height fee
| asks_spent outpoint output bitname view acquired txid vin left :
    inbox_stxos whitelist (app_wallet app) !! outpoint = Some output -> fo_address (so_output output) = address ->
    filled_bitname (fo_content (so_output output)) = Some bitname ->
    get_bitname_data_at_block_height names bitname acquired = Ok view ->
    confirmed outpoint acquired -> so_inpoint output = InPoint_Regular txid vin ->
    owned_until txid left -> acquired <= height < left ->
    mbd_paymail_fee_sats (bv_mutable_data view) = Some fee -> asks address height fee.

(** An address of a BitName that the wallet owns or has owned, on the branch of the tip *)
Definition inbox_address (address : Address) : Prop :=
  (exists outpoint output height, inbox_utxos whitelist (app_wallet app) !! outpoint = Some output /\
     fo_address output = address /\ confirmed outpoint height) \/
  (exists outpoint output height, inbox_stxos whitelist (app_wallet app) !! outpoint = Some output /\
     fo_address (so_output output) = address /\ confirmed outpoint height).

(** An output is paymail: it has a memo, and pays what a name at its address asked for at its height. *)
Definition paymail (outpoint : OutPoint) (output : FilledOutput) : Prop :=
  fo_memo output <> [] /\ exists height fee, confirmed outpoint height /\
    asks (fo_address output) height fee /\ fee <= filled_output_get_value output.

(** The books of the wallet fit those of the node: names are spent by transactions, the data of a name is there while it is
    owned, and a transaction is included in one block of a branch at most. *)
Record books_fit : Prop := {
  bf_hash : hashmap_iter_spec;
  bf_archive : archive_wf a;
  bf_tip : try_get_tip (nd_state db) = Some tip;
  bf_tip_height : is_Some (archive_try_get_height a tip);
  bf_blocks txid block : is_Some (get_tx_inclusions a txid !! block) -> is_Some (archive_try_get_height a block);
  bf_once txid h h' : confirmed_txid txid h -> confirmed_txid txid h' -> h = h';
  bf_owned outpoint output bitname : inbox_utxos whitelist (app_wallet app) !! outpoint = Some output ->
    filled_bitname (fo_content output) = Some bitname ->
    is_Some (outpoint_txid outpoint) /\ is_Some (try_get_current_bitname_data names bitname);
  bf_spent outpoint output bitname : inbox_stxos whitelist (app_wallet app) !! outpoint = Some output ->
    filled_bitname (fo_content (so_output output)) = Some bitname ->
    is_Some (outpoint_txid outpoint) /\ (exists txid vin, so_inpoint output = InPoint_Regular txid vin) /\
    forall h, confirmed outpoint h -> is_Some (try_get_bitname_data_at_block_height names bitname h);
}.

Lemma data_at_height bitname height view :
  get_bitname_data_at_block_height names bitname height = Ok view <->
  try_get_bitname_data_at_block_height names bitname height = Some view.
Proof.
  unfold get_bitname_data_at_block_height, get_bitname, try_get_bitname, try_get_bitname_data_at_block_height.
  destruct (db_bitnames names !! bitname) as [d|]; [|done]. cbn. apply ok_or_Ok.
Qed.

Section proofs.
Hypothesis F : books_fit.

(** *** Heights *)

Lemma find_on_branch_Ok blocks :
  (forall b, b ∈ blocks -> is_Some (archive_try_get_height a b)) ->
  exists r, find_on_branch a tip blocks = Ok r /\
    match r with
    | Some b => b ∈ blocks /\ ancestor (ix_parent (side_index a)) b tip
    | None => forall b, b ∈ blocks -> ~ ancestor (ix_parent (side_index a)) b tip
    end.
Proof.
  induction blocks as [|b blocks IH]; intros Hb; cbn [find_on_branch].
  { exists None. split; [done|]. by intros b ?%not_elem_of_nil. }
  destruct (Hb b (list_elem_of_here _ _)) as [kb Hkb]. destruct (bf_tip_height F) as [k Hk].
  destruct (descends_Ok (side_lineage_ok a (aw_side _ (bf_archive F))) b tip kb k Hkb Hk) as (r & Hr & Hiff).
  unfold is_descendant. rewrite Hr. cbn [mbind result_bind]. destruct r.
  - exists (Some b). split; [done|]. split; [apply list_elem_of_here|by apply Hiff].
  - destruct IH as (r & -> & Hr'); [intros c Hc; apply Hb; by apply list_elem_of_further|]. exists r. split; [done|].
    destruct r as [c|].
    + destruct Hr' as [? ?]. split; [by apply list_elem_of_further|done].
    + intros c [->|Hc]%elem_of_cons; [|by apply Hr']. intros Ha. by apply Hiff in Ha.
Qed.

Lemma in_key_order_blocks m b : b ∈ (in_key_order m).*1 <-> is_Some (m !! b).
Proof.
  rewrite list_elem_of_fmap. setoid_rewrite in_key_order_elem. split.
  - intros (p & -> & Hi). by eexists.
  - intros [i Hi]. by exists (b, i).
Qed.

Definition heighted (txid : Txid) : option u32 :=
  match tx_block_height a tip txid with Ok height => height | _ => None end.

Lemma tx_block_height_Ok txid :
  tx_block_height a tip txid = Ok (heighted txid) /\ forall h, heighted txid = Some h <-> confirmed_txid txid h.
Proof.
  assert (exists r, tx_block_height a tip txid = Ok r /\ forall h, r = Some h <-> confirmed_txid txid h) as (r & Hr & Hiff).
  { unfold tx_block_height. destruct (find_on_branch_Ok (in_key_order (get_tx_inclusions a txid)).*1) as ([b|] & -> & Hb).
    { intros b. rewrite in_key_order_blocks. apply (bf_blocks F). }
    - destruct Hb as [Hin%in_key_order_blocks Ha]. destruct (bf_blocks F _ _ Hin) as [k Hk].
      unfold archive_get_height. cbn [mbind result_bind]. rewrite Hk. cbn [ok_or result_bind]. exists (Some k). split; [done|]. intros h.
      assert (confirmed_txid txid k) as Hc by (by exists b). split; [by intros [= <-]|].
      intros Hh. f_equal. by apply (bf_once F txid).
    - exists None. split; [done|]. intros h. split; [done|]. intros (b & Hin & Ha & _). exfalso. by apply (Hb b); [apply in_key_order_blocks|]. }
  unfold heighted. by rewrite Hr.
Qed.

Definition heights_of (utxos : gmap OutPoint FilledOutput) (stxos : gmap OutPoint SpentOutput) : gmap OutPoint (option u32) :=
  collect_map ((fun e : OutPoint * Txid => (e.1, heighted e.2)) <$>
    omap outpoint_txid ((hashmap_iter utxos).*1 ++ (hashmap_iter stxos).*1)).

Lemma hashmap_keys {V} (m : gmap OutPoint V) o : o ∈ (hashmap_iter m).*1 <-> is_Some (m !! o).
Proof.
  rewrite (fmap_Permutation fst _ _ (bf_hash F V m)), list_elem_of_fmap. split.
  - intros ([c i] & -> & Hi%elem_of_map_to_list). by exists i.
  - intros [i Hi]. exists (o, i). split; [done|]. by apply elem_of_map_to_list.
Qed.
Lemma hashmap_entries {V} (m : gmap OutPoint V) o v : (o, v) ∈ hashmap_iter m <-> m !! o = Some v.
Proof. by rewrite (bf_hash F V m), elem_of_map_to_list. Qed.

Lemma outpoints_to_block_heights_Ok utxos stxos :
  outpoints_to_block_heights a tip utxos stxos = Ok (heights_of utxos stxos).
Proof.
  unfold outpoints_to_block_heights. erewrite map_res_pure; [reflexivity|]. intros [o t] _. cbn [fst snd].
  by rewrite (proj1 (tx_block_height_Ok t)).
Qed.
Lemma outpoint_txid_Some o p : outpoint_txid o = Some p <-> exists txid vout, o = OutPoint_Regular txid vout /\ p = (o, txid).
Proof. destruct o; cbn; naive_solver. Qed.

Lemma heights_of_lookup utxos stxos o r :
  heights_of utxos stxos !! o = Some r <->
  (is_Some (utxos !! o) \/ is_Some (stxos !! o)) /\ exists txid vout, o = OutPoint_Regular txid vout /\ r = heighted txid.
Proof.
  assert (forall k v, (k, v) ∈ ((fun e : OutPoint * Txid => (e.1, heighted e.2)) <$>
    omap outpoint_txid ((hashmap_iter utxos).*1 ++ (hashmap_iter stxos).*1)) <->
    (is_Some (utxos !! k) \/ is_Some (stxos !! k)) /\ exists txid vout, k = OutPoint_Regular txid vout /\ v = heighted txid) as Hiff.
  { intros k v. rewrite list_elem_of_fmap. setoid_rewrite list_elem_of_omap. setoid_rewrite elem_of_app.
    setoid_rewrite hashmap_keys. setoid_rewrite outpoint_txid_Some. split.
    - intros (y & [= -> ->] & x & Hx & t & n & -> & ->). cbn. split; [done|]. by exists t, n.
    - intros (Hk & t & n & -> & ->). exists (OutPoint_Regular t n, t). split; [done|]. exists (OutPoint_Regular t n). split; [done|].
      by exists t, n. }
  unfold heights_of. rewrite collect_map_lookup; [apply Hiff|].
  intros k v v' (_ & t & n & -> & ->)%Hiff (_ & t' & n' & [= <- <-] & ->)%Hiff. done.
Qed.

(** *** Periods *)

#[local] Notation utxos := (w_utxos (app_wallet app)).
#[local] Notation bitname_utxos := (inbox_utxos whitelist (app_wallet app)).
#[local] Notation bitname_stxos := (inbox_stxos whitelist (app_wallet app)).
#[local] Notation heights := (heights_of utxos bitname_stxos).

Lemma inbox_utxos_wallet o out : bitname_utxos !! o = Some out ->
  utxos !! o = Some out /\ exists b, filled_bitname (fo_content out) = Some b.
Proof.
  unfold inbox_utxos, get_bitnames. rewrite !map_lookup_filter_Some. intros [[Hu Hb] _]. split; [done|].
  cbn in Hb. destruct (fo_content out); try done. by eexists.
Qed.
Lemma inbox_stxos_name o out : bitname_stxos !! o = Some out ->
  exists b, filled_bitname (fo_content (so_output out)) = Some b.
Proof.
  unfold inbox_stxos, get_spent_bitnames. rewrite !map_lookup_filter_Some. intros [[_ Hb] _].
  cbn in Hb. destruct (fo_content (so_output out)); try done. by eexists.
Qed.

Definition spending_txid (output : SpentOutput) : Txid :=
  match so_inpoint output with InPoint_Regular txid _ => txid | InPoint_Withdrawal _ => 0 end.
Definition spent_heights_of : gmap InPoint (option u32) :=
  collect_map ((fun e => (so_inpoint e, heighted (spending_txid e))) <$> (hashmap_iter bitname_stxos).*2).

Lemma stxo_inpoint e : e ∈ (hashmap_iter bitname_stxos).*2 -> exists txid vin, so_inpoint e = InPoint_Regular txid vin.
Proof.
  intros ([o out] & -> & Hin%hashmap_entries)%list_elem_of_fmap. cbn [snd].
  destruct (inbox_stxos_name _ _ Hin) as [b Hb]. by destruct (bf_spent F _ _ _ Hin Hb) as (_ & ? & _).
Qed.
Lemma inpoints_to_block_heights_Ok : inpoints_to_block_heights a tip bitname_stxos = Ok spent_heights_of.
Proof.
  unfold inpoints_to_block_heights. erewrite map_res_pure; [reflexivity|]. intros e He.
  destruct (stxo_inpoint e He) as (t & n & Hi). unfold spending_txid. rewrite Hi. cbn [mbind result_bind].
  by rewrite (proj1 (tx_block_height_Ok t)).
Qed.
Lemma spent_heights_of_lookup o out txid vin :
  bitname_stxos !! o = Some out -> so_inpoint out = InPoint_Regular txid vin ->
  spent_heights_of !! so_inpoint out = Some (heighted txid).
Proof.
  intros Ho Hi. unfold spent_heights_of. apply collect_map_lookup.
  - intros k v v' (e & [= -> ->] & He)%list_elem_of_fmap (e' & [= Hk ->] & _)%list_elem_of_fmap.
    unfold spending_txid. by rewrite Hk.
  - apply list_elem_of_fmap. exists out. unfold spending_txid. rewrite Hi. split; [done|].
    apply list_elem_of_fmap. exists (o, out). split; [done|]. by apply hashmap_entries.
Qed.

Definition owned_period (e : OutPoint * FilledOutput) : option (Address * (BitNameView * Range)) :=
  bitname ← filled_bitname (fo_content e.2);
  view ← try_get_current_bitname_data names bitname;
  '(_, txid) ← outpoint_txid e.1;
  height ← heighted txid;
  Some (fo_address e.2, (view, mkRange height U32_MAX)).
Definition spent_period (e : OutPoint * SpentOutput) : option (Address * (BitNameView * Range)) :=
  bitname ← filled_bitname (fo_content (so_output e.2));
  '(_, txid) ← outpoint_txid e.1;
  height ← heighted txid;
  view ← try_get_bitname_data_at_block_height names bitname height;
  Some (fo_address (so_output e.2), (view, mkRange height (default U32_MAX (heighted (spending_txid e.2))))).
Definition add_period (owned : OwnershipPeriods) (e : option (Address * (BitNameView * Range))) : OwnershipPeriods :=
  match e with Some e => add_ownership e.1 e.2 owned | None => owned end.

Lemma populate_owned_Ok owned e : e ∈ hashmap_iter bitname_utxos ->
  populate_owned db heights owned e = Ok (add_period owned (owned_period e)).
Proof.
  destruct e as [o out]. intros Hin%hashmap_entries. destruct (inbox_utxos_wallet _ _ Hin) as [Hu [b Hb]].
  destruct (bf_owned F _ _ _ Hin Hb) as [[p Hp] [view Hv]]. unfold populate_owned, owned_period. cbn [fst snd]. rewrite Hb.
  unfold node_bitname_data, get_current_bitname_data. cbn [mbind option_bind]. rewrite Hv. cbn [ok_or map_err mbind result_bind option_bind].
  pose proof Hp as (t & n & -> & ->)%outpoint_txid_Some. rewrite Hp.
  rewrite (proj2 (heights_of_lookup _ _ _ (heighted t))); [|split; [left; by eexists|by exists t, n]].
  cbn [expect mbind result_bind option_bind]. by destruct (heighted t).
Qed.

Lemma heighted_confirmed o txid vout h :
  o = OutPoint_Regular txid vout -> heighted txid = Some h <-> confirmed o h.
Proof.
  intros ->. rewrite (proj2 (tx_block_height_Ok txid)). unfold confirmed. split; [intros ?; by exists txid, vout|].
  by intros (? & ? & [= <- <-] & ?).
Qed.

Lemma populate_spent_Ok owned e : e ∈ hashmap_iter bitname_stxos ->
  populate_spent db heights spent_heights_of owned e = Ok (add_period owned (spent_period e)).
Proof.
  destruct e as [o out]. intros Hin%hashmap_entries. destruct (inbox_stxos_name _ _ Hin) as [b Hb].
  destruct (bf_spent F _ _ _ Hin Hb) as ([p Hp] & (t' & vin & Hi) & Hdata). unfold populate_spent, spent_period. cbn [fst snd]. rewrite Hb.
  cbn [mbind option_bind]. pose proof Hp as (t & n & -> & ->)%outpoint_txid_Some. rewrite Hp.
  rewrite (proj2 (heights_of_lookup _ _ _ (heighted t))); [|split; [right; by eexists|by exists t, n]].
  cbn [expect mbind result_bind option_bind]. destruct (heighted t) as [h|] eqn:Hh; [|done].
  rewrite (spent_heights_of_lookup _ _ _ _ Hin Hi). cbn [expect mbind result_bind option_bind].
  destruct (Hdata h) as [view Hv]; [by apply (heighted_confirmed _ t n)|].
  unfold node_bitname_data. rewrite (proj2 (data_at_height _ _ _) Hv), Hv. unfold spending_txid. by rewrite Hi.
Qed.

Definition ownership : OwnershipPeriods :=
  foldl (fun owned e => add_period owned (spent_period e))
    (foldl (fun owned e => add_period owned (owned_period e)) ∅ (hashmap_iter bitname_utxos))
    (hashmap_iter bitname_stxos).

Lemma ownership_at address q :
  q ∈ periods_at ownership address <->
  (exists o out, bitname_utxos !! o = Some out /\ owned_period (o, out) = Some (address, q)) \/
  (exists o out, bitname_stxos !! o = Some out /\ spent_period (o, out) = Some (address, q)).
Proof.
  unfold ownership. rewrite <-(foldl_fmap add_period spent_period), <-(foldl_fmap add_period owned_period).
  unfold add_period. rewrite !add_all_at, !list_elem_of_fmap. unfold periods_at. rewrite lookup_empty. cbn [default from_option id].
  rewrite elem_of_nil. split.
  - intros [([o out] & He & Hin%hashmap_entries)|[([o out] & He & Hin%hashmap_entries)|[]]]; [right|left]; by exists o, out.
  - intros [(o & out & Hin%hashmap_entries & He)|(o & out & Hin%hashmap_entries & He)]; [right; left|left]; by exists (o, out).
Qed.

Lemma ownership_asks address height fee :
  (exists q, q ∈ periods_at ownership address /\ period_fee height q = Some fee) <-> asks address height fee.
Proof.
  setoid_rewrite ownership_at. unfold period_fee, range_contains. split.
  - intros ([view r] & [(o & out & Ho & Hp)|(o & out & Ho & Hp)] & Hf).
    + unfold owned_period in Hp. cbn [fst snd] in *. apply bind_Some in Hp as (b & Hb & (view' & Hv & Hp)%bind_Some).
      apply bind_Some in Hp as ([o' t] & (t' & n & -> & [= -> ->])%outpoint_txid_Some & (h & Hh & Hp)%bind_Some).
      injection Hp as <- <- <-. cbn in Hf. case_match eqn:Hr; [|done]. apply andb_true_iff in Hr as [?%N.leb_le ?%N.ltb_lt].
      eapply asks_owned; [done|done|done| |by apply (heighted_confirmed (OutPoint_Regular t' n) t' n)|done|done].
      unfold get_current_bitname_data. by rewrite Hv.
    + unfold spent_period in Hp. cbn [fst snd] in *. apply bind_Some in Hp as (b & Hb & Hp).
      apply bind_Some in Hp as ([o' t] & (t' & n & -> & [= -> ->])%outpoint_txid_Some & (h & Hh & (view' & Hv & Hp)%bind_Some)%bind_Some).
      injection Hp as <- <- <-. cbn in Hf. case_match eqn:Hr; [|done]. apply andb_true_iff in Hr as [?%N.leb_le ?%N.ltb_lt].
      destruct (bf_spent F _ _ _ Ho Hb) as (_ & (ti & vin & Hi) & _). unfold spending_txid in *. rewrite Hi in *.
      eapply asks_spent; [done|done|done| |by apply (heighted_confirmed (OutPoint_Regular t' n) t' n)|done| |done|done].
      * apply data_at_height. exact Hv.
      * unfold owned_until. destruct (heighted ti) as [s|] eqn:Hs; [left; by apply tx_block_height_Ok|]. right. split; [done|].
        intros s Hc%tx_block_height_Ok. congruence.
  - intros [o out b view h Ho <- Hb Hv Hc Hr Hf|o out b view h t vin l Ho <- Hb Hv Hc Hi Hl Hr Hf].
    + destruct (Hc) as (t & n & -> & Hc'%tx_block_height_Ok). exists (view, mkRange h U32_MAX). split.
      * left. exists (OutPoint_Regular t n), out. split; [done|]. unfold owned_period. cbn [fst snd outpoint_txid]. rewrite Hb. cbn [mbind option_bind].
        unfold get_current_bitname_data in Hv. apply ok_or_Ok in Hv. rewrite Hv. cbn [mbind option_bind]. by rewrite Hc'.
      * cbn. by rewrite (proj2 (N.leb_le _ _)), (proj2 (N.ltb_lt _ _)) by lia.
    + destruct (Hc) as (t' & n & -> & Hc'%tx_block_height_Ok). exists (view, mkRange h l). split.
      * right. exists (OutPoint_Regular t' n), out. split; [done|]. unfold spent_period. cbn [fst snd outpoint_txid]. rewrite Hb. cbn [mbind option_bind].
        rewrite Hc'. cbn [mbind option_bind]. rewrite (proj1 (data_at_height _ _ _) Hv). cbn [mbind option_bind].
        unfold spending_txid. rewrite Hi. do 4 f_equal. unfold owned_until in Hl. destruct Hl as [Hl%tx_block_height_Ok|[-> Hl]]; [by rewrite Hl|].
        destruct (heighted t) as [s|] eqn:Hs; [|done]. apply tx_block_height_Ok in Hs. by apply Hl in Hs.
      * cbn. by rewrite (proj2 (N.leb_le _ _)), (proj2 (N.ltb_lt _ _)) by lia.
Qed.

Lemma ownership_inbox address : is_Some (ownership !! address) <-> inbox_address address.
Proof.
  assert (is_Some (ownership !! address) <-> exists q, q ∈ periods_at ownership address) as ->.
  { assert (ownership !! address <> Some []) as Hne.
    { unfold ownership. rewrite <-(foldl_fmap add_period spent_period), <-(foldl_fmap add_period owned_period).
      do 2 apply add_all_nonempty. by rewrite lookup_empty. }
    unfold periods_at. destruct (ownership !! address) as [[|q l]|]; cbn [default from_option id]; [done| |].
    - split; [|by eexists]. intros _. exists q. apply list_elem_of_here.
    - split; [by intros []|]. by intros (? & ?%not_elem_of_nil). }
  setoid_rewrite ownership_at. unfold inbox_address. split.
  - intros (q & [(o & out & Ho & Hp)|(o & out & Ho & Hp)]); [left|right]; exists o, out.
    + unfold owned_period in Hp. cbn [fst snd] in *. apply bind_Some in Hp as (b & Hb & (view' & Hv & Hp)%bind_Some).
      apply bind_Some in Hp as ([o' t] & (t' & n & -> & [= -> ->])%outpoint_txid_Some & (h & Hh & [= <- <-])%bind_Some).
      exists h. split_and!; [done|done|]. by apply (heighted_confirmed _ t' n).
    + unfold spent_period in Hp. cbn [fst snd] in *. apply bind_Some in Hp as (b & Hb & Hp).
      apply bind_Some in Hp as ([o' t] & (t' & n & -> & [= -> ->])%outpoint_txid_Some & (h & Hh & (view' & Hv & [= <- <-])%bind_Some)%bind_Some).
      exists h. split_and!; [done|done|]. by apply (heighted_confirmed _ t' n).
  - intros [(o & out & h & Ho & <- & Hc)|(o & out & h & Ho & <- & Hc)]; pose proof Hc as (t & n & -> & Hh%tx_block_height_Ok).
    + destruct (inbox_utxos_wallet _ _ Ho) as [_ [b Hb]]. destruct (bf_owned F _ _ _ Ho Hb) as [_ [view Hv]].
      exists (view, mkRange h U32_MAX). left. exists (OutPoint_Regular t n), out. split; [done|]. unfold owned_period.
      cbn [fst snd outpoint_txid]. rewrite Hb. cbn [mbind option_bind]. rewrite Hv. cbn [mbind option_bind]. by rewrite Hh.
    + destruct (inbox_stxos_name _ _ Ho) as [b Hb]. destruct (bf_spent F _ _ _ Ho Hb) as (_ & _ & Hd). destruct (Hd h Hc) as [view Hv].
      eexists. right. exists (OutPoint_Regular t n), out. split; [done|]. unfold spent_period.
      cbn [fst snd outpoint_txid]. rewrite Hb. cbn [mbind option_bind]. rewrite Hh. cbn [mbind option_bind]. by rewrite Hv.
Qed.

Lemma is_paymail_Ok o out :
  utxos !! o = Some out -> is_Some (outpoint_txid o) \/ fo_memo out = [] \/ ~ inbox_address (fo_address out) ->
  exists r, is_paymail heights ownership o out = Ok r /\ (r = true <-> paymail o out).
Proof.
  intros Hu Hor. unfold is_paymail, paymail. destruct (decide (fo_memo out = [])) as [Hm|Hm].
  { exists false. split; [done|]. split; [done|]. by intros [? _]. }
  pose proof (ownership_asks (fo_address out)) as Hasks. pose proof (ownership_inbox (fo_address out)) as Hin. unfold periods_at in Hasks.
  destruct (ownership !! fo_address out) as [periods|].
  2:{ exists false. split; [done|]. split; [done|]. intros (_ & h & fee & _ & (q & Hq & _)%Hasks & _). by apply not_elem_of_nil in Hq. }
  destruct Hor as [[p Hp]|[?|Hn]]; [|done|by destruct Hn; apply Hin].
  pose proof Hp as (t & n & -> & ->)%outpoint_txid_Some.
  rewrite (proj2 (heights_of_lookup _ _ _ (heighted t))); [|split; [left; by eexists|by exists t, n]].
  cbn [expect mbind result_bind]. pose proof (fun h => heighted_confirmed _ t n h eq_refl) as Hc.
  destruct (heighted t) as [h|].
  2:{ exists false. split; [done|]. split; [done|]. by intros (_ & h & fee & ?%Hc & _). }
  pose proof (iter_min_le (omap (period_fee h) periods) (filled_output_get_value out)) as Hmin.
  assert ((exists fee, fee ∈ omap (period_fee h) periods /\ fee <= filled_output_get_value out) <->
    exists h fee, confirmed (OutPoint_Regular t n) h /\ asks (fo_address out) h fee /\ fee <= filled_output_get_value out) as Hiff.
  { setoid_rewrite list_elem_of_omap. split.
    - intros (fee & (q & Hq & Hf) & Hle). exists h, fee. split_and!; [by apply Hc| |done]. apply Hasks. by exists q.
    - intros (h' & fee & [= <-]%Hc & (q & Hq & Hf)%Hasks & Hle). exists fee. split; [|done]. by exists q. }
  rewrite Hiff in Hmin. destruct (iter_min _) as [m|]; eexists; (split; [done|]).
  - rewrite N.leb_le, <-Hmin. split; [intros ?; split; [done|by exists m]|]. by intros (_ & ? & [= <-] & ?).
  - rewrite <-Hmin. split; [done|]. by intros (_ & ? & ? & _).
Qed.

Lemma get_paymail_eq : get_paymail app whitelist =
  fold_res (retain_entry (is_paymail heights ownership)) (hashmap_iter utxos) utxos.
Proof.
  unfold get_paymail. rewrite (bf_tip F). unfold app_archive.
  rewrite outpoints_to_block_heights_Ok. cbn [map_err mbind result_bind].
  rewrite inpoints_to_block_heights_Ok. cbn [map_err mbind result_bind].
  rewrite (fold_res_pure _ _ _ _ populate_owned_Ok). cbn [mbind result_bind].
  by rewrite (fold_res_pure _ _ _ _ populate_spent_Ok).
Qed.
End proofs.
End spec.

(** C28 Paymail is exactly the outputs of the wallet that carry a memo and pay, at the height at which their
    transaction is included, at least what a BitName of their address asked for: a name that the wallet owns, or
    one that it owned then. The application answers with it under two conditions. The books of wallet and node
    fit ([books_fit]): the node has a tip in a well-formed archive, a transaction is included in one block of
    its branch at most, the names of the wallet are outputs of transactions and were spent by transactions, and
    their data is there while they are owned. And every output with a memo at an address of such a name is of a
    transaction; otherwise there is no answer, but a panic ([get_paymail_panics]). *)
Theorem get_paymail_exact `{Externals} `{WalletExternals} (app : App) (tip : BlockHash) (whitelist : option (gset BitName)) :
  books_fit app tip whitelist ->
  (forall o out, w_utxos (app_wallet app) !! o = Some out -> fo_memo out <> [] -> inbox_address app tip whitelist (fo_address out) ->
   is_Some (outpoint_txid o)) ->
  exists m, get_paymail app whitelist = Ok m /\
    forall o out, m !! o = Some out <-> w_utxos (app_wallet app) !! o = Some out /\ paymail app tip whitelist o out.
Proof.
  intros F Hreg. rewrite (get_paymail_eq app tip whitelist F).
  destruct (retain_lookup (is_paymail (heights_of app tip (w_utxos (app_wallet app)) (inbox_stxos whitelist (app_wallet app)))
    (ownership app tip whitelist)) (paymail app tip whitelist) (hashmap_iter (w_utxos (app_wallet app))) (w_utxos (app_wallet app)))
    as (m & Hm & Hl).
  - intros o out Hin%(hashmap_entries app tip whitelist F). apply (is_paymail_Ok app tip whitelist F); [done|].
    destruct (decide (fo_memo out = [])) as [?|Hne]; [by right; left|]. destruct (outpoint_txid o) eqn:Ho; [left; by eexists|].
    right; right. intros Hi. destruct (Hreg o out Hin Hne Hi) as [? ?]. congruence.
  - exists m. split; [done|]. intros o out. rewrite Hl. split; intros [Hu Hp]; (split; [done|]).
    + apply Hp. by apply (hashmap_entries app tip whitelist F).
    + intros out' Hin%(hashmap_entries app tip whitelist F). congruence.
Qed.

(** An output of a coinbase, or of a deposit, that carries a memo and pays to an address of a BitName of the wallet makes
    [get_paymail] panic: the heights of outputs are only looked up for transactions, and the closure indexes the map. *)
Theorem get_paymail_panics `{Externals} `{WalletExternals} (app : App) (tip : BlockHash) (whitelist : option (gset BitName))
    (o : OutPoint) (out : FilledOutput) :
  books_fit app tip whitelist -> w_utxos (app_wallet app) !! o = Some out -> outpoint_txid o = None ->
  fo_memo out <> [] -> inbox_address app tip whitelist (fo_address out) ->
  get_paymail app whitelist = Panic.
Proof.
  intros F Hu Ho Hm Hi. rewrite (get_paymail_eq app tip whitelist F). apply fold_res_panics.
  - intros m [o' out'] Hin%(hashmap_entries app tip whitelist F). unfold retain_entry. cbn [fst snd].
    unfold is_paymail. repeat case_match; cbn; eauto.
    all: match goal with |- context [expect ?x] => destruct x as [[?|]|] end; cbn; repeat case_match; eauto.
  - exists (o, out). split; [by apply (hashmap_entries app tip whitelist F)|]. intros m. unfold retain_entry. cbn [fst snd].
    unfold is_paymail. rewrite decide_False by done. apply (ownership_inbox app tip whitelist F) in Hi as [periods ->].
    destruct (heights_of _ _ _ _ !! o) as [r|] eqn:Hh; [|done]. apply (heights_of_lookup app tip whitelist F) in Hh as (_ & t & n & -> & _). done.
Qed.
