(* ===== verification/Miner.v ===== *)
(** * Mining, deposits and the services of the mainchain node

    [src/lib/miner.rs], the rest of [submit_block] of [src/lib/node/mod.rs], and of [src/app/app.rs] mining,
    deposits, addresses of the mainchain wallet, and the check for the services of the mainchain node. The state
    is the application, the pending block of the miner and the world behind the clients. *)

From S2P Require Import Prelude Types Transaction Authorization State Merkle Block SideTips Lineage Archive.
From S2P Require Import MainchainTask Mempool Node NodeTask Wallet App AppTemplate NetAddress Encodings Proto.

(** [miner::Error] *)
Inductive MinerError `{ProtoExternals} : Type :=
| Miner_CusfMainchain (e : ProtoError)
| Miner_NoCusfMainchainMiningClient.

(** What the error of the application has beside [AppError]; the node's [CusfMainchain] is [Mine_Node]. *)
Inductive MineError `{ProtoExternals} : Type :=
| Mine_App (e : AppError)
| Mine_CusfMainchain (e : ProtoError)
| Mine_Node (e : ProtoError)
| Mine_Miner (e : MinerError)
| Mine_NoCusfMainchainWalletClient.

(** The clients share their transport, so that only their presence is kept. *)
Record Miner : Type := mkMiner {
  mn_cusf_mainchain_miner : bool;
  mn_block : option (Header * Body);
}.
Definition miner_new (cusf_mainchain_miner : bool) : Miner := mkMiner cusf_mainchain_miner None.

(** ** The miner *)

Section miner.
Context `{Externals} `{EncodingExternals, ProtoExternals} {W : Type} `{!MainchainServices W}.
Definition miner_op : Type -> Type := op (Miner * W) MinerError.

Definition miner_client {A} : grpc W A -> miner_op A := zoom snd (fun w m => (m.1, w)) Miner_CusfMainchain.
Definition set_block (block : option (Header * Body)) (m : Miner * W) : Miner * W :=
  (mkMiner (mn_cusf_mainchain_miner m.1) block, m.2).

Definition generate : miner_op unit :=
  has_miner ← reading (fun m => Ok (mn_cusf_mainchain_miner m.1));
  if has_miner : bool then
    address ← miner_client create_new_address;
    miner_client (generate_to_address 1 address)
  else lifted (Err Miner_NoCusfMainchainMiningClient).

Definition attempt_bmm (amount : u64) (height : u32) (header : Header) (body : Body) : miner_op Hash :=
  let critical_hash := header_hash header in
  txid ← miner_client (create_bmm_critical_data_tx amount height critical_hash (hd_prev_main_hash header));
  _ ← writing (set_block (Some (header, body)));
  mret txid.

(** [events_stream.try_next().await?] *)
Definition try_next (events : EventStream) : miner_op (option MainchainBlockEvent) := fun m =>
  match event_stream_next events m.2 with
  | (None, w) => (Ok None, (m.1, w))
  | (Some r, w) => (map_err Miner_CusfMainchain (Some <$> r), (m.1, w))
  end.

Definition confirm_bmm : miner_op (option (MainBlockHash * Header * Body)) :=
  block ← reading (fun m => Ok (mn_block m.1));
  match block with
  | None => mret None
  | Some (header, body) =>
      let block_hash := header_hash header in
      events_stream ← miner_client subscribe_events;
      event ← try_next events_stream;
      match event with
      | Some (ConnectBlock header_info block_info) =>
          if decide (bi_bmm_commitment block_info = Some block_hash) then
            _ ← writing (set_block None);
            mret (Some (bhi_block_hash header_info, header, body))
          else
            _ ← writing (set_block None);
            mret None
      | Some (DisconnectBlock _) | None =>
          _ ← writing (set_block None);
          mret None
      end
  end.
End miner.

(** ** The application *)

Record Mining (W : Type) : Type := mkMining {
  mi_app : App;
  mi_miner : option Miner;
  (** whether the node has a client of the block producer service *)
  mi_block_producer : bool;
  mi_world : W;
}.
Arguments mkMining {W} _ _ _ _.
Arguments mi_app {W} _.
Arguments mi_miner {W} _.
Arguments mi_block_producer {W} _.
Arguments mi_world {W} _.

Section mining.
Context `{Externals} `{WorkExternals} `{WalletExternals}.
Context `{EncodingExternals, ProtoExternals} {W : Type} `{!MainchainServices W}.
(** The mainchain task's client, as in [App]; [bitcoin::consensus::serialize] for transactions; and whether
    [Address::require_network] accepts an address. *)
Context (get_block_infos : MainBlockHash -> u32 -> option (list (BlockHeaderInfo * BlockInfo))) (requests : nat).
Context (serialize_tx : MainTx -> bytes) (valid_for : MainAddress -> BitcoinNetwork -> bool).
Definition mine_op : Type -> Type := op (Mining W) MineError.

Definition set_app (a : App) (s : Mining W) : Mining W :=
  mkMining a (mi_miner s) (mi_block_producer s) (mi_world s).
Definition set_world (w : W) (s : Mining W) : Mining W :=
  mkMining (mi_app s) (mi_miner s) (mi_block_producer s) w.
Definition app_step {A} : app_op A -> mine_op A := zoom mi_app set_app Mine_App.
Definition mainchain {A} (err : ProtoError -> MineError) : grpc W A -> mine_op A := zoom mi_world set_world err.
(** A step of the miner behind its lock *)
Definition miner_step {A} (miner : Miner) (c : @miner_op _ W A) : mine_op A :=
  zoom (fun s => (default miner (mi_miner s), mi_world s))
    (fun m s => mkMining (mi_app s) (Some m.1) (mi_block_producer s) m.2) Mine_Miner c.

(** [let Some(miner) = self.miner.as_ref() else { return Err(..) }] *)
Definition with_miner {A} (k : Miner -> mine_op A) : mine_op A :=
  miner ← reading (fun s => Ok (mi_miner s));
  match miner with
  | None => lifted (Err Mine_NoCusfMainchainWalletClient)
  | Some miner => k miner
  end.

(** The end of [submit_block]: a pending bundle is proposed to the mainchain. *)
Definition propose_pending_bundle : mine_op unit :=
  bundle ← reading (fun s => map_err (fun e => Mine_App (App_Node (Node_State e)))
    (try_get_pending_withdrawal_bundle (nd_state (app_node (mi_app s)))));
  producer ← reading (fun s => Ok (mi_block_producer s));
  match bundle with
  | Some (bundle, _) =>
      if producer : bool then mainchain Mine_Node (propose_withdrawal_bundle (serialize_tx (wb_tx bundle)))
      else mret tt
  | None => mret tt
  end.

(** [Node::submit_block], whole *)
Definition node_submit_block (main_block_hash : MainBlockHash) (header : Header) (body : Body) : mine_op bool :=
  accepted ← app_step (fun a =>
    let '(db, res) := submit_block get_block_infos requests (app_node a) main_block_hash header body in
    (map_err App_Node res, set_node db a));
  if accepted : bool then
    _ ← propose_pending_bundle;
    mret true
  else mret false.

(** [App::connect_block], whole *)
Definition app_connect_block (header : Header) (body : Body) (main_block_hash : MainBlockHash) : mine_op bool :=
  accepted ← node_submit_block main_block_hash header body;
  _ ← (if accepted : bool then app_step update else mret tt);
  mret accepted.

Definition template_at_tip (fee : option Amount) : mine_op BlockTemplate :=
  tip ← mainchain Mine_CusfMainchain get_chain_tip;
  app_step (build_block_template get_block_infos requests fee (bhi_block_hash tip)).

Definition mine (fee : option Amount) : mine_op unit :=
  with_miner (fun miner =>
    template ← template_at_tip fee;
    _ ← miner_step miner (attempt_bmm (tpl_bribe template) 0 (tpl_header template) (tpl_body template));
    confirmed ← miner_step miner confirm_bmm;
    _ ← match confirmed with
        | Some (main_hash, header, body) =>
            _ ← node_submit_block main_hash header body;
            mret tt
        | None => mret tt
        end;
    app_step update).

Definition app_deposit (address : bytes) (amount fee : Amount) : mine_op Hash :=
  with_miner (fun _ => mainchain Mine_CusfMainchain (create_deposit_tx address amount fee)).

Definition get_new_main_address : mine_op MainAddress :=
  with_miner (fun _ =>
    mainchain_info ← mainchain Mine_CusfMainchain get_chain_info;
    address ← mainchain Mine_CusfMainchain create_new_address;
    _ ← lifted (assert_ (valid_for address (ci_network mainchain_info)));
    mret address).
End mining.

(** ** The services of the mainchain node *)

(** The health service of [tonic_health], and the names and codes of [tonic] *)
Class HealthServices `{ProtoExternals} (W : Type) : Type := {
  svc_check : string -> W -> (Status + Z) * W;
  status_not_found : Status -> bool;
  status_aborted : string -> Status;
  validator_service_name : string;
  mining_service_name : string;
  wallet_service_name : string;
  block_producer_service_name : string;
}.
(** [ServingStatus::Serving as i32] *)
Definition SERVING : Z := 1.

Record ProtoSupport : Type := mkProtoSupport {
  ps_block_producer : bool;
  ps_miner : bool;
  ps_wallet : bool;
}.

Section health.
Context `{ProtoExternals} {W : Type} `{!HealthServices W}.

Definition check_status_serving (service_name : string) : op W Status bool := fun w =>
  match svc_check service_name w with
  | (inr status, w) => (Ok (bool_decide (status = SERVING)), w)
  | (inl status, w) => if status_not_found status then (Ok false, w) else (Err status, w)
  end.

Definition check_proto_support : op W Status ProtoSupport :=
  validator ← check_status_serving validator_service_name;
  _ ← lifted (ensure validator (status_aborted validator_service_name));
  has_block_producer_service ← check_status_serving block_producer_service_name;
  has_mining_service ← check_status_serving mining_service_name;
  has_wallet_service ← check_status_serving wallet_service_name;
  mret (mkProtoSupport has_block_producer_service has_mining_service has_wallet_service).

(** The loop, for a number of turns; [None] while it waits *)
Fixpoint wait_for_proto_support (turns : nat) (w : W) : option ProtoSupport * W :=
  match turns with
  | O => (None, w)
  | S turns =>
      match check_proto_support w with
      | (Ok proto_support, w) => (Some proto_support, w)
      | (_, w) => wait_for_proto_support turns w
      end
  end.

(** The clients of [App::new] *)
Definition mining_of (support : ProtoSupport) (app : App) (w : W) : Mining W :=
  mkMining app (if ps_wallet support then Some (miner_new (ps_miner support)) else None)
    (ps_block_producer support) w.
End health.

(** ** Lemmas *)

Section miner_lemmas.
Context `{Externals} `{EncodingExternals, ProtoExternals} {W : Type} `{!MainchainServices W}.

(** A block that was confirmed is the pending one, and the first event after the subscription commits to it. *)
Lemma confirm_bmm_sound m w main_hash header body s :
  confirm_bmm (m, w) = (Ok (Some (main_hash, header, body)), s) ->
  mn_block m = Some (header, body) /\ mn_block s.1 = None /\
  exists events w1 info block_info,
    subscribe_events w = (Ok events, w1) /\
    event_stream_next events w1 = (Some (Ok (ConnectBlock info block_info)), s.2) /\
    bi_bmm_commitment block_info = Some (header_hash header) /\ main_hash = bhi_block_hash info.
Proof.
  unfold confirm_bmm. intros Hc. apply op_bind_Ok in Hc as (block & m1 & (Hb & ->)%reading_Ok & Hc). injection Hb as <-. cbn [fst snd] in *.
  destruct (mn_block m) as [[h b]|] eqn:Hm; [|by injection Hc].
  apply op_bind_Ok in Hc as (events & m1 & Hs & Hc). unfold miner_client, zoom in Hs. cbn [snd fst] in Hs.
  destruct (subscribe_events w) as [[ev| |] w1] eqn:Hsub; cbn in Hs; try discriminate Hs. injection Hs as <- <-.
  apply op_bind_Ok in Hc as (event & m2 & Hn & Hc). unfold try_next in Hn. cbn [snd fst] in Hn.
  destruct (event_stream_next ev w1) as [[[[info bi|]| |]|] w2] eqn:He; cbn in Hn; try discriminate Hn; injection Hn as <- <-.
  - case_decide as Hd; op_inv. injection Hc as -> -> ->. split_and!; [done|done|]. by exists ev, w1, info, bi.
  - op_inv.
  - op_inv.
Qed.

(** Confirming never keeps the block, once an event was awaited. *)
Lemma confirm_bmm_block m w r s : confirm_bmm (m, w) = (Ok r, s) -> mn_block s.1 = None.
Proof.
  destruct r as [[[mh h] b]|]; [intros Hc; by apply confirm_bmm_sound in Hc as (_ & ? & _)|].
  unfold confirm_bmm. intros Hc. apply op_bind_Ok in Hc as (block & m1 & (Hb & ->)%reading_Ok & Hc). injection Hb as <-. cbn [fst snd] in *.
  destruct (mn_block m) as [[h b]|] eqn:Hm; [|by injection Hc as <-].
  apply op_bind_Ok in Hc as (events & m1 & _ & Hc). apply op_bind_Ok in Hc as (event & m2 & _ & Hc).
  repeat case_match; op_inv; done.
Qed.

Lemma attempt_bmm_block amount height header body m w txid s :
  attempt_bmm amount height header body (m, w) = (Ok txid, s) -> mn_block s.1 = Some (header, body).
Proof. unfold attempt_bmm. intros Hc. op_inv. done. Qed.
End miner_lemmas.

Section mining_lemmas.
Context `{Externals} `{WorkExternals} `{WalletExternals}.
Context `{EncodingExternals, ProtoExternals} {W : Type} `{!MainchainServices W}.
Context (get_block_infos : MainBlockHash -> u32 -> option (list (BlockHeaderInfo * BlockInfo))) (requests : nat).
Context (serialize_tx : MainTx -> bytes).
Implicit Types (s : Mining W).

Lemma mainchain_app {A} err (c : grpc W A) s : mi_app (mainchain err c s).2 = mi_app s.
Proof. unfold mainchain, zoom. by destruct (c (mi_world s)). Qed.
Lemma mainchain_miner {A} err (c : grpc W A) s : mi_miner (mainchain err c s).2 = mi_miner s.
Proof. unfold mainchain, zoom. by destruct (c (mi_world s)). Qed.
Lemma miner_step_app {A} miner (c : miner_op A) s : mi_app (miner_step miner c s).2 = mi_app s.
Proof. unfold miner_step, zoom. by destruct (c _). Qed.
Lemma app_step_eq {A} (c : app_op A) s r s' :
  app_step c s = (r, s') -> exists r', c (mi_app s) = (r', mi_app s') /\ r = map_err Mine_App r'.
Proof. unfold app_step, zoom. destruct (c (mi_app s)) as [r' a] eqn:Hc. intros [= <- <-]. by exists r'. Qed.

(** A template leaves the state alone. *)
Definition node_state_is (st : State) (a : App) : Prop := nd_state (app_node a) = st.
Lemma wallet_step_state {A} st (c : wallet_op A) : preserves (node_state_is st) (wallet_step c).
Proof. intros a Ha. unfold wallet_step, zoom. by destruct (c (app_wallet a)). Qed.
Lemma get_transactions_state db n db' txs fees :
  get_transactions db n = Ok (db', txs, fees) -> nd_state db' = nd_state db.
Proof. unfold get_transactions. intros Hg. res_inv. by simplify_eq/=. Qed.
Lemma full_template_state st fee prev_main prev_side :
  preserves (node_state_is st) (full_template fee prev_main prev_side).
Proof.
  unfold full_template. apply preserves_bind_value; [apply preserves_reading|].
  intros a [[db txs] fees] a' Ha [Hg ->]%reading_Ok _. apply map_err_Ok, get_transactions_state in Hg. revert Ha. revert a Hg.
  intros a Hg Ha. unfold node_state_is in Ha. rewrite Ha in Hg.
  assert (preserves (node_state_is st) (writing (E := AppError) (set_node db))) as Hw by (by apply preserves_writing).
  revert a Ha. apply preserves_bind; [exact Hw|]. preserve. apply wallet_step_state.
Qed.
Lemma template_same_state st fee prev_main :
  preserves (node_state_is st) (build_block_template get_block_infos requests fee prev_main).
Proof.
  unfold build_block_template. apply preserves_bind; [auto with ops|]. intros tip. apply preserves_bind.
  { unfold template_parent, request_missing_ancestors, archive_read. preserve. by apply preserves_writing. }
  intros prev. apply preserves_bind.
  { case_match; [apply full_template_state|]. unfold empty_template. preserve. }
  unfold archive_read. preserve.
Qed.

(** The end of [submit_block] and the update of the wallet leave the node alone. *)
Lemma propose_pending_bundle_app s : mi_app (propose_pending_bundle serialize_tx s).2 = mi_app s.
Proof.
  assert (preserves (fun t => mi_app t = mi_app s) (propose_pending_bundle serialize_tx)) as Hp; [|by apply Hp].
  unfold propose_pending_bundle. preserve. intros t Ht. by rewrite mainchain_app.
Qed.
Lemma update_node a : app_node (update a).2 = app_node a.
Proof. done. Qed.
Lemma op_ret_eq {S E A} (a : A) (t : S) (r : result E A) t' : (mret a : op S E A) t = (r, t') -> r = Ok a /\ t' = t.
Proof. by intros [= <- <-]. Qed.
Lemma bind_ret_state {S E A B} (c : op S E A) (b : B) (t : S) : ((c ≫= fun _ => mret b) t).2 = (c t).2.
Proof. unfold mbind, op_bind. by destruct (c t) as [[]]. Qed.
Lemma node_submit_block_node main_hash header body s :
  app_node (mi_app (node_submit_block get_block_infos requests serialize_tx main_hash header body s).2) =
  (submit_block get_block_infos requests (app_node (mi_app s)) main_hash header body).1.
Proof.
  destruct (node_submit_block _ _ _ _ _ _ s) as [r s'] eqn:Hr. unfold node_submit_block in Hr. cbn [snd].
  apply op_bind_cases in Hr as [(acc & s1 & Ha & Hk)|[Ha _]].
  - apply app_step_eq in Ha as (r' & Ha & _). destruct (submit_block _ _ _ _ _ _) as [db res]. injection Ha as _ Ha.
    assert (mi_app s' = mi_app s1) as ->; [|by rewrite <-Ha].
    destruct acc; [|by apply op_ret_eq in Hk as [_ ->]].
    pose proof (f_equal snd Hk) as He. cbn [snd] in He. rewrite <-He. etransitivity; [apply f_equal, bind_ret_state|].
    apply propose_pending_bundle_app.
  - rewrite <-Ha. unfold app_step, zoom. by destruct (submit_block _ _ _ _ _ _) as [db res].
Qed.
Lemma node_submit_block_miner main_hash header body s :
  mi_miner (node_submit_block get_block_infos requests serialize_tx main_hash header body s).2 = mi_miner s.
Proof.
  assert (preserves (fun t => mi_miner t = mi_miner s)
    (node_submit_block get_block_infos requests serialize_tx main_hash header body)) as Hp; [|by apply Hp].
  unfold node_submit_block, propose_pending_bundle. preserve.
  - intros t Ht. unfold app_step, zoom. by destruct (submit_block _ _ _ _ _ _).
  - intros t Ht. by rewrite mainchain_miner.
Qed.

Lemma template_at_tip_state fee s :
  nd_state (app_node (mi_app (template_at_tip get_block_infos requests fee s).2)) = nd_state (app_node (mi_app s)).
Proof.
  assert (preserves (fun t => node_state_is (nd_state (app_node (mi_app s))) (mi_app t))
    (template_at_tip get_block_infos requests fee)) as Hp; [|by apply Hp].
  unfold template_at_tip. preserve.
  - intros t Ht. by rewrite mainchain_app.
  - intros t Ht. pose proof (template_same_state _ fee (bhi_block_hash a) (mi_app t) Ht) as Hs.
    unfold app_step, zoom. by destruct (build_block_template _ _ _ _ _).
Qed.
Lemma template_at_tip_Ok fee s template s' :
  template_at_tip get_block_infos requests fee s = (Ok template, s') ->
  exists tip, build_block_template get_block_infos requests fee tip (mi_app s) = (Ok template, mi_app s').
Proof.
  unfold template_at_tip. intros Ht. apply op_bind_Ok in Ht as (tip & s1 & Hc & Ht).
  apply app_step_eq in Ht as (r & Ht & Hr). exists (bhi_block_hash tip).
  pose proof (mainchain_app Mine_CusfMainchain get_chain_tip s) as Ha. rewrite Hc in Ha. cbn [snd] in Ha. rewrite <-Ha, Ht.
  by destruct r; simplify_eq/=.
Qed.
Lemma miner_step_Ok {A} miner (c : miner_op A) s a s' :
  miner_step miner c s = (Ok a, s') ->
  exists m, c (default miner (mi_miner s), mi_world s) = (Ok a, m) /\
    s' = mkMining (mi_app s) (Some m.1) (mi_block_producer s) m.2.
Proof.
  unfold miner_step, zoom. destruct (c _) as [[x|e|] m] eqn:Hc; intros [= <- <-]. by exists m.
Qed.
Lemma mine_end {A} (c : mine_op A) s r s' :
  (c ≫= fun _ => app_step update) s = (r, s') ->
  app_node (mi_app s') = app_node (mi_app (c s).2) /\ mi_miner s' = mi_miner (c s).2.
Proof. intros [(a & s1 & -> & [= <- <-])|[<- _]]%op_bind_cases; done. Qed.
Lemma mine_end_unit {A} (c : mine_op A) s r s' :
  ((c ≫= fun _ => mret tt) ≫= fun _ => app_step update) s = (r, s') ->
  app_node (mi_app s') = app_node (mi_app (c s).2) /\ mi_miner s' = mi_miner (c s).2.
Proof.
  intros [-> ->]%mine_end. pose proof (bind_ret_state c tt s : _ = _) as He.
  split; [apply (f_equal (fun t => app_node (mi_app t)) He)|apply (f_equal mi_miner He)].
Qed.
End mining_lemmas.

(** ** Properties *)

(** C23 Mining changes the state of the node only by a block that the mainchain has committed to. Whatever the mainchain node and its
    services answer, the state is the one from before, or the node was given the block that the miner had built, on an event
    that connects a mainchain block with a commitment to this very block; and when mining succeeds no block stays pending. *)
Theorem mine_submits_committed `{Externals} `{WorkExternals} `{WalletExternals} `{EncodingExternals, ProtoExternals}
    {W : Type} `{!MainchainServices W}
    (get_block_infos : MainBlockHash -> u32 -> option (list (BlockHeaderInfo * BlockInfo))) (requests : nat)
    (serialize_tx : MainTx -> bytes) (fee : option Amount) (s s' : Mining W) (r : result MineError unit) :
  mine get_block_infos requests serialize_tx fee s = (r, s') ->
  (nd_state (app_node (mi_app s')) = nd_state (app_node (mi_app s)) \/
   exists tip template a events w w' info block_info,
     build_block_template get_block_infos requests fee tip (mi_app s) = (Ok template, a) /\
     event_stream_next events w = (Some (Ok (ConnectBlock info block_info)), w') /\
     bi_bmm_commitment block_info = Some (header_hash (tpl_header template)) /\
     app_node (mi_app s') =
       (submit_block get_block_infos requests (app_node a) (bhi_block_hash info) (tpl_header template)
          (tpl_body template)).1) /\
  (r = Ok tt -> exists miner, mi_miner s' = Some miner /\ mn_block miner = None).
Proof.
  unfold mine, with_miner. intros Hm. apply op_bind_cases in Hm as [(miner & s0 & (Hmi & ->)%reading_Ok & Hm)|[<- Hr]].
  2:{ split; [by left|]. intros ->. by destruct (Hr tt). }
  injection Hmi as <-. destruct (mi_miner s) as [miner|]; [|injection Hm as <- <-; split; [by left|done]].
  apply op_bind_cases in Hm as [(template & s1 & Ht & Hm)|[<- Hr]].
  2:{ split; [left|intros ->; by destruct (Hr tt)]. apply template_at_tip_state. }
  apply template_at_tip_Ok in Ht as (tip & Ht).
  pose proof (template_same_state get_block_infos requests _ fee tip (mi_app s) eq_refl) as Hs1. rewrite Ht in Hs1. cbn [snd] in Hs1. unfold node_state_is in Hs1.
  apply op_bind_cases in Hm as [(txid & s2 & Ha & Hm)|[<- Hr]].
  2:{ split; [left|intros ->; by destruct (Hr tt)]. by rewrite miner_step_app. }
  apply miner_step_Ok in Ha as (m2 & Ha & Hs2). apply attempt_bmm_block in Ha.
  apply op_bind_cases in Hm as [(confirmed & s3 & Hc & Hm)|[<- Hr]].
  2:{ split; [left|intros ->; by destruct (Hr tt)]. by rewrite miner_step_app, Hs2. }
  apply miner_step_Ok in Hc as (m3 & Hc & Hs3). rewrite Hs2 in Hc, Hs3. cbn [mi_miner mi_world mi_app default from_option id] in Hc, Hs3.
  pose proof (confirm_bmm_block _ _ _ _ Hc) as Hnone.
  assert (forall t : Mining W, mi_miner t = Some m3.1 -> exists miner', mi_miner t = Some miner' /\ mn_block miner' = None) as Hpend by eauto.
  destruct confirmed as [[[main_hash header] body]|].
  - apply confirm_bmm_sound in Hc as (Hblock & _ & events & w1 & info & block_info & _ & He & Hcommit & ->).
    rewrite Ha in Hblock. injection Hblock as <- <-.
    apply mine_end_unit in Hm as [Hn Hmi].
    rewrite node_submit_block_node, Hs3 in Hn. cbn [mi_app] in Hn.
    split; [right; by eexists _, _, _, _, _, _, _, _|]. intros ->. apply Hpend. rewrite Hmi, node_submit_block_miner, Hs3; done.
  - apply (mine_end (mret tt)) in Hm as [Hn Hmi]. cbn [snd] in Hn, Hmi. split; [left|].
    + rewrite Hn, Hs3. exact Hs1.
    + intros ->. apply Hpend. by rewrite Hmi, Hs3.
Qed.

(** The application starts with the services that the mainchain node served when it was asked last: it waits until the
    validator service is served, and uses each of the other three if and only if it was served then. *)
Theorem wait_for_proto_support_sound `{ProtoExternals} {W : Type} `{!HealthServices W} (turns : nat) (w w' : W)
    (support : ProtoSupport) (app : App) :
  wait_for_proto_support turns w = (Some support, w') ->
  (exists w0 w1 w2 w3,
     check_status_serving validator_service_name w0 = (Ok true, w1) /\
     check_status_serving block_producer_service_name w1 = (Ok (ps_block_producer support), w2) /\
     check_status_serving mining_service_name w2 = (Ok (ps_miner support), w3) /\
     check_status_serving wallet_service_name w3 = (Ok (ps_wallet support), w')) /\
  (mi_miner (mining_of support app w') = None <-> ps_wallet support = false).
Proof.
  intros Hw. split; [|unfold mining_of; cbn; by destruct (ps_wallet support)].
  revert w Hw. induction turns as [|turns IH]; intros w Hw; [done|]. cbn [wait_for_proto_support] in Hw.
  destruct (check_proto_support w) as [[s|e|] w1] eqn:Hc; [|by apply (IH w1)..]. injection Hw as -> ->.
  unfold check_proto_support in Hc. op_inv. apply ensure_Ok in Ho0. subst x. by eexists _, _, _, _.
Qed.

(** A bundle that the mainchain node refuses hides that the block became the tip: the node has connected it and the call fails,
    so that the wallet is not brought up to date by it. *)
Theorem proposal_error_hides_block `{Externals} `{WorkExternals} `{WalletExternals} `{EncodingExternals, ProtoExternals}
    {W : Type} `{!MainchainServices W}
    (get_block_infos : MainBlockHash -> u32 -> option (list (BlockHeaderInfo * BlockInfo))) (requests : nat)
    (serialize_tx : MainTx -> bytes) (s : Mining W) (header : Header) (body : Body) (main_hash : MainBlockHash)
    (db : NodeDb) (bundle : WithdrawalBundle) (height : u32) (status : Status) (w : W) :
  submit_block get_block_infos requests (app_node (mi_app s)) main_hash header body = (db, Ok true) ->
  try_get_pending_withdrawal_bundle (nd_state db) = Ok (Some (bundle, height)) -> mi_block_producer s = true ->
  svc_propose_withdrawal_bundle (request.mkProposeWithdrawalBundle (Some THIS_SIDECHAIN) (Some (serialize_tx (wb_tx bundle))))
    (mi_world s) = (inl status, w) ->
  exists s', app_connect_block get_block_infos requests serialize_tx header body main_hash s = (Err (Mine_Node (Proto_Grpc status)), s') /\
    app_node (mi_app s') = db /\ app_wallet (mi_app s') = app_wallet (mi_app s).
Proof.
  intros Hsub Hb Hp Hsvc. set (s1 := set_app (set_node db (mi_app s)) s).
  assert (propose_pending_bundle serialize_tx s1 = (Err (Mine_Node (Proto_Grpc status)), set_world w s1)) as Hprop.
  { unfold propose_pending_bundle.
    etransitivity; [eapply op_step_Ok; unfold reading; cbn; by rewrite Hb|].
    etransitivity; [eapply op_step_Ok; unfold reading; reflexivity|]. cbn [mi_block_producer s1 set_app]. rewrite Hp.
    unfold mainchain, zoom, propose_withdrawal_bundle, unary. cbn [mi_world s1 set_app]. by rewrite Hsvc. }
  exists (set_world w s1). split; [|done]. unfold app_connect_block. apply op_step_Err. unfold node_submit_block.
  etransitivity; [eapply op_step_Ok; unfold app_step, zoom; by rewrite Hsub|]. by apply op_step_Err.
Qed.
