(* ===== verification/Rpc.v ===== *)
(** * The RPC server and the command line

    [src/app/rpc_server.rs]: the methods of the three interfaces of [src/rpc-api/lib.rs], and which of them
    the two servers serve. The state is the application with its miner, the table of peers, and the progress of
    the synchronisation with the mainchain.

    [src/cli/lib.rs]: each command calls one method of the RPC server and renders the answer. [resolve_commit] asks
    the host of a BitName for a document and checks it against the commitment of the name. *)

From S2P Require Import Prelude Types Transaction Rollback BitNames Authorization State Merkle Block.
From S2P Require Import SideTips Lineage Archive ArchiveTree ArchiveWf ArchiveIter MainchainTask Mempool Node NodeTask.
From S2P Require Import Wallet WalletCoins App PeerMessage PeerTask NetAddress Encodings Proto Net NodeQueries MainchainRun Paymail Miner.

(** ** Errors and state *)

(** What [custom_err] renders as the message of an error; every error has the code -1. *)
Inductive RpcCause `{ProtoExternals} : Type :=
| Rpc_Mine (e : MineError)
| Rpc_Query (e : QueryError)
| Rpc_FromHex
| Rpc_Ecies
| Rpc_Fee (e : ComputeFeeError)
| Rpc_DnsResolve (e : ResolvePeerAddress)
| Rpc_ConnectPeer (e : ConnectPeerError).
Record ErrorObject `{ProtoExternals} : Type := mkErrorObject { eo_code : Z; eo_message : RpcCause }.
#[global] Arguments mkErrorObject {_} _ _.
Definition custom_err `{ProtoExternals} (e : RpcCause) : ErrorObject := mkErrorObject (-1)%Z e.

Record Server (W : Type) : Type := mkServer {
  sv_mining : Mining W;
  sv_net : Net;
  sv_progress : MainchainSyncProgress;
}.
Arguments mkServer {W} _ _ _.
Arguments sv_mining {W} _.
Arguments sv_net {W} _.
Arguments sv_progress {W} _.
Definition sv_app {W} (s : Server W) : App := mi_app (sv_mining s).
Definition sv_node {W} (s : Server W) : NodeDb := app_node (sv_app s).
Definition sv_wallet {W} (s : Server W) : Wallet := app_wallet (sv_app s).

(** ** Data of the interfaces *)

Record PointedOutput (O : Type) : Type := mkPointedOutput { po_outpoint : OutPoint; po_output : O }.
Arguments mkPointedOutput {O} _ _.
Record BlockIndexTx : Type := mkBlockIndexTx { bit_txid : Txid; bit_size : u64; bit_raw : str }.
Record BlockIndex : Type := mkBlockIndex {
  bx_txs : list BlockIndexTx;
  bx_deposits : list (OutPoint * FilledOutput);
  bx_bundle_spends : list (OutPoint * M6id);
}.
Record MempoolTx : Type := mkMempoolTx { mt_txid : Txid; mt_size : u64; mt_raw : str; mt_tx : Transaction }.
Record TxInfo : Type := mkTxInfo {
  ti_confirmations : option u32;
  ti_fee_sats : u64;
  ti_txin : option (BlockHash * u32);
}.
Record FullBlock : Type := mkFullBlock { fb_header : Header; fb_body : Body; fb_height : u32 }.
Record GetBlockTemplateResponse : Type := mkGetBlockTemplateResponse {
  gbt_critical_hash : BlockHash;
  gbt_block : FullBlock;
  gbt_fees_sats : u64;
}.

(** The bytes of an address, most significant first: the inverse of [array_of_bytes] *)
Definition address_bytes (address : Types.Address) : bytes := be_bytes 20 address.

Definition bitname_key_le (x y : BitName * BitNameData) : Prop := x.1 <= y.1.
#[export] Instance bitname_key_le_dec : RelDecision bitname_key_le.
Proof. intros x y. unfold bitname_key_le. apply _. Defined.

Section archive.
(** [Archive::try_get_block], [Archive::get_block] *)
Definition try_get_block (a : Archive) (block_hash : BlockHash) : result ArchiveError (option FullBlock) :=
  match ar_bodies a !! block_hash with
  | None => Ok None
  | Some body =>
      header ← get_header a block_hash;
      height ← archive_get_height a block_hash;
      Ok (Some (mkFullBlock header body height))
  end.
Definition archive_get_block (a : Archive) (block_hash : BlockHash) : result ArchiveError FullBlock :=
  block ← try_get_block a block_hash;
  ok_or block (Archive_NoBlock block_hash).
End archive.

Section rpc.
Context `{Externals} `{WorkExternals} `{WalletExternals} `{NetExternals} `{DialExternals}.
Context `{EncodingExternals, ProtoExternals} {W : Type} `{!MainchainServices W}.
Context (get_block_infos : MainBlockHash -> u32 -> option (list (BlockHeaderInfo * BlockInfo))) (requests : nat).
Context (serialize_tx : MainTx -> bytes) (ecies_encrypt : Types.EncryptionPubKey -> bytes -> option bytes).
Definition rpc : Type -> Type := op (Server W) ErrorObject.

Definition set_mining (m : Mining W) (s : Server W) : Server W := mkServer m (sv_net s) (sv_progress s).
Definition set_net (n : Net) (s : Server W) : Server W := mkServer (sv_mining s) n (sv_progress s).
Definition rpc_app_err (e : AppError) : ErrorObject := custom_err (Rpc_Mine (Mine_App e)).

(** Calls of the parts, [.map_err(custom_err)?] *)
Definition mining_call {A} : @mine_op _ W A -> rpc A := zoom sv_mining set_mining (fun e => custom_err (Rpc_Mine e)).
Definition app_call {A} (c : app_op A) : rpc A := mining_call (app_step c).
Definition wallet_call {A} (c : wallet_op A) : rpc A := app_call (wallet_step c).
Definition net_call {E A} (err : E -> RpcCause) : op Net E A -> rpc A :=
  zoom sv_net set_net (fun e => custom_err (err e)).
Definition query {A} (f : NodeDb -> result QueryError A) : rpc A :=
  reading (fun s => map_err (fun e => custom_err (Rpc_Query e)) (f (sv_node s))).
Definition archive_query {A} (f : Archive -> result ArchiveError A) : rpc A :=
  query (fun db => archive_answer (f (nd_archive db))).
Definition state_query {A} (f : State -> result Error A) : rpc A :=
  query (fun db => state_answer (f (nd_state db))).
Definition wallet_query {A} (f : Wallet -> result WalletError A) : rpc A :=
  reading (fun s => map_err (fun e => rpc_app_err (App_Wallet e)) (f (sv_wallet s))).

(** ** The private interface of the node *)

Definition rpc_connect_peer (addr : NetAddress.Address) : rpc unit :=
  resolved_addr ← lifted (map_err (fun e => custom_err (Rpc_DnsResolve e)) (resolve_peer_address lookup_ip addr));
  net_call Rpc_ConnectPeer (connect_peer resolved_addr).
Definition rpc_forget_peer (addr : NetAddress.Address) : rpc unit :=
  writing (fun s => set_net (forget_peer addr (sv_net s)).1 s).
Definition rpc_invalidate_block (block_hash : BlockHash) : rpc unit :=
  app_call (fun a =>
    match node_invalidate_block (app_node a) block_hash with
    | Ok db => (Ok tt, set_node db a)
    | Err e => (Err (App_Node e), a)
    | Panic => (Panic, a)
    end).

(** [std::process::exit(0)]: the call is not answered. *)
Definition rpc_stop : rpc unit := fun s => (Panic, s).

(** ** The interface of the node *)

Definition rpc_bitname_data (bitname_id : BitName) : rpc BitNameView :=
  state_query (fun s => map_err Error_BitName (get_current_bitname_data (st_bitnames s) bitname_id)).
(** in the order of the keys *)
Definition rpc_bitnames : rpc (list (BitName * BitNameView)) :=
  state_query (fun s => Ok (prod_map id bitname_data_current <$>
    merge_sort bitname_key_le (map_to_list (db_bitnames (st_bitnames s))))).
Definition rpc_connect_block (block : FullBlock) (main_block_hash : MainBlockHash) : rpc bool :=
  mining_call (app_connect_block get_block_infos requests serialize_tx (fb_header block) (fb_body block) main_block_hash).
(** [.expect(..)] *)
Definition rpc_get_block (block_hash : BlockHash) : rpc FullBlock :=
  reading (fun s => match archive_get_block (nd_archive (sv_node s)) block_hash with
                    | Ok block => Ok block
                    | _ => Panic
                    end).
Definition rpc_get_best_sidechain_block_hash : rpc (option BlockHash) := state_query (fun s => Ok (try_get_tip s)).
Definition rpc_get_best_mainchain_block_hash : rpc (option MainBlockHash) :=
  sidechain_hash ← state_query (fun s => Ok (try_get_tip s));
  match sidechain_hash with
  | None => mret None
  | Some sidechain_hash =>
      block_hash ← archive_query (fun a => get_best_main_verification a sidechain_hash);
      mret (Some block_hash)
  end.
Definition rpc_get_block_hash (height : u32) : rpc (option BlockHash) := query (fun db => try_get_block_hash db height).

Definition canonical_encoding (tx : Transaction) : bytes := borsh_transaction tx.
Definition block_index_tx (tx : Transaction) : BlockIndexTx :=
  mkBlockIndexTx (txid tx) (canonical_size tx) (hex_encode (canonical_encoding tx)).
Definition rpc_get_block_index (block_hash : BlockHash) : rpc BlockIndex :=
  body ← archive_query (fun a => get_body a block_hash);
  let txs := block_index_tx <$> bd_transactions body in
  events ← query (fun db => node_get_block_index_events db block_hash);
  mret (mkBlockIndex txs (bie_deposits events) (bie_bundle_spends events)).
Definition rpc_get_bmm_inclusions (block_hash : BlockHash) : rpc (list MainBlockHash) :=
  archive_query (fun a => Ok (elements (get_bmm_inclusions a block_hash))).
Definition rpc_get_paymail : rpc (gmap OutPoint FilledOutput) :=
  reading (fun s => map_err rpc_app_err (get_paymail (sv_app s) None)).

Definition pointed_outputs {O} (outputs : gmap OutPoint O) : list (PointedOutput O) :=
  (fun e : OutPoint * O => mkPointedOutput e.1 e.2) <$> hashmap_iter outputs.
Definition rpc_get_stxos (addresses : gset Types.Address) : rpc (list (PointedOutput SpentOutput)) :=
  state_query (fun s => Ok (pointed_outputs (get_stxos_by_addresses s addresses))).
Definition rpc_get_utxos (addresses : gset Types.Address) : rpc (list (PointedOutput FilledOutput)) :=
  state_query (fun s => Ok (pointed_outputs (get_utxos_by_addresses s addresses))).
Definition rpc_list_stxos : rpc (list (PointedOutput SpentOutput)) :=
  state_query (fun s => Ok (pointed_outputs (st_stxos s))).
Definition rpc_list_utxos : rpc (list (PointedOutput FilledOutput)) :=
  state_query (fun s => Ok (pointed_outputs (st_utxos s))).
Definition rpc_get_transaction (txid : Txid) : rpc (option Transaction) := query (fun db => try_get_transaction db txid).
Definition rpc_get_authorized_transaction (txid : Txid) : rpc (option AuthorizedTransaction) :=
  query (fun db => get_authorized_transaction db txid).

Definition rpc_get_transaction_info (txid : Txid) : rpc (option TxInfo) :=
  found ← query (fun db => try_get_filled_transaction db txid);
  match found with
  | None => mret None
  | Some (filled_tx, _, txin) =>
      confirmations ←
        match txin with
        | Some (block_hash, _) =>
            tip_height ← state_query (fun s => Ok (try_get_height s));
            tip_height ← lifted (expect tip_height);
            height ← archive_query (fun a => archive_get_height a block_hash);
            mret (Some (u32_sub tip_height height))
        | None => mret None
        end;
      fee_sats ← lifted (map_err (fun e => custom_err (Rpc_Fee e)) (fee filled_tx));
      mret (Some (mkTxInfo confirmations fee_sats txin))
  end.

Definition rpc_getblockcount : rpc u32 :=
  height ← state_query (fun s => Ok (try_get_height s));
  mret (match height with None => 0 | Some height => u32_add height 1 end).
Definition rpc_latest_failed_withdrawal_bundle_height : rpc (option u32) :=
  state_query (fun s => fmap (M := option) fst <$> get_latest_failed_withdrawal_bundle s).
Definition mempool_tx (authorized : AuthorizedTransaction) : MempoolTx :=
  let tx := at_transaction authorized in
  mkMempoolTx (txid tx) (canonical_size tx) (hex_encode (canonical_encoding tx)) tx.
Definition rpc_list_mempool : rpc (list MempoolTx) := query (fun db => Ok (mempool_tx <$> take_all (nd_mempool db))).
Definition rpc_list_peers : rpc (list Peer) := reading (fun s => Ok (get_active_peers (sv_net s))).
Definition rpc_mainchain_sync_progress : rpc MainchainSyncProgress := reading (fun s => Ok (sv_progress s)).
Definition rpc_pending_withdrawal_bundle : rpc (option WithdrawalBundle) :=
  state_query (fun s => fmap (M := option) fst <$> try_get_pending_withdrawal_bundle s).
Definition rpc_sidechain_wealth_sats : rpc u64 := state_query sidechain_wealth.

(** [App::broadcast_transaction]: the wallet is updated whatever the node answered. *)
Definition server_broadcast_transaction (tx : AuthorizedTransaction) : rpc (Txid * N) := fun s =>
  let '(res, (db, n)) := node_broadcast_transaction tx (sv_node s, sv_net s) in
  let s := set_net n s in
  let s := set_mining (set_app (set_node db (sv_app s)) (sv_mining s)) s in
  (_ ← app_call update; lifted (map_err (fun e => custom_err (Rpc_Query e)) res)) s.
Definition rpc_broadcast_transaction : AuthorizedTransaction -> rpc (Txid * N) := server_broadcast_transaction.
Definition rpc_rebroadcast_transaction (txid : Txid) : rpc (Txid * N) := fun s =>
  let '(res, (db, n)) := rebroadcast_transaction txid (sv_node s, sv_net s) in
  let s := set_net n s in
  (map_err (fun e => custom_err (Rpc_Query e)) res, set_mining (set_app (set_node db (sv_app s)) (sv_mining s)) s).
Definition server_submit_transaction (tx : AuthorizedTransaction) : rpc unit :=
  _ ← server_broadcast_transaction tx;
  mret tt.
Definition rpc_submit_transaction (transaction : AuthorizedTransaction) : rpc Txid :=
  _ ← server_submit_transaction transaction;
  mret (txid (at_transaction transaction)).

(** ** The interface of the wallet *)

(** [App::sign_and_send] *)
Definition server_sign_and_send (rngs : nat -> N) (tx : Transaction) : rpc unit :=
  authorized_transaction ← wallet_query (fun w => wallet_authorize w rngs tx);
  server_submit_transaction authorized_transaction.
(** The end of the methods that build a transaction *)
Definition send_built (rngs : nat -> N) (build : wallet_op Transaction) : rpc Txid :=
  tx ← wallet_call build;
  _ ← server_sign_and_send rngs tx;
  mret (txid tx).

Definition rpc_balance : rpc Balance := wallet_query get_balance.
Definition rpc_create_deposit (address : Types.Address) (value_sats fee_sats : u64) : rpc Hash :=
  mining_call (app_deposit (address_bytes address) value_sats fee_sats).
Definition rpc_create_transfer (rngs : nat -> N) (dest : Types.Address) (value_sats fee_sats : u64) (memo : option str)
  : rpc Txid :=
  memo ← match memo with
         | None => mret None
         | Some memo =>
             hex ← lifted (ok_or (hex_decode memo) (custom_err Rpc_FromHex));
             mret (Some hex)
         end;
  send_built rngs (create_transfer dest value_sats fee_sats memo).
Definition rpc_create_transfer_many (rngs : nat -> N) (dests : list (Types.Address * u64)) (fee_sats : u64) : rpc Txid :=
  send_built rngs (create_transfer_many dests fee_sats).
Definition rpc_create_withdrawal (rngs : nat -> N) (mainchain_address : MainAddress)
    (amount_sats fee_sats mainchain_fee_sats : u64) : rpc Txid :=
  send_built rngs (create_withdrawal mainchain_address amount_sats mainchain_fee_sats fee_sats).
Definition rpc_decrypt_msg (encryption_pubkey : Types.EncryptionPubKey) (msg : str) : rpc str :=
  ciphertext ← lifted (ok_or (hex_decode msg) (custom_err Rpc_FromHex));
  plaintext ← wallet_query (fun w => decrypt_msg w encryption_pubkey ciphertext);
  mret (hex_encode plaintext).
Definition rpc_encrypt_msg (encryption_pubkey : Types.EncryptionPubKey) (msg : string) : rpc str :=
  ciphertext ← lifted (ok_or (ecies_encrypt encryption_pubkey (string_bytes msg)) (custom_err Rpc_Ecies));
  mret (hex_encode ciphertext).
Definition rpc_format_deposit_address (address : Types.Address) : rpc str :=
  mret (format_for_deposit (address_bytes address)).
(** [mnemonic]: the one that [bip39::Mnemonic::new] makes *)
Definition rpc_generate_mnemonic (mnemonic : string) : rpc string := mret mnemonic.
Definition rpc_get_block_template : rpc GetBlockTemplateResponse :=
  template ← mining_call (template_at_tip get_block_infos requests None);
  mret (mkGetBlockTemplateResponse (header_hash (tpl_header template))
    (mkFullBlock (tpl_header template) (tpl_body template) (tpl_height template)) (tpl_fees template)).
Definition rpc_get_new_address : rpc Types.Address := wallet_call get_new_address.
Definition rpc_get_new_encryption_key : rpc Types.EncryptionPubKey := wallet_call get_new_encryption_key.
Definition rpc_get_new_verifying_key : rpc Types.VerifyingKey := wallet_call get_new_verifying_key.

(** [res.sort_by_key(|addr| addr.as_base58())] *)
Definition base58_le (a b : Types.Address) : Prop := bytes_le (as_base58 (address_bytes a)) (as_base58 (address_bytes b)).
#[export] Instance base58_le_dec : RelDecision base58_le.
Proof. intros a b. unfold base58_le. apply _. Defined.
Definition rpc_get_wallet_addresses : rpc (list Types.Address) :=
  wallet_query (fun w => Ok (merge_sort base58_le (elements (get_addresses w)))).
Definition rpc_get_wallet_master_xesk : rpc XPrv := wallet_query get_master_xesk.
Definition rpc_get_wallet_master_xvk : rpc XPub := wallet_query get_master_xvk.
Definition rpc_get_wallet_utxos : rpc (list (PointedOutput FilledOutput)) :=
  wallet_query (fun w => Ok (pointed_outputs (w_utxos w))).
Definition rpc_mine (fee : option u64) : rpc unit := mining_call (mine get_block_infos requests serialize_tx fee).
Definition rpc_my_utxos : rpc (list (PointedOutput FilledOutput)) := rpc_get_wallet_utxos.
Definition mutable_default : MutableBitNameData := mkMutableBitNameData None None None None None None.
Definition rpc_register_bitname (rngs : nat -> N) (plain_name : string) (bitname_data : option MutableBitNameData)
  : rpc Txid :=
  send_built rngs (register_bitname (tx_new [] []) plain_name (default mutable_default bitname_data)).
Definition rpc_reserve_bitname (rngs : nat -> N) (plain_name : string) : rpc Txid :=
  send_built rngs (reserve_bitname (tx_new [] []) plain_name).
Definition rpc_set_seed_from_mnemonic (mnemonic : string) : rpc unit := wallet_call (set_seed_from_mnemonic mnemonic).
Definition rpc_sign_arbitrary_msg (rng : N) (verifying_key : Types.VerifyingKey) (msg : string) : rpc Signature :=
  wallet_query (fun w => sign_arbitrary_msg w rng verifying_key msg).
Definition rpc_sign_arbitrary_msg_as_addr (rng : N) (address : Types.Address) (msg : string) : rpc Authorization :=
  wallet_query (fun w => sign_arbitrary_msg_as_addr w rng address msg).
Definition rpc_sign_transaction (rngs : nat -> N) (transaction : Transaction) (broadcast : option bool)
  : rpc AuthorizedTransaction :=
  authorized ← wallet_query (fun w => wallet_authorize w rngs transaction);
  _ ← match broadcast with
      | Some true => server_submit_transaction authorized
      | _ => mret tt
      end;
  mret authorized.
Definition rpc_verify_signature (signature : Signature) (verifying_key : Types.VerifyingKey) (dst : Dst) (msg : string) : rpc bool :=
  mret (verify signature verifying_key dst (string_bytes msg)).
End rpc.

(** ** The servers *)

(** The interfaces of [rpc-api], with the names of their methods *)
Inductive Api : Type := Api_OpenApi | Api_PrivateNode | Api_Node | Api_Wallet.
#[export] Instance Api_eq_dec : EqDecision Api.
Proof. solve_decision. Defined.
Definition open_api_methods : list string := ["openapi_schema"%string].
Definition private_node_methods : list string := ["connect_peer"; "forget_peer"; "invalidate_block"; "stop"]%string.
Definition node_methods : list string :=
  ["broadcast_transaction"; "bitname_data"; "bitnames"; "connect_block"; "get_block"; "get_block_hash";
   "get_block_index"; "get_bmm_inclusions"; "get_best_mainchain_block_hash"; "get_best_sidechain_block_hash";
   "get_paymail"; "get_stxos"; "get_transaction"; "get_authorized_transaction"; "get_transaction_info";
   "get_utxos"; "getblockcount"; "latest_failed_withdrawal_bundle_height"; "list_mempool"; "list_peers";
   "list_stxos"; "list_utxos"; "mainchain_sync_progress"; "pending_withdrawal_bundle";
   "rebroadcast_transaction"; "sidechain_wealth"; "submit_transaction"]%string.
Definition wallet_methods : list string :=
  ["balance"; "create_deposit"; "create_transfer"; "create_transfer_many"; "create_withdrawal"; "decrypt_msg";
   "encrypt_msg"; "format_deposit_address"; "generate_mnemonic"; "get_block_template"; "get_new_address";
   "get_new_encryption_key"; "get_new_verifying_key"; "get_wallet_addresses"; "get_wallet_master_xvk";
   "get_wallet_master_xesk"; "get_wallet_utxos"; "mine"; "my_utxos"; "register_bitname"; "reserve_bitname";
   "set_seed_from_mnemonic"; "sign_arbitrary_msg"; "sign_arbitrary_msg_as_addr"; "sign_transaction";
   "verify_signature"]%string.
Definition api_methods (api : Api) : list string :=
  match api with
  | Api_OpenApi => open_api_methods
  | Api_PrivateNode => private_node_methods
  | Api_Node => node_methods
  | Api_Wallet => wallet_methods
  end.

(** [RpcModule::merge]: [Err] of a method that both modules have *)
Fixpoint merge_methods (methods other : list string) : result string (list string) :=
  match other with
  | [] => Ok methods
  | method :: other =>
      if decide (method ∈ methods) then Err method else merge_methods (methods ++ [method]) other
  end.
Definition merge_apis (api : Api) (apis : list Api) : result string (list string) :=
  fold_res (fun methods api => merge_methods methods (api_methods api)) apis (api_methods api).

(** The servers that [run_server] starts, with their addresses and methods *)
Definition run_server (private_rpc_addr rpc_addr : SocketAddr) : result string (list (SocketAddr * list string)) :=
  if decide (private_rpc_addr = rpc_addr) then
    rpc_module ← merge_apis Api_OpenApi [Api_PrivateNode; Api_Node; Api_Wallet];
    Ok [(rpc_addr, rpc_module)]
  else
    rpc_module ← merge_apis Api_OpenApi [Api_Node];
    private_rpc_module ← merge_apis Api_OpenApi [Api_PrivateNode; Api_Wallet];
    Ok [(rpc_addr, rpc_module); (private_rpc_addr, private_rpc_module)].

(** ** Properties *)

Lemma apis_disjoint api api' method : method ∈ api_methods api -> method ∈ api_methods api' -> api = api'.
Proof.
  intros Hm Hm'. assert (Forall (fun m => api = api' \/ m ∉ api_methods api') (api_methods api)) as Hf.
  { destruct api, api'; apply (bool_decide_unpack _); vm_compute; exact I. }
  rewrite Forall_forall in Hf. by destruct (Hf method Hm).
Qed.

(** The servers start: no two interfaces name a method alike. Every method is served. With two addresses the methods of the
    wallet, and those that change the node, are served at the private one and at no other. *)
Theorem run_server_serves (private_rpc_addr rpc_addr : SocketAddr) :
  exists servers, run_server private_rpc_addr rpc_addr = Ok servers /\
    (forall api method, method ∈ api_methods api -> exists addr methods, (addr, methods) ∈ servers /\ method ∈ methods) /\
    (private_rpc_addr <> rpc_addr ->
     forall addr methods api method, (addr, methods) ∈ servers -> method ∈ methods -> method ∈ api_methods api ->
     (api = Api_PrivateNode \/ api = Api_Wallet -> addr = private_rpc_addr) /\ (api = Api_Node -> addr = rpc_addr)).
Proof.
  unfold run_server. destruct (decide (private_rpc_addr = rpc_addr)) as [->|Hne].
  - exists [(rpc_addr, api_methods Api_OpenApi ++ api_methods Api_PrivateNode ++ api_methods Api_Node ++ api_methods Api_Wallet)].
    split; [vm_compute; reflexivity|]. split; [|done]. intros api method Hin.
    eexists _, _. split; [apply list_elem_of_here|]. rewrite !elem_of_app. destruct api; auto.
  - exists [(rpc_addr, api_methods Api_OpenApi ++ api_methods Api_Node);
            (private_rpc_addr, api_methods Api_OpenApi ++ api_methods Api_PrivateNode ++ api_methods Api_Wallet)].
    split; [vm_compute; reflexivity|]. split.
    + intros api method Hin. destruct api.
      1,3: eexists _, _; split; [apply list_elem_of_here|]; rewrite elem_of_app; auto.
      all: eexists _, _; split; [apply list_elem_of_further, list_elem_of_here|]; rewrite !elem_of_app; auto.
    + intros _ addr methods api method [[-> ->]%pair_eq|[[-> ->]%pair_eq|[]%not_elem_of_nil]%elem_of_cons]%elem_of_cons Hm Ha;
        rewrite !elem_of_app in Hm; destruct_or! Hm; pose proof (apis_disjoint _ _ _ Hm Ha); subst api; naive_solver.
Qed.

(** The block count counts the blocks of the current chain: a height has a block if and only if it is below the count. *)
Theorem block_count_exact `{Externals} `{ProtoExternals} {W : Type} (s : Server W) (tip : BlockHash) (k : u32) :
  archive_wf (nd_archive (sv_node s)) -> try_get_tip (nd_state (sv_node s)) = Some tip ->
  try_get_height (nd_state (sv_node s)) = Some k -> archive_try_get_height (nd_archive (sv_node s)) tip = Some k ->
  k < u32_MAX ->
  exists n, rpc_getblockcount s = (Ok n, s) /\
    forall h, (exists b, rpc_get_block_hash h s = (Ok (Some b), s)) <-> h < n.
Proof.
  intros Hw Ht Hh Hk Hmax. exists (k + 1). split.
  { unfold rpc_getblockcount, state_query, query, reading, mbind, op_bind. cbn [map_err state_answer]. rewrite Hh.
    unfold u32_add. by rewrite N.mod_small by (unfold u32_MAX in Hmax; lia). }
  assert (forall h, (exists b, rpc_get_block_hash h s = (Ok (Some b), s)) <->
    exists b, try_get_block_hash (sv_node s) h = Ok (Some b)) as Heq.
  { intros h. unfold rpc_get_block_hash, query, reading. destruct (try_get_block_hash (sv_node s) h); naive_solver. }
  intros h. rewrite (Heq h). unfold try_get_block_hash. rewrite Ht, Hh. destruct (N.leb_spec h k) as [Hle|Hgt].
  - rewrite (ancestors_nth_Ok _ tip k _ Hw Hk) by lia. unfold archive_answer. cbn [map_err].
    destruct (ancestor_at_Some (index_tree _ (aw_side _ Hw)) (N.to_nat (k - h)) tip k Hk) as (c & Hc & _); [lia|].
    split; [lia|]. intros _. exists c. by rewrite Hc.
  - split; [by intros [b [=]]|lia].
Qed.

Lemma find_included_Some db l b i : find_included db l = Ok (Some (b, i)) ->
  (exists tip, try_get_tip (nd_state db) = Some tip /\ is_descendant (nd_archive db) b tip = Ok true) \/ try_get_tip (nd_state db) = None.
Proof.
  induction l as [|[c j] l IH]; [done|]. cbn [find_included]. intros Hf. apply bind_Ok in Hf as (found & Hd & Hf).
  destruct found; [|by apply IH]. injection Hf as <- <-. destruct (try_get_tip (nd_state db)) as [tip|]; [|by right].
  left. by exists tip.
Qed.
Lemma filled_transaction_included `{Externals} db t filled auths txin :
  try_get_filled_transaction db t = Ok (Some (filled, auths, txin)) ->
  match txin with
  | Some (b, i) => (exists tip, try_get_tip (nd_state db) = Some tip /\ is_descendant (nd_archive db) b tip = Ok true) \/
      try_get_tip (nd_state db) = None
  | None => is_Some (mp_transactions (nd_mempool db) !! t)
  end.
Proof.
  unfold try_get_filled_transaction. intros Hq. apply bind_Ok in Hq as (included & Hi%map_err_Ok & Hq).
  destruct included as [[b i]|].
  - res_inv. simplify_eq/=. by apply find_included_Some in Hi.
  - destruct (mp_transactions (nd_mempool db) !! t) as [atx|]; [|done].
    destruct (fill_authorized_transaction (nd_state db) atx) as [[f au]|[]|]; by simplify_eq.
Qed.

(** Confirmations count the blocks on top of the one that includes the transaction, which is on the current chain, and the fee is
    the one of the transaction with the outputs it has spent. *)
Theorem transaction_info_exact `{Externals} `{ProtoExternals} {W : Type} (s s' : Server W) (t : Txid) (info : TxInfo)
    (tip : BlockHash) (k : u32) :
  archive_wf (nd_archive (sv_node s)) -> try_get_tip (nd_state (sv_node s)) = Some tip ->
  try_get_height (nd_state (sv_node s)) = Some k -> archive_try_get_height (nd_archive (sv_node s)) tip = Some k ->
  k <= u32_MAX -> rpc_get_transaction_info t s = (Ok (Some info), s') ->
  s' = s /\
  (exists filled auths, try_get_filled_transaction (sv_node s) t = Ok (Some (filled, auths, ti_txin info)) /\
     fee filled = Ok (ti_fee_sats info)) /\
  match ti_txin info with
  | None => ti_confirmations info = None /\ is_Some (mp_transactions (nd_mempool (sv_node s)) !! t)
  | Some (b, i) =>
      exists h, archive_try_get_height (nd_archive (sv_node s)) b = Some h /\ h <= k /\ ti_confirmations info = Some (k - h) /\
        ancestor (ix_parent (side_index (nd_archive (sv_node s)))) b tip
  end.
Proof.
  intros Hw Ht Hh Hk Hmax Hr. unfold rpc_get_transaction_info in Hr. apply op_bind_Ok in Hr as (found & s1 & Hq & Hr).
  unfold query in Hq. apply reading_Ok in Hq as [Hq%map_err_Ok ->]. destruct found as [[[filled auths] txin]|]; [|by injection Hr].
  pose proof (filled_transaction_included _ _ _ _ _ Hq) as Hinc. apply op_bind_Ok in Hr as (conf & s1 & Hc & Hr).
  apply op_bind_Ok in Hr as (fee_sats & s2 & (Hf%map_err_Ok & ->)%lifted_Ok & Hr). injection Hr as <- <-. cbn [ti_txin ti_fee_sats ti_confirmations].
  destruct txin as [[b i]|].
  - destruct Hinc as [Hd|Hnone]; [|congruence]. destruct Hd as (tip' & Htip & Hd). assert (tip' = tip) as -> by congruence.
    unfold state_query, archive_query, query in Hc. op_inv. injection Ho as <-. apply expect_Ok in Ho0. rewrite Hh in Ho0. injection Ho0 as <-.
    apply map_err_Ok, map_err_Ok, ok_or_Ok in Ho1.
    destruct (descends_Ok (side_lineage_ok _ (aw_side _ Hw)) b tip _ _ Ho1 Hk) as (r & Hr & Hiff).
    unfold is_descendant in Hd. rewrite Hr in Hd. injection Hd as ->. pose proof (proj1 Hiff eq_refl) as Hanc.
    apply (ancestor_spec (index_tree _ (aw_side _ Hw)) _ _ k Hk) in Hanc as Hs. destruct Hs as (kb & Hle & Hkb & _).
    change (archive_try_get_height (nd_archive (sv_node s)) b = Some kb) in Hkb. assert (kb = x1) as -> by congruence.
    split; [done|]. split; [by exists filled, auths|]. exists x1. split_and!; [done|done| |done]. f_equal. unfold u32_sub.
    replace (k + 2 ^ 32 - x1) with ((k - x1) + 1 * 2 ^ 32) by lia. rewrite N.Div0.mod_add. apply N.mod_small. unfold u32_MAX in Hmax. lia.
  - injection Hc as <- <-. split; [done|]. split; [by exists filled, auths|]. by split.
Qed.

(** ** Sending *)

Section sending.
Context `{Externals} `{WorkExternals} `{WalletExternals} `{NetExternals}.
Context `{ProtoExternals} {W : Type}.
Implicit Types (s : Server W).

Lemma zoom_eq {S T E F A} (get : S -> T) (put : T -> S -> S) (err : E -> F) (c : op T E A) w a w' :
  zoom get put err c w = (Ok a, w') -> exists t, c (get w) = (Ok a, t) /\ w' = put t w.
Proof. unfold zoom. destruct (c (get w)) as [[x|e|] t] eqn:Hc; intros [= <- <-]. by exists t. Qed.

Lemma wallet_call_Ok {A} (c : wallet_op A) s a s' :
  wallet_call c s = (Ok a, s') -> exists w, c (sv_wallet s) = (Ok a, w) /\ sv_wallet s' = w /\ sv_node s' = sv_node s /\ sv_net s' = sv_net s.
Proof.
  unfold wallet_call, app_call, mining_call, app_step, wallet_step. intros Hc.
  apply zoom_eq in Hc as (t & Hc & ->). apply zoom_eq in Hc as (t' & Hc & ->). apply zoom_eq in Hc as (w & Hc & ->). by exists w.
Qed.

Lemma broadcast_transaction_Ok db atx db' stored :
  broadcast_transaction db atx = Ok (db', stored) ->
  is_ok (validate_transaction (nd_state db) atx) = true /\ nd_state db' = nd_state db /\
  mp_transactions (nd_mempool db') !! txid (at_transaction atx) = Some stored /\
  (mp_transactions (nd_mempool db) !! txid (at_transaction atx) = None -> stored = atx).
Proof.
  unfold broadcast_transaction. intros Hb. apply bind_Ok in Hb as (f & Hv%map_err_Ok & Hb).
  split; [by rewrite Hv|]. destruct (mp_transactions (nd_mempool db) !! _) as [st|] eqn:Hp.
  { injection Hb as <- <-. by rewrite Hp. }
  apply bind_Ok in Hb as (pool & Hput%map_err_Ok & [= <- <-]). split; [done|]. cbn [nd_mempool]. split; [|done].
  unfold put in Hput. apply bind_Ok in Hput as (spent & _ & [= <-]). cbn. by rewrite lookup_insert_eq.
Qed.

Lemma update_pending db w t atx o :
  mp_transactions (nd_mempool db) !! t = Some atx -> o ∈ tx_inputs (at_transaction atx) ->
  o ∈ w_pending_inputs (update_wallet db w).
Proof.
  intros Hm Ho. unfold update_wallet, set_pending_transactions. cbn [w_pending_inputs set_pending_inputs].
  apply elem_of_list_to_set, list_elem_of_In, List.in_concat. exists (tx_inputs (at_transaction atx)).
  rewrite <-!list_elem_of_In. split; [|done]. apply list_elem_of_fmap. exists atx. split; [done|]. apply take_all_elem. by exists t.
Qed.

(** A transaction that was broadcast is in the pool, and the wallet has reserved its inputs. *)
Lemma server_broadcast_Ok atx s r s' :
  server_broadcast_transaction atx s = (Ok r, s') ->
  is_ok (validate_transaction (nd_state (sv_node s)) atx) = true /\ nd_state (sv_node s') = nd_state (sv_node s) /\
  exists stored, mp_transactions (nd_mempool (sv_node s')) !! txid (at_transaction atx) = Some stored /\
    (mp_transactions (nd_mempool (sv_node s)) !! txid (at_transaction atx) = None -> stored = atx) /\
    forall o, o ∈ tx_inputs (at_transaction stored) -> o ∈ w_pending_inputs (sv_wallet s').
Proof.
  unfold server_broadcast_transaction. intros Hb.
  destruct (node_broadcast_transaction atx (sv_node s, sv_net s)) as [res [db n]] eqn:Hn.
  apply op_bind_Ok in Hb as (u & s1 & Hu & Hb). apply lifted_Ok in Hb as [Hres%map_err_Ok ->]. subst res.
  unfold node_broadcast_transaction in Hn. cbn [fst snd] in Hn.
  destruct (broadcast_transaction (sv_node s) atx) as [[db' stored]|e|] eqn:Hbt; [|done..].
  destruct (push_tx None ∅ stored (sv_net s)) as [[c|a|] n']; [|done..]. injection Hn as _ <- _.
  apply broadcast_transaction_Ok in Hbt as (Hv & Hst & Hp & Hnew).
  unfold app_call, mining_call, app_step in Hu. apply zoom_eq in Hu as (t & Hu & ->). apply zoom_eq in Hu as (t' & Hu & ->).
  injection Hu as _ <-. split; [done|]. split; [done|]. exists stored. split_and!; [done|done|]. intros o Ho.
  by apply (update_pending db' _ (txid (at_transaction atx)) stored).
Qed.

Lemma send_built_Ok rngs build s t s' :
  send_built rngs build s = (Ok t, s') ->
  exists tx w auths, build (sv_wallet s) = (Ok tx, w) /\ t = txid tx /\
    wallet_authorize w rngs tx = Ok (mkAuthorizedTransaction tx auths) /\
    is_ok (validate_transaction (nd_state (sv_node s)) (mkAuthorizedTransaction tx auths)) = true /\
    nd_state (sv_node s') = nd_state (sv_node s) /\
    exists stored, mp_transactions (nd_mempool (sv_node s')) !! t = Some stored /\
      (mp_transactions (nd_mempool (sv_node s)) !! t = None -> stored = mkAuthorizedTransaction tx auths) /\
      forall o, o ∈ tx_inputs (at_transaction stored) -> o ∈ w_pending_inputs (sv_wallet s').
Proof.
  unfold send_built, server_sign_and_send, server_submit_transaction. intros Hs.
  apply op_bind_Ok in Hs as (tx & s1 & Hb & Hs). apply wallet_call_Ok in Hb as (w & Hb & Hw & Hn & _).
  apply op_bind_Ok in Hs as (u & s2 & Hsend & [-> ->]%op_ret_Ok).
  apply op_bind_Ok in Hsend as (atx & s3 & Ha & Hsend). unfold wallet_query in Ha. apply reading_Ok in Ha as [Ha%map_err_Ok ->].
  apply op_bind_Ok in Hsend as (r & s4 & Hbr & [_ ->]%op_ret_Ok). apply server_broadcast_Ok in Hbr. rewrite Hw in Ha. rewrite Hn in Hbr.
  assert (at_transaction atx = tx) as Hat.
  { unfold wallet_authorize in Ha. res_inv. by simplify_eq/=. }
  destruct atx as [tx' auths]. cbn in Hat. subst tx'. by exists tx, w, auths.
Qed.
End sending.

(** A coin that a pending transaction spends is not selected. *)
Lemma select_coins_not_pending `{Externals} `{WalletExternals} (w : Wallet) value total coins o :
  par_sort_spec -> o ∈ w_pending_inputs w -> select_coins w value = Ok (total, coins) -> coins !! o = None.
Proof.
  intros Hsort Hp Hc. destruct (coins !! o) as [out|] eqn:Hout; [|done]. exfalso.
  apply select_coins_Ok in Hc as (_ & _ & _ & Hsub); [|done]. apply (lookup_weaken _ (spendable w)) in Hout; [|done].
  unfold spendable in Hout. apply map_lookup_filter_Some in Hout as [_ Hsk]. cbn [fst snd] in Hsk. unfold skipped in Hsk.
  by rewrite bool_decide_true in Hsk.
Qed.
(** An update of the wallet reserves the inputs of every transaction of the pool. *)
Lemma update_wallet_pending `{Externals} `{WalletExternals} (db : NodeDb) (w : Wallet) t atx o :
  mp_transactions (nd_mempool db) !! t = Some atx -> o ∈ tx_inputs (at_transaction atx) ->
  o ∈ w_pending_inputs (update_wallet db w).
Proof.
  intros Ht Ho. unfold update_wallet. cbn. apply elem_of_list_to_set, list_elem_of_In, in_concat.
  exists (tx_inputs (at_transaction atx)). split; [|by apply list_elem_of_In].
  apply list_elem_of_In, list_elem_of_fmap. exists atx. split; [done|]. apply take_all_elem. by exists t.
Qed.

(** C24 A transaction that was not in the pool, and that a method of the wallet reports as sent, was built by
    the wallet, signed, and accepted by the state, which has not changed; it is in the pool. Its inputs are
    reserved: the selection of coins picks none of them, in the wallet as it is left and in every wallet that is
    updated from a node that still has the transaction in its pool. This is about the selection of coins:
    [register_bitname] finds the reservation that it spends without it. *)
Theorem sent_transaction_reserved `{Externals} `{WorkExternals} `{WalletExternals} `{NetExternals} `{ProtoExternals} {W : Type}
    (rngs : nat -> N) (build : wallet_op Transaction) (s s' : Server W) (t : Txid) :
  par_sort_spec -> mp_transactions (nd_mempool (sv_node s)) !! t = None ->
  send_built rngs build s = (Ok t, s') ->
  exists tx w atx, build (sv_wallet s) = (Ok tx, w) /\ wallet_authorize w rngs tx = Ok atx /\ txid tx = t /\
    is_ok (validate_transaction (nd_state (sv_node s)) atx) = true /\
    mp_transactions (nd_mempool (sv_node s')) !! t = Some atx /\ nd_state (sv_node s') = nd_state (sv_node s) /\
    forall w', w' = sv_wallet s' \/
        (exists db w0, mp_transactions (nd_mempool db) !! t = Some atx /\ w' = update_wallet db w0) ->
      forall value total coins o, select_coins w' value = Ok (total, coins) ->
        o ∈ tx_inputs (at_transaction atx) -> coins !! o = None.
Proof.
  intros Hsort Hnew Hs. apply send_built_Ok in Hs as (tx & w & auths & Hb & -> & Ha & Hv & Hst & stored & Hp & Hnew' & Hres).
  rewrite (Hnew' Hnew) in *. exists tx, w, (mkAuthorizedTransaction tx auths). split_and!; try done.
  intros w' Hw' value total coins o Hc Ho. apply (select_coins_not_pending w' value total); [done| |done].
  destruct Hw' as [->|(db & w0 & Hdb & ->)]; [by apply Hres|by eapply update_wallet_pending].
Qed.

(** A block that the node does not have, such as one whose body it has not got yet, makes [get_block] panic. *)
Theorem get_block_unknown_panics `{Externals} `{ProtoExternals} {W : Type} (s : Server W) (b : BlockHash) :
  (ar_bodies (nd_archive (sv_node s)) !! b = None -> rpc_get_block b s = (Panic, s)) /\
  (forall e, rpc_get_block b s <> (Err e, s)).
Proof.
  unfold rpc_get_block, reading, archive_get_block, try_get_block. split.
  - intros ->. done.
  - intros e. destruct (ar_bodies _ !! b); [|done]. by destruct (get_header _ b) as [h| |], (archive_get_height _ b).
Qed.

Lemma be_bytes_array n : forall v, v < 256 ^ N.of_nat n -> array_of_bytes (be_bytes n v) = v.
Proof.
  induction n as [|n IH]; intros v Hv.
  { rewrite N.pow_0_r in Hv. assert (v = 0) as -> by lia. done. }
  rewrite be_bytes_S. unfold array_of_bytes in *. rewrite foldl_app. cbn [foldl].
  rewrite Nat2N.inj_succ, N.pow_succ_r' in Hv. rewrite IH by (apply N.Div0.div_lt_upper_bound; lia).
  symmetry. apply N.div_mod'.
Qed.

(** A deposit comes back to the address it was made for: what [create_deposit] names to the mainchain wallet, and what
    [format_deposit_address] answers, is read as this address when the mainchain reports the deposit. *)
Theorem deposit_address_returns `{EncodingExternals} `{ProtoExternals} {W : Type} `{!MainchainServices W} (a : Types.Address)
    (value fee : u64) (s : Server W) (r : result ErrorObject Hash) (s' : Server W) :
  encoding_spec -> ascii_spec -> a < 2 ^ 160 ->
  is_Some (mi_miner (sv_mining s)) -> rpc_create_deposit a value fee s = (r, s') ->
  (exists named, deposit_address named = a /\
     mi_world (sv_mining s') = (svc_create_deposit_transaction
       (request.mkCreateDepositTransaction (Some THIS_SIDECHAIN) (Some named) (Some value) (Some fee)) (mi_world (sv_mining s))).2) /\
  exists formatted, rpc_format_deposit_address a s = (Ok formatted, s) /\ deposit_address formatted = a.
Proof.
  intros Hs Ha Hlt [miner Hm] Hr.
  destruct (deposit_address_named (address_bytes a) Hs Ha (length_be_bytes 20 a)) as [Hf Hb].
  assert (array_of_bytes (address_bytes a) = a) as Hv by (by apply be_bytes_array). rewrite Hv in Hf, Hb.
  split; [|by eexists]. exists (as_base58 (address_bytes a)). split; [done|].
  revert Hr. unfold rpc_create_deposit, mining_call, zoom, app_deposit, with_miner, mbind, op_bind, reading. rewrite Hm.
  unfold mainchain, zoom, create_deposit_tx, unary, mbind, op_bind, lifted.
  destruct (svc_create_deposit_transaction _ _) as [[status|txid] w]; by intros [= _ <-].
Qed.

(** ** The command line *)

Inductive Command : Type :=
| Command_Balance
| Command_BitnameData (bitname_id : BitName)
| Command_Bitnames
| Command_ConnectBlock (block : str) (main_block_hash : MainBlockHash)
| Command_ConnectPeer (addr : NetAddress.Address)
| Command_CreateDeposit (address : Types.Address) (value_sats fee_sats : u64)
| Command_CreateTransfer (dest : Types.Address) (value_sats fee_sats : u64)
| Command_CreateTransferMany (dests : list (Types.Address * u64)) (fee_sats : u64)
| Command_CreateWithdrawal (mainchain_address : MainAddress) (amount_sats fee_sats mainchain_fee_sats : u64)
| Command_DecryptMsg (encryption_pubkey : Types.EncryptionPubKey) (msg : str) (utf8 : bool)
| Command_EncryptMsg (encryption_pubkey : Types.EncryptionPubKey) (msg : string)
| Command_ForgetPeer (addr : NetAddress.Address)
| Command_FormatDepositAddress (address : Types.Address)
| Command_GenerateMnemonic
| Command_GetBestMainchainBlockHash
| Command_GetBestSidechainBlockHash
| Command_GetBlock (block_hash : BlockHash)
| Command_GetBlockcount
| Command_GetBlockHash (height : u32)
| Command_GetBlockIndex (block_hash : BlockHash)
| Command_GetBlockTemplate
| Command_GetBmmInclusions (block_hash : BlockHash)
| Command_GetNewAddress
| Command_GetNewEncryptionKey
| Command_GetNewVerifyingKey
| Command_GetPaymail
| Command_GetStxos (addresses : list Types.Address)
| Command_GetUtxos (addresses : list Types.Address)
| Command_GetWalletAddresses
| Command_GetWalletMasterXEsk
| Command_GetWalletMasterXVk
| Command_GetWalletUtxos
| Command_InvalidateBlock (block_hash : BlockHash)
| Command_LatestFailedWithdrawalBundleHeight
| Command_ListMempool
| Command_ListPeers
| Command_ListStxos
| Command_ListUtxos
| Command_MainchainSyncProgress
| Command_Mine (fee_sats : option u64)
| Command_MyUtxos
| Command_OpenApiSchema
| Command_PendingWithdrawalBundle
| Command_RegisterBitname (plaintext_name : string) (bitname_data : MutableBitNameData)
| Command_ReserveBitname (plaintext_name : string)
| Command_ResolveCommit (bitname_id : BitName) (field_name : string)
| Command_SetSeedFromMnemonic (mnemonic : string)
| Command_SidechainWealth
| Command_SignArbitraryMsg (verifying_key : Types.VerifyingKey) (msg : string)
| Command_SignArbitraryMsgAsAddr (address : Types.Address) (msg : string)
| Command_SignTransaction (transaction : Transaction) (broadcast : bool)
| Command_SubmitTransaction (transaction : AuthorizedTransaction)
| Command_Stop
| Command_VerifySignature (signature : Signature) (verifying_key : Types.VerifyingKey) (dst : Dst) (msg : string).

(** How an answer is rendered: with [serde_json::to_string_pretty], with its [Display], as the text it is, or not at all *)
Inductive Rendered : Type :=
| Out_Json {A : Type} (a : A)
| Out_Display {A : Type} (a : A)
| Out_Text (s : str)
| Out_String (s : string)
| Out_Empty.

Inductive CliError `{ProtoExternals} : Type :=
| Cli_Call (e : ErrorObject)
| Cli_Transport
| Cli_Json
| Cli_FromHex
| Cli_Utf8
| Cli_NoSocketAddr
| Cli_NoCommitment
| Cli_CommitmentMismatch.

(** The crates of the client: reading a block from JSON; the documents that the hosts of BitNames serve, as maps to values of
    JSON, and their canonical form; the schema of the interfaces *)
Class CliExternals : Type := {
  Json : Type;
  json_block : str -> option FullBlock;
  bitname_commit : SocketAddrV4 + SocketAddrV6 -> option (gmap string Json);
  to_canonical_vec : gmap string Json -> bytes;
  openapi_schema : str;
}.

Section cli.
Context `{Externals} `{WorkExternals} `{WalletExternals} `{NetExternals} `{DialExternals}.
Context `{EncodingExternals, ProtoExternals} {W : Type} `{!MainchainServices W} `{CliExternals}.
Context (get_block_infos : MainBlockHash -> u32 -> option (list (BlockHeaderInfo * BlockInfo))) (requests : nat).
Context (serialize_tx : MainTx -> bytes) (ecies_encrypt : Types.EncryptionPubKey -> bytes -> option bytes).
(** The randomness of the server: of the signatures, and of a new mnemonic *)
Context (rng : N) (rngs : nat -> N) (new_mnemonic : string).
Definition cli_op : Type -> Type := op (Server W) CliError.

(** A call of the client. A handler that does not return ends the connection. *)
Definition call {A} (method : @rpc _ W A) : cli_op A := fun s =>
  match method s with
  | (Ok a, s) => (Ok a, s)
  | (Err e, s) => (Err (Cli_Call e), s)
  | (Panic, s) => (Err Cli_Transport, s)
  end.
Definition json {A} (method : @rpc _ W A) : cli_op Rendered := a ← call method; mret (Out_Json a).
Definition display {A} (method : @rpc _ W A) : cli_op Rendered := a ← call method; mret (Out_Display a).
Definition empty {A} (method : @rpc _ W A) : cli_op Rendered := _ ← call method; mret Out_Empty.

Definition resolve_commit (bitname_id : BitName) (field_name : string) : cli_op (option Json) :=
  bitname_data ← call (rpc_bitname_data bitname_id);
  let data := bv_mutable_data bitname_data in
  socket_addr ← lifted (ok_or
    (match inl <$> mbd_socket_addr_v4 data with
     | Some addr => Some addr
     | None => inr <$> mbd_socket_addr_v6 data
     end) Cli_NoSocketAddr);
  commitment ← lifted (ok_or (mbd_commitment data) Cli_NoCommitment);
  document ← lifted (ok_or (bitname_commit socket_addr) Cli_Transport);
  let canonical_hash := blake3_hash (to_canonical_vec document) in
  _ ← lifted (ensure (commitment =? canonical_hash) Cli_CommitmentMismatch);
  mret (document !! field_name).

Definition handle_command (command : Command) : cli_op Rendered :=
  match command with
  | Command_Balance => json rpc_balance
  | Command_BitnameData bitname_id => json (rpc_bitname_data bitname_id)
  | Command_Bitnames => json rpc_bitnames
  | Command_ConnectBlock block main_block_hash =>
      block ← lifted (ok_or (json_block block) Cli_Json);
      display (rpc_connect_block get_block_infos requests serialize_tx block main_block_hash)
  | Command_ConnectPeer addr => empty (rpc_connect_peer addr)
  | Command_CreateDeposit address value_sats fee_sats => display (rpc_create_deposit address value_sats fee_sats)
  | Command_CreateTransfer dest value_sats fee_sats => display (rpc_create_transfer rngs dest value_sats fee_sats None)
  | Command_CreateTransferMany dests fee_sats => display (rpc_create_transfer_many rngs dests fee_sats)
  | Command_CreateWithdrawal mainchain_address amount_sats fee_sats mainchain_fee_sats =>
      display (rpc_create_withdrawal rngs mainchain_address amount_sats fee_sats mainchain_fee_sats)
  | Command_DecryptMsg encryption_pubkey msg utf8 =>
      msg_hex ← call (rpc_decrypt_msg encryption_pubkey msg);
      match utf8 with
      | true =>
          msg_bytes ← lifted (ok_or (hex_decode msg_hex) Cli_FromHex);
          text ← lifted (ok_or (from_utf8 msg_bytes) Cli_Utf8);
          mret (Out_Text text)
      | false => mret (Out_Text msg_hex)
      end
  | Command_EncryptMsg encryption_pubkey msg =>
      ciphertext ← call (rpc_encrypt_msg ecies_encrypt encryption_pubkey msg); mret (Out_Text ciphertext)
  | Command_ForgetPeer addr => empty (rpc_forget_peer addr)
  | Command_FormatDepositAddress address => address ← call (rpc_format_deposit_address address); mret (Out_Text address)
  | Command_GenerateMnemonic => mnemonic ← call (rpc_generate_mnemonic new_mnemonic); mret (Out_String mnemonic)
  | Command_GetBlock block_hash => json (rpc_get_block block_hash)
  | Command_GetBlockcount => display rpc_getblockcount
  | Command_GetBlockHash height => json (rpc_get_block_hash height)
  | Command_GetBlockIndex block_hash => json (rpc_get_block_index block_hash)
  | Command_GetBestMainchainBlockHash => json rpc_get_best_mainchain_block_hash
  | Command_GetBestSidechainBlockHash => json rpc_get_best_sidechain_block_hash
  | Command_GetBlockTemplate => json (rpc_get_block_template get_block_infos requests)
  | Command_GetBmmInclusions block_hash => json (rpc_get_bmm_inclusions block_hash)
  | Command_GetNewAddress => display rpc_get_new_address
  | Command_GetNewEncryptionKey => display rpc_get_new_encryption_key
  | Command_GetNewVerifyingKey => display rpc_get_new_verifying_key
  | Command_GetPaymail => json rpc_get_paymail
  | Command_GetStxos addresses => json (rpc_get_stxos (list_to_set addresses))
  | Command_GetUtxos addresses => json (rpc_get_utxos (list_to_set addresses))
  | Command_GetWalletAddresses => json rpc_get_wallet_addresses
  | Command_GetWalletMasterXEsk => display rpc_get_wallet_master_xesk
  | Command_GetWalletMasterXVk => display rpc_get_wallet_master_xvk
  | Command_GetWalletUtxos => json rpc_get_wallet_utxos
  | Command_InvalidateBlock block_hash => empty (rpc_invalidate_block block_hash)
  | Command_LatestFailedWithdrawalBundleHeight => json rpc_latest_failed_withdrawal_bundle_height
  | Command_ListMempool => json rpc_list_mempool
  | Command_ListPeers => json rpc_list_peers
  | Command_ListStxos => json rpc_list_stxos
  | Command_ListUtxos => json rpc_list_utxos
  | Command_MainchainSyncProgress => json rpc_mainchain_sync_progress
  | Command_Mine fee_sats => empty (rpc_mine get_block_infos requests serialize_tx fee_sats)
  | Command_MyUtxos => json rpc_my_utxos
  | Command_OpenApiSchema => mret (Out_Text openapi_schema)
  | Command_PendingWithdrawalBundle => json rpc_pending_withdrawal_bundle
  | Command_RegisterBitname plaintext_name bitname_data =>
      display (rpc_register_bitname rngs plaintext_name (Some bitname_data))
  | Command_ReserveBitname plaintext_name => display (rpc_reserve_bitname rngs plaintext_name)
  | Command_ResolveCommit bitname_id field_name => res ← resolve_commit bitname_id field_name; mret (Out_Json res)
  | Command_SetSeedFromMnemonic mnemonic => empty (rpc_set_seed_from_mnemonic mnemonic)
  | Command_SidechainWealth => display rpc_sidechain_wealth_sats
  | Command_SignArbitraryMsg verifying_key msg => display (rpc_sign_arbitrary_msg rng verifying_key msg)
  | Command_SignArbitraryMsgAsAddr address msg => json (rpc_sign_arbitrary_msg_as_addr rng address msg)
  | Command_SignTransaction transaction broadcast => json (rpc_sign_transaction rngs transaction (Some broadcast))
  | Command_SubmitTransaction transaction => display (rpc_submit_transaction transaction)
  | Command_Stop => empty rpc_stop
  | Command_VerifySignature signature verifying_key dst msg =>
      display (rpc_verify_signature signature verifying_key dst msg)
  end.
End cli.

(** ** Properties *)

(** A field that [resolve_commit] returns is authentic: it is from the document at the address of the name, the one of version 4
    first, and the hash of the document is the commitment that the name has in the state of the node; asking changes nothing. *)
Theorem resolve_commit_authentic `{Externals} `{ProtoExternals} {W : Type} `{CliExternals} (s s' : Server W)
    (bitname : BitName) (field : string) (value : option Json) :
  resolve_commit bitname field s = (Ok value, s') ->
  s' = s /\ exists view addr document,
    try_get_current_bitname_data (st_bitnames (nd_state (sv_node s))) bitname = Some view /\
    (Some addr = inl <$> mbd_socket_addr_v4 (bv_mutable_data view) \/
     (mbd_socket_addr_v4 (bv_mutable_data view) = None /\ Some addr = inr <$> mbd_socket_addr_v6 (bv_mutable_data view))) /\
    bitname_commit addr = Some document /\ value = document !! field /\
    mbd_commitment (bv_mutable_data view) = Some (blake3_hash (to_canonical_vec document)).
Proof.
  unfold resolve_commit. intros Hr. apply op_bind_Ok in Hr as (view & s1 & Hc & Hr). unfold call in Hc.
  unfold rpc_bitname_data, state_query, query, reading in Hc.
  destruct (get_current_bitname_data (st_bitnames (nd_state (sv_node s))) bitname) as [v|e|] eqn:Hv; [|done..].
  injection Hc as -> ->. op_inv. apply ok_or_Ok in Ho, Ho0, Ho1. apply ensure_Ok, N.eqb_eq in Ho2. subst.
  split; [done|]. exists view, x, x1. unfold get_current_bitname_data in Hv. apply ok_or_Ok in Hv.
  split_and!; [done| |done|done|done].
  destruct (mbd_socket_addr_v4 (bv_mutable_data view)); cbn in Ho |- *; auto.
Qed.

(** The commands that send a transaction print its identifier once it is in the pool; a command that fails prints none. *)
Theorem transfer_command_sent `{Externals} `{WorkExternals} `{WalletExternals} `{NetExternals} `{DialExternals}
    `{EncodingExternals, ProtoExternals} {W : Type} `{!MainchainServices W} `{CliExternals}
    (get_block_infos : MainBlockHash -> u32 -> option (list (BlockHeaderInfo * BlockInfo))) (requests : nat)
    (serialize_tx : MainTx -> bytes) (ecies_encrypt : Types.EncryptionPubKey -> bytes -> option bytes)
    (rng : N) (rngs : nat -> N) (new_mnemonic : string) (dest : Types.Address) (value fee : u64) (s s' : Server W) (out : Rendered) :
  handle_command get_block_infos requests serialize_tx ecies_encrypt rng rngs new_mnemonic
    (Command_CreateTransfer dest value fee) s = (Ok out, s') ->
  exists tx w stored, create_transfer dest value fee None (sv_wallet s) = (Ok tx, w) /\ out = Out_Display (txid tx) /\
    mp_transactions (nd_mempool (sv_node s')) !! txid tx = Some stored.
Proof.
  cbn [handle_command]. unfold display, call. intros Hr. apply op_bind_Ok in Hr as (t & s1 & Hc & Hr). injection Hr as <- <-.
  destruct (rpc_create_transfer rngs dest value fee None s) as [[t'|e|] s2] eqn:Ht; [|done..]. injection Hc as -> ->.
  unfold rpc_create_transfer in Ht. apply op_bind_Ok in Ht as (memo & s3 & [-> ->]%op_ret_Ok & Ht).
  apply send_built_Ok in Ht as (tx & w & auths & Hb & -> & _ & _ & _ & stored & Hp & _). by exists tx, w, stored.
Qed.
