(* ===== verification/AppSamples.v ===== *)
(** * Samples of the mainchain node and of the application

    A mainchain node that serves a chain of three blocks, with encodings that can be computed, and the theorems on its
    messages and on the task that follows it at concrete inputs. Then a mainchain node that includes the block that is mined,
    a wallet with an inbox, and a server with a wallet that has coins; the theorems on mining, paymail and sending
    evaluated on them. *)

From S2P Require Import Prelude Types Transaction Rollback BitNames Sample Authorization State Merkle Block.
From S2P Require Import SideTips Lineage Archive ArchiveTree ArchiveWf ArchiveBodies TipsWf ArchiveQueries ArchiveSamples ArchiveIter.
From S2P Require Import MainchainTask Mempool Node NodeTask NodePool Wallet WalletCoins App WalletSamples PeerMessage PeerTask PeerSamples.
From S2P Require Import NetAddress Encodings Proto Net NetTask NetSamples NodeQueries PeerSync BodyTotal MainchainRun MainchainSync.
From S2P Require Import Paymail Miner Rpc Derivation.

(** ** The mainchain node *)

Module ProtoSamples.
#[export] Existing Instance ArchiveSamples.work_externals.

(** ** Encodings *)

Definition hex_digit (n : N) : N := if n <? 10 then 48 + n else 87 + n.
Definition hex_value (c : N) : option N :=
  if (48 <=? c) && (c <=? 57) then Some (c - 48) else if (97 <=? c) && (c <=? 102) then Some (c - 87) else None.
Fixpoint decode_hex (s : list N) : option (list N) :=
  match s with
  | [] => Some []
  | c :: d :: s => x ← hex_value c; y ← hex_value d; b ← decode_hex s; Some (16 * x + y :: b)
  | _ => None
  end.
(** A number in strokes, each number ended by a [2] *)
Definition strokes (x : N) : list N := replicate (N.to_nat x) 49 ++ [50].
Fixpoint read_strokes (n : N) (s : list N) : option (list N) :=
  match s with
  | [] => Some []
  | c :: s => if c =? 49 then read_strokes (n + 1) s else cons n <$> read_strokes 0 s
  end.

#[export] Instance ascii_externals : EncodingExternals := {|
  base58_encode b := mjoin (strokes <$> b);
  base58_decode := read_strokes 0;
  base58_encode_check b := b;
  base58_decode_check s := Some s;
  sha256 b := replicate 32 (N.of_nat (length b) mod 256);
  hex_encode b := mjoin ((fun x => [hex_digit (x / 16 mod 16); hex_digit (x mod 16)]) <$> b);
  bech32m_encode_hrp hrp b := N.of_nat (length hrp) :: hrp ++ b;
  bech32_decode s := match s with
    | n :: s => Some (take (N.to_nat n) s, drop (N.to_nat n) s)
    | [] => None end;
  RistrettoKey := key_bytes 32;
  ristretto_deserialize := to_key_bytes 32;
  ristretto_bytes := proj1_sig;
  xprv_verified _ := true;
|}.

Lemma hex_digit_bounds n : n < 16 -> 48 <= hex_digit n <= 57 \/ 97 <= hex_digit n <= 102.
Proof. intros Hn. unfold hex_digit. destruct (N.ltb_spec n 10); lia. Qed.
Lemma hex_value_digit n : n < 16 -> hex_value (hex_digit n) = Some n.
Proof.
  intros Hn. unfold hex_value, hex_digit. destruct (N.ltb_spec n 10).
  - rewrite (proj2 (N.leb_le 48 (48 + n))), (proj2 (N.leb_le (48 + n) 57)) by lia. cbn [andb]. f_equal. lia.
  - rewrite (proj2 (N.leb_gt (87 + n) 57)) by lia. rewrite andb_false_r.
    rewrite (proj2 (N.leb_le 97 (87 + n))), (proj2 (N.leb_le (87 + n) 102)) by lia. cbn [andb]. f_equal. lia.
Qed.
Lemma hex_digits (P : N -> Prop) b :
  (forall c, 48 <= c <= 57 \/ 97 <= c <= 102 -> P c) -> Forall P (hex_encode b).
Proof.
  intros HP. cbn. induction b as [|x b IH]; cbn; [done|].
  constructor; [|constructor; [|done]]; apply HP, hex_digit_bounds, N.mod_lt; done.
Qed.
Lemma read_strokes_app x s n :
  read_strokes n (strokes x ++ s) = cons (n + x) <$> read_strokes 0 s.
Proof.
  unfold strokes. rewrite <-app_assoc. cbn [app]. rewrite <-(N2Nat.id x) at 2. generalize (N.to_nat x). intros k. revert n.
  induction k as [|k IH]; intros n; [cbn; by rewrite N.add_0_r|].
  cbn [replicate app read_strokes]. rewrite N.eqb_refl, IH. by replace (n + 1 + N.of_nat k) with (n + N.of_nat (S k)) by lia.
Qed.
Lemma strokes_ascii b (P : N -> Prop) : P 49 -> P 50 -> Forall P (base58_encode b).
Proof.
  intros H1 H2. cbn. induction b as [|x b IH]; cbn; [done|]. apply Forall_app. split; [|done].
  unfold strokes. apply Forall_app. split; [by apply Forall_replicate|by constructor].
Qed.
Lemma ascii : ascii_spec.
Proof.
  split; intros b; [by apply strokes_ascii|apply hex_digits]. intros c. lia.
Qed.
Lemma not_in_Forall (c : N) l : Forall (fun x => x <> c) l -> c ∉ l.
Proof. intros Hl Hin. by apply (proj1 (Forall_forall _ _) Hl _ Hin). Qed.
Lemma ascii_encodings : encoding_spec.
Proof.
  split.
  - intros b. induction b as [|x b IH]; [done|].
    change (read_strokes 0 (strokes x ++ base58_encode b) = Some (x :: b)). rewrite read_strokes_app.
    change (read_strokes 0 (base58_encode b)) with (base58_decode (base58_encode b)). by rewrite IH.
  - done.
  - intros b. apply not_in_Forall, strokes_ascii; done.
  - intros b. apply length_replicate.
  - intros b c. cbn. by rewrite fmap_app, join_app.
  - intros b. induction b as [|x b IH]; [done|].
    change (S (S (length (hex_encode b))) = (2 * S (length b))%nat). rewrite IH. lia.
  - intros b. unfold to_lowercase. rewrite <-(list_fmap_id (hex_encode b)) at 2. apply Forall_fmap_ext_1.
    apply hex_digits. intros c Hc. destruct (N.leb_spec 65 c), (N.leb_spec c 90); cbn [andb id]; try done. lia.
  - intros b. apply not_in_Forall, hex_digits. intros c Hc. unfold chr_underscore. lia.
  - intros hrp b _ _. cbn. rewrite Nat2N.id. by rewrite take_app_length, drop_app_length.
  - apply to_key_bytes_proj.
  - intros k. apply (key_bytes_length 32).
Qed.

(** ** Other crates of the messages *)

#[export] Instance proto_externals : ProtoExternals := {|
  Status := N;
  full_name _ := [109];
  message_NAME _ := [110];
  network_as_str_name _ := [];
  network_try_from z := if decide (z = 1%Z) then Some generated.Mainnet else None;
  hex_decode := decode_hex;
  consensus_serialize h := replicate (N.to_nat h) 1;
  consensus_deserialize b := Some (N.of_nat (length b));
  consensus_serialize_hex h := replicate (N.to_nat h) 49;
  consensus_deserialize_hex s := Some (N.of_nat (length s));
  borsh_deserialize b := Some (N.of_nat (length b));
  work_from_le_bytes h := h;
  work_to_le_bytes w := w;
  json_header_info _ := [];
  json_info _ := [];
  linked_from_iter l := l;
  main_address_from_str s := Some (N.of_nat (length s));
  main_address_to_string a := replicate (N.to_nat a) 49;
|}.
Lemma proto : proto_spec.
Proof.
  split.
  - intros b Hb. induction Hb as [|x b Hx Hb IH]; [done|].
    change (hex_encode (x :: b)) with (hex_digit (x / 16 mod 16) :: hex_digit (x mod 16) :: hex_encode b).
    cbn [hex_decode proto_externals decode_hex] in *.
    rewrite !hex_value_digit by (by apply N.mod_lt). cbn [mbind option_bind]. rewrite IH. cbn [mbind option_bind].
    rewrite N.mod_small by (apply N.Div0.div_lt_upper_bound; lia). by rewrite <-N.div_mod.
  - intros h. by apply Forall_replicate.
  - intros h. cbn. by rewrite length_replicate, N2Nat.id.
  - intros h. cbn. by rewrite length_replicate, N2Nat.id.
  - done.
  - done.
Qed.

(** ** A mainchain node *)

(** Blocks 101, 102, 103, and 202, 203 on another branch above 101 *)
Definition main_header (hash prev height : N) : BlockHeaderInfo := mkBlockHeaderInfo hash prev height 10.
Definition no_events : BlockInfo := mkBlockInfo None [].
Definition chain : MainBlocks := fun m =>
  if m =? 101 then Some (main_header 101 0 0, no_events)
  else if m =? 102 then Some (main_header 102 101 1, no_events)
  else if m =? 103 then Some (main_header 103 102 2, no_events)
  else if m =? 202 then Some (main_header 202 101 1, no_events)
  else if m =? 203 then Some (main_header 203 202 2, no_events)
  else None.
Lemma chain_cases m b : chain m = Some b ->
  (m = 101 /\ b = (main_header 101 0 0, no_events)) \/ (m = 102 /\ b = (main_header 102 101 1, no_events)) \/
  (m = 103 /\ b = (main_header 103 102 2, no_events)) \/ (m = 202 /\ b = (main_header 202 101 1, no_events)) \/
  (m = 203 /\ b = (main_header 203 202 2, no_events)).
Proof.
  unfold chain.
  destruct (N.eqb_spec m 101); [naive_solver|]. destruct (N.eqb_spec m 102); [naive_solver|].
  destruct (N.eqb_spec m 103); [naive_solver|]. destruct (N.eqb_spec m 202); [naive_solver|].
  destruct (N.eqb_spec m 203); naive_solver.
Qed.
Lemma chain_ok : blocks_ok chain.
Proof.
  split; intros m hi bi [[-> [= -> ->]]|[[-> [= -> ->]]|[[-> [= -> ->]]|[[-> [= -> ->]]|[-> [= -> ->]]]]]]%chain_cases; cbn; try done;
    by eexists _, _.
Qed.

Definition block_message (b : BlockHeaderInfo * BlockInfo) : generated.InfoMsg :=
  generated.mkInfo (Some (header_message b.1)) (Some (generated.mkBlockInfo None [])).
(** The world counts the calls for the tip, which is 102 at first and then 203. *)
#[export] Instance services : MainchainServices nat := {|
  EventStream := unit;
  svc_get_block_header_info _ w := (inr [], w);
  svc_get_block_info request w :=
    match decode_field Msg_Info "block_hash" (request.gb_block_hash request) with
    | Ok m => (inr (block_message <$> blocks_from chain (S (N.to_nat (default 0 (request.gb_max_ancestors request)))) m), w)
    | _ => (inl 0, w)
    end;
  svc_get_bmm_h_star_commitment _ w := (inr None, w);
  svc_get_chain_info w := (inr 1%Z, w);
  svc_get_chain_tip w :=
    (inr (Some (header_message (if (w <? 2)%nat then main_header 102 101 1 else main_header 203 202 2))), S w);
  svc_get_two_way_peg_data _ w := (inr [], w);
  svc_subscribe_events _ w := (inr tt, w);
  svc_next _ w := (None, w);
  svc_create_bmm_critical_data_transaction _ w := (inr None, w);
  svc_create_deposit_transaction _ w := (inr None, w);
  svc_create_new_address w := (inr [], w);
  svc_propose_withdrawal_bundle _ w := (inr tt, w);
  svc_generate_to_address _ w := (inr tt, w);
|}.
Definition stream : EventStream := tt.
#[export] Instance no_race : EventRace := fun _ w => (false, w).

Lemma block_messages_read n m : map_res info_try_from (block_message <$> blocks_from chain n m) = Ok (blocks_from chain n m).
Proof.
  revert m. induction n as [|n IH]; intros m; [done|]. cbn [blocks_from]. destruct (chain m) as [[hi bi]|] eqn:Hm; [|done].
  rewrite fmap_cons. cbn [map_res fst]. rewrite IH. unfold info_try_from, block_message.
  cbn [generated.header_info generated.block_info fst require ok_or mbind result_bind].
  rewrite (header_message_read hi proto). cbn [mbind result_bind].
  assert (bi = no_events) as -> by (apply chain_cases in Hm; naive_solver). done.
Qed.
Lemma chain_served : serves_chain (W := nat) chain.
Proof.
  intros m n w. exists (block_message <$> blocks_from chain (S (N.to_nat n)) m), w.
  split; [|apply block_messages_read]. cbn [svc_get_block_info services request.gb_block_hash request.gb_max_ancestors].
  rewrite decode_field_Some, (decode_ReverseHex_encode _ _ m proto). done.
Qed.

Definition task_new : MainchainTask nat := mkMainchainTask 0%nat archive_new progress_default [] [] true ∅ ∅.
Lemma new_follows : follows_chain chain archive_new.
Proof.
  split; [split|..].
  - split; [apply archive_new_wf|..].
    + intros m info Hm. cbn in Hm. by rewrite lookup_empty in Hm.
    + intros m info side Hm. cbn in Hm. by rewrite lookup_empty in Hm.
  - intros m [x Hm]. cbn in Hm. by rewrite lookup_empty in Hm.
  - intros m [->|[x Hm]]; cbn in *; [by eexists|by rewrite lookup_empty in Hm].
  - intros b Hb. by vm_compute in Hb.
  - intros m hi Hm. cbn in Hm. by rewrite lookup_empty in Hm.
  - intros m [x Hm]. cbn in Hm. by rewrite lookup_empty in Hm.
Qed.
Lemma chain_fork : last_common (chain_parent chain) 203 102 101.
Proof.
  split; [by exists 2%nat|by exists 1%nat|]. intros x [n Hn] [k Hk].
  destruct k as [|[|k]]; [|by injection Hk as <-; exists 0%nat|by cbn in Hk].
  injection Hk as <-. by destruct n as [|[|[|n]]].
Qed.
(** The task when it has come to block 102 *)
Definition at_102 : MainchainTask nat := (start_up 1 task_new).2.
End ProtoSamples.

(** ** Witnesses *)

#[local] Existing Instance ArchiveSamples.work_externals.
#[local] Existing Instance ProtoSamples.ascii_externals.
#[local] Existing Instance ProtoSamples.proto_externals.
#[local] Existing Instance ProtoSamples.services.
#[local] Existing Instance ProtoSamples.no_race.

(** A new node follows the chain to 102, and at the next start it is moved to 203 on the other branch. *)
Lemma start_up_follows_mainchain_witness :
  (exists t', start_up 1 ProtoSamples.task_new = (Ok (102, ProtoSamples.stream), t') /\
    main_tip_block_hash (sd_mainchain_tip (ar_side_tips (tk_archive t'))) = 102) /\
  (exists t', start_up 1 ProtoSamples.at_102 = (Ok (203, ProtoSamples.stream), t') /\
    main_tip_block_hash (sd_mainchain_tip (ar_side_tips (tk_archive t'))) = 203).
Proof.
  assert (exists t', start_up 1 ProtoSamples.task_new = (Ok (102, ProtoSamples.stream), t') /\
    follows_chain ProtoSamples.chain (tk_archive t') /\
    main_tip_block_hash (sd_mainchain_tip (ar_side_tips (tk_archive t'))) = 102) as (t1 & Ht1 & Hf1 & Htip1).
  { destruct (start_up_follows_mainchain (W := nat) ProtoSamples.chain 1 ProtoSamples.task_new 102 ProtoSamples.stream 2%nat
      (ProtoSamples.main_header 102 101 1) ProtoSamples.no_events) as (t' & start & ev & Hs & Hf & _ & Ht & _).
    - exact ProtoSamples.chain_ok.
    - exact ProtoSamples.chain_served.
    - exact ProtoSamples.new_follows.
    - reflexivity.
    - vm_compute. reflexivity.
    - reflexivity.
    - exact I.
    - vm_compute. lia.
    - exists t'. split; [exact Hs|]. split; [exact Hf|exact Ht]. }
  split; [exists t1; split; [exact Ht1|exact Htip1]|].
  assert (ProtoSamples.at_102 = t1) as Heq by (unfold ProtoSamples.at_102; by rewrite Ht1).
  destruct (start_up_follows_mainchain (W := nat) ProtoSamples.chain 1 ProtoSamples.at_102 203 ProtoSamples.stream 4%nat
    (ProtoSamples.main_header 203 202 2) ProtoSamples.no_events) as (t' & start & ev & Hs & _ & _ & Ht & _).
  - exact ProtoSamples.chain_ok.
  - exact ProtoSamples.chain_served.
  - rewrite Heq. exact Hf1.
  - vm_compute. reflexivity.
  - vm_compute. reflexivity.
  - reflexivity.
  - unfold can_move. assert (mct_tip_info (sd_mainchain_tip (ar_side_tips (tk_archive ProtoSamples.at_102))) =
      Some (ProtoSamples.main_header 102 101 1)) as -> by (vm_compute; reflexivity).
    split; [vm_compute; reflexivity|]. exists 101, (ProtoSamples.main_header 101 0 0).
    split; [vm_compute; reflexivity|]. split; [exact ProtoSamples.chain_fork|].
    intros h Hh. assert (h = 1) as -> by (cbn in Hh; lia). intros side Hside. vm_compute in Hside. discriminate.
  - vm_compute. lia.
  - exists t'. split; [exact Hs|exact Ht].
Defined.

(** A deposit to an address in the form for deposits, and one to the bare address *)
Lemma deposit_credited_witness :
  let a := replicate 19 1 ++ [7] in
  let deposit b := generated.mkdeposit_Output (Some (Some (hex_encode b))) (Some 5000) in
  filled_output_try_from (deposit (format_for_deposit a)) =
    Ok (mkFilledOutput (array_of_bytes a) (Filled_Bitcoin 5000) []) /\
  filled_output_try_from (deposit (as_base58 a)) = Ok (mkFilledOutput (array_of_bytes a) (Filled_Bitcoin 5000) []).
Proof.
  intros a deposit.
  destruct (deposit_credited ProtoSamples.ascii_encodings ProtoSamples.ascii) as [Hcredit _]. split.
  - apply (Hcredit (deposit (format_for_deposit a)) (hex_encode (format_for_deposit a)) (format_for_deposit a));
      [reflexivity|vm_compute; reflexivity|reflexivity|reflexivity|left; reflexivity].
  - apply (Hcredit (deposit (as_base58 a)) (hex_encode (as_base58 a)) (as_base58 a));
      [reflexivity|vm_compute; reflexivity|reflexivity|reflexivity|right; reflexivity].
Defined.

(** ** A block that was not asked for *)

(** A mainchain node that answers with block 102 and its ancestors, whatever is asked for *)
Definition other_services : MainchainServices nat :=
  {| EventStream := unit;
     svc_get_block_header_info := svc_get_block_header_info;
     svc_get_block_info _ w := (inr (ProtoSamples.block_message <$> blocks_from ProtoSamples.chain 3 102), w);
     svc_get_bmm_h_star_commitment := svc_get_bmm_h_star_commitment;
     svc_get_chain_info := svc_get_chain_info;
     svc_get_chain_tip := svc_get_chain_tip;
     svc_get_two_way_peg_data := svc_get_two_way_peg_data;
     svc_subscribe_events _ w := (inr tt, w);
     svc_next _ w := (None, w);
     svc_create_bmm_critical_data_transaction := svc_create_bmm_critical_data_transaction;
     svc_create_deposit_transaction := svc_create_deposit_transaction;
     svc_create_new_address := svc_create_new_address;
     svc_propose_withdrawal_bundle := svc_propose_withdrawal_bundle;
     svc_generate_to_address := svc_generate_to_address |}.
(** The first block of an answer need not be the one that was asked for: the request succeeds, and reports the block as
    available, while it is not stored. *)
Theorem unasked_block_accepted :
  let '(r, t') := request_infos (MainchainServices0 := other_services) 1 103 ProtoSamples.task_new in
  r = Ok true /\ ar_main_header_infos (tk_archive t') !! 103 = None /\
  ar_main_header_infos (tk_archive t') !! 102 = Some (ProtoSamples.main_header 102 101 1).
Proof. vm_compute. split; [reflexivity|]. split; reflexivity. Qed.

(** ** The application *)

(** ** Public derivation

    In the samples a key is its own public key, and the children that are not hardened are derived alike. *)
#[local] Existing Instance WalletSamples.wallet_externals.
#[local] Instance sample_xpub : XPubExternals :=
  fun x i => if i <? 2 ^ 31 then Ok (Sample.hash [x; i]) else Err ExpectedSoftDerivation.
Lemma sample_xpub_ok : xpub_spec.
Proof.
  split; intros x i Hi; unfold xpub_derive, sample_xpub; [by rewrite (proj2 (N.ltb_lt _ _) Hi)|].
  by rewrite (proj2 (N.ltb_ge _ _) Hi).
Qed.

Module AppSamples.
#[local] Existing Instance Sample.externals.
#[local] Existing Instance ArchiveSamples.work_externals.
#[local] Existing Instance WalletSamples.wallet_externals.
#[local] Existing Instance ProtoSamples.ascii_externals.
#[local] Existing Instance Codec.net_externals.

(** ** Mining *)

(** As in [ProtoSamples], with hashes that are written as one number *)
#[export] Instance proto_externals : ProtoExternals := {|
  Status := N;
  full_name _ := [109];
  message_NAME _ := [110];
  network_as_str_name _ := [];
  network_try_from z := if decide (z = 1%Z) then Some generated.Mainnet else None;
  hex_decode := ProtoSamples.decode_hex;
  consensus_serialize h := [h];
  consensus_deserialize := head;
  consensus_serialize_hex h := [h];
  consensus_deserialize_hex := head;
  borsh_deserialize := head;
  work_from_le_bytes h := h;
  work_to_le_bytes w := w;
  json_header_info _ := [];
  json_info _ := [];
  linked_from_iter l := l;
  main_address_from_str s := Some (N.of_nat (length s));
  main_address_to_string a := replicate (N.to_nat a) 49;
|}.

Definition main_101 : BlockHeaderInfo := mkBlockHeaderInfo 101 0 0 10.
Definition main_102 : BlockHeaderInfo := mkBlockHeaderInfo 102 101 1 10.
(** The world keeps the hash of the last BMM request, and the next block commits to it. *)
#[export] Instance services : MainchainServices (option HexMessage) := {|
  EventStream := unit;
  svc_get_block_header_info _ w := (inr [], w);
  svc_get_block_info _ w := (inr [], w);
  svc_get_bmm_h_star_commitment _ w := (inr None, w);
  svc_get_chain_info w := (inr 1%Z, w);
  svc_get_chain_tip w := (inr (Some (header_message main_101)), w);
  svc_get_two_way_peg_data _ w := (inr [], w);
  svc_subscribe_events _ w := (inr tt, w);
  svc_next _ w := (Some (inr (Some (Some (generated.ConnectBlock (Some (header_message main_102))
    (Some (generated.mkBlockInfo w [])))))), w);
  svc_create_bmm_critical_data_transaction r w := (inr (Some (ConsensusHex_encode 5)), request.cb_critical_hash r);
  svc_create_deposit_transaction _ w := (inr None, w);
  svc_create_new_address w := (inr [], w);
  svc_propose_withdrawal_bundle _ w := (inr tt, w);
  svc_generate_to_address _ w := (inr tt, w);
|}.

Definition template : option BlockTemplate :=
  match build_block_template WalletSamples.no_infos 0 None 101 WalletSamples.app with (Ok t, _) => Some t | _ => None end.
(** The mainchain task has followed the mainchain to the block that commits to the template. *)
Definition main_blocks : list (BlockHeaderInfo * BlockInfo) :=
  [(main_101, mkBlockInfo None []); (main_102, mkBlockInfo (header_hash ∘ tpl_header <$> template) [])].
Definition archive : Archive :=
  match fold_res store_infos main_blocks archive_new with
  | Ok a =>
      match fold_res (fun t h => connect_mainchain_tip t h None) main_blocks.*1 (ar_side_tips a) with
      | Ok t => put_side_tips t a
      | _ => a
      end
  | _ => archive_new
  end.
Definition mining : Mining (option HexMessage) :=
  mkMining (set_node (with_archive archive (app_node WalletSamples.app)) WalletSamples.app) (Some (miner_new false)) true None.
Definition no_bytes (_ : MainTx) : bytes := [].

(** ** A server whose wallet has coins *)
Definition server : Server (option HexMessage) :=
  mkServer (mkMining (mkApp WalletSamples.db WalletSamples.wallet ∅) None false None) (mkNet ∅ ∅) progress_default.
Definition transfer : wallet_op Transaction := create_transfer 7 310 20 (Some [1; 2]).
Definition sent : result ErrorObject Txid * Server (option HexMessage) := send_built WalletSamples.rngs transfer server.

(** ** An inbox *)

(** Transaction 10 is in the first block, transaction 11 in the second *)
Definition inbox_archive : Archive :=
  put_inclusions (fun _ => {[10 := {[ArchiveSamples.block0 := 0]}; 11 := {[ArchiveSamples.block1 := 0]}]}) ArchiveSamples.archive.
Definition fee_of (fee : u64) : MutableBitNameData := mkMutableBitNameData None None None None None (Some fee).
(** Name 77 asks for 100, name 78 for 40. *)
Definition inbox_names : Dbs :=
  mkDbs {[77 := bitname_data_init (fee_of 100) 10 0 0; 78 := bitname_data_init (fee_of 40) 10 0 1]} ∅ ∅.
Definition inbox_state : State :=
  set_tip (Some ArchiveSamples.block1) (Some 1) (set_bitname_dbs inbox_names empty_state).
(** The wallet owns name 77 at address 7; it had name 78 at address 8, and transaction 11 spent it. Transaction 11 pays 150 and
    50 to address 7 and 500 to address 8, with memos, and 700 to address 7 without one. *)
Definition inbox_utxos_sample : gmap OutPoint FilledOutput := list_to_map
  [(OutPoint_Regular 10 0, mkFilledOutput 7 (Filled_BitName 77) []);
   (OutPoint_Regular 11 0, mkFilledOutput 7 (Filled_Bitcoin 150) [1]);
   (OutPoint_Regular 11 1, mkFilledOutput 7 (Filled_Bitcoin 50) [1]);
   (OutPoint_Regular 11 2, mkFilledOutput 8 (Filled_Bitcoin 500) [1]);
   (OutPoint_Regular 11 3, mkFilledOutput 7 (Filled_Bitcoin 700) [])].
Definition inbox_stxos_sample : gmap OutPoint SpentOutput :=
  {[OutPoint_Regular 10 1 := mkSpentOutput (mkFilledOutput 8 (Filled_BitName 78) []) (InPoint_Regular 11 0)]}.
Definition inbox_app (utxos : gmap OutPoint FilledOutput) : App :=
  mkApp (mkNodeDb inbox_state inbox_archive empty_pool) (set_coins utxos inbox_stxos_sample wallet_new) ∅.
Definition mined : result MineError unit * Mining (option HexMessage) :=
  mine WalletSamples.no_infos 0 no_bytes None mining.
End AppSamples.
Import AppSamples.
#[local] Existing Instance Sample.externals.
#[local] Existing Instance ArchiveSamples.work_externals.
#[local] Existing Instance WalletSamples.wallet_externals.
#[local] Existing Instance ProtoSamples.ascii_externals.

(** A block is mined: it becomes the tip, and it is the one that the event commits to. *)
Lemma mine_submits_committed_witness :
  exists s', mined = (Ok tt, s') /\ st_tip (nd_state (app_node (mi_app s'))) = header_hash ∘ tpl_header <$> template /\
    (exists miner, mi_miner s' = Some miner /\ mn_block miner = None) /\
    exists tip t a events w w' info block_info,
      build_block_template WalletSamples.no_infos 0 None tip (mi_app mining) = (Ok t, a) /\
      event_stream_next events w = (Some (Ok (ConnectBlock info block_info)), w') /\
      bi_bmm_commitment block_info = Some (header_hash (tpl_header t)) /\
      app_node (mi_app s') =
        (submit_block WalletSamples.no_infos 0 (app_node a) (bhi_block_hash info) (tpl_header t) (tpl_body t)).1.
Proof.
  assert (mined = (Ok tt, mined.2)) as Hm by (vm_compute; reflexivity).
  destruct (mine_submits_committed WalletSamples.no_infos 0 no_bytes None mining mined.2 (Ok tt) Hm) as [[Hst|Hc] Hp].
  - exfalso. apply (f_equal st_tip) in Hst. vm_compute in Hst. discriminate Hst.
  - exists mined.2. split; [exact Hm|]. split; [vm_compute; reflexivity|]. split; [exact (Hp eq_refl)|exact Hc].
Defined.

#[local] Existing Instance Codec.net_externals.
(** A transfer is sent: the coins that it spends are not selected for the next one, which takes the last coin. *)
Lemma sent_transaction_reserved_witness :
  exists t s' atx coins coins', sent = (Ok t, s') /\ mp_transactions (nd_mempool (sv_node s')) !! t = Some atx /\
    select_coins (sv_wallet s') 5 = Ok coins /\ select_coins (update_wallet (sv_node s') (sv_wallet s')) 5 = Ok coins' /\
    forall o, o ∈ tx_inputs (at_transaction atx) -> coins.2 !! o = None /\ coins'.2 !! o = None.
Proof.
  assert (is_ok sent.1 = true) as Hok by (vm_compute; reflexivity).
  assert (is_ok (select_coins (sv_wallet sent.2) 5) = true) as Hc by (vm_compute; reflexivity).
  assert (is_ok (select_coins (update_wallet (sv_node sent.2) (sv_wallet sent.2)) 5) = true) as Hc' by (vm_compute; reflexivity).
  destruct sent as [r s'] eqn:Hs. apply is_ok_Ok in Hok as [t Ht]. cbn [fst] in Ht. subst r.
  destruct (sent_transaction_reserved WalletSamples.rngs transfer server s' t WalletSamples.par_sort
    ltac:(vm_compute; reflexivity) Hs) as (tx & w & atx & _ & _ & _ & _ & Hp & _ & Hsel).
  apply is_ok_Ok in Hc as [[total coins] Hc]. apply is_ok_Ok in Hc' as [[total' coins'] Hc']. cbn [snd] in Hc, Hc'.
  exists t, s', atx, (total, coins), (total', coins'). split; [reflexivity|]. split; [exact Hp|]. split; [exact Hc|].
  split; [exact Hc'|]. intros o Ho. split.
  - exact (Hsel _ (or_introl eq_refl) 5 total coins o Hc Ho).
  - refine (Hsel _ _ 5 total' coins' o Hc' Ho). right. exists (sv_node s'), (sv_wallet s'). split; [exact Hp|reflexivity].
Defined.

(** ** Paymail *)

Lemma put_inclusions_wf f a : archive_wf a -> archive_wf (put_inclusions f a).
Proof. apply same_chain_wf. by split. Qed.
Lemma inbox_archive_wf : archive_wf inbox_archive.
Proof. apply put_inclusions_wf, archive_reachable_wf, ArchiveSamples.archive_ok. Qed.
Lemma inbox_inclusions t b : is_Some (get_tx_inclusions inbox_archive t !! b) ->
  (t = 10 /\ b = ArchiveSamples.block0) \/ (t = 11 /\ b = ArchiveSamples.block1).
Proof.
  unfold get_tx_inclusions, inbox_archive. cbn [ar_txid_to_inclusions put_inclusions]. intros [i Hi].
  destruct (decide (t = 10)) as [->|H10].
  { rewrite lookup_insert_eq in Hi. cbn in Hi. apply lookup_singleton_Some in Hi as [<- _]. by left. }
  rewrite lookup_insert_ne in Hi by done. destruct (decide (t = 11)) as [->|H11].
  { rewrite lookup_singleton_eq in Hi. cbn in Hi. apply lookup_singleton_Some in Hi as [<- _]. by right. }
  rewrite lookup_singleton_ne in Hi by done. cbn in Hi. by rewrite lookup_empty in Hi.
Qed.
Lemma inbox_heights : archive_try_get_height inbox_archive ArchiveSamples.block0 = Some 0 /\
  archive_try_get_height inbox_archive ArchiveSamples.block1 = Some 1.
Proof. split; vm_compute; reflexivity. Qed.
Lemma inbox_confirmed utxos t h : confirmed_txid (inbox_app utxos) ArchiveSamples.block1 t h -> (t = 10 /\ h = 0) \/ (t = 11 /\ h = 1).
Proof.
  intros (b & Hb & _ & Hh). cbn [app_node inbox_app nd_archive] in Hb, Hh. destruct inbox_heights as [H0 H1].
  apply inbox_inclusions in Hb as [[-> ->]|[-> ->]]; [left|right]; split; congruence.
Qed.
Lemma inbox_names_owned o out : inbox_stxos_sample !! o = Some out ->
  o = OutPoint_Regular 10 1 /\ so_inpoint out = InPoint_Regular 11 0 /\ so_output out = mkFilledOutput 8 (Filled_BitName 78) [].
Proof. unfold inbox_stxos_sample. by intros [<- <-]%lookup_singleton_Some. Qed.
(** All that is needed of the unspent outputs is that the name is at its place. *)
Lemma inbox_fits utxos :
  (forall o out b, utxos !! o = Some out -> filled_bitname (fo_content out) = Some b -> o = OutPoint_Regular 10 0 /\ b = 77) ->
  books_fit (inbox_app utxos) ArchiveSamples.block1 None.
Proof.
  intros Hu. split.
  - exact WalletSamples.hashmap.
  - exact inbox_archive_wf.
  - reflexivity.
  - destruct inbox_heights as [_ ?]. by eexists.
  - intros t b Hb. destruct inbox_heights. apply inbox_inclusions in Hb as [[_ ->]|[_ ->]]; by eexists.
  - intros t h h' Hh%inbox_confirmed Hh'%inbox_confirmed. naive_solver lia.
  - intros o out b Ho Hb. unfold inbox_utxos, get_bitnames in Ho. apply map_lookup_filter_Some in Ho as [[Ho _]%map_lookup_filter_Some _].
    destruct (Hu o out b Ho Hb) as [-> ->]. split; [by eexists|]. vm_compute. by eexists.
  - intros o out b Ho Hb. unfold inbox_stxos, get_spent_bitnames in Ho. apply map_lookup_filter_Some in Ho as [[Ho _]%map_lookup_filter_Some _].
    apply inbox_names_owned in Ho as (-> & Hi & Hout). rewrite Hout in Hb. injection Hb as <-. split; [by eexists|]. split; [by eexists _, _|].
    intros h (t & n & [= <- <-] & Hc%inbox_confirmed). destruct Hc as [[_ ->]|[? _]]; [|done]. vm_compute. by eexists.
Qed.
Lemma inbox_sample_names o out b :
  inbox_utxos_sample !! o = Some out -> filled_bitname (fo_content out) = Some b -> o = OutPoint_Regular 10 0 /\ b = 77.
Proof.
  intros Ho Hb. apply elem_of_list_to_map_2 in Ho. repeat (apply elem_of_cons in Ho as [[= -> ->]|Ho]; [by simplify_eq/=|]).
  by apply not_elem_of_nil in Ho.
Qed.

(** Of the outputs with a memo only the one is paymail that pays what the name asks for: the second pays too little, and the wallet had
    given the name at the address of the third away. *)
Lemma get_paymail_exact_witness :
  exists m, get_paymail (inbox_app inbox_utxos_sample) None = Ok m /\
    m !! OutPoint_Regular 11 0 = Some (mkFilledOutput 7 (Filled_Bitcoin 150) [1]) /\ size m = 1%nat /\
    paymail (inbox_app inbox_utxos_sample) ArchiveSamples.block1 None (OutPoint_Regular 11 0) (mkFilledOutput 7 (Filled_Bitcoin 150) [1]) /\
    ~ paymail (inbox_app inbox_utxos_sample) ArchiveSamples.block1 None (OutPoint_Regular 11 1) (mkFilledOutput 7 (Filled_Bitcoin 50) [1]).
Proof.
  destruct (get_paymail_exact (inbox_app inbox_utxos_sample) ArchiveSamples.block1 None (inbox_fits _ inbox_sample_names))
    as (m & Hm & Hiff).
  { intros o out Ho _ _. apply elem_of_list_to_map_2 in Ho.
    repeat (apply elem_of_cons in Ho as [[= -> ->]|Ho]; [by eexists|]). by apply not_elem_of_nil in Ho. }
  exists m. split; [exact Hm|]. assert (m !! OutPoint_Regular 11 0 = Some (mkFilledOutput 7 (Filled_Bitcoin 150) [1]) /\ size m = 1%nat /\
    m !! OutPoint_Regular 11 1 = None) as (H0 & H1 & H2).
  { assert (match get_paymail (inbox_app inbox_utxos_sample) None with
      | Ok m => bool_decide (m !! OutPoint_Regular 11 0 = Some (mkFilledOutput 7 (Filled_Bitcoin 150) [1]) /\ size m = 1%nat /\
                  m !! OutPoint_Regular 11 1 = None)
      | _ => false end = true) as Hb by (vm_compute; reflexivity).
    rewrite Hm in Hb. by apply bool_decide_eq_true in Hb. }
  split; [exact H0|]. split; [exact H1|]. split; [by apply Hiff|]. intros Hp.
  assert (m !! OutPoint_Regular 11 1 = Some (mkFilledOutput 7 (Filled_Bitcoin 50) [1])) as Hn by (apply Hiff; split; [vm_compute; reflexivity|exact Hp]).
  congruence.
Defined.

(** A coinbase that pays to the address of the name, with a memo *)
Theorem coinbase_memo_panics :
  get_paymail (inbox_app (<[OutPoint_Coinbase 12 0 := mkFilledOutput 7 (Filled_Bitcoin 0) [1]]> inbox_utxos_sample)) None = Panic.
Proof. vm_compute. reflexivity. Qed.
